(* ===== verification/_CoqProject ===== *)
-Q . S2P
Prelude.v
GoStrings.v
GoTime.v
Json.v
Float.v
Sql.v
Schema.v
Ledger.v
Billing.v
Redeem.v
Checkin.v
Pricing.v
Epay.v
Delta.v
Sse.v
Settings.v
Mail.v
Models.v
Users.v
Proc.v
Rely.v
Recharge.v
ApiKey.v
Rbac.v
Access.v
Answers.v
Crypto.v
Account.v
Channels.v
Tasks.v
Archive.v
System.v
RateLimit.v
Caches.v
Lock.v
Signup.v
Playground.v
Router.v
UserAdmin.v
ProxyPool.v
Outside.v
Refresher.v
Prober.v
Import.v
ImportSpec.v
AccountPages.v
TokenSpec.v
Books.v
Upstream.v
Refs.v
Scheduler.v
Runner.v
UsageLog.v
Gateway.v
Stories.v
RunnerSpec.v
Chat.v
ChatBilling.v
Prompts.v
Inputs.v
ImageStore.v
DiskSpec.v
DiskRead.v
ImageChannel.v
Adapters.v
Links.v
Images.v
ImageServe.v
ServeSpec.v
ImageBilling.v
