(* ===== verification/Prelude.v ===== *)
(** * A verification library for gpt2api

    gpt2api (Go, under src/) serves an OpenAI-compatible API from a pool of
    ChatGPT accounts and from third-party channels, and sells it: users hold
    credits, buy them through a payment gateway, redeem codes or check in, and
    spend them through API keys.  This library models the Go code that decides
    who may do what, who pays what, and which account serves a request, and
    proves what that code promises.

    ** The program's parts and the files that model them

    Foundations:
    - Prelude: Go's (value, error) pairs, machine integers, generic lemmas and
      tactics.  GoStrings, GoTime, Float, Json: the functions of strings,
      strconv and time and the [float64] arithmetic the sources use, computed;
      documents and how encoding/json fills a struct from one.
    - Schema: a record per struct of the model.go files, a table per SQL table,
      and [DB], the database.  Sql: a statement, a transaction and the failures
      of the driver, as a state-passing error monad over the database and a
      schedule of failures, with its weakest-precondition style rules ([Keeps],
      [Steady], [runs] lemmas).
    - Proc: a handler that makes several calls outside a transaction, as a
      value of [proc]; [exec] runs one alone, [pool_step] any number of them
      interleaved call by call, any of which may be lost (a crash), and keeps
      the results of those that ended.  Rely: the
      rely-guarantee reasoning about such a pool: what each process owns and
      leaves alone, what it knows, and the invariant they keep together.
    - System: what the processes of the server share (MySQL, Redis, the clock)
      and the class of the Redis commands with their documented laws.
    - Access, Rbac, Crypto, Lock, RateLimit, Caches: pkg/jwt, pkg/resp,
      internal/middleware/auth.go; internal/rbac; pkg/crypto; pkg/lock;
      pkg/ratelimit with internal/ratelimit; internal/model/registry.go with
      internal/user/cache.go.

    Money:
    - Ledger: the abstract ledger (wallets and a journal, moved by entries).
      Billing: internal/billing/engine.go and admin.go, which refine it.
      Pricing: internal/billing/pricing.go, int64 with wrap-around and float64.
    - Redeem, Checkin: internal/redeem, internal/checkin.  Epay: the signed
      protocol of the payment gateway (pkg/epay).  Recharge: orders, from
      their creation to the credit (internal/recharge), as processes.

    Serving:
    - Settings, Models, Users, ApiKey: internal/settings, internal/model,
      internal/user, internal/apikey (DAO, service, and the middleware).
    - Account, ProxyPool, Scheduler: internal/account (DAO and service),
      internal/proxy (DAO, service, allocator), internal/scheduler.  Channels:
      internal/channel.  Books: none of their statements touches the money.
    - Outside: the requests to ChatGPT and OpenAI that do not serve a user, a
      record of what was asked and answered, and through which proxy
      (cmd/server/main.go, chatgpt/utls_transport.go).  Refresher, Prober,
      Import, AccountPages: internal/account/refresher.go, quota.go,
      importer.go with importer_tokens.go, handler.go.  ImportSpec, TokenSpec:
      what an import leaves behind; where the tokens in the table come from.
    - Sse, Adapters: the events of a conversation, as chatgpt/conversation.go
      reads them; the adapters of channels (internal/upstream/adapter): the
      requests they build and the answers they read, whole or in pieces.
    - Upstream, Gateway, Stories: what chat and images share: the types of the
      ChatGPT client; holds, refusals and usage records (internal/gateway); the
      stories a request may leave in the journal.
    - Delta, Chat, ChatBilling: internal/gateway/delta.go, chat.go,
      chat_channel.go: a chat request from its key to its usage record.
    - UsageLog: internal/usage/logger.go: the queue, the worker and its batches.

    Users:
    - Signup: internal/auth: codes by mail, sign-up, login, refresh, and
      their handlers.  Mail: pkg/mailer: the templates and the queue.
    - Playground: internal/gateway/playground.go: a signed-in user calls the
      gateway without a key.  Router: internal/server/router.go, cors.go,
      audit/middleware.go: every route with the middlewares before it.
    - UserAdmin: internal/user: what an administrator does to users, groups
      and wallets; a user's own profile and password.  Answers: pkg/resp.

    Images:
    - Tasks, Archive: internal/image/dao.go, model.go, task_meta.go: the rows
      of the requests; the part of runner.go that stores images.
    - Refs, Runner, RunnerSpec: internal/upstream/chatgpt/image.go (references
      in a stream, polling a conversation); internal/image/runner.go: attempts,
      retries, images drawn side by side.
    - Prompts, Inputs, ImageChannel, Images, ImageBilling: internal/gateway/
      images.go, image_channel.go, task_context.go: sizes and prompts,
      reference images, channels, the handlers, and what they charge.
    - Links: internal/imageproxy.
    - ImageStore, DiskSpec, DiskRead: internal/imagestore/local.go, thumb.go,
      handler.go, over a file system of names and inodes whose system calls are
      the calls of a process: the operations; what many of them together leave
      on the disk; what one of them reads of what another wrote.
    - ImageServe, ServeSpec: internal/gateway/images_proxy.go, its cache and
      internal/image/proxy_url.go: serving the image a link names.

    ** How they interact

    A gateway request passes [ApiKey.Middleware], then the handler consults
    the caches (Caches), the limiter (RateLimit), prices the call (Pricing),
    holds the estimate on the caller's wallet (Billing), takes an account
    (Scheduler, over Lock, Account and ProxyPool) or a channel (Channels),
    relays the answer (Delta), settles or refunds (Billing), marks the account
    and counts the quota of the key (ApiKey).  Each of these is one call of a
    [proc]; the theorems of ImageBilling, Recharge, Scheduler and Lock are about
    any interleaving of any number of them, with any failures.  An image request
    goes the same way; in between it has a row in image_tasks (Tasks), and its
    images are drawn by [Runner.Run], whose goroutines take turns call by call
    ([turns]) and deliver in any order ([arrival]), both parameters.  Next to
    the requests run the refresher and the prober, which replace the tokens of
    the accounts and read their quota while administrators import others.

    ** What the theorems show

    - Money: the journal explains every wallet ([billing_reconciles]) and the
      engine refines the ledger; an order is credited at most once, a code
      pays once, a day is awarded once ([one_award_per_day]); a request for a
      chat or for images leaves its own caller one of the stories of [story] in
      the journal, under a reference of its own, whatever happens around it;
      when it is answered, what it was charged in the end is the cost in its
      usage record, and what was given back was logged as failed (one
      exception, an image of a channel that costs nothing: [story_held],
      [free_channel_keeps_hold]).
    - Images: a run delivers exactly as many images as were asked for or fails,
      a route of a channel likewise; polling ends, and its report is what the
      answers it read come to ([poll_terminates]); what is passed on as a
      reference image is what was given, and a decoder reads it; a link opens one version of one image.  What is
      stored is whole or absent, with requests interleaved and lost between any
      two system calls ([files_whole]); it is read back as it was saved
      ([saved_is_read]); and what a link shows is what was saved for it
      ([link_shows_its_image]).
    - Exclusion and liveness: the Redis lock is exclusive among its holders
      while its lease lasts, so an account serves one request at a time; the
      dispatcher returns within its queue time; a request fails over from
      channel to channel.
    - Users: who may register, and that nobody does without the code that was
      mailed; whoever has registered can log in; the row and the
      role of an administrator survive every request to the pages of users that
      is not made in his name, and his own requests cannot delete or demote him
      (he can ban himself: [bans_himself]); what moves money or
      replaces a password is confirmed by one.
    - Authorisation: the middlewares admit exactly the callers that satisfy
      their conditions ([routes_guarded]); what a role may do is what its table
      says; on every route of the server the right ones stand before the
      handler ([doors]), and the table of routes is free of conflicts and its
      writes audited ([table_sound]).
    - Accounts: every access token in the table was there, pasted by an
      administrator, let in by chatgpt.com or given by it, whatever refreshes,
      probes, imports and pages of accounts run at once ([tokens_vouched]); the
      summary of an import says what was written ([import_accounted]).
    - Streams: an event is read as it was written; the text of a streamed
      answer is the text of the whole one; a usage record that was accepted is
      written, dropped with its batch, or still queued.
    - Data: stored secrets, keys and signed messages round-trip; getters of
      settings stay in their ranges; the rate limiter admits no more than its
      bucket and its refill allow; a key with a quota is charged it once in its
      life, not once a day ([quota_enforced]).
    - Where the code falls short, a theorem proves it ([credit_lost],
      [rotated_token_lost], [throttled_stays_aside]) and the findings of the manifest list it.

    ** Bounds and fuel

    Recursions that are not structural run on fuel, and a theorem says how
    much is enough: the queue of [Dispatch] needs one turn per half second of
    its queue time ([dispatch_fuel], [Dispatch_terminates]), polling one per
    interval of its longest wait ([poll_fuel], [poll_terminates]), Euclid's loop
    128, since two turns halve a number of 64 bits.  Machine integers
    are [Z] wrapped to their width by [int64] and its siblings where the code
    computes with them; [bigint] columns refuse a value out of range, as MySQL
    in strict mode does.  [float64] values are the rationals they denote,
    rounded after every operation; overflow to infinity is outside the ranges
    the theorems consider.  The theorem on the rate limiter supposes times
    below 2^50 milliseconds and commands that reach Redis in 50 s.

    ** What is a parameter

    Redis (commands with laws, instantiated by [map_redis]); MD5, SHA-256,
    bcrypt and its salt, AES-GCM, the JWT library, encoding/json, time zones, random bytes;
    what the upstream answers (to a refresh, a probe or an import too: [internet]), url.Parse, the exchange of HTTP requests and of mails, the store in the cloud, the decoders,
    scalers and encoders of images, http.DetectContentType, the MIME table, statfs, how the
    kernel cuts a write into pieces, the converter of HEIC, downloads.  Witnesses instantiate each.

    ** Not modelled

    - Of MySQL: the precision of DATETIME, the lengths of VARCHAR (but those of
      usage_logs) and of INT input, of DECIMAL columns all but the ratio of a
      group, the collation (strings compare byte by byte), deadlocks.  A call
      that fails has no effect, and a transaction whose commit fails leaves
      nothing: a connection lost after the server committed is not modelled.
    - The text of the error messages of the gateway (status and code are
      kept) and the wrapped part of some messages of imports and probes, logging, and Go's order of iteration over maps where it only
      decides the order of a set.
    - Glob patterns in a task id: ids are plain ([task_id_plain]).
    - The image handlers without a runner or without a DAO: the server always
      wires both.  A nil slice and an empty one are one list.
    - How many goroutines of a scan run at once: a semaphore only forbids some
      of the interleavings the theorems allow.
    - HTTP, TLS and processes: the ChatGPT client but for its parser of events, the
      uploads to the cloud and the thumbnails made before them, the proof of work, the SMTP
      dialogue, backups, gin, the embedded front end, the start-up in cmd.  The web front end and the
      deployment files are not Go.
    - CRUD pages and queries for administrators that only read or only relay
      to a modelled service (handlers of proxies, models, lists of
      users, usage statistics, audit, announcements, prompts, update log). *)

From stdpp Require Export base tactics numbers option list sorting fin_maps gmap strings pretty.
From Stdlib Require Export ZArith Lia.

#[global] Open Scope Z_scope.

(** ** Results: Go's [(value, error)] pairs *)

(** A Go [error] value.  [Sentinel] is a package-level [errors.New] variable
    (identified by its text, which carries its package), [EMsg] an anonymous
    [errors.New]/[fmt.Errorf] value, [EWrap] the [%w] verb and [EMySQL] a
    [*mysql.MySQLError] with its number. *)
Inductive goerr :=
  | Sentinel (text : string)
  | EMsg (text : string)
  | EMySQL (number : Z)
  | EWrap (prefix : string) (inner : goerr).

#[global] Instance goerr_eq_dec : EqDecision goerr.
Proof. solve_decision. Defined.

(** [errors.Is]: equality anywhere along the chain of wrapped errors. *)
Fixpoint errors_Is (e target : goerr) : bool :=
  bool_decide (e = target) ||
  match e with EWrap _ e' => errors_Is e' target | _ => false end.

Definition ErrNoRows : goerr := Sentinel "sql: no rows in result set".

(** Any failure of the connection itself. *)
Definition EDriver : goerr := EMsg "driver: bad connection".

Inductive result (A : Type) :=
  | Ok (a : A)
  | Err (e : goerr).
Arguments Ok {A} a.
Arguments Err {A} e.

(** [x <-? m ;; k] is Go's [x, err := m; if err != nil { return err }; k] on
    pure computations; the files with effects have [x <- m ;; k]. *)
Definition rbind {A B} (m : result A) (k : A → result B) : result B :=
  match m with Ok a => k a | Err e => Err e end.

Declare Scope go_scope.
Delimit Scope go_scope with go.
Notation "x <-? m ;; k" := (rbind m (fun x => k))
  (at level 20, m at level 99, k at level 200, right associativity) : go_scope.
#[global] Open Scope go_scope.

Definition is_ok {A} (r : result A) : bool :=
  match r with Ok _ => true | Err _ => false end.

Lemma errors_Is_refl e : errors_Is e e = true.
Proof. destruct e; cbn; by rewrite bool_decide_eq_true_2. Qed.

Lemma errors_Is_wrap p e t : errors_Is e t = true → errors_Is (EWrap p e) t = true.
Proof. intros H. cbn. rewrite H. apply orb_true_r. Qed.

(** [ORDER BY] and [sort.Slice]: sorting by a boolean order (stable). *)
Definition sort_by {A} (le : A → A → bool) : list A → list A :=
  @merge_sort A (λ x y, le x y = true) (λ x y, bool_eq_dec (le x y) true).

Lemma sort_by_Permutation {A} (le : A → A → bool) l : sort_by le l ≡ₚ l.
Proof. apply merge_sort_Permutation. Qed.

Lemma elem_of_sort_by {A} (le : A → A → bool) l x : x ∈ sort_by le l ↔ x ∈ l.
Proof. by rewrite sort_by_Permutation. Qed.

Lemma sort_by_sorted {A} (le : A → A → bool) l :
  (∀ x y, le x y = true ∨ le y x = true) → (∀ x y z, le x y = true → le y z = true → le x z = true) →
  StronglySorted (λ x y, le x y = true) (sort_by le l).
Proof.
  intros Htot Htr. apply StronglySorted_merge_sort.
  - intros x y z. apply Htr.
  - intros x y. apply Htot.
Qed.

Fixpoint sumZ {A} (f : A → Z) (l : list A) : Z :=
  match l with [] => 0 | x :: l => f x + sumZ f l end.

Lemma sumZ_app {A} (f : A → Z) l l' : sumZ f (l ++ l') = sumZ f l + sumZ f l'.
Proof. induction l as [|x l IH]; cbn; [done|]. rewrite IH. lia. Qed.

(** ** Machine integers *)

Definition i64_min : Z := - 2 ^ 63.
Definition i64_max : Z := 2 ^ 63 - 1.
Definition in_i64 (z : Z) : Prop := i64_min ≤ z ≤ i64_max.
#[global] Instance in_i64_dec z : Decision (in_i64 z).
Proof. unfold in_i64. apply _. Defined.

(** Go's [int64] arithmetic wraps around. *)
Definition wrap64 (z : Z) : Z := (z + 2 ^ 63) mod 2 ^ 64 - 2 ^ 63.

(** MySQL's [BIGINT] arithmetic raises ER_DATA_OUT_OF_RANGE instead. *)
Definition bigint (z : Z) : result Z :=
  if bool_decide (in_i64 z) then Ok z else Err (EMySQL 1690).

Lemma in_i64_unfold z : in_i64 z ↔ -9223372036854775808 ≤ z ≤ 9223372036854775807.
Proof. reflexivity. Qed.

Lemma wrap64_id z : in_i64 z → wrap64 z = z.
Proof.
  rewrite in_i64_unfold. unfold wrap64. intros H.
  rewrite Z.mod_small; [lia|]. change (2 ^ 63) with 9223372036854775808.
  change (2 ^ 64) with 18446744073709551616. lia.
Qed.

Lemma wrap64_in z : in_i64 (wrap64 z).
Proof.
  rewrite in_i64_unfold. unfold wrap64.
  change (2 ^ 63) with 9223372036854775808.
  change (2 ^ 64) with 18446744073709551616.
  pose proof (Z.mod_pos_bound (z + 9223372036854775808) 18446744073709551616).
  lia.
Qed.

Lemma bigint_ok z z' : bigint z = Ok z' ↔ z' = z ∧ in_i64 z.
Proof. unfold bigint. case_bool_decide; split; intros; destruct_and?; simplify_eq; done. Qed.

Lemma bigint_err z e : bigint z = Err e → e = EMySQL 1690 ∧ ¬ in_i64 z.
Proof. unfold bigint. case_bool_decide; intros; by simplify_eq. Qed.

Lemma bigint_in z : in_i64 z → bigint z = Ok z.
Proof. intros. by apply bigint_ok. Qed.

Create HintDb go discriminated.
Create Rewrite HintDb go.
#[export] Hint Resolve wrap64_in errors_Is_refl errors_Is_wrap : go.
#[export] Hint Rewrite wrap64_id using (assumption || (apply in_i64_unfold; lia)) : go.

(** [i64_lia]: linear arithmetic with the [int64] bounds spelled out. *)
Ltac i64_lia := rewrite ?in_i64_unfold in *; lia.

(** An INT column that arithmetic takes out of range. *)
Definition int32 (z : Z) : result Z :=
  if bool_decide (- 2 ^ 31 ≤ z < 2 ^ 31) then Ok z else Err (EMySQL 1264).

(** The permutation a list of choices makes of a list. *)
Fixpoint shuffle {A} (choices : list nat) (l : list A) : list A :=
  match choices with
  | [] => l
  | c :: choices =>
      match l !! c with
      | Some x => x :: shuffle choices (delete c l)
      | None => shuffle choices l
      end
  end.

Lemma shuffle_perm {A} (choices : list nat) (l : list A) : shuffle choices l ≡ₚ l.
Proof.
  revert l. induction choices as [|c choices IH]; intros l; cbn; [done|].
  destruct (l !! c) as [x|] eqn:E; [|apply IH]. rewrite IH. symmetry. by apply delete_Permutation.
Qed.
