(* ===== verification/GoStrings.v ===== *)
(** * The functions of Go's [strings] and [strconv] that the sources use

    A Go string is a sequence of bytes, a [string] here.  Case mapping is
    modelled on ASCII (other bytes are unchanged); [TrimSpace] knows every
    white-space rune of Unicode in its UTF-8 encoding. *)

From S2P Require Import Prelude.
From Stdlib Require Export Ascii.
From Stdlib Require String.
#[global] Open Scope Z_scope.

Definition bytes : string → list ascii := String.list_ascii_of_string.
Definition of_bytes : list ascii → string := String.string_of_list_ascii.
Definition code (c : ascii) : N := N_of_ascii c.

Lemma of_bytes_bytes s : of_bytes (bytes s) = s.
Proof. apply String.string_of_list_ascii_of_string. Qed.
Lemma bytes_of_bytes l : bytes (of_bytes l) = l.
Proof. apply String.list_ascii_of_string_of_list_ascii. Qed.
#[export] Hint Rewrite of_bytes_bytes bytes_of_bytes : go.

Lemma bytes_app s t : bytes (s +:+ t) = bytes s ++ bytes t.
Proof. induction s as [|a s IH]; [done|]. exact (f_equal (cons a) IH). Qed.

Lemma bytes_inj s t : bytes s = bytes t → s = t.
Proof. intros H. by rewrite <-(of_bytes_bytes s), H, of_bytes_bytes. Qed.

(** ** strings.TrimSpace *)

Definition space1 (a : ascii) : bool :=
  let a := code a in ((9 <=? a) && (a <=? 13) || (a =? 32))%N.
Definition space2 (a b : ascii) : bool :=
  let a := code a in let b := code b in
  ((a =? 0xC2) && ((b =? 0x85) || (b =? 0xA0)))%N.
Definition space3 (a b c : ascii) : bool :=
  let a := code a in let b := code b in let c := code c in
  ((a =? 0xE1) && (b =? 0x9A) && (c =? 0x80)
   || (a =? 0xE2) && (b =? 0x80) &&
        ((0x80 <=? c) && (c <=? 0x8A) || (c =? 0xA8) || (c =? 0xA9) || (c =? 0xAF))
   || (a =? 0xE2) && (b =? 0x81) && (c =? 0x9F)
   || (a =? 0xE3) && (b =? 0x80) && (c =? 0x80))%N.

(** Dropping leading white space; [flip] reads the runes backwards. *)
Fixpoint drop_space (flip : bool) (l : list ascii) : list ascii :=
  match l with
  | [] => []
  | a :: l1 =>
      if space1 a then drop_space flip l1 else
      match l1 with
      | b :: l2 =>
          if (if flip then space2 b a else space2 a b) then drop_space flip l2 else
          match l2 with
          | c :: l3 =>
              if (if flip then space3 c b a else space3 a b c) then drop_space flip l3 else l
          | [] => l
          end
      | [] => l
      end
  end.

Definition TrimSpace (s : string) : string :=
  of_bytes (rev (drop_space true (rev (drop_space false (bytes s))))).

(** ** Case *)

Definition is_upper (c : ascii) : bool := let c := code c in ((65 <=? c) && (c <=? 90))%N.
Definition is_lower (c : ascii) : bool := let c := code c in ((97 <=? c) && (c <=? 122))%N.
Definition is_digit (c : ascii) : bool := let c := code c in ((48 <=? c) && (c <=? 57))%N.
Definition upper (c : ascii) : ascii := if is_lower c then ascii_of_N (code c - 32) else c.
Definition lower (c : ascii) : ascii := if is_upper c then ascii_of_N (code c + 32) else c.

Definition map_string (f : ascii → ascii) (s : string) : string := of_bytes (map f (bytes s)).
Definition ToUpper : string → string := map_string upper.
Definition ToLower : string → string := map_string lower.
Definition EqualFold (s t : string) : bool := String.eqb (ToLower s) (ToLower t).

(** ** Searching *)

Fixpoint HasPrefix (s p : string) {struct p} : bool :=
  match p, s with
  | EmptyString, _ => true
  | String a p, String b s => Ascii.eqb a b && HasPrefix s p
  | String _ _, EmptyString => false
  end.

Definition HasSuffix (s p : string) : bool :=
  HasPrefix (of_bytes (rev (bytes s))) (of_bytes (rev (bytes p))).

Fixpoint Contains (s p : string) : bool :=
  HasPrefix s p || match s with EmptyString => false | String _ s => Contains s p end.

(** [s[n:]], [s[:n]] for [n] within bounds. *)
Fixpoint string_drop (n : nat) (s : string) : string :=
  match n, s with
  | S n, String _ s => string_drop n s
  | _, _ => s
  end.
Fixpoint string_take (n : nat) (s : string) : string :=
  match n, s with
  | S n, String a s => String a (string_take n s)
  | _, _ => EmptyString
  end.

Definition TrimPrefix (s p : string) : string :=
  if HasPrefix s p then string_drop (String.length p) s else s.

(** [strings.Split] by a one-byte separator. *)
Fixpoint split_bytes (sep : ascii) (acc : list ascii) (l : list ascii) : list string :=
  match l with
  | [] => [of_bytes (rev acc)]
  | c :: l => if Ascii.eqb c sep then of_bytes (rev acc) :: split_bytes sep [] l
              else split_bytes sep (c :: acc) l
  end.
Definition Split (s : string) (sep : ascii) : list string := split_bytes sep [] (bytes s).

(** [strings.Index]. *)
Fixpoint Index (s p : string) : option nat :=
  if HasPrefix s p then Some O else
  match s with EmptyString => None | String _ s => S <$> Index s p end.

(** [strings.Cut] at a separator that is found. *)
Definition Cut (s p : string) : option (string * string) :=
  match Index s p with
  | Some i => Some (string_take i s, string_drop (i + String.length p) s)
  | None => None
  end.

Definition TrimSuffix (s p : string) : string :=
  if HasSuffix s p then string_take (String.length s - String.length p) s else s.

Fixpoint Join (l : list string) (sep : string) : string :=
  match l with
  | [] => ""
  | [s] => s
  | s :: l => s +:+ sep +:+ Join l sep
  end.

(** [strings.ReplaceAll] of one byte by another. *)
Definition replace_byte (a b : ascii) : string → string :=
  map_string (λ c, if Ascii.eqb c a then b else c).

(** [s[:i]], [s[i+1:]] for [i] the last index of the byte [c]. *)
Fixpoint last_cut (c : ascii) (l : list ascii) : option (list ascii * list ascii) :=
  match l with
  | [] => None
  | a :: l =>
      match last_cut c l with
      | Some (x, y) => Some (a :: x, y)
      | None => if Ascii.eqb a c then Some ([], l) else None
      end
  end.

(** ** strconv *)

Definition digit (c : ascii) : Z := Z.of_N (code c) - 48.

Fixpoint digits_value (acc : Z) (l : list ascii) : option Z :=
  match l with
  | [] => Some acc
  | c :: l => if is_digit c then digits_value (10 * acc + digit c) l else None
  end.

(** An optional sign and at least one digit. *)
Definition signed_digits (s : string) : option Z :=
  let '(sign, l) := match bytes s with
                    | c :: l => if Ascii.eqb c "-" then (-1, l)
                                else if Ascii.eqb c "+" then (1, l) else (1, c :: l)
                    | [] => (1, [])
                    end in
  match l with
  | [] => None
  | _ => match digits_value 0 l with Some v => Some (sign * v) | None => None end
  end.

(** [strconv.Atoi] (and [ParseInt] in base 10, 64 bits), without errors. *)
Definition Atoi (s : string) : option Z :=
  match signed_digits s with
  | Some v => if bool_decide (in_i64 v) then Some v else None
  | None => None
  end.

(** The value [ParseInt] returns next to an error: 0 for a syntax error, the
    nearest bound for a number out of range. *)
Definition ParseInt_value (s : string) : Z :=
  match signed_digits s with
  | Some v => Z.max i64_min (Z.min i64_max v)
  | None => 0
  end.

(** [strconv.ParseUint] in base 10, 64 bits. *)
Definition ParseUint (s : string) : option N :=
  match bytes s with
  | [] => None
  | l => match digits_value 0 l with
         | Some v => if v <? 2 ^ 64 then Some (Z.to_N v) else None
         | None => None
         end
  end.

(** [%d] *)
Definition itoa (z : Z) : string := pretty z.

(** ** hex.EncodeToString *)

Definition hex_digit (n : N) : ascii :=
  if (n <? 10)%N then ascii_of_N (48 + n) else ascii_of_N (87 + n).
Definition hex_encode (l : list ascii) : string :=
  of_bytes (flat_map (λ c, [hex_digit (code c / 16); hex_digit (code c mod 16)]) l).

(** ** Lemmas *)

Lemma HasPrefix_spec s p : HasPrefix s p = true ↔ ∃ t, s = p +:+ t.
Proof.
  revert s. induction p as [|a p IH]; intros s; cbn; [split; [by exists s|done]|].
  destruct s as [|b s]; cbn; [split; [done|by intros [t ?]]|].
  rewrite andb_true_iff, IH, Ascii.eqb_eq. split.
  - intros [-> [t ->]]. by exists t.
  - intros [t [= -> ->]]. eauto.
Qed.

Lemma map_string_idemp f s : (∀ c, f (f c) = f c) → map_string f (map_string f s) = map_string f s.
Proof.
  intros Hf. unfold map_string. rewrite bytes_of_bytes, map_map. f_equal.
  by apply map_ext.
Qed.

Lemma upper_idemp c : upper (upper c) = upper c.
Proof. by destruct c as [[] [] [] [] [] [] [] []]; vm_compute. Qed.
Lemma lower_idemp c : lower (lower c) = lower c.
Proof. by destruct c as [[] [] [] [] [] [] [] []]; vm_compute. Qed.
Lemma lower_upper c : lower (upper c) = lower c.
Proof. by destruct c as [[] [] [] [] [] [] [] []]; vm_compute. Qed.
#[export] Hint Resolve upper_idemp lower_idemp lower_upper : go.

Lemma ToUpper_idemp s : ToUpper (ToUpper s) = ToUpper s.
Proof. apply map_string_idemp, upper_idemp. Qed.
Lemma ToLower_idemp s : ToLower (ToLower s) = ToLower s.
Proof. apply map_string_idemp, lower_idemp. Qed.

(** White space is not changed by case mapping. *)
Lemma space1_upper c : space1 (upper c) = space1 c.
Proof. by destruct c as [[] [] [] [] [] [] [] []]; vm_compute. Qed.

(** *** [TrimSpace] twice *)

(** What is left is not shortened any further. *)
Lemma drop_space_fixed flip l :
  drop_space flip l = l ∨ ∃ l', drop_space flip l = drop_space flip l' ∧ (length l' < length l)%nat.
Proof.
  destruct l as [|a l1]; [by left|]. cbn [drop_space]. destruct (space1 a); [right; exists l1; cbn; auto|].
  destruct l1 as [|b l2]; [by left|]. destruct (if flip then _ else _); [right; exists l2; cbn; auto|].
  destruct l2 as [|c l3]; [by left|]. destruct (if flip then _ else _); [right; exists l3; cbn; auto|]. by left.
Qed.

Lemma shorter_ind {A} (P : list A → Prop) :
  (∀ l, (∀ l', (length l' < length l)%nat → P l') → P l) → ∀ l, P l.
Proof. intros H. apply (induction_ltof1 _ length). exact H. Qed.

Lemma drop_space_length flip l : (length (drop_space flip l) ≤ length l)%nat.
Proof.
  induction l as [l IH] using shorter_ind.
  destruct (drop_space_fixed flip l) as [E|(l' & E & Hl)]; rewrite E; [done|]. pose proof (IH l' Hl). lia.
Qed.

Lemma drop_space_idemp flip l : drop_space flip (drop_space flip l) = drop_space flip l.
Proof.
  induction l as [l IH] using shorter_ind.
  destruct (drop_space_fixed flip l) as [E|(l' & E & Hl)]; [by rewrite E|]. rewrite E. by apply IH.
Qed.

Lemma drop_space_prefix m r : drop_space false (m ++ r) = m ++ r → drop_space false m = m.
Proof.
  destruct m as [|a l1]; [done|]. intros H.
  assert (∀ l', (length l' < length ((a :: l1) ++ r))%nat → drop_space false l' ≠ (a :: l1) ++ r) as Hne.
  { intros l' Hl' E. pose proof (drop_space_length false l') as Hd. rewrite E in Hd. lia. }
  cbn [app drop_space] in *. destruct (space1 a); [by apply Hne in H; [|cbn; lia]|].
  destruct l1 as [|b l2]; [done|]. cbn [app] in *. destruct (space2 a b); [by apply Hne in H; [|cbn; lia]|].
  destruct l2 as [|c l3]; [done|]. cbn [app] in *. destruct (space3 a b c); [by apply Hne in H; [|cbn; lia]|]. done.
Qed.

Lemma drop_space_suffix flip l : ∃ pre, l = pre ++ drop_space flip l.
Proof.
  induction l as [l IH] using shorter_ind. destruct l as [|a l1]; [by exists []|].
  assert (∀ pre l', (a :: l1) = pre ++ l' → (length l' < length (a :: l1))%nat →
    ∃ pre', (a :: l1) = pre' ++ drop_space flip l') as Hgo.
  { intros pre l' E Hl. destruct (IH _ Hl) as [pre' E']. exists (pre ++ pre'). by rewrite <-app_assoc, <-E'. }
  cbn [drop_space]. destruct (space1 a); [by apply (Hgo [a]); [|cbn; lia]|].
  destruct l1 as [|b l2]; [by exists []|]. destruct (if flip then _ else _); [by apply (Hgo [a; b]); [|cbn; lia]|].
  destruct l2 as [|c l3]; [by exists []|]. destruct (if flip then _ else _); [by apply (Hgo [a; b; c]); [|cbn; lia]|].
  by exists [].
Qed.

(** The bytes of a trimmed text. *)
Record trimmed (l : list ascii) : Prop := {
  tr_left : drop_space false l = l;
  tr_right : drop_space true (rev l) = rev l
}.

Lemma TrimSpace_trimmed s : trimmed (bytes (TrimSpace s)).
Proof.
  unfold TrimSpace. rewrite bytes_of_bytes. set (m := drop_space false (bytes s)).
  destruct (drop_space_suffix true (rev m)) as [pre E]. apply (f_equal (@rev _)) in E.
  rewrite rev_involutive, rev_app_distr in E. split.
  - apply (drop_space_prefix _ (rev pre)). rewrite <-E. apply drop_space_idemp.
  - rewrite rev_involutive. apply drop_space_idemp.
Qed.

Lemma trimmed_TrimSpace s : trimmed (bytes s) → TrimSpace s = s.
Proof. intros [H1 H2]. unfold TrimSpace. by rewrite H1, H2, rev_involutive, of_bytes_bytes. Qed.

Lemma TrimSpace_idemp s : TrimSpace (TrimSpace s) = TrimSpace s.
Proof. apply trimmed_TrimSpace, TrimSpace_trimmed. Qed.

(** Printable ASCII, without the space. *)
Definition is_graphic (c : ascii) : bool := let c := code c in ((33 <=? c) && (c <=? 126))%N.

Lemma graphic_space a b c :
  is_graphic a = true → space1 a = false ∧ space2 a b = false ∧ space2 b a = false ∧
    space3 a b c = false ∧ space3 c b a = false.
Proof.
  unfold is_graphic, space1, space2, space3. generalize (code a) (code b) (code c).
  intros x y z. rewrite andb_true_iff, !N.leb_le. intros [H1 H2].
  assert (∀ k, (126 < k)%N → (x =? k)%N = false) as E by (intros; apply N.eqb_neq; lia).
  assert (∀ k, (126 < k)%N → (k <=? x)%N = false) as L by (intros; apply N.leb_gt; lia).
  repeat match goal with |- context [(x =? ?k)%N] => rewrite (E k) by lia end.
  repeat match goal with |- context [(?k <=? x)%N] => rewrite (L k) by lia end.
  rewrite !andb_false_r. cbn.
  rewrite orb_false_iff, andb_false_iff, N.leb_gt, N.leb_gt, N.eqb_neq. split_and!; try done; lia.
Qed.

Lemma drop_space_graphic flip c l : is_graphic c = true → drop_space flip (c :: l) = c :: l.
Proof.
  intros Hc. cbn. destruct (graphic_space c c c Hc) as (-> & _). destruct l as [|b l]; [done|].
  destruct (graphic_space c b b Hc) as (_ & H1 & H2 & _ & _).
  destruct flip; rewrite ?H1, ?H2; (destruct l as [|e l]; [done|]);
    destruct (graphic_space c b e Hc) as (_ & _ & _ & H3 & H4); by rewrite ?H3, ?H4.
Qed.

Lemma drop_space1 flip sp l : Forall (λ c, space1 c = true) sp → drop_space flip (sp ++ l) = drop_space flip l.
Proof. induction 1 as [|c sp Hc _ IH]; cbn; [done|]. by rewrite Hc. Qed.

(** White space around a printable word is trimmed, and nothing else. *)
Lemma TrimSpace_word sp sp' l :
  Forall (λ c, space1 c = true) sp → Forall (λ c, space1 c = true) sp' →
  Forall (λ c, is_graphic c = true) l → l ≠ [] →
  TrimSpace (of_bytes (sp ++ l ++ sp')) = of_bytes l.
Proof.
  intros Hsp Hsp' Hl Hne. unfold TrimSpace. rewrite bytes_of_bytes, drop_space1 by done.
  destruct l as [|c l]; [done|]. cbn [app]. rewrite drop_space_graphic by by inversion Hl.
  change (c :: l ++ sp') with ((c :: l) ++ sp'). rewrite rev_app_distr, drop_space1.
  2: { by apply Forall_rev. }
  destruct (rev (c :: l)) as [|x r] eqn:E.
  { apply (f_equal List.length) in E. rewrite length_rev in E. done. }
  rewrite drop_space_graphic.
  - by rewrite <-E, rev_involutive.
  - assert (x ∈ rev (c :: l)) as Hx by (rewrite E; left).
    apply list_elem_of_In, in_rev, list_elem_of_In in Hx. rewrite Forall_forall in Hl. by apply Hl.
Qed.

Lemma TrimSpace_graphic l :
  Forall (λ c, is_graphic c = true) l → l ≠ [] → TrimSpace (of_bytes l) = of_bytes l.
Proof.
  intros Hl Hne. pose proof (TrimSpace_word [] [] l) as Hw. rewrite app_nil_r in Hw. by apply Hw.
Qed.

Lemma graphic_upper c : is_graphic c = true → is_graphic (upper c) = true.
Proof. by destruct c as [[] [] [] [] [] [] [] []]; vm_compute. Qed.

Lemma graphic_hex_digit n : (n < 16)%N → is_graphic (hex_digit n) = true.
Proof.
  intros Hn. assert (n = 0 ∨ n = 1 ∨ n = 2 ∨ n = 3 ∨ n = 4 ∨ n = 5 ∨ n = 6 ∨ n = 7 ∨ n = 8 ∨
    n = 9 ∨ n = 10 ∨ n = 11 ∨ n = 12 ∨ n = 13 ∨ n = 14 ∨ n = 15)%N as H by lia.
  by repeat destruct H as [->|H]; [vm_compute..|subst n; vm_compute].
Qed.

Lemma code_lt c : (code c < 256)%N.
Proof. apply N_ascii_bounded. Qed.

Lemma graphic_hex_encode l : Forall (λ c, is_graphic c = true) (bytes (hex_encode l)).
Proof.
  unfold hex_encode. rewrite bytes_of_bytes. induction l as [|c l IH]; cbn; [constructor|].
  pose proof (code_lt c).
  repeat constructor; [| |done]; apply graphic_hex_digit.
  - apply N.Div0.div_lt_upper_bound; lia.
  - apply N.mod_lt. lia.
Qed.

Lemma graphic_ToUpper s :
  Forall (λ c, is_graphic c = true) (bytes s) → Forall (λ c, is_graphic c = true) (bytes (ToUpper s)).
Proof.
  unfold ToUpper, map_string. rewrite bytes_of_bytes. intros H. apply Forall_map.
  eapply Forall_impl; [done|]. intros c. apply graphic_upper.
Qed.

(** ** Decimal numerals *)

Lemma digit_pretty_char n : (n < 10)%N →
  is_digit (pretty_N_char n) = true ∧ digit (pretty_N_char n) = Z.of_N n.
Proof.
  intros H. assert (n = 0 ∨ n = 1 ∨ n = 2 ∨ n = 3 ∨ n = 4 ∨ n = 5 ∨ n = 6 ∨ n = 7 ∨ n = 8 ∨ n = 9)%N
    as Hn by lia. by destruct_or? Hn; subst.
Qed.

Lemma pretty_N_digits n s : (0 < n)%N →
  ∃ l, bytes (pretty_N_go n s) = l ++ bytes s ∧ l ≠ [] ∧ Forall (λ c, is_digit c = true) l ∧
    ∀ r, digits_value 0 (l ++ r) = digits_value (Z.of_N n) r.
Proof.
  revert s. induction (N.lt_wf_0 n) as [n _ IH]; intros s Hn.
  rewrite pretty_N_go_step by done.
  destruct (digit_pretty_char (n mod 10)) as [Hd Hv]; [by apply N.mod_upper_bound|].
  pose proof (N.div_mod n 10 ltac:(lia)) as Hdiv.
  destruct (decide (n / 10 = 0)%N) as [H0|H0].
  - rewrite H0, pretty_N_go_0. exists [pretty_N_char (n mod 10)]. split_and!; [done|done|by constructor|].
    intros r. cbn [app digits_value]. rewrite Hd, Hv. f_equal. lia.
  - destruct (IH (n / 10)%N (N.div_lt n 10 Hn eq_refl) (String (pretty_N_char (n mod 10)) s) (proj1 (N.neq_0_lt_0 _) H0))
      as (l & Hl & _ & Hf & Hval).
    exists (l ++ [pretty_N_char (n mod 10)]). split_and!.
    + by rewrite Hl, <-app_assoc.
    + by destruct l.
    + apply Forall_app. split; [done|by constructor].
    + intros r. rewrite <-app_assoc, Hval. cbn [app digits_value]. rewrite Hd, Hv. f_equal. lia.
Qed.

(** [%d] prints a non-empty run of digits with its value. *)
Lemma itoa_digits z : 0 ≤ z →
  bytes (itoa z) ≠ [] ∧ Forall (λ c, is_digit c = true) (bytes (itoa z)) ∧
  digits_value 0 (bytes (itoa z)) = Some z.
Proof.
  intros Hz. destruct z as [|p|p]; [by vm_compute; repeat constructor| |lia].
  destruct (pretty_N_digits (Npos p) "" ltac:(lia)) as (l & Hl & Hne & Hf & Hval).
  unfold itoa. change (pretty (Z.pos p)) with (pretty_N_go (N.pos p) "").
  rewrite Hl, app_nil_r. specialize (Hval []). rewrite app_nil_r in Hval. done.
Qed.

Lemma digit_not_sign c : is_digit c = true → Ascii.eqb c "-" = false ∧ Ascii.eqb c "+" = false.
Proof. by destruct c as [[] [] [] [] [] [] [] []]; vm_compute. Qed.

Lemma Atoi_itoa z : 0 ≤ z → in_i64 z → Atoi (itoa z) = Some z.
Proof.
  intros Hz Hi. destruct (itoa_digits z Hz) as (Hne & Hf & Hv). unfold Atoi, signed_digits.
  destruct (bytes (itoa z)) as [|c l]; [done|].
  destruct (digit_not_sign c) as [-> ->]; [by inversion Hf|].
  rewrite Hv, Z.mul_1_l. by rewrite bool_decide_eq_true_2.
Qed.

Lemma ParseInt_value_in s : in_i64 (ParseInt_value s).
Proof. unfold ParseInt_value, i64_min, i64_max. destruct (signed_digits s); i64_lia. Qed.

Lemma itoa_chars z : Forall (λ c, is_digit c || Ascii.eqb c "-" = true) (bytes (itoa z)).
Proof.
  assert (∀ z, 0 ≤ z → Forall (λ c, is_digit c || Ascii.eqb c "-" = true) (bytes (itoa z))) as Hpos.
  { intros x Hx. destruct (itoa_digits x Hx) as (_ & Hf & _). eapply Forall_impl; [exact Hf|]. by intros c ->. }
  destruct (Z.le_gt_cases 0 z) as [H|H]; [by apply Hpos|]. destruct z as [|p|p]; [done..|].
  change (itoa (Z.neg p)) with ("-" +:+ itoa (Z.pos p)). rewrite bytes_app. constructor; [done|]. by apply Hpos.
Qed.

Lemma itoa_without c z : is_digit c || Ascii.eqb c "-" = false → c ∉ bytes (itoa z).
Proof. intros Hc Hin. pose proof (itoa_chars z) as H. rewrite Forall_forall in H. by rewrite (H _ Hin) in Hc. Qed.

(** ** Texts in pieces *)

Fixpoint concat_strings (l : list string) : string :=
  match l with [] => "" | s :: l => s +:+ concat_strings l end.

Lemma string_app_nil_r s : s +:+ "" = s.
Proof. induction s as [|c s IH]; cbn; [done|]. unfold String.append in *. by rewrite IH. Qed.
Lemma string_app_assoc s t u : (s +:+ t) +:+ u = s +:+ (t +:+ u).
Proof. induction s as [|c s IH]; cbn; [done|]. unfold String.append in *. by rewrite IH. Qed.
Lemma concat_strings_app l k : concat_strings (l ++ k) = concat_strings l +:+ concat_strings k.
Proof. induction l as [|s l IH]; cbn; [done|]. by rewrite IH, string_app_assoc. Qed.

(** Cutting at the last, or the first, occurrence of a byte. *)
Lemma sep_last c (l l' r r' : list ascii) :
  c ∉ r → c ∉ r' → l ++ c :: r = l' ++ c :: r' → l = l' ∧ r = r'.
Proof.
  intros Hr Hr'. revert l'. induction l as [|a l IH]; intros [|a' l'] E; cbn in E.
  - by injection E as ->.
  - injection E as -> ->. exfalso. apply Hr. set_solver.
  - injection E as -> <-. exfalso. apply Hr'. set_solver.
  - injection E as -> E. destruct (IH l' E) as [-> ->]. done.
Qed.

Lemma sep_first c (l l' r r' : list ascii) :
  c ∉ l → c ∉ l' → l ++ c :: r = l' ++ c :: r' → l = l' ∧ r = r'.
Proof.
  revert l'. induction l as [|a l IH]; intros [|a' l'] Hl Hl' E; cbn in E.
  - by injection E as ->.
  - injection E as -> ->. exfalso. apply Hl'. set_solver.
  - injection E as -> <-. exfalso. apply Hl. set_solver.
  - injection E as -> E. destruct (IH l') as [-> ->]; set_solver.
Qed.

Lemma string_take_app s t : string_take (String.length s) (s +:+ t) = s.
Proof. induction s as [|c s IH]; [by destruct t|]. change (String c s +:+ t) with (String c (s +:+ t)). cbn. f_equal. exact IH. Qed.

Lemma length_string_app s t : String.length (s +:+ t) = (String.length s + String.length t)%nat.
Proof. induction s as [|c s IH]; [done|]. change (String c s +:+ t) with (String c (s +:+ t)). cbn. f_equal. exact IH. Qed.

Lemma TrimPrefix_app p s : TrimPrefix (p +:+ s) p = s.
Proof.
  unfold TrimPrefix. replace (HasPrefix (p +:+ s) p) with true.
  - induction p as [|c p IH]; cbn; [by destruct s|done].
  - symmetry. apply HasPrefix_spec. by exists s.
Qed.
