(* ===== verification/GoTime.v ===== *)
(** * Civil dates (Go's [time.Time.Format] and [In])

    An instant is a number of nanoseconds since the Unix epoch.  A location
    gives the offset from UTC, in seconds, at a Unix second (the time zone
    database is a parameter).  Dates are computed by 400-year eras of 146097
    days counted from March 1st, 0000. *)

From S2P Require Import Prelude GoStrings.

Definition second : Z := 1000000000.
Definition minute : Z := 60 * second.
Definition hour : Z := 60 * minute.

(** [time.Time{}]: the first instant of year 1, UTC. *)
Definition zero_time : Z := -62135596800 * second.

Definition location : Type := Z → Z.
Definition UTC : location := λ _, 0.

(** The wall clock of an instant, in seconds. *)
Definition local_seconds (loc : location) (t : Z) : Z := t / second + loc (t / second).
Definition local_day (loc : location) (t : Z) : Z := local_seconds loc t / 86400.

(** Day of era to (year of era, day of year), years beginning in March. *)
Definition era_year (doe : Z) : Z := (doe - doe / 1460 + doe / 36524 - doe / 146096) / 365.
Definition era_doy (doe : Z) : Z :=
  let yoe := era_year doe in doe - (365 * yoe + yoe / 4 - yoe / 100).

Definition civil_of_days (days : Z) : Z * Z * Z :=
  let z := days + 719468 in
  let era := z / 146097 in
  let doe := z mod 146097 in
  let yoe := era_year doe in
  let doy := era_doy doe in
  let mp := (5 * doy + 2) / 153 in
  let d := doy - (153 * mp + 2) / 5 + 1 in
  let m := if mp <? 10 then mp + 3 else mp - 9 in
  (yoe + era * 400 + (if m <=? 2 then 1 else 0), m, d).

Definition days_of_civil (p : Z * Z * Z) : Z :=
  let '(y, m, d) := p in
  let y := if m <=? 2 then y - 1 else y in
  let era := y / 400 in
  let yoe := y mod 400 in
  let doy := (153 * (if 2 <? m then m - 3 else m + 9) + 2) / 5 + d - 1 in
  era * 146097 + (yoe * 365 + yoe / 4 - yoe / 100 + doy) - 719468.

(** [%0nd] for a number that fits. *)
Definition digit_char (n : Z) : ascii := ascii_of_N (Z.to_N (48 + n mod 10)).
Definition pad2 (n : Z) : list ascii := [digit_char (n / 10); digit_char n].
Definition pad4 (n : Z) : list ascii :=
  [digit_char (n / 1000); digit_char (n / 100); digit_char (n / 10); digit_char n].
Definition fmt_year (y : Z) : list ascii :=
  if (0 <=? y) && (y <=? 9999) then pad4 y else bytes (pretty y).

(** [Format("2006-01-02")] *)
Definition format_date (loc : location) (t : Z) : string :=
  let '(y, m, d) := civil_of_days (local_day loc t) in
  of_bytes (fmt_year y ++ ["-"%char] ++ pad2 m ++ ["-"%char] ++ pad2 d).

(** [Format("15:04:05")] *)
Definition format_clock (loc : location) (t : Z) : string :=
  let s := local_seconds loc t mod 86400 in
  of_bytes (pad2 (s / 3600) ++ [":"%char] ++ pad2 (s / 60 mod 60) ++ [":"%char] ++ pad2 (s mod 60)).

(** [Format("2006-01-02 15:04:05")] *)
Definition format_datetime (loc : location) (t : Z) : string :=
  format_date loc t +:+ " " +:+ format_clock loc t.

(** ** [time.Parse(time.RFC3339, s)]

    Digits in their places, but for the hour, which may be one digit; a
    fraction of the second may follow; the zone is Z or an offset. *)

Definition two_digits (l : list ascii) : option (Z * list ascii) :=
  match l with
  | a :: b :: l => if is_digit a && is_digit b then Some (10 * digit a + digit b, l) else None
  | _ => None
  end.
Definition hour_digits (l : list ascii) : option (Z * list ascii) :=
  match two_digits l, l with
  | Some r, _ => Some r
  | None, a :: l => if is_digit a then Some (digit a, l) else None
  | None, [] => None
  end.
Definition literal (c : ascii) (l : list ascii) : option (list ascii) :=
  match l with a :: l => if Ascii.eqb a c then Some l else None | [] => None end.
Definition between (lo hi x : Z) : option unit := if (lo <=? x) && (x <=? hi) then Some tt else None.

Fixpoint leading_digits (l : list ascii) : list ascii * list ascii :=
  match l with
  | c :: r => if is_digit c then let '(d, rest) := leading_digits r in (c :: d, rest) else ([], l)
  | [] => ([], [])
  end.
(** Digits beyond the ninth are dropped. *)
Definition nanoseconds (d : list ascii) : Z :=
  let d := take 9 d in default 0 (digits_value 0 d) * 10 ^ (9 - Z.of_nat (length d)).
Definition fraction (l : list ascii) : Z * list ascii :=
  match l with
  | p :: ((a :: _) as r) =>
      if (Ascii.eqb p "." || Ascii.eqb p ",") && is_digit a then
        let '(d, rest) := leading_digits r in (nanoseconds d, rest)
      else (0, l)
  | _ => (0, l)
  end.
(** The offset in seconds. *)
Definition zone (l : list ascii) : option Z :=
  match l with
  | [c] => if Ascii.eqb c "Z" then Some 0 else None
  | c :: l =>
      sign ← (if Ascii.eqb c "+" then Some 1 else if Ascii.eqb c "-" then Some (-1) else None);
      '(h, l) ← two_digits l; l ← literal ":" l; '(m, l) ← two_digits l;
      _ ← between 0 24 h; _ ← between 0 60 m;
      match l with [] => Some (sign * (h * 3600 + m * 60)) | _ => None end
  | [] => None
  end.

Definition ParseRFC3339 (s : string) : option Z :=
  '(y1, l) ← two_digits (bytes s); '(y2, l) ← two_digits l; l ← literal "-" l;
  '(mo, l) ← two_digits l; _ ← between 1 12 mo; l ← literal "-" l;
  '(d, l) ← two_digits l; l ← literal "T" l;
  '(h, l) ← hour_digits l; _ ← between 0 23 h; l ← literal ":" l;
  '(mi, l) ← two_digits l; _ ← between 0 59 mi; l ← literal ":" l;
  '(sec, l) ← two_digits l; _ ← between 0 59 sec;
  let '(ns, l) := fraction l in
  off ← zone l;
  let date := (100 * y1 + y2, mo, d) in
  let days := days_of_civil date in
  if bool_decide (civil_of_days days = date) then
    Some ((days * 86400 + h * 3600 + mi * 60 + sec - off) * second + ns)
  else None.

Example rfc3339_samples :
  map ParseRFC3339 ["2024-02-29T12:30:45Z"; "2023-02-29T12:30:45Z"; "1970-01-01T01:00:00.25+01:00";
                    "1970-01-01T1:00:00Z"; "1970-01-01 00:00:00Z"; "1970-01-01T00:00:00"] =
  [Some (1709209845 * second); None; Some 250000000; Some (3600 * second); None; None].
Proof. by vm_compute. Qed.

(** ** The calendar is a bijection *)

#[local] Ltac Zify.zify_post_hook ::= Z.to_euclidean_division_equations.

(** Case analysis on the century of the era keeps the arithmetic linear. *)
Lemma era_bounds doe :
  0 ≤ doe < 146097 → 0 ≤ era_year doe ≤ 399 ∧ 0 ≤ era_doy doe ≤ 365.
Proof.
  intros H. unfold era_doy. cbn zeta. remember (era_year doe) as yoe eqn:Hy. unfold era_year in Hy.
  assert (doe / 146096 = 0 ∨ doe = 146096) by lia.
  assert (0 ≤ doe / 36524 ≤ 4) by lia.
  assert (0 ≤ yoe ≤ 399) by lia. split; [done|].
  set (c := doe / 36524) in *. set (q := doe / 1460) in *.
  assert (36524 * c ≤ doe < 36524 * c + 36524) by lia.
  assert (1460 * q ≤ doe < 1460 * q + 1460) by lia.
  assert (c = 0 ∨ c = 1 ∨ c = 2 ∨ c = 3 ∨ c = 4) as [E|[E|[E|[E|E]]]] by lia.
  all: rewrite E in *; clear E; clearbody q; lia.
Qed.

Lemma days_of_civil_of_days z : days_of_civil (civil_of_days z) = z.
Proof.
  unfold civil_of_days, days_of_civil.
  pose proof (Z.mod_pos_bound (z + 719468) 146097 ltac:(lia)) as Hdoe.
  pose proof (Z.div_mod (z + 719468) 146097 ltac:(lia)) as Hdm.
  destruct (era_bounds _ Hdoe) as [Hy Hd]. revert Hdm Hy Hd.
  unfold era_doy. generalize (era_year ((z + 719468) mod 146097)).
  generalize ((z + 719468) mod 146097), ((z + 719468) / 146097). intros doe era yoe.
  set (doy := doe - (365 * yoe + yoe / 4 - yoe / 100)). intros Hdm Hy Hd.
  set (mp := (5 * doy + 2) / 153). assert (0 ≤ mp ≤ 11) as Hmp by (subst mp; lia).
  assert (∀ e, (yoe + era * 400 + e - e) / 400 = era ∧ (yoe + era * 400 + e - e) mod 400 = yoe) as He.
  { intros e. replace (yoe + era * 400 + e - e) with (yoe + era * 400) by lia.
    rewrite Z.div_add, Z.mod_add, Z.div_small, Z.mod_small by lia. done. }
  destruct (Z.ltb_spec mp 10).
  - rewrite (proj2 (Z.leb_gt (mp + 3) 2)), (proj2 (Z.ltb_lt 2 (mp + 3))) by lia.
    specialize (He 0). rewrite Z.sub_0_r in He. destruct He as [-> ->].
    replace (mp + 3 - 3) with mp by lia. subst doy. lia.
  - rewrite (proj2 (Z.leb_le (mp - 9) 2)), (proj2 (Z.ltb_ge 2 (mp - 9))) by lia.
    destruct (He 1) as [-> ->]. replace (mp - 9 + 9) with mp by lia. subst doy. lia.
Qed.

Lemma civil_month_day z :
  1 ≤ (civil_of_days z).1.2 ≤ 12 ∧ 1 ≤ (civil_of_days z).2 ≤ 31.
Proof.
  unfold civil_of_days; cbn.
  destruct (era_bounds _ (Z.mod_pos_bound (z + 719468) 146097 ltac:(lia))) as [_ Hd].
  revert Hd. generalize (era_doy ((z + 719468) mod 146097)). intros doy Hd.
  destruct (Z.ltb_spec ((5 * doy + 2) / 153) 10); lia.
Qed.

(** ** Formatting is injective *)

Lemma digit_char_inj a b : digit_char a = digit_char b → a mod 10 = b mod 10.
Proof.
  unfold digit_char. intros H. apply (f_equal N_of_ascii) in H.
  pose proof (Z.mod_pos_bound a 10). pose proof (Z.mod_pos_bound b 10).
  rewrite !N_ascii_embedding in H by lia. lia.
Qed.

Lemma pad2_inj a b : 0 ≤ a < 100 → 0 ≤ b < 100 → pad2 a = pad2 b → a = b.
Proof. intros Ha Hb [= H1%digit_char_inj H2%digit_char_inj]. lia. Qed.
Lemma pad4_inj a b : 0 ≤ a < 10000 → 0 ≤ b < 10000 → pad4 a = pad4 b → a = b.
Proof.
  intros Ha Hb [= H1%digit_char_inj H2%digit_char_inj H3%digit_char_inj H4%digit_char_inj]. lia.
Qed.

Definition four_digit_year (z : Z) : Prop := 0 ≤ (civil_of_days z).1.1 ≤ 9999.

(** Two instants show the same date exactly when they fall on the same local
    day. *)
Lemma format_date_same_day loc t loc' t' :
  four_digit_year (local_day loc t) → four_digit_year (local_day loc' t') →
  format_date loc t = format_date loc' t' ↔ local_day loc t = local_day loc' t'.
Proof.
  intros Hy Hy'. unfold format_date.
  split; [|by intros ->]. intros H. apply (f_equal bytes) in H.
  rewrite <-(days_of_civil_of_days (local_day loc t)), <-(days_of_civil_of_days (local_day loc' t')).
  f_equal. pose proof (civil_month_day (local_day loc t)) as Hm.
  pose proof (civil_month_day (local_day loc' t')) as Hm'. unfold four_digit_year in *.
  destruct (civil_of_days (local_day loc t)) as [[y m] d], (civil_of_days (local_day loc' t')) as [[y' m'] d'].
  cbn in Hy, Hy', Hm, Hm'. rewrite !bytes_of_bytes in H. unfold fmt_year in H.
  rewrite !(proj2 (Z.leb_le _ _)) in H by lia. cbn [andb] in H.
  apply app_inj_1 in H as [H1 H]; [|done]. apply app_inj_1 in H as [_ H]; [|done].
  apply app_inj_1 in H as [H2 H]; [|done]. apply app_inj_1 in H as [_ H3]; [|done].
  apply pad4_inj in H1; [|lia..]. apply pad2_inj in H2; [|lia..]. apply pad2_inj in H3; [|lia..].
  by subst.
Qed.
