(* ===== verification/Json.v ===== *)
(** * Documents of encoding/json

    What a text decodes to ([json.Unmarshal] itself is a parameter of the files
    that use it), and how a decoded document is read: into an [interface{}] by
    assertions, or into a struct.  There a name matches without regard to case,
    an absent member and [null] leave the zero value, a value of another kind
    makes the whole document an error. *)

From S2P Require Import Prelude GoStrings.

(** A decoded document.  The fields of an object come in their order; Go keeps
    the last of equal names. *)
Inductive json :=
  | JNull
  | JBool (b : bool)
  | JNum (text : string)
  | JStr (s : string)
  | JArr (l : list json)
  | JObj (fields : list (string * json)).

Definition field (k : string) (m : list (string * json)) : option json :=
  snd <$> last (filter (λ p, p.1 = k) m).

(** [x, ok := v.(T)] *)
Definition as_string (v : option json) : option string := match v with Some (JStr s) => Some s | _ => None end.
Definition as_object (v : option json) : option (list (string * json)) := match v with Some (JObj m) => Some m | _ => None end.
Definition as_array (v : option json) : option (list json) := match v with Some (JArr l) => Some l | _ => None end.

(** ** Documents into structs *)

Definition EType : goerr := EMsg "json: cannot unmarshal".

Definition member (k : string) (m : list (string * json)) : option json :=
  snd <$> last (List.filter (λ p : string * json, EqualFold p.1 k) m).

Definition read_string (v : option json) : result string :=
  match v with None | Some JNull => Ok "" | Some (JStr s) => Ok s | _ => Err EType end.

Definition read_int (v : option json) : result Z :=
  match v with
  | None | Some JNull => Ok 0
  | Some (JNum t) => match Atoi t with Some n => Ok n | None => Err EType end
  | _ => Err EType
  end.

(** A pointer to a string. *)
Definition read_string_ptr (v : option json) : result (option string) :=
  match v with None | Some JNull => Ok None | Some (JStr s) => Ok (Some s) | _ => Err EType end.

Fixpoint read_all {A} (f : option json → result A) (l : list json) : result (list A) :=
  match l with
  | [] => Ok []
  | v :: l => a <-? f (Some v) ;; rest <-? read_all f l ;; Ok (a :: rest)
  end.

Definition read_slice {A} (f : option json → result A) (v : option json) : result (list A) :=
  match v with None | Some JNull => Ok [] | Some (JArr l) => read_all f l | _ => Err EType end.

(** The zero struct has no member. *)
Definition read_struct {A} (f : list (string * json) → result A) (v : option json) : result A :=
  match v with None | Some JNull => f [] | Some (JObj m) => f m | _ => Err EType end.

Definition read_struct_ptr {A} (f : list (string * json) → result A) (v : option json) : result (option A) :=
  match v with None | Some JNull => Ok None | Some (JObj m) => a <-? f m ;; Ok (Some a) | _ => Err EType end.

(** A pointer to an int. *)
Definition read_int_ptr (v : option json) : result (option Z) :=
  match v with None | Some JNull => Ok None | Some _ => n <-? read_int v ;; Ok (Some n) end.
