(* ===== verification/Float.v ===== *)
(** * IEEE-754 double precision, as Go's [float64] uses it

    A finite [float64] is the rational it denotes.  Every operation of the
    sources is correctly rounded, so it is the exact rational operation
    followed by [rnd]: rounding to 53 significant bits, to the nearest, ties
    to even, with gradual underflow below 2^-1022.  Overflow to infinity
    (2^1024 and beyond) does not occur in the ranges the theorems consider.
    Go may fuse [x*y + z] on some architectures; amd64 does not. *)

From S2P Require Import Prelude GoStrings.
From Stdlib Require Export QArith Qabs Qpower.
From Stdlib Require Import Lqa.
#[global] Open Scope Z_scope.

(** [n / d] to the nearest integer, ties to even. *)
Definition rne (n d : Z) : Z :=
  let q := n / d in
  let r := n mod d in
  if 2 * r <? d then q else if d <? 2 * r then q + 1 else if Z.even q then q else q + 1.

(** [n / d] as a multiple of [2^e]. *)
Definition scale (n d e : Z) : Z * Z :=
  if 0 <=? e then (n, d * 2 ^ e) else (n * 2 ^ (- e), d).

Definition binary (m e : Z) : Q :=
  if 0 <=? e then inject_Z (m * 2 ^ e) else m # Z.to_pos (2 ^ (- e)).

(** The exponent for which [n / d] has 53 significant bits. *)
Definition exponent (n d : Z) : Z :=
  let e := Z.log2 n - Z.log2 d - 52 in
  let '(N, D) := scale n d e in
  Z.max (-1074) (if N <? 2 ^ 52 * D then e - 1 else e).

Definition rnd_pos (n d : Z) : Q :=
  let e := exponent n d in
  let '(N, D) := scale n d e in binary (rne N D) e.

Definition rnd (x : Q) : Q :=
  match Qred x with
  | Z0 # _ => 0
  | Zpos n # d => rnd_pos (Zpos n) (Zpos d)
  | Zneg n # d => - rnd_pos (Zpos n) (Zpos d)
  end%Q.

Definition fadd (x y : Q) : Q := rnd (x + y).
Definition fmul (x y : Q) : Q := rnd (x * y).
Definition fdiv (x y : Q) : Q := rnd (x / y).
(** [float64(i)] *)
Definition of_int (z : Z) : Q := rnd (inject_Z z).
(** [int64(f)]: towards zero; amd64 yields the least integer out of range. *)
Definition to_int (x : Q) : Z :=
  let z := Z.quot (Qnum x) (Zpos (Qden x)) in
  if bool_decide (in_i64 z) then z else i64_min.

(** The nearest integer of an exact rational, ties to even: what
    [FormatFloat] does to the digits it keeps. *)
Definition nearest (x : Q) : Z := rne (Qnum x) (Zpos (Qden x)).

(** ** Error bounds *)

Lemma rne_error n d : 0 < d → 2 * Z.abs (rne n d * d - n) ≤ d.
Proof.
  intros Hd. unfold rne. pose proof (Z.div_mod n d ltac:(lia)).
  pose proof (Z.mod_pos_bound n d Hd).
  destruct (Z.ltb_spec (2 * (n mod d)) d); [nia|].
  destruct (Z.ltb_spec d (2 * (n mod d))); [nia|]. destruct (Z.even (n / d)); nia.
Qed.

Lemma rne_exact n : rne n 1 = n.
Proof. pose proof (rne_error n 1). lia. Qed.

Lemma rne_unique n d z : 0 < d → 2 * Z.abs (z * d - n) < d → rne n d = z.
Proof. intros Hd Hz. pose proof (rne_error n d Hd). nia. Qed.

Lemma scale_pos n d e N D : 0 < n → 0 < d → scale n d e = (N, D) → 0 < N ∧ 0 < D.
Proof.
  intros Hn Hd. unfold scale. destruct (Z.leb_spec 0 e); intros [= <- <-].
  - pose proof (Z.pow_pos_nonneg 2 e). nia.
  - pose proof (Z.pow_pos_nonneg 2 (- e)). nia.
Qed.

Lemma scale_step n d e N D N' D' :
  scale n d e = (N, D) → scale n d (e - 1) = (N', D') → N' * D = 2 * N * D'.
Proof.
  unfold scale. destruct (Z.leb_spec 0 e), (Z.leb_spec 0 (e - 1)); try lia; intros [= <- <-] [= <- <-].
  - replace e with (1 + (e - 1)) at 1 by lia. rewrite Z.pow_add_r by lia. lia.
  - assert (e = 0) as -> by lia. cbn. lia.
  - replace (- (e - 1)) with (1 + - e) by lia. rewrite Z.pow_add_r by lia. lia.
Qed.

Lemma scale_lower n d N D :
  0 < n → 0 < d → scale n d (Z.log2 n - Z.log2 d - 52) = (N, D) → 2 ^ 51 * D < N.
Proof.
  intros Hn Hd. pose proof (Z.log2_spec n Hn) as [Hn1 _]. pose proof (Z.log2_spec d Hd) as [_ Hd2].
  pose proof (Z.log2_nonneg n). pose proof (Z.log2_nonneg d).
  unfold scale. destruct (Z.leb_spec 0 (Z.log2 n - Z.log2 d - 52)); intros [= <- <-].
  - apply Z.lt_le_trans with (2 ^ 51 * (2 ^ (Z.succ (Z.log2 d)) * 2 ^ (Z.log2 n - Z.log2 d - 52))).
    + pose proof (Z.pow_pos_nonneg 2 (Z.log2 n - Z.log2 d - 52)). nia.
    + rewrite <-!Z.pow_add_r by lia.
      replace (51 + (Z.succ (Z.log2 d) + (Z.log2 n - Z.log2 d - 52))) with (Z.log2 n) by lia. done.
  - apply Z.lt_le_trans with (2 ^ Z.log2 n * 2 ^ (- (Z.log2 n - Z.log2 d - 52))).
    + rewrite <-Z.pow_add_r by lia.
      replace (Z.log2 n + - (Z.log2 n - Z.log2 d - 52)) with (51 + Z.succ (Z.log2 d)) by lia.
      rewrite Z.pow_add_r by lia. nia.
    + pose proof (Z.pow_pos_nonneg 2 (- (Z.log2 n - Z.log2 d - 52))). nia.
Qed.

(** The scaled value has at least 53 bits unless it is subnormal. *)
Lemma exponent_spec n d N D :
  0 < n → 0 < d → - 1000 ≤ Z.log2 n - Z.log2 d →
  scale n d (exponent n d) = (N, D) → 2 ^ 52 * D ≤ N.
Proof.
  intros Hn Hd Hr. unfold exponent.
  destruct (scale n d (Z.log2 n - Z.log2 d - 52)) as [N0 D0] eqn:E0.
  pose proof (scale_lower _ _ _ _ Hn Hd E0) as Hl.
  pose proof (scale_pos _ _ _ _ _ Hn Hd E0) as [HN0 HD0].
  rewrite Z.max_r by (destruct (N0 <? 2 ^ 52 * D0); lia).
  destruct (Z.ltb_spec N0 (2 ^ 52 * D0)) as [H|H]; intros E1; [|rewrite E0 in E1; by injection E1 as <- <-].
  pose proof (scale_step _ _ _ _ _ _ _ E0 E1). pose proof (scale_pos _ _ _ _ _ Hn Hd E1) as [_ HD1].
  change (2 ^ 52) with (2 * 2 ^ 51). apply (Zmult_le_reg_r _ _ D0); [lia|].
  apply (Zmult_lt_compat_r _ _ D) in Hl; [lia|done].
Qed.

Definition ulp : Q := 1 # 9007199254740992.

Lemma rnd_pos_error n d :
  - 1000 ≤ Z.log2 (Zpos n) - Z.log2 (Zpos d) →
  ((1 - ulp) * (Zpos n # d) <= rnd_pos (Zpos n) (Zpos d) /\
   rnd_pos (Zpos n) (Zpos d) <= (1 + ulp) * (Zpos n # d))%Q.
Proof.
  intros Hr. unfold rnd_pos. destruct (scale _ _ _) as [N D] eqn:E.
  pose proof (exponent_spec (Zpos n) (Zpos d) _ _ (Pos2Z.is_pos n) (Pos2Z.is_pos d) Hr E) as HN.
  destruct (scale_pos (Zpos n) (Zpos d) _ _ _ (Pos2Z.is_pos n) (Pos2Z.is_pos d) E) as [_ HD].
  pose proof (rne_error N D HD) as He. revert E. generalize (exponent (Zpos n) (Zpos d)) as e.
  intros e. assert (9007199254740992 * Z.abs (rne N D * D - N) ≤ N) as Herr.
  { change (2 ^ 52) with 4503599627370496 in HN. lia. }
  clear HN He Hr. unfold scale, binary, ulp. generalize dependent (rne N D). intros q Herr.
  destruct (Z.leb_spec 0 e) as [H|H]; intros [= <- <-]; unfold Qle; cbn [Qnum Qden Qmult Qminus Qplus Qopp inject_Z].
  - rewrite !Pos2Z.inj_mul. cbn. revert Herr. generalize (2 ^ e). intros P ?. lia.
  - assert (0 < 2 ^ (- e)) as HP by (apply Z.pow_pos_nonneg; lia).
    rewrite !Pos2Z.inj_mul, Z2Pos.id by done. cbn. revert HP Herr. generalize (2 ^ (- e)). intros P ??. lia.
Qed.

(** Rounding is a function of the value, not of the fraction. *)
#[export] Instance rnd_proper : Proper (Qeq ==> eq) rnd.
Proof. intros x y H. unfold rnd. by rewrite (Qred_complete _ _ H). Qed.

Lemma rnd_0 x : (x == 0)%Q → rnd x = 0%Q.
Proof. intros ->. done. Qed.

(** The relative error of one operation. *)
Lemma rnd_error x :
  (1 # 2 ^ 100 <= x)%Q → ((1 - ulp) * x <= rnd x /\ rnd x <= (1 + ulp) * x)%Q.
Proof.
  intros Hx. unfold rnd. pose proof (Qred_correct x) as Hq.
  assert (1 # 2 ^ 100 <= Qred x)%Q as Hr by (by rewrite Hq).
  destruct (Qred x) as [[|n|n] d]; unfold Qle in Hr; cbn [Qnum Qden] in Hr; [lia| |lia].
  destruct (rnd_pos_error n d) as [H1 H2].
  { assert (Z.log2 (Zpos d) ≤ Z.log2 (2 ^ 100 * Zpos n)) as H by (apply Z.log2_le_mono; lia).
    rewrite Z.mul_comm, Z.log2_mul_pow2 in H by lia. lia. }
  unfold ulp in *. split; lra.
Qed.

Lemma Qnum_Qden_le x z : (x <= inject_Z z)%Q ↔ Qnum x ≤ z * Zpos (Qden x).
Proof. unfold Qle, inject_Z; cbn. lia. Qed.

Lemma to_int_floor x z :
  in_i64 z → 0 ≤ z → (inject_Z z <= x /\ x < inject_Z (z + 1))%Q → to_int x = z.
Proof.
  intros Hz H0 [H1 H2]. unfold to_int. unfold Qle, Qlt, inject_Z in *; cbn in *.
  rewrite Z.quot_div_nonneg by nia.
  assert (Qnum x / Zpos (Qden x) = z) as ->; [|by rewrite bool_decide_eq_true_2].
  symmetry. apply (Z.div_unique _ _ _ (Qnum x - z * Zpos (Qden x))); nia.
Qed.

(** [int64(f + 0.5)] recovers an integer from a value near it. *)
Lemma to_int_half_up y z :
  0 ≤ z ≤ 2 ^ 50 → (inject_Z z - (1 # 4) <= y /\ y <= inject_Z z + (1 # 4))%Q →
  to_int (fadd y (1 # 2)) = z.
Proof.
  intros Hz [H1 H2]. apply to_int_floor; [i64_lia|lia|].
  assert (0 <= inject_Z z /\ inject_Z z <= 1125899906842624)%Q as [Hz1 Hz2].
  { unfold Qle, inject_Z; cbn. change (2 ^ 50) with 1125899906842624 in Hz. lia. }
  rewrite inject_Z_plus. change (inject_Z 1) with 1%Q. unfold fadd.
  destruct (rnd_error (y + (1 # 2))) as [E1 E2].
  { assert ((1 # 2 ^ 100) <= (1 # 8))%Q by done. lra. }
  unfold ulp in *. lra.
Qed.

Lemma nearest_unique x z :
  (inject_Z z - (1 # 4) <= x /\ x <= inject_Z z + (1 # 4))%Q → nearest x = z.
Proof.
  intros [H1 H2]. unfold nearest. apply rne_unique; [done|].
  revert H1 H2. unfold Qle, inject_Z; cbn. rewrite !Pos2Z.inj_mul. lia.
Qed.

(** ** Monotonicity *)

Lemma rne_mono n d n' d' :
  0 < d → 0 < d' → n * d' ≤ n' * d → rne n d ≤ rne n' d'.
Proof.
  intros Hd Hd' H.
  pose proof (Z.div_mod n d ltac:(lia)) as E. pose proof (Z.mod_pos_bound n d Hd).
  pose proof (Z.div_mod n' d' ltac:(lia)) as E'. pose proof (Z.mod_pos_bound n' d' Hd').
  unfold rne. generalize dependent (n mod d). generalize dependent (n' mod d').
  generalize dependent (n / d). generalize dependent (n' / d').
  intros q' q r' E' Hr' r E Hr. subst n n'.
  destruct (decide (q = q')) as [<-|Hne].
  - assert (r * d' ≤ r' * d) as Hrr by nia.
    destruct (Z.ltb_spec (2 * r) d), (Z.ltb_spec d (2 * r)), (Z.ltb_spec (2 * r') d'), (Z.ltb_spec d' (2 * r'));
      destruct (Z.even q); try lia; exfalso; nia.
  - assert (q < q').
    { destruct (decide (q' + 1 ≤ q)) as [Hq|]; [exfalso|lia].
      assert (d * d' * (q' + 1) ≤ d * d' * q) by (apply Z.mul_le_mono_nonneg_l; nia).
      assert (r' * d < d' * d) by nia. assert (0 ≤ r * d') by nia. nia. }
    repeat case_match; lia.
Qed.

(** [m * 2^e] and comparison of values by cross multiplication: [x ≤ m 2^e]
    is [le_pow n d m e]. *)
Lemma scale_mono n d n' d' e N D N' D' :
  0 < d → 0 < d' → n * d' ≤ n' * d → scale n d e = (N, D) → scale n' d' e = (N', D') → N * D' ≤ N' * D.
Proof.
  intros Hd Hd' H. unfold scale. destruct (Z.leb_spec 0 e); intros [= <- <-] [= <- <-].
  - pose proof (Z.pow_nonneg 2 e). nia.
  - pose proof (Z.pow_nonneg 2 (- e)). nia.
Qed.

(** Raising the exponent by [k] divides the scaled value by [2^k]. *)
Lemma scale_shift n d e k N D N' D' :
  0 ≤ k → scale n d e = (N, D) → scale n d (e + k) = (N', D') → N * D' = N' * D * 2 ^ k.
Proof.
  intros Hk. unfold scale. destruct (Z.leb_spec 0 e), (Z.leb_spec 0 (e + k)); try lia;
    intros [= <- <-] [= <- <-].
  - rewrite Z.pow_add_r by lia. lia.
  - replace (2 ^ k) with (2 ^ (- e) * 2 ^ (e + k)); [lia|]. rewrite <-Z.pow_add_r by lia. f_equal. lia.
  - replace (2 ^ (- e)) with (2 ^ (- (e + k)) * 2 ^ k); [lia|]. rewrite <-Z.pow_add_r by lia. f_equal. lia.
Qed.

Lemma scale_upper n d N D :
  0 < n → 0 < d → scale n d (Z.log2 n - Z.log2 d - 52) = (N, D) → N < 2 ^ 53 * D.
Proof.
  intros Hn Hd. pose proof (Z.log2_spec n Hn) as [_ Hn2]. pose proof (Z.log2_spec d Hd) as [Hd1 _].
  pose proof (Z.log2_nonneg n). pose proof (Z.log2_nonneg d).
  unfold scale. destruct (Z.leb_spec 0 (Z.log2 n - Z.log2 d - 52)); intros [= <- <-].
  - apply Z.lt_le_trans with (2 ^ 53 * (2 ^ Z.log2 d * 2 ^ (Z.log2 n - Z.log2 d - 52))).
    + rewrite <-!Z.pow_add_r by lia.
      replace (53 + (Z.log2 d + (Z.log2 n - Z.log2 d - 52))) with (Z.succ (Z.log2 n)) by lia. done.
    + pose proof (Z.pow_pos_nonneg 2 (Z.log2 n - Z.log2 d - 52)). nia.
  - apply Z.lt_le_trans with (2 ^ Z.succ (Z.log2 n) * 2 ^ (- (Z.log2 n - Z.log2 d - 52))).
    + pose proof (Z.pow_pos_nonneg 2 (- (Z.log2 n - Z.log2 d - 52))). nia.
    + rewrite <-Z.pow_add_r by lia.
      replace (Z.succ (Z.log2 n) + - (Z.log2 n - Z.log2 d - 52)) with (53 + Z.log2 d) by lia.
      rewrite Z.pow_add_r by lia. nia.
Qed.

(** The scaled value is below 2^53, and at least 2^52 above the subnormals. *)
Lemma exponent_bounds n d N D :
  0 < n → 0 < d → scale n d (exponent n d) = (N, D) →
  N < 2 ^ 53 * D ∧ - 1074 ≤ exponent n d ∧ (- 1074 < exponent n d → 2 ^ 52 * D ≤ N).
Proof.
  intros Hn Hd. unfold exponent. set (e0 := Z.log2 n - Z.log2 d - 52).
  destruct (scale n d e0) as [N0 D0] eqn:E0.
  pose proof (scale_pos _ _ _ _ _ Hn Hd E0) as [HN0 HD0].
  pose proof (scale_lower _ _ _ _ Hn Hd E0) as Hlo. pose proof (scale_upper _ _ _ _ Hn Hd E0) as Hup.
  set (e := if N0 <? 2 ^ 52 * D0 then e0 - 1 else e0).
  assert (∀ N D, scale n d e = (N, D) → 2 ^ 52 * D ≤ N < 2 ^ 53 * D) as He.
  { intros N1 D1 E1. subst e. destruct (Z.ltb_spec N0 (2 ^ 52 * D0)) as [H|H].
    - pose proof (scale_step _ _ _ _ _ _ _ E0 E1) as Hs.
      pose proof (scale_pos _ _ _ _ _ Hn Hd E1) as [_ HD1].
      change (2 ^ 53) with (2 * 2 ^ 52). change (2 ^ 52) with (2 * 2 ^ 51) in *.
      revert Hlo H Hs. generalize (2 ^ 51). intros c Hlo H Hs. split; nia.
    - rewrite E0 in E1. by injection E1 as <- <-. }
  intros E. destruct (Z.max_spec (-1074) e) as [[Hm Heq]|[Hm Heq]]; rewrite Heq in E |- *.
  - apply He in E. split_and!; [lia|lia|intros _; lia].
  - destruct (scale n d e) as [N1 D1] eqn:E1. specialize (He _ _ eq_refl).
    pose proof (scale_pos _ _ _ _ _ Hn Hd E1) as [HN1 HD1].
    pose proof (scale_pos _ _ _ _ _ Hn Hd E) as [HN HD].
    replace (-1074) with (e + (-1074 - e)) in E by lia.
    assert (0 ≤ -1074 - e) as Hk by lia.
    pose proof (scale_shift _ _ _ _ _ _ _ _ Hk E1 E) as Hs.
    pose proof (Z.pow_pos_nonneg 2 (-1074 - e) ltac:(lia) ltac:(lia)).
    split_and!; [|lia|lia]. revert He Hs. generalize (2 ^ 53), (2 ^ 52). intros c c' He Hs.
    assert (N * D1 ≤ N1 * D) by nia. nia.
Qed.

Lemma exponent_mono n d n' d' :
  0 < n → 0 < d → 0 < n' → 0 < d' → n * d' ≤ n' * d → exponent n d ≤ exponent n' d'.
Proof.
  intros Hn Hd Hn' Hd' H. destruct (decide (exponent n d ≤ exponent n' d')) as [|Hgt]; [done|exfalso].
  destruct (scale n d (exponent n d)) as [N D] eqn:E.
  destruct (scale n' d' (exponent n' d')) as [N' D'] eqn:E'.
  destruct (exponent_bounds _ _ _ _ Hn Hd E) as (_ & _ & Hlo).
  destruct (exponent_bounds _ _ _ _ Hn' Hd' E') as (Hup & Hmin & _). specialize (Hlo ltac:(lia)).
  destruct (scale n' d' (exponent n d)) as [N'' D''] eqn:E''.
  pose proof (scale_mono _ _ _ _ _ _ _ _ _ Hd Hd' H E E'') as Hm.
  replace (exponent n d) with (exponent n' d' + (exponent n d - exponent n' d')) in E'' by lia.
  assert (0 ≤ exponent n d - exponent n' d') as Hk by lia.
  pose proof (scale_shift _ _ _ _ _ _ _ _ Hk E' E'') as Hs.
  destruct (scale_pos _ _ _ _ _ Hn Hd E), (scale_pos _ _ _ _ _ Hn' Hd' E'), (scale_pos _ _ _ _ _ Hn' Hd' E'').
  assert (2 ≤ 2 ^ (exponent n d - exponent n' d')) as Hpow.
  { change 2 with (2 ^ 1) at 1. apply Z.pow_le_mono_r; lia. }
  revert Hs Hup Hlo Hpow. change (2 ^ 53) with (2 * 2 ^ 52).
  generalize (2 ^ 52), (2 ^ (exponent n d - exponent n' d')). intros c k Hs Hup Hlo Hpow.
  assert (c * D'' ≤ N'').
  { apply (Zmult_le_reg_r _ _ D); [lia|]. apply (Zmult_le_compat_r _ _ D'') in Hlo; lia. }
  apply (Zmult_lt_compat_r _ _ D'') in Hup; [|done].
  assert (c * D'' * D' ≤ N'' * D') by (apply Z.mul_le_mono_nonneg_r; lia).
  assert (N'' * D' * 2 ≤ N'' * D' * k) by (apply Z.mul_le_mono_nonneg_l; nia). lia.
Qed.

Lemma binary_Qpower m e : (binary m e == inject_Z m * 2 ^ e)%Q.
Proof.
  unfold binary. destruct (Z.leb_spec 0 e) as [He|He].
  - rewrite inject_Z_mult, Zpower_Qpower by done. done.
  - assert (2 ^ e == / inject_Z (2 ^ (- e)))%Q as ->.
    { rewrite Zpower_Qpower, <-Qpower_opp, Z.opp_involutive by lia. done. }
    assert (0 < 2 ^ (- e)) by (apply Z.pow_pos_nonneg; lia).
    rewrite <-(Z2Pos.id (2 ^ (- e))) at 2 by done. rewrite Qmake_Qdiv. done.
Qed.

Lemma rnd_pos_mono n d n' d' :
  (Zpos n # d <= Zpos n' # d')%Q → (rnd_pos (Zpos n) (Zpos d) <= rnd_pos (Zpos n') (Zpos d'))%Q.
Proof.
  intros H. unfold Qle in H; cbn [Qnum Qden] in H. unfold rnd_pos.
  destruct (scale (Zpos n) _ _) as [N D] eqn:E. destruct (scale (Zpos n') _ _) as [N' D'] eqn:E'.
  pose proof (exponent_mono (Zpos n) (Zpos d) (Zpos n') (Zpos d')
    (Pos2Z.is_pos _) (Pos2Z.is_pos _) (Pos2Z.is_pos _) (Pos2Z.is_pos _) H) as Hexp.
  destruct (exponent_bounds (Zpos n) (Zpos d) _ _ (Pos2Z.is_pos _) (Pos2Z.is_pos _) E) as (Hup & Hmin & _).
  destruct (exponent_bounds (Zpos n') (Zpos d') _ _ (Pos2Z.is_pos _) (Pos2Z.is_pos _) E') as (_ & _ & Hlo).
  destruct (scale_pos (Zpos n) (Zpos d) _ _ _ (Pos2Z.is_pos _) (Pos2Z.is_pos _) E) as [_ HD].
  destruct (scale_pos (Zpos n') (Zpos d') _ _ _ (Pos2Z.is_pos _) (Pos2Z.is_pos _) E') as [_ HD'].
  rewrite !binary_Qpower. revert Hexp Hmin Hlo E E'.
  generalize (exponent (Zpos n) (Zpos d)) as e, (exponent (Zpos n') (Zpos d')) as e'.
  intros e e' Hexp Hmin Hlo E E'.
  assert (∀ z, 0 <= 2 ^ z)%Q as Hnn by (intros; apply Qpower_pos; done).
  destruct (decide (e = e')) as [<-|Hne].
  - apply Qmult_le_compat_r; [|done]. rewrite <-Zle_Qle. apply rne_mono; [done..|].
    eapply (scale_mono (Zpos n) (Zpos d) (Zpos n') (Zpos d')); done.
  - specialize (Hlo ltac:(lia)).
    apply Qle_trans with (inject_Z (2 ^ 53) * 2 ^ e)%Q.
    { apply Qmult_le_compat_r; [|done]. rewrite <-Zle_Qle, <-(rne_exact (2 ^ 53)). apply rne_mono; lia. }
    apply Qle_trans with (inject_Z (2 ^ 52) * 2 ^ e')%Q.
    2: { apply Qmult_le_compat_r; [|done]. rewrite <-Zle_Qle, <-(rne_exact (2 ^ 52)). apply rne_mono; lia. }
    assert (inject_Z (2 ^ 53) * 2 ^ e == inject_Z (2 ^ 52) * 2 ^ (1 + e))%Q as ->.
    { rewrite Qpower_plus by done. change (2 ^ 53) with (2 ^ 52 * 2). rewrite inject_Z_mult. ring. }
    apply Qmult_le_l; [done|]. apply Qpower_le_compat_l; [lia|done].
Qed.

Lemma rnd_mono x y : (0 <= x)%Q → (x <= y)%Q → (rnd x <= rnd y)%Q.
Proof.
  intros H0 H. rewrite <-(Qred_correct x) in H, H0. rewrite <-(Qred_correct y) in H. unfold rnd.
  destruct (Qred x) as [[|n|n] d], (Qred y) as [[|n'|n'] d']; try done.
  - unfold rnd_pos. destruct (scale _ _ _) as [N D] eqn:E. rewrite binary_Qpower.
    apply Qmult_le_0_compat; [|by apply Qpower_pos]. change 0%Q with (inject_Z 0). rewrite <-Zle_Qle.
    destruct (scale_pos (Zpos n') (Zpos d') _ _ _ (Pos2Z.is_pos _) (Pos2Z.is_pos _) E).
    rewrite <-(rne_exact 0). apply rne_mono; lia.
  - by apply rnd_pos_mono.
Qed.

Lemma to_int_mono x y :
  (0 <= x)%Q → (x <= y)%Q → (y < inject_Z (2 ^ 63))%Q → to_int x ≤ to_int y.
Proof.
  unfold Qle, Qlt, inject_Z; cbn. intros H0 H Hy. unfold to_int.
  rewrite !Z.quot_div_nonneg by nia.
  assert (Qnum x / QDen x ≤ Qnum y / QDen y) as Hle.
  { apply Z.div_le_lower_bound; [done|]. apply (Zmult_le_reg_r _ _ (QDen x)); [done|].
    pose proof (Z.mul_div_le (Qnum x) (QDen x) ltac:(done)). nia. }
  assert (0 ≤ Qnum x / QDen x) by (apply Z.div_pos; lia).
  assert (Qnum y / QDen y < 2 ^ 63) by (apply Z.div_lt_upper_bound; lia).
  rewrite !bool_decide_eq_true_2; [done|i64_lia..].
Qed.

Lemma to_int_bounds x :
  (0 <= x)%Q → (x < inject_Z (2 ^ 63))%Q →
  0 ≤ to_int x ∧ (inject_Z (to_int x) <= x /\ x < inject_Z (to_int x) + 1)%Q.
Proof.
  unfold Qle, Qlt, Qplus, inject_Z; cbn. intros H0 Hx. unfold to_int.
  rewrite Z.quot_div_nonneg by nia.
  assert (0 ≤ Qnum x / QDen x) by (apply Z.div_pos; lia).
  assert (Qnum x / QDen x < 2 ^ 63) by (apply Z.div_lt_upper_bound; lia).
  rewrite bool_decide_eq_true_2 by i64_lia.
  pose proof (Z.div_mod (Qnum x) (QDen x) ltac:(done)).
  pose proof (Z.mod_pos_bound (Qnum x) (QDen x) ltac:(done)). split; [lia|]. split; nia.
Qed.

(** ** Decimal text: [strconv.FormatFloat(f, 'f', 2, 64)] and
    [fmt.Sscanf(s, "%f", &f)] *)

Definition digit_char (z : Z) : ascii := ascii_of_N (Z.to_N (48 + z)).

(** Digits are those of the exact value, rounded at the second decimal. *)
Definition format_fixed2 (x : Q) : string :=
  let cents := nearest (Qabs x * 100) in
  (if Qnum x <? 0 then "-" else "") +:+
  itoa (cents / 100) +:+ String "." (of_bytes [digit_char (cents / 10 mod 10); digit_char (cents mod 10)]).

Fixpoint span_digits (l : list ascii) : list ascii * list ascii :=
  match l with
  | c :: l' => if is_digit c then let '(a, r) := span_digits l' in (c :: a, r) else ([], l)
  | [] => ([], [])
  end.

Definition next_is (cs : list ascii) (l : list ascii) : bool :=
  match l with c :: _ => bool_decide (c ∈ cs) | [] => false end.

(** An optional character of [cs]. *)
Definition accept (cs : list ascii) (l : list ascii) : list ascii * list ascii :=
  match l with
  | c :: l' => if bool_decide (c ∈ cs) then ([c], l') else ([], l)
  | [] => ([], [])
  end.

Definition pow10 (e : Z) : Q := if 0 <=? e then inject_Z (10 ^ e) else 1 # Z.to_pos (10 ^ (- e)).

Definition max_float : Q := inject_Z (2 ^ 1024 - 2 ^ 970).

(** A numeral as [fmt] and [strconv] read it: sign, digits, fraction and
    decimal exponent, and what follows each part. *)
Record numeral := {
  n_neg : bool;
  n_int : list ascii;
  n_frac : list ascii;
  n_exp : option (bool * list ascii);
  n_after_sign : list ascii;
  n_after_int : list ascii;
  n_after_frac : list ascii;
  n_rest : list ascii
}.

Definition read_numeral (l : list ascii) : numeral :=
  let '(sg, l0) := accept ["+"; "-"]%char l in
  let '(ip, l1) := span_digits l0 in
  let '(dot, l2) := accept ["."]%char l1 in
  let '(fp, l3) := match dot with [] => ([], l2) | _ => span_digits l2 end in
  let '(ec, l4) := accept ["e"; "E"]%char l3 in
  let '(es, l5) := match ec with [] => ([], l4) | _ => accept ["+"; "-"]%char l4 end in
  let '(ed, l6) := match ec with [] => ([], l5) | _ => span_digits l5 end in
  {| n_neg := next_is ["-"]%char sg; n_int := ip; n_frac := fp;
     n_exp := match ec with [] => None | _ => Some (next_is ["-"]%char es, ed) end;
     n_after_sign := l0; n_after_int := l1; n_after_frac := l3; n_rest := l6 |}.

(** Spellings beyond plain decimals: [NaN], [Inf], hexadecimal, [_] and
    binary exponents. *)
Definition exotic (l : list ascii) : bool :=
  let n := read_numeral l in
  next_is ["n"; "N"]%char l || next_is ["i"; "I"]%char (n_after_sign n) ||
  next_is ["_"; "x"; "X"]%char (n_after_int n) || next_is ["_"; "p"; "P"]%char (n_after_frac n) ||
  next_is ["_"]%char (n_rest n).

(** The exact magnitude; [None] when a part lacks its digits. *)
Definition magnitude (n : numeral) : option Q :=
  match n_int n ++ n_frac n, n_exp n with
  | [], _ => None
  | _, Some (_, []) => None
  | ds, ex =>
      match digits_value 0 ds, digits_value 0 (default [] (snd <$> ex)) with
      | Some m, Some e =>
          let e := match ex with Some (true, _) => - e | _ => e end in
          Some (inject_Z m * pow10 (e - Z.of_nat (length (n_frac n))))%Q
      | _, _ => None
      end
  end.

(** Any value of the type, for the places that see more than numbers. *)
Inductive gofloat := Fin (q : Q) | PosInf | NegInf | NaN.

Definition round_numeral (n : numeral) (v : Q) : gofloat :=
  if Qle_bool max_float v then (if n_neg n then NegInf else PosInf)
  else Fin (if n_neg n then - rnd v else rnd v)%Q.

Section scan.
(** The exotic spellings are left to a parameter. *)
Variable parse_exotic : list ascii → gofloat.

(** [strconv.ParseFloat], errors ignored: 0 for a syntax error, an infinity
    out of range. *)
Definition ParseFloat_value (s : string) : gofloat :=
  let l := bytes s in
  let w := ToLower s in
  if bool_decide (w = "nan") then NaN
  else if bool_decide (w ∈ ["inf"; "+inf"; "infinity"; "+infinity"]) then PosInf
  else if bool_decide (w ∈ ["-inf"; "-infinity"]) then NegInf
  else if exotic l then parse_exotic l
  else let n := read_numeral l in
  match n_rest n, magnitude n with
  | [], Some v => round_numeral n v
  | _, _ => Fin 0
  end.

(** [fmt.Sscanf(s, "%f", &f)]; a range error is an error. *)
Definition scan_float (s : string) : option Q :=
  let l := drop_space false (bytes s) in
  let blank := take (length (bytes s) - length l) (bytes s) in
  if bool_decide ("010"%char ∈ blank) then None
  else if exotic l then match parse_exotic l with Fin q => Some q | _ => None end
  else let n := read_numeral l in
  match magnitude n with
  | Some v => match round_numeral n v with Fin q => Some q | _ => None end
  | None => None
  end.

Lemma span_digits_app l r :
  Forall (λ c, is_digit c = true) l → match r with c :: _ => is_digit c = false | [] => True end →
  span_digits (l ++ r) = (l, r).
Proof.
  intros Hl Hr. induction Hl as [|c l Hc Hl IH]; cbn.
  - destruct r as [|c r]; cbn; [done|]. by rewrite Hr.
  - by rewrite Hc, IH.
Qed.

Lemma digit_char_digit z : 0 ≤ z < 10 → is_digit (digit_char z) = true ∧ digit (digit_char z) = z.
Proof.
  intros H. assert (z = 0 ∨ z = 1 ∨ z = 2 ∨ z = 3 ∨ z = 4 ∨ z = 5 ∨ z = 6 ∨ z = 7 ∨ z = 8 ∨ z = 9)
    as Hz by lia. by destruct_or? Hz; subst.
Qed.

Lemma digits_value_app a l l' v :
  digits_value a l = Some v → digits_value a (l ++ l') = digits_value v l'.
Proof.
  revert a. induction l as [|c l IH]; intros a; cbn; [by intros [= ->]|].
  destruct (is_digit c); [apply IH|done].
Qed.

Lemma digit_graphic c : is_digit c = true → is_graphic c = true.
Proof. by destruct c as [[] [] [] [] [] [] [] []]; vm_compute. Qed.

Lemma digit_plain c : is_digit c = true →
  bool_decide (c ∈ ["+"; "-"]%char) = false ∧ bool_decide (c ∈ ["n"; "N"]%char) = false ∧
  bool_decide (c ∈ ["i"; "I"]%char) = false.
Proof. by destruct c as [[] [] [] [] [] [] [] []]; vm_compute. Qed.

(** A plain decimal with two decimals is read as the nearest double. *)
Lemma scan_float_decimal l a b :
  l ≠ [] → Forall (λ c, is_digit c = true) l → is_digit a = true → is_digit b = true →
  scan_float (of_bytes (l ++ "."%char :: [a; b])) =
  match digits_value 0 (l ++ [a; b]) with
  | Some m => if Qle_bool max_float (inject_Z m * pow10 (-2)) then None
              else Some (rnd (inject_Z m * pow10 (-2)))
  | None => None
  end.
Proof.
  intros Hne Hl Ha Hb. unfold scan_float. rewrite bytes_of_bytes.
  destruct l as [|c l]; [done|]. inversion Hl as [|?? Hc Hl']; subst. cbn [app].
  rewrite drop_space_graphic by by apply digit_graphic. rewrite Nat.sub_diag, take_0.
  rewrite bool_decide_eq_false_2 by apply not_elem_of_nil.
  destruct (digit_plain c Hc) as (H1 & H2 & H3).
  set (n := {| n_neg := false; n_int := c :: l; n_frac := [a; b]; n_exp := None;
    n_after_sign := c :: l ++ "."%char :: [a; b]; n_after_int := "."%char :: [a; b];
    n_after_frac := []; n_rest := [] |}).
  assert (read_numeral (c :: l ++ "."%char :: [a; b]) = n) as Hn.
  { unfold read_numeral, accept at 1. rewrite H1.
    change (c :: l ++ "."%char :: [a; b]) with ((c :: l) ++ "."%char :: [a; b]).
    rewrite span_digits_app by done. unfold accept at 1. rewrite bool_decide_eq_true_2 by left.
    cbn [span_digits]. by rewrite Ha, Hb. }
  unfold exotic. rewrite Hn. subst n. cbn [n_after_sign n_after_int n_after_frac n_rest next_is].
  rewrite H2, H3. cbn [orb]. change (bool_decide ("."%char ∈ ["_"; "x"; "X"]%char)) with false.
  cbn [orb]. unfold magnitude. cbn [n_int n_frac n_exp app].
  destruct (digits_value 0 (c :: l ++ [a; b])) as [m|]; [|done].
  unfold round_numeral. cbn [n_neg]. change (digits_value 0 (default [] (snd <$> None))) with (Some 0).
  change (0 - Z.of_nat (length [a; b])) with (-2). cbn match.
  by destruct (Qle_bool _ _).
Qed.

(** ** Amounts of money: cents printed as yuan *)

Lemma inject_Z_bounds c b : 0 ≤ c ≤ b → (0 <= inject_Z c /\ inject_Z c <= inject_Z b)%Q.
Proof. unfold Qle, inject_Z; cbn. lia. Qed.

(** A rounded value of at least 2^-100, or zero. *)
Lemma rnd_near x : (x == 0 \/ 1 # 2 ^ 100 <= x)%Q →
  (0 <= x /\ (1 - ulp) * x <= rnd x /\ rnd x <= (1 + ulp) * x)%Q.
Proof.
  intros [H|H].
  - rewrite (rnd_0 _ H), H. unfold ulp. split_and!; lra.
  - destruct (rnd_error x H). assert (0 <= 1 # 2 ^ 100)%Q by done. split_and!; [lra|done..].
Qed.

Lemma of_int_near c : 0 ≤ c →
  ((1 - ulp) * inject_Z c <= of_int c /\ of_int c <= (1 + ulp) * inject_Z c)%Q.
Proof.
  intros Hc. apply (rnd_near (inject_Z c)). destruct (decide (c = 0)) as [->|]; [by left|right].
  unfold Qle, inject_Z; cbn. lia.
Qed.

Lemma yuan_near c :
  0 ≤ c ≤ 2 ^ 48 →
  (0 <= fdiv (of_int c) 100 /\ inject_Z c - (1 # 8) <= fdiv (of_int c) 100 * 100 /\
   fdiv (of_int c) 100 * 100 <= inject_Z c + (1 # 8))%Q.
Proof.
  intros Hc. destruct (of_int_near c) as [H1 H2]; [lia|].
  destruct (inject_Z_bounds c (2 ^ 48)) as [B1 B2]; [lia|]. change (inject_Z (2 ^ 48)) with 281474976710656%Q in B2.
  unfold ulp in *. unfold fdiv.
  assert (of_int c / 100 == of_int c * (1 # 100))%Q as Hdiv by field.
  rewrite Hdiv. destruct (rnd_near (of_int c * (1 # 100))) as (E0 & E1 & E2); [|unfold ulp in *; split_and!; lra].
  destruct (decide (c = 0)) as [->|Hne]; [left; by vm_compute|right].
  assert (1 <= inject_Z c)%Q by (unfold Qle, inject_Z; cbn; lia).
  assert ((1 # 2 ^ 100) <= (1 # 200))%Q by done. lra.
Qed.

Lemma format_fixed2_yuan c :
  0 ≤ c ≤ 2 ^ 48 →
  format_fixed2 (fdiv (of_int c) 100) =
  of_bytes (bytes (itoa (c / 100)) ++ "."%char :: [digit_char (c / 10 mod 10); digit_char (c mod 10)]).
Proof.
  intros Hc. destruct (yuan_near c Hc) as (H0 & H1 & H2). unfold format_fixed2.
  assert (nearest (Qabs (fdiv (of_int c) 100) * 100) = c) as ->.
  { apply nearest_unique. rewrite Qabs_pos by done. split; lra. }
  destruct (Z.ltb_spec (Qnum (fdiv (of_int c) 100)) 0) as [Hn|_]; [unfold Qle in H0; cbn in H0; lia|].
  generalize (itoa (c / 100)), [digit_char (c / 10 mod 10); digit_char (c mod 10)].
  intros s l. change ("" +:+ s +:+ String "." (of_bytes l)) with (s +:+ String "." (of_bytes l)).
  induction s as [|a s IH]; [done|]. exact (f_equal (String a) IH).
Qed.

Lemma scan_float_yuan c :
  0 ≤ c ≤ 2 ^ 48 →
  scan_float (format_fixed2 (fdiv (of_int c) 100)) = Some (rnd (inject_Z c * pow10 (-2))).
Proof.
  intros Hc. rewrite format_fixed2_yuan by done.
  destruct (itoa_digits (c / 100)) as (Hne & Hf & Hv); [apply Z.div_pos; lia|].
  destruct (digit_char_digit (c / 10 mod 10)) as [Ha Hav]; [apply Z.mod_pos_bound; lia|].
  destruct (digit_char_digit (c mod 10)) as [Hb Hbv]; [apply Z.mod_pos_bound; lia|].
  rewrite scan_float_decimal by done. rewrite (digits_value_app _ _ _ _ Hv).
  cbn [digits_value]. rewrite Ha, Hb, Hav, Hbv.
  replace (10 * (10 * (c / 100) + c / 10 mod 10) + c mod 10) with c.
  2: { change 100 with (10 * 10). rewrite <-Z.div_div by lia.
       pose proof (Z.div_mod c 10 ltac:(lia)). pose proof (Z.div_mod (c / 10) 10 ltac:(lia)). lia. }
  destruct (Qle_bool max_float _) eqn:E; [|done]. exfalso. apply Qle_bool_iff in E.
  destruct (inject_Z_bounds c (2 ^ 48)) as [B1 B2]; [lia|].
  assert (inject_Z (2 ^ 49) <= max_float)%Q by (unfold max_float; by vm_compute).
  change (pow10 (-2)) with (1 # 100) in E. change (inject_Z (2 ^ 48)) with 281474976710656%Q in B2.
  change (inject_Z (2 ^ 49)) with 562949953421312%Q in H. lra.
Qed.

(** [int(f*100 + 0.5)] of the amount printed for [c] cents is [c]. *)
Lemma cents_of_yuan c :
  0 ≤ c ≤ 2 ^ 48 →
  to_int (fadd (fmul (rnd (inject_Z c * pow10 (-2))) 100) (1 # 2)) = c.
Proof.
  intros Hc. apply to_int_half_up; [lia|].
  destruct (inject_Z_bounds c (2 ^ 48)) as [B1 B2]; [lia|].
  change (inject_Z (2 ^ 48)) with 281474976710656%Q in B2. change (pow10 (-2)) with (1 # 100).
  destruct (decide (c = 0)) as [->|Hne]; [by vm_compute|].
  assert (1 <= inject_Z c)%Q as B3 by (unfold Qle, inject_Z; cbn; lia).
  assert ((1 # 2 ^ 100) <= (1 # 200))%Q as Ht by done.
  destruct (rnd_error (inject_Z c * (1 # 100))) as [E1 E2]; [lra|]. unfold fmul.
  destruct (rnd_error (rnd (inject_Z c * (1 # 100)) * 100)) as [F1 F2]; unfold ulp in *; [lra|].
  split; lra.
Qed.
End scan.
