(* ===== verification/Sql.v ===== *)
(** * Statements, transactions and failures of the database driver

    The DAOs of the repository talk to MySQL through [sqlx]: a statement may
    fail, a transaction is a sequence of statements that [Commit] publishes
    and [Rollback] forgets.  A computation here threads the database and a
    schedule of connection failures: every call to the driver consumes one
    entry of the schedule and fails with [EDriver], without effect, when it
    is [true] (an exhausted schedule means no further failure).  A
    transaction is one atomic step: the isolation of concurrent transactions
    is InnoDB's. *)

From S2P Require Import Prelude.

Section db.
Context {D : Type}.

Record world := World { w_db : D; w_faults : list bool }.

Definition DB (A : Type) : Type := world → result A * world.

Definition ret {A} (a : A) : DB A := λ w, (Ok a, w).
Definition bind {A B} (m : DB A) (k : A → DB B) : DB B := λ w,
  match m w with
  | (Ok a, w1) => k a w1
  | (Err e, w1) => (Err e, w1)
  end.

Definition throw {A} (e : goerr) : DB A := λ w, (Err e, w).

(** Go code that looks at the error itself instead of returning it. *)
Definition try {A} (m : DB A) : DB (result A) := λ w,
  let '(r, w1) := m w in (Ok r, w1).

(** [_ = m] *)
Definition ignore {A} (m : DB A) : DB unit := λ w, (Ok tt, (m w).2).

(** One round trip to the server. *)
Definition call {A} (f : D → result A * D) : DB A := λ w,
  match w_faults w with
  | true :: fs => (Err EDriver, World (w_db w) fs)
  | false :: fs => let '(r, d) := f (w_db w) in (r, World d fs)
  | [] => let '(r, d) := f (w_db w) in (r, World d [])
  end.

(** SELECT *)
Definition query {A} (f : D → result A) : DB A := call (λ d, (f d, d)).

(** INSERT, UPDATE, DELETE: a statement that errs has no effect. *)
Definition exec {A} (f : D → result (A * D)) : DB A := call (λ d,
  match f d with Ok (a, d') => (Ok a, d') | Err e => (Err e, d) end).

(** [BeginTxx]; body; [Commit], or [Rollback] when the body errs.  A commit
    that fails leaves nothing behind. *)
Definition runTx {A} (m : DB A) : DB A := λ w,
  match call (λ d, (Ok tt, d)) w with
  | (Err e, w0) => (Err e, w0)
  | (Ok _, w0) =>
      match m w0 with
      | (Err e, w1) => (Err e, World (w_db w) (w_faults w1))
      | (Ok a, w1) =>
          match call (λ d, (Ok tt, d)) w1 with
          | (Err e, w2) => (Err e, World (w_db w) (w_faults w2))
          | (Ok _, w2) => (Ok a, w2)
          end
      end
  end.

(** A transaction whose first statement may fail in a way the caller handles
    outside: [BeginTxx]; [m], or [Rollback] and [h] of its error; the rest;
    [Commit]. *)
Definition runTxOr {A B} (m : DB A) (h : goerr → DB B) (k : A → DB B) : DB B := λ w,
  match call (λ d, (Ok tt, d)) w with
  | (Err e, w0) => (Err e, w0)
  | (Ok _, w0) =>
      match m w0 with
      | (Err e, w1) => h e (World (w_db w) (w_faults w1))
      | (Ok a, w1) =>
          match k a w1 with
          | (Err e, w2) => (Err e, World (w_db w) (w_faults w2))
          | (Ok b, w2) =>
              match call (λ d, (Ok tt, d)) w2 with
              | (Err e, w3) => (Err e, World (w_db w) (w_faults w3))
              | (Ok _, w3) => (Ok b, w3)
              end
          end
      end
  end.

(** The same computation with a connection that never fails. *)
Definition run {A} (m : DB A) (d : D) : result A * D :=
  let '(r, w) := m (World d []) in (r, w_db w).

(** [Transparent m]: a failure of the connection is all that can make [m]
    differ from its failure-free run. *)
Class Transparent {A} (m : DB A) := {
  transparent_quiet d : w_faults (m (World d [])).2 = [];
  transparent_run w :
    (m w).1 = Err EDriver ∨ run m (w_db w) = ((m w).1, w_db (m w).2)
}.

Lemma run_world {A} (m : DB A) `{!Transparent m} d :
  m (World d []) = ((run m d).1, World (run m d).2 []).
Proof.
  pose proof (transparent_quiet (m:=m) d) as Hq. unfold run.
  destruct (m (World d [])) as [r [d' fs]]; cbn in *. by subst.
Qed.

#[global] Instance ret_transparent {A} (a : A) : Transparent (ret a).
Proof. split; [done|]. by right. Qed.

#[global] Instance throw_transparent {A} e : Transparent (throw (A:=A) e).
Proof. split; [done|]. by right. Qed.

Lemma run_bind {A B} (m : DB A) (k : A → DB B) `{!Transparent m} d :
  run (bind m k) d =
  match run m d with (Ok a, d1) => run (k a) d1 | (Err e, d1) => (Err e, d1) end.
Proof.
  unfold run at 1, bind. rewrite (run_world m).
  by destruct (run m d) as [[a|e] d1].
Qed.

#[global] Instance bind_transparent {A B} (m : DB A) (k : A → DB B) :
  Transparent m → (∀ a, Transparent (k a)) → Transparent (bind m k).
Proof.
  intros Hm Hk. split.
  - intros d. unfold bind. rewrite (run_world m).
    destruct (run m d) as [[a|e] d1]; cbn; [apply transparent_quiet|done].
  - intros w. rewrite (run_bind m k). unfold bind.
    destruct (transparent_run (m:=m) w) as [Hf|Hr];
      destruct (m w) as [[a|e] w1]; cbn in *; simplify_eq; [by left| |].
    + rewrite Hr. apply transparent_run.
    + rewrite Hr. by right.
Qed.

#[global] Instance call_transparent {A} (f : D → result A * D) : Transparent (call f).
Proof.
  split.
  - intros d. unfold call; cbn. by destruct (f d).
  - intros [d fs]. unfold run, call; cbn.
    destruct fs as [|[] fs]; [right|by left|right]; by destruct (f d).
Qed.

#[global] Instance query_transparent {A} (f : D → result A) : Transparent (query f).
Proof. apply _. Qed.
#[global] Instance exec_transparent {A} (f : D → result (A * D)) : Transparent (exec f).
Proof. apply _. Qed.

Lemma run_ret {A} (a : A) d : run (ret a) d = (Ok a, d).
Proof. done. Qed.
Lemma run_throw {A} e d : run (throw (A:=A) e) d = (Err e, d).
Proof. done. Qed.
Lemma run_query {A} (f : D → result A) d : run (query f) d = (f d, d).
Proof. done. Qed.
Lemma run_exec {A} (f : D → result (A * D)) d :
  run (exec f) d = match f d with Ok (a, d') => (Ok a, d') | Err e => (Err e, d) end.
Proof. unfold run, exec, call; cbn. by destruct (f d) as [[]|]. Qed.

Lemma run_runTx {A} (m : DB A) `{!Transparent m} d :
  run (runTx m) d =
  match run m d with (Ok a, d') => (Ok a, d') | (Err e, _) => (Err e, d) end.
Proof.
  unfold run at 1, runTx; cbn. rewrite (run_world m).
  by destruct (run m d) as [[a|e] d1].
Qed.

#[global] Instance runTx_transparent {A} (m : DB A) :
  Transparent m → Transparent (runTx m).
Proof.
  intros Hm. split.
  - intros d. unfold runTx; cbn. rewrite (run_world m).
    by destruct (run m d) as [[a|e] d1].
  - intros w. rewrite (run_runTx m). unfold runTx.
    destruct w as [d fs]. destruct fs as [|[] fs]; cbn; [|by left|];
    match goal with |- context [m ?w0] =>
      destruct (transparent_run (m:=m) w0) as [Hf|Hr];
      destruct (m w0) as [[a|e] [d1 fs1]]; cbn in *; simplify_eq; [by left| |] end.
    all: rewrite ?Hr; destruct fs1 as [|[] fs1]; cbn; eauto.
Qed.

(** A transaction that errs, for whatever reason, leaves no trace. *)
Lemma runTx_err {A} (m : DB A) w e :
  (runTx m w).1 = Err e → w_db (runTx m w).2 = w_db w.
Proof.
  unfold runTx. destruct w as [d fs]. destruct fs as [|[] fs]; cbn; try done.
  all: destruct (m _) as [[a|e'] [d1 fs1]]; cbn; try done.
  all: destruct fs1 as [|[] fs1]; cbn; done.
Qed.

Lemma run_runTxOr {A B} (m : DB A) (h : goerr → DB B) (k : A → DB B)
    `{!Transparent m, !∀ e, Transparent (h e), !∀ a, Transparent (k a)} d :
  run (runTxOr m h k) d =
  match run m d with
  | (Err e, _) => run (h e) d
  | (Ok a, d1) =>
      match run (k a) d1 with (Ok b, d') => (Ok b, d') | (Err e, _) => (Err e, d) end
  end.
Proof.
  unfold run at 1, runTxOr; cbn. rewrite (run_world m).
  destruct (run m d) as [[a|e] d1]; cbn; [|done]. rewrite (run_world (k a)).
  by destruct (run (k a) d1) as [[b|e] d2].
Qed.

#[global] Instance runTxOr_transparent {A B} (m : DB A) (h : goerr → DB B) (k : A → DB B) :
  Transparent m → (∀ e, Transparent (h e)) → (∀ a, Transparent (k a)) →
  (∀ w, (h EDriver w).1 = Err EDriver) → Transparent (runTxOr m h k).
Proof.
  intros Hm Hh Hk He. split.
  - intros d. unfold runTxOr; cbn. rewrite (run_world m).
    destruct (run m d) as [[a|e] d1]; cbn; [|apply transparent_quiet].
    rewrite (run_world (k a)). by destruct (run (k a) d1) as [[b|e] d2].
  - intros [d fs]. rewrite (run_runTxOr m h k). unfold runTxOr.
    destruct fs as [|[] fs]; cbn; [|by left|];
    match goal with |- context [m ?w0] =>
      destruct (transparent_run (m:=m) w0) as [Hf|Hr];
      destruct (m w0) as [[a|e] [d1 fs1]]; cbn in *; simplify_eq end;
    try (by left; apply He); rewrite ?Hr; try apply (transparent_run (m:=h e)).
    all: destruct (transparent_run (m:=k a) (World d1 fs1)) as [Hf|Hr2];
      destruct (k a (World d1 fs1)) as [[b|e] [d2 fs2]]; cbn in *; simplify_eq; [by left| |];
      rewrite ?Hr2; destruct fs2 as [|[] fs2]; cbn; eauto.
Qed.

(** [Atomic m]: when [m] errs the database is as it was. *)
Class Atomic {A} (m : DB A) :=
  atomic w e : (m w).1 = Err e → w_db (m w).2 = w_db w.

#[global] Instance ret_atomic {A} (a : A) : Atomic (ret a).
Proof. done. Qed.
#[global] Instance throw_atomic {A} e : Atomic (throw (A:=A) e).
Proof. done. Qed.
#[global] Instance runTx_is_atomic {A} (m : DB A) : Atomic (runTx m).
Proof. intros w e. apply runTx_err. Qed.
#[global] Instance query_atomic {A} (f : D → result A) : Atomic (query f).
Proof. intros [d fs] e. unfold query, call; cbn. by destruct fs as [|[] fs]. Qed.
Lemma query_keeps {A} (f : D → result A) w : w_db (query f w).2 = w_db w.
Proof. destruct w as [d fs]. by destruct fs as [|[] fs]. Qed.

#[global] Instance exec_atomic {A} (f : D → result (A * D)) : Atomic (exec f).
Proof.
  intros [d fs] e. unfold exec, call; cbn.
  destruct fs as [|[] fs]; cbn; try done; by destruct (f d) as [[]|].
Qed.

#[global] Instance bind_ret_atomic {A B} (m : DB A) (f : A → B) :
  Atomic m → Atomic (bind m (λ a, ret (f a))).
Proof.
  intros Hm w e. unfold bind. specialize (Hm w).
  destruct (m w) as [[a|e'] w1]; cbn in *; [done|]. intros [= ->]. by eapply Hm.
Qed.

#[global] Instance runTxOr_atomic {A B} (m : DB A) (h : goerr → DB B) (k : A → DB B) :
  (∀ e, Atomic (h e)) → Atomic (runTxOr m h k).
Proof.
  intros Hh [d fs] e. unfold runTxOr. destruct fs as [|[] fs]; cbn; try done.
  all: destruct (m _) as [[a|e'] [d1 fs1]]; cbn;
    [destruct (k a _) as [[b|e''] [d2 fs2]]; cbn; [destruct fs2 as [|[] fs2]; cbn; done|done]
    |intros H; by apply Hh in H].
Qed.

(** Dropping the result. *)
Definition void {A} (m : DB A) : DB unit := bind m (λ _, ret tt).
#[global] Instance void_atomic {A} (m : DB A) : Atomic m → Atomic (void m).
Proof. apply bind_ret_atomic. Qed.

(** An atomic and transparent computation either did nothing because the
    connection failed, or did what it does without failures. *)
Lemma atomic_or_run {A} (m : DB A) `{!Transparent m, !Atomic m} w :
  ((m w).1 = Err EDriver ∧ w_db (m w).2 = w_db w) ∨
  run m (w_db w) = ((m w).1, w_db (m w).2).
Proof.
  destruct (transparent_run (m:=m) w) as [Hf|Hr]; [left|by right].
  split; [done|]. by eapply atomic.
Qed.

(** [Steady m]: where no failure is due, none comes up. *)
Class Steady {A} (m : DB A) := steady w : w_faults w = [] → w_faults (m w).2 = [].

#[global] Instance transparent_steady {A} (m : DB A) : Transparent m → Steady m | 50.
Proof. intros Hm [d fs]. cbn. intros ->. apply transparent_quiet. Qed.
#[global] Instance bind_steady {A B} (m : DB A) (k : A → DB B) :
  Steady m → (∀ a, Steady (k a)) → Steady (bind m k).
Proof.
  intros Hm Hk w Hw. unfold bind. specialize (Hm w Hw). destruct (m w) as [[a|e] w1]; cbn in *; [by apply Hk|done].
Qed.
#[global] Instance try_steady {A} (m : DB A) : Steady m → Steady (try m).
Proof. intros Hm w Hw. unfold try. specialize (Hm w Hw). by destruct (m w). Qed.
#[global] Instance ignore_steady {A} (m : DB A) : Steady m → Steady (ignore m).
Proof. intros Hm w Hw. unfold ignore. by apply Hm. Qed.

(** [Keeps R m]: whatever fails, [m] leaves the database related to what it
    was. *)
Class Keeps {A} (R : relation D) (m : DB A) := keeps w : R (w_db w) (w_db (m w).2).

Section keeps.
Context (R : relation D) `{!PreOrder R}.

#[global] Instance ret_keeps {A} (a : A) : Keeps R (ret a).
Proof. intros w. done. Qed.
#[global] Instance throw_keeps {A} e : Keeps R (throw (A:=A) e).
Proof. intros w. done. Qed.
#[global] Instance query_is_keeps {A} (f : D → result A) : Keeps R (query f).
Proof. intros w. by rewrite query_keeps. Qed.
#[global] Instance bind_keeps {A B} (m : DB A) (k : A → DB B) :
  Keeps R m → (∀ a, Keeps R (k a)) → Keeps R (bind m k).
Proof.
  intros Hm Hk w. unfold bind. specialize (Hm w). destruct (m w) as [[a|e] w1]; cbn in *; [|done].
  etrans; [exact Hm|apply Hk].
Qed.
#[global] Instance ignore_keeps {A} (m : DB A) : Keeps R m → Keeps R (ignore m).
Proof. intros Hm w. unfold ignore. cbn. apply Hm. Qed.
#[global] Instance try_keeps {A} (m : DB A) : Keeps R m → Keeps R (try m).
Proof. intros Hm w. unfold try. specialize (Hm w). by destruct (m w). Qed.

Lemma exec_keeps {A} (f : D → result (A * D)) :
  (∀ d a d', f d = Ok (a, d') → R d d') → Keeps R (exec f).
Proof.
  intros H [d fs]. unfold exec, call. cbn.
  destruct fs as [|[] fs]; cbn; try done; destruct (f d) as [[a d']|e] eqn:E; cbn; try done; by eapply H.
Qed.

#[global] Instance runTx_keeps {A} (m : DB A) : Keeps R m → Keeps R (runTx m).
Proof.
  intros Hm [d fs]. unfold runTx, call. cbn.
  destruct fs as [|[] fs]; cbn; try done;
    match goal with |- context [m ?w0] => pose proof (Hm w0) as Hw;
      destruct (m w0) as [[a|e] [d1 fs1]]; cbn in *; try done; destruct fs1 as [|[] fs1]; done end.
Qed.
End keeps.

End db.

Arguments world D : clear implicits.
Arguments DB D A : clear implicits.

Notation "x <- m ;; k" := (bind m (fun x => k))
  (at level 20, m at level 99, k at level 200, right associativity) : go_scope.
Notation "' p <- m ;; k" := (bind m (fun x => match x with p => k end))
  (at level 20, p pattern, m at level 99, k at level 200, right associativity) : go_scope.
Notation "m ;; k" := (bind m (fun _ => k))
  (at level 100, k at level 200, right associativity, only parsing) : go_scope.

(** [db_transparent] looks through the control flow of a body. *)
Ltac db_transparent :=
  repeat first
    [ progress intros
    | typeclasses eauto
    | apply bind_transparent
    | apply runTx_transparent
    | match goal with |- Transparent (match ?x with _ => _ end) => destruct x end
    | match goal with |- Transparent (let '_ := ?x in _) => destruct x end ].

#[export] Hint Extern 10 (Keeps _ (match ?x with _ => _ end)) =>
  destruct x : typeclass_instances.
#[export] Hint Extern 10 (Steady (match ?x with _ => _ end)) =>
  destruct x : typeclass_instances.
#[export] Hint Extern 10 (Atomic (match ?x with _ => _ end)) =>
  destruct x : typeclass_instances.
#[export] Hint Extern 10 (Transparent (match ?x with _ => _ end)) =>
  destruct x : typeclass_instances.

Create Rewrite HintDb db.
#[export] Hint Rewrite @run_ret @run_throw @run_query @run_exec : db.

(** [db_eval]: evaluate the failure-free run of a computation. *)
Ltac db_eval :=
  repeat first
    [ match goal with |- context [run (runTx ?m) ?d] => rewrite (run_runTx m d) end
    | match goal with |- context [run (bind ?m ?k) ?d] => rewrite (run_bind m k d) end
    | progress autorewrite with db
    | progress cbn ].
