(* ===== verification/Schema.v ===== *)
(** * The tables of the database and the rows the Go structs describe

    One record per [model.go] struct, with its fields in the source's order
    ([CreatedAt]/[UpdatedAt] only where code reads them).  Instants are
    integers (nanoseconds), a NULL-able column or a nil pointer is an
    [option], [uint64] identifiers are [N], [int64] columns are [Z] kept in
    range by [bigint].  Row identifiers are the keys of the tables. *)

From S2P Require Import Prelude Sql.
From Stdlib Require Import QArith.
#[local] Open Scope Z_scope.

(** users (internal/user/model.go) *)
Record User := {
  Email : string;
  PasswordHash : string;
  Nickname : string;
  GroupID : N;
  Role : string;
  Status : string;
  CreditBalance : Z;
  CreditFrozen : Z;
  Version : Z;
  LastLoginAt : option Z;
  LastLoginIP : string;
  UserDeletedAt : option Z
}.

(** credit_transactions: an append-only journal, oldest first *)
Record CreditTx := {
  TxUserID : N;
  TxKeyID : N;
  TxType : string;
  TxAmount : Z;
  TxBalanceAfter : Z;
  TxRefID : string;
  TxRemark : string
}.

(** redeem_codes (internal/redeem/model.go) *)
Record Code := {
  CodeText : string;
  CodeBatchID : string;
  CodeCredits : Z;
  UsedByUserID : N;
  UsedAt : option Z;
  CodeExpiresAt : option Z;
  CodeCreatedAt : Z
}.

(** user_checkins (internal/checkin/service.go) *)
Record CheckinRecord := {
  CkUserID : N;
  CheckinDay : string;
  CheckedAt : Z;
  AwardedCredits : Z;
  CkBalanceAfter : Z;
  CkRefID : string;
  CkRemark : string
}.

(** recharge_packages, recharge_orders (internal/recharge/model.go) *)
Record Package := {
  PkgName : string;
  PkgPriceCNY : Z;
  PkgCredits : Z;
  PkgBonus : Z;
  PkgDescription : string;
  PkgSort : Z;
  PkgEnabled : bool
}.

Record Order := {
  OutTradeNo : string;
  OrdUserID : N;
  PackageID : N;
  PriceCNY : Z;
  Credits : Z;
  Bonus : Z;
  Channel : string;
  PayMethod : string;
  OrdStatus : string;
  TradeNo : string;
  PaidAt : option Z;
  PayURL : string;
  ClientIP : string;
  NotifyRaw : option string;
  Remark : string;
  OrdCreatedAt : Z
}.

(** api_keys (internal/apikey/model.go) *)
Record APIKey := {
  KeyUserID : N;
  KeyName : string;
  KeyPrefix : string;
  KeyHash : string;
  QuotaLimit : Z;
  QuotaUsed : Z;
  AllowedModels : option string;
  AllowedIPs : option string;
  KeyRPM : Z;
  KeyTPM : Z;
  KeyExpiresAt : option Z;
  KeyEnabled : bool;
  KeyLastUsedAt : option Z;
  KeyLastUsedIP : string;
  KeyDeletedAt : option Z
}.

(** oai_accounts (internal/account/model.go), its columns in the groups the
    statements write together *)
Record AccountInfo := {
  AccEmail : string;
  AuthTokenEnc : string;
  RefreshTokenEnc : option string;
  SessionTokenEnc : option string;
  TokenExpiresAt : option Z;
  OAISessionID : string;
  OAIDeviceID : string;
  ClientID : string;
  ChatGPTAccountID : string;
  AccountType : string;
  PlanType : string;
  DailyImageQuota : Z;
  AccStatus : string;
  AccNotes : string
}.

Record AccountUse := {
  WarnedAt : option Z;
  CooldownUntil : option Z;
  AccLastUsedAt : option Z;
  TodayUsedCount : Z;
  TodayUsedDate : option Z      (* DATE: a day number *)
}.

Record AccountRefresh := {
  LastRefreshAt : option Z;
  LastRefreshSource : string;
  RefreshError : string
}.

Record AccountQuota := {
  ImageQuotaRemaining : Z;
  ImageQuotaTotal : Z;
  ImageQuotaResetAt : option Z;
  ImageQuotaUpdatedAt : option Z
}.

Record Account := {
  AccInfo : AccountInfo;
  AccUse : AccountUse;
  AccRefresh : AccountRefresh;
  AccQuota : AccountQuota;
  AccDeletedAt : option Z
}.

(** proxies (internal/proxy/model.go) *)
Record Proxy := {
  Scheme : string;
  Host : string;
  Port : Z;
  ProxyUsername : string;
  PasswordEnc : string;
  Country : string;
  ISP : string;
  HealthScore : Z;
  LastProbeAt : option Z;
  ProxyLastUsedAt : option Z;
  LastError : string;
  ProxyEnabled : bool;
  ProxyRemark : string;
  ProxyDeletedAt : option Z
}.

(** user_groups (internal/user/model.go); a DECIMAL ratio arrives as the
    nearest [float64] *)
Record Group := {
  GroupName : string;
  GroupRatio : Q;
  DailyLimitCredits : Z;
  RPMLimit : Z;
  TPMLimit : Z;
  GroupRemark : string;
  GroupDeletedAt : option Z
}.

(** models (internal/model/model.go) *)
Record Model := {
  Slug : string;
  ModelType : string;
  UpstreamModelSlug : string;
  InputPricePer1M : Z;
  OutputPricePer1M : Z;
  CacheReadPricePer1M : Z;
  ImagePricePerCall : Z;
  ImagePricePerCall2K : Z;
  ImagePricePerCall4K : Z;
  SupportsMultiImage : bool;
  SupportsOutputSize : bool;
  Description : string;
  ModelEnabled : bool;
  ModelDeletedAt : option Z
}.

(** upstream_channels, channel_model_mappings (internal/channel/model.go) *)
Record ChannelRow := {
  ChName : string;
  ChType : string;
  BaseURL : string;
  APIKeyEnc : string;
  ChEnabled : bool;
  ChPriority : Z;
  Weight : Z;
  TimeoutS : Z;
  ChRatio : Q;
  Extra : option string;
  ChStatus : string;
  FailCount : Z;
  LastTestAt : option Z;
  LastTestOK : option bool;
  LastTestError : string;
  ChRemark : string;
  ChDeletedAt : option Z
}.

Record Mapping := {
  ChannelID : N;
  LocalModel : string;
  UpstreamModel : string;
  Modality : string;
  MapEnabled : bool;
  MapPriority : Z
}.

(** image_tasks (internal/image/model.go).  The []byte columns are JSON texts,
    [None] where the column is NULL. *)
Record Task := {
  TaskID : string;
  TaskUserID : N;
  TaskKeyID : N;
  TaskModelID : N;
  TaskAccountID : N;
  TaskPrompt : string;
  TaskN : Z;
  TaskSize : string;
  TaskUpscale : string;
  TaskStorageMode : string;
  TaskStatus : string;
  ConversationID : string;
  FileIDs : option string;
  ResultURLs : option string;
  ThumbURLs : option string;
  ReferenceCount : Z;
  ReferenceURLs : option string;
  ReferenceThumbURLs : option string;
  TaskError : string;
  EstimatedCredit : Z;
  TaskCreditCost : Z;
  TaskCreatedAt : Z;
  StartedAt : option Z;
  FinishedAt : option Z;
  TaskDeletedAt : option Z
}.

(** usage_logs (internal/usage/model.go) *)
Record Log := {
  LogUserID : N;
  LogKeyID : N;
  LogModelID : N;
  LogAccountID : N;
  LogRequestID : string;
  LogType : string;
  InputTokens : Z;
  OutputTokens : Z;
  CacheReadTokens : Z;
  CacheWriteTokens : Z;
  ImageCount : Z;
  CreditCost : Z;
  DurationMs : Z;
  LogStatus : string;
  ErrorCode : string;
  LogIP : string;
  LogUA : string;
  LogCreatedAt : Z      (* the zero time until it is written *)
}.

(** The cookies of an account, the proxy an account is bound to, the account
    a snapshot belongs to are the tables' values. *)
Record database := {
  users : gmap N User;
  credit_transactions : list CreditTx;
  redeem_codes : gmap N Code;
  user_checkins : gmap N CheckinRecord;
  recharge_packages : gmap N Package;
  recharge_orders : gmap N Order;
  api_keys : gmap N APIKey;
  system_settings : gmap string (option string);
  oai_accounts : gmap N Account;
  oai_account_cookies : gmap N string;
  account_proxy_bindings : gmap N N;
  account_quota_snapshots : gmap N N;
  proxies : gmap N Proxy;
  user_groups : gmap N Group;
  models : gmap N Model;
  upstream_channels : gmap N ChannelRow;
  channel_model_mappings : gmap N Mapping;
  image_tasks : gmap N Task;
  usage_logs : list Log
}.

Abbreviation DBM := (DB database).

Definition with_users (f : gmap N User → gmap N User) (d : database) : database :=
  {| users := f (users d); credit_transactions := credit_transactions d; redeem_codes := redeem_codes d;
     user_checkins := user_checkins d; recharge_packages := recharge_packages d;
     recharge_orders := recharge_orders d; api_keys := api_keys d; system_settings := system_settings d;
     oai_accounts := oai_accounts d; oai_account_cookies := oai_account_cookies d;
     account_proxy_bindings := account_proxy_bindings d;
     account_quota_snapshots := account_quota_snapshots d; proxies := proxies d;
     user_groups := user_groups d; models := models d; upstream_channels := upstream_channels d;
     channel_model_mappings := channel_model_mappings d; image_tasks := image_tasks d;
     usage_logs := usage_logs d |}.

Definition with_credit_transactions (f : list CreditTx → list CreditTx) (d : database) : database :=
  {| users := users d; credit_transactions := f (credit_transactions d); redeem_codes := redeem_codes d;
     user_checkins := user_checkins d; recharge_packages := recharge_packages d;
     recharge_orders := recharge_orders d; api_keys := api_keys d; system_settings := system_settings d;
     oai_accounts := oai_accounts d; oai_account_cookies := oai_account_cookies d;
     account_proxy_bindings := account_proxy_bindings d;
     account_quota_snapshots := account_quota_snapshots d; proxies := proxies d;
     user_groups := user_groups d; models := models d; upstream_channels := upstream_channels d;
     channel_model_mappings := channel_model_mappings d; image_tasks := image_tasks d;
     usage_logs := usage_logs d |}.

Definition with_redeem_codes (f : gmap N Code → gmap N Code) (d : database) : database :=
  {| users := users d; credit_transactions := credit_transactions d; redeem_codes := f (redeem_codes d);
     user_checkins := user_checkins d; recharge_packages := recharge_packages d;
     recharge_orders := recharge_orders d; api_keys := api_keys d; system_settings := system_settings d;
     oai_accounts := oai_accounts d; oai_account_cookies := oai_account_cookies d;
     account_proxy_bindings := account_proxy_bindings d;
     account_quota_snapshots := account_quota_snapshots d; proxies := proxies d;
     user_groups := user_groups d; models := models d; upstream_channels := upstream_channels d;
     channel_model_mappings := channel_model_mappings d; image_tasks := image_tasks d;
     usage_logs := usage_logs d |}.

Definition with_user_checkins (f : gmap N CheckinRecord → gmap N CheckinRecord) (d : database) : database :=
  {| users := users d; credit_transactions := credit_transactions d; redeem_codes := redeem_codes d;
     user_checkins := f (user_checkins d); recharge_packages := recharge_packages d;
     recharge_orders := recharge_orders d; api_keys := api_keys d; system_settings := system_settings d;
     oai_accounts := oai_accounts d; oai_account_cookies := oai_account_cookies d;
     account_proxy_bindings := account_proxy_bindings d;
     account_quota_snapshots := account_quota_snapshots d; proxies := proxies d;
     user_groups := user_groups d; models := models d; upstream_channels := upstream_channels d;
     channel_model_mappings := channel_model_mappings d; image_tasks := image_tasks d;
     usage_logs := usage_logs d |}.

Definition with_recharge_packages (f : gmap N Package → gmap N Package) (d : database) : database :=
  {| users := users d; credit_transactions := credit_transactions d; redeem_codes := redeem_codes d;
     user_checkins := user_checkins d; recharge_packages := f (recharge_packages d);
     recharge_orders := recharge_orders d; api_keys := api_keys d; system_settings := system_settings d;
     oai_accounts := oai_accounts d; oai_account_cookies := oai_account_cookies d;
     account_proxy_bindings := account_proxy_bindings d;
     account_quota_snapshots := account_quota_snapshots d; proxies := proxies d;
     user_groups := user_groups d; models := models d; upstream_channels := upstream_channels d;
     channel_model_mappings := channel_model_mappings d; image_tasks := image_tasks d;
     usage_logs := usage_logs d |}.

Definition with_recharge_orders (f : gmap N Order → gmap N Order) (d : database) : database :=
  {| users := users d; credit_transactions := credit_transactions d; redeem_codes := redeem_codes d;
     user_checkins := user_checkins d; recharge_packages := recharge_packages d;
     recharge_orders := f (recharge_orders d); api_keys := api_keys d; system_settings := system_settings d;
     oai_accounts := oai_accounts d; oai_account_cookies := oai_account_cookies d;
     account_proxy_bindings := account_proxy_bindings d;
     account_quota_snapshots := account_quota_snapshots d; proxies := proxies d;
     user_groups := user_groups d; models := models d; upstream_channels := upstream_channels d;
     channel_model_mappings := channel_model_mappings d; image_tasks := image_tasks d;
     usage_logs := usage_logs d |}.

Definition with_api_keys (f : gmap N APIKey → gmap N APIKey) (d : database) : database :=
  {| users := users d; credit_transactions := credit_transactions d; redeem_codes := redeem_codes d;
     user_checkins := user_checkins d; recharge_packages := recharge_packages d;
     recharge_orders := recharge_orders d; api_keys := f (api_keys d); system_settings := system_settings d;
     oai_accounts := oai_accounts d; oai_account_cookies := oai_account_cookies d;
     account_proxy_bindings := account_proxy_bindings d;
     account_quota_snapshots := account_quota_snapshots d; proxies := proxies d;
     user_groups := user_groups d; models := models d; upstream_channels := upstream_channels d;
     channel_model_mappings := channel_model_mappings d; image_tasks := image_tasks d;
     usage_logs := usage_logs d |}.

Definition with_system_settings (f : gmap string (option string) → gmap string (option string)) (d : database) : database :=
  {| users := users d; credit_transactions := credit_transactions d; redeem_codes := redeem_codes d;
     user_checkins := user_checkins d; recharge_packages := recharge_packages d;
     recharge_orders := recharge_orders d; api_keys := api_keys d; system_settings := f (system_settings d);
     oai_accounts := oai_accounts d; oai_account_cookies := oai_account_cookies d;
     account_proxy_bindings := account_proxy_bindings d;
     account_quota_snapshots := account_quota_snapshots d; proxies := proxies d;
     user_groups := user_groups d; models := models d; upstream_channels := upstream_channels d;
     channel_model_mappings := channel_model_mappings d; image_tasks := image_tasks d;
     usage_logs := usage_logs d |}.

Definition with_oai_accounts (f : gmap N Account → gmap N Account) (d : database) : database :=
  {| users := users d; credit_transactions := credit_transactions d; redeem_codes := redeem_codes d;
     user_checkins := user_checkins d; recharge_packages := recharge_packages d;
     recharge_orders := recharge_orders d; api_keys := api_keys d; system_settings := system_settings d;
     oai_accounts := f (oai_accounts d); oai_account_cookies := oai_account_cookies d;
     account_proxy_bindings := account_proxy_bindings d;
     account_quota_snapshots := account_quota_snapshots d; proxies := proxies d;
     user_groups := user_groups d; models := models d; upstream_channels := upstream_channels d;
     channel_model_mappings := channel_model_mappings d; image_tasks := image_tasks d;
     usage_logs := usage_logs d |}.

Definition with_oai_account_cookies (f : gmap N string → gmap N string) (d : database) : database :=
  {| users := users d; credit_transactions := credit_transactions d; redeem_codes := redeem_codes d;
     user_checkins := user_checkins d; recharge_packages := recharge_packages d;
     recharge_orders := recharge_orders d; api_keys := api_keys d; system_settings := system_settings d;
     oai_accounts := oai_accounts d; oai_account_cookies := f (oai_account_cookies d);
     account_proxy_bindings := account_proxy_bindings d;
     account_quota_snapshots := account_quota_snapshots d; proxies := proxies d;
     user_groups := user_groups d; models := models d; upstream_channels := upstream_channels d;
     channel_model_mappings := channel_model_mappings d; image_tasks := image_tasks d;
     usage_logs := usage_logs d |}.

Definition with_account_proxy_bindings (f : gmap N N → gmap N N) (d : database) : database :=
  {| users := users d; credit_transactions := credit_transactions d; redeem_codes := redeem_codes d;
     user_checkins := user_checkins d; recharge_packages := recharge_packages d;
     recharge_orders := recharge_orders d; api_keys := api_keys d; system_settings := system_settings d;
     oai_accounts := oai_accounts d; oai_account_cookies := oai_account_cookies d;
     account_proxy_bindings := f (account_proxy_bindings d);
     account_quota_snapshots := account_quota_snapshots d; proxies := proxies d;
     user_groups := user_groups d; models := models d; upstream_channels := upstream_channels d;
     channel_model_mappings := channel_model_mappings d; image_tasks := image_tasks d;
     usage_logs := usage_logs d |}.

Definition with_account_quota_snapshots (f : gmap N N → gmap N N) (d : database) : database :=
  {| users := users d; credit_transactions := credit_transactions d; redeem_codes := redeem_codes d;
     user_checkins := user_checkins d; recharge_packages := recharge_packages d;
     recharge_orders := recharge_orders d; api_keys := api_keys d; system_settings := system_settings d;
     oai_accounts := oai_accounts d; oai_account_cookies := oai_account_cookies d;
     account_proxy_bindings := account_proxy_bindings d;
     account_quota_snapshots := f (account_quota_snapshots d); proxies := proxies d;
     user_groups := user_groups d; models := models d; upstream_channels := upstream_channels d;
     channel_model_mappings := channel_model_mappings d; image_tasks := image_tasks d;
     usage_logs := usage_logs d |}.

Definition with_proxies (f : gmap N Proxy → gmap N Proxy) (d : database) : database :=
  {| users := users d; credit_transactions := credit_transactions d; redeem_codes := redeem_codes d;
     user_checkins := user_checkins d; recharge_packages := recharge_packages d;
     recharge_orders := recharge_orders d; api_keys := api_keys d; system_settings := system_settings d;
     oai_accounts := oai_accounts d; oai_account_cookies := oai_account_cookies d;
     account_proxy_bindings := account_proxy_bindings d;
     account_quota_snapshots := account_quota_snapshots d; proxies := f (proxies d);
     user_groups := user_groups d; models := models d; upstream_channels := upstream_channels d;
     channel_model_mappings := channel_model_mappings d; image_tasks := image_tasks d;
     usage_logs := usage_logs d |}.

Definition with_user_groups (f : gmap N Group → gmap N Group) (d : database) : database :=
  {| users := users d; credit_transactions := credit_transactions d; redeem_codes := redeem_codes d;
     user_checkins := user_checkins d; recharge_packages := recharge_packages d;
     recharge_orders := recharge_orders d; api_keys := api_keys d; system_settings := system_settings d;
     oai_accounts := oai_accounts d; oai_account_cookies := oai_account_cookies d;
     account_proxy_bindings := account_proxy_bindings d;
     account_quota_snapshots := account_quota_snapshots d; proxies := proxies d;
     user_groups := f (user_groups d); models := models d; upstream_channels := upstream_channels d;
     channel_model_mappings := channel_model_mappings d; image_tasks := image_tasks d;
     usage_logs := usage_logs d |}.

Definition with_models (f : gmap N Model → gmap N Model) (d : database) : database :=
  {| users := users d; credit_transactions := credit_transactions d; redeem_codes := redeem_codes d;
     user_checkins := user_checkins d; recharge_packages := recharge_packages d;
     recharge_orders := recharge_orders d; api_keys := api_keys d; system_settings := system_settings d;
     oai_accounts := oai_accounts d; oai_account_cookies := oai_account_cookies d;
     account_proxy_bindings := account_proxy_bindings d;
     account_quota_snapshots := account_quota_snapshots d; proxies := proxies d;
     user_groups := user_groups d; models := f (models d); upstream_channels := upstream_channels d;
     channel_model_mappings := channel_model_mappings d; image_tasks := image_tasks d;
     usage_logs := usage_logs d |}.

Definition with_upstream_channels (f : gmap N ChannelRow → gmap N ChannelRow) (d : database) : database :=
  {| users := users d; credit_transactions := credit_transactions d; redeem_codes := redeem_codes d;
     user_checkins := user_checkins d; recharge_packages := recharge_packages d;
     recharge_orders := recharge_orders d; api_keys := api_keys d; system_settings := system_settings d;
     oai_accounts := oai_accounts d; oai_account_cookies := oai_account_cookies d;
     account_proxy_bindings := account_proxy_bindings d;
     account_quota_snapshots := account_quota_snapshots d; proxies := proxies d;
     user_groups := user_groups d; models := models d; upstream_channels := f (upstream_channels d);
     channel_model_mappings := channel_model_mappings d; image_tasks := image_tasks d;
     usage_logs := usage_logs d |}.

Definition with_channel_model_mappings (f : gmap N Mapping → gmap N Mapping) (d : database) : database :=
  {| users := users d; credit_transactions := credit_transactions d; redeem_codes := redeem_codes d;
     user_checkins := user_checkins d; recharge_packages := recharge_packages d;
     recharge_orders := recharge_orders d; api_keys := api_keys d; system_settings := system_settings d;
     oai_accounts := oai_accounts d; oai_account_cookies := oai_account_cookies d;
     account_proxy_bindings := account_proxy_bindings d;
     account_quota_snapshots := account_quota_snapshots d; proxies := proxies d;
     user_groups := user_groups d; models := models d; upstream_channels := upstream_channels d;
     channel_model_mappings := f (channel_model_mappings d); image_tasks := image_tasks d;
     usage_logs := usage_logs d |}.

Definition with_image_tasks (f : gmap N Task → gmap N Task) (d : database) : database :=
  {| users := users d; credit_transactions := credit_transactions d; redeem_codes := redeem_codes d;
     user_checkins := user_checkins d; recharge_packages := recharge_packages d;
     recharge_orders := recharge_orders d; api_keys := api_keys d; system_settings := system_settings d;
     oai_accounts := oai_accounts d; oai_account_cookies := oai_account_cookies d;
     account_proxy_bindings := account_proxy_bindings d;
     account_quota_snapshots := account_quota_snapshots d; proxies := proxies d;
     user_groups := user_groups d; models := models d; upstream_channels := upstream_channels d;
     channel_model_mappings := channel_model_mappings d; image_tasks := f (image_tasks d);
     usage_logs := usage_logs d |}.

Definition with_usage_logs (f : list Log → list Log) (d : database) : database :=
  {| users := users d; credit_transactions := credit_transactions d; redeem_codes := redeem_codes d;
     user_checkins := user_checkins d; recharge_packages := recharge_packages d;
     recharge_orders := recharge_orders d; api_keys := api_keys d; system_settings := system_settings d;
     oai_accounts := oai_accounts d; oai_account_cookies := oai_account_cookies d;
     account_proxy_bindings := account_proxy_bindings d;
     account_quota_snapshots := account_quota_snapshots d; proxies := proxies d;
     user_groups := user_groups d; models := models d; upstream_channels := upstream_channels d;
     channel_model_mappings := channel_model_mappings d; image_tasks := image_tasks d;
     usage_logs := f (usage_logs d) |}.

Definition empty_database : database :=
  {| users := ∅; credit_transactions := []; redeem_codes := ∅; user_checkins := ∅; recharge_packages := ∅;
     recharge_orders := ∅; api_keys := ∅; system_settings := ∅; oai_accounts := ∅; oai_account_cookies := ∅;
     account_proxy_bindings := ∅; account_quota_snapshots := ∅; proxies := ∅; user_groups := ∅; models := ∅;
     upstream_channels := ∅; channel_model_mappings := ∅; image_tasks := ∅; usage_logs := [] |}.

(** Appending to the journal. *)
Definition log_txs (js : list CreditTx) (d : database) : database :=
  with_credit_transactions (λ l, l ++ js) d.

Lemma log_txs_app js js' d : log_txs js' (log_txs js d) = log_txs (js ++ js') d.
Proof. unfold log_txs, with_credit_transactions; cbn. by rewrite app_assoc. Qed.
Lemma log_txs_nil d : log_txs [] d = d.
Proof. unfold log_txs, with_credit_transactions; cbn. rewrite app_nil_r. by destruct d. Qed.
#[export] Hint Rewrite log_txs_app log_txs_nil : go.

(** A document for a JSON column, which the server normalises or refuses. *)
Definition json_value (json_column : string → option string) (v : option string) : result (option string) :=
  match v with
  | None => Ok None
  | Some s => match json_column s with Some t => Ok (Some t) | None => Err (EMySQL 3140) end
  end.

(** ** Generic statements on one table

    A table is reached through its projection and its setter; [id_update] is
    [UPDATE t SET .. WHERE id = ? AND ..] with its number of affected rows,
    [auto_id] the key an AUTO_INCREMENT insert takes. *)

Section table.
Context {Row : Type} (get : database → gmap N Row)
        (set : (gmap N Row → gmap N Row) → database → database).

Definition id_update (id : N) (where_ : Row → result bool) (upd : Row → result Row)
    (d : database) : result (N * database) :=
  match get d !! id with
  | None => Ok (0%N, d)
  | Some r =>
      b <-? where_ r ;;
      if b then r' <-? upd r ;; Ok (1%N, set <[id := r']> d) else Ok (0%N, d)
  end.

(** [UPDATE t SET .. WHERE ..] over the whole table, for a [SET] that cannot
    err. *)
Definition all_update (where_ : Row → bool) (upd : Row → Row)
    (d : database) : result (N * database) :=
  Ok (N.of_nat (size (filter (λ p : N * Row, where_ p.2 = true) (get d))),
      set (fmap (λ r, if where_ r then upd r else r)) d).

(** The rows a [WHERE] selects, by increasing id. *)
Definition rows_where (where_ : N → Row → bool) (d : database) : list (N * Row) :=
  sort_by (λ p q : N * Row, (p.1 <=? q.1)%N)
    (filter (λ p : N * Row, where_ p.1 p.2 = true) (map_to_list (get d))).
End table.

Lemma elem_of_rows_where {Row} (get : database → gmap N Row) P d k r :
  (k, r) ∈ rows_where get P d ↔ get d !! k = Some r ∧ P k r = true.
Proof.
  unfold rows_where. rewrite elem_of_sort_by, list_elem_of_filter, elem_of_map_to_list.
  cbn. tauto.
Qed.

Lemma head_rows_where {Row} (get : database → gmap N Row) P d k r :
  head (rows_where get P d) = Some (k, r) → get d !! k = Some r ∧ P k r = true.
Proof.
  intros H. apply elem_of_rows_where. destruct (rows_where _ _ _) as [|p l]; [done|].
  cbn in H. simplify_eq. left.
Qed.

Lemma head_rows_where_None {Row} (get : database → gmap N Row) P d :
  head (rows_where get P d) = None ↔ ∀ k r, get d !! k = Some r → P k r = false.
Proof.
  split.
  - intros H k r Hk. destruct (P k r) eqn:HP; [|done].
    assert ((k, r) ∈ rows_where get P d) as Hin by (by apply elem_of_rows_where).
    destruct (rows_where _ _ _); [by apply not_elem_of_nil in Hin|done].
  - intros H. destruct (rows_where _ _ _) as [|[k r] l] eqn:E; [done|].
    assert ((k, r) ∈ rows_where get P d) as Hin by (rewrite E; left).
    apply elem_of_rows_where in Hin as [Hk HP]. by rewrite (H k r Hk) in HP.
Qed.

(** [ORDER BY id DESC LIMIT limit OFFSET offset] of selected rows. *)
Definition page {A} (offset limit : Z) (rows : list A) : list A :=
  take (Z.to_nat limit) (drop (Z.to_nat offset) rows).

Definition auto_id {Row} (t : gmap N Row) : N :=
  (1 + map_fold (λ (k : N) (_ : Row) (m : N), N.max k m) 0 t)%N.

Lemma auto_id_fresh {Row} (t : gmap N Row) : t !! auto_id t = None.
Proof.
  assert (∀ k, is_Some (t !! k) → (k ≤ map_fold (λ (k : N) (_ : Row) (m : N), N.max k m) 0%N t)%N) as H.
  { apply (map_fold_weak_ind (λ m t, ∀ k, is_Some (t !! k) → (k ≤ m)%N)).
    - intros k [x Hx]. by rewrite lookup_empty in Hx.
    - intros k x t' m Hk IH j. rewrite lookup_insert. case_decide; [intros; lia|].
      intros Hj. specialize (IH j Hj). lia. }
  destruct (t !! auto_id t) eqn:E; [|done].
  specialize (H (auto_id t) ltac:(by eexists)). unfold auto_id in H. lia.
Qed.
#[export] Hint Resolve auto_id_fresh : go.
