(* ===== verification/Ledger.v ===== *)
(** * The credit ledger: what the billing engine promises

    The abstract machine that the operations of internal/billing refine
    (Billing.v): a wallet per user and a journal, moved by entries, and the
    invariants of every sequence of entries. *)

From S2P Require Import Prelude Sql Schema.

(** Kinds of journal entries (internal/billing/engine.go) *)
Definition KindFreeze : string := "freeze".
Definition KindUnfreeze : string := "unfreeze".
Definition KindConsume : string := "consume".
Definition KindRefund : string := "refund".
Definition KindRecharge : string := "recharge".
Definition KindRedeem : string := "redeem".
Definition KindCheckin : string := "checkin".
Definition KindAdjust : string := "admin_adjust".

Definition live (u : User) : bool := bool_decide (UserDeletedAt u = None).

(** [SET credit_balance = b, credit_frozen = f, version = version + 1] *)
Definition set_wallet (b f : Z) (u : User) : User := {|
  Email := Email u; PasswordHash := PasswordHash u; Nickname := Nickname u;
  GroupID := GroupID u; Role := Role u; Status := Status u;
  CreditBalance := b; CreditFrozen := f; Version := Version u + 1;
  LastLoginAt := LastLoginAt u; LastLoginIP := LastLoginIP u;
  UserDeletedAt := UserDeletedAt u |}.

(** ** The ledger: what the engine promises

    An entry names the wallet it concerns, when it is refused, how far it
    moves the available and the frozen part, and what it appends to the
    journal (given the balance it reaches). *)

Record entry := {
  e_user : N;
  e_guard : User → result bool;
  e_refused : goerr;
  e_balance : Z;
  e_frozen : Z;
  e_journal : Z → list CreditTx
}.

Definition post_entry (e : entry) (b f : Z) (u : User) (d : database) : database :=
  log_txs (e_journal e b) (with_users <[e_user e := set_wallet b f u]> d).

Definition ledger_step (e : entry) (d : database) : result Z * database :=
  match users d !! e_user e with
  | None => (Err (e_refused e), d)
  | Some u =>
      match e_guard e u with
      | Err x => (Err x, d)
      | Ok c =>
          if c && live u then
            match (b <-? bigint (CreditBalance u + e_balance e) ;;
                   f <-? bigint (CreditFrozen u + e_frozen e) ;; Ok (b, f)) with
            | Ok (b, f) => (Ok b, post_entry e b f u d)
            | Err x => (Err x, d)
            end
          else (Err (e_refused e), d)
      end
  end.

(** Forgetting the result. *)
Definition unit_of {A} (p : result A * database) : result unit * database :=
  (match p.1 with Ok _ => Ok tt | Err e => Err e end, p.2).

(** Every stored column fits its type. *)
Definition in_range (d : database) : Prop :=
  map_Forall (λ _ u, in_i64 (CreditBalance u) ∧ in_i64 (CreditFrozen u)) (users d).

Lemma in_range_lookup d id u :
  in_range d → users d !! id = Some u → in_i64 (CreditBalance u) ∧ in_i64 (CreditFrozen u).
Proof. intros H Hu. by apply (H id u). Qed.


(** ** Reconciliation: wallets against the journal *)

(** What a journal line says about the available part of wallet [id] ... *)
Definition tx_balance (id : N) (t : CreditTx) : Z :=
  if bool_decide (TxUserID t = id) then TxAmount t else 0.

(** ... and about its frozen part. *)
Definition moves_frozen (kind : string) : bool :=
  bool_decide (kind = KindFreeze) || bool_decide (kind = KindUnfreeze)
  || bool_decide (kind = KindRefund).

#[global] Arguments moves_frozen : simpl never.

Lemma moves_frozen_kinds :
  moves_frozen KindFreeze = true ∧ moves_frozen KindUnfreeze = true ∧
  moves_frozen KindRefund = true ∧ moves_frozen KindConsume = false ∧
  moves_frozen KindRecharge = false ∧ moves_frozen KindRedeem = false ∧
  moves_frozen KindCheckin = false ∧ moves_frozen KindAdjust = false.
Proof. by vm_compute. Qed.

Definition tx_frozen (id : N) (t : CreditTx) : Z :=
  if bool_decide (TxUserID t = id) && moves_frozen (TxType t) then - TxAmount t else 0.

(** The wallets of live users are the opening wallets plus the journal. *)
Definition reconciled (opening : N → Z * Z) (d : database) : Prop :=
  map_Forall (λ id u, live u = true →
    CreditBalance u = (opening id).1 + sumZ (tx_balance id) (credit_transactions d) ∧
    CreditFrozen u = (opening id).2 + sumZ (tx_frozen id) (credit_transactions d))
  (users d).

(** No live user is in debt, and nothing is released that was not frozen. *)
Definition frozen_backed (d : database) : Prop :=
  map_Forall (λ _ u, live u = true → 0 ≤ CreditFrozen u) (users d).
Definition solvent (d : database) : Prop :=
  map_Forall (λ _ u, live u = true → 0 ≤ CreditBalance u) (users d).

(** An entry whose journal says what it does to the wallet. *)
Definition entry_faithful (e : entry) : Prop :=
  ∀ b id,
    sumZ (tx_balance id) (e_journal e b) = (if bool_decide (e_user e = id) then e_balance e else 0) ∧
    sumZ (tx_frozen id) (e_journal e b) = (if bool_decide (e_user e = id) then e_frozen e else 0).

Definition entry_frozen_safe (e : entry) : Prop :=
  ∀ u, e_guard e u = Ok true → 0 ≤ CreditFrozen u → 0 ≤ CreditFrozen u + e_frozen e.
Definition entry_solvent (e : entry) : Prop :=
  ∀ u, e_guard e u = Ok true → 0 ≤ CreditBalance u → 0 ≤ CreditBalance u + e_balance e.

Lemma live_set_wallet b f u : live (set_wallet b f u) = live u.
Proof. done. Qed.
#[export] Hint Rewrite live_set_wallet : go.

(** The only two outcomes of an entry. *)
Lemma ledger_step_inv e d r d' :
  ledger_step e d = (r, d') →
  (d' = d ∧ is_ok r = false) ∨
  ∃ u, users d !! e_user e = Some u ∧ e_guard e u = Ok true ∧ live u = true ∧
    in_i64 (CreditBalance u + e_balance e) ∧ in_i64 (CreditFrozen u + e_frozen e) ∧
    r = Ok (CreditBalance u + e_balance e) ∧
    d' = post_entry e (CreditBalance u + e_balance e) (CreditFrozen u + e_frozen e) u d.
Proof.
  unfold ledger_step. intros H.
  destruct (users d !! e_user e) as [u|]; [|left; by simplify_eq].
  destruct (e_guard e u) as [[]|] eqn:Hg; cbn in H; [|left; by simplify_eq..].
  destruct (live u) eqn:Hl; [|left; by simplify_eq].
  destruct (bigint (CreditBalance u + _)) as [b|] eqn:Hb; cbn in H; [|left; by simplify_eq].
  destruct (bigint (CreditFrozen u + _)) as [f|] eqn:Hf; cbn in H; [|left; by simplify_eq].
  apply bigint_ok in Hb as [-> Hb], Hf as [-> Hf]. simplify_eq.
  right. eauto 10.
Qed.

Lemma ledger_step_ok e d u :
  users d !! e_user e = Some u → e_guard e u = Ok true → live u = true →
  in_i64 (CreditBalance u + e_balance e) → in_i64 (CreditFrozen u + e_frozen e) →
  ledger_step e d =
  (Ok (CreditBalance u + e_balance e),
   post_entry e (CreditBalance u + e_balance e) (CreditFrozen u + e_frozen e) u d).
Proof.
  intros Hu Hg Hl Hb Hf. unfold ledger_step. rewrite Hu, Hg, Hl; cbn.
  by rewrite (bigint_in _ Hb), (bigint_in _ Hf).
Qed.

(** A predicate on wallets that the entry re-establishes for its own user,
    and that the other users keep, holds after the step. *)
Lemma ledger_step_Forall (P : list CreditTx → N → User → Prop) e d r d' :
  ledger_step e d = (r, d') →
  (∀ id u js, id ≠ e_user e → P (credit_transactions d) id u →
     js = e_journal e (match r with Ok b => b | _ => 0 end) →
     P (credit_transactions d ++ js) id u) →
  (∀ u, e_guard e u = Ok true → live u = true →
     in_i64 (CreditBalance u + e_balance e) → in_i64 (CreditFrozen u + e_frozen e) →
     P (credit_transactions d) (e_user e) u →
     P (credit_transactions d ++ e_journal e (CreditBalance u + e_balance e)) (e_user e)
       (set_wallet (CreditBalance u + e_balance e) (CreditFrozen u + e_frozen e) u)) →
  map_Forall (P (credit_transactions d)) (users d) →
  map_Forall (P (credit_transactions d')) (users d').
Proof.
  intros Hs Hother Hown HP.
  destruct (ledger_step_inv _ _ _ _ Hs) as [[-> _]|(u & Hu & Hg & Hl & Hb & Hf & -> & ->)]; [done|].
  intros id v. cbn. rewrite lookup_insert_Some. intros [[<- <-]|[Hne Hv]].
  - apply Hown; auto.
  - apply Hother; auto.
Qed.

Section invariants.
Variables (e : entry) (d : database).

Lemma ledger_step_in_range : in_range d → in_range (ledger_step e d).2.
Proof.
  destruct (ledger_step e d) as [r d'] eqn:Hs. unfold in_range. cbn.
  apply (ledger_step_Forall (λ _ _ u, in_i64 (CreditBalance u) ∧ in_i64 (CreditFrozen u))
           _ _ _ _ Hs); [done|]. cbn. by intros.
Qed.

Lemma ledger_step_frozen_backed :
  entry_frozen_safe e → frozen_backed d → frozen_backed (ledger_step e d).2.
Proof.
  intros He. destruct (ledger_step e d) as [r d'] eqn:Hs. unfold frozen_backed. cbn.
  apply (ledger_step_Forall (λ _ _ u, live u = true → 0 ≤ CreditFrozen u) _ _ _ _ Hs); [done|].
  cbn. auto.
Qed.

Lemma ledger_step_solvent : entry_solvent e → solvent d → solvent (ledger_step e d).2.
Proof.
  intros He. destruct (ledger_step e d) as [r d'] eqn:Hs. unfold solvent. cbn.
  apply (ledger_step_Forall (λ _ _ u, live u = true → 0 ≤ CreditBalance u) _ _ _ _ Hs); [done|].
  cbn. auto.
Qed.

Lemma ledger_step_reconciled opening :
  entry_faithful e → reconciled opening d → reconciled opening (ledger_step e d).2.
Proof.
  intros He. destruct (ledger_step e d) as [r d'] eqn:Hs. unfold reconciled. cbn.
  apply (ledger_step_Forall (λ js id u, live u = true →
    CreditBalance u = (opening id).1 + sumZ (tx_balance id) js ∧
    CreditFrozen u = (opening id).2 + sumZ (tx_frozen id) js) _ _ _ _ Hs).
  - intros id u js Hne HP -> Hl. specialize (HP Hl). rewrite !sumZ_app.
    match goal with |- context [e_journal e ?b] => destruct (He b id) as [-> ->] end.
    rewrite bool_decide_eq_false_2 by done. lia.
  - cbn. intros u _ _ _ _ HP Hl. specialize (HP Hl). rewrite !sumZ_app.
    destruct (He (CreditBalance u + e_balance e) (e_user e)) as [-> ->].
    rewrite bool_decide_eq_true_2 by done. lia.
Qed.
End invariants.

(** Statements on other tables leave wallets and journal as they are. *)
Definition same_books (d d' : database) : Prop :=
  users d' = users d ∧ credit_transactions d' = credit_transactions d.

#[export] Instance same_books_preorder : PreOrder same_books.
Proof. split; [by intros d|]. intros d1 d2 d3 [H1 H2] [H3 H4]. split; congruence. Qed.

Lemma update_books {Row} (get : database → gmap N Row) (set : (gmap N Row → gmap N Row) → database → database)
    id where_ upd :
  (∀ f d, same_books d (set f d)) → Keeps same_books (exec (id_update get set id where_ upd)).
Proof.
  intros Hset. apply exec_keeps; [apply _|]. intros d a d'. unfold id_update.
  destruct (get d !! id) as [r|]; [|by intros [= <- <-]].
  destruct (where_ r) as [[]|]; cbn; [|by intros [= <- <-]|done].
  destruct (upd r); cbn; [|done]. intros [= <- <-]. apply Hset.
Qed.

(** ** The interface to the components that credit inside their own
    transaction

    The [billingWriter] interfaces of internal/redeem/dao.go and
    internal/checkin/dao.go: what [RedeemTx] and [AwardCheckinTx] promise. *)
Class TxCreditor (kind : string) (credit : N → Z → string → string → DBM Z) := {
  credit_transparent u a r m : Transparent (credit u a r m);
  credit_ok u a r m d bal d' :
    run (credit u a r m) d = (Ok bal, d') →
    0 < a ∧ ∃ w, users d !! u = Some w ∧ live w = true ∧ bal = CreditBalance w + a ∧
      in_i64 bal ∧
      d' = log_txs [Build_CreditTx u 0 kind a bal r m]
             (with_users <[u := set_wallet bal (CreditFrozen w) w]> d);
  credit_complete u a r m d w :
    0 < a → users d !! u = Some w → live w = true → in_i64 (CreditBalance w + a) →
    is_ok (run (credit u a r m) d).1 = true
}.
#[export] Existing Instance credit_transparent.

(** What internal/recharge needs of [Engine.Recharge]: it credits in a
    transaction of its own. *)
Class Recharger (recharge : N → Z → string → string → DBM unit) := {
  recharge_transparent u a r m : Transparent (recharge u a r m);
  recharge_atomic u a r m : Atomic (recharge u a r m);
  recharge_ok u a r m d d' :
    run (recharge u a r m) d = (Ok tt, d') →
    0 < a ∧ ∃ bal us,
      d' = log_txs [Build_CreditTx u 0 KindRecharge a bal r m] (with_users (λ _, us) d);
  recharge_live u a r m d w :
    0 < a → users d !! u = Some w → live w = true → in_i64 (CreditBalance w + a) →
    run (recharge u a r m) d =
    (Ok tt, log_txs [Build_CreditTx u 0 KindRecharge a (CreditBalance w + a) r m]
              (with_users <[u := set_wallet (CreditBalance w + a) (CreditFrozen w) w]> d))
}.
#[export] Existing Instance recharge_transparent.
#[export] Existing Instance recharge_atomic.
