(* ===== verification/Billing.v ===== *)
(** * The billing engine (internal/billing/engine.go, admin.go)

    The wallet of a user is the pair ([credit_balance], [credit_frozen]) of
    the users table; every operation changes it and appends to the journal
    credit_transactions in one transaction. *)

From S2P Require Import Prelude Sql Schema Ledger.

Definition ErrInsufficient : goerr := Sentinel "billing: insufficient balance".
Definition ErrConflict : goerr := Sentinel "billing: concurrent update".

(** ** The statements *)

(** [UPDATE users SET .. WHERE id = ? AND where_ AND deleted_at IS NULL] *)
Definition update_user (id : N) (where_ : User → result bool) (set_ : User → result User) :
    DBM N :=
  exec (id_update users with_users id
    (λ u, c <-? where_ u ;; Ok (c && live u)) set_).

(** [credit_balance = credit_balance + db, credit_frozen = credit_frozen +
    df]: BIGINT sums. *)
Definition move_wallet (db df : Z) (u : User) : result User :=
  b <-? bigint (CreditBalance u + db) ;;
  f <-? bigint (CreditFrozen u + df) ;;
  Ok (set_wallet b f u).

(** [credit_balance = credit_balance + db] *)
Definition add_balance (db : Z) (u : User) : result User :=
  b <-? bigint (CreditBalance u + db) ;;
  Ok (set_wallet b (CreditFrozen u) u).

(** [SELECT credit_balance FROM users WHERE id = ?] *)
Definition select_balance (id : N) : DBM Z :=
  query (λ d, match users d !! id with
              | Some u => Ok (CreditBalance u)
              | None => Err ErrNoRows
              end).

(** [INSERT INTO credit_transactions ...] *)
Definition insert_tx (t : CreditTx) : DBM unit :=
  exec (λ d, Ok (tt, log_txs [t] d)).

Definition user_not_found (id : N) : goerr :=
  EMsg ("user " +:+ pretty id +:+ " not found").

(** ** The operations *)

Definition Balance (userID : N) : DBM (Z * Z) :=
  query (λ d, match users d !! userID with
              | Some u => if live u then Ok (CreditBalance u, CreditFrozen u)
                          else Err (user_not_found userID)
              | None => Err (user_not_found userID)
              end).

Definition PreDeduct (userID keyID : N) (amount : Z) (refID remark : string) : DBM unit :=
  if amount <=? 0 then ret tt
  else runTx (
    n <- update_user userID (λ u, Ok (amount <=? CreditBalance u)) (move_wallet (- amount) amount) ;;
    if (n =? 0)%N then throw ErrInsufficient else
    balanceAfter <- select_balance userID ;;
    insert_tx (Build_CreditTx userID keyID KindFreeze (- amount) balanceAfter refID remark)).

Definition Settle (userID keyID : N) (expected actual : Z) (refID remark : string) : DBM unit :=
  if (expected <=? 0) && (actual <=? 0) then ret tt
  else
    let actual := if actual <? 0 then 0 else actual in
    runTx (
      let refund := wrap64 (expected - actual) in
      let frozenDelta := wrap64 (- expected) in
      let balanceDelta := refund in
      n <- update_user userID
             (λ u, f <-? bigint (CreditFrozen u + frozenDelta) ;; Ok (0 <=? f))
             (move_wallet balanceDelta frozenDelta) ;;
      if (n =? 0)%N then throw ErrConflict else
      balanceAfter <- select_balance userID ;;
      (if 0 <? expected
       then insert_tx (Build_CreditTx userID keyID KindUnfreeze expected balanceAfter refID remark)
       else ret tt) ;;
      (if 0 <? actual
       then insert_tx (Build_CreditTx userID keyID KindConsume (- actual) balanceAfter refID remark)
       else ret tt)).

Definition Refund (userID keyID : N) (expected : Z) (refID remark : string) : DBM unit :=
  if expected <=? 0 then ret tt
  else runTx (
    n <- update_user userID (λ u, Ok (expected <=? CreditFrozen u)) (move_wallet expected (- expected)) ;;
    if (n =? 0)%N then throw ErrConflict else
    balanceAfter <- select_balance userID ;;
    insert_tx (Build_CreditTx userID keyID KindRefund expected balanceAfter refID remark)).

(** The affected rows of the UPDATE are not looked at. *)
Definition EngineRecharge (userID : N) (amount : Z) (refID remark : string) : DBM unit :=
  if amount <=? 0 then throw (EMsg "amount must be positive")
  else runTx (
    update_user userID (λ _, Ok true) (add_balance amount) ;;
    balanceAfter <- select_balance userID ;;
    insert_tx (Build_CreditTx userID 0 KindRecharge amount balanceAfter refID remark)).

Definition creditTx (userID : N) (amount : Z) (kind refID remark : string) : DBM Z :=
  if amount <=? 0 then throw (EMsg "amount must be positive")
  else
    n <- update_user userID (λ _, Ok true) (add_balance amount) ;;
    if (n =? 0)%N then throw (user_not_found userID) else
    balanceAfter <- select_balance userID ;;
    insert_tx (Build_CreditTx userID 0 kind amount balanceAfter refID remark) ;;
    ret balanceAfter.

Definition AwardCheckinTx (userID : N) (amount : Z) (refID remark : string) : DBM Z :=
  creditTx userID amount KindCheckin refID remark.

Definition RedeemTx (userID : N) (amount : Z) (refID remark : string) : DBM Z :=
  creditTx userID amount KindRedeem refID remark.

(** internal/billing/admin.go.  [-delta] is Go's, so it wraps. *)
Definition AdminAdjust (targetUserID actorID : N) (delta : Z) (refID remark : string) : DBM Z :=
  if delta =? 0 then throw (EMsg "delta must not be zero")
  else runTx (
    n <- (if 0 <? delta
          then update_user targetUserID (λ _, Ok true) (add_balance delta)
          else let neg := wrap64 (- delta) in
               update_user targetUserID (λ u, Ok (neg <=? CreditBalance u)) (add_balance (- neg))) ;;
    if (n =? 0)%N
    then throw (if delta <? 0 then ErrInsufficient else user_not_found targetUserID) else
    balanceAfter <- select_balance targetUserID ;;
    let fullRemark := if (0 <? actorID)%N
                      then "[by admin=" +:+ pretty actorID +:+ "] " +:+ remark else remark in
    insert_tx (Build_CreditTx targetUserID 0 KindAdjust delta balanceAfter refID fullRemark) ;;
    ret balanceAfter).

(** ** Evaluation of the statements and operations *)

Lemma run_update_user id W S d :
  run (update_user id W S) d =
  match users d !! id with
  | None => (Ok 0%N, d)
  | Some u =>
      match W u with
      | Err e => (Err e, d)
      | Ok c => if c && live u
                then match S u with
                     | Ok u' => (Ok 1%N, with_users <[id := u']> d)
                     | Err e => (Err e, d)
                     end
                else (Ok 0%N, d)
      end
  end.
Proof.
  unfold update_user. rewrite run_exec. unfold id_update.
  destruct (users d !! id) as [u|]; [|done].
  destruct (W u) as [c|e]; cbn; [|done].
  destruct (c && live u); [|done]. by destruct (S u).
Qed.

Lemma run_select_balance id d :
  run (select_balance id) d =
  (match users d !! id with Some u => Ok (CreditBalance u) | None => Err ErrNoRows end, d).
Proof. unfold select_balance. by rewrite run_query. Qed.

Lemma run_insert_tx t d :
  run (insert_tx t) d = (Ok tt, log_txs [t] d).
Proof. unfold insert_tx. by rewrite run_exec. Qed.

#[export] Hint Rewrite run_update_user run_select_balance run_insert_tx : db.

#[export] Instance update_user_transparent id W S : Transparent (update_user id W S).
Proof. apply _. Qed.
#[export] Instance select_balance_transparent id : Transparent (select_balance id).
Proof. apply _. Qed.
#[export] Instance insert_tx_transparent t : Transparent (insert_tx t).
Proof. apply _. Qed.
#[export] Instance PreDeduct_transparent u k a r m : Transparent (PreDeduct u k a r m).
Proof. unfold PreDeduct. db_transparent. Qed.
#[export] Instance Settle_transparent u k e a r m : Transparent (Settle u k e a r m).
Proof. unfold Settle. db_transparent. Qed.
#[export] Instance Refund_transparent u k e r m : Transparent (Refund u k e r m).
Proof. unfold Refund. db_transparent. Qed.
#[export] Instance EngineRecharge_transparent u a r m : Transparent (EngineRecharge u a r m).
Proof. unfold EngineRecharge. db_transparent. Qed.
#[export] Instance creditTx_transparent u a k r m : Transparent (creditTx u a k r m).
Proof. unfold creditTx. db_transparent. Qed.
#[export] Instance AwardCheckinTx_transparent u a r m : Transparent (AwardCheckinTx u a r m).
Proof. unfold AwardCheckinTx. apply _. Qed.
#[export] Instance RedeemTx_transparent u a r m : Transparent (RedeemTx u a r m).
Proof. unfold RedeemTx. apply _. Qed.
#[export] Instance AdminAdjust_transparent u a x r m : Transparent (AdminAdjust u a x r m).
Proof. unfold AdminAdjust. db_transparent. Qed.

Definition freeze_entry (u k : N) (a : Z) (r m : string) : entry := {|
  e_user := u; e_guard w := Ok (a <=? CreditBalance w); e_refused := ErrInsufficient;
  e_balance := - a; e_frozen := a;
  e_journal b := [Build_CreditTx u k KindFreeze (- a) b r m] |}.

Definition settle_entry (u k : N) (e a : Z) (r m : string) : entry := {|
  e_user := u;
  e_guard w := f <-? bigint (CreditFrozen w + - e) ;; Ok (0 <=? f);
  e_refused := ErrConflict;
  e_balance := e - a; e_frozen := - e;
  e_journal b :=
    (if 0 <? e then [Build_CreditTx u k KindUnfreeze e b r m] else []) ++
    (if 0 <? a then [Build_CreditTx u k KindConsume (- a) b r m] else []) |}.

Definition refund_entry (u k : N) (e : Z) (r m : string) : entry := {|
  e_user := u; e_guard w := Ok (e <=? CreditFrozen w); e_refused := ErrConflict;
  e_balance := e; e_frozen := - e;
  e_journal b := [Build_CreditTx u k KindRefund e b r m] |}.

Definition credit_entry (u : N) (a : Z) (kind r m : string) : entry := {|
  e_user := u; e_guard _ := Ok true; e_refused := user_not_found u;
  e_balance := a; e_frozen := 0;
  e_journal b := [Build_CreditTx u 0 kind a b r m] |}.

Definition adjust_entry (u x : N) (a : Z) (r m : string) : entry := {|
  e_user := u;
  e_guard w := Ok ((0 <? a) || (- a <=? CreditBalance w));
  e_refused := if a <? 0 then ErrInsufficient else user_not_found u;
  e_balance := a; e_frozen := 0;
  e_journal b := [Build_CreditTx u 0 KindAdjust a b r
    (if (0 <? x)%N then "[by admin=" +:+ pretty x +:+ "] " +:+ m else m)] |}.

(** [ledger_cases]: look the user up and follow the guards of both sides. *)
Ltac ledger_cases :=
  repeat first
    [ done | congruence
    | match goal with |- context [users ?d !! ?id] => destruct (users d !! id) eqn:? end
    | match goal with |- context [bigint ?z] =>
        let H := fresh "Hz" in destruct (bigint z) eqn:H; [apply bigint_ok in H as [-> H]|] end
    | match goal with |- context [if ?b then _ else _] => destruct b eqn:? end
    | progress db_eval
    | progress autorewrite with go
    | progress cbn in *
    | progress simplify_map_eq ].

Ltac ledger_unfold := unfold ledger_step, unit_of, move_wallet, add_balance, post_entry; cbn.

(** A wallet whose frozen part does not move. *)
Ltac ledger_frozen Hd :=
  match goal with |- context [users ?d !! ?id] =>
    let w := fresh "w" in let Hw := fresh "Hw" in
    destruct (users d !! id) as [w|] eqn:Hw;
    [ rewrite (Z.add_0_r (CreditFrozen w)),
        (bigint_in _ (proj2 (in_range_lookup d id w Hd Hw)))
    | ]
  end.

Section refines.
Variables (u k x : N) (r m : string) (d : database).

Lemma PreDeduct_refines a :
  0 < a →
  run (PreDeduct u k a r m) d = unit_of (ledger_step (freeze_entry u k a r m) d).
Proof.
  intros Ha. unfold PreDeduct. rewrite (proj2 (Z.leb_gt _ _)); [|lia].
  db_eval. ledger_unfold. ledger_cases.
Qed.

Lemma Settle_refines e a :
  0 ≤ e → 0 < e ∨ 0 < a → in_i64 e → in_i64 a →
  run (Settle u k e a r m) d = unit_of (ledger_step (settle_entry u k e (Z.max 0 a) r m) d).
Proof.
  intros He Hea Hie Hia. unfold Settle.
  replace ((e <=? 0) && (a <=? 0)) with false
    by (symmetry; apply andb_false_iff; rewrite !Z.leb_gt; lia).
  replace (if a <? 0 then 0 else a) with (Z.max 0 a) by (destruct (Z.ltb_spec a 0); lia).
  rewrite !wrap64_id by i64_lia.
  db_eval. ledger_unfold. ledger_cases.
Qed.

Lemma Refund_refines e :
  0 < e →
  run (Refund u k e r m) d = unit_of (ledger_step (refund_entry u k e r m) d).
Proof.
  intros He. unfold Refund. rewrite (proj2 (Z.leb_gt _ _)); [|lia].
  db_eval. ledger_unfold. ledger_cases.
Qed.

Lemma creditTx_refines a kind :
  0 < a → in_range d →
  run (runTx (creditTx u a kind r m)) d = ledger_step (credit_entry u a kind r m) d.
Proof.
  intros Ha Hd. unfold creditTx. rewrite (proj2 (Z.leb_gt _ _)); [|lia].
  db_eval. ledger_unfold. ledger_frozen Hd. all: ledger_cases.
Qed.

Lemma AdminAdjust_refines a :
  i64_min < a → a ≠ 0 → in_i64 a → in_range d →
  run (AdminAdjust u x a r m) d = ledger_step (adjust_entry u x a r m) d.
Proof.
  intros Hm Ha0 Ha Hd. unfold AdminAdjust. rewrite (proj2 (Z.eqb_neq _ _)); [|done].
  unfold i64_min in Hm. rewrite wrap64_id by i64_lia.
  rewrite Z.opp_involutive.
  destruct (0 <? a) eqn:Hp, (a <? 0) eqn:Hn; try lia.
  all: db_eval; ledger_unfold; rewrite ?Hp, ?Hn; ledger_frozen Hd; ledger_cases.
Qed.
End refines.

(** The engine implements the interface its clients are verified against. *)
#[export] Instance creditTx_creditor kind :
  TxCreditor kind (λ u a r m, creditTx u a kind r m).
Proof.
  split.
  - intros. apply _.
  - intros u a r m d bal d'. unfold creditTx. destruct (Z.leb_spec a 0); [done|].
    db_eval. unfold add_balance.
    destruct (users d !! u) as [w|] eqn:Hu; cbn; [|done].
    destruct (live w) eqn:Hl; cbn; [|done].
    destruct (bigint _) as [b|] eqn:Hb; cbn; [|done].
    apply bigint_ok in Hb as [-> Hb].
    db_eval. rewrite lookup_insert_eq. cbn. intros [= <- <-]. eauto 10.
  - intros u a r m d w Ha Hu Hl Hb. unfold creditTx. destruct (Z.leb_spec a 0); [lia|].
    db_eval. unfold add_balance. rewrite Hu, Hl. cbn. rewrite (bigint_in _ Hb). cbn.
    db_eval. by rewrite lookup_insert_eq.
Qed.
#[export] Instance RedeemTx_creditor : TxCreditor KindRedeem RedeemTx := creditTx_creditor KindRedeem.
#[export] Instance AwardCheckinTx_creditor : TxCreditor KindCheckin AwardCheckinTx :=
  creditTx_creditor KindCheckin.

#[export] Instance EngineRecharge_recharger : Recharger EngineRecharge.
Proof.
  split.
  - apply _.
  - intros u a r m. unfold EngineRecharge. destruct (a <=? 0); apply _.
  - intros u a r m d d'. unfold EngineRecharge. destruct (Z.leb_spec a 0); [done|].
    db_eval. unfold add_balance. split; [done|]. revert H0.
    destruct (users d !! u) as [w|] eqn:Hu; cbn.
    2: { db_eval. by rewrite Hu. }
    destruct (live w) eqn:Hl; cbn.
    + destruct (bigint _) as [b|] eqn:Hb; cbn; [|done]. apply bigint_ok in Hb as [-> Hb].
      db_eval. rewrite lookup_insert_eq. cbn. intros [= <-]. by eexists _, _.
    + db_eval. rewrite Hu. cbn. intros [= <-]. exists (CreditBalance w), (users d). by destruct d.
  - intros u a r m d w Ha Hu Hl Hb. unfold EngineRecharge. destruct (Z.leb_spec a 0); [lia|].
    db_eval. unfold add_balance. rewrite Hu, Hl. cbn. rewrite (bigint_in _ Hb). cbn.
    db_eval. by rewrite lookup_insert_eq.
Qed.

(** EngineRecharge on a live wallet, on a soft-deleted one, on none. *)
Lemma run_EngineRecharge u a r m d :
  0 < a → in_range d →
  run (EngineRecharge u a r m) d =
  match users d !! u with
  | None => (Err ErrNoRows, d)
  | Some w => if live w then unit_of (ledger_step (credit_entry u a KindRecharge r m) d)
              else (Ok tt, log_txs [Build_CreditTx u 0 KindRecharge a (CreditBalance w) r m] d)
  end.
Proof.
  intros Ha Hd. unfold EngineRecharge. rewrite (proj2 (Z.leb_gt _ _)); [|lia].
  db_eval. ledger_unfold. ledger_frozen Hd; ledger_cases.
Qed.

(** ** Sequences of operations *)

Inductive billing_op :=
  | OpPreDeduct (u k : N) (a : Z) (r m : string)
  | OpSettle (u k : N) (e a : Z) (r m : string)
  | OpRefund (u k : N) (e : Z) (r m : string)
  | OpRecharge (u : N) (a : Z) (r m : string)
  | OpCheckin (u : N) (a : Z) (r m : string)
  | OpRedeem (u : N) (a : Z) (r m : string)
  | OpAdjust (u x : N) (a : Z) (r m : string).

Definition exec_op (o : billing_op) : DBM unit :=
  match o with
  | OpPreDeduct u k a r m => PreDeduct u k a r m
  | OpSettle u k e a r m => Settle u k e a r m
  | OpRefund u k e r m => Refund u k e r m
  | OpRecharge u a r m => EngineRecharge u a r m
  | OpCheckin u a r m => void (runTx (AwardCheckinTx u a r m))
  | OpRedeem u a r m => void (runTx (RedeemTx u a r m))
  | OpAdjust u x a r m => void (AdminAdjust u x a r m)
  end.

(** The arguments the Go types and the callers allow: [int64] amounts, no
    negative hold, and an adjustment whose negation does not overflow. *)
Definition op_ok (o : billing_op) : Prop :=
  match o with
  | OpSettle _ _ e a _ _ => 0 ≤ e ∧ in_i64 e ∧ in_i64 a
  | OpAdjust _ _ a _ _ => i64_min < a ∧ in_i64 a
  | _ => True
  end.

(** A settlement within the hold. *)
Definition op_within_hold (o : billing_op) : Prop :=
  match o with OpSettle _ _ e a _ _ => a ≤ e | _ => True end.

#[export] Instance exec_op_transparent o : Transparent (exec_op o).
Proof. destruct o; cbn; unfold void, AwardCheckinTx, RedeemTx; db_transparent. Qed.

#[export] Instance exec_op_atomic o : Atomic (exec_op o).
Proof.
  destruct o; cbn; unfold PreDeduct, Settle, Refund, EngineRecharge, AdminAdjust; apply _.
Qed.

Definition exec_ops (ops : list billing_op) (w : world database) : world database :=
  foldl (λ w o, (exec_op o w).2) w ops.

(** ** The engine refines the ledger *)

(** What each operation promises, in terms of the abstract ledger. *)
Definition abstract_step (o : billing_op) (d : database) : result unit * database :=
  match o with
  | OpPreDeduct u k a r m =>
      if a <=? 0 then (Ok tt, d) else unit_of (ledger_step (freeze_entry u k a r m) d)
  | OpSettle u k e a r m =>
      if (e <=? 0) && (a <=? 0) then (Ok tt, d)
      else unit_of (ledger_step (settle_entry u k e (Z.max 0 a) r m) d)
  | OpRefund u k e r m => if e <=? 0 then (Ok tt, d) else unit_of (ledger_step (refund_entry u k e r m) d)
  | OpRecharge u a r m =>
      if a <=? 0 then (Err (EMsg "amount must be positive"), d) else
      match users d !! u with
      | None => (Err ErrNoRows, d)
      | Some w => if live w then unit_of (ledger_step (credit_entry u a KindRecharge r m) d)
                  else (Ok tt, log_txs [Build_CreditTx u 0 KindRecharge a (CreditBalance w) r m] d)
      end
  | OpCheckin u a r m =>
      if a <=? 0 then (Err (EMsg "amount must be positive"), d)
      else unit_of (ledger_step (credit_entry u a KindCheckin r m) d)
  | OpRedeem u a r m =>
      if a <=? 0 then (Err (EMsg "amount must be positive"), d)
      else unit_of (ledger_step (credit_entry u a KindRedeem r m) d)
  | OpAdjust u x a r m =>
      if a =? 0 then (Err (EMsg "delta must not be zero"), d)
      else unit_of (ledger_step (adjust_entry u x a r m) d)
  end.

Lemma void_unit {A} (m : DBM A) `{!Transparent m} d : run (void m) d = unit_of (run m d).
Proof. unfold void. rewrite (run_bind m _). by destruct (run m d) as [[]]. Qed.

Lemma run_credit u a kind r m d :
  in_range d →
  run (runTx (creditTx u a kind r m)) d =
  if a <=? 0 then (Err (EMsg "amount must be positive"), d) else ledger_step (credit_entry u a kind r m) d.
Proof.
  intros Hd. destruct (Z.leb_spec a 0) as [Ha|Ha]; [|by apply creditTx_refines].
  rewrite (run_runTx (creditTx u a kind r m) d). unfold creditTx. by replace (a <=? 0) with true by lia.
Qed.

Lemma run_exec_op o d : op_ok o → in_range d → run (exec_op o) d = abstract_step o d.
Proof.
  intros Ho Hd. destruct o as [u k a r m|u k e a r m|u k e r m|u a r m|u a r m|u a r m|u x a r m]; cbn [exec_op abstract_step].
  - destruct (Z.leb_spec a 0); [|by apply PreDeduct_refines]. unfold PreDeduct. by replace (a <=? 0) with true by lia.
  - destruct Ho as (He & Hie & Hia). destruct ((e <=? 0) && (a <=? 0)) eqn:E.
    + unfold Settle. by rewrite E.
    + apply andb_false_iff in E. rewrite !Z.leb_gt in E. by apply Settle_refines.
  - destruct (Z.leb_spec e 0); [|by apply Refund_refines]. unfold Refund. by replace (e <=? 0) with true by lia.
  - destruct (Z.leb_spec a 0); [|by apply run_EngineRecharge]. unfold EngineRecharge. by replace (a <=? 0) with true by lia.
  - rewrite (void_unit (runTx (AwardCheckinTx u a r m))). unfold AwardCheckinTx. rewrite run_credit by done. by destruct (a <=? 0).
  - rewrite (void_unit (runTx (RedeemTx u a r m))). unfold RedeemTx. rewrite run_credit by done. by destruct (a <=? 0).
  - destruct Ho as [Hm Hia]. rewrite (void_unit (AdminAdjust u x a r m)). destruct (Z.eqb_spec a 0) as [->|Ha]; [done|].
    by rewrite AdminAdjust_refines.
Qed.

(** C14: the engine implements the ledger.  Every operation, on any state and
    with any arguments its callers can pass, does what the abstract ledger
    does with the corresponding entry (the same answer, the same wallets, the
    same journal), or the connection failed and nothing happened. *)
Theorem engine_refines_ledger o w :
  op_ok o → in_range (w_db w) →
  ((exec_op o w).1 = Err EDriver ∧ w_db (exec_op o w).2 = w_db w) ∨
  abstract_step o (w_db w) = ((exec_op o w).1, w_db (exec_op o w).2).
Proof. intros Ho Hd. rewrite <- run_exec_op by done. apply (atomic_or_run (exec_op o) w). Qed.

(** What an operation may do to the database. *)
Inductive op_effect (o : billing_op) (d : database) : database → Prop :=
  | effect_none : op_effect o d d
  | effect_entry e :
      entry_faithful e → entry_frozen_safe e →
      (op_within_hold o → entry_solvent e) →
      op_effect o d (ledger_step e d).2
  | effect_dead t u :
      users d !! TxUserID t = Some u → live u = false →
      op_effect o d (log_txs [t] d).

(** [tx_arith]: the contribution of explicit journal lines. *)
Ltac tx_arith :=
  unfold tx_balance, tx_frozen; cbn;
  destruct moves_frozen_kinds as (Hk1 & Hk2 & Hk3 & Hk4 & Hk5 & Hk6 & Hk7 & Hk8);
  rewrite ?Hk1, ?Hk2, ?Hk3, ?Hk4, ?Hk8; case_bool_decide; cbn; lia.

Lemma freeze_entry_ok u k a r m :
  0 < a → entry_faithful (freeze_entry u k a r m) ∧ entry_frozen_safe (freeze_entry u k a r m) ∧
          entry_solvent (freeze_entry u k a r m).
Proof.
  intros Ha. split_and!.
  - intros b id. tx_arith.
  - intros w _. cbn. lia.
  - intros w. cbn. intros [= ?%Z.leb_le]. lia.
Qed.

Lemma settle_entry_ok u k e a r m :
  0 ≤ e → 0 ≤ a →
  entry_faithful (settle_entry u k e a r m) ∧ entry_frozen_safe (settle_entry u k e a r m) ∧
  (a ≤ e → entry_solvent (settle_entry u k e a r m)).
Proof.
  intros He Ha. split_and!.
  - intros b id. cbn. destruct (Z.ltb_spec 0 e), (Z.ltb_spec 0 a); tx_arith.
  - intros w. cbn. destruct (bigint _) as [f|] eqn:Hf; cbn; [|done].
    apply bigint_ok in Hf as [-> _]. intros [= ?%Z.leb_le]. lia.
  - intros Hae w _. cbn. lia.
Qed.

Lemma refund_entry_ok u k e r m :
  0 < e → entry_faithful (refund_entry u k e r m) ∧ entry_frozen_safe (refund_entry u k e r m) ∧
          entry_solvent (refund_entry u k e r m).
Proof.
  intros He. split_and!.
  - intros b id. tx_arith.
  - intros w. cbn. intros [= ?%Z.leb_le]. lia.
  - intros w _. cbn. lia.
Qed.

Lemma credit_entry_ok u a kind r m :
  0 < a → moves_frozen kind = false →
  entry_faithful (credit_entry u a kind r m) ∧ entry_frozen_safe (credit_entry u a kind r m) ∧
  entry_solvent (credit_entry u a kind r m).
Proof.
  intros Ha Hk. split_and!.
  - intros b id. cbn. unfold tx_balance, tx_frozen; cbn. rewrite Hk, andb_false_r.
    case_bool_decide; cbn; lia.
  - intros w _. cbn. lia.
  - intros w _. cbn. lia.
Qed.

Lemma adjust_entry_ok u x a r m :
  entry_faithful (adjust_entry u x a r m) ∧ entry_frozen_safe (adjust_entry u x a r m) ∧
  entry_solvent (adjust_entry u x a r m).
Proof.
  split_and!.
  - intros b id. tx_arith.
  - intros w _. cbn. lia.
  - intros w. cbn. intros [= H]. apply orb_true_iff in H as [?%Z.ltb_lt|?%Z.leb_le]; lia.
Qed.

Lemma void_run {A} (m : DBM A) `{!Transparent m} d : (run (void m) d).2 = (run m d).2.
Proof. unfold void. rewrite (run_bind m _). by destruct (run m d) as [[]]. Qed.

(** [by_entry H]: the effect is the entry that [H] shows sound. *)
Ltac by_entry H :=
  let H1 := fresh in let H2 := fresh in let H3 := fresh in
  destruct H as (H1 & H2 & H3);
  first [solve [apply effect_entry; auto] | done | lia | by vm_compute].

Lemma exec_op_effect o d :
  op_ok o → in_range d → op_effect o d (run (exec_op o) d).2.
Proof.
  intros Hok Hd. destruct o as [u k a r m|u k e a r m|u k e r m|u a r m|u a r m|u a r m|u x a r m]; cbn in *.
  - destruct (Z.leb_spec a 0).
    { unfold PreDeduct. rewrite (proj2 (Z.leb_le _ _)) by done. constructor. }
    rewrite PreDeduct_refines by done. by_entry (freeze_entry_ok u k a r m).
  - destruct Hok as (He & Hie & Hia).
    destruct ((e <=? 0) && (a <=? 0)) eqn:E.
    { unfold Settle. rewrite E. constructor. }
    apply andb_false_iff in E. rewrite !Z.leb_gt in E.
    rewrite Settle_refines by (done || lia).
    pose proof (settle_entry_ok u k e (Z.max 0 a) r m ltac:(lia) ltac:(lia)) as (?&?&Hs).
    apply effect_entry; [done..|]. cbn. intros. apply Hs. lia.
  - destruct (Z.leb_spec e 0).
    { unfold Refund. rewrite (proj2 (Z.leb_le _ _)) by done. constructor. }
    rewrite Refund_refines by done. by_entry (refund_entry_ok u k e r m).
  - destruct (Z.leb_spec a 0).
    { unfold EngineRecharge. rewrite (proj2 (Z.leb_le _ _)) by done. constructor. }
    rewrite run_EngineRecharge by done.
    destruct (users d !! u) as [w|] eqn:Hu; [|constructor].
    destruct (live w) eqn:Hl; [|by eapply effect_dead].
    by_entry (credit_entry_ok u a KindRecharge r m).
  - rewrite (void_run (runTx (AwardCheckinTx u a r m))). destruct (Z.leb_spec a 0).
    { unfold AwardCheckinTx, creditTx. rewrite (proj2 (Z.leb_le _ _)) by done. constructor. }
    unfold AwardCheckinTx. rewrite creditTx_refines by done.
    by_entry (credit_entry_ok u a KindCheckin r m).
  - rewrite (void_run (runTx (RedeemTx u a r m))). destruct (Z.leb_spec a 0).
    { unfold RedeemTx, creditTx. rewrite (proj2 (Z.leb_le _ _)) by done. constructor. }
    unfold RedeemTx. rewrite creditTx_refines by done.
    by_entry (credit_entry_ok u a KindRedeem r m).
  - rewrite (void_run (AdminAdjust u x a r m)). destruct Hok as [Hm Hia]. destruct (decide (a = 0)) as [->|].
    { constructor. }
    rewrite AdminAdjust_refines by done. by_entry (adjust_entry_ok u x a r m).
Qed.

Lemma log_dead_reconciled opening t u d :
  users d !! TxUserID t = Some u → live u = false →
  reconciled opening d → reconciled opening (log_txs [t] d).
Proof.
  intros Hu Hl H id v Hv Hlv. specialize (H id v Hv Hlv). cbn. rewrite !sumZ_app. cbn.
  unfold tx_balance at 2, tx_frozen at 2. case_bool_decide as Hid; [|cbn; lia].
  exfalso. cbn in Hv. congruence.
Qed.

(** [op_invariant I]: every effect of an admissible operation keeps [I]. *)
Lemma exec_ops_invariant (I : database → Prop) (ok : billing_op → Prop) ops w :
  (∀ o d d', ok o → I d → in_range d → op_effect o d d' → I d') →
  Forall (λ o, op_ok o ∧ ok o) ops → in_range (w_db w) → I (w_db w) →
  in_range (w_db (exec_ops ops w)) ∧ I (w_db (exec_ops ops w)).
Proof.
  intros HI. revert w. induction ops as [|o ops IH]; intros w Hops Hr Hi; [done|].
  apply Forall_cons in Hops as [[Ho Hok] Hops]. cbn. apply IH; [done|..].
  all: destruct (atomic_or_run (exec_op o) w) as [[_ ->]|Hrun]; [done|].
  all: pose proof (exec_op_effect o (w_db w) Ho Hr) as He; rewrite Hrun in He; cbn in He.
  all: revert He; clear Hrun; generalize (w_db (exec_op o w).2); intros d' He.
  - destruct He; [done| |done]. by apply ledger_step_in_range.
  - by eapply HI.
Qed.

(** ** Properties *)

(** C1: whatever sequence of billing operations is executed, and whichever
    of their statements or commits fail, the wallets of all live users are
    the opening wallets plus the amounts of the journal, for the available
    and for the frozen part, and all columns stay within BIGINT. *)
Theorem billing_reconciles opening ops w :
  Forall op_ok ops → in_range (w_db w) → reconciled opening (w_db w) →
  in_range (w_db (exec_ops ops w)) ∧ reconciled opening (w_db (exec_ops ops w)).
Proof.
  intros Hops. apply (exec_ops_invariant _ (λ _, True)).
  - intros o d d' _ Hd _ He. inversion He; subst; [done| |].
    + by apply ledger_step_reconciled.
    + by eapply log_dead_reconciled.
  - eapply Forall_impl; [exact Hops|]. done.
Qed.

(** C27: under the same sequences and failures the frozen part of no live
    wallet becomes negative; and as long as no settlement exceeds its hold,
    the available part does not either. *)
Theorem billing_no_debt ops w :
  Forall op_ok ops → in_range (w_db w) → frozen_backed (w_db w) →
  frozen_backed (w_db (exec_ops ops w)) ∧
  (Forall op_within_hold ops → solvent (w_db w) → solvent (w_db (exec_ops ops w))).
Proof.
  intros Hops Hr Hf. split.
  - eapply (exec_ops_invariant frozen_backed (λ _, True)); [|by eapply Forall_impl|done..].
    intros o d d' _ Hd _ He. inversion He; subst; [done| |done].
    by apply ledger_step_frozen_backed.
  - intros Hh Hs. eapply (exec_ops_invariant solvent op_within_hold); [|by apply Forall_and|done..].
    intros o d d' Ho Hd _ He. inversion He; subst; [done| |done].
    apply ledger_step_solvent; auto.
Qed.

(** [PreDeduct] of a positive amount, whatever fails: on success a live
    user had the amount, it moved from the available to the frozen part and
    one freeze line was written; on error nothing changed, and
    [ErrInsufficient] means that no live user of that id had the amount. *)
Theorem PreDeduct_contract u k a r m w :
  0 < a →
  match (PreDeduct u k a r m w).1 with
  | Ok _ => ∃ x, users (w_db w) !! u = Some x ∧ live x = true ∧ a ≤ CreditBalance x ∧
      w_db (PreDeduct u k a r m w).2 =
      log_txs [Build_CreditTx u k KindFreeze (- a) (CreditBalance x - a) r m]
        (with_users <[u := set_wallet (CreditBalance x - a) (CreditFrozen x + a) x]> (w_db w))
  | Err e => w_db (PreDeduct u k a r m w).2 = w_db w ∧
      (e = ErrInsufficient →
       ∀ x, users (w_db w) !! u = Some x → live x = true → CreditBalance x < a)
  end.
Proof.
  intros Ha. destruct (atomic_or_run (exec_op (OpPreDeduct u k a r m)) w) as [[H1 H2]|Hrun];
    cbn in *; [by rewrite H1, H2|].
  rewrite PreDeduct_refines in Hrun by done.
  destruct (PreDeduct u k a r m w) as [r' w']; cbn in *. unfold unit_of in Hrun.
  destruct (ledger_step _ _) as [s d'] eqn:Hs. injection Hrun as <- <-. cbn.
  pose proof Hs as Hs0.
  apply ledger_step_inv in Hs as [[-> Hs]|(x & Hx & Hg & Hl & Hb & Hf & -> & ->)].
  - destruct s as [|e]; [done|]. split; [done|]. intros -> x Hx Hl.
    unfold ledger_step in Hs0. cbn in Hs0. rewrite Hx in Hs0. rewrite Hl, andb_true_r in Hs0.
    destruct (Z.leb_spec a (CreditBalance x)); [|lia].
    destruct (bigint _) eqn:Hb1 in Hs0; cbn in Hs0;
      [destruct (bigint _) eqn:Hb2 in Hs0; cbn in Hs0; [done|]|];
      injection Hs0 as ->; by edestruct bigint_err.
  - cbn in Hg. injection Hg as Hg%Z.leb_le. by exists x.
Qed.

Definition sample_user (b f : Z) : User := {|
  Email := "a@example.com"; PasswordHash := ""; Nickname := ""; GroupID := 1;
  Role := "user"; Status := "active"; CreditBalance := b; CreditFrozen := f; Version := 0;
  LastLoginAt := None; LastLoginIP := ""; UserDeletedAt := None |}.

Definition sample_db (b f : Z) : database := with_users (λ _, {[ 7%N := sample_user b f ]}) empty_database.

Lemma PreDeduct_contract_witness :
  0 < 30 ∧
  match (PreDeduct 7 1 30 "req" "chat" (World (sample_db 100 0) [])).1 with
  | Ok _ => ∃ x, users (sample_db 100 0) !! 7%N = Some x ∧ live x = true ∧ 30 ≤ CreditBalance x ∧
      w_db (PreDeduct 7 1 30 "req" "chat" (World (sample_db 100 0) [])).2 =
      log_txs [Build_CreditTx 7 1 KindFreeze (- 30) (CreditBalance x - 30) "req" "chat"]
        (with_users <[7%N := set_wallet (CreditBalance x - 30) (CreditFrozen x + 30) x]> (sample_db 100 0))
  | Err e => w_db (PreDeduct 7 1 30 "req" "chat" (World (sample_db 100 0) [])).2 = sample_db 100 0 ∧
      (e = ErrInsufficient →
       ∀ x, users (sample_db 100 0) !! 7%N = Some x → live x = true → CreditBalance x < 30)
  end.
Proof.
  split; [lia|].
  apply (PreDeduct_contract 7 1 30 "req" "chat" (World (sample_db 100 0) [])). lia.
Defined.

(** The wallet of [u] after a sequence, everything else of the row kept. *)
Definition wallet_is (d : database) (u : N) (b f : Z) : Prop :=
  ∃ x, users d !! u = Some x ∧ live x = true ∧ CreditBalance x = b ∧ CreditFrozen x = f.

(** A request's money. A hold [e] taken from a live wallet that has it,
    then settled at [a] within the hold, costs exactly [a]; refunded instead
    it costs nothing.  Either way the frozen part is what it was, no other
    wallet moves, and the journal tells the story line by line. *)
Theorem hold_lifecycle u k e a r m d b f :
  0 < e → 0 ≤ a ≤ e → in_range d → wallet_is d u b f → e ≤ b → 0 ≤ f → in_i64 (f + e) →
  ∃ d1 d2,
    run (PreDeduct u k e r m ;; Settle u k e a r m) d = (Ok tt, d1) ∧
    run (PreDeduct u k e r m ;; Refund u k e r m) d = (Ok tt, d2) ∧
    wallet_is d1 u (b - a) f ∧ wallet_is d2 u b f ∧
    (∀ v, v ≠ u → users d1 !! v = users d !! v ∧ users d2 !! v = users d !! v) ∧
    credit_transactions d1 = credit_transactions d ++
      [Build_CreditTx u k KindFreeze (- e) (b - e) r m;
       Build_CreditTx u k KindUnfreeze e (b - a) r m] ++
      (if 0 <? a then [Build_CreditTx u k KindConsume (- a) (b - a) r m] else []) ∧
    credit_transactions d2 = credit_transactions d ++
      [Build_CreditTx u k KindFreeze (- e) (b - e) r m;
       Build_CreditTx u k KindRefund e b r m].
Proof.
  intros He Ha Hd (x & Hx & Hl & <- & <-) Hb Hf Hfe.
  destruct (in_range_lookup _ _ _ Hd Hx) as [Hib Hif].
  rewrite !(run_bind (PreDeduct u k e r m) _), PreDeduct_refines by done.
  rewrite (ledger_step_ok _ _ x); [|done|by cbn; f_equal; apply Z.leb_le|done|cbn; i64_lia|done].
  cbn. rewrite Settle_refines, Refund_refines by (try done; i64_lia).
  match goal with |- context [ledger_step _ ?d0] =>
    set (d0' := d0); set (x0 := set_wallet (CreditBalance x + - e) (CreditFrozen x + e) x) end.
  assert (users d0' !! u = Some x0) as Hx0 by (cbn; apply lookup_insert_eq).
  assert (bigint (CreditFrozen x0 + - e) = Ok (CreditFrozen x)) as Hfr.
  { cbn. rewrite <-Z.add_assoc, Z.add_opp_diag_r, Z.add_0_r. by apply bigint_in. }
  rewrite !(ledger_step_ok _ _ x0); cbn -[x0 d0']; try done.
  all: try (rewrite Hfr; cbn; f_equal; by apply Z.leb_le).
  all: try (cbn; f_equal; apply Z.leb_le; lia).
  all: try (cbn; i64_lia).
  eexists _, _. split; [reflexivity|]. split; [reflexivity|]. cbn. split_and!.
  - exists (set_wallet (CreditBalance x - a) (CreditFrozen x) x0).
    cbn. rewrite lookup_insert_eq. split_and!; [|done..]. do 2 f_equal; cbn; lia.
  - exists (set_wallet (CreditBalance x) (CreditFrozen x) x0).
    cbn. rewrite lookup_insert_eq. split_and!; [|done..]. do 2 f_equal; cbn; lia.
  - intros v Hv. by rewrite !lookup_insert_ne.
  - rewrite (proj2 (Z.ltb_lt _ _)), Z.max_r by lia. rewrite <-!app_assoc. cbn.
    replace (CreditBalance x + - e + (e - a)) with (CreditBalance x - a) by lia.
    by replace (CreditBalance x + - e) with (CreditBalance x - e) by lia.
  - rewrite <-app_assoc. cbn.
    replace (CreditBalance x + - e + e) with (CreditBalance x) by lia.
    by replace (CreditBalance x + - e) with (CreditBalance x - e) by lia.
Qed.

Lemma hold_lifecycle_witness :
  ∃ d1 d2,
    run (PreDeduct 7 1 30 "req" "chat" ;; Settle 7 1 30 12 "req" "chat") (sample_db 100 5) = (Ok tt, d1) ∧
    run (PreDeduct 7 1 30 "req" "chat" ;; Refund 7 1 30 "req" "chat") (sample_db 100 5) = (Ok tt, d2) ∧
    wallet_is d1 7 88 5 ∧ wallet_is d2 7 100 5.
Proof.
  destruct (hold_lifecycle 7 1 30 12 "req" "chat" (sample_db 100 5) 100 5)
    as (d1 & d2 & H1 & H2 & H3 & H4 & _);
    [lia|lia| | |lia|lia|by vm_compute|].
  - intros id u. cbn. intros [<- <-]%lookup_singleton_Some. by vm_compute.
  - by eexists.
  - by exists d1, d2.
Defined.

(** A settlement above the hold is charged in full even when the wallet
    cannot pay for it: the available part goes below zero. *)
Theorem Settle_overdraws u k e a r m d b f :
  0 ≤ e → 0 < a → b < a - e → in_i64 a → in_range d → wallet_is d u b f → e ≤ f →
  in_i64 (b + (e - a)) →
  ∃ d', run (Settle u k e a r m) d = (Ok tt, d') ∧ wallet_is d' u (b + (e - a)) (f - e) ∧
        b + (e - a) < 0.
Proof.
  intros He Ha Hov Hia Hd (x & Hx & Hl & <- & <-) Hf Hib.
  destruct (in_range_lookup _ _ _ Hd Hx) as [Hb Hf'].
  rewrite Settle_refines, Z.max_r by (try done; try i64_lia; by right).
  rewrite (ledger_step_ok _ _ x); [|done| |done|done|cbn; i64_lia].
  - eexists. split; [reflexivity|]. split; [|lia].
    eexists. cbn. rewrite lookup_insert_eq. by split_and!.
  - cbn. rewrite bigint_in by i64_lia. cbn. f_equal. apply Z.leb_le. lia.
Qed.

Lemma Settle_overdraws_witness :
  ∃ d', run (Settle 7 1 5 40 "req" "chat") (sample_db 10 5) = (Ok tt, d') ∧
        wallet_is d' 7 (10 + (5 - 40)) (5 - 5) ∧ 10 + (5 - 40) < 0.
Proof.
  apply (Settle_overdraws 7 1 5 40 "req" "chat" (sample_db 10 5) 10 5);
    [lia|lia|lia|by vm_compute| | |lia|by vm_compute].
  - intros id u. cbn. intros [<- <-]%lookup_singleton_Some. by vm_compute.
  - by eexists.
Defined.

(** A recharge of a soft-deleted user reports success and writes a
    recharge line, but credits no wallet. *)
Theorem EngineRecharge_deleted_user u a r m d x :
  0 < a → in_range d → users d !! u = Some x → live x = false →
  run (EngineRecharge u a r m) d =
  (Ok tt, log_txs [Build_CreditTx u 0 KindRecharge a (CreditBalance x) r m] d).
Proof. intros Ha Hd Hx Hl. by rewrite run_EngineRecharge, Hx, Hl. Qed.

(** An administrator's adjustment [delta] is applied exactly or not at
    all: it succeeds only on a live user whose balance stays non-negative
    when credits are taken, reports the new balance and journals [delta];
    [ErrInsufficient] means there was no live user with enough. *)
Theorem AdminAdjust_contract u x delta r m d :
  i64_min < delta → in_i64 delta → delta ≠ 0 → in_range d →
  match run (AdminAdjust u x delta r m) d with
  | (Ok bal, d') => ∃ w, users d !! u = Some w ∧ live w = true ∧
      bal = CreditBalance w + delta ∧ (delta < 0 → 0 ≤ bal) ∧
      users d' = <[u := set_wallet bal (CreditFrozen w) w]> (users d) ∧
      sumZ (tx_balance u) (credit_transactions d') = sumZ (tx_balance u) (credit_transactions d) + delta
  | (Err e, d') => d' = d ∧
      (e = ErrInsufficient → delta < 0 ∧
       ∀ w, users d !! u = Some w → live w = true → CreditBalance w < - delta)
  end.
Proof.
  intros Hm Hid Hne Hd. rewrite AdminAdjust_refines by done.
  destruct (ledger_step _ _) as [res d'] eqn:Hs. pose proof Hs as Hs0.
  apply ledger_step_inv in Hs as [[-> Hs]|(w & Hw & Hg & Hl & Hb & Hf & -> & ->)].
  - destruct res as [|e]; [done|]. split; [done|]. intros ->. unfold ledger_step in Hs0. cbn in Hs0.
    destruct (users d !! u) as [w|] eqn:Hw; cbn in Hs0.
    2: { destruct (Z.ltb_spec delta 0); [done|]. by inversion Hs0. }
    rewrite (Z.add_0_r (CreditFrozen w)), (bigint_in _ (proj2 (in_range_lookup _ _ _ Hd Hw))) in Hs0.
    destruct (live w) eqn:Hl; [|rewrite andb_false_r in Hs0].
    + rewrite andb_true_r in Hs0. destruct (_ || _) eqn:Hg in Hs0.
      { destruct (bigint _) as [|e] eqn:Hb in Hs0; cbn in Hs0; [done|].
        apply bigint_err in Hb as [-> _]. by inversion Hs0. }
      apply orb_false_iff in Hg as [Hp%Z.ltb_ge Hg%Z.leb_gt]. split; [lia|]. intros. by simplify_eq.
    + destruct (Z.ltb_spec delta 0); [|by inversion Hs0].
      split; [done|]. intros. congruence.
  - cbn in *. exists w. injection Hg as Hg. rewrite Z.add_0_r. split_and!; try done.
    + intros. apply orb_true_iff in Hg as [?%Z.ltb_lt|?%Z.leb_le]; lia.
    + rewrite sumZ_app. cbn. unfold tx_balance at 2. cbn. rewrite bool_decide_eq_true_2 by done. lia.
Qed.

(** ** Witnesses on concrete sequences *)

Definition sample_ops : list billing_op :=
  [OpPreDeduct 7 1 30 "req-1" "chat"; OpPreDeduct 7 1 500 "req-2" "chat";
   OpSettle 7 1 30 12 "req-1" "chat"; OpRecharge 7 1000 "order:1" "top-up";
   OpPreDeduct 7 1 500 "req-3" "image"; OpRefund 7 1 500 "req-3" "image";
   OpAdjust 7 1 (-88) "1" "correction"].

(** The third call of the first operation and a later commit fail. *)
Definition sample_faults : list bool :=
  [false; false; true] ++ repeat false 12 ++ [true].

Lemma sample_in_range : in_range (sample_db 100 5).
Proof. intros id u. cbn. intros [<- <-]%lookup_singleton_Some. by vm_compute. Qed.

Lemma billing_reconciles_witness :
  in_range (w_db (exec_ops sample_ops (World (sample_db 100 5) sample_faults))) ∧
  reconciled (λ _, (100, 5)) (w_db (exec_ops sample_ops (World (sample_db 100 5) sample_faults))).
Proof.
  apply billing_reconciles.
  - by repeat constructor; vm_compute.
  - apply sample_in_range.
  - intros id u. cbn. intros [<- <-]%lookup_singleton_Some. by vm_compute.
Defined.

Lemma billing_no_debt_witness :
  frozen_backed (w_db (exec_ops sample_ops (World (sample_db 100 5) sample_faults))) ∧
  (Forall op_within_hold sample_ops → solvent (sample_db 100 5) →
   solvent (w_db (exec_ops sample_ops (World (sample_db 100 5) sample_faults)))).
Proof.
  apply billing_no_debt.
  - by repeat constructor; vm_compute.
  - apply sample_in_range.
  - intros id u. cbn. intros [<- <-]%lookup_singleton_Some. by vm_compute.
Defined.

Definition deleted_user : User := {|
  Email := ""; PasswordHash := ""; Nickname := ""; GroupID := 1; Role := "user";
  Status := "banned"; CreditBalance := 0; CreditFrozen := 0; Version := 0;
  LastLoginAt := None; LastLoginIP := ""; UserDeletedAt := Some 1 |}.

Lemma EngineRecharge_deleted_user_witness :
  run (EngineRecharge 8 50 "order:2" "top-up") (with_users (λ _, {[ 8%N := deleted_user ]}) empty_database) =
  (Ok tt, log_txs [Build_CreditTx 8 0 KindRecharge 50 0 "order:2" "top-up"]
            (with_users (λ _, {[ 8%N := deleted_user ]}) empty_database)).
Proof.
  apply (EngineRecharge_deleted_user 8 50 "order:2" "top-up" _ deleted_user); [lia| |done|done].
  intros id u. cbn. intros [<- <-]%lookup_singleton_Some. by vm_compute.
Defined.

Lemma AdminAdjust_contract_witness :
  match run (AdminAdjust 7 1 (-40) "1" "abuse") (sample_db 100 5) with
  | (Ok bal, d') => ∃ w, users (sample_db 100 5) !! 7%N = Some w ∧ live w = true ∧
      bal = CreditBalance w + -40 ∧ (-40 < 0 → 0 ≤ bal) ∧
      users d' = <[7%N := set_wallet bal (CreditFrozen w) w]> (users (sample_db 100 5)) ∧
      sumZ (tx_balance 7) (credit_transactions d') =
      sumZ (tx_balance 7) (credit_transactions (sample_db 100 5)) + -40
  | (Err e, d') => d' = sample_db 100 5 ∧
      (e = ErrInsufficient → -40 < 0 ∧
       ∀ w, users (sample_db 100 5) !! 7%N = Some w → live w = true → CreditBalance w < - -40)
  end.
Proof.
  apply (AdminAdjust_contract 7 1 (-40) "1" "abuse"); [by vm_compute|by vm_compute|lia|].
  apply sample_in_range.
Defined.

Lemma engine_refines_ledger_witness :
  abstract_step (OpSettle 7 1 30 12 "r" "m") (sample_db 70 30) =
  ((exec_op (OpSettle 7 1 30 12 "r" "m") (World (sample_db 70 30) [])).1,
   w_db (exec_op (OpSettle 7 1 30 12 "r" "m") (World (sample_db 70 30) [])).2).
Proof.
  destruct (engine_refines_ledger (OpSettle 7 1 30 12 "r" "m") (World (sample_db 70 30) [])) as [[H _]|H].
  - by vm_compute.
  - intros id u. cbn. intros [<- <-]%lookup_singleton_Some. by vm_compute.
  - exfalso. vm_compute in H. discriminate.
  - exact H.
Defined.
