(* ===== verification/Redeem.v ===== *)
(** * Redeem codes (internal/redeem)

    [Generate] issues a batch of codes, [Redeem] spends one: it marks the
    code used and credits the user through [billingWriter] in one
    transaction. *)

From S2P Require Import Prelude GoStrings Sql Schema Ledger Billing.

Definition ErrCodeNotFound : goerr := Sentinel "redeem: code not found".
Definition ErrCodeUsed : goerr := Sentinel "redeem: code already used".
Definition ErrCodeExpired : goerr := Sentinel "redeem: code expired".
Definition ErrInvalidCredits : goerr := Sentinel "redeem: invalid credits".
Definition ErrInvalidQuantity : goerr := Sentinel "redeem: invalid quantity".

Definition StatusActive : string := "active".
Definition StatusUsed : string := "used".

Record RedeemResult := {
  ResCode : string;
  ResCredits : Z;
  ResBalanceAfter : Z
}.

(** ** DAO (dao.go) *)

(** [SELECT .. FROM redeem_codes WHERE code = ? FOR UPDATE] *)
Definition find_code (code : string) (d : database) : option (N * Code) :=
  head (rows_where redeem_codes (λ _ c, String.eqb (CodeText c) code) d).

(** The UNIQUE key on [code] makes a duplicate insert fail with 1062. *)
Definition insert_code (item : Code) (d : database) : result (N * database) :=
  match find_code (CodeText item) d with
  | Some _ => Err (EMySQL 1062)
  | None =>
      let id := auto_id (redeem_codes d) in
      Ok (id, with_redeem_codes
        <[id := {| CodeText := CodeText item; CodeBatchID := CodeBatchID item;
                   CodeCredits := CodeCredits item; UsedByUserID := 0; UsedAt := None;
                   CodeExpiresAt := CodeExpiresAt item; CodeCreatedAt := CodeCreatedAt item |}]> d)
  end.

(** The loop of [InsertBatch]; the ids it assigns go to the loop's copies. *)
Fixpoint insert_codes (items : list Code) : DBM unit :=
  match items with
  | [] => ret tt
  | item :: items => exec (insert_code item) ;; insert_codes items
  end.

Definition InsertBatch (items : list Code) : DBM unit :=
  match items with [] => ret tt | _ => runTx (insert_codes items) end.

Record ListFilter := { FBatchID : string; FStatus : string }.

Definition list_where (f : ListFilter) (_ : N) (c : Code) : bool :=
  (String.eqb (FBatchID f) "" || String.eqb (CodeBatchID c) (FBatchID f)) &&
  (if String.eqb (FStatus f) StatusActive then (UsedByUserID c =? 0)%N
   else if String.eqb (FStatus f) StatusUsed then (0 <? UsedByUserID c)%N
   else true).

Definition DAOList (f : ListFilter) (offset limit : Z) : DBM (list (N * Code) * Z) :=
  let limit := if (limit <=? 0) || (200 <? limit) then 20 else limit in
  let offset := if offset <? 0 then 0 else offset in
  rows <- query (λ d, Ok (page offset limit (rev (rows_where redeem_codes (list_where f) d)))) ;;
  total <- query (λ d, Ok (Z.of_nat (length (rows_where redeem_codes (list_where f) d)))) ;;
  ret (rows, total).

(** [UPDATE redeem_codes SET used_by_user_id = ?, used_at = ? WHERE id = ? AND
    used_by_user_id = 0] *)
Definition mark_used (userID : N) (now : Z) (c : Code) : Code := {|
  CodeText := CodeText c; CodeBatchID := CodeBatchID c; CodeCredits := CodeCredits c;
  UsedByUserID := userID; UsedAt := Some now;
  CodeExpiresAt := CodeExpiresAt c; CodeCreatedAt := CodeCreatedAt c |}.

Section dao.
Context (RedeemTx : N → Z → string → string → DBM Z).

Definition DAORedeem (userID : N) (code : string) (now : Z) : DBM RedeemResult :=
  if String.eqb code "" then throw ErrCodeNotFound else
  runTx (
    '(id, item) <- query (λ d, match find_code code d with
                               | Some p => Ok p
                               | None => Err ErrCodeNotFound
                               end) ;;
    if negb (UsedByUserID item =? 0)%N then throw ErrCodeUsed else
    if (match CodeExpiresAt item with Some t => t <? now | None => false end)
    then throw ErrCodeExpired else
    n <- exec (id_update redeem_codes with_redeem_codes id
                 (λ c, Ok (UsedByUserID c =? 0)%N) (λ c, Ok (mark_used userID now c))) ;;
    if (n =? 0)%N then throw ErrCodeUsed else
    balanceAfter <- RedeemTx userID (CodeCredits item)
                      ("redeem:" +:+ CodeText item) ("redeem code " +:+ CodeText item) ;;
    ret {| ResCode := CodeText item; ResCredits := CodeCredits item;
           ResBalanceAfter := balanceAfter |}).

(** ** Service (service.go) *)

Definition normalizeCode (code : string) : string := ToUpper (TrimSpace code).

(** [buf]: the eight bytes drawn from crypto/rand. *)
Definition randomCode (buf : list ascii) : string := ToUpper (hex_encode buf).

(** [stamp]: the formatted clock reading; [buf]: three random bytes. *)
Definition newBatchID (stamp : string) (buf : list ascii) : string :=
  "RC" +:+ stamp +:+ ToUpper (hex_encode buf).

(** [newCode i]: the [i]-th draw of the code generator. *)
Definition Generate (newCode : nat → string) (batchID : string) (now : Z)
    (credits quantity : Z) : DBM (list Code) :=
  if credits <=? 0 then throw ErrInvalidCredits else
  if quantity <=? 0 then throw ErrInvalidQuantity else
  let items := map (λ i, {| CodeText := normalizeCode (newCode i); CodeBatchID := batchID;
                            CodeCredits := credits; UsedByUserID := 0; UsedAt := None;
                            CodeExpiresAt := None; CodeCreatedAt := now |})
                   (seq 0 (Z.to_nat quantity)) in
  InsertBatch items ;; ret items.

Definition ServiceRedeem (userID : N) (code : string) (now : Z) : DBM RedeemResult :=
  DAORedeem userID (normalizeCode code) now.
End dao.

(** ** Evaluation *)

Lemma find_code_Some code d id c :
  find_code code d = Some (id, c) → redeem_codes d !! id = Some c ∧ CodeText c = code.
Proof. intros [H1 H2%String.eqb_eq]%head_rows_where. done. Qed.

Lemma find_code_None code d :
  find_code code d = None ↔ ∀ id c, redeem_codes d !! id = Some c → CodeText c ≠ code.
Proof.
  unfold find_code. rewrite head_rows_where_None.
  split; intros H id c Hc; specialize (H id c Hc); by apply String.eqb_neq.
Qed.

(** No two rows carry the same code: the UNIQUE key. *)
Definition codes_unique (d : database) : Prop :=
  ∀ id id' c c', redeem_codes d !! id = Some c → redeem_codes d !! id' = Some c' →
    CodeText c = CodeText c' → id = id'.

Lemma find_code_unique d id c :
  codes_unique d → redeem_codes d !! id = Some c → find_code (CodeText c) d = Some (id, c).
Proof.
  intros Hu Hc. destruct (find_code (CodeText c) d) as [[id' c']|] eqn:E.
  - apply find_code_Some in E as [Hc' Ht]. assert (id' = id) as -> by by eapply Hu.
    by simplify_eq.
  - by eapply find_code_None in E.
Qed.

Definition expired (now : Z) (c : Code) : bool :=
  match CodeExpiresAt c with Some t => t <? now | None => false end.

Section dao_lemmas.
Context (RedeemTx : N → Z → string → string → DBM Z) `{!TxCreditor KindRedeem RedeemTx}.

#[global] Instance DAORedeem_transparent u code now : Transparent (DAORedeem RedeemTx u code now).
Proof. unfold DAORedeem. db_transparent. Qed.

Lemma run_DAORedeem u code now d :
  run (DAORedeem RedeemTx u code now) d =
  if String.eqb code "" then (Err ErrCodeNotFound, d) else
  match find_code code d with
  | None => (Err ErrCodeNotFound, d)
  | Some (id, c) =>
      if negb (UsedByUserID c =? 0)%N then (Err ErrCodeUsed, d) else
      if expired now c then (Err ErrCodeExpired, d) else
      match run (RedeemTx u (CodeCredits c) ("redeem:" +:+ CodeText c)
                   ("redeem code " +:+ CodeText c))
                (with_redeem_codes <[id := mark_used u now c]> d) with
      | (Ok bal, d') => (Ok (Build_RedeemResult (CodeText c) (CodeCredits c) bal), d')
      | (Err e, _) => (Err e, d)
      end
  end.
Proof.
  unfold DAORedeem. destruct (String.eqb code ""); [done|]. db_eval.
  destruct (find_code code d) as [[id c]|] eqn:E; cbn; [|done].
  apply find_code_Some in E as [Hc _].
  destruct (UsedByUserID c =? 0)%N eqn:Hu; cbn; [|done].
  unfold expired. destruct (match CodeExpiresAt c with Some t => t <? now | None => false end); [done|].
  db_eval. unfold id_update. rewrite Hc; cbn. rewrite Hu; cbn. db_eval.
  by destruct (run (RedeemTx _ _ _ _) _) as [[bal|e] d'].
Qed.

(** A successful redemption in one equation. *)
Lemma DAORedeem_ok u code now d res d' :
  run (DAORedeem RedeemTx u code now) d = (Ok res, d') →
  ∃ id c w, find_code code d = Some (id, c) ∧ UsedByUserID c = 0%N ∧ expired now c = false ∧
    users d !! u = Some w ∧ live w = true ∧ 0 < CodeCredits c ∧
    res = Build_RedeemResult code (CodeCredits c) (CreditBalance w + CodeCredits c) ∧
    d' = log_txs [Build_CreditTx u 0 KindRedeem (CodeCredits c) (CreditBalance w + CodeCredits c)
                    ("redeem:" +:+ code) ("redeem code " +:+ code)]
           (with_users <[u := set_wallet (CreditBalance w + CodeCredits c) (CreditFrozen w) w]>
             (with_redeem_codes <[id := mark_used u now c]> d)).
Proof.
  rewrite run_DAORedeem. destruct (String.eqb code ""); [done|].
  destruct (find_code code d) as [[id c]|] eqn:E; [|done].
  destruct (find_code_Some _ _ _ _ E) as [Hc Ht].
  destruct (N.eqb_spec (UsedByUserID c) 0); cbn; [|done].
  destruct (expired now c) eqn:Hx; [done|].
  destruct (run (RedeemTx _ _ _ _) _) as [[bal|e'] d1] eqn:Hr; [|done].
  intros [= <- <-]. apply credit_ok in Hr as (Ha & w & Hw & Hl & -> & _ & ->). cbn in Hw.
  rewrite Ht. by exists id, c, w.
Qed.
End dao_lemmas.

(** ** What a code has paid *)

#[local] Arguments String.append : simpl never.

Definition code_paid (code : string) (t : CreditTx) : Z :=
  if bool_decide (TxType t = KindRedeem) && bool_decide (TxRefID t = "redeem:" +:+ code)
  then TxAmount t else 0.

Definition paid (code : string) (d : database) : Z := sumZ (code_paid code) (credit_transactions d).

(** Every code has paid its credits if it is used and nothing otherwise. *)
Record accounted (d : database) : Prop := {
  acc_unique : codes_unique d;
  acc_user0 : users d !! 0%N = None;
  acc_row id c : redeem_codes d !! id = Some c →
    paid (CodeText c) d = if (UsedByUserID c =? 0)%N then 0 else CodeCredits c;
  acc_none code : find_code code d = None → paid code d = 0
}.

Inductive redeem_op :=
  | OpGenerate (newCode : nat → string) (batchID : string) (now credits quantity : Z)
  | OpRedeem (userID : N) (code : string) (now : Z).

Lemma find_code_insert_None d id x code :
  redeem_codes d !! id = None →
  find_code code (with_redeem_codes <[id := x]> d) = None ↔
  find_code code d = None ∧ CodeText x ≠ code.
Proof.
  intros Hid. rewrite !find_code_None. cbn. split.
  - intros H. split; [|apply (H id); by rewrite lookup_insert_eq].
    intros i c Hc. apply (H i). rewrite lookup_insert_ne; [done|]. congruence.
  - intros [H Hx] i c. rewrite lookup_insert_Some. intros [[<- <-]|[_ Hc]]; [done|by eapply H].
Qed.

Lemma insert_code_accounted item d id d' :
  insert_code item d = Ok (id, d') → accounted d → accounted d'.
Proof.
  unfold insert_code. destruct (find_code _ d) as [|] eqn:E; [done|]. intros [= <- <-] [Hu H0 Hr Hn].
  pose proof (proj1 (find_code_None _ _) E) as Hfresh.
  split; [|done| |]; cbn.
  - intros i j c c'. cbn. rewrite !lookup_insert_Some.
    intros [[<- <-]|[? Hc]] [[<- <-]|[? Hc']]; cbn; [done| | |by eapply Hu].
    + intros Ht. symmetry in Ht. by eapply Hfresh in Ht.
    + intros Ht. by eapply Hfresh in Ht.
  - intros i c. rewrite lookup_insert_Some. intros [[<- <-]|[? Hc]]; [by apply Hn|by eapply Hr].
  - intros code. rewrite find_code_insert_None by apply auto_id_fresh. intros [Hc _]. by apply Hn.
Qed.

Lemma insert_codes_accounted items d r d' :
  run (insert_codes items) d = (r, d') → accounted d → accounted d'.
Proof.
  revert d. induction items as [|item items IH]; intros d; cbn.
  { by intros [= _ <-]. }
  rewrite (run_bind (exec (insert_code item)) _), run_exec.
  destruct (insert_code item d) as [[id d1]|e] eqn:E; [|by intros [= _ <-]].
  intros Hr Hd. eapply IH; [done|]. by eapply insert_code_accounted.
Qed.

Lemma insert_codes_transparent items : Transparent (insert_codes items).
Proof. induction items; cbn; apply _. Qed.
#[export] Existing Instance insert_codes_transparent.

#[export] Instance Generate_transparent n b t c q : Transparent (Generate n b t c q).
Proof. unfold Generate, InsertBatch. db_transparent. Qed.
#[export] Instance Generate_atomic n b t c q : Atomic (Generate n b t c q).
Proof.
  unfold Generate, InsertBatch. destruct (c <=? 0); [apply _|]. destruct (q <=? 0); [apply _|].
  cbn. apply (bind_ret_atomic _ (λ _, _)). destruct (map _ _); apply _.
Qed.

Lemma Generate_accounted n b t c q d :
  accounted d → accounted (run (Generate n b t c q) d).2.
Proof.
  intros Hd. unfold Generate. destruct (c <=? 0); [done|]. destruct (q <=? 0); [done|]. cbn.
  generalize (map (λ i, {| CodeText := normalizeCode (n i); CodeBatchID := b; CodeCredits := c;
    UsedByUserID := 0; UsedAt := None; CodeExpiresAt := None; CodeCreatedAt := t |})
    (seq 0 (Z.to_nat q))). intros [|item items]; [done|]. unfold InsertBatch.
  rewrite (run_bind (runTx (insert_codes (item :: items))) _), (run_runTx (insert_codes (item :: items))).
  destruct (run (insert_codes _) d) as [[[]|e] d'] eqn:E; [|done]. by eapply insert_codes_accounted.
Qed.

Section sequences.
Context (RedeemTx : N → Z → string → string → DBM Z) `{!TxCreditor KindRedeem RedeemTx}.

Definition exec_redeem_op (o : redeem_op) : DBM unit :=
  match o with
  | OpGenerate n b t c q => void (Generate n b t c q)
  | OpRedeem u code now => void (ServiceRedeem RedeemTx u code now)
  end.

Definition exec_redeem_ops (ops : list redeem_op) (w : world database) : world database :=
  foldl (λ w o, (exec_redeem_op o w).2) w ops.

#[global] Instance DAORedeem_atomic u code now : Atomic (DAORedeem RedeemTx u code now).
Proof. unfold DAORedeem. apply _. Qed.

Lemma paid_log_redeem code code' u a b m d :
  paid code (log_txs [Build_CreditTx u 0 KindRedeem a b ("redeem:" +:+ code') m] d) =
  paid code d + if bool_decide (code = code') then a else 0.
Proof.
  unfold paid, log_txs, with_credit_transactions. cbn [credit_transactions].
  rewrite sumZ_app. cbn [sumZ]. unfold code_paid at 2. cbn [TxType TxRefID TxAmount].
  rewrite (bool_decide_eq_true_2 (KindRedeem = KindRedeem)), andb_true_l by done.
  assert ("redeem:" +:+ code' = "redeem:" +:+ code ↔ code = code') as Hinj.
  { split; [|by intros ->]. intros H. by injection H as H. }
  rewrite (bool_decide_ext _ _ Hinj). case_bool_decide; lia.
Qed.

Lemma DAORedeem_accounted u code now d :
  accounted d → accounted (run (DAORedeem RedeemTx u code now) d).2.
Proof.
  intros Hd. destruct (run (DAORedeem RedeemTx u code now) d) as [[res|e] d'] eqn:E; cbn.
  2: { replace d' with d; [done|]. rewrite (run_DAORedeem RedeemTx) in E.
       repeat case_match; simplify_eq; done. }
  apply DAORedeem_ok in E; [|done].
  destruct E as (id & c & w & Hf & H0 & _ & Hw & _ & _ & _ & ->).
  apply find_code_Some in Hf as [Hc Ht]. subst code. destruct Hd as [Hu Hu0 Hr Hn].
  assert (u ≠ 0%N) as Hne by congruence.
  match goal with |- accounted ?x => remember x as d' eqn:Ed end.
  assert (redeem_codes d' = <[id := mark_used u now c]> (redeem_codes d)) as Hcodes by by subst.
  assert (users d' !! 0%N = None) as Hu0' by (subst; cbn; by rewrite lookup_insert_ne).
  assert (∀ k, paid k d' = paid k d + if bool_decide (k = CodeText c) then CodeCredits c else 0)
    as Hpaid by (intros k; subst; by rewrite paid_log_redeem).
  clear Ed. split; [|done| |].
  - intros i j x y. rewrite Hcodes, !lookup_insert_Some.
    intros [[<- <-]|[? Hx]] [[<- <-]|[? Hy]]; cbn; [done| | |by eapply Hu].
    + intros Hxy. by eapply Hu.
    + intros Hxy. by eapply Hu.
  - intros i x. rewrite Hcodes, lookup_insert_Some, Hpaid. intros [[<- <-]|[Hi Hx]]; cbn.
    + rewrite bool_decide_eq_true_2, (proj2 (N.eqb_neq u 0)), (Hr _ _ Hc), H0 by done. done.
    + rewrite bool_decide_eq_false_2, Z.add_0_r; [by apply (Hr i)|].
      intros Hxc. apply Hi. symmetry. by eapply Hu.
  - intros code. rewrite Hpaid, find_code_None, Hcodes. intros Hnone.
    rewrite bool_decide_eq_false_2, Z.add_0_r.
    + apply Hn, find_code_None. intros i x Hx. destruct (decide (i = id)) as [->|Hi].
      * simplify_eq. apply (Hnone id (mark_used u now c)). by rewrite lookup_insert_eq.
      * apply (Hnone i x). by rewrite lookup_insert_ne.
    + intros ->. by apply (Hnone id (mark_used u now c)); [rewrite lookup_insert_eq|].
Qed.

(** C23: under every sequence of [Generate] and [Redeem] requests, by any
    users and with any failures of the database, a code has paid exactly its
    credits once it is used and nothing before; codes stay unique. *)
Theorem each_code_pays_once ops w :
  accounted (w_db w) → accounted (w_db (exec_redeem_ops ops w)).
Proof.
  revert w. induction ops as [|o ops IH]; intros w Hw; [done|]. cbn. apply IH.
  assert (Atomic (exec_redeem_op o)) as Ha.
  { destruct o; cbn; [apply _|]. unfold ServiceRedeem. apply _. }
  assert (Transparent (exec_redeem_op o)) as Ht.
  { destruct o; cbn; unfold void, ServiceRedeem; apply _. }
  destruct (atomic_or_run (exec_redeem_op o) w) as [[_ ->]|Hrun]; [done|].
  apply (f_equal snd) in Hrun. cbn in Hrun. rewrite <-Hrun.
  destruct o as [n b t c q|u code now]; cbn; unfold void.
  - rewrite (run_bind (Generate n b t c q) _). pose proof (Generate_accounted n b t c q _ Hw) as H.
    by destruct (run (Generate n b t c q) _) as [[]].
  - rewrite (run_bind (ServiceRedeem RedeemTx u code now) _).
    pose proof (DAORedeem_accounted u (normalizeCode code) now _ Hw) as H.
    unfold ServiceRedeem. by destruct (run (DAORedeem _ _ _ _) _) as [[]].
Qed.
End sequences.

(** ** Issuing and spending *)

Lemma insert_codes_ok items d d' :
  run (insert_codes items) d = (Ok tt, d') → codes_unique d →
  codes_unique d' ∧ users d' = users d ∧
  (∀ id c, redeem_codes d !! id = Some c → redeem_codes d' !! id = Some c) ∧
  ∀ x, x ∈ items → ∃ id c, redeem_codes d' !! id = Some c ∧ CodeText c = CodeText x ∧
    CodeCredits c = CodeCredits x ∧ UsedByUserID c = 0%N ∧ CodeExpiresAt c = CodeExpiresAt x.
Proof.
  revert d. induction items as [|x items IH]; intros d; cbn.
  { intros [= <-] Hu. split_and!; [done..|]. by intros x ?%not_elem_of_nil. }
  rewrite (run_bind (exec (insert_code x)) _), run_exec. unfold insert_code.
  destruct (find_code _ d) as [|] eqn:E; [done|]. intros Hr Hu.
  pose proof (proj1 (find_code_None _ _) E) as Hfresh.
  apply IH in Hr as (Hu' & Hus & Hmono & Hin).
  - split_and!; [done|done| |].
    + intros id c Hc. apply Hmono. cbn. rewrite lookup_insert_ne; [done|].
      intros Hid. rewrite <-Hid, auto_id_fresh in Hc. done.
    + intros y [->|Hy]%elem_of_cons; [|by apply Hin].
      eexists _, _. split; [apply Hmono, lookup_insert_eq|]. done.
  - intros i j c c'. cbn. rewrite !lookup_insert_Some.
    intros [[<- <-]|[? Hc]] [[<- <-]|[? Hc']]; cbn; [done| | |by eapply Hu].
    + intros Ht. symmetry in Ht. by eapply Hfresh in Ht.
    + intros Ht. by eapply Hfresh in Ht.
Qed.

(** Surrounding white space and letter case do not matter. *)
Lemma normalizeCode_typed sp t sp' :
  Forall (λ c, space1 c = true) sp → Forall (λ c, space1 c = true) sp' →
  Forall (λ c, is_graphic c = true) t → t ≠ [] →
  normalizeCode (of_bytes (sp ++ t ++ sp')) = ToUpper (of_bytes t).
Proof. intros. unfold normalizeCode. by rewrite TrimSpace_word. Qed.

Lemma randomCode_nonempty buf : buf ≠ [] → bytes (randomCode buf) ≠ [].
Proof.
  unfold randomCode, ToUpper, map_string, hex_encode. rewrite !bytes_of_bytes. by destruct buf.
Qed.

Lemma normalizeCode_randomCode buf : buf ≠ [] → normalizeCode (randomCode buf) = randomCode buf.
Proof.
  intros Hb. unfold normalizeCode. rewrite <-(of_bytes_bytes (randomCode buf)) at 1.
  rewrite TrimSpace_graphic, of_bytes_bytes.
  - unfold randomCode. apply ToUpper_idemp.
  - apply graphic_ToUpper, graphic_hex_encode.
  - by apply randomCode_nonempty.
Qed.

Section issue_and_spend.
Context (RedeemTx : N → Z → string → string → DBM Z) `{!TxCreditor KindRedeem RedeemTx}.

(** A code that was redeemed once is refused ever after: whoever sends
    it again, and whatever fails, gets [ErrCodeUsed] or the driver's error,
    and nothing changes. *)
Theorem second_redemption_refused u code now d res d1 u' now' w :
  run (DAORedeem RedeemTx u code now) d = (Ok res, d1) → u ≠ 0%N → codes_unique d →
  w_db w = d1 →
  ((DAORedeem RedeemTx u' code now' w).1 = Err ErrCodeUsed ∨
   (DAORedeem RedeemTx u' code now' w).1 = Err EDriver) ∧
  w_db (DAORedeem RedeemTx u' code now' w).2 = d1.
Proof.
  intros Hr Hu0 Hu Hw. pose proof Hr as Hr0. apply (DAORedeem_ok RedeemTx) in Hr.
  destruct Hr as (id & c & x & Hf & H0 & _ & Hx & _ & _ & _ & Hd1).
  apply find_code_Some in Hf as [Hc Ht]. subst code.
  assert (find_code (CodeText c) d1 = Some (id, mark_used u now c)) as Hf1.
  { change (CodeText c) with (CodeText (mark_used u now c)) at 1. apply find_code_unique.
    - intros i j y z. subst d1. cbn. rewrite !lookup_insert_Some.
      intros [[<- <-]|[? Hy]] [[<- <-]|[? Hz]]; cbn; [done| | |by eapply Hu]; intros; by eapply Hu.
    - subst d1. cbn. apply lookup_insert_eq. }
  destruct (atomic_or_run (DAORedeem RedeemTx u' (CodeText c) now') w) as [[-> ->]|Hrun].
  { split; [by right|done]. }
  rewrite (run_DAORedeem RedeemTx), Hw in Hrun.
  rewrite (run_DAORedeem RedeemTx) in Hr0. destruct (String.eqb (CodeText c) ""); [done|].
  rewrite Hf1 in Hrun. cbn in Hrun. rewrite (proj2 (N.eqb_neq u 0)) in Hrun by done.
  cbn in Hrun. injection Hrun as <- <-. split; [by left|done].
Qed.

(** Every code of a generated batch can be spent once by any live user,
    typed in any case and with white space around it: the user gets exactly
    the credits of the batch. *)
Theorem generate_then_redeem (draw : nat → list ascii) batchID now credits quantity d items d1
    x u w sp t sp' now' :
  (∀ i, draw i ≠ []) → codes_unique d →
  run (Generate (λ i, randomCode (draw i)) batchID now credits quantity) d = (Ok items, d1) →
  x ∈ items → ToUpper (of_bytes t) = CodeText x →
  Forall (λ c, space1 c = true) sp → Forall (λ c, space1 c = true) sp' →
  Forall (λ c, is_graphic c = true) t → t ≠ [] →
  users d !! u = Some w → live w = true → in_i64 (CreditBalance w + credits) →
  0 < credits ∧ Z.of_nat (List.length items) = quantity ∧
  ∃ d2, run (ServiceRedeem RedeemTx u (of_bytes (sp ++ t ++ sp')) now') d1 =
    (Ok (Build_RedeemResult (CodeText x) credits (CreditBalance w + credits)), d2).
Proof.
  intros Hdraw Hu Hg Hx Ht Hsp Hsp' Hgr Hne Hw Hl Hb.
  unfold Generate in Hg. destruct (Z.leb_spec credits 0); [done|].
  destruct (Z.leb_spec quantity 0); [done|]. cbn in Hg.
  match type of Hg with context [InsertBatch ?l] => set (its := l) in Hg end.
  unfold InsertBatch in Hg. destruct its as [|y its'] eqn:Eits.
  { apply (f_equal List.length) in Eits. subst its. rewrite length_map, length_seq in Eits. cbn in Eits. lia. }
  rewrite <-Eits in Hg. rewrite (run_bind (runTx (insert_codes its)) _), (run_runTx (insert_codes its)) in Hg.
  destruct (run (insert_codes its) d) as [[[]|e] d'] eqn:Hi; [|done].
  injection Hg as <- <-. apply insert_codes_ok in Hi as (Hu' & Hus & _ & Hin); [|done].
  split; [done|]. split. { subst its. rewrite length_map, length_seq. lia. }
  destruct (Hin x Hx) as (id & c & Hc & Hct & Hcc & Hcu & Hce).
  assert (CodeCredits x = credits ∧ CodeExpiresAt x = None ∧ ∃ i, CodeText x = randomCode (draw i))
    as (Hxc & Hxe & i & Hxt).
  { subst its. apply list_elem_of_In, in_map_iff in Hx as (i & <- & _). cbn.
    rewrite normalizeCode_randomCode by done. eauto. }
  unfold ServiceRedeem. rewrite normalizeCode_typed, Ht, (run_DAORedeem RedeemTx) by done.
  destruct (String.eqb_spec (CodeText x) "") as [Hempty|_].
  { exfalso. apply (randomCode_nonempty (draw i) (Hdraw i)). by rewrite <-Hxt, Hempty. }
  rewrite <-Hct, (find_code_unique _ id c) by done. rewrite Hcu. cbn.
  unfold expired. rewrite Hce, Hxe, Hcc, Hxc.
  match goal with |- context [run ?m ?dd] =>
    pose proof (credit_complete u credits ("redeem:" +:+ CodeText c) ("redeem code " +:+ CodeText c) dd w
      ltac:(lia) ltac:(cbn; by rewrite Hus) Hl Hb) as Hok;
    destruct (run m dd) as [[bal|e] d2] eqn:Hrun end; [|done].
  apply credit_ok in Hrun as (_ & w' & Hw' & _ & -> & _). cbn in Hw'. rewrite Hus in Hw'.
  simplify_eq. eauto.
Qed.
End issue_and_spend.

(** ** Witnesses *)

Definition sample_draw (i : nat) : list ascii := repeat (ascii_of_nat (i + 171)) 8.

Definition sample_redeem_ops : list redeem_op :=
  [OpGenerate (λ i, randomCode (sample_draw i)) "RC1" 5 100 2;
   OpRedeem 7 "abababababababab" 6; OpRedeem 7 " ABABABABABABABAB " 7; OpRedeem 7 "ACACACACACACACAC" 8].

Lemma each_code_pays_once_witness :
  accounted (w_db (exec_redeem_ops RedeemTx sample_redeem_ops
    (World (sample_db 10 0) (repeat false 18 ++ [true])))).
Proof.
  apply each_code_pays_once; [apply _|].
  split; [by intros ????|done|by intros ??|done].
Defined.

Definition issued_db : database :=
  (run (Generate (λ i, randomCode (sample_draw i)) "RC1" 5 100 2) (sample_db 10 0)).2.
Definition redeemed_db : database :=
  (run (DAORedeem RedeemTx 7 "ABABABABABABABAB" 6) issued_db).2.

Lemma second_redemption_refused_witness :
  ((DAORedeem RedeemTx 7 "ABABABABABABABAB" 9 (World redeemed_db [false])).1 = Err ErrCodeUsed ∨
   (DAORedeem RedeemTx 7 "ABABABABABABABAB" 9 (World redeemed_db [false])).1 = Err EDriver) ∧
  w_db (DAORedeem RedeemTx 7 "ABABABABABABABAB" 9 (World redeemed_db [false])).2 = redeemed_db.
Proof.
  apply (second_redemption_refused RedeemTx 7 "ABABABABABABABAB" 6 issued_db
           (Build_RedeemResult "ABABABABABABABAB" 100 110)); [|done| |done].
  - by vm_compute.
  - assert (run (insert_codes (map (λ i, {| CodeText := normalizeCode (randomCode (sample_draw i));
      CodeBatchID := "RC1"; CodeCredits := 100; UsedByUserID := 0; UsedAt := None;
      CodeExpiresAt := None; CodeCreatedAt := 5 |}) (seq 0 2))) (sample_db 10 0) = (Ok tt, issued_db))
      as H by by vm_compute.
    apply insert_codes_ok in H; [by apply H|by intros ????].
Defined.

Lemma generate_then_redeem_witness :
  ∃ d2, run (ServiceRedeem RedeemTx 7 (of_bytes ([" "%char] ++ bytes "aBaBababababABAB" ++ [])) 6) issued_db =
    (Ok (Build_RedeemResult "ABABABABABABABAB" 100 110), d2).
Proof.
  edestruct (generate_then_redeem RedeemTx sample_draw "RC1" 5 100 2 (sample_db 10 0)
    (map (λ i, {| CodeText := normalizeCode (randomCode (sample_draw i)); CodeBatchID := "RC1";
      CodeCredits := 100; UsedByUserID := 0; UsedAt := None; CodeExpiresAt := None; CodeCreatedAt := 5 |})
      (seq 0 2)) issued_db
    {| CodeText := "ABABABABABABABAB"; CodeBatchID := "RC1"; CodeCredits := 100; UsedByUserID := 0;
       UsedAt := None; CodeExpiresAt := None; CodeCreatedAt := 5 |}
    7 (sample_user 10 0) [" "%char] (bytes "aBaBababababABAB") [] 6) as (_ & _ & Hd);
    [by intros [|[|?]]|by intros ????|by vm_compute|by left|by vm_compute
    |by repeat constructor|constructor|by repeat constructor|done|by vm_compute|done|by vm_compute|exact Hd].
Defined.
