(* ===== verification/Checkin.v ===== *)
(** * Daily check-in (internal/checkin)

    A claim inserts the (user, day) row, which the UNIQUE key admits once,
    and awards the credits in the same transaction; a second claim of the
    day reads the first one back. *)

From S2P Require Import Prelude GoStrings GoTime Sql Schema Ledger Billing.

Definition ErrDisabled : goerr := Sentinel "checkin: disabled".

Record ClaimInput := {
  InDay : string;
  InCheckedAt : Z;
  InAwardedCredits : Z;
  InRefID : string;
  InRemark : string
}.

Record CheckinStatus := {
  StEnabled : bool;
  StToday : string;
  StCheckedIn : bool;
  StTodayRewardCredits : Z;
  StCheckedAt : string;
  StLastCheckedAt : string;
  StBalanceAfter : Z;
  StAwardedCredits : Z
}.

(** ** DAO (dao.go) *)

(** [.. WHERE user_id = ? AND checkin_day = ? LIMIT 1] *)
Definition find_checkin (userID : N) (day : string) (d : database) : option (N * CheckinRecord) :=
  head (rows_where user_checkins
    (λ _ r, (CkUserID r =? userID)%N && String.eqb (CheckinDay r) day) d).

(** [getByDay]: no row is [nil, nil]. *)
Definition GetByDay (userID : N) (day : string) : DBM (option CheckinRecord) :=
  query (λ d, Ok (snd <$> find_checkin userID day d)).

(** [ORDER BY checkin_day DESC, id DESC LIMIT 1]; DATE columns compare as
    their ISO texts. *)
Definition GetLatest (userID : N) : DBM (option CheckinRecord) :=
  query (λ d, Ok (snd <$> head (sort_by
    (λ p q : N * CheckinRecord,
       negb (String.ltb (CheckinDay p.2) (CheckinDay q.2)) &&
       (negb (String.eqb (CheckinDay p.2) (CheckinDay q.2)) || (q.1 <=? p.1)%N))
    (rows_where user_checkins (λ _ r, (CkUserID r =? userID)%N) d)))).

(** [INSERT INTO user_checkins ..], with its UNIQUE key. *)
Definition insert_checkin (userID : N) (day : string) (checkedAt : Z) (d : database) :
    result (N * database) :=
  match find_checkin userID day d with
  | Some _ => Err (EMySQL 1062)
  | None =>
      let id := auto_id (user_checkins d) in
      Ok (id, with_user_checkins
        <[id := {| CkUserID := userID; CheckinDay := day; CheckedAt := checkedAt;
                   AwardedCredits := 0; CkBalanceAfter := 0; CkRefID := ""; CkRemark := "" |}]> d)
  end.

(** [UPDATE user_checkins SET .. WHERE user_id = ? AND checkin_day = ?] *)
Definition update_checkin (userID : N) (inp : ClaimInput) (balanceAfter : Z) : DBM N :=
  exec (all_update user_checkins with_user_checkins
    (λ r, (CkUserID r =? userID)%N && String.eqb (CheckinDay r) (InDay inp))
    (λ r, {| CkUserID := CkUserID r; CheckinDay := CheckinDay r; CheckedAt := InCheckedAt inp;
             AwardedCredits := InAwardedCredits inp; CkBalanceAfter := balanceAfter;
             CkRefID := InRefID inp; CkRemark := InRemark inp |})).

(** [errors.As] looks through the wrapping. *)
Fixpoint isDuplicateErr (e : goerr) : bool :=
  match e with
  | EMySQL n => n =? 1062
  | EWrap _ e => isDuplicateErr e
  | _ => false
  end.

Section checkin.
Context (AwardCheckinTx : N → Z → string → string → DBM Z).

(** The error of the INSERT is inspected after the rollback ... *)
Definition claim_conflict (userID : N) (inp : ClaimInput) (e : goerr) :
    DBM (option CheckinRecord * bool) :=
  if isDuplicateErr e
  then rec <- GetByDay userID (InDay inp) ;; ret (rec, false)
  else throw e.

(** ... any other error of the body is returned. *)
Definition claim_award (userID : N) (inp : ClaimInput) (_ : N) : DBM (option CheckinRecord * bool) :=
  balanceAfter <- AwardCheckinTx userID (InAwardedCredits inp) (InRefID inp) (InRemark inp) ;;
  update_checkin userID inp balanceAfter ;;
  rec <- GetByDay userID (InDay inp) ;;
  ret (rec, true).

Definition Claim (userID : N) (inp : ClaimInput) : DBM (option CheckinRecord * bool) :=
  runTxOr (exec (insert_checkin userID (InDay inp) (InCheckedAt inp)))
    (claim_conflict userID inp) (claim_award userID inp).

(** ** Service (service.go)

    [setting]: the value of [settings.DailyCheckinCredits]; [now]: the clock
    reading of the request. *)

Section service.
Variables (loc : location) (setting : Z) (now : Z).

Definition rewardCredits : Z := if setting <? 0 then 0 else setting.
Definition formatTime (t : Z) : string :=
  if t =? zero_time then "" else format_datetime loc t.

Definition CheckinStatusOf (userID : N) : DBM CheckinStatus :=
  let today := format_date loc now in
  latest <- GetLatest userID ;;
  let last := match latest with Some r => formatTime (CheckedAt r) | None => "" end in
  todayRec <- GetByDay userID today ;;
  ret match todayRec with
      | Some r => {|
          StEnabled := 0 <? rewardCredits; StToday := today; StCheckedIn := true;
          StTodayRewardCredits := rewardCredits; StCheckedAt := formatTime (CheckedAt r);
          StLastCheckedAt := formatTime (CheckedAt r); StBalanceAfter := CkBalanceAfter r;
          StAwardedCredits := AwardedCredits r |}
      | None => {|
          StEnabled := 0 <? rewardCredits; StToday := today; StCheckedIn := false;
          StTodayRewardCredits := rewardCredits; StCheckedAt := ""; StLastCheckedAt := last;
          StBalanceAfter := 0; StAwardedCredits := 0 |}
      end.

(** A disabled check-in returns the status next to [ErrDisabled]. *)
Definition Checkin (userID : N) : DBM (CheckinStatus * option goerr) :=
  if rewardCredits <=? 0 then
    out <- CheckinStatusOf userID ;; ret (out, Some ErrDisabled)
  else
    let day := format_date loc now in
    '(rec, _) <- Claim userID {| InDay := day; InCheckedAt := now;
                                 InAwardedCredits := rewardCredits;
                                 InRefID := "checkin:" +:+ day; InRemark := "daily checkin" |} ;;
    match rec with
    | None => throw (EMsg "checkin: empty claim result")
    | Some r => ret ({|
        StEnabled := true; StToday := day; StCheckedIn := true;
        StTodayRewardCredits := rewardCredits; StCheckedAt := formatTime (CheckedAt r);
        StLastCheckedAt := formatTime (CheckedAt r); StBalanceAfter := CkBalanceAfter r;
        StAwardedCredits := AwardedCredits r |}, None)
    end.
End service.
End checkin.

(** ** Evaluation *)

#[local] Arguments String.append : simpl never.
#[local] Arguments find_checkin : simpl never.

Lemma find_checkin_Some u day d id r :
  find_checkin u day d = Some (id, r) →
  user_checkins d !! id = Some r ∧ CkUserID r = u ∧ CheckinDay r = day.
Proof.
  intros [H1 H2]%head_rows_where. apply andb_true_iff in H2 as [?%N.eqb_eq ?%String.eqb_eq]. done.
Qed.

Lemma find_checkin_None u day d :
  find_checkin u day d = None ↔
  ∀ id r, user_checkins d !! id = Some r → CkUserID r = u → CheckinDay r ≠ day.
Proof.
  unfold find_checkin. rewrite head_rows_where_None. split; intros H id r Hr; specialize (H id r Hr).
  - intros <- <-. by rewrite N.eqb_refl, String.eqb_refl in H.
  - destruct (N.eqb_spec (CkUserID r) u); [|done]. destruct (String.eqb_spec (CheckinDay r) day); [|done].
    exfalso. by apply H.
Qed.

Definition checkins_unique (d : database) : Prop :=
  ∀ i j r s, user_checkins d !! i = Some r → user_checkins d !! j = Some s →
    CkUserID r = CkUserID s → CheckinDay r = CheckinDay s → i = j.

Lemma find_checkin_unique d id r :
  checkins_unique d → user_checkins d !! id = Some r →
  find_checkin (CkUserID r) (CheckinDay r) d = Some (id, r).
Proof.
  intros Hu Hr. destruct (find_checkin _ _ d) as [[j s]|] eqn:E.
  - apply find_checkin_Some in E as (Hs & H1 & H2). assert (j = id) as -> by by eapply Hu.
    by simplify_eq.
  - exfalso. by eapply find_checkin_None in E.
Qed.

Lemma checkins_unique_insert d id r :
  checkins_unique d → find_checkin (CkUserID r) (CheckinDay r) d = None →
  checkins_unique (with_user_checkins <[id := r]> d).
Proof.
  intros Hu Hn i j x y. cbn. rewrite !lookup_insert_Some. rewrite find_checkin_None in Hn.
  intros [[<- <-]|[? Hx]] [[<- <-]|[? Hy]] H1 H2; cbn in *; [done| | |by eapply Hu].
  - exfalso. by eapply Hn.
  - exfalso. by eapply Hn.
Qed.

Definition claimed (u : N) (inp : ClaimInput) (bal : Z) : CheckinRecord := {|
  CkUserID := u; CheckinDay := InDay inp; CheckedAt := InCheckedAt inp;
  AwardedCredits := InAwardedCredits inp; CkBalanceAfter := bal;
  CkRefID := InRefID inp; CkRemark := InRemark inp |}.

#[export] Instance GetByDay_transparent u day : Transparent (GetByDay u day).
Proof. apply _. Qed.
#[export] Instance GetByDay_atomic u day : Atomic (GetByDay u day).
Proof. apply _. Qed.
#[export] Instance GetLatest_transparent u : Transparent (GetLatest u).
Proof. apply _. Qed.
#[export] Instance GetLatest_atomic u : Atomic (GetLatest u).
Proof. apply _. Qed.
#[export] Instance update_checkin_transparent u inp b : Transparent (update_checkin u inp b).
Proof. apply _. Qed.

Section checkin_lemmas.
Context (AwardCheckinTx : N → Z → string → string → DBM Z) `{!TxCreditor KindCheckin AwardCheckinTx}.

#[global] Instance claim_conflict_transparent u inp e : Transparent (claim_conflict u inp e).
Proof. unfold claim_conflict. apply _. Qed.
#[global] Instance claim_award_transparent u inp n :
  Transparent (claim_award AwardCheckinTx u inp n).
Proof. unfold claim_award. apply _. Qed.
#[global] Instance Claim_transparent u inp : Transparent (Claim AwardCheckinTx u inp).
Proof. unfold Claim. apply runTxOr_transparent; [apply _..|done]. Qed.
#[global] Instance claim_conflict_atomic u inp e : Atomic (claim_conflict u inp e).
Proof. unfold claim_conflict. apply _. Qed.
#[global] Instance Claim_atomic u inp : Atomic (Claim AwardCheckinTx u inp).
Proof. apply runTxOr_atomic. apply _. Qed.

(** The only row the UPDATE of a fresh claim touches is its own. *)
Lemma update_claimed (t : gmap N CheckinRecord) id r u day (f : CheckinRecord → CheckinRecord) :
  (∀ j s, t !! j = Some s → CkUserID s = u → CheckinDay s ≠ day) →
  CkUserID r = u → CheckinDay r = day →
  (λ r, if (CkUserID r =? u)%N && String.eqb (CheckinDay r) day then f r else r) <$> <[id := r]> t =
  <[id := f r]> t.
Proof.
  intros Hn H1 H2. apply map_eq. intros j. rewrite lookup_fmap, !lookup_insert.
  case_decide; cbn.
  - by rewrite H1, H2, N.eqb_refl, String.eqb_refl.
  - destruct (t !! j) as [s|] eqn:Hs; cbn; [|done]. specialize (Hn j s Hs).
    destruct (N.eqb_spec (CkUserID s) u); [|done].
    destruct (String.eqb_spec (CheckinDay s) day); [|done]. exfalso. by apply Hn.
Qed.

(** The state after a fresh claim. *)
Definition post_claim (u : N) (inp : ClaimInput) (w : User) (d : database) : database :=
  let bal := CreditBalance w + InAwardedCredits inp in
  with_user_checkins <[auto_id (user_checkins d) := claimed u inp bal]>
    (log_txs [Build_CreditTx u 0 KindCheckin (InAwardedCredits inp) bal (InRefID inp) (InRemark inp)]
      (with_users <[u := set_wallet bal (CreditFrozen w) w]> d)).

Lemma run_Claim u inp d :
  match find_checkin u (InDay inp) d with
  | Some (_, r) => run (Claim AwardCheckinTx u inp) d = (Ok (Some r, false), d)
  | None =>
      (∃ e, run (Claim AwardCheckinTx u inp) d = (Err e, d) ∧
        ∀ w, users d !! u = Some w → live w = true → 0 < InAwardedCredits inp →
          ¬ in_i64 (CreditBalance w + InAwardedCredits inp)) ∨
      ∃ w, users d !! u = Some w ∧ live w = true ∧ 0 < InAwardedCredits inp ∧
        in_i64 (CreditBalance w + InAwardedCredits inp) ∧
        run (Claim AwardCheckinTx u inp) d =
        (Ok (Some (claimed u inp (CreditBalance w + InAwardedCredits inp)), true), post_claim u inp w d)
  end.
Proof.
  unfold Claim.
  rewrite (run_runTxOr _ _ _), run_exec.
  unfold insert_checkin. destruct (find_checkin u (InDay inp) d) as [[id r]|] eqn:E.
  { unfold claim_conflict. cbn [isDuplicateErr]. rewrite Z.eqb_refl. unfold GetByDay. rewrite (run_bind (query _) _), run_query, E. done. }
  pose proof (proj1 (find_checkin_None _ _ _) E) as Hn.
  unfold claim_award. rewrite (run_bind (AwardCheckinTx _ _ _ _) _).
  destruct (run (AwardCheckinTx _ _ _ _) _) as [[bal|e] d2] eqn:Hr.
  2: { left. exists e. split; [done|]. intros w Hw Hl Ha Hb.
       match type of Hr with run (AwardCheckinTx _ _ ?r ?m) ?dd = _ =>
         pose proof (credit_complete u _ r m dd w Ha Hw Hl Hb) as Hok end. by rewrite Hr in Hok. }
  right. apply credit_ok in Hr as (Ha & w & Hw & Hl & -> & Hb & ->). cbn in Hw.
  exists w. split_and!; [done..|]. unfold update_checkin, GetByDay. db_eval. unfold all_update. cbn.
  match goal with |- context [find_checkin u (InDay inp) ?dd] =>
    assert (dd = post_claim u inp w d) as -> end.
  { unfold post_claim, log_txs, with_user_checkins, with_users, with_credit_transactions. cbn.
    f_equal.
    refine (update_claimed _ _ (Build_CheckinRecord u (InDay inp) (InCheckedAt inp) 0 0 "" "")
      u (InDay inp) (λ r, {| CkUserID := CkUserID r;
      CheckinDay := CheckinDay r; CheckedAt := InCheckedAt inp;
      AwardedCredits := InAwardedCredits inp;
      CkBalanceAfter := CreditBalance w + InAwardedCredits inp;
      CkRefID := InRefID inp; CkRemark := InRemark inp |}) Hn eq_refl eq_refl). }
  assert (user_checkins (post_claim u inp w d) !! auto_id (user_checkins d) =
    Some (claimed u inp (CreditBalance w + InAwardedCredits inp))) as Hrow by apply lookup_insert_eq.
  destruct (find_checkin u (InDay inp) (post_claim u inp w d)) as [[j s]|] eqn:F.
  - apply find_checkin_Some in F as (Hs & H1 & H2). cbn in Hs.
    apply lookup_insert_Some in Hs as [[<- <-]|[_ Hs]]; [done|]. exfalso. by eapply Hn.
  - exfalso. by eapply (proj1 (find_checkin_None _ _ _) F).
Qed.

(** ** What a day has paid *)

(** The journal lines of user [u] for the check-in of [day]. *)
Definition day_paid (u : N) (day : string) (t : CreditTx) : Z :=
  if bool_decide (TxType t = KindCheckin) && bool_decide (TxUserID t = u) &&
     bool_decide (TxRefID t = "checkin:" +:+ day)
  then TxAmount t else 0.

Definition awarded (u : N) (day : string) (d : database) : Z :=
  sumZ (day_paid u day) (credit_transactions d).

(** A row was paid what it says; a day without a row was paid nothing. *)
Record checkin_accounted (d : database) : Prop := {
  ca_unique : checkins_unique d;
  ca_row id r : user_checkins d !! id = Some r →
    awarded (CkUserID r) (CheckinDay r) d = AwardedCredits r;
  ca_none u day : find_checkin u day d = None → awarded u day d = 0
}.

Lemma awarded_log u day u' day' a b m d :
  awarded u day (log_txs [Build_CreditTx u' 0 KindCheckin a b ("checkin:" +:+ day') m] d) =
  awarded u day d + if bool_decide (u' = u ∧ day' = day) then a else 0.
Proof.
  unfold awarded, log_txs, with_credit_transactions. cbn [credit_transactions].
  rewrite sumZ_app. cbn [sumZ]. unfold day_paid at 2. cbn [TxType TxRefID TxAmount TxUserID].
  rewrite (bool_decide_eq_true_2 (KindCheckin = KindCheckin)), andb_true_l, <-bool_decide_and by done.
  assert (u' = u ∧ "checkin:" +:+ day' = "checkin:" +:+ day ↔ u' = u ∧ day' = day) as Hinj.
  { split; [|by intros [-> ->]]. intros [-> H]. injection H as H. by split. }
  rewrite (bool_decide_ext _ _ Hinj). case_bool_decide; lia.
Qed.

Lemma post_claim_accounted u inp w d :
  InRefID inp = "checkin:" +:+ InDay inp → find_checkin u (InDay inp) d = None →
  checkin_accounted d → checkin_accounted (post_claim u inp w d).
Proof.
  intros Href Hn [Hu Hr H0]. pose proof (proj1 (find_checkin_None _ _ _) Hn) as Hn'.
  assert (∀ v day, awarded v day (post_claim u inp w d) =
    awarded v day d + if bool_decide (u = v ∧ InDay inp = day) then InAwardedCredits inp else 0) as Ha.
  { intros v day. unfold post_claim. rewrite Href.
    exact (awarded_log v day u (InDay inp) (InAwardedCredits inp)
             (CreditBalance w + InAwardedCredits inp) (InRemark inp) d). }
  assert (user_checkins (post_claim u inp w d) = <[auto_id (user_checkins d) :=
    claimed u inp (CreditBalance w + InAwardedCredits inp)]> (user_checkins d)) as Hrows by done.
  split.
  - exact (checkins_unique_insert d _ (claimed u inp (CreditBalance w + InAwardedCredits inp)) Hu Hn).
  - intros id r. rewrite Hrows, lookup_insert_Some, Ha.
    intros [[<- <-]|[? Hrow]]; cbn.
    + rewrite (H0 _ _ Hn), bool_decide_eq_true_2 by done. lia.
    + rewrite (Hr _ _ Hrow), bool_decide_eq_false_2; [lia|]. intros [? ?]. by apply (Hn' id r).
  - intros v day Hv. rewrite Ha. pose proof (proj1 (find_checkin_None _ _ _) Hv) as Hv'.
    rewrite H0, bool_decide_eq_false_2; [lia| |].
    + intros [<- <-]. by apply (Hv' (auto_id (user_checkins d)) (claimed u inp (CreditBalance w + InAwardedCredits inp)));
        [apply lookup_insert_eq| |].
    + apply find_checkin_None. intros id r Hrow. apply (Hv' id r). rewrite Hrows.
      rewrite lookup_insert_ne; [done|]. pose proof (auto_id_fresh (user_checkins d)). congruence.
Qed.

(** ** Sequences of requests *)

Record checkin_op := { OpUser : N; OpSetting : Z; OpNow : Z }.

Section sequences.
Variable loc : location.

Definition exec_checkin_op (o : checkin_op) : DBM unit :=
  void (Checkin AwardCheckinTx loc (OpSetting o) (OpNow o) (OpUser o)).

Definition exec_checkin_ops (ops : list checkin_op) (w : world database) : world database :=
  foldl (λ w o, (exec_checkin_op o w).2) w ops.

#[global] Instance CheckinStatusOf_transparent s now u : Transparent (CheckinStatusOf loc s now u).
Proof. unfold CheckinStatusOf. db_transparent. Qed.
#[global] Instance Checkin_transparent s now u : Transparent (Checkin AwardCheckinTx loc s now u).
Proof. unfold Checkin. db_transparent. Qed.

Definition checkin_input (s now : Z) : ClaimInput := {|
  InDay := format_date loc now; InCheckedAt := now; InAwardedCredits := rewardCredits s;
  InRefID := "checkin:" +:+ format_date loc now; InRemark := "daily checkin" |}.

(** The response of an enabled check-in that found or made the row [r]. *)
Definition checked_in (s now : Z) (r : CheckinRecord) : CheckinStatus := {|
  StEnabled := true; StToday := format_date loc now; StCheckedIn := true;
  StTodayRewardCredits := rewardCredits s; StCheckedAt := formatTime loc (CheckedAt r);
  StLastCheckedAt := formatTime loc (CheckedAt r); StBalanceAfter := CkBalanceAfter r;
  StAwardedCredits := AwardedCredits r |}.

Lemma run_Checkin_enabled s now u d :
  0 < s →
  run (Checkin AwardCheckinTx loc s now u) d =
  match run (Claim AwardCheckinTx u (checkin_input s now)) d with
  | (Ok (Some r, _), d') => (Ok (checked_in s now r, None), d')
  | (Ok (None, _), d') => (Err (EMsg "checkin: empty claim result"), d')
  | (Err e, d') => (Err e, d')
  end.
Proof.
  intros Hs. unfold Checkin, rewardCredits. destruct (Z.ltb_spec s 0); [lia|].
  destruct (Z.leb_spec s 0); [lia|].
  rewrite (run_bind (Claim _ _ _) _). unfold checkin_input, checked_in, rewardCredits.
  destruct (Z.ltb_spec s 0); [lia|].
  by destruct (run (Claim _ _ _) d) as [[[[r|] b]|e] d'].
Qed.

#[global] Instance CheckinStatusOf_atomic s now u : Atomic (CheckinStatusOf loc s now u).
Proof.
  intros w e. unfold CheckinStatusOf, bind.
  pose proof (query_keeps (λ d, Ok (snd <$> head (sort_by
    (λ p q : N * CheckinRecord,
       negb (String.ltb (CheckinDay p.2) (CheckinDay q.2)) &&
       (negb (String.eqb (CheckinDay p.2) (CheckinDay q.2)) || (q.1 <=? p.1)%N))
    (rows_where user_checkins (λ _ r, (CkUserID r =? u)%N) d)))) w) as H1.
  unfold GetLatest. destruct (query _ w) as [[l|e1] w1]; cbn in *; [|done].
  pose proof (query_keeps (λ d, Ok (snd <$> find_checkin u (format_date loc now) d)) w1) as H2.
  unfold GetByDay. destruct (query _ w1) as [[l2|e2] w2]; cbn in *; [done|congruence].
Qed.

Lemma Checkin_void_atomic s now u : Atomic (void (Checkin AwardCheckinTx loc s now u)).
Proof.
  apply void_atomic. unfold Checkin. destruct (rewardCredits s <=? 0).
  - apply (bind_ret_atomic _ (λ out, (out, Some ErrDisabled))), _.
  - intros w e. unfold bind.
    pose proof (transparent_run (m:=Claim AwardCheckinTx u (checkin_input s now)) w) as Ht.
    pose proof (atomic (m:=Claim AwardCheckinTx u (checkin_input s now)) w) as Ha.
    pose proof (run_Claim u (checkin_input s now) (w_db w)) as Hc.
    unfold checkin_input in *. cbn [InDay InAwardedCredits] in *.
    destruct (Claim _ _ _ w) as [[[[r|] b]|e'] w']; cbn in *; [done| |by intros; eapply Ha].
    destruct Ht as [Ht|Ht]; [done|]. rewrite Ht in Hc.
    destruct (find_checkin _ _ _) as [[id x]|]; [done|]. destruct Hc as [(? & ? & _)|(? & _ & _ & _ & _ & ?)]; done.
Qed.

Lemma Checkin_accounted s now u d :
  checkin_accounted d → checkin_accounted (run (Checkin AwardCheckinTx loc s now u) d).2.
Proof.
  intros Hd. destruct (Z.leb_spec s 0).
  - unfold Checkin, rewardCredits. destruct (Z.ltb_spec s 0);
      [|destruct (Z.leb_spec s 0); [|lia]]; cbn;
      unfold CheckinStatusOf, GetLatest, GetByDay; by db_eval.
  - rewrite run_Checkin_enabled by done.
    pose proof (run_Claim u (checkin_input s now) d) as Hc.
    destruct (find_checkin _ _ d) as [[id r]|] eqn:E; [by rewrite Hc|].
    destruct Hc as [(e & -> & _)|(w & Hw & Hl & Hp & _ & ->)]; [done|]. cbn.
    by apply post_claim_accounted.
Qed.

(** C35: one award per day.  Under every sequence of check-in requests, at any instants, with any
    reward setting and any failures of the database, a user has at most one
    row per day, and the journal pays for a day what its row says and nothing
    when there is no row. *)
Theorem one_award_per_day ops w :
  checkin_accounted (w_db w) → checkin_accounted (w_db (exec_checkin_ops ops w)).
Proof.
  revert w. induction ops as [|o ops IH]; intros w Hw; [done|]. cbn. apply IH.
  pose proof (Checkin_void_atomic (OpSetting o) (OpNow o) (OpUser o)) as Ha.
  assert (Transparent (exec_checkin_op o)) as Ht by (unfold exec_checkin_op, void; apply _).
  destruct (@atomic_or_run _ _ (exec_checkin_op o) Ht Ha w) as [[_ ->]|Hrun]; [done|].
  apply (f_equal snd) in Hrun. cbn in Hrun. rewrite <-Hrun. unfold exec_checkin_op, void.
  rewrite (run_bind (Checkin _ _ _ _ _) _).
  pose proof (Checkin_accounted (OpSetting o) (OpNow o) (OpUser o) _ Hw) as H.
  by destruct (run (Checkin _ _ _ _ _) _) as [[]].
Qed.

(** Once a check-in of the day has succeeded, every further one of the
    same local day, whatever the reward is by then, changes nothing and
    reports the time, the award and the balance of the first. *)
Theorem second_checkin_idempotent s s' now now' u d st d1 :
  0 < s → 0 < s' → format_date loc now' = format_date loc now →
  run (Checkin AwardCheckinTx loc s now u) d = (Ok (st, None), d1) →
  run (Checkin AwardCheckinTx loc s' now' u) d1 =
    (Ok ({| StEnabled := true; StToday := StToday st; StCheckedIn := true;
            StTodayRewardCredits := rewardCredits s'; StCheckedAt := StCheckedAt st;
            StLastCheckedAt := StLastCheckedAt st; StBalanceAfter := StBalanceAfter st;
            StAwardedCredits := StAwardedCredits st |}, None), d1).
Proof.
  intros Hs Hs' Hday. rewrite !run_Checkin_enabled by done.
  pose proof (run_Claim u (checkin_input s now) d) as Hc.
  assert (∀ r dd, (∃ id, find_checkin u (format_date loc now) dd = Some (id, r)) →
    run (Claim AwardCheckinTx u (checkin_input s' now')) dd = (Ok (Some r, false), dd)) as Hagain.
  { intros r dd [id Hf]. pose proof (run_Claim u (checkin_input s' now') dd) as Hc'.
    cbn [InDay checkin_input] in Hc'. by rewrite Hday, Hf in Hc'. }
  cbn [InDay checkin_input] in Hc. destruct (find_checkin _ _ d) as [[id r]|] eqn:E.
  - rewrite Hc. intros [= <- <-]. rewrite (Hagain r) by eauto. unfold checked_in. by rewrite Hday.
  - destruct Hc as [(e & -> & _)|(w & Hw & Hl & Hp & _ & ->)]; [done|]. intros [= <- <-].
    erewrite Hagain; [unfold checked_in; by rewrite Hday|].
    destruct (find_checkin u (format_date loc now) (post_claim _ _ _ _)) as [[j x]|] eqn:F.
    + exists j. f_equal. f_equal. apply find_checkin_Some in F as (Hx & H1 & H2). cbn in Hx.
      apply lookup_insert_Some in Hx as [[_ <-]|[_ Hx]]; [done|].
      exfalso. by eapply (proj1 (find_checkin_None _ _ _) E).
    + exfalso. eapply (proj1 (find_checkin_None _ _ _) F (auto_id (user_checkins d)));
        [apply lookup_insert_eq|done..].
Qed.

(** What a check-in request does, case by case.  Disabled: the status and
    [ErrDisabled], no change.  A row for today: that row, no change.  No row:
    a live user gets the row, the journal line and exactly the reward on the
    balance, and an unknown, deleted or overflowing account an error and no
    change. *)
Theorem Checkin_contract s now u d :
  (s ≤ 0 → ∃ st, run (Checkin AwardCheckinTx loc s now u) d = (Ok (st, Some ErrDisabled), d) ∧
     StEnabled st = false) ∧
  (∀ id r, 0 < s → find_checkin u (format_date loc now) d = Some (id, r) →
     run (Checkin AwardCheckinTx loc s now u) d = (Ok (checked_in s now r, None), d)) ∧
  (∀ w, 0 < s → find_checkin u (format_date loc now) d = None →
     users d !! u = Some w → live w = true → in_i64 (CreditBalance w + s) →
     run (Checkin AwardCheckinTx loc s now u) d =
     (Ok (checked_in s now (claimed u (checkin_input s now) (CreditBalance w + s)), None),
      post_claim u (checkin_input s now) w d)) ∧
  (0 < s → find_checkin u (format_date loc now) d = None →
     (∀ w, users d !! u = Some w → live w = false ∨ ¬ in_i64 (CreditBalance w + s)) →
     ∃ e, run (Checkin AwardCheckinTx loc s now u) d = (Err e, d)).
Proof.
  assert (0 < s → rewardCredits s = s) as Hrew.
  { intros. unfold rewardCredits. destruct (Z.ltb_spec s 0); lia. }
  pose proof (run_Claim u (checkin_input s now) d) as Hc. cbn [InDay checkin_input] in Hc.
  split_and!.
  - intros Hs. unfold Checkin, rewardCredits, CheckinStatusOf, GetLatest, GetByDay.
    destruct (Z.ltb_spec s 0); [|destruct (Z.leb_spec s 0); [|lia]]; cbn [Z.leb Z.compare].
    all: db_eval; destruct (snd <$> find_checkin _ _ _); eexists; (split; [done|]); cbn.
    all: unfold rewardCredits; destruct (Z.ltb_spec s 0); [done|]; try lia; by apply Z.ltb_ge.
  - intros id r Hs Hf. rewrite Hf in Hc. by rewrite run_Checkin_enabled, Hc.
  - intros w Hs Hf Hw Hl Hb. rewrite Hf in Hc. rewrite run_Checkin_enabled by done.
    cbn in Hc. rewrite (Hrew Hs) in Hc.
    destruct Hc as [(e & _ & Hno)|(w' & Hw' & _ & _ & _ & ->)]; [by apply Hno in Hb|].
    by simplify_eq.
  - intros Hs Hf Hno. rewrite Hf in Hc. rewrite run_Checkin_enabled by done.
    cbn in Hc. rewrite (Hrew Hs) in Hc.
    destruct Hc as [(e & -> & _)|(w & Hw & Hl & _ & Hb & _)]; [by exists e|].
    destruct (Hno w Hw); [congruence|done].
Qed.
End sequences.
End checkin_lemmas.

(** ** Witnesses *)

Definition sample_loc : location := λ _, 28800.
Definition sample_checkins : list checkin_op :=
  [{| OpUser := 7; OpSetting := 5; OpNow := 1700000000 * second |};
   {| OpUser := 7; OpSetting := 6; OpNow := 1700000060 * second |};
   {| OpUser := 7; OpSetting := 0; OpNow := 1700090000 * second |}].

Lemma one_award_per_day_witness :
  checkin_accounted (w_db (exec_checkin_ops AwardCheckinTx sample_loc sample_checkins
    (World (sample_db 10 0) (repeat false 5 ++ [true])))).
Proof.
  apply one_award_per_day; [apply _|].
  split; [by intros ????|by intros ??|by intros ??].
Defined.

Definition first_checkin : CheckinStatus * option goerr :=
  match (run (Checkin AwardCheckinTx sample_loc 5 (1700000000 * second) 7) (sample_db 10 0)).1 with
  | Ok p => p
  | Err e => (Build_CheckinStatus false "" false 0 "" "" 0 0, Some e)
  end.

Lemma second_checkin_idempotent_witness :
  run (Checkin AwardCheckinTx sample_loc 6 (1700003600 * second) 7)
    (run (Checkin AwardCheckinTx sample_loc 5 (1700000000 * second) 7) (sample_db 10 0)).2 =
  (Ok ({| StEnabled := true; StToday := "2023-11-15"; StCheckedIn := true;
          StTodayRewardCredits := 6; StCheckedAt := "2023-11-15 06:13:20";
          StLastCheckedAt := "2023-11-15 06:13:20"; StBalanceAfter := 15;
          StAwardedCredits := 5 |}, None),
   (run (Checkin AwardCheckinTx sample_loc 5 (1700000000 * second) 7) (sample_db 10 0)).2).
Proof.
  assert (run (Checkin AwardCheckinTx sample_loc 5 (1700000000 * second) 7) (sample_db 10 0) =
    (Ok (first_checkin.1, None), (run (Checkin AwardCheckinTx sample_loc 5 (1700000000 * second) 7) (sample_db 10 0)).2))
    as H by by vm_compute.
  by apply (second_checkin_idempotent AwardCheckinTx sample_loc 5 6 (1700000000 * second)
    (1700003600 * second) 7 _ _ _ ltac:(lia) ltac:(lia) ltac:(by vm_compute) H).
Defined.

Lemma Checkin_contract_witness :
  run (Checkin AwardCheckinTx sample_loc 5 (1700000000 * second) 7) (sample_db 10 0) =
  (Ok (checked_in sample_loc 5 (1700000000 * second)
         (claimed 7 (checkin_input sample_loc 5 (1700000000 * second)) 15), None),
   post_claim 7 (checkin_input sample_loc 5 (1700000000 * second)) (sample_user 10 0) (sample_db 10 0)).
Proof.
  pose proof (Checkin_contract AwardCheckinTx sample_loc 5 (1700000000 * second) 7 (sample_db 10 0))
    as (_ & _ & H & _).
  apply (H (sample_user 10 0)); by vm_compute.
Defined.
