(* ===== verification/Pricing.v ===== *)
(** * Prices (internal/billing/pricing.go)

    What a chat call and an image cost, from the model's prices, the number
    of tokens or images and the group's ratio.  [int] and [int64] are 64 bits
    wide and wrap around; the ratio is applied in [float64]. *)

From S2P Require Import Prelude GoStrings Float Sql Schema.
From Stdlib Require Import Lqa.
#[global] Open Scope Z_scope.

Definition imageQualityBySize : list (string * string) := [
  ("1024x1024", "1K"); ("2048x2048", "2K"); ("2880x2880", "4K");
  ("1040x832", "1K"); ("2080x1664", "2K"); ("3200x2560", "4K");
  ("720x1280", "1K"); ("1152x2048", "2K"); ("2160x3840", "4K");
  ("1280x720", "1K"); ("2048x1152", "2K"); ("3840x2160", "4K");
  ("1024x768", "1K"); ("2048x1536", "2K"); ("3264x2448", "4K");
  ("1008x672", "1K"); ("2016x1344", "2K"); ("3504x2336", "4K");
  ("832x1040", "1K"); ("1664x2080", "2K"); ("2560x3200", "4K");
  ("768x1024", "1K"); ("1536x2048", "2K"); ("2448x3264", "4K");
  ("672x1008", "1K"); ("1344x2016", "2K"); ("2336x3504", "4K");
  ("1344x576", "1K"); ("2016x864", "2K"); ("3696x1584", "4K")].

Definition assoc {A} (k : string) (l : list (string * A)) : option A :=
  snd <$> head (filter (λ p, p.1 = k) l).

Definition imageArea1K : Z := 1024 * 1024.
Definition imageArea2K : Z := 2048 * 2048.
Definition imageArea4K : Z := 2880 * 2880.

Definition parseImageSize (size : string) : option Z :=
  match Split (TrimSpace (ToLower size)) "x" with
  | [a; b] =>
      match Atoi (TrimSpace a) with
      | Some width =>
          if width <=? 0 then None else
          match Atoi (TrimSpace b) with
          | Some height => if height <=? 0 then None else Some (wrap64 (width * height))
          | None => None
          end
      | None => None
      end
  | _ => None
  end.

Definition effective_ratio (ratio : Q) : Q := if Qle_bool ratio 0 then 1 else ratio.

(** [int64(tokens) * price / 1_000_000]: the product wraps, the quotient is
    truncated. *)
Definition token_price (tokens price : Z) : Z := Z.quot (wrap64 (tokens * price)) 1000000.

Definition ComputeChatCost (m : option Model) (promptTokens completionTokens : Z) (ratio : Q) : Z :=
  match m with
  | None => 0
  | Some m =>
      let in_ := token_price promptTokens (InputPricePer1M m) in
      let out := token_price completionTokens (OutputPricePer1M m) in
      let total := fmul (of_int (wrap64 (in_ + out))) (effective_ratio ratio) in
      to_int (fadd total (1 # 2))
  end.

Definition ResolveImageQualityBySize (size : string) : string :=
  let normalized := ToLower (TrimSpace size) in
  match assoc normalized imageQualityBySize with
  | Some q => q
  | None =>
      match parseImageSize normalized with
      | None => "1K"
      | Some area =>
          if area <? Z.quot (imageArea1K + imageArea2K) 2 then "1K"
          else if area <? Z.quot (imageArea2K + imageArea4K) 2 then "2K"
          else "4K"
      end
  end.

Definition ResolveImageUnitPrice (m : option Model) (size : string) : Z :=
  match m with
  | None => 0
  | Some m =>
      let q := ResolveImageQualityBySize size in
      if String.eqb q "2K" && (0 <? ImagePricePerCall2K m) then ImagePricePerCall2K m
      else if String.eqb q "4K" && (0 <? ImagePricePerCall4K m) then ImagePricePerCall4K m
      else ImagePricePerCall m
  end.

Definition ComputeImageCost (m : option Model) (n : Z) (ratio : Q) (size : string) : Z :=
  match m with
  | None => 0
  | Some _ =>
      let n := if n <=? 0 then 1 else n in
      let unitPrice := ResolveImageUnitPrice m size in
      to_int (fadd (fmul (of_int (wrap64 (unitPrice * n))) (effective_ratio ratio)) (1 # 2))
  end.

Definition EstimateChat (m : option Model) (promptTokens maxTokens : Z) (ratio : Q) : Z :=
  let out := if maxTokens <=? 0 then 2048 else maxTokens in
  ComputeChatCost m promptTokens out ratio.

Example sample_model : Model := {|
  Slug := "gpt-5"; ModelType := "chat"; UpstreamModelSlug := "gpt-5";
  InputPricePer1M := 25000; OutputPricePer1M := 100000; CacheReadPricePer1M := 0; ImagePricePerCall := 400;
  ImagePricePerCall2K := 800; ImagePricePerCall4K := 0; SupportsMultiImage := true; SupportsOutputSize := true;
  Description := ""; ModelEnabled := true; ModelDeletedAt := None |}.

Example chat_cost_sample : ComputeChatCost (Some sample_model) 1000 2000 (3 # 2) = 338.
Proof. by vm_compute. Qed.
Example image_cost_sample :
  ComputeImageCost (Some sample_model) 2 1 " 2048X2048 " = 1600 ∧
  ComputeImageCost (Some sample_model) 1 1 "4000x4000" = 400.
Proof. by vm_compute. Qed.

(** ** The pre-deduction covers the charge *)

(** Tokens and prices for which no [int64] overflows and the amount stays
    far from the bounds. *)
Record priced (m : Model) (prompt completion : Z) (ratio : Q) : Prop := {
  pr_prompt : 0 ≤ prompt; pr_completion : 0 ≤ completion;
  pr_in : 0 ≤ InputPricePer1M m; pr_out : 0 ≤ OutputPricePer1M m;
  pr_bound_in : prompt * InputPricePer1M m ≤ i64_max;
  pr_bound_out : completion * OutputPricePer1M m ≤ i64_max
}.

(** The undiscounted amount. *)
Definition list_price (m : Model) (prompt completion : Z) : Z :=
  prompt * InputPricePer1M m / 1000000 + completion * OutputPricePer1M m / 1000000.

Lemma token_price_exact t p : 0 ≤ t → 0 ≤ p → t * p ≤ i64_max → token_price t p = t * p / 1000000.
Proof.
  intros. unfold token_price. rewrite wrap64_id by (unfold i64_max in *; i64_lia).
  apply Z.quot_div_nonneg; nia.
Qed.

Lemma list_price_range m p c r : priced m p c r → 0 ≤ list_price m p c ≤ i64_max.
Proof.
  intros []. unfold list_price.
  pose proof (Z.div_pos (p * InputPricePer1M m) 1000000 ltac:(nia) ltac:(lia)).
  pose proof (Z.div_pos (c * OutputPricePer1M m) 1000000 ltac:(nia) ltac:(lia)).
  pose proof (Z.div_le_mono _ _ 1000000 ltac:(lia) pr_bound_in0).
  pose proof (Z.div_le_mono _ _ 1000000 ltac:(lia) pr_bound_out0).
  change (i64_max / 1000000) with 9223372036854 in *. unfold i64_max. lia.
Qed.

Lemma ComputeChatCost_priced m p c r :
  priced m p c r →
  ComputeChatCost (Some m) p c r =
  to_int (fadd (fmul (of_int (list_price m p c)) (effective_ratio r)) (1 # 2)).
Proof.
  intros H. pose proof (list_price_range _ _ _ _ H). destruct H. unfold ComputeChatCost.
  rewrite !token_price_exact by done. fold (list_price m p c).
  by rewrite wrap64_id by (unfold i64_max in *; i64_lia).
Qed.

Lemma effective_ratio_pos r : (0 < effective_ratio r)%Q.
Proof.
  unfold effective_ratio. destruct (Qle_bool r 0) eqn:E; [done|].
  apply Qnot_le_lt. intros H. apply Qle_bool_iff in H. congruence.
Qed.

(** Below 2^61 the amount does not reach the end of [int64]. *)
Lemma amount_range s r :
  0 ≤ s → (0 <= r)%Q → (inject_Z s * r <= inject_Z (2 ^ 61))%Q →
  (0 <= fmul (of_int s) r /\ 0 <= fadd (fmul (of_int s) r) (1 # 2) /\
   fadd (fmul (of_int s) r) (1 # 2) < inject_Z (2 ^ 63))%Q.
Proof.
  intros Hs Hr Hb. destruct (of_int_near s Hs) as [H1 H2].
  destruct (inject_Z_bounds s s) as [Hs0 _]; [lia|].
  assert (0 <= of_int s)%Q by (unfold ulp in *; lra).
  assert (0 <= of_int s * r)%Q as Hp by (by apply Qmult_le_0_compat).
  assert (of_int s * r <= inject_Z (2 ^ 62))%Q as Hp2.
  { apply Qle_trans with ((1 + ulp) * inject_Z s * r)%Q; [by apply Qmult_le_compat_r|].
    change (inject_Z (2 ^ 62)) with (2 * inject_Z (2 ^ 61))%Q. rewrite <-Qmult_assoc.
    assert (0 <= inject_Z s * r)%Q by (by apply Qmult_le_0_compat). unfold ulp. lra. }
  assert (0 <= fmul (of_int s) r)%Q as Hm by (by apply (rnd_mono 0)).
  assert (fmul (of_int s) r <= inject_Z (2 ^ 62))%Q as Hm2 by (by apply (rnd_mono _ (inject_Z (2 ^ 62)))).
  split_and!; [done|apply (rnd_mono 0); lra|].
  apply Qle_lt_trans with (rnd (inject_Z (2 ^ 62 + 1))); [|by vm_compute].
  apply rnd_mono; [lra|]. rewrite inject_Z_plus. change (inject_Z 1) with 1%Q. lra.
Qed.

Lemma cost_mono s s' r :
  0 ≤ s ≤ s' → (0 <= r)%Q → (inject_Z s' * r <= inject_Z (2 ^ 61))%Q →
  to_int (fadd (fmul (of_int s) r) (1 # 2)) ≤ to_int (fadd (fmul (of_int s') r) (1 # 2)).
Proof.
  intros Hs Hr Hb. destruct (amount_range s' r) as (_ & _ & Hhi); [lia|done..|].
  destruct (inject_Z_bounds s s') as [Hi0 Hi]; [lia|].
  assert (of_int s <= of_int s')%Q as Ho by (by apply rnd_mono).
  assert (0 <= of_int s)%Q as Ho0 by (by apply (rnd_mono 0)).
  assert (fmul (of_int s) r <= fmul (of_int s') r)%Q as Hm.
  { apply rnd_mono; [by apply Qmult_le_0_compat|by apply Qmult_le_compat_r]. }
  assert (0 <= fmul (of_int s) r)%Q as Hm0.
  { apply (rnd_mono 0); [done|by apply Qmult_le_0_compat]. }
  apply to_int_mono; [|by apply rnd_mono; lra|done].
  apply (rnd_mono 0); [done|lra].
Qed.

(** The pre-deduction of a chat call covers its charge: when the prompt
    is no longer than estimated and the completion within [max_tokens] (2048
    when the request sets none), the cost is at most [EstimateChat]. *)
Theorem EstimateChat_covers m p c p' maxTokens r :
  let out := if maxTokens <=? 0 then 2048 else maxTokens in
  priced m p' out r →
  (inject_Z (list_price m p' out) * effective_ratio r <= inject_Z (2 ^ 61))%Q →
  0 ≤ p ≤ p' → 0 ≤ c ≤ out →
  ComputeChatCost (Some m) p c r ≤ EstimateChat (Some m) p' maxTokens r.
Proof.
  intros out Hp Hb Hpp Hc. unfold EstimateChat. fold out.
  pose proof Hp as []. assert (priced m p c r) as Hp1 by (split; [lia|lia|done|done|nia|nia]).
  rewrite !ComputeChatCost_priced by done.
  pose proof (effective_ratio_pos r). pose proof (list_price_range _ _ _ _ Hp1).
  apply cost_mono; [|lra|done]. split; [lia|]. unfold list_price.
  apply Z.add_le_mono; apply Z.div_le_mono; nia.
Qed.

(** A chat call costs its list price times the ratio (1 when the ratio is
    not positive) to within one credit, and exactly the list price at ratio 1. *)
Theorem ComputeChatCost_near m p c r :
  priced m p c r → (1 # 1000000 <= effective_ratio r)%Q →
  (inject_Z (list_price m p c) * effective_ratio r <= inject_Z (2 ^ 49))%Q →
  (inject_Z (list_price m p c) * effective_ratio r - 1 < inject_Z (ComputeChatCost (Some m) p c r) /\
   inject_Z (ComputeChatCost (Some m) p c r) < inject_Z (list_price m p c) * effective_ratio r + 1)%Q ∧
  (effective_ratio r = 1%Q → ComputeChatCost (Some m) p c r = list_price m p c).
Proof.
  intros Hp Hr Hb. rewrite ComputeChatCost_priced by done.
  pose proof (list_price_range _ _ _ _ Hp) as Hs. revert Hs Hr Hb.
  generalize (list_price m p c), (effective_ratio r). intros s e Hs Hr Hb.
  destruct (of_int_near s) as [H1 H2]; [lia|].
  destruct (inject_Z_bounds s s) as [Hs0 _]; [lia|].
  assert (0 < e)%Q as He by (apply Qlt_le_trans with (1 # 1000000)%Q; done).
  change (inject_Z (2 ^ 49)) with 562949953421312%Q in Hb.
  assert (0 <= inject_Z s * e)%Q as Hse by (apply Qmult_le_0_compat; lra).
  assert ((1 - ulp) * (inject_Z s * e) <= of_int s * e /\ of_int s * e <= (1 + ulp) * (inject_Z s * e))%Q
    as [G1 G2].
  { split; rewrite Qmult_assoc; apply Qmult_le_compat_r; lra. }
  destruct (rnd_near (of_int s * e)) as (_ & F1 & F2).
  { destruct (decide (s = 0)) as [->|Hne]; [left; by vm_compute|right].
    assert (1 <= inject_Z s)%Q by (unfold Qle, inject_Z; cbn; lia).
    assert (1 * e <= inject_Z s * e)%Q by (apply Qmult_le_compat_r; lra).
    assert ((1 # 2 ^ 100) <= (1 # 2000000))%Q by done. unfold ulp in *. lra. }
  fold (fmul (of_int s) e) in F1, F2. unfold ulp in *. split.
  - destruct (amount_range s e) as (_ & K1 & K2);
      [lia|lra|change (inject_Z (2 ^ 61)) with 2305843009213693952%Q; lra|].
    destruct (to_int_bounds _ K1 K2) as (_ & L1 & L2). unfold fadd in *.
    destruct (rnd_near (fmul (of_int s) e + (1 # 2))) as (_ & E1 & E2).
    { right. assert ((1 # 2 ^ 100) <= (1 # 4))%Q by done. lra. }
    unfold ulp in *. split; lra.
  - intros ->. apply to_int_half_up; [|split; lra]. split; [lia|].
    assert (inject_Z s <= inject_Z (2 ^ 49))%Q as Hq
      by (change (inject_Z (2 ^ 49)) with 562949953421312%Q; lra).
    rewrite <-Zle_Qle in Hq. etrans; [exact Hq|]. done.
Qed.

(** ** Images *)

(** The tier of a size that is not in the table. *)
Definition band (area : Z) : string :=
  if area <? 2621440 then "1K" else if area <? 6244352 then "2K" else "4K".

Lemma ResolveImageQualityBySize_cases size :
  (∃ q, assoc (ToLower (TrimSpace size)) imageQualityBySize = Some q ∧
        ResolveImageQualityBySize size = q ∧ q ∈ ["1K"; "2K"; "4K"]) ∨
  (assoc (ToLower (TrimSpace size)) imageQualityBySize = None ∧
   ResolveImageQualityBySize size =
     match parseImageSize (ToLower (TrimSpace size)) with Some a => band a | None => "1K" end).
Proof.
  unfold ResolveImageQualityBySize. destruct (assoc _ _) as [q|] eqn:E; [left|by right].
  exists q. split_and!; [done|done|]. unfold assoc in E. apply fmap_Some in E as ([k v] & Hh & ->).
  assert ((k, v) ∈ imageQualityBySize) as Hin.
  { eapply list_elem_of_filter. apply head_Some_elem_of in Hh. exact Hh. }
  assert (Forall (λ p : string * string, p.2 ∈ ["1K"; "2K"; "4K"]) imageQualityBySize) as Hf.
  { apply (bool_decide_unpack _). by vm_compute. }
  rewrite Forall_forall in Hf. exact (Hf _ Hin).
Qed.

(** The price of one image in a tier. *)
Definition tier_price (m : Model) (q : string) : Z :=
  if String.eqb q "2K" && (0 <? ImagePricePerCall2K m) then ImagePricePerCall2K m
  else if String.eqb q "4K" && (0 <? ImagePricePerCall4K m) then ImagePricePerCall4K m
  else ImagePricePerCall m.

(** [n] images (at least one) at ratio 1 cost [n] times the price of
    their tier, exactly; a tier is the table's, or the band of the parsed
    area, or "1K"; a tier without a price costs the base price. *)
Theorem ComputeImageCost_tiers m n r size :
  effective_ratio r = 1%Q →
  0 ≤ tier_price m (ResolveImageQualityBySize size) * Z.max 1 n ≤ 2 ^ 49 →
  ComputeImageCost (Some m) n r size = tier_price m (ResolveImageQualityBySize size) * Z.max 1 n ∧
  match assoc (ToLower (TrimSpace size)) imageQualityBySize with
  | Some q => ResolveImageQualityBySize size = q ∧ q ∈ ["1K"; "2K"; "4K"]
  | None => ResolveImageQualityBySize size =
      match parseImageSize (ToLower (TrimSpace size)) with Some a => band a | None => "1K" end
  end.
Proof.
  intros Hr Hb. split.
  - unfold ComputeImageCost, ResolveImageUnitPrice. fold (tier_price m (ResolveImageQualityBySize size)).
    rewrite Hr.
    assert ((if n <=? 0 then 1 else n) = Z.max 1 n) as -> by (destruct (Z.leb_spec n 0); lia).
    revert Hb. generalize (tier_price m (ResolveImageQualityBySize size) * Z.max 1 n). intros s Hb.
    change (2 ^ 49) with 562949953421312 in Hb.
    rewrite wrap64_id by i64_lia. apply to_int_half_up; [lia|].
    destruct (of_int_near s) as [H1 H2]; [lia|].
    destruct (inject_Z_bounds s 562949953421312) as [B1 B2]; [lia|].
    change (inject_Z 562949953421312) with 562949953421312%Q in B2.
    destruct (rnd_near (of_int s * 1)) as (_ & F1 & F2).
    { destruct (decide (s = 0)) as [->|Hne]; [left; by vm_compute|right].
      assert (1 <= inject_Z s)%Q by (unfold Qle, inject_Z; cbn; lia).
      assert ((1 # 2 ^ 100) <= (1 # 2))%Q by done. unfold ulp in *. lra. }
    unfold fmul, ulp in *. split; lra.
  - by destruct (ResolveImageQualityBySize_cases size) as [(q & -> & ? & ?)|[-> ->]].
Qed.

(** ** Witnesses *)

Lemma EstimateChat_covers_witness :
  ComputeChatCost (Some sample_model) 90 700 (3 # 2) ≤ EstimateChat (Some sample_model) 100 0 (3 # 2).
Proof.
  apply (EstimateChat_covers sample_model 90 700 100 0 (3 # 2)); [|by vm_compute|lia|cbn; lia].
  split; cbn; by vm_compute.
Defined.

Lemma ComputeChatCost_near_witness :
  ComputeChatCost (Some sample_model) 1000000 20000 0 = 27000.
Proof.
  destruct (ComputeChatCost_near sample_model 1000000 20000 0) as [_ H];
    [split; by vm_compute|by vm_compute|by vm_compute|]. by rewrite H.
Defined.

Lemma ComputeImageCost_tiers_witness :
  ComputeImageCost (Some sample_model) 3 1 "2048x2048" = 2400.
Proof.
  destruct (ComputeImageCost_tiers sample_model 3 1 "2048x2048") as [H _]; [done|by vm_compute|].
  rewrite H. by vm_compute.
Defined.
