(* ===== verification/Epay.v ===== *)
(** * The payment gateway protocol (pkg/epay)

    Signing and checking the parameters exchanged with the gateway.  MD5 is
    a parameter: the theorems hold for every digest function. *)

From S2P Require Import Prelude GoStrings Float.

Definition ErrInvalidSign : goerr := Sentinel "epay: invalid sign".

Abbreviation params := (gmap string string).
(** [url.Values] *)
Abbreviation values := (gmap string (list string)).

Definition get (p : params) (k : string) : string := default "" (p !! k).

(** [form.Get(k)]: the first value, or the empty string. *)
Definition Get (form : values) (k : string) : string :=
  match form !! k with Some (v :: _) => v | _ => "" end.

Record Signer := { PID : string; Key : string; SignType : string }.

Definition NewSigner (pid key signType : string) : Signer := {|
  PID := pid; Key := key;
  SignType := if String.eqb signType "" then "MD5" else signType |}.

Record NotifyPayload := {
  PlOutTradeNo : string;
  PlTradeNo : string;
  TradeStatus : string;
  PlName : string;
  PlMoney : string;
  PlType : string;
  Raw : params
}.

(** ** Signatures *)

Definition is_signed (k v : string) : bool :=
  negb (String.eqb k "sign" || String.eqb k "sign_type") && negb (String.eqb v "").

(** The parameters the loop keeps. *)
Definition signed (p : params) : params := filter (λ kv, is_signed kv.1 kv.2 = true) p.

(** [sort.Strings] of their keys. *)
Definition sorted_keys (p : params) : list string := sort_by String.leb (map fst (map_to_list (signed p))).

Definition pair_text (p : params) (k : string) : string := k +:+ "=" +:+ get p k.

(** The text under the digest, without the key that ends it. *)
Definition sign_text (p : params) : string := Join (map (pair_text p) (sorted_keys p)) "&".

Section digest.
Variable md5hex : string → string.

Definition Sign (s : Signer) (p : params) : string := md5hex (sign_text p +:+ Key s).

Definition Verify (s : Signer) (p : params) (got : string) : bool :=
  if String.eqb got "" then false else EqualFold (Sign s p) got.

(** ** The payment link *)

(** [url.QueryEscape] *)
Definition unreserved (c : ascii) : bool :=
  is_upper c || is_lower c || is_digit c || bool_decide (c ∈ ["-"; "_"; "."; "~"]%char).
Definition upper_hex (n : N) : ascii := upper (hex_digit n).
Definition QueryEscape (s : string) : string :=
  of_bytes (flat_map (λ c,
    if unreserved c then [c] else if Ascii.eqb c " " then ["+"%char]
    else ["%"%char; upper_hex (code c / 16); upper_hex (code c mod 16)]) (bytes s)).

(** [url.Values.Encode] *)
Definition Encode (q : values) : string :=
  Join (flat_map (λ k, map (λ v, QueryEscape k +:+ "=" +:+ QueryEscape v) (default [] (q !! k)))
         (sort_by String.leb (map fst (map_to_list q)))) "&".
(** [q.Set(k, v)] for every pair of a map. *)
Definition values_of (p : params) : values := (λ v, [v]) <$> p.

(** [for k, v := range extra { if .. { p[k] = v } }] *)
Definition add_extra (extra p : params) : params :=
  signed extra ∪ p.

Definition pay_params (s : Signer) (outTradeNo name : string) (priceCNYFen : Z)
    (notifyURL returnURL : string) (extra : params) : params :=
  let money := format_fixed2 (fdiv (of_int priceCNYFen) 100) in
  let p := list_to_map [("pid", PID s); ("out_trade_no", outTradeNo); ("name", name);
                        ("money", money); ("notify_url", notifyURL);
                        ("return_url", returnURL); ("sign_type", SignType s)] in
  let p := add_extra extra p in
  <["sign" := Sign s p]> p.

(** [parse_url] is [url.Parse]: the text before the query, the query and the
    fragment. *)
Variable parse_url : string → result (string * values * string).

Definition BuildPayURL (s : Signer) (gatewayURL outTradeNo name : string) (priceCNYFen : Z)
    (notifyURL returnURL : string) (extra : params) : result string :=
  if String.eqb gatewayURL "" then Err (EMsg "epay: gateway url empty") else
  let p := pay_params s outTradeNo name priceCNYFen notifyURL returnURL extra in
  u <-? parse_url gatewayURL ;;
  let '(base, q, fragment) := u in
  Ok (base +:+ "?" +:+ Encode (values_of p ∪ q) +:+ fragment).

(** ** Notifications *)

Definition ParseNotify (s : Signer) (form : values) : result NotifyPayload :=
  let p : params := map_imap (λ k _, Some (Get form k)) form in
  let sign := get p "sign" in
  if negb (Verify s p sign) then Err ErrInvalidSign
  else Ok {| PlOutTradeNo := get p "out_trade_no"; PlTradeNo := get p "trade_no";
             TradeStatus := get p "trade_status"; PlName := get p "name";
             PlMoney := get p "money"; PlType := get p "type"; Raw := p |}.
End digest.

(** ** Joining and splitting *)

Definition free_of (c : ascii) (s : string) : Prop := Forall (λ a, a ≠ c) (bytes s).

Lemma split_bytes_app sep acc l r :
  Forall (λ a, a ≠ sep) l →
  split_bytes sep acc (l ++ sep :: r) = of_bytes (rev acc ++ l) :: split_bytes sep [] r.
Proof.
  intros Hl. revert acc. induction Hl as [|a l Ha Hl IH]; intros acc; cbn.
  - by rewrite Ascii.eqb_refl, app_nil_r.
  - destruct (Ascii.eqb_spec a sep); [done|]. rewrite IH. cbn. by rewrite <-app_assoc.
Qed.

Lemma split_bytes_end sep acc l :
  Forall (λ a, a ≠ sep) l → split_bytes sep acc l = [of_bytes (rev acc ++ l)].
Proof.
  intros Hl. revert acc. induction Hl as [|a l Ha Hl IH]; intros acc; cbn.
  - by rewrite app_nil_r.
  - destruct (Ascii.eqb_spec a sep); [done|]. rewrite IH. cbn. by rewrite <-app_assoc.
Qed.

(** [strings.Split] undoes [strings.Join] on pieces free of the separator. *)
Lemma Split_Join sep l :
  l ≠ [] → Forall (free_of sep) l → Split (Join l (String sep "")) sep = l.
Proof.
  intros Hne Hl. induction Hl as [|s l Hs Hl IH]; [done|]. unfold Split in *.
  destruct l as [|t l].
  - cbn [Join]. rewrite split_bytes_end by done. cbn. by rewrite of_bytes_bytes.
  - change (Join (s :: t :: l) (String sep "")) with (s +:+ String sep "" +:+ Join (t :: l) (String sep "")).
    rewrite !bytes_app. cbn [bytes app]. change (bytes (String sep "")) with [sep]. cbn [app].
    rewrite split_bytes_app by done. rewrite IH by done. cbn. by rewrite of_bytes_bytes.
Qed.

(** Text up to the first [c]. *)
Lemma app_free_inj c (l l' r r' : list ascii) :
  Forall (λ a, a ≠ c) l → Forall (λ a, a ≠ c) l' → l ++ c :: r = l' ++ c :: r' → l = l' ∧ r = r'.
Proof.
  intros Hl. revert l'. induction Hl as [|a l Ha Hl IH]; intros l' Hl' E.
  - destruct Hl' as [|b l' Hb]; cbn in E; [by simplify_eq|]. by injection E as ->.
  - destruct Hl' as [|b l' Hb Hl']; cbn in E; [by injection E as ->|].
    injection E as -> E. by destruct (IH _ Hl' E) as [-> ->].
Qed.

(** ** What a signature covers *)

(** Keys and values that cannot be confused with the separators. *)
Definition unambiguous (p : params) : Prop :=
  map_Forall (λ k v, free_of "=" k ∧ free_of "&" k ∧ free_of "&" v) p.

Lemma elem_of_sorted_keys p k : k ∈ sorted_keys p ↔ is_Some (signed p !! k).
Proof.
  unfold sorted_keys. rewrite elem_of_sort_by, list_elem_of_fmap. split.
  - intros ([k' v] & -> & H%elem_of_map_to_list). by exists v.
  - intros [v H]. exists (k, v). split; [done|by apply elem_of_map_to_list].
Qed.

Lemma signed_lookup p k v : signed p !! k = Some v → get p k = v ∧ p !! k = Some v.
Proof. intros [H _]%map_lookup_filter_Some. unfold get. by rewrite H. Qed.

Lemma pair_text_free p k :
  unambiguous (signed p) → k ∈ sorted_keys p → free_of "&" (pair_text p k) ∧ free_of "=" k.
Proof.
  intros Hu [v Hv]%elem_of_sorted_keys. destruct (Hu k v Hv) as (H1 & H2 & H3).
  apply signed_lookup in Hv as [Hg _]. split; [|done]. unfold free_of, pair_text.
  rewrite !bytes_app, Hg, !Forall_app. split_and!; [done|by repeat constructor|done].
Qed.

Lemma pair_text_inj p q k k' :
  free_of "=" k → free_of "=" k' → pair_text p k = pair_text q k' → k = k' ∧ get p k = get q k'.
Proof.
  intros H H' E%(f_equal bytes). unfold pair_text in E. rewrite !bytes_app in E. cbn in E.
  apply app_free_inj in E as [Hk Hv]; [|done..]. split; by apply bytes_inj.
Qed.

Lemma Join_pairs_inj p q :
  unambiguous (signed p) → unambiguous (signed q) → sign_text p = sign_text q →
  map (pair_text p) (sorted_keys p) = map (pair_text q) (sorted_keys q).
Proof.
  intros Hp Hq E.
  assert (∀ r, unambiguous (signed r) → map (pair_text r) (sorted_keys r) ≠ [] →
    Split (sign_text r) "&" = map (pair_text r) (sorted_keys r)) as Hs.
  { intros r Hr Hne. apply Split_Join; [done|]. apply Forall_fmap, Forall_forall. intros k Hk.
    by apply pair_text_free. }
  assert (∀ r, sorted_keys r ≠ [] → sign_text r ≠ "") as Hnon.
  { intros r Hne H. apply (f_equal bytes) in H. unfold sign_text in H.
    destruct (sorted_keys r) as [|k l]; [done|]. cbn [map Join] in H.
    destruct (map (pair_text r) l); unfold pair_text in H; rewrite !bytes_app in H;
      by destruct (bytes k). }
  destruct (decide (sorted_keys p = [])) as [Ep|Ep], (decide (sorted_keys q = [])) as [Eq|Eq].
  - by rewrite Ep, Eq.
  - exfalso. apply (Hnon q Eq). rewrite <-E. unfold sign_text. by rewrite Ep.
  - exfalso. apply (Hnon p Ep). rewrite E. unfold sign_text. by rewrite Eq.
  - rewrite <-(Hs p), <-(Hs q); [by rewrite E|done| |done|].
    + by destruct (sorted_keys q).
    + by destruct (sorted_keys p).
Qed.

Lemma pairs_agree p q l l' k :
  Forall (free_of "=") l → Forall (free_of "=") l' → map (pair_text p) l = map (pair_text q) l' →
  l = l' ∧ (k ∈ l → get p k = get q k).
Proof.
  intros Hl. revert l'. induction Hl as [|a l Ha Hl IH]; intros l' Hl' E; destruct Hl' as [|b l' Hb Hl']; try done.
  - split; [done|]. by intros ?%elem_of_nil.
  - injection E as E1 E2. destruct (pair_text_inj _ _ _ _ Ha Hb E1) as [-> Hv].
    destruct (IH _ Hl' E2) as [-> Hk]. split; [done|]. intros [->|?]%elem_of_cons; auto.
Qed.

(** The text under the digest determines every signed parameter. *)
Lemma sign_text_injective s p q :
  unambiguous (signed p) → unambiguous (signed q) →
  sign_text p +:+ Key s = sign_text q +:+ Key s → signed p = signed q.
Proof.
  intros Hp Hq E%(f_equal bytes). rewrite !bytes_app in E. apply app_inv_tail, bytes_inj in E.
  apply Join_pairs_inj in E; [|done..].
  assert (∀ r, unambiguous (signed r) → Forall (free_of "=") (sorted_keys r)) as Hf.
  { intros r Hr. apply Forall_forall. intros k Hk. by apply (pair_text_free r). }
  apply map_eq. intros k. destruct (pairs_agree _ _ _ _ k (Hf p Hp) (Hf q Hq) E) as [Hk Hv].
  destruct (signed p !! k) as [v|] eqn:Ep, (signed q !! k) as [v'|] eqn:Eq.
  - assert (k ∈ sorted_keys p) as Hin by (apply elem_of_sorted_keys; eauto). specialize (Hv Hin).
    apply signed_lookup in Ep as [<- _], Eq as [<- _]. by rewrite Hv.
  - assert (k ∈ sorted_keys q) as Hin by (rewrite <-Hk; apply elem_of_sorted_keys; eauto).
    apply elem_of_sorted_keys in Hin as [? ?]. congruence.
  - assert (k ∈ sorted_keys p) as Hin by (rewrite Hk; apply elem_of_sorted_keys; eauto).
    apply elem_of_sorted_keys in Hin as [? ?]. congruence.
  - done.
Qed.

(** ** What the gateway signs is accepted *)

Lemma signed_sign p x : signed (<["sign" := x]> p) = signed p.
Proof.
  apply map_eq. intros k. apply option_eq. intros v. unfold signed.
  rewrite !map_lookup_filter_Some. rewrite lookup_insert_Some. split.
  - intros [[[<- <-]|[_ H]] Hs]; [done|done].
  - intros [H Hs]. split; [|done]. right. split; [|done]. by intros <-.
Qed.

Lemma sign_text_signed p q : signed p = signed q → sign_text p = sign_text q.
Proof.
  intros H. unfold sign_text, sorted_keys. rewrite H. f_equal. apply map_ext_in. intros k Hk.
  apply list_elem_of_In in Hk. rewrite elem_of_sort_by, list_elem_of_fmap in Hk.
  destruct Hk as ([k' v] & -> & Hv%elem_of_map_to_list). cbn [fst]. unfold pair_text.
  f_equal. f_equal. rewrite (proj1 (signed_lookup q k' v Hv)).
  rewrite <-H in Hv. by rewrite (proj1 (signed_lookup p k' v Hv)).
Qed.

Section acceptance.
Variable md5hex : string → string.

(** The form that carries a parameter set. *)
Lemma form_params (p : params) :
  map_imap (λ k _, Some (Get (values_of p) k)) (values_of p) = p.
Proof.
  apply map_eq. intros k. rewrite map_lookup_imap. unfold Get, values_of.
  rewrite lookup_fmap. by destruct (p !! k) as [v|] eqn:E; cbn; rewrite ?lookup_fmap, ?E.
Qed.

Lemma EqualFold_refl s t : ToLower s = ToLower t → EqualFold s t = true.
Proof. intros H. unfold EqualFold. by rewrite H, String.eqb_refl. Qed.

(** A notification is accepted exactly when its [sign] is the signature of
    its other non-empty parameters, in any case of letters. *)
Lemma ParseNotify_spec s p :
  ParseNotify md5hex s (values_of p) =
  if negb (String.eqb (get p "sign") "") && EqualFold (Sign md5hex s p) (get p "sign")
  then Ok {| PlOutTradeNo := get p "out_trade_no"; PlTradeNo := get p "trade_no";
             TradeStatus := get p "trade_status"; PlName := get p "name";
             PlMoney := get p "money"; PlType := get p "type"; Raw := p |}
  else Err ErrInvalidSign.
Proof.
  unfold ParseNotify. rewrite form_params. unfold Verify.
  destruct (String.eqb (get p "sign") ""), (EqualFold _ _); done.
Qed.

(** Signing a set of parameters and sending it. *)
Lemma Sign_insert s p x : Sign md5hex s (<["sign" := x]> p) = Sign md5hex s p.
Proof. unfold Sign. by rewrite (sign_text_signed _ p) by apply signed_sign. Qed.

(** Parameters signed with the merchant's key, the signature written in
    any case of letters, are accepted and delivered as they were signed. *)
Theorem ParseNotify_signed s p x :
  md5hex (sign_text p +:+ Key s) ≠ "" → ToLower x = ToLower (Sign md5hex s p) →
  ∃ pl, ParseNotify md5hex s (values_of (<["sign" := x]> p)) = Ok pl ∧
    PlOutTradeNo pl = get p "out_trade_no" ∧ PlTradeNo pl = get p "trade_no" ∧
    TradeStatus pl = get p "trade_status" ∧ PlMoney pl = get p "money" ∧ PlType pl = get p "type".
Proof.
  intros Hne Hx. rewrite ParseNotify_spec, Sign_insert.
  assert (get (<["sign" := x]> p) "sign" = x) as Hg by (unfold get; by rewrite lookup_insert_eq).
  rewrite Hg, EqualFold_refl by done.
  destruct (String.eqb_spec x "") as [->|_].
  { exfalso. apply Hne. unfold Sign in Hx. by destruct (md5hex _). }
  cbn [negb andb]. eexists; split; [done|]. cbn. unfold get.
  by rewrite !lookup_insert_ne by done.
Qed.

(** A tampered notification is refused unless the digest collides: of two
    parameter sets whose keys and values avoid the separators, the second is
    accepted with the signature of the first only if they agree on every
    non-empty parameter other than [sign] and [sign_type], or two different
    texts ending in the key have the same digest. *)
Theorem tampering_needs_collision s p q pl :
  unambiguous (signed p) → unambiguous (signed q) → get q "sign" = Sign md5hex s p →
  ParseNotify md5hex s (values_of q) = Ok pl →
  signed q = signed p ∨
  (sign_text q +:+ Key s ≠ sign_text p +:+ Key s ∧
   ToLower (md5hex (sign_text q +:+ Key s)) = ToLower (md5hex (sign_text p +:+ Key s))).
Proof.
  intros Hp Hq Hs. rewrite ParseNotify_spec, Hs.
  destruct (negb _ && EqualFold _ _) eqn:E; [|done]. intros _.
  apply andb_true_iff in E as [_ E]. unfold EqualFold in E. apply String.eqb_eq in E.
  destruct (decide (sign_text q +:+ Key s = sign_text p +:+ Key s)) as [Ht|Ht]; [left|by right].
  by eapply sign_text_injective.
Qed.

(** The link the user is sent to carries a valid signature. *)
Lemma pay_params_verify s no name price nu ru extra :
  let p := pay_params md5hex s no name price nu ru extra in
  get p "sign" ≠ "" → Verify md5hex s p (get p "sign") = true.
Proof.
  intros p Hne. unfold Verify. destruct (String.eqb_spec (get p "sign") ""); [done|].
  apply EqualFold_refl. subst p. unfold pay_params. rewrite Sign_insert. unfold get.
  by rewrite lookup_insert_eq.
Qed.
End acceptance.

(** ** Witnesses *)

Definition sample_signer : Signer := NewSigner "1001" "s3cret" "".
(** A stand-in digest: the text itself, in hexadecimal. *)
Definition sample_digest (s : string) : string := hex_encode (bytes s).
Definition sample_notify : params :=
  list_to_map [("out_trade_no", "ab12"); ("trade_no", "T9"); ("trade_status", "TRADE_SUCCESS");
               ("money", "12.00"); ("type", "alipay"); ("sign_type", "MD5"); ("name", "")].
Definition signed_notify : params := <["sign" := Sign sample_digest sample_signer sample_notify]> sample_notify.

Example sample_sign_text :
  sign_text sample_notify = "money=12.00&out_trade_no=ab12&trade_no=T9&trade_status=TRADE_SUCCESS&type=alipay".
Proof. by vm_compute. Qed.

(** Why the theorem asks for unambiguous values: without it two parameter
    sets share a text. *)
Example ambiguous_texts :
  sign_text {[ "a" := "1&b=2" ]} = sign_text (<["a" := "1"]> {[ "b" := "2" ]}).
Proof. by vm_compute. Qed.

Lemma unambiguous_check p :
  forallb (λ kv : string * string,
    forallb (λ c, negb (Ascii.eqb c "=") && negb (Ascii.eqb c "&")) (bytes kv.1) &&
    forallb (λ c, negb (Ascii.eqb c "&")) (bytes kv.2)) (map_to_list p) = true →
  unambiguous p.
Proof.
  rewrite forallb_forall. intros H k v Hkv.
  assert (In (k, v) (map_to_list p)) as Hin by (by apply list_elem_of_In, elem_of_map_to_list).
  specialize (H _ Hin). rewrite andb_true_iff, !forallb_forall in H. destruct H as [H1 H2]. cbn in *.
  split_and!; apply Forall_forall; intros c Hc%list_elem_of_In;
    [specialize (H1 c Hc)|specialize (H1 c Hc)|specialize (H2 c Hc)];
    intros ->; by rewrite ?Ascii.eqb_refl, ?andb_false_r in *.
Qed.

Lemma tampering_needs_collision_witness :
  signed signed_notify = signed sample_notify ∨
  (sign_text signed_notify +:+ "s3cret" ≠ sign_text sample_notify +:+ "s3cret" ∧
   ToLower (sample_digest (sign_text signed_notify +:+ "s3cret")) =
   ToLower (sample_digest (sign_text sample_notify +:+ "s3cret"))).
Proof.
  eapply (tampering_needs_collision sample_digest sample_signer sample_notify signed_notify);
    [by apply unambiguous_check; vm_compute|by apply unambiguous_check; vm_compute
    |by vm_compute|by vm_compute].
Defined.

Lemma ParseNotify_signed_witness :
  ∃ pl, ParseNotify sample_digest sample_signer (values_of signed_notify) = Ok pl ∧
    PlOutTradeNo pl = "ab12" ∧ PlTradeNo pl = "T9" ∧ TradeStatus pl = "TRADE_SUCCESS" ∧
    PlMoney pl = "12.00" ∧ PlType pl = "alipay".
Proof.
  by apply (ParseNotify_signed sample_digest sample_signer sample_notify); vm_compute.
Defined.
