(* ===== verification/Delta.v ===== *)
(** * The answer of the upstream, event by event (internal/gateway/delta.go, chat.go)

    [Extract] turns the data of one server-sent event into the text to hand
    on; two loops of chat.go run it over the stream, one for clients that want
    a stream and one for those that want the whole answer.
    [encoding/json] is a parameter: [decode] parses a document. *)

From S2P Require Import Prelude GoStrings Json.

Record deltaExtractor := {
  lastFull : string;
  curP : string;
  recipient : string
}.

Definition new_extractor : deltaExtractor := {| lastFull := ""; curP := ""; recipient := "" |}.

Definition set_lastFull (s : string) (d : deltaExtractor) : deltaExtractor :=
  {| lastFull := s; curP := curP d; recipient := recipient d |}.
Definition set_curP (p : string) (d : deltaExtractor) : deltaExtractor :=
  {| lastFull := lastFull d; curP := p; recipient := recipient d |}.
Definition set_recipient (r : string) (d : deltaExtractor) : deltaExtractor :=
  {| lastFull := lastFull d; curP := curP d; recipient := r |}.

Definition isDone (data : string) : bool := String.eqb (TrimSpace data) "[DONE]".

Definition thoughts : string := "/message/content/thoughts".
Definition parts0 : string := "/message/content/parts/0".
Definition status_path : string := "/message/status".
Definition finished : string := "finished_successfully".

Definition is_body (p : string) : bool := String.eqb p "" || String.eqb p parts0.

(** 3) [v] is a string. *)
Definition extract_string (d : deltaExtractor) (s : string) : string * bool :=
  if negb (String.eqb (recipient d) "all") then
    if String.eqb (curP d) status_path && String.eqb s finished then ("", true) else ("", false)
  else if String.eqb (curP d) status_path && String.eqb s finished then ("", true)
  else if is_body (curP d) then (s, false)
  else ("", false).

(** 4) one patch of an array: the extractor, the text and the mark so far. *)
Definition extract_patch (acc : deltaExtractor * string * bool) (item : json) : deltaExtractor * string * bool :=
  let '(d, b, final) := acc in
  match item with
  | JObj m =>
      let subP := default "" (as_string (field "p" m)) in
      let subO := default "" (as_string (field "o" m)) in
      let d := if String.eqb subP "" then d else set_curP subP d in
      if HasPrefix (curP d) thoughts then (d, b, final)
      else if String.eqb (curP d) status_path then
        match as_string (field "v" m) with
        | Some s => (d, b, if String.eqb s finished then true else final)
        | None => (d, b, final)
        end
      else if is_body (curP d) && (String.eqb subO "" || String.eqb subO "append") && String.eqb (recipient d) "all" then
        match as_string (field "v" m) with
        | Some s => (d, b +:+ s, final)
        | None => (d, b, final)
        end
      else (d, b, final)
  | _ => acc
  end.

(** The recipient a message names, if it does. *)
Definition heard (msg : list (string * json)) (d : deltaExtractor) : deltaExtractor :=
  match as_string (field "recipient" msg) with
  | Some r => if String.eqb r "" then d else set_recipient r d
  | None => d
  end.

(** [msg.content.parts[0]] as a string. *)
Definition first_part (msg : list (string * json)) : option string :=
  match as_object (field "content" msg) with
  | Some content =>
      match as_array (field "parts" content) with
      | Some (p :: _) => as_string (Some p)
      | _ => None
      end
  | None => None
  end.

Definition is_finished (msg : list (string * json)) : bool :=
  String.eqb (default "" (as_string (field "status" msg))) finished.

(** 5) [v] is an object. *)
Definition extract_object (d : deltaExtractor) (m : list (string * json)) : string * bool * deltaExtractor :=
  match as_object (field "message" m) with
  | Some msg =>
      let d := heard msg d in
      match first_part msg with
      | Some cur =>
          let d := set_lastFull cur d in
          if negb (String.eqb cur "") && String.eqb (recipient d) "all" then (cur, is_finished msg, d)
          else ("", is_finished msg, d)
      | None => ("", false, d)
      end
  | None => ("", false, d)
  end.

(** 6) the old protocol: a full text each time. *)
Definition extract_message (d : deltaExtractor) (raw : list (string * json)) : string * bool * deltaExtractor :=
  match as_object (field "message" raw) with
  | Some msg =>
      let d := heard msg d in
      match first_part msg with
      | Some cur =>
          let delta := if HasPrefix cur (lastFull d) then string_drop (String.length (lastFull d)) cur else cur in
          let d := set_lastFull cur d in
          if String.eqb (recipient d) "all" then (delta, is_finished msg, d) else ("", is_finished msg, d)
      | None => ("", false, d)
      end
  | None => ("", false, d)
  end.

Definition extract_fields (d : deltaExtractor) (raw : list (string * json)) : string * bool * deltaExtractor :=
  if String.eqb (default "" (as_string (field "type" raw))) "message_stream_complete" then ("", true, d) else
  let d := match as_string (field "p" raw) with Some p => set_curP p d | None => d end in
  if HasPrefix (curP d) thoughts then ("", false, d) else
  match field "v" raw with
  | None => ("", false, d)
  | Some (JStr s) => (extract_string d s, d)
  | Some (JArr arr) => let '(d, b, final) := foldl extract_patch (d, "", false) arr in (b, final, d)
  | Some (JObj m) => extract_object d m
  | Some _ => extract_message d raw
  end.

Section extract.
Context (decode : string → option json).

Definition Extract (d : deltaExtractor) (data : string) : string * bool * deltaExtractor :=
  let d := if String.eqb (recipient d) "" then set_recipient "all" d else d in
  if isDone data then ("", true, d) else
  match decode data with
  | Some (JObj raw) => extract_fields d raw
  | Some JNull => extract_fields d []
  | _ => ("", false, d)
  end.

(** ** The loops (chat.go) *)

(** [chatgpt.SSEEvent] *)
Inductive SSEEvent :=
  | EvErr (e : goerr)
  | EvData (event data : string).

(** The double quote, which a string literal of the logic cannot hold alone. *)
Definition quoted (s : string) : string := String "034" (s +:+ String "034" "").

Definition isSilentRejection (data : string) : bool :=
  Contains data (quoted "is_visually_hidden_from_conversation" +:+ ": true") &&
  Contains data (quoted "role" +:+ ": " +:+ quoted "system") &&
  Contains data (quoted "end_turn" +:+ ": true").

Definition emptyReplyMessage (freeAccount silentlyRejected : bool) : string :=
  if silentlyRejected && freeAccount then
    "上游检测到当前账号为免费版(chatgpt-freeaccount),已静默拒绝本次请求。" +:+
    "请联系管理员更换 ChatGPT Plus / Team 账号后再试。"
  else if silentlyRejected then
    "上游已接受请求但静默终止对话(常见于账号被限流或触发内容审核)," +:+
    "请稍后重试,若仍失败请更换模型或账号。"
  else if freeAccount then
    "当前账号为 ChatGPT 免费版,上游未产出内容。请更换 Plus/Team 账号后再试。"
  else
    "上游未产出回答内容,可能触发了内容审核或账号被临时限流,请稍后重试。".

(** What the loop over the stream has gathered: the deltas in their order,
    the number of events with data, and whether one was a silent rejection. *)
Record gathered := {
  deltas : list string;
  evCount : Z;
  silentlyRejected : bool
}.

Fixpoint pump (d : deltaExtractor) (g : gathered) (stream : list SSEEvent) : gathered :=
  match stream with
  | [] => g
  | EvErr _ :: _ => g
  | EvData _ data :: stream =>
      if String.eqb data "" then pump d g stream else
      let '(delta, final, d) := Extract d data in
      let g := {| deltas := if String.eqb delta "" then deltas g else deltas g ++ [delta];
                  evCount := evCount g + 1;
                  silentlyRejected := silentlyRejected g || isSilentRejection data |} in
      if final then g else pump d g stream
  end.

Definition gather (stream : list SSEEvent) : gathered :=
  pump new_extractor {| deltas := []; evCount := 0; silentlyRejected := false |} stream.

(** [(n + 3) / 4] *)
Definition quarter (s : string) : Z := Z.quot (Z.of_nat (String.length s) + 3) 4.

(** What the client is sent. *)
Inductive sent :=
  | SentRole                    (* the first chunk *)
  | SentContent (s : string)
  | SentStop (reason : string)  (* the last chunk, with its finish_reason *)
  | SentWhole (content finish_reason : string) (completion_tokens : Z).   (* the answer in one piece *)

(** The chunks, and the number of completion tokens to bill. *)
Definition streamOpenAI (stream : list SSEEvent) (freeAccount : bool) : list sent * Z :=
  let g := gather stream in
  let total := concat_strings (deltas g) in
  ([SentRole] ++ map SentContent (deltas g) ++
   (if String.eqb total "" && (0 <? evCount g)
    then [SentContent (emptyReplyMessage freeAccount (silentlyRejected g))] else []) ++ [SentStop "stop"],
   quarter total).

Definition collectOpenAI (stream : list SSEEvent) (freeAccount : bool) : list sent * Z :=
  let g := gather stream in
  let content := concat_strings (deltas g) in
  let content := if String.eqb content "" && (0 <? evCount g)
                 then emptyReplyMessage freeAccount (silentlyRejected g) else content in
  ([SentWhole content "stop" (quarter content)], quarter content).
End extract.

(** The text the client has read in the end. *)
Fixpoint text_of (l : list sent) : string :=
  match l with
  | [] => ""
  | SentContent s :: l => s +:+ text_of l
  | SentWhole s _ _ :: l => s +:+ text_of l
  | _ :: l => text_of l
  end.

(** ** Both loops tell the same *)

Lemma text_of_contents l k : text_of (map SentContent l ++ k) = concat_strings l +:+ text_of k.
Proof. induction l as [|s l IH]; cbn; [done|]. by rewrite IH, string_app_assoc. Qed.

Section loops.
Context (decode : string → option json).

Lemma pump_deltas d g stream : Forall (λ s, s ≠ "") (deltas g) → Forall (λ s, s ≠ "") (deltas (pump decode d g stream)).
Proof.
  revert d g. induction stream as [|[e|ev data] stream IH]; intros d g Hg; cbn; [done..|].
  destruct (String.eqb data ""); [by apply IH|]. destruct (Extract decode d data) as [[delta final] d'].
  assert (Forall (λ s, s ≠ "") (if String.eqb delta "" then deltas g else deltas g ++ [delta])) as H.
  { destruct (String.eqb_spec delta "") as [|Hne]; [done|]. apply Forall_app. by repeat constructor. }
  destruct final; [done|by apply IH].
Qed.

Lemma gather_total stream : concat_strings (deltas (gather decode stream)) = "" ↔ deltas (gather decode stream) = [].
Proof.
  pose proof (pump_deltas new_extractor {| deltas := []; evCount := 0; silentlyRejected := false |} stream (Forall_nil_2 _)) as H.
  fold (gather decode stream) in H. split; [|by intros ->]. destruct H as [|s l Hs]; [done|]. cbn. by destruct s.
Qed.

Lemma emptyReplyMessage_tokens free rejected : 0 < quarter (emptyReplyMessage free rejected).
Proof. destruct free, rejected; by vm_compute. Qed.

Lemma same_text stream free :
  text_of (streamOpenAI decode stream free).1 = text_of (collectOpenAI decode stream free).1.
Proof.
  pose proof (gather_total stream) as Ht. unfold streamOpenAI, collectOpenAI. set (g := gather decode stream) in *.
  cbn [fst snd text_of app]. rewrite text_of_contents.
  destruct (String.eqb_spec (concat_strings (deltas g)) "") as [He|He]; cbn [andb].
  - rewrite He. by destruct (0 <? evCount g).
  - cbn [app text_of]. by rewrite !string_app_nil_r.
Qed.

(** A client reads the same text whether it asks for a stream or for the
    whole answer, also when the upstream wrote nothing and a notice takes the
    place of the answer.  What it is billed for is the same as long as the
    upstream wrote something; the notice itself costs nothing in a stream, and
    its length in a whole answer. *)
Theorem stream_and_collect_agree stream free :
  text_of (streamOpenAI decode stream free).1 = text_of (collectOpenAI decode stream free).1 ∧
  (deltas (gather decode stream) ≠ [] ∨ evCount (gather decode stream) ≤ 0 →
     (streamOpenAI decode stream free).2 = (collectOpenAI decode stream free).2) ∧
  (deltas (gather decode stream) = [] → 0 < evCount (gather decode stream) →
     (streamOpenAI decode stream free).2 = 0 ∧ 0 < (collectOpenAI decode stream free).2).
Proof.
  split; [apply same_text|].
  pose proof (gather_total stream) as Ht. unfold streamOpenAI, collectOpenAI. set (g := gather decode stream) in *.
  cbn [fst snd]. destruct (String.eqb_spec (concat_strings (deltas g)) "") as [He|He]; cbn [andb].
  - rewrite He. apply Ht in He. destruct (Z.ltb_spec 0 (evCount g)) as [Hc|Hc].
    + split; [intros [H|H]; [done|lia]|]. intros _ _. split; [done|apply emptyReplyMessage_tokens].
    + by split; [done|lia].
  - split; [done|]. intros H. by apply Ht in H.
Qed.
End loops.

(** ** Whatever way the text is framed *)

(** One append: to a path, or to the last one named. *)
Record op := { op_path : option string; op_text : string }.

Definition patch_fields (o : op) : list (string * json) :=
  match op_path o with Some p => [("p", JStr p)] | None => [] end ++ [("o", JStr "append"); ("v", JStr (op_text o))].

(** Appends come alone or in arrays, among events of other kinds.  An array
    stands under a path of the body, as the upstream sends it; without a path
    of its own an array that follows a thought is swallowed with it. *)
Inductive frame :=
  | Bare (o : op)
  | Batch (p : string) (os : list op)
  | Noise (fields : list (string * json)).

Definition frame_json (f : frame) : json :=
  match f with
  | Bare o => JObj (patch_fields o)
  | Batch p os => JObj [("p", JStr p); ("o", JStr "patch"); ("v", JArr (map (λ o, JObj (patch_fields o)) os))]
  | Noise fields => JObj fields
  end.
Definition frame_ops (f : frame) : list op :=
  match f with
  | Bare o => [o]
  | Batch p os => {| op_path := Some p; op_text := "" |} :: os
  | Noise _ => []
  end.

Definition proper_op (o : op) : Prop := op_path o ≠ Some "" ∧ op_path o ≠ Some status_path.
Definition proper_frame (f : frame) : Prop :=
  match f with
  | Bare o => op_path o ≠ Some status_path
  | Batch p os => is_body p = true ∧ Forall proper_op os
  | Noise fields => field "p" fields = None ∧ field "v" fields = None ∧
      as_string (field "type" fields) ≠ Some "message_stream_complete"
  end.

(** The reference: what a sequence of appends adds to the body. *)
Fixpoint body (cur : string) (os : list op) : string :=
  match os with
  | [] => ""
  | o :: os => let p := default cur (op_path o) in (if is_body p then op_text o else "") +:+ body p os
  end.
Definition last_path (cur : string) (os : list op) : string := foldl (λ cur o, default cur (op_path o)) cur os.

Lemma body_app cur os os' : body cur (os ++ os') = body cur os +:+ body (last_path cur os) os'.
Proof. revert cur. induction os as [|o os IH]; intros cur; cbn; [done|]. by rewrite IH, string_app_assoc. Qed.

Lemma is_body_not_thoughts p : is_body p = true → HasPrefix p thoughts = false.
Proof.
  unfold is_body. intros [H%String.eqb_eq|H%String.eqb_eq]%orb_true_iff; subst; by vm_compute.
Qed.
Lemma is_body_not_status p : is_body p = true → String.eqb p status_path = false.
Proof.
  unfold is_body. intros [H%String.eqb_eq|H%String.eqb_eq]%orb_true_iff; subst; by vm_compute.
Qed.

(** What an append does to an extractor that listens to everybody. *)
Definition listening (cur : string) (d : deltaExtractor) : Prop := curP d = cur ∧ recipient d = "all" ∧ cur ≠ status_path.

Lemma set_path d cur p : listening cur d → p ≠ status_path → listening p (set_curP p d).
Proof. by intros (_ & Hr & _) Hp. Qed.

Lemma last_path_proper cur os : cur ≠ status_path → Forall proper_op os → last_path cur os ≠ status_path.
Proof.
  intros Hc Hos. revert cur Hc. induction Hos as [|o os [_ Ho] _ IH]; intros cur Hc; cbn; [done|].
  apply IH. destruct (op_path o); cbn; [congruence|done].
Qed.

Lemma patch_field_p o : as_string (field "p" (patch_fields o)) = op_path o.
Proof. unfold patch_fields. by destruct (op_path o). Qed.
Lemma patch_field_o o : as_string (field "o" (patch_fields o)) = Some "append".
Proof. unfold patch_fields. by destruct (op_path o). Qed.
Lemma patch_field_v o : field "v" (patch_fields o) = Some (JStr (op_text o)).
Proof. unfold patch_fields. by destruct (op_path o). Qed.
Lemma patch_field_type o : field "type" (patch_fields o) = None.
Proof. unfold patch_fields. by destruct (op_path o). Qed.

(** One bare append, or an append of an array. *)
Lemma extract_bare d cur o : listening cur d → op_path o ≠ Some status_path →
  ∃ d', extract_fields d (patch_fields o) = (if is_body (default cur (op_path o)) then op_text o else "", false, d') ∧
        listening (default cur (op_path o)) d'.
Proof.
  intros (Hc & Hr & Hs) Ho. unfold extract_fields.
  rewrite patch_field_type, patch_field_p, patch_field_v. cbn [default as_string].
  set (d' := match op_path o with Some p => set_curP p d | None => d end).
  assert (curP d' = default cur (op_path o) ∧ recipient d' = "all") as [Hc' Hr'].
  { unfold d'. destruct (op_path o); cbn; auto. }
  assert (default cur (op_path o) ≠ status_path) as Hs'. { destruct (op_path o); cbn; congruence. }
  change (String.eqb "" "message_stream_complete") with false. cbn match.
  exists d'. split; [|done]. rewrite Hc'.
  destruct (is_body (default cur (op_path o))) eqn:Hb.
  - rewrite (is_body_not_thoughts _ Hb). unfold extract_string. rewrite Hr', Hc', (is_body_not_status _ Hb), Hb. done.
  - destruct (HasPrefix _ thoughts); [done|]. unfold extract_string. rewrite Hr', Hc', Hb.
    apply String.eqb_neq in Hs'. rewrite Hs'. done.
Qed.

Lemma extract_patch_append d b cur o : listening cur d → proper_op o →
  ∃ d', extract_patch (d, b, false) (JObj (patch_fields o)) =
          (d', b +:+ (if is_body (default cur (op_path o)) then op_text o else ""), false) ∧
        listening (default cur (op_path o)) d'.
Proof.
  intros (Hc & Hr & Hs) [Ho1 Ho2]. unfold extract_patch. rewrite patch_field_p, patch_field_o, patch_field_v.
  cbn [default as_string].
  set (d' := if String.eqb (default "" (op_path o)) "" then d else set_curP (default "" (op_path o)) d).
  assert (curP d' = default cur (op_path o) ∧ recipient d' = "all") as [Hc' Hr'].
  { unfold d'. destruct (op_path o) as [p|]; cbn; [|auto]. destruct (String.eqb_spec p ""); [congruence|auto]. }
  assert (default cur (op_path o) ≠ status_path) as Hs'. { destruct (op_path o); cbn; congruence. }
  exists d'. split; [|done]. rewrite Hc', Hr'. pose proof (proj2 (String.eqb_neq _ _) Hs') as ->.
  destruct (is_body (default cur (op_path o))) eqn:Hb.
  - by rewrite (is_body_not_thoughts _ Hb).
  - rewrite string_app_nil_r. by destruct (HasPrefix _ thoughts).
Qed.

Lemma extract_patches d b cur os : listening cur d → Forall proper_op os →
  ∃ d', foldl extract_patch (d, b, false) (map (λ o, JObj (patch_fields o)) os) = (d', b +:+ body cur os, false) ∧
        listening (last_path cur os) d'.
Proof.
  intros Hl Hos. revert d b cur Hl. induction Hos as [|o os Ho _ IH]; intros d b cur Hl; cbn [map foldl body last_path].
  - exists d. by rewrite string_app_nil_r.
  - destruct (extract_patch_append d b cur o Hl Ho) as (d' & He & Hl'). rewrite He.
    destruct (IH d' (b +:+ (if is_body (default cur (op_path o)) then op_text o else "")) _ Hl') as (d'' & He' & Hl'').
    exists d''. by rewrite He', string_app_assoc.
Qed.

(** What one event adds. *)
Lemma extract_frame d cur f : listening cur d → proper_frame f →
  ∃ fields d', frame_json f = JObj fields ∧
    extract_fields d fields = (body cur (frame_ops f), false, d') ∧ listening (last_path cur (frame_ops f)) d'.
Proof.
  intros Hl Hf. destruct f as [o|p os|fields]; cbn [frame_json frame_ops proper_frame] in *.
  - destruct (extract_bare d cur o Hl Hf) as (d' & He & Hl').
    eexists _, d'. split; [done|]. cbn [body last_path foldl]. by rewrite string_app_nil_r.
  - destruct Hf as [Hp Hos]. pose proof (is_body_not_status _ Hp) as Hs%String.eqb_neq.
    destruct (extract_patches (set_curP p d) "" p os (set_path d cur p Hl Hs) Hos) as (d' & He & Hl').
    eexists _, d'. split; [done|]. split; [|exact Hl'].
    unfold extract_fields. cbn [field filter]. change (as_string (field "type" _)) with (@None string).
    change (as_string (field "p" _)) with (Some p). change (field "v" _) with (Some (JArr (map (λ o, JObj (patch_fields o)) os))).
    cbn [default]. change (String.eqb "" "message_stream_complete") with false. cbn match.
    change (curP (set_curP p d)) with p. rewrite (is_body_not_thoughts _ Hp), He.
    cbn [body op_path op_text default id]. by destruct (is_body _).
  - destruct Hf as (Hp & Hv & Ht). exists fields, d. split; [done|]. unfold extract_fields. rewrite Hp, Hv. cbn [as_string].
    destruct (String.eqb_spec (default "" (as_string (field "type" fields))) "message_stream_complete") as [E|_].
    { destruct (as_string (field "type" fields)); cbn in E; [congruence|done]. }
    cbn [body last_path foldl]. by destruct (HasPrefix _ _).
Qed.

(** ** The whole reply *)

Section reply.
Context (decode : string → option json).

(** The data of an event that carries a frame. *)
Definition carries (data : string) (f : frame) : Prop :=
  data ≠ "" ∧ isDone data = false ∧ decode data = Some (frame_json f) ∧ proper_frame f.

(** The data of an event that ends the reply. *)
Definition ends (data : string) : Prop :=
  isDone data = true ∨
  data ≠ "" ∧ isDone data = false ∧ decode data = Some (JObj [("type", JStr "message_stream_complete")]).

Lemma Extract_ends d data : ends data → ∃ d', Extract decode d data = ("", true, d').
Proof.
  unfold Extract. intros [->|(_ & -> & ->)]; [by eexists|]. by eexists.
Qed.

Lemma ends_nonempty data : ends data → String.eqb data "" = false.
Proof. intros [H|[H _]]; [|by apply String.eqb_neq]. destruct (String.eqb_spec data "") as [->|]; [by vm_compute in H|done]. Qed.

Lemma pump_reply d cur g stream frames final rest :
  listening cur d → Forall2 (λ e f, ∃ ev data, e = EvData ev data ∧ carries data f) stream frames →
  ends final →
  concat_strings (deltas (pump decode d g (stream ++ EvData "" final :: rest))) =
    concat_strings (deltas g) +:+ body cur (concat (map frame_ops frames)).
Proof.
  intros Hl Hs Hend. revert d cur g Hl. induction Hs as [|e f stream frames (ev & data & -> & Hne & Hnd & Hdec & Hf) Hs IH];
    intros d cur g Hl; cbn [app map concat].
  - cbn [pump]. rewrite (ends_nonempty _ Hend). destruct (Extract_ends d final Hend) as [d' He].
    rewrite He. cbn. by rewrite string_app_nil_r.
  - cbn [pump]. apply String.eqb_neq in Hne. rewrite Hne. unfold Extract at 1.
    pose proof Hl as (_ & Hr & _). rewrite Hr, Hnd, Hdec. change (String.eqb "all" "") with false. cbn match.
    destruct (extract_frame d cur f Hl Hf) as (fields & d' & Hj & He & Hl'). rewrite Hj, He.
    rewrite (IH d' _ _ Hl'). cbn [deltas]. rewrite body_app, <- string_app_assoc. f_equal.
    destruct (String.eqb_spec (body cur (frame_ops f)) "") as [Hb|Hb].
    + by rewrite Hb, string_app_nil_r.
    + rewrite concat_strings_app. cbn [concat_strings]. by rewrite string_app_nil_r.
Qed.

Lemma gather_listens e stream :
  gather decode (e :: stream) =
  pump decode (set_recipient "all" new_extractor) {| deltas := []; evCount := 0; silentlyRejected := false |} (e :: stream) ∨
  e = EvData "" "" ∨ (∃ ev, e = EvData ev "").
Proof.
  destruct e as [e|ev data]; [by left|]. destruct (String.eqb_spec data "") as [->|Hne]; [right; right; by eexists|].
  left. unfold gather. cbn [pump]. apply String.eqb_neq in Hne. by rewrite Hne.
Qed.

(** C28: however the upstream cuts its reply into events, alone or in
    arrays, with paths named or inherited and other events between them, the
    client reads the appends to the body joined in their order, up to the event
    that ends the reply, and nothing of what comes after it; a whole answer
    holds the same text as long as there is any. *)
Theorem reply_reassembled stream frames final rest free :
  Forall2 (λ e f, ∃ ev data, e = EvData ev data ∧ carries data f) stream frames → ends final →
  let reply := body "" (concat (map frame_ops frames)) in
  let events := stream ++ EvData "" final :: rest in
  reply ≠ "" →
  text_of (streamOpenAI decode events free).1 = reply ∧
  text_of (collectOpenAI decode events free).1 = reply ∧
  (streamOpenAI decode events free).2 = quarter reply.
Proof.
  intros Hs Hend reply events Hne.
  assert (concat_strings (deltas (gather decode events)) = reply) as Hg.
  { assert (listening "" (set_recipient "all" new_extractor)) as Hl by done.
    pose proof (pump_reply _ _ {| deltas := []; evCount := 0; silentlyRejected := false |} _ _ final rest Hl Hs Hend) as Hp.
    fold events in Hp. cbn [deltas concat_strings] in Hp. change ("" +:+ ?x) with x in Hp. fold reply in Hp.
    rewrite <- Hp. unfold events. destruct Hs as [|e f stream' frames' (ev & data & -> & Hne' & _) Hs]; cbn [app].
    - pose proof (ends_nonempty _ Hend) as Hf%String.eqb_neq.
      destruct (gather_listens (EvData "" final) rest) as [->|[E|[ev E]]]; [done|..]; injection E; congruence.
    - destruct (gather_listens (EvData ev data) (stream' ++ EvData "" final :: rest)) as [->|[E|[ev' E]]]; [done|..];
        injection E; congruence. }
  rewrite <- same_text.
  unfold streamOpenAI. rewrite Hg. apply String.eqb_neq in Hne. rewrite Hne. cbn [andb fst snd text_of app].
  rewrite text_of_contents, Hg. cbn [text_of]. by rewrite string_app_nil_r.
Qed.
End reply.

(** A reply of four events for the words "He", "llo" and "!", after a thought
    that nobody reads: a document is written here as a number. *)
Definition sample_decode (data : string) : option json :=
  if String.eqb data "1" then Some (frame_json (Bare {| op_path := Some (thoughts +:+ "/0"); op_text := "hmm" |}))
  else if String.eqb data "2" then Some (frame_json (Batch "" [{| op_path := Some parts0; op_text := "He" |}; {| op_path := None; op_text := "llo" |}]))
  else if String.eqb data "3" then Some (frame_json (Noise [("type", JStr "title")]))
  else if String.eqb data "4" then Some (frame_json (Bare {| op_path := None; op_text := "!" |}))
  else None.

Lemma reply_reassembled_witness :
  text_of (streamOpenAI sample_decode [EvData "" "1"; EvData "" "2"; EvData "" "3"; EvData "" "4"; EvData "" "[DONE]"; EvData "" "2"] false).1 = "Hello!".
Proof.
  edestruct (reply_reassembled sample_decode [EvData "" "1"; EvData "" "2"; EvData "" "3"; EvData "" "4"]
    [Bare {| op_path := Some (thoughts +:+ "/0"); op_text := "hmm" |};
     Batch "" [{| op_path := Some parts0; op_text := "He" |}; {| op_path := None; op_text := "llo" |}];
     Noise [("type", JStr "title")]; Bare {| op_path := None; op_text := "!" |}] "[DONE]" [EvData "" "2"] false) as (H & _ & _);
    [ |by left|done|exact H].
  repeat constructor; eexists _, _; (split; [reflexivity|]); split_and!; try done; repeat constructor; done.
Defined.
