(* ===== verification/Sse.v ===== *)
(** * Server-sent events (internal/upstream/chatgpt/conversation.go, internal/upstream/adapter)

    Three readers of lines and two parsers of events: [parseSSE] of the
    ChatGPT client hands the events on, [scanSSE] of the adapters calls a
    function with each.  A body is the bytes that arrive and the error they
    end with, if any; how they are cut into reads makes no difference to the
    standard library's readers. *)

From S2P Require Import Prelude GoStrings Json Delta.

Record Body := {
  body_text : string;
  body_err : option goerr      (* None: io.EOF *)
}.

(** ** Lines *)

Fixpoint drop_while (p : ascii → bool) (l : list ascii) : list ascii :=
  match l with
  | [] => []
  | c :: l' => if p c then drop_while p l' else l
  end.

(** [strings.TrimRight], by the bytes of the cutset. *)
Definition TrimRight (p : ascii → bool) (s : string) : string := of_bytes (rev (drop_while p (rev (bytes s)))).

Definition LF : ascii := "010".
Definition CR : ascii := "013".
Definition is_lf (c : ascii) : bool := Ascii.eqb c LF.
Definition is_cr (c : ascii) : bool := Ascii.eqb c CR.

(** The lines that are ended, without their ends, and what follows them. *)
Fixpoint cut_lines (acc : list ascii) (l : list ascii) : list string * string :=
  match l with
  | [] => ([], of_bytes (rev acc))
  | c :: l =>
      if is_lf c then let '(ls, rest) := cut_lines [] l in (of_bytes (rev acc) :: ls, rest)
      else cut_lines (c :: acc) l
  end.
Definition lines (s : string) : list string * string := cut_lines [] (bytes s).

(** [bufio.Reader.ReadString] until it errs, each line through
    [strings.TrimRight(line, "\r\n")]: a line without its end is not used. *)
Definition read_lines (b : Body) : list string := map (TrimRight (λ c, is_cr c || is_lf c)) (lines (body_text b)).1.

(** [bufio.ErrTooLong] *)
Definition ErrTooLong : goerr := Sentinel "bufio.Scanner: token too long".
Definition max_token : Z := 4 * 1024 * 1024.

(** One carriage return at the end of a line goes. *)
Definition drop_cr (s : string) : string :=
  if HasSuffix s (String CR "") then string_take (String.length s - 1) s else s.

(** [bufio.Scanner] with [max_token]: a last line without its end counts, a
    line too long ends it. *)
Fixpoint scan_tokens (ls : list string) (err : option goerr) : list string * option goerr :=
  match ls with
  | [] => ([], err)
  | l :: ls =>
      if max_token <=? Z.of_nat (String.length l) then ([], Some ErrTooLong) else
      let '(ts, e) := scan_tokens ls err in (drop_cr l :: ts, e)
  end.
Definition scan (b : Body) : list string * option goerr :=
  let '(ls, rest) := lines (body_text b) in
  scan_tokens (ls ++ if String.eqb rest "" then [] else [rest]) (body_err b).

(** ** Events *)

Record sse_state := { st_event : string; st_data : string }.
Definition sse_start : sse_state := {| st_event := ""; st_data := "" |}.

(** What is left of a line after [data:]. *)
Definition data_part (line : string) : string := TrimPrefix (TrimPrefix line "data:") " ".

Definition add_data (part : string) (st : sse_state) : sse_state := {|
  st_event := st_event st;
  st_data := if String.eqb (st_data st) "" then part else st_data st +:+ String LF part |}.

(** A line that does not end an event. *)
Definition sse_line (line : string) (st : sse_state) : sse_state :=
  if HasPrefix line ":" then st
  else if HasPrefix line "event:" then {| st_event := TrimSpace (TrimPrefix line "event:"); st_data := st_data st |}
  else if HasPrefix line "data:" then add_data (data_part line) st
  else st.

Definition event_of (st : sse_state) : SSEEvent := EvData (st_event st) (TrimRight is_lf (st_data st)).

(** *** parseSSE *)

Definition flush (st : sse_state) : list SSEEvent := if String.eqb (st_data st) "" then [] else [event_of st].

Fixpoint parse_lines (st : sse_state) (ls : list string) : list SSEEvent * sse_state :=
  match ls with
  | [] => ([], st)
  | line :: ls =>
      if String.eqb line "" then let '(evs, st') := parse_lines sse_start ls in (flush st ++ evs, st')
      else parse_lines (sse_line line st) ls
  end.

Definition parseSSE (b : Body) : list SSEEvent :=
  let '(evs, st) := parse_lines sse_start (read_lines b) in
  evs ++ match body_err b with
         | Some e => [EvErr (EWrap "sse read" e)]
         | None => flush st
         end.

(** *** scanSSE *)

Section scan.
Context {S : Type} (handle : S → string → string → bool * S).

Definition handle_flush (st : sse_state) (s : S) : bool * S :=
  if String.eqb (st_data st) "" then (true, s) else handle s (st_event st) (TrimRight is_lf (st_data st)).

(** The state of the caller, and the rest of the lines unless it has stopped. *)
Fixpoint scan_lines (st : sse_state) (s : S) (ls : list string) : S * option sse_state :=
  match ls with
  | [] => (s, Some st)
  | line :: ls =>
      if String.eqb line "" then
        let '(go, s) := handle_flush st s in
        if (go : bool) then scan_lines sse_start s ls else (s, None)
      else scan_lines (sse_line line st) s ls
  end.

Definition scanSSE (s : S) (b : Body) : S * option goerr :=
  match scan_lines sse_start s (read_lines b) with
  | (s, None) => (s, None)
  | (s, Some st) =>
      match body_err b with
      | Some e => (s, Some e)
      | None => ((handle_flush st s).2, None)
      end
  end.

(** The handler over a list of events, until it stops; the flag says whether
    it did. *)
Fixpoint feed (s : S) (evs : list SSEEvent) : S * bool :=
  match evs with
  | EvData event data :: evs => let '(go, s) := handle s event data in if (go : bool) then feed s evs else (s, true)
  | _ => (s, false)
  end.
End scan.

(** ** The two parsers agree *)

Lemma feed_app {S} (handle : S → string → string → bool * S) s evs evs' :
  Forall (λ e, match e with EvData _ _ => True | EvErr _ => False end) evs →
  feed handle s (evs ++ evs') =
  let '(s', stopped) := feed handle s evs in if (stopped : bool) then (s', true) else feed handle s' evs'.
Proof.
  intros H. revert s. induction H as [|[e|event data] evs He _ IH]; intros s; [done..|].
  cbn. destruct (handle s event data) as [[] s']; [apply IH|done].
Qed.

Lemma flush_data st : Forall (λ e, match e with EvData _ _ => True | EvErr _ => False end) (flush st).
Proof. unfold flush. destruct (String.eqb _ _); by repeat constructor. Qed.

Lemma feed_flush {S} (handle : S → string → string → bool * S) s st :
  feed handle s (flush st) = let '(go, s') := handle_flush handle st s in (s', negb go).
Proof.
  unfold flush, handle_flush. destruct (String.eqb _ _); [done|]. unfold event_of. cbn.
  by destruct (handle s _ _) as [[] s'].
Qed.

Lemma scan_lines_feeds {S} (handle : S → string → string → bool * S) st s ls :
  scan_lines handle st s ls =
  let '(evs, st') := parse_lines st ls in
  let '(s', stopped) := feed handle s evs in (s', if (stopped : bool) then None else Some st').
Proof.
  revert st s. induction ls as [|line ls IH]; intros st s; cbn [scan_lines parse_lines]; [done|].
  destruct (String.eqb line ""); [|apply IH].
  pose proof (feed_flush handle s st) as Hf. destruct (handle_flush handle st s) as [go s'] eqn:E.
  destruct (parse_lines sse_start ls) as [evs st'] eqn:Ep. rewrite feed_app by apply flush_data. rewrite Hf.
  destruct go; cbn [negb]; [|done]. rewrite IH, Ep. done.
Qed.

Lemma parse_lines_data st ls :
  Forall (λ e, match e with EvData _ _ => True | EvErr _ => False end) (parse_lines st ls).1.
Proof.
  revert st. induction ls as [|line ls IH]; intros st; cbn [parse_lines]; [constructor|].
  destruct (String.eqb line ""); [|apply IH]. specialize (IH sse_start). destruct (parse_lines sse_start ls). cbn in *.
  apply Forall_app. split; [apply flush_data|done].
Qed.

(** What the adapters see of a body is what the ChatGPT client sees, up to
    where they stop; they learn of the error only if they have not. *)
Lemma scanSSE_feeds {S} (handle : S → string → string → bool * S) s b :
  scanSSE handle s b =
  let '(s', stopped) := feed handle s (parseSSE b) in (s', if (stopped : bool) then None else body_err b).
Proof.
  unfold scanSSE, parseSSE. rewrite scan_lines_feeds. pose proof (parse_lines_data sse_start (read_lines b)) as Hd.
  destruct (parse_lines sse_start (read_lines b)) as [evs st]. cbn [fst] in Hd. rewrite feed_app by done.
  destruct (feed handle s evs) as [s' []]; [done|]. destruct (body_err b) as [e|]; [done|].
  rewrite feed_flush. destruct (handle_flush handle st s') as [go s'']. by destruct (negb go).
Qed.

(** ** What is sent arrives *)

(** A stream: comments that keep it alive, and events. *)
Inductive sse_item := Beat (text : string) | Event (name data : string).

Definition item_lines (i : sse_item) : list string :=
  match i with
  | Beat text => [":" +:+ text]
  | Event name data =>
      (if String.eqb name "" then [] else ["event: " +:+ name]) ++
      map (λ l, "data: " +:+ l) (Split data LF) ++ [""]
  end.

(** With either end of line. *)
Definition render_lines (crlf : bool) (ls : list string) : string :=
  concat_strings (map (λ l, l +:+ (if crlf then String CR (String LF "") else String LF "")) ls).
Definition render (crlf : bool) (items : list sse_item) : string := render_lines crlf (items ≫= item_lines).

Definition events_of (items : list sse_item) : list SSEEvent :=
  omap (λ i, match i with Beat _ => None | Event name data => Some (EvData name data) end) items.

Definition no_eol (s : string) : Prop := Forall (λ c, is_lf c = false ∧ is_cr c = false) (bytes s).

Definition item_ok (i : sse_item) : Prop :=
  match i with
  | Beat text => no_eol text
  | Event name data =>
      no_eol name ∧ TrimSpace name = name ∧
      Forall (λ c, is_cr c = false) (bytes data) ∧
      (∃ c l, bytes data = c :: l ∧ is_lf c = false) ∧ (∃ c l, bytes data = l ++ [c] ∧ is_lf c = false)
  end.

Lemma of_bytes_app l l' : of_bytes (l ++ l') = of_bytes l +:+ of_bytes l'.
Proof. apply bytes_inj. by rewrite bytes_app, !bytes_of_bytes. Qed.

Lemma cut_lines_line acc a l :
  Forall (λ c, is_lf c = false) a →
  cut_lines acc (a ++ LF :: l) = let '(ls, rest) := cut_lines [] l in (of_bytes (rev acc ++ a) :: ls, rest).
Proof.
  intros H. revert acc. induction H as [|c a Hc _ IH]; intros acc; cbn [app cut_lines].
  - by rewrite app_nil_r.
  - rewrite Hc, IH. cbn. by rewrite <-app_assoc.
Qed.

Lemma TrimRight_none p s : Forall (λ c, p c = false) (bytes s) → TrimRight p s = s.
Proof.
  intros H. unfold TrimRight. apply List.Forall_rev in H.
  destruct (rev (bytes s)) as [|c l] eqn:E.
  - cbn. apply bytes_inj. rewrite <-(rev_involutive (bytes s)), E. done.
  - inversion H as [|?? Hc]. cbn [drop_while]. rewrite Hc, <-E, rev_involutive. apply of_bytes_bytes.
Qed.

Lemma TrimRight_app p s t : Forall (λ c, p c = true) (bytes t) → TrimRight p (s +:+ t) = TrimRight p s.
Proof.
  intros H. unfold TrimRight. f_equal. f_equal. rewrite bytes_app, rev_app_distr.
  apply List.Forall_rev in H. induction H as [|c l Hc _ IH]; [done|]. cbn. by rewrite Hc.
Qed.

Definition eol (crlf : bool) : string := if crlf then String CR "" else "".

Lemma lines_render crlf ls : Forall no_eol ls → lines (render_lines crlf ls) = (map (λ l, l +:+ eol crlf) ls, "").
Proof.
  intros H. unfold lines, render_lines. induction H as [|l ls Hl _ IH]; [done|]. cbn [map concat_strings].
  assert (l +:+ (if crlf then String CR (String LF "") else String LF "") = (l +:+ eol crlf) +:+ String LF "") as ->.
  { apply bytes_inj. rewrite !bytes_app. destruct crlf; cbn; by rewrite <-app_assoc. }
  rewrite !bytes_app. cbn [bytes String.list_ascii_of_string]. rewrite <-(app_assoc _ [LF]). cbn [app].
  rewrite cut_lines_line, IH.
  - cbn [rev app]. by rewrite <-bytes_app, of_bytes_bytes.
  - apply Forall_app. split; [eapply Forall_impl; [exact Hl|]; by intros c [? _]|]. destruct crlf; by repeat constructor.
Qed.

Lemma TrimRight_eol crlf p l :
  Forall (λ c, p c = false) (bytes l) → p CR = true → TrimRight p (l +:+ eol crlf) = l.
Proof.
  intros Hl Hp. rewrite TrimRight_app; [by apply TrimRight_none|]. destruct crlf; by repeat constructor.
Qed.

Lemma trim_all_eol crlf p ls :
  (∀ c, is_lf c = false → is_cr c = false → p c = false) → p CR = true → Forall no_eol ls →
  map (TrimRight p) (map (λ l, l +:+ eol crlf) ls) = ls.
Proof.
  intros Hp Hc H. rewrite map_map. induction H as [|l ls Hl _ IH]; [done|]. cbn [map]. rewrite IH. f_equal.
  apply TrimRight_eol; [|done]. eapply Forall_impl; [exact Hl|]. cbn. intros c [? ?]. by apply Hp.
Qed.

Lemma read_lines_render crlf ls err :
  Forall no_eol ls → read_lines {| body_text := render_lines crlf ls; body_err := err |} = ls.
Proof.
  intros H. unfold read_lines. cbn [body_text]. rewrite lines_render by done. apply trim_all_eol; [|done|done].
  by intros c -> ->.
Qed.

Lemma drop_cr_eol crlf l : no_eol l → drop_cr (l +:+ eol crlf) = l.
Proof.
  intros H. unfold drop_cr, HasSuffix. destruct crlf; cbn [eol].
  - rewrite bytes_app, rev_app_distr. cbn [bytes String.list_ascii_of_string rev app of_bytes String.string_of_list_ascii HasPrefix].
    rewrite Ascii.eqb_refl. cbn [andb]. rewrite length_string_app. cbn [String.length].
    replace (String.length l + 1 - 1)%nat with (String.length l) by lia. apply string_take_app.
  - rewrite bytes_app. cbn [bytes String.list_ascii_of_string rev app of_bytes String.string_of_list_ascii]. rewrite app_nil_r.
    replace (l +:+ "") with l by (apply bytes_inj; rewrite bytes_app; by rewrite app_nil_r).
    apply List.Forall_rev in H. destruct (rev (bytes l)) as [|c r]; [done|]. inversion H as [|?? [_ Hc]].
    change (of_bytes (c :: r)) with (String c (of_bytes r)). cbn [HasPrefix]. unfold is_cr in Hc.
    rewrite Ascii.eqb_sym in Hc. by rewrite Hc.
Qed.

Lemma scan_render crlf ls err :
  Forall no_eol ls → Forall (λ l, Z.of_nat (String.length l) + 1 < max_token) ls →
  scan {| body_text := render_lines crlf ls; body_err := err |} = (ls, err).
Proof.
  intros H Hlen. unfold scan. cbn [body_text body_err]. rewrite lines_render by done. cbn [String.eqb]. rewrite app_nil_r.
  induction H as [|l ls Hl _ IH]; [done|]. inversion Hlen as [|?? Hl1 Hls]; subst. cbn [map scan_tokens].
  assert (Z.of_nat (String.length (l +:+ eol crlf)) < max_token) as Hlt.
  { rewrite length_string_app. destruct crlf; cbn [eol String.length]; lia. }
  apply Z.leb_gt in Hlt. rewrite Hlt, (IH Hls), drop_cr_eol by done. done.
Qed.

(** *** The lines of an event *)

Definition gather_data (st : sse_state) (ps : list string) : sse_state := foldl (λ st p, add_data p st) st ps.

Lemma gather_cons st p ps : gather_data st (p :: ps) = gather_data (add_data p st) ps.
Proof. done. Qed.

Lemma split_gather event d acc l :
  d ≠ "" → gather_data {| st_event := event; st_data := d |} (split_bytes LF acc l) =
  {| st_event := event; st_data := d +:+ String LF (of_bytes (rev acc ++ l)) |}.
Proof.
  revert d acc. induction l as [|c l IH]; intros d acc Hd; cbn [split_bytes].
  - cbn [gather_data foldl]. unfold add_data. cbn [st_data st_event]. destruct (String.eqb_spec d ""); [done|]. by rewrite app_nil_r.
  - destruct (Ascii.eqb_spec c LF) as [->|Hc].
    + rewrite gather_cons. unfold add_data. cbn [st_data st_event].
      destruct (String.eqb_spec d ""); [done|]. rewrite IH.
      * f_equal. cbn [rev app]. rewrite of_bytes_app. apply bytes_inj. rewrite !bytes_app. cbn.
        rewrite !bytes_app, !bytes_of_bytes. cbn. by rewrite bytes_of_bytes, <-app_assoc.
      * by destruct d.
    + rewrite IH by done. cbn [rev]. by rewrite <-app_assoc.
Qed.

Lemma split_gather_first event acc l :
  acc ≠ [] → gather_data {| st_event := event; st_data := "" |} (split_bytes LF acc l) =
  {| st_event := event; st_data := of_bytes (rev acc ++ l) |}.
Proof.
  revert acc. induction l as [|c l IH]; intros acc Ha; cbn [split_bytes].
  - by rewrite app_nil_r.
  - destruct (Ascii.eqb_spec c LF) as [->|Hc].
    + rewrite gather_cons. unfold add_data. cbn [st_data st_event String.eqb]. rewrite split_gather.
      * f_equal. cbn [rev app]. rewrite of_bytes_app. by cbn.
      * intros E. apply (f_equal bytes) in E. rewrite bytes_of_bytes in E. cbn in E.
        apply (f_equal (@rev ascii)) in E. rewrite rev_involutive in E. done.
    + rewrite IH by done. cbn [rev]. by rewrite <-app_assoc.
Qed.

Lemma parse_step st line ls :
  line ≠ "" → parse_lines st (line :: ls) = parse_lines (sse_line line st) ls.
Proof. intros H. cbn [parse_lines]. by destruct (String.eqb_spec line ""). Qed.

Lemma parse_data_lines st ps ls :
  parse_lines st (map (λ l, "data: " +:+ l) ps ++ ls) = parse_lines (gather_data st ps) ls.
Proof.
  revert st. induction ps as [|p ps IH]; intros st; [done|]. cbn [map app]. rewrite parse_step by done.
  rewrite IH, gather_cons. by destruct p.
Qed.

Lemma sse_event_name name : TrimSpace name = name → sse_line ("event: " +:+ name) sse_start = {| st_event := name; st_data := "" |}.
Proof.
  intros H. unfold sse_line. cbn [HasPrefix String.append Ascii.eqb Bool.eqb andb]. rewrite <-H at 2. f_equal.
  change ("event: " +:+ name) with ("event:" +:+ (" " +:+ name)). rewrite TrimPrefix_app.
  unfold TrimSpace. rewrite bytes_app, drop_space1; [done|]. by repeat constructor.
Qed.

Lemma sse_comment text st : sse_line (":" +:+ text) st = st.
Proof. unfold sse_line. replace (HasPrefix (":" +:+ text) ":") with true; [done|]. symmetry. apply HasPrefix_spec. by exists text. Qed.

Lemma split_no_lf acc l : Forall (λ c, is_cr c = false) acc → Forall (λ c, is_lf c = false) acc →
  Forall (λ c, is_cr c = false) l → Forall no_eol (split_bytes LF acc l).
Proof.
  intros Ha Ha' Hl. revert acc Ha Ha'. induction Hl as [|c l Hc _ IH]; intros acc Ha Ha'; cbn [split_bytes].
  - constructor; [|constructor]. unfold no_eol. rewrite bytes_of_bytes. apply List.Forall_rev.
    rewrite Forall_forall in *. intros x Hx. split; auto.
  - destruct (Ascii.eqb c LF) eqn:E.
    + constructor; [|by apply IH]. unfold no_eol. rewrite bytes_of_bytes. apply List.Forall_rev.
      rewrite Forall_forall in *. intros x Hx. split; auto.
    + apply IH; by constructor.
Qed.

Lemma item_lines_clean i : item_ok i → Forall no_eol (item_lines i).
Proof.
  assert (∀ p s, no_eol p → no_eol s → no_eol (p +:+ s)) as Happ.
  { intros p s Hp Hs. unfold no_eol. rewrite bytes_app. by apply Forall_app. }
  destruct i as [text|name data]; cbn [item_lines].
  - intros H. constructor; [|constructor]. apply Happ; [|done]. by repeat constructor.
  - intros (Hn & _ & Hd & _). apply Forall_app. split.
    { destruct (String.eqb name ""); [constructor|]. constructor; [|constructor]. apply (Happ "event: "); [|done]. by repeat constructor. }
    apply Forall_app. split; [|by repeat constructor]. apply Forall_map.
    eapply Forall_impl; [by apply (split_no_lf [] (bytes data))|]. cbn. intros l Hl. apply (Happ "data: "); [|done]. by repeat constructor.
Qed.

Lemma parse_item i ls :
  item_ok i → parse_lines sse_start (item_lines i ++ ls) =
  let '(evs, st) := parse_lines sse_start ls in (events_of [i] ++ evs, st).
Proof.
  destruct i as [text|name data]; cbn [item_lines].
  - intros _. cbn [app]. rewrite parse_step by done. rewrite sse_comment. change (events_of [Beat text]) with (@nil SSEEvent).
    by destruct (parse_lines sse_start ls).
  - intros (_ & Hn & _ & (c & l & Hd & Hc) & (c' & l' & Hd' & Hc')). rewrite <-!app_assoc.
    assert (parse_lines sse_start ((if String.eqb name "" then [] else ["event: " +:+ name]) ++
              map (λ l, "data: " +:+ l) (Split data LF) ++ [""] ++ ls) =
            parse_lines {| st_event := name; st_data := "" |} (map (λ l, "data: " +:+ l) (Split data LF) ++ [""] ++ ls)) as ->.
    { destruct (String.eqb_spec name "") as [->|]; [done|]. cbn [app]. rewrite parse_step by done. by rewrite sse_event_name. }
    rewrite parse_data_lines. unfold Split. rewrite Hd. cbn [split_bytes]. unfold is_lf in Hc. rewrite Hc.
    rewrite split_gather_first by done. cbn [rev app]. rewrite <-Hd, of_bytes_bytes. cbn [parse_lines String.eqb].
    destruct (parse_lines sse_start ls) as [evs st]. unfold flush. cbn [st_data].
    destruct (String.eqb_spec data "") as [->|_]; [done|]. unfold event_of. cbn [st_event st_data].
    assert (TrimRight is_lf data = data) as ->; [|done].
    unfold TrimRight. rewrite Hd', rev_app_distr. cbn [rev app drop_while]. rewrite Hc'. cbn [rev].
    by rewrite rev_involutive, <-Hd', of_bytes_bytes.
Qed.

Lemma parse_items items :
  Forall item_ok items → parse_lines sse_start (items ≫= item_lines) = (events_of items, sse_start).
Proof.
  intros H. induction H as [|i items Hi _ IH]; [done|]. cbn [mbind list_bind]. rewrite parse_item by done.
  rewrite IH. by destruct i.
Qed.

Lemma parseSSE_render crlf items err :
  Forall item_ok items →
  parseSSE {| body_text := render crlf items; body_err := err |} =
  events_of items ++ match err with Some e => [EvErr (EWrap "sse read" e)] | None => [] end.
Proof.
  intros H. unfold parseSSE, render. rewrite read_lines_render.
  - rewrite parse_items by done. cbn [body_err]. by destruct err.
  - apply Forall_bind. eapply Forall_impl; [exact H|]. apply item_lines_clean.
Qed.

Lemma scanSSE_render crlf items err {S} (handle : S → string → string → bool * S) s :
  Forall item_ok items →
  scanSSE handle s {| body_text := render crlf items; body_err := err |} =
  let '(s', stopped) := feed handle s (events_of items) in (s', if (stopped : bool) then None else err).
Proof.
  intros H. rewrite scanSSE_feeds, parseSSE_render by done. rewrite feed_app.
  2: { clear. induction items as [|[text|name data] items IH]; [constructor|exact IH|by constructor]. }
  destruct (feed handle s (events_of items)) as [s' []]; [done|]. by destruct err.
Qed.

(** C19: events arrive as they were sent.  Whatever the names and the texts of
    the events (a text may span lines, but neither starts nor ends with an end
    of line and holds no carriage return), whatever comments come between
    them, with LF or CRLF at the ends of the lines: the parser of the ChatGPT
    client returns the events and, if the connection breaks, the error after
    them; the parser of the adapters calls its function with the same events,
    one after the other, until it stops, and reports the error if it has not. *)
Theorem events_arrive crlf items err {S} (handle : S → string → string → bool * S) s :
  Forall item_ok items →
  let b := {| body_text := render crlf items; body_err := err |} in
  parseSSE b = events_of items ++ (match err with Some e => [EvErr (EWrap "sse read" e)] | None => [] end) ∧
  scanSSE handle s b =
    let '(s', stopped) := feed handle s (events_of items) in (s', if (stopped : bool) then None else err).
Proof. intros H. split; [by apply parseSSE_render|by apply scanSSE_render]. Qed.

Lemma events_arrive_witness :
  let items := [Beat " ping"; Event "delta" (String "123" (String LF "1}")); Event "" "[DONE]"] in
  parseSSE {| body_text := render true items; body_err := Some EDriver |} =
  [EvData "delta" (String "123" (String LF "1}")); EvData "" "[DONE]"; EvErr (EWrap "sse read" EDriver)].
Proof.
  cbv zeta. apply (events_arrive true [Beat " ping"; Event "delta" (String "123" (String LF "1}")); Event "" "[DONE]"] (Some EDriver)
    (λ (n : nat) (_ _ : string), (true, n)) 0%nat).
  repeat constructor; try (by eexists _, _).
  - by exists "}"%char, ["{"%char; LF; "1"%char].
  - by exists "]"%char, (bytes "[DONE").
Defined.
