(* ===== verification/Settings.v ===== *)
(** * System settings (internal/settings)

    The table [system_settings] behind an in-memory map: [Reload] loads it,
    [Set] writes through a whitelist, and every other component reads the
    typed getters, which repair values an administrator should not have
    entered. *)

From S2P Require Import Prelude GoStrings Float Sql Schema.

(** ** Keys and their schema (model.go) *)

Definition KeySiteName : string := "site.name".
Definition KeySiteDescription : string := "site.description".
Definition KeySiteLogoURL : string := "site.logo_url".
Definition KeySiteFooter : string := "site.footer".
Definition KeySiteImageNotice : string := "site.image_notice".
Definition KeySiteContactEmail : string := "site.contact_email".
Definition KeySiteDocsURL : string := "site.docs_url".
Definition KeySiteAPIBaseURL : string := "site.api_base_url".
Definition KeySiteWebDomain : string := "site.web_domain".
Definition KeySiteLegacyWAPDomain : string := "site.wap_domain".
Definition KeySiteShowcaseURLs : string := "site.showcase_urls".
Definition KeyUIDefaultPageSize : string := "ui.default_page_size".
Definition KeyAuthAllowRegister : string := "auth.allow_register".
Definition KeyAuthRequireEmailVerify : string := "auth.require_email_verify".
Definition KeyAuthEmailDomainWhitelist : string := "auth.email_domain_whitelist".
Definition KeyAuthPasswordMinLength : string := "auth.password_min_length".
Definition KeyAuthInviteCodeRequired : string := "auth.invite_code_required".
Definition KeyAuth2FAEnabled : string := "auth.2fa_enabled".
Definition KeyAuthJWTAccessTTLSec : string := "auth.jwt_access_ttl_sec".
Definition KeyAuthJWTRefreshTTLSec : string := "auth.jwt_refresh_ttl_sec".
Definition KeyAuthDailyCheckinCredits : string := "auth.daily_checkin_credits".
Definition KeyAuthDefaultGroupID : string := "auth.default_group_id".
Definition KeyAuthSignupBonusCredits : string := "auth.signup_bonus_credits".
Definition KeyLimitDefaultRPM : string := "limit.default_rpm".
Definition KeyLimitDefaultTPM : string := "limit.default_tpm".
Definition KeyKeyDefaultDailyQuota : string := "key.default_daily_quota_credits".
Definition KeyKeyMaxPerUser : string := "key.max_per_user".
Definition KeyGatewayUpstreamTimeoutSec : string := "gateway.upstream_timeout_sec".
Definition KeyGatewaySSEReadTimeoutSec : string := "gateway.sse_read_timeout_sec".
Definition KeyGatewayCooldown429Sec : string := "gateway.cooldown_429_sec".
Definition KeyGatewayWarnedPauseHours : string := "gateway.warned_pause_hours".
Definition KeyGatewayDailyUsageRatio : string := "gateway.daily_usage_ratio".
Definition KeyGatewayRetryOnFailure : string := "gateway.retry_on_failure".
Definition KeyGatewayRetryMax : string := "gateway.retry_max".
Definition KeyGatewayDispatchQueueWaitSec : string := "gateway.dispatch_queue_wait_sec".
Definition KeyProxyProbeEnabled : string := "proxy.probe_enabled".
Definition KeyProxyProbeIntervalSec : string := "proxy.probe_interval_sec".
Definition KeyProxyProbeTimeoutSec : string := "proxy.probe_timeout_sec".
Definition KeyProxyProbeTargetURL : string := "proxy.probe_target_url".
Definition KeyProxyProbeConcurrency : string := "proxy.probe_concurrency".
Definition KeyAccountRefreshEnabled : string := "account.refresh_enabled".
Definition KeyAccountRefreshIntervalSec : string := "account.refresh_interval_sec".
Definition KeyAccountRefreshAheadSec : string := "account.refresh_ahead_sec".
Definition KeyAccountRefreshConcurrency : string := "account.refresh_concurrency".
Definition KeyAccountQuotaProbeEnabled : string := "account.quota_probe_enabled".
Definition KeyAccountQuotaProbeIntervalSec : string := "account.quota_probe_interval_sec".
Definition KeyAccountDefaultClientID : string := "account.default_client_id".
Definition KeyBillingCreditPerCNY : string := "billing.credit_per_cny".
Definition KeyBillingNotifyAdminOnAdjust : string := "billing.notify_admin_on_adjust".
Definition KeyRechargeEnabled : string := "recharge.enabled".
Definition KeyRechargeMinCNY : string := "recharge.min_cny".
Definition KeyRechargeMaxCNY : string := "recharge.max_cny".
Definition KeyRechargeDailyLimitCNY : string := "recharge.daily_limit_cny".
Definition KeyRechargeOrderExpireMinutes : string := "recharge.order_expire_minutes".
Definition KeyMailEnabledDisplay : string := "mail.enabled_display".
Definition KeyMailSMTPEnabled : string := "mail.smtp_enabled".
Definition KeyMailSMTPHost : string := "mail.smtp_host".
Definition KeyMailSMTPPort : string := "mail.smtp_port".
Definition KeyMailSMTPUsername : string := "mail.smtp_username".
Definition KeyMailSMTPPassword : string := "mail.smtp_password".
Definition KeyMailSMTPFrom : string := "mail.smtp_from".
Definition KeyMailSMTPFromName : string := "mail.smtp_from_name".
Definition KeyMailSMTPUseTLS : string := "mail.smtp_use_tls".
Definition KeyStorageImageMode : string := "storage.image_storage_mode".
Definition KeyStorageCloudConfig : string := "storage.cloud_config".

(** The URL, code and channel a fresh installation has. *)
Definition SanyueUploadChannelTelegram : string := "telegram".
Definition SanyueUploadChannelHuggingFace : string := "huggingface".
(** Writing JSON with backquotes for its double quotes. *)
Definition json (s : string) : string := replace_byte "`" (ascii_of_N 34) s.
Definition DefaultSanyueImgHubConfigJSON : string :=
  json "{`upload_url`:`https://img2.oaiapis.com/upload`,`auth_code`:``,`server_compress`:false,`return_format`:`full`,`upload_channel`:`telegram`}".

(** [KeyDef], without the texts the settings page shows. *)
Record KeyDef := {
  DefKey : string;
  DefType : string;
  DefCategory : string;
  DefDefault : string;
  DefPublic : bool
}.

Definition Defs : list KeyDef := [
  Build_KeyDef KeySiteName "string" "site" "GPT2API" true;
  Build_KeyDef KeySiteDescription "string" "site" "企业级 OpenAI 兼容网关" true;
  Build_KeyDef KeySiteLogoURL "url" "site" "" true;
  Build_KeyDef KeySiteFooter "string" "site" "" true;
  Build_KeyDef KeySiteImageNotice "string" "site" "" true;
  Build_KeyDef KeySiteContactEmail "email" "site" "" true;
  Build_KeyDef KeySiteDocsURL "url" "site" "" true;
  Build_KeyDef KeySiteAPIBaseURL "url" "site" "" true;
  Build_KeyDef KeySiteWebDomain "string" "site" "" true;
  Build_KeyDef KeySiteShowcaseURLs "string" "site" "" true;
  Build_KeyDef KeyUIDefaultPageSize "int" "site" "20" false;
  Build_KeyDef KeyAuthAllowRegister "bool" "auth" "true" true;
  Build_KeyDef KeyAuthRequireEmailVerify "bool" "auth" "false" true;
  Build_KeyDef KeyAuthEmailDomainWhitelist "string" "auth" "" false;
  Build_KeyDef KeyAuthPasswordMinLength "int" "auth" "6" false;
  Build_KeyDef KeyAuthInviteCodeRequired "bool" "auth" "false" false;
  Build_KeyDef KeyAuth2FAEnabled "bool" "auth" "false" false;
  Build_KeyDef KeyAuthJWTAccessTTLSec "int" "auth" "7200" false;
  Build_KeyDef KeyAuthJWTRefreshTTLSec "int" "auth" "604800" false;
  Build_KeyDef KeyAuthDailyCheckinCredits "int" "auth" "0" false;
  Build_KeyDef KeyAuthDefaultGroupID "int" "defaults" "1" false;
  Build_KeyDef KeyAuthSignupBonusCredits "int" "defaults" "0" false;
  Build_KeyDef KeyLimitDefaultRPM "int" "defaults" "60" false;
  Build_KeyDef KeyLimitDefaultTPM "int" "defaults" "60000" false;
  Build_KeyDef KeyKeyDefaultDailyQuota "int" "defaults" "0" false;
  Build_KeyDef KeyKeyMaxPerUser "int" "defaults" "20" false;
  Build_KeyDef KeyGatewayUpstreamTimeoutSec "int" "gateway" "60" false;
  Build_KeyDef KeyGatewaySSEReadTimeoutSec "int" "gateway" "120" false;
  Build_KeyDef KeyGatewayCooldown429Sec "int" "gateway" "300" false;
  Build_KeyDef KeyGatewayWarnedPauseHours "int" "gateway" "24" false;
  Build_KeyDef KeyGatewayDailyUsageRatio "float" "gateway" "0.8" false;
  Build_KeyDef KeyGatewayRetryOnFailure "bool" "gateway" "true" false;
  Build_KeyDef KeyGatewayRetryMax "int" "gateway" "1" false;
  Build_KeyDef KeyGatewayDispatchQueueWaitSec "int" "gateway" "120" false;
  Build_KeyDef KeyProxyProbeEnabled "bool" "gateway" "true" false;
  Build_KeyDef KeyProxyProbeIntervalSec "int" "gateway" "300" false;
  Build_KeyDef KeyProxyProbeTimeoutSec "int" "gateway" "10" false;
  Build_KeyDef KeyProxyProbeTargetURL "url" "gateway" "" false;
  Build_KeyDef KeyProxyProbeConcurrency "int" "gateway" "8" false;
  Build_KeyDef KeyAccountRefreshEnabled "bool" "gateway" "true" false;
  Build_KeyDef KeyAccountRefreshIntervalSec "int" "gateway" "120" false;
  Build_KeyDef KeyAccountRefreshAheadSec "int" "gateway" "900" false;
  Build_KeyDef KeyAccountRefreshConcurrency "int" "gateway" "4" false;
  Build_KeyDef KeyAccountQuotaProbeEnabled "bool" "gateway" "true" false;
  Build_KeyDef KeyAccountQuotaProbeIntervalSec "int" "gateway" "18000" false;
  Build_KeyDef KeyAccountDefaultClientID "string" "gateway" "app_EMoamEEZ73f0CkXaXp7hrann" false;
  Build_KeyDef KeyBillingCreditPerCNY "int" "billing" "10000" false;
  Build_KeyDef KeyBillingNotifyAdminOnAdjust "bool" "billing" "false" false;
  Build_KeyDef KeyRechargeEnabled "bool" "billing" "true" true;
  Build_KeyDef KeyRechargeMinCNY "int" "billing" "100" false;
  Build_KeyDef KeyRechargeMaxCNY "int" "billing" "0" false;
  Build_KeyDef KeyRechargeDailyLimitCNY "int" "billing" "0" false;
  Build_KeyDef KeyRechargeOrderExpireMinutes "int" "billing" "30" false;
  Build_KeyDef KeyMailSMTPEnabled "bool" "mail" "false" false;
  Build_KeyDef KeyMailSMTPHost "string" "mail" "" false;
  Build_KeyDef KeyMailSMTPPort "int" "mail" "465" false;
  Build_KeyDef KeyMailSMTPUsername "string" "mail" "" false;
  Build_KeyDef KeyMailSMTPPassword "password" "mail" "" false;
  Build_KeyDef KeyMailSMTPFrom "email" "mail" "" false;
  Build_KeyDef KeyMailSMTPFromName "string" "mail" "GPT2API" false;
  Build_KeyDef KeyMailSMTPUseTLS "bool" "mail" "true" false;
  Build_KeyDef KeyMailEnabledDisplay "string" "mail" "auto" false;
  Build_KeyDef KeyStorageImageMode "select" "storage" "local" false;
  Build_KeyDef KeyStorageCloudConfig "sanyue_img_hub" "storage" DefaultSanyueImgHubConfigJSON false
].

Definition DefByKey (k : string) : option KeyDef := head (filter (λ d, DefKey d = k) Defs).

Definition IsAllowedKey (k : string) : bool :=
  let k := TrimSpace k in
  if String.eqb k "" then false else match DefByKey k with Some _ => true | None => false end.

(** ** The table (dao.go) *)

Definition LoadAll : DBM (gmap string string) :=
  query (λ d, Ok (default "" <$> system_settings d)).

(** [INSERT .. ON DUPLICATE KEY UPDATE], in the order Go's map iteration
    takes. *)
Definition upsert (k v : string) : DBM unit :=
  exec (λ d, Ok (tt, with_system_settings <[k := Some v]> d)).

Fixpoint set_loop (kv : list (string * string)) : DBM unit :=
  match kv with
  | [] => ret tt
  | (k, v) :: kv =>
      let k := TrimSpace k in
      if String.eqb k "" then set_loop kv else upsert k v ;; set_loop kv
  end.

Definition SetMany (kv : list (string * string)) : DBM unit :=
  match kv with [] => ret tt | _ => runTx (set_loop kv) end.

(** ** The service (service.go): the state is the cached map *)

Abbreviation cache := (gmap string string).

(** Defaults for the keys the table lacks. *)
Definition fill_defaults (m : cache) : cache :=
  foldl (λ m d, match m !! DefKey d with Some _ => m | None => <[DefKey d := DefDefault d]> m end) m Defs.

Definition Reload (c : cache) : DBM cache := m <- LoadAll ;; ret (fill_defaults m).

Definition Snapshot (c : cache) : cache :=
  foldl (λ out d, <[DefKey d := default (DefDefault d) (c !! DefKey d)]> out) ∅ Defs.

Definition PublicSnapshot (c : cache) : cache :=
  foldl (λ out d, if DefPublic d then <[DefKey d := default (DefDefault d) (c !! DefKey d)]> out
                  else out) ∅ Defs.

(** [inp]: the map to write, in the order of its iteration. *)
Definition filtered (inp : list (string * string)) : list (string * string) :=
  map (λ kv, (kv.1, TrimSpace kv.2)) (filter (λ kv, IsAllowedKey kv.1 = true) inp).

Definition Set_ (c : cache) (inp : list (string * string)) : DBM cache :=
  let kvs := filtered inp in
  match kvs with
  | [] => ret c
  | _ => SetMany kvs ;; ret (foldl (λ c kv, <[kv.1 := kv.2]> c) c kvs)
  end.

(** ** Typed getters *)

Section getters.
Variable c : cache.

Definition GetString (key : string) : string :=
  match c !! key with
  | Some v => v
  | None => match DefByKey key with Some d => DefDefault d | None => "" end
  end.

Definition GetBool (key : string) : bool :=
  let v := ToLower (TrimSpace (GetString key)) in
  String.eqb v "1" || String.eqb v "true" || String.eqb v "yes" || String.eqb v "on".

(** [strconv.ParseInt], errors ignored: 0 for a syntax error, the nearest
    bound for a number out of range. *)
Definition GetInt (key : string) : Z := ParseInt_value (TrimSpace (GetString key)).

Section floats.
Variable parse_exotic : list ascii → gofloat.

Definition GetFloat (key : string) : gofloat := ParseFloat_value parse_exotic (TrimSpace (GetString key)).

(** [f <= 0 || f > 1]: both comparisons are false of NaN. *)
Definition outside_unit (f : gofloat) : bool :=
  match f with
  | Fin q => Qle_bool q 0 || negb (Qle_bool q 1)
  | PosInf | NegInf => true
  | NaN => false
  end.

Definition DailyUsageRatio : gofloat :=
  let f := GetFloat KeyGatewayDailyUsageRatio in
  if outside_unit f then Fin (rnd (8 # 10)) else f.
End floats.

Fixpoint firstNonEmpty (vs : list string) : string :=
  match vs with
  | [] => ""
  | v :: vs => if String.eqb (TrimSpace v) "" then firstNonEmpty vs else v
  end.

(** [if n <= 0 { return d }] and the like *)
Definition positive_or (d n : Z) : Z := if n <=? 0 then d else n.
Definition floor0 (n : Z) : Z := if n <? 0 then 0 else n.
Definition cap (hi n : Z) : Z := if hi <? n then hi else n.

Definition SiteName : string := firstNonEmpty [GetString KeySiteName; "GPT2API"].
Definition ImageStorageMode : string :=
  if String.eqb (ToLower (TrimSpace (GetString KeyStorageImageMode))) "cloud" then "cloud" else "local".
Definition CloudConfig : string := TrimSpace (GetString KeyStorageCloudConfig).

Definition AllowRegister : bool := GetBool KeyAuthAllowRegister.
Definition RequireEmailVerify : bool := GetBool KeyAuthRequireEmailVerify.
Definition DefaultGroupID : N := Z.to_N (positive_or 1 (GetInt KeyAuthDefaultGroupID)).
Definition SignupBonusCredits : Z := floor0 (GetInt KeyAuthSignupBonusCredits).
Definition DailyCheckinCredits : Z := floor0 (GetInt KeyAuthDailyCheckinCredits).
Definition PasswordMinLength : Z :=
  let n := GetInt KeyAuthPasswordMinLength in
  let n := if n <? 1 then 6 else n in cap 128 n.

(** [None]: no restriction (a nil map). *)
Definition EmailDomainWhitelist : option (gset string) :=
  let raw := TrimSpace (GetString KeyAuthEmailDomainWhitelist) in
  if String.eqb raw "" then None else
  let out := list_to_set (filter (λ d, d ≠ "")
               (map (λ seg, TrimPrefix (ToLower (TrimSpace seg)) "@") (Split raw ","))) in
  if decide (out = ∅) then None else Some out.

Definition JWTAccessTTLSec : Z := positive_or 3600 (GetInt KeyAuthJWTAccessTTLSec).
Definition JWTRefreshTTLSec : Z := positive_or (7 * 24 * 3600) (GetInt KeyAuthJWTRefreshTTLSec).
Definition KeyDefaultDailyQuota : Z := floor0 (GetInt KeyKeyDefaultDailyQuota).
Definition KeyMaxPerUser : Z := GetInt KeyKeyMaxPerUser.

Definition GatewayUpstreamTimeoutSec : Z := positive_or 60 (GetInt KeyGatewayUpstreamTimeoutSec).
Definition GatewaySSEReadTimeoutSec : Z := positive_or 120 (GetInt KeyGatewaySSEReadTimeoutSec).
Definition Cooldown429Sec : Z := positive_or 300 (GetInt KeyGatewayCooldown429Sec).
Definition WarnedPauseHours : Z := positive_or 24 (GetInt KeyGatewayWarnedPauseHours).
Definition RetryOnFailure : bool := GetBool KeyGatewayRetryOnFailure.
Definition RetryMax : Z :=
  let n := GetInt KeyGatewayRetryMax in if n <? 0 then 0 else cap 3 n.
Definition DispatchQueueWaitSec : Z :=
  let n := GetInt KeyGatewayDispatchQueueWaitSec in if n <? 0 then 120 else n.

Definition ProbeEnabled : bool := GetBool KeyProxyProbeEnabled.
Definition ProbeIntervalSec : Z := positive_or 300 (GetInt KeyProxyProbeIntervalSec).
Definition ProbeTimeoutSec : Z := positive_or 10 (GetInt KeyProxyProbeTimeoutSec).
Definition ProbeTargetURL : string := TrimSpace (GetString KeyProxyProbeTargetURL).
Definition ProbeConcurrency : Z := cap 64 (positive_or 8 (GetInt KeyProxyProbeConcurrency)).

Definition AccountRefreshEnabled : bool := GetBool KeyAccountRefreshEnabled.
Definition AccountRefreshIntervalSec : Z := positive_or 120 (GetInt KeyAccountRefreshIntervalSec).
Definition AccountRefreshAheadSec : Z := positive_or 900 (GetInt KeyAccountRefreshAheadSec).
Definition AccountRefreshConcurrency : Z := cap 32 (positive_or 4 (GetInt KeyAccountRefreshConcurrency)).
Definition AccountQuotaProbeEnabled : bool := GetBool KeyAccountQuotaProbeEnabled.
Definition AccountQuotaProbeIntervalSec : Z := positive_or 18000 (GetInt KeyAccountQuotaProbeIntervalSec).
Definition AccountDefaultClientID : string :=
  firstNonEmpty [GetString KeyAccountDefaultClientID; "app_EMoamEEZ73f0CkXaXp7hrann"].

Definition RechargeEnabled : bool := GetBool KeyRechargeEnabled.
Definition RechargeMinCNY : Z := floor0 (GetInt KeyRechargeMinCNY).
Definition RechargeMaxCNY : Z := floor0 (GetInt KeyRechargeMaxCNY).
Definition RechargeDailyLimitCNY : Z := floor0 (GetInt KeyRechargeDailyLimitCNY).
Definition RechargeOrderExpireMin : Z := positive_or 30 (GetInt KeyRechargeOrderExpireMinutes).

(** [mailer.Config] *)
Record MailConfig := {
  MHost : string; MPort : Z; MUsername : string; MPassword : string;
  MFrom : string; MFromName : string; MUseTLS : bool
}.
Definition MailerConfig : MailConfig :=
  if negb (GetBool KeyMailSMTPEnabled) then Build_MailConfig "" 0 "" "" "" "" false
  else {|
    MHost := TrimSpace (GetString KeyMailSMTPHost);
    MPort := positive_or 465 (GetInt KeyMailSMTPPort);
    MUsername := TrimSpace (GetString KeyMailSMTPUsername);
    MPassword := TrimSpace (GetString KeyMailSMTPPassword);
    MFrom := TrimSpace (GetString KeyMailSMTPFrom);
    MFromName := firstNonEmpty [GetString KeyMailSMTPFromName; "GPT2API"];
    MUseTLS := GetBool KeyMailSMTPUseTLS |}.
End getters.

(** ** Storage configuration (model.go)

    [encoding/json] and [net/url] are parameters: [unmarshal] reads the
    object (its [server_compress] as raw text, empty when absent),
    [unmarshal_bool] a boolean, [http_url] tells whether a URL parses with
    scheme http or https and a non-blank host. *)

Record SanyueImgHubConfig := {
  UploadURL : string; AuthCode : string; ServerCompress : bool;
  ReturnFormat : string; UploadChannel : string
}.

Record rawConfig := {
  rUploadURL : string; rAuthCode : string; rServerCompress : string;
  rReturnFormat : string; rUploadChannel : string
}.

Definition NormalizeSanyueUploadChannel (channel : string) : string :=
  let n := ToLower (TrimSpace channel) in
  if String.eqb n "" || String.eqb n SanyueUploadChannelTelegram then SanyueUploadChannelTelegram
  else if String.eqb n SanyueUploadChannelHuggingFace then SanyueUploadChannelHuggingFace
  else n.

Definition IsSupportedSanyueUploadChannel (channel : string) : bool :=
  let n := NormalizeSanyueUploadChannel channel in
  String.eqb n SanyueUploadChannelTelegram || String.eqb n SanyueUploadChannelHuggingFace.

Section storage.
Context (unmarshal : string → result rawConfig) (unmarshal_bool : string → option bool)
        (http_url : string → bool).

Definition ParseSanyueImgHubConfig (raw : string) : result SanyueImgHubConfig :=
  let raw := if String.eqb (TrimSpace raw) "" then DefaultSanyueImgHubConfigJSON else raw in
  match unmarshal raw with
  | Err e => Err (EWrap "storage.cloud_config invalid json: " e)
  | Ok p =>
      let sc := if String.eqb (rServerCompress p) "" then "false" else rServerCompress p in
      match unmarshal_bool sc with
      | None => Err (EMsg "storage.cloud_config server_compress must be bool")
      | Some b => Ok {|
          UploadURL := TrimSpace (rUploadURL p); AuthCode := TrimSpace (rAuthCode p);
          ServerCompress := b; ReturnFormat := TrimSpace (rReturnFormat p);
          UploadChannel := NormalizeSanyueUploadChannel (rUploadChannel p) |}
      end
  end.

Definition ValidateStorageSnapshot (snapshot : cache) : result unit :=
  let mode := ToLower (TrimSpace (default "" (snapshot !! KeyStorageImageMode))) in
  let mode := if String.eqb mode "" then "local" else mode in
  if negb (String.eqb mode "cloud") then Ok tt else
  cfg <-? ParseSanyueImgHubConfig (default "" (snapshot !! KeyStorageCloudConfig)) ;;
  if String.eqb (UploadURL cfg) "" then Err (EMsg "storage.cloud_config upload_url required") else
  if negb (http_url (UploadURL cfg))
  then Err (EMsg "storage.cloud_config upload_url must be http or https") else
  if String.eqb (AuthCode cfg) "" then Err (EMsg "storage.cloud_config auth_code required") else
  if String.eqb (ReturnFormat cfg) "" then Err (EMsg "storage.cloud_config return_format required") else
  if negb (IsSupportedSanyueUploadChannel (UploadChannel cfg))
  then Err (EMsg "storage.cloud_config upload_channel must be telegram or huggingface")
  else Ok tt.
End storage.

#[global] Arguments fill_defaults : simpl never.
#[global] Arguments filtered : simpl never.
#[global] Arguments Defs : simpl never.

(** ** The whitelist *)

Lemma Defs_NoDup : NoDup (map DefKey Defs).
Proof. apply (bool_decide_unpack _). by vm_compute. Qed.

Lemma DefByKey_Some k d : DefByKey k = Some d ↔ d ∈ Defs ∧ DefKey d = k.
Proof.
  unfold DefByKey. split.
  - intros H%head_Some_elem_of. by apply list_elem_of_filter in H as [? ?].
  - intros [Hd <-]. pose proof Defs_NoDup as Hn. induction Hd as [x l|x y l Hy IH]; cbn [map] in Hn.
    + by rewrite filter_cons_True.
    + apply NoDup_cons in Hn as [Hn1 Hn2]. rewrite filter_cons_False; [by apply IH|].
      intros H. apply Hn1. rewrite H. by apply list_elem_of_fmap_2.
Qed.

Lemma Defs_clean d : d ∈ Defs → TrimSpace (DefKey d) = DefKey d ∧ DefKey d ≠ "".
Proof.
  assert (Forall (λ d, TrimSpace (DefKey d) = DefKey d ∧ DefKey d ≠ "") Defs) as H.
  { apply (bool_decide_unpack _). by vm_compute. }
  rewrite Forall_forall in H. apply H.
Qed.

Lemma IsAllowedKey_clean k :
  TrimSpace k = k → IsAllowedKey k = true → ∃ d, DefByKey k = Some d ∧ k ≠ "".
Proof.
  unfold IsAllowedKey. intros ->. destruct (String.eqb_spec k ""); [done|].
  destruct (DefByKey k) as [d|]; [by exists d|done].
Qed.

(** ** Getters *)

Lemma positive_or_spec d n : 0 < d → 0 < positive_or d n.
Proof. unfold positive_or. destruct (Z.leb_spec n 0); lia. Qed.
Lemma floor0_spec n : 0 ≤ floor0 n.
Proof. unfold floor0. destruct (Z.ltb_spec n 0); lia. Qed.
Lemma cap_spec lo hi n : lo ≤ hi → lo ≤ n → lo ≤ cap hi n ≤ hi.
Proof. unfold cap. destruct (Z.ltb_spec hi n); lia. Qed.
#[local] Hint Resolve positive_or_spec floor0_spec : core.

Lemma firstNonEmpty_last v d : TrimSpace d ≠ "" → TrimSpace (firstNonEmpty [v; d]) ≠ "".
Proof.
  intros Hd. cbn [firstNonEmpty]. destruct (String.eqb_spec (TrimSpace v) ""); [|done].
  by destruct (String.eqb_spec (TrimSpace d) "").
Qed.

(** Whatever the table and the cache hold, every getter the other
    components read stays in its safe range: intervals, timeouts and
    lifetimes are positive, credits and limits are not negative, retries,
    concurrency and password length are within their bounds. *)
Theorem getters_safe c :
  (0 < JWTAccessTTLSec c ∧ 0 < JWTRefreshTTLSec c ∧ 0 < GatewayUpstreamTimeoutSec c ∧
   0 < GatewaySSEReadTimeoutSec c ∧ 0 < Cooldown429Sec c ∧ 0 < WarnedPauseHours c ∧
   0 < ProbeIntervalSec c ∧ 0 < ProbeTimeoutSec c ∧ 0 < AccountRefreshIntervalSec c ∧
   0 < AccountRefreshAheadSec c ∧ 0 < AccountQuotaProbeIntervalSec c ∧ 0 < RechargeOrderExpireMin c) ∧
  (0 ≤ SignupBonusCredits c ∧ 0 ≤ DailyCheckinCredits c ∧ 0 ≤ KeyDefaultDailyQuota c ∧
   0 ≤ DispatchQueueWaitSec c ∧ 0 ≤ RechargeMinCNY c ∧ 0 ≤ RechargeMaxCNY c ∧
   0 ≤ RechargeDailyLimitCNY c) ∧
  (1 ≤ PasswordMinLength c ≤ 128 ∧ 0 ≤ RetryMax c ≤ 3 ∧ 1 ≤ ProbeConcurrency c ≤ 64 ∧
   1 ≤ AccountRefreshConcurrency c ≤ 32 ∧ (1 ≤ DefaultGroupID c)%N) ∧
  (ImageStorageMode c ∈ ["cloud"; "local"] ∧ TrimSpace (SiteName c) ≠ "" ∧
   TrimSpace (AccountDefaultClientID c) ≠ "").
Proof.
  split_and!; try (by apply positive_or_spec); try (by apply floor0_spec);
    try (by apply cap_spec; [done|apply Zlt_le_succ, positive_or_spec]).
  - unfold DispatchQueueWaitSec. destruct (Z.ltb_spec (GetInt c KeyGatewayDispatchQueueWaitSec) 0); lia.
  - unfold PasswordMinLength.
    apply cap_spec; [done|destruct (Z.ltb_spec (GetInt c KeyAuthPasswordMinLength) 1); lia].
  - unfold PasswordMinLength.
    apply (cap_spec 1); [done|destruct (Z.ltb_spec (GetInt c KeyAuthPasswordMinLength) 1); lia].
  - unfold RetryMax. destruct (Z.ltb_spec (GetInt c KeyGatewayRetryMax) 0); [lia|].
    by apply cap_spec.
  - unfold RetryMax. destruct (Z.ltb_spec (GetInt c KeyGatewayRetryMax) 0); [lia|].
    by apply (cap_spec 0).
  - apply (cap_spec 1); [done|]. pose proof (positive_or_spec 8 (GetInt c KeyProxyProbeConcurrency)). lia.
  - apply (cap_spec 1); [done|]. pose proof (positive_or_spec 8 (GetInt c KeyProxyProbeConcurrency)). lia.
  - apply (cap_spec 1); [done|].
    pose proof (positive_or_spec 4 (GetInt c KeyAccountRefreshConcurrency)). lia.
  - apply (cap_spec 1); [done|].
    pose proof (positive_or_spec 4 (GetInt c KeyAccountRefreshConcurrency)). lia.
  - unfold DefaultGroupID. pose proof (positive_or_spec 1 (GetInt c KeyAuthDefaultGroupID)). lia.
  - unfold ImageStorageMode. destruct (String.eqb _ _); [left|right; left].
  - apply firstNonEmpty_last. by vm_compute.
  - apply firstNonEmpty_last. by vm_compute.
Qed.

(** The daily usage ratio is a number of (0, 1], or the stored text
    spells "NaN", which passes the range check. *)
Theorem DailyUsageRatio_range parse_exotic c :
  match DailyUsageRatio c parse_exotic with
  | Fin q => (0 < q /\ q <= 1)%Q
  | NaN => GetFloat c parse_exotic KeyGatewayDailyUsageRatio = NaN
  | _ => False
  end.
Proof.
  unfold DailyUsageRatio. destruct (outside_unit _) eqn:E; [by vm_compute|].
  destruct (GetFloat c parse_exotic _) as [q| | |] eqn:F; cbn in E; try done.
  apply orb_false_iff in E as [E1 E2]. apply negb_false_iff, Qle_bool_iff in E2. split; [|done].
  apply Qnot_le_lt. intros H%Qle_bool_iff. congruence.
Qed.

Example DailyUsageRatio_NaN :
  DailyUsageRatio {[ KeyGatewayDailyUsageRatio := "NaN" ]} (λ _, Fin 0) = NaN.
Proof. by vm_compute. Qed.

(** ** The cache and the table *)

(** What the table says about a key: its value, or the default. *)
Definition stored (d : database) (def : KeyDef) : string :=
  match system_settings d !! DefKey def with Some v => default "" v | None => DefDefault def end.

(** The getters answer from the cache as the table would. *)
Definition coherent (c : cache) (d : database) : Prop :=
  ∀ def, def ∈ Defs → GetString c (DefKey def) = stored d def.

Lemma GetString_def c def :
  def ∈ Defs → GetString c (DefKey def) = default (DefDefault def) (c !! DefKey def).
Proof.
  intros Hd. unfold GetString. destruct (c !! DefKey def); [done|].
  by rewrite (proj2 (DefByKey_Some (DefKey def) def)).
Qed.

Lemma fill_defaults_lookup m k v : m !! k = Some v → fill_defaults m !! k = Some v.
Proof.
  unfold fill_defaults. generalize Defs. intros l. revert m.
  induction l as [|d l IH]; intros m H; cbn [foldl]; [done|]. apply IH.
  destruct (m !! DefKey d) eqn:E; [done|]. rewrite lookup_insert_ne; congruence.
Qed.

Lemma fill_defaults_None m k :
  m !! k = None → fill_defaults m !! k = DefDefault <$> DefByKey k.
Proof.
  unfold fill_defaults, DefByKey. generalize Defs. intros l. revert m.
  induction l as [|d l IH]; intros m H; cbn [foldl]; [done|].
  destruct (decide (DefKey d = k)) as [<-|Hne].
  - rewrite filter_cons_True by done. rewrite H. cbn. clear IH.
    assert (<[DefKey d := DefDefault d]> m !! DefKey d = Some (DefDefault d)) as Hl by apply lookup_insert_eq.
    revert Hl. generalize (<[DefKey d := DefDefault d]> m). induction l as [|d' l IH]; intros m' Hl; cbn [foldl]; [done|].
    apply IH. destruct (m' !! DefKey d') eqn:E; [done|]. rewrite lookup_insert_ne; congruence.
  - rewrite filter_cons_False by done. apply IH. destruct (m !! DefKey d); [done|].
    by rewrite lookup_insert_ne.
Qed.

#[export] Instance Reload_transparent c : Transparent (Reload c).
Proof. unfold Reload, LoadAll. apply _. Qed.

Lemma run_Reload c d : run (Reload c) d = (Ok (fill_defaults (default "" <$> system_settings d)), d).
Proof. unfold Reload, LoadAll. by rewrite (run_bind (query _) _), run_query. Qed.

(** After a start or a reload the getters answer what the table says. *)
Theorem Reload_coherent c w c' w' :
  Reload c w = (Ok c', w') → coherent c' (w_db w') ∧ w_db w' = w_db w.
Proof.
  intros H. destruct (transparent_run (m:=Reload c) w) as [Hf|Hr]; [by rewrite H in Hf|].
  rewrite H, run_Reload in Hr. cbn [fst snd] in Hr. injection Hr as <- ->. split; [|done].
  intros def Hd. rewrite GetString_def by done. unfold stored.
  destruct (system_settings (w_db w') !! DefKey def) as [v|] eqn:E.
  - erewrite fill_defaults_lookup; [done|]. by rewrite lookup_fmap, E.
  - rewrite fill_defaults_None by (by rewrite lookup_fmap, E).
    by rewrite (proj2 (DefByKey_Some (DefKey def) def)).
Qed.

(** ** Writing *)

#[export] Instance set_loop_transparent kv : Transparent (set_loop kv).
Proof.
  induction kv as [|[k v] kv IH]; cbn [set_loop]; [apply _|].
  destruct (String.eqb _ _); [done|unfold upsert; apply _].
Qed.
#[export] Instance Set_transparent c inp : Transparent (Set_ c inp).
Proof. unfold Set_, SetMany. destruct (filtered inp); apply _. Qed.
#[export] Instance Set_atomic c inp : Atomic (Set_ c inp).
Proof. unfold Set_, SetMany. destruct (filtered inp); apply _. Qed.

(** Keys as the table and the schema spell them. *)
Definition clean (inp : list (string * string)) : Prop := Forall (λ kv, TrimSpace kv.1 = kv.1) inp.

Definition write_table (kvs : list (string * string)) (d : database) : database :=
  foldl (λ d kv, with_system_settings <[kv.1 := Some kv.2]> d) d kvs.

Lemma run_set_loop kvs d :
  Forall (λ kv, TrimSpace kv.1 = kv.1 ∧ kv.1 ≠ "") kvs →
  run (set_loop kvs) d = (Ok tt, write_table kvs d).
Proof.
  intros H. revert d. induction H as [|[k v] kvs [Hk Hne] _ IH]; intros d; [done|].
  cbn [set_loop fst] in *. rewrite Hk. destruct (String.eqb_spec k ""); [done|].
  unfold upsert. rewrite (run_bind (exec _) _), run_exec. apply IH.
Qed.

Lemma filtered_clean inp :
  clean inp → Forall (λ kv, TrimSpace kv.1 = kv.1 ∧ kv.1 ≠ "") (filtered inp).
Proof.
  intros H. unfold filtered. apply Forall_fmap, Forall_forall. intros kv Hkv.
  apply list_elem_of_filter in Hkv as [Ha Hin]. unfold clean in H. rewrite Forall_forall in H.
  specialize (H kv Hin). cbn. destruct (IsAllowedKey_clean _ H Ha) as (d & _ & ?). done.
Qed.

Lemma run_Set c inp d :
  clean inp →
  run (Set_ c inp) d = (Ok (foldl (λ c kv, <[kv.1 := kv.2]> c) c (filtered inp)),
                        write_table (filtered inp) d).
Proof.
  intros H%filtered_clean. unfold Set_, SetMany. destruct (filtered inp) as [|kv kvs] eqn:E; [done|].
  rewrite (run_bind (runTx _) _), (run_runTx (set_loop _)), run_set_loop by done. done.
Qed.

Lemma write_coherent kvs c d :
  coherent c d → coherent (foldl (λ c kv, <[kv.1 := kv.2]> c) c kvs) (write_table kvs d).
Proof.
  revert c d. induction kvs as [|[k v] kvs IH]; intros c d H; [done|]. cbn. apply IH.
  intros def Hd. rewrite GetString_def by done. specialize (H def Hd).
  rewrite GetString_def in H by done. unfold stored in *. cbn.
  destruct (decide (k = DefKey def)) as [->|Hne].
  - by rewrite !lookup_insert_eq.
  - by rewrite !lookup_insert_ne.
Qed.

Lemma write_other (kvs : list (string * string)) (c : cache) k :
  k ∉ map fst kvs → foldl (λ c kv, <[kv.1 := kv.2]> c) c kvs !! k = c !! k.
Proof.
  revert c. induction kvs as [|[k' v] kvs IH]; intros c H; [done|]. cbn in *.
  apply not_elem_of_cons in H as [H1 H2]. rewrite IH by done. by rewrite lookup_insert_ne.
Qed.

Lemma write_key (kvs : list (string * string)) (c : cache) k v :
  NoDup (map fst kvs) → (k, v) ∈ kvs →
  foldl (λ c kv, <[kv.1 := kv.2]> c) c kvs !! k = Some v.
Proof.
  intros Hn Hin. revert c. induction kvs as [|[k' v'] kvs IH]; intros c; [by apply not_elem_of_nil in Hin|].
  cbn in *. apply NoDup_cons in Hn as [Hk Hn]. apply elem_of_cons in Hin as [[= <- <-]|Hin].
  - rewrite write_other by done. apply lookup_insert_eq.
  - by apply IH.
Qed.

Lemma filtered_keys inp : map fst (filtered inp) = map fst (filter (λ kv, IsAllowedKey kv.1 = true) inp).
Proof. unfold filtered. by rewrite map_map. Qed.

(** Writing settings whose keys carry no blanks.  On success the getters
    answer as the table does, every whitelisted key has its trimmed new
    value, and every other key keeps its old one, in particular the keys
    outside the whitelist; on an error neither the table nor the cache moves. *)
Theorem Set_spec c inp w :
  clean inp → NoDup (map fst inp) → coherent c (w_db w) →
  match Set_ c inp w with
  | (Ok c', w') =>
      coherent c' (w_db w') ∧
      (∀ k v, (k, v) ∈ inp → IsAllowedKey k = true → GetString c' k = TrimSpace v) ∧
      (∀ k, k ∉ map fst inp ∨ IsAllowedKey k = false → GetString c' k = GetString c k)
  | (Err _, w') => w_db w' = w_db w
  end.
Proof.
  intros Hcl Hn Hc. destruct (Set_ c inp w) as [[c'|e] w'] eqn:E.
  2: { pose proof (atomic (m:=Set_ c inp) w e) as Ha. rewrite E in Ha. by apply Ha. }
  destruct (transparent_run (m:=Set_ c inp) w) as [Hf|Hr]; [by rewrite E in Hf|].
  rewrite E, run_Set in Hr by done. cbn [fst snd] in Hr. injection Hr as <- <-.
  assert (NoDup (map fst (filtered inp))) as Hn'.
  { rewrite filtered_keys. eapply sublist_NoDup; [exact Hn|]. apply fmap_sublist, sublist_filter. }
  split_and!.
  - by apply write_coherent.
  - intros k v Hin Ha. unfold GetString. rewrite (write_key _ _ k (TrimSpace v)); [done..|].
    unfold filtered. apply list_elem_of_fmap. exists (k, v). split; [done|]. by apply list_elem_of_filter.
  - intros k Hk. unfold GetString. rewrite write_other; [done|]. rewrite filtered_keys.
    intros ([k' v] & -> & [Ha Hin]%list_elem_of_filter)%list_elem_of_fmap. cbn in *.
    destruct Hk as [Hk|Hk]; [|congruence]. apply Hk. by apply list_elem_of_fmap_2 with (f := fst) in Hin.
Qed.

(** A padded key passes the whitelist, goes to the table trimmed and to
    the cache as it is: the getters keep answering the old value until the
    next [Reload]. *)
Theorem padded_key_stale d v :
  system_settings d !! KeySiteName = None → TrimSpace v ≠ "" → TrimSpace v ≠ "GPT2API" →
  ∃ c d', run (Set_ ∅ [(" site.name", v)]) d = (Ok c, d') ∧
    SiteName c = "GPT2API" ∧
    stored d' (Build_KeyDef KeySiteName "string" "site" "GPT2API" true) = TrimSpace v ∧
    ∃ c', run (Reload c) d' = (Ok c', d') ∧ GetString c' KeySiteName = TrimSpace v.
Proof.
  intros Hd Hv Hv'.
  assert (filtered [(" site.name", v)] = [(" site.name", TrimSpace v)]) as Hf.
  { unfold filtered. assert (IsAllowedKey " site.name" = true) as Ha by by vm_compute.
    rewrite filter_cons_True by exact Ha. done. }
  set (d' := with_system_settings <[KeySiteName := Some (TrimSpace v)]> d).
  assert (run (Set_ ∅ [(" site.name", v)]) d = (Ok {[ " site.name" := TrimSpace v ]}, d')) as Hr.
  { unfold Set_. rewrite Hf. unfold SetMany.
    rewrite (run_bind (runTx _) _), (run_runTx (set_loop _)).
    cbn [set_loop]. change (TrimSpace " site.name") with KeySiteName.
    destruct (String.eqb_spec KeySiteName ""); [done|]. unfold upsert.
    by rewrite (run_bind (exec _) _), run_exec. }
  eexists _, d'. split; [exact Hr|]. split.
  { by vm_compute. }
  split.
  { unfold stored. subst d'. cbn [system_settings with_system_settings DefKey]. by rewrite lookup_insert_eq. }
  eexists. split; [apply run_Reload|]. unfold GetString.
  erewrite fill_defaults_lookup; [done|]. subst d'. cbn [system_settings with_system_settings].
  by rewrite lookup_fmap, lookup_insert_eq.
Qed.

(** ** Snapshots *)

Lemma snapshot_fold (P : KeyDef → bool) (f : KeyDef → string) l (m : cache) k :
  NoDup (map DefKey l) →
  foldl (λ out d, if P d then <[DefKey d := f d]> out else out) m l !! k =
  match head (filter (λ d, DefKey d = k) l) with
  | Some d => if P d then Some (f d) else m !! k
  | None => m !! k
  end.
Proof.
  revert m. induction l as [|d l IH]; intros m Hn; [done|]. cbn [foldl map] in *.
  apply NoDup_cons in Hn as [Hd Hn]. rewrite IH by done.
  destruct (decide (DefKey d = k)) as [<-|Hne].
  - rewrite filter_cons_True by done. cbn [head].
    destruct (head (filter (λ d', DefKey d' = DefKey d) l)) as [d'|] eqn:E.
    + exfalso. apply Hd. apply head_Some_elem_of, list_elem_of_filter in E as [<- Hin].
      by apply list_elem_of_fmap_2.
    + destruct (P d); [apply lookup_insert_eq|done].
  - rewrite filter_cons_False by done. destruct (P d); [|done].
    rewrite lookup_insert_ne by done. done.
Qed.

(** The anonymous snapshot holds exactly the public keys of the schema,
    with the values the getters answer: no other setting (mail passwords,
    cloud credentials) is exposed. *)
Theorem PublicSnapshot_spec c k :
  PublicSnapshot c !! k =
  match DefByKey k with
  | Some def => if DefPublic def then Some (GetString c k) else None
  | None => None
  end.
Proof.
  unfold PublicSnapshot. rewrite (snapshot_fold DefPublic (λ d, default (DefDefault d) (c !! DefKey d)))
    by apply Defs_NoDup.
  fold (DefByKey k). destruct (DefByKey k) as [def|] eqn:E; [|done].
  apply DefByKey_Some in E as [Hd <-]. destruct (DefPublic def); [|done].
  by rewrite GetString_def.
Qed.

Example mail_password_private c : PublicSnapshot c !! KeyMailSMTPPassword = None.
Proof. rewrite PublicSnapshot_spec. by vm_compute. Qed.

(** ** Witnesses *)

Definition settings_db : database :=
  with_system_settings (λ _, {[ KeySiteName := Some "Acme"; KeyGatewayRetryMax := None ]}) empty_database.
Definition loaded : cache := fill_defaults (default "" <$> system_settings settings_db).

Lemma Reload_coherent_witness : coherent loaded settings_db ∧ settings_db = settings_db.
Proof.
  apply (Reload_coherent ∅ (World settings_db [false]) loaded (World settings_db [])).
  unfold Reload, LoadAll, loaded, query, call, bind. cbn [w_faults w_db]. exact eq_refl.
Defined.

Lemma Set_spec_witness :
  match Set_ ∅ [(KeyGatewayRetryMax, " 2 "); ("evil", "1")] (World empty_database []) with
  | (Ok c', w') =>
      coherent c' (w_db w') ∧
      (∀ k v, (k, v) ∈ [(KeyGatewayRetryMax, " 2 "); ("evil", "1")] → IsAllowedKey k = true →
         GetString c' k = TrimSpace v) ∧
      (∀ k, k ∉ map fst [(KeyGatewayRetryMax, " 2 "); ("evil", "1")] ∨ IsAllowedKey k = false →
         GetString c' k = GetString ∅ k)
  | (Err _, w') => w_db w' = empty_database
  end.
Proof.
  apply (Set_spec ∅ [(KeyGatewayRetryMax, " 2 "); ("evil", "1")] (World empty_database [])).
  - by repeat constructor.
  - apply (bool_decide_unpack _). by vm_compute.
  - intros def Hd. rewrite GetString_def by done. done.
Defined.

Lemma padded_key_stale_witness :
  ∃ c d', run (Set_ ∅ [(" site.name", "Acme ")]) empty_database = (Ok c, d') ∧
    SiteName c = "GPT2API" ∧
    stored d' (Build_KeyDef KeySiteName "string" "site" "GPT2API" true) = "Acme" ∧
    ∃ c', run (Reload c) d' = (Ok c', d') ∧ GetString c' KeySiteName = "Acme".
Proof. by apply (padded_key_stale empty_database "Acme "). Defined.
