(* ===== verification/Mail.v ===== *)
(** * The messages that are mailed (pkg/mailer)

    The mailer's switch, which the settings throw, and the messages the site
    sends: HTML built around values of the user's choosing, which are escaped.
    The SMTP exchange is not modelled: who sends a message at once is given
    what comes of it. *)

From S2P Require Import Prelude GoStrings GoTime Float Settings.

(** ** mailer.go *)

Record Message := { To : string; Subject : string; HTML : string }.

Definition disabledConfig (cfg : MailConfig) : bool := String.eqb (TrimSpace (MHost cfg)) "".

(** A mailer is a provider of its configuration, or missing. *)
Definition Disabled (m : option MailConfig) : bool :=
  match m with None => true | Some cfg => disabledConfig cfg end.

(** [SendSync] up to the exchange: [sendWithConfig] looks at the message
    first. *)
Definition SendSync (exchange : Message → result unit) (cfg : MailConfig) (msg : Message) : result unit :=
  if disabledConfig cfg then Err (EMsg "mailer disabled: SMTP not configured") else
  if String.eqb (To msg) "" || String.eqb (Subject msg) "" then Err (EMsg "mailer: to/subject empty") else
  exchange msg.

(** [Send]: the messages waiting in the channel of a hundred. *)
Definition Send (cfg : MailConfig) (msg : Message) (ch : list Message) : list Message :=
  if disabledConfig cfg then ch else
  if (length ch <? 100)%nat then ch ++ [msg] else ch.

(** ** templates.go *)

(** Double quotes are written as backquotes here. *)
Definition quoted : string → string := map_string (λ c, if Ascii.eqb c "`" then "034"%char else c).

Definition LF : string := String "010" "".
Definition lines_of (ls : list string) : string := Join (map quoted ls) LF.

Definition entity (c : ascii) : string :=
  if Ascii.eqb c "&" then "&amp;"
  else if Ascii.eqb c "<" then "&lt;"
  else if Ascii.eqb c ">" then "&gt;"
  else if Ascii.eqb c "034" then "&quot;"
  else if Ascii.eqb c "'" then "&#39;"
  else String c "".

Definition htmlEscape (s : string) : string := of_bytes (bytes s ≫= λ c, bytes (entity c)).

Definition baseCSS : string := lines_of
  ["<style>";
   "body{font-family:-apple-system,BlinkMacSystemFont,`Segoe UI`,Roboto,Helvetica,Arial,sans-serif;background:#f5f7fa;margin:0;padding:24px;color:#333}";
   ".card{max-width:560px;margin:0 auto;background:#fff;border-radius:10px;padding:28px;box-shadow:0 2px 10px rgba(0,0,0,.05)}";
   "h1{font-size:20px;margin:0 0 12px;color:#222}";
   ".hi{color:#666;font-size:14px;margin-bottom:18px}";
   ".box{background:#f2f8ff;border-left:4px solid #409eff;padding:14px 16px;border-radius:4px;margin:14px 0}";
   ".muted{color:#999;font-size:12px;margin-top:18px}";
   "table{width:100%;border-collapse:collapse;margin:8px 0}";
   "td{padding:6px 0;font-size:14px}";
   "td.l{color:#666;width:120px}";
   "td.v{color:#222;font-weight:500}";
   "</style>"].

Definition RenderWelcome (nickname email baseURL : string) : string * string :=
  let nickname := if String.eqb nickname "" then email else nickname in
  let baseURL := if String.eqb baseURL "" then "/" else baseURL in
  ("欢迎加入 OAI Hub 绘影",
   lines_of ["<!doctype html><html><head><meta charset=`utf-8`>"] +:+ baseCSS +:+ lines_of
     ["</head><body>";
      "<div class=`card`>";
      "  <h1>欢迎,"] +:+ htmlEscape nickname +:+ lines_of
     ["</h1>";
      "  <div class=`hi`>你的账号已开通,账号 <b>"] +:+ htmlEscape email +:+ lines_of
     ["</b>。</div>";
      "  <div class=`box`>";
      "    <b>新手指引</b><br/>";
      "    · 到 <b>个人中心 → API Key</b> 创建一把 sk- 开头的 key<br/>";
      "    · 把 base_url 指向 <code>"] +:+ htmlEscape baseURL +:+ lines_of
     ["/v1</code> 即可用 OpenAI SDK 调用<br/>";
      "    · 首次注册会赠送试用积分,可在 <b>账单</b> 里看到明细";
      "  </div>";
      "  <div class=`muted`>如果这不是你本人的操作,请直接忽略本邮件。</div>";
      "</div>";
      "</body></html>"]).

Definition RenderRegisterEmailCode (siteName email code : string) (expire : Z) : string * string :=
  let siteName := TrimSpace siteName in
  let siteName := if String.eqb siteName "" then "OAI Hub 绘影" else siteName in
  let minutes := Z.quot expire minute in
  let minutes := if minutes <=? 0 then 10 else minutes in
  (siteName +:+ " 注册验证码",
   lines_of ["<!doctype html><html><head><meta charset=`utf-8`>"] +:+ baseCSS +:+ lines_of
     ["</head><body>";
      "<div class=`card`>";
      "  <h1>邮箱验证码</h1>";
      "  <div class=`hi`>正在为账号 <b>"] +:+ htmlEscape email +:+ lines_of
     ["</b> 完成注册验证。</div>";
      "  <div class=`box`>";
      "    <div style=`font-size:13px;color:#666;margin-bottom:8px`>验证码</div>";
      "    <div style=`font-size:32px;letter-spacing:6px;font-weight:700;color:#222`>"] +:+ htmlEscape code +:+ lines_of
     ["</div>";
      "    <div style=`margin-top:10px;color:#666`>有效期 "] +:+ itoa minutes +:+ lines_of
     [" 分钟，请在注册页填写后继续完成注册。</div>";
      "  </div>";
      "  <div class=`muted`>如果这不是本人的操作，请直接忽略本邮件。</div>";
      "</div>";
      "</body></html>"]).

Definition RenderPaid (loc : location) (nickname outTradeNo : string) (priceCNYFen credits bonus paidAt : Z) : string * string :=
  let nickname := if String.eqb nickname "" then "用户" else nickname in
  let price := "¥ " +:+ format_fixed2 (fdiv (of_int priceCNYFen) 100) in
  let ts := format_datetime loc paidAt in
  ("充值成功通知",
   lines_of ["<!doctype html><html><head><meta charset=`utf-8`>"] +:+ baseCSS +:+ lines_of
     ["</head><body>";
      "<div class=`card`>";
      "  <h1>充值成功 ✔</h1>";
      "  <div class=`hi`>Hi "] +:+ htmlEscape nickname +:+ lines_of
     [",你本次的充值已到账。</div>";
      "  <table>";
      "    <tr><td class=`l`>订单号</td><td class=`v`><code>"] +:+ htmlEscape outTradeNo +:+ lines_of
     ["</code></td></tr>";
      "    <tr><td class=`l`>实付金额</td><td class=`v`>"] +:+ price +:+ lines_of
     ["</td></tr>";
      "    <tr><td class=`l`>到账积分</td><td class=`v`>"] +:+ itoa credits +:+ " 厘 (基础) + " +:+ itoa bonus +:+ lines_of
     [" 厘 (赠送)</td></tr>";
      "    <tr><td class=`l`>支付时间</td><td class=`v`>"] +:+ ts +:+ lines_of
     ["</td></tr>";
      "  </table>";
      "  <div class=`muted`>如有疑问请联系客服并提供订单号。本邮件由系统自动发送。</div>";
      "</div>";
      "</body></html>"]).

(** ** What is escaped cannot be markup *)

Definition markup (c : ascii) : bool := existsb (Ascii.eqb c) ["<"; ">"; "034"; "'"]%char.

Lemma entity_inert c : forallb (λ c, negb (markup c)) (bytes (entity c)) = true.
Proof. by destruct c as [[] [] [] [] [] [] [] []]; vm_compute. Qed.

(** No character of the user's opens or closes a tag, or an attribute. *)
Lemma htmlEscape_inert s : forallb (λ c, negb (markup c)) (bytes (htmlEscape s)) = true.
Proof.
  unfold htmlEscape. rewrite bytes_of_bytes. induction (bytes s) as [|c l IH]; [done|].
  cbn [mbind list_bind]. by rewrite forallb_app, entity_inert.
Qed.

(** And what the reader is shown is what the user wrote. *)
Definition unescape1 (l : list ascii) : option (ascii * list ascii) :=
  match l with
  | "&" :: "a" :: "m" :: "p" :: ";" :: l => Some ("&", l)
  | "&" :: "l" :: "t" :: ";" :: l => Some ("<", l)
  | "&" :: "g" :: "t" :: ";" :: l => Some (">", l)
  | "&" :: "q" :: "u" :: "o" :: "t" :: ";" :: l => Some ("034", l)
  | "&" :: "#" :: "3" :: "9" :: ";" :: l => Some ("'", l)
  | c :: l => Some (c, l)
  | [] => None
  end%char.

Lemma unescape1_entity c l : unescape1 (bytes (entity c) ++ l) = Some (c, l).
Proof. by destruct c as [[] [] [] [] [] [] [] []]. Qed.

Lemma htmlEscape_inj s t : htmlEscape s = htmlEscape t → s = t.
Proof.
  intros H. apply bytes_inj. apply (f_equal bytes) in H. unfold htmlEscape in H. rewrite !bytes_of_bytes in H.
  revert H. generalize (bytes t). induction (bytes s) as [|c l IH]; intros [|c' l'] H; [done| | |].
  - apply (f_equal unescape1) in H. cbn [mbind list_bind] in H. by rewrite unescape1_entity in H.
  - apply (f_equal unescape1) in H. cbn [mbind list_bind] in H. by rewrite unescape1_entity in H.
  - pose proof (f_equal unescape1 H) as H'. cbn [mbind list_bind] in H'. rewrite !unescape1_entity in H'.
    simplify_eq. f_equal. by apply IH.
Qed.
