(* ===== verification/Models.v ===== *)
(** * Models (internal/model)

    The DAO of the table models, and what the in-process registry in front of
    it holds.  The processes that consult and refresh the registry are in
    Caches. *)

From S2P Require Import Prelude GoStrings GoTime Sql Schema.
#[local] Open Scope Z_scope.

Definition ErrNotFound : goerr := Sentinel "model: not found".

Definition TypeChat : string := "chat".
Definition TypeImage : string := "image".

#[local] Instance model_eq_dec : EqDecision Model.
Proof. solve_decision. Defined.

Definition kept (m : Model) : bool := bool_decide (ModelDeletedAt m = None).

(** ** The DAO *)

Definition GetBySlug (slug : string) : DBM (N * Model) :=
  query (λ d, match head (rows_where models (λ _ m, String.eqb (Slug m) slug && kept m) d) with
              | Some p => Ok p
              | None => Err ErrNotFound
              end).

Definition ListEnabled : DBM (list (N * Model)) :=
  query (λ d, Ok (rows_where models (λ _ m, ModelEnabled m && kept m) d)).

Definition has_image_channel (m : Model) (d : database) : bool :=
  existsb (λ p : N * Mapping, let cm := p.2 in
    String.eqb (LocalModel cm) (Slug m) && String.eqb (Modality cm) "image" && MapEnabled cm &&
    match upstream_channels d !! ChannelID cm with
    | Some uc => ChEnabled uc && bool_decide (ChDeletedAt uc = None)
    | None => false
    end) (map_to_list (channel_model_mappings d)).

Definition ListEnabledForMe : DBM (list (N * Model * bool)) :=
  query (λ d, Ok (map (λ p, (p, has_image_channel p.2 d))
                     (rows_where models (λ _ m, ModelEnabled m && kept m) d))).

Definition ListModels : DBM (list (N * Model)) := query (λ d, Ok (rows_where models (λ _ m, kept m) d)).

Definition GetByID (id : N) : DBM Model :=
  query (λ d, match models d !! id with
              | Some m => if kept m then Ok m else Err ErrNotFound
              | None => Err ErrNotFound
              end).

(** uk_slug also covers the deleted rows. *)
Definition slug_taken (slug : string) (d : database) : bool :=
  existsb (λ p : N * Model, String.eqb (Slug p.2) slug) (map_to_list (models d)).

Definition Create (m : Model) : DBM N :=
  exec (λ d, if slug_taken (Slug m) d then Err (EMySQL 1062)
             else let id := auto_id (models d) in Ok (id, with_models <[id := m]> d)).

Definition with_columns (m old : Model) : Model := {|
  Slug := Slug old; ModelType := ModelType m; UpstreamModelSlug := UpstreamModelSlug m;
  InputPricePer1M := InputPricePer1M m; OutputPricePer1M := OutputPricePer1M m;
  CacheReadPricePer1M := CacheReadPricePer1M m; ImagePricePerCall := ImagePricePerCall m;
  ImagePricePerCall2K := ImagePricePerCall2K m; ImagePricePerCall4K := ImagePricePerCall4K m;
  SupportsMultiImage := SupportsMultiImage m; SupportsOutputSize := SupportsOutputSize m;
  Description := Description m; ModelEnabled := ModelEnabled m; ModelDeletedAt := ModelDeletedAt old |}.

Definition with_enabled (enabled : bool) (m : Model) : Model := {|
  Slug := Slug m; ModelType := ModelType m; UpstreamModelSlug := UpstreamModelSlug m;
  InputPricePer1M := InputPricePer1M m; OutputPricePer1M := OutputPricePer1M m;
  CacheReadPricePer1M := CacheReadPricePer1M m; ImagePricePerCall := ImagePricePerCall m;
  ImagePricePerCall2K := ImagePricePerCall2K m; ImagePricePerCall4K := ImagePricePerCall4K m;
  SupportsMultiImage := SupportsMultiImage m; SupportsOutputSize := SupportsOutputSize m;
  Description := Description m; ModelEnabled := enabled; ModelDeletedAt := ModelDeletedAt m |}.

(** An UPDATE affects the rows it changes (the DSN does not ask for the rows
    it finds), and [updated_at] only moves with another column. *)
Definition update_kept (id : N) (upd : Model → Model) : DBM unit :=
  n <- exec (id_update models with_models id
    (λ m, Ok (kept m && negb (bool_decide (upd m = m)))) (λ m, Ok (upd m))) ;;
  if (n =? 0)%N then throw ErrNotFound else ret tt.

Definition Update (id : N) (m : Model) : DBM unit := update_kept id (with_columns m).
Definition SetEnabled (id : N) (enabled : bool) : DBM unit := update_kept id (with_enabled enabled).

Definition deleted_slug (id : N) (slug : string) : string := slug +:+ "#del" +:+ pretty id.

Definition SoftDelete (id : N) (now : Z) : DBM unit :=
  n <- exec (λ d,
    match models d !! id with
    | Some m =>
        if kept m then
          if existsb (λ p : N * Model, negb (p.1 =? id)%N && String.eqb (Slug p.2) (deleted_slug id (Slug m)))
               (map_to_list (models d))
          then Err (EMySQL 1062)
          else Ok (1%N, with_models <[id := {|
            Slug := deleted_slug id (Slug m); ModelType := ModelType m; UpstreamModelSlug := UpstreamModelSlug m;
            InputPricePer1M := InputPricePer1M m; OutputPricePer1M := OutputPricePer1M m;
            CacheReadPricePer1M := CacheReadPricePer1M m; ImagePricePerCall := ImagePricePerCall m;
            ImagePricePerCall2K := ImagePricePerCall2K m; ImagePricePerCall4K := ImagePricePerCall4K m;
            SupportsMultiImage := SupportsMultiImage m; SupportsOutputSize := SupportsOutputSize m;
            Description := Description m; ModelEnabled := false; ModelDeletedAt := Some now |}]> d)
        else Ok (0%N, d)
    | None => Ok (0%N, d)
    end) ;;
  if (n =? 0)%N then throw ErrNotFound else ret tt.

(** ** The registry (registry.go)

    [refreshing] is the flag the background refresh owns. *)
Record registry := {
  bySlug : gmap string (N * Model);
  loadedAt : Z;
  refreshing : bool
}.

Definition registry_ttl : Z := 30 * 1000000000.
Definition NewRegistry : registry := {| bySlug := ∅; loadedAt := zero_time; refreshing := false |}.

Definition loaded (list : list (N * Model)) (now : Z) (r : registry) : registry := {|
  bySlug := foldl (λ m p, <[Slug p.2 := p]> m) ∅ list; loadedAt := now; refreshing := refreshing r |}.

Definition expired (now : Z) (r : registry) : bool := registry_ttl <? now - loadedAt r.

(** What [BySlug] finds in the cache, and the registry after it has, or has
    not, started a refresh; the answer is final unless it is [None]. *)
Definition cached (slug : string) (now : Z) (r : registry) : option (N * Model) * bool * registry :=
  match bySlug r !! slug, expired now r with
  | Some m, false => (Some m, false, r)
  | found, true =>
      if refreshing r then (found, false, r)
      else (found, true, {| bySlug := bySlug r; loadedAt := loadedAt r; refreshing := true |})
  | None, false => (None, false, r)
  end.

Definition cached_enabled (r : registry) : list (N * Model) :=
  filter (λ p, ModelEnabled p.2 && kept p.2 = true) (snd <$> map_to_list (bySlug r)).
