(* ===== verification/Users.v ===== *)
(** * Users and groups (internal/user)

    The statements on users and user_groups the gateway and the accounts of
    the site need, and what the cache of groups holds.  The process that
    consults it is in Caches. *)

From S2P Require Import Prelude GoStrings Sql Schema.

Definition ErrNotFound : goerr := Sentinel "user: not found".

Definition present (u : User) : bool := bool_decide (UserDeletedAt u = None).

Definition GetGroup (id : N) : DBM Group :=
  query (λ d, match user_groups d !! id with
              | Some g => if bool_decide (GroupDeletedAt g = None) then Ok g else Err ErrNotFound
              | None => Err ErrNotFound
              end).

Definition GetByID (id : N) : DBM User :=
  query (λ d, match users d !! id with
              | Some u => if present u then Ok u else Err ErrNotFound
              | None => Err ErrNotFound
              end).

Definition GetByEmail (email : string) : DBM (N * User) :=
  query (λ d, match head (rows_where users (λ _ u, String.eqb (Email u) email && present u) d) with
              | Some p => Ok p
              | None => Err ErrNotFound
              end).

(** uk_email also covers the deleted rows. *)
Definition email_used (email : string) (d : database) : bool :=
  existsb (λ p : N * User, String.eqb (Email p.2) email) (map_to_list (users d)).

Definition Create (u : User) : DBM N :=
  exec (λ d, if email_used (Email u) d then Err (EMySQL 1062)
             else let id := auto_id (users d) in Ok (id, with_users <[id := u]> d)).

Definition with_login (now : Z) (ip : string) (u : User) : User := {|
  Email := Email u; PasswordHash := PasswordHash u; Nickname := Nickname u; GroupID := GroupID u;
  Role := Role u; Status := Status u; CreditBalance := CreditBalance u; CreditFrozen := CreditFrozen u;
  Version := Version u; LastLoginAt := Some now; LastLoginIP := ip; UserDeletedAt := UserDeletedAt u |}.

Definition UpdateLoginInfo (id : N) (ip : string) (now : Z) : DBM unit :=
  exec (id_update users with_users id (λ _, Ok true) (λ u, Ok (with_login now ip u))) ;; ret tt.

Definition CountByEmail (email : string) : DBM Z :=
  query (λ d, Ok (Z.of_nat (length (rows_where users (λ _ u, String.eqb (Email u) email && present u) d)))).
Definition CountAll : DBM Z :=
  query (λ d, Ok (Z.of_nat (length (rows_where users (λ _ u, present u) d)))).

(** ** The cache of groups (cache.go) *)

Record group_cache := {
  cached_users : gmap N (N * Z);
  cached_groups : gmap N (Group * Z)
}.

(** [NewGroupCache] *)
Definition cache_ttl (ttl : Z) : Z := if ttl <=? 0 then 30 * 1000000000 else ttl.
Definition empty_cache : group_cache := {| cached_users := ∅; cached_groups := ∅ |}.

Definition fresh {A} (ttl now : Z) (e : option (A * Z)) : option A :=
  match e with Some (a, at_) => if now - at_ <=? ttl then Some a else None | None => None end.

Definition cached_user (ttl now : Z) (userID : N) (c : group_cache) : option N :=
  fresh ttl now (cached_users c !! userID).
Definition cached_group (ttl now : Z) (groupID : N) (c : group_cache) : option Group :=
  fresh ttl now (cached_groups c !! groupID).
Definition store_user (userID groupID : N) (now : Z) (c : group_cache) : group_cache :=
  {| cached_users := <[userID := (groupID, now)]> (cached_users c); cached_groups := cached_groups c |}.
Definition store_group (groupID : N) (g : Group) (now : Z) (c : group_cache) : group_cache :=
  {| cached_users := cached_users c; cached_groups := <[groupID := (g, now)]> (cached_groups c) |}.
