(* ===== verification/Proc.v ===== *)
(** * Requests as sequences of database calls, and their interleavings

    A request handler that makes several calls outside a transaction can be
    interrupted between them: by another request, or by a crash of the
    server.  Such handlers are values of [proc]: the calls they make, each
    atomic, and what they do with the outcome.  [exec] runs one alone;
    [pool_step] runs any number of them, in any order, and may lose one. *)

From S2P Require Import Prelude Sql.

Section proc.
Context {D : Type}.

Inductive proc (A : Type) : Type :=
  | Done (a : A)
  | Call {B : Type} (m : DB D B) (k : result B → proc A).
Arguments Done {A} a.
Arguments Call {A B} m k.

(** [x <~ p ;; k]: sequencing. *)
Fixpoint pbind {A B} (p : proc A) (k : A → proc B) : proc B :=
  match p with
  | Done a => k a
  | Call m c => Call m (λ r, pbind (c r) k)
  end.

(** [x, err := m; if err != nil { return fail(err) }; k x] *)
Definition call_or {A B} (m : DB D B) (fail : goerr → A) (k : B → proc A) : proc A :=
  Call m (λ r, match r with Ok b => k b | Err e => Done (fail e) end).

(** One call and its outcome. *)
Definition one {B} (m : DB D B) : proc (result B) := Call m Done.

(** [x, err := p; if err != nil { return err }; k x] between processes. *)
Definition pbind_ok {A B} (p : proc (result A)) (k : A → proc (result B)) : proc (result B) :=
  pbind p (λ r, match r with Ok a => k a | Err e => Done (Err e) end).

Fixpoint exec_proc {A} (p : proc A) (w : world D) : A * world D :=
  match p with
  | Done a => (a, w)
  | Call m k => let '(r, w1) := m w in exec_proc (k r) w1
  end.

(** The failure-free run. *)
Definition prun {A} (p : proc A) (d : D) : A * D :=
  let '(a, w) := exec_proc p (World d []) in (a, w_db w).

Lemma prun_Done {A} (a : A) d : prun (Done a) d = (a, d).
Proof. done. Qed.

Lemma prun_Call {A B} (m : DB D B) (k : result B → proc A) `{!Transparent m} d :
  prun (Call m k) d = prun (k (run m d).1) (run m d).2.
Proof. unfold prun; cbn. by rewrite (run_world m). Qed.

(** Handlers whose answers are of no interest to the others. *)
Fixpoint forget {A} (p : proc A) : proc unit :=
  match p with Done _ => Done tt | Call m k => Call m (λ r, forget (k r)) end.

(** The next call of a handler, and how it goes on. *)
Definition next {A} (p : proc A) (w : world D) : option (proc A * world D) :=
  match p with
  | Done _ => None
  | Call m k => Some (k (m w).1, (m w).2)
  end.

Lemma exec_pbind {A B} (p : proc A) (k : A → proc B) w :
  exec_proc (pbind p k) w = exec_proc (k (exec_proc p w).1) (exec_proc p w).2.
Proof.
  revert w. induction p as [a|C m c IH]; intros w; cbn; [done|].
  destruct (m w) as [r w1]. apply IH.
Qed.

Lemma exec_pbind_one {A B} (m : DB D A) (k : result A → proc B) w :
  exec_proc (pbind (one m) k) w = exec_proc (k (m w).1) (m w).2.
Proof. unfold one. cbn [pbind exec_proc]. by destruct (m w). Qed.

(** One call: the state moves along [Rel], and a failure comes from the
    schedule only. *)
Definition moves_along (Rel : relation D) (w w' : world D) : Prop :=
  Rel (w_db w) (w_db w') ∧ (w_faults w = [] → w_faults w' = []).

(** [follows Rel Q p]: whatever the calls of [p] answer and whatever happens
    between them, each call moves the state along [Rel], and what [p] returns
    has [Q]. *)
Fixpoint follows {A} (Rel : relation D) (Q : A → Prop) (p : proc A) : Prop :=
  match p with
  | Done a => Q a
  | Call m k => ∀ w, moves_along Rel w (m w).2 ∧ follows Rel Q (k (m w).1)
  end.

Lemma follows_pbind {A B} (Rel : relation D) (Q : A → Prop) (Q' : B → Prop) (p : proc A) (k : A → proc B) :
  follows Rel Q p → (∀ a, Q a → follows Rel Q' (k a)) → follows Rel Q' (pbind p k).
Proof.
  intros Hp Hk. induction p as [a|C m c IH]; cbn in *; [by apply Hk|].
  intros w. destruct (Hp w). auto.
Qed.

Lemma follows_weaken {A} (Rel : relation D) (Q Q' : A → Prop) (p : proc A) :
  follows Rel Q p → (∀ a, Q a → Q' a) → follows Rel Q' p.
Proof.
  intros Hp HQ. induction p as [a|C m c IH]; cbn in *; [by apply HQ|].
  intros w. destruct (Hp w). auto.
Qed.

Lemma follows_mono {A} (Rel Rel' : relation D) (Q : A → Prop) (p : proc A) :
  (∀ s s', Rel s s' → Rel' s s') → follows Rel Q p → follows Rel' Q p.
Proof.
  intros HR. induction p as [a|C m c IH]; cbn; [done|]. intros H w. destruct (H w) as [[] ?]. split; [|by auto].
  split; auto.
Qed.

Lemma follows_call {A B} (Rel : relation D) (Q : A → Prop) (m : DB D B) (k : result B → proc A) :
  Keeps Rel m → Steady m → (∀ r, follows Rel Q (k r)) → follows Rel Q (Call m k).
Proof. intros Hm Hs Hk w. split; [|apply Hk]. split; [apply Hm|apply Hs]. Qed.

Lemma follows_forget {A} (Rel : relation D) (Q : A → Prop) (p : proc A) :
  follows Rel Q p → follows Rel (λ _, True) (forget p).
Proof.
  induction p as [a|C m c IH]; cbn; [done|]. intros H w. destruct (H w). auto.
Qed.

Lemma follows_exec {A} (Rel : relation D) `{!PreOrder Rel} (Q : A → Prop) (p : proc A) w :
  follows Rel Q p → Q (exec_proc p w).1 ∧ Rel (w_db w) (w_db (exec_proc p w).2).
Proof.
  revert w. induction p as [a|C m c IH]; intros w Hp; [done|]. cbn in *.
  destruct (Hp w) as [[H1 _] H2]. destruct (m w) as [r w1]. destruct (IH r w1 H2) as [H3 H4].
  split; [done|]. by etrans.
Qed.

Lemma follows_exec_steady {A} (Rel : relation D) (Q : A → Prop) (p : proc A) w :
  follows Rel Q p → w_faults w = [] → w_faults (exec_proc p w).2 = [].
Proof.
  revert w. induction p as [a|C m c IH]; intros w Hp Hw; [done|]. cbn in *.
  destruct (Hp w) as [[_ H1] H2]. destruct (m w) as [r w1]. auto.
Qed.

(** Goroutines that a handler starts and waits for: their calls interleave as
    [turns] says ([true]: the first one's turn), the first one goes on when
    [turns] is over. *)
Fixpoint both {A B} (p : proc A) : list bool → proc B → proc (A * B) :=
  match p with
  | Done a => λ _ q, pbind q (λ b, Done (a, b))
  | Call m k =>
      fix turn (turns : list bool) (q : proc B) {struct turns} : proc (A * B) :=
        match turns with
        | false :: turns =>
            match q with
            | Done b => pbind (Call m k) (λ a, Done (a, b))
            | Call m' k' => Call m' (λ r, turn turns (k' r))
            end
        | true :: turns => Call m (λ r, both (k r) turns q)
        | [] => Call m (λ r, both (k r) [] q)
        end
  end.

(** Any number of them; [turns n] is for the [n]th and those after it. *)
Fixpoint together {A} (turns : nat → list bool) (ps : list (proc A)) : proc (list A) :=
  match ps with
  | [] => Done []
  | p :: ps => pbind (both p (turns O) (together (λ n, turns (S n)) ps)) (λ r, Done (r.1 :: r.2))
  end.

Lemma follows_both {A B} (Rel : relation D) (Q : A → Prop) (Q' : B → Prop) (p : proc A) turns (q : proc B) :
  follows Rel Q p → follows Rel Q' q → follows Rel (λ r, Q r.1 ∧ Q' r.2) (both p turns q).
Proof.
  revert turns q. induction p as [a|C m k IH]; intros turns q Hp Hq.
  { cbn [both]. eapply follows_pbind; [exact Hq|]. intros b Hb. done. }
  revert q Hq. induction turns as [|[] turns IHt]; intros q Hq.
  - intros w. destruct (Hp w). split; [done|]. by apply IH.
  - intros w. destruct (Hp w). split; [done|]. by apply IH.
  - destruct q as [b|C' m' k'].
    + change (follows Rel (λ r : A * B, Q r.1 ∧ Q' r.2) (pbind (Call m k) (λ a, Done (a, b)))).
      eapply follows_pbind; [exact Hp|]. intros a Ha. done.
    + intros w. destruct (Hq w) as [H1 H2]. split; [done|]. by apply IHt.
Qed.

Lemma follows_together {A} (Rel : relation D) (Q : A → Prop) turns (ps : list (proc A)) :
  Forall (follows Rel Q) ps → follows Rel (λ l, length l = length ps ∧ Forall Q l) (together turns ps).
Proof.
  intros Hps. revert turns. induction Hps as [|p ps Hp _ IH]; intros turns; cbn [together]; [by cbn|].
  eapply follows_pbind; [by apply follows_both|]. intros [a l] [Ha [Hl HQ]]. cbn in *. split; [by rewrite Hl|by constructor].
Qed.

(** *** Handlers of which only the state matters *)

Section fine.
Context (Rel : relation D).

Lemma follows_one {A} (m : DB D A) `{!Keeps Rel m, !Steady m} : follows Rel (λ _, True) (one m).
Proof. by apply follows_call. Qed.
Lemma follows_then {A B} (p : proc A) (k : A → proc B) :
  follows Rel (λ _, True) p → (∀ a, follows Rel (λ _, True) (k a)) → follows Rel (λ _, True) (pbind p k).
Proof. intros Hp Hk. eapply follows_pbind; [exact Hp|auto]. Qed.
Lemma follows_then_ok {A B} (p : proc (result A)) (k : A → proc (result B)) :
  follows Rel (λ _, True) p → (∀ a, follows Rel (λ _, True) (k a)) → follows Rel (λ _, True) (pbind_ok p k).
Proof. intros Hp Hk. apply follows_then; [done|]. by intros [a|e]; [apply Hk|]. Qed.
Lemma follows_call_or {A B} (m : DB D B) (fail : goerr → A) (k : B → proc A) `{!Keeps Rel m, !Steady m} :
  (∀ b, follows Rel (λ _, True) (k b)) → follows Rel (λ _, True) (call_or m fail k).
Proof. intros Hk. apply follows_call; [done..|]. by intros [b|e]; [apply Hk|]. Qed.
End fine.

(** [guarded I Rel Q p]: the same of runs through states that have [I], which
    each call keeps. *)
Fixpoint guarded {A} (I : D → Prop) (Rel : relation D) (Q : A → Prop) (p : proc A) : Prop :=
  match p with
  | Done a => Q a
  | Call m k => ∀ w, I (w_db w) → I (w_db (m w).2) ∧ Rel (w_db w) (w_db (m w).2) ∧ guarded I Rel Q (k (m w).1)
  end.

Lemma guarded_pbind {A B} I Rel (Q : A → Prop) (Q' : B → Prop) (p : proc A) (k : A → proc B) :
  guarded I Rel Q p → (∀ a, Q a → guarded I Rel Q' (k a)) → guarded I Rel Q' (pbind p k).
Proof.
  intros Hp Hk. induction p as [a|C m c IH]; cbn in *; [by apply Hk|].
  intros w Hw. destruct (Hp w Hw) as (H1 & H2 & H3). auto.
Qed.

Lemma guarded_follows {A} (I : D → Prop) (RelI Rel : relation D) (p : proc A) :
  (∀ s s', RelI s s' → I s → I s') → follows RelI (λ _, True) p → follows Rel (λ _, True) p → guarded I Rel (λ _, True) p.
Proof.
  intros HI H1 H2. induction p as [a|C m c IH]; cbn in *; [done|].
  intros w Hw. destruct (H1 w) as [[H3 _] H4], (H2 w) as [[H5 _] H6]. split_and!; [by eapply HI|done|by apply IH].
Qed.

Lemma guarded_forget {A} I Rel (Q : A → Prop) (p : proc A) :
  guarded I Rel Q p → guarded I Rel (λ _, True) (forget p).
Proof. induction p as [a|C m c IH]; cbn; [done|]. intros H w Hw. destruct (H w Hw) as (? & ? & ?). auto. Qed.

(** The requests, in flight or answered, and the world they share. *)
Definition pool (T : Type) : Type := list (proc T) * world D.

Section interleaving.
Context {T : Type}.
Variable request : proc T → Prop.

Inductive pool_step : pool T → pool T → Prop :=
  | step_call ts w i p p' w' :
      ts !! i = Some p → next p w = Some (p', w') → pool_step (ts, w) (<[i := p']> ts, w')
  | step_arrive ts w p : request p → pool_step (ts, w) (ts ++ [p], w)
  | step_crash ts w i : pool_step (ts, w) (delete i ts, w).

(** [n] calls of one request. *)
Fixpoint advance {A} (n : nat) (p : proc A) (w : world D) : proc A * world D :=
  match n with
  | O => (p, w)
  | S n => match next p w with Some (p', w') => advance n p' w' | None => (p, w) end
  end.

Lemma advance_add {A} (n m : nat) (p : proc A) w :
  advance (n + m) p w = advance m (advance n p w).1 (advance n p w).2.
Proof.
  revert p w. induction n as [|n IH]; intros p w; cbn; [done|].
  destruct (next p w) as [[p' w']|] eqn:E; [apply IH|]. cbn.
  destruct m; cbn; [done|]. by rewrite E.
Qed.

Lemma advance_pbind {A B} (p : proc A) (k : A → proc B) w :
  ∃ n, advance n (pbind p k) w = (k (exec_proc p w).1, (exec_proc p w).2).
Proof.
  revert w. induction p as [a|C m c IH]; intros w; [by exists O|].
  destruct (IH (m w).1 (m w).2) as [n Hn]. exists (S n). cbn. rewrite Hn.
  by destruct (m w).
Qed.

Lemma pool_advance n p w : rtc pool_step ([p], w) ([(advance n p w).1], (advance n p w).2).
Proof.
  revert p w. induction n as [|n IH]; intros p w; cbn; [done|].
  destruct (next p w) as [[p' w']|] eqn:E; [|done].
  eapply rtc_l; [|apply IH]. by apply (step_call [p] w 0 p).
Qed.

Lemma pool_advance_at n ts i p w :
  ts !! i = Some p → rtc pool_step (ts, w) (<[i := (advance n p w).1]> ts, (advance n p w).2).
Proof.
  revert ts p w. induction n as [|n IH]; intros ts p w Hi; cbn; [by rewrite list_insert_id|].
  destruct (next p w) as [[p' w']|] eqn:E; [|by rewrite list_insert_id].
  eapply rtc_l; [by eapply step_call|].
  rewrite <-(list_insert_insert_eq ts i (advance n p' w').1 p'). apply IH.
  apply list_lookup_insert_eq. by eapply lookup_lt_Some.
Qed.

(** Requests that follow a relation make the pool follow it, however they
    interleave and whichever are lost. *)
Lemma pool_follows (Rel : relation D) `{!PreOrder Rel} :
  (∀ p, request p → follows Rel (λ _, True) p) →
  ∀ s s', rtc pool_step s s' → Forall (follows Rel (λ _, True)) s.1 →
    Forall (follows Rel (λ _, True)) s'.1 ∧ Rel (w_db s.2) (w_db s'.2).
Proof.
  intros Hreq s s' Hs. induction Hs as [s|s1 s2 s3 Hstep _ IH]; intros Hts; [done|].
  cut (Forall (follows Rel (λ _, True)) s2.1 ∧ Rel (w_db s1.2) (w_db s2.2)).
  { intros [H1 H2]. destruct (IH H1) as [H3 H4]. split; [done|]. by etrans. }
  destruct Hstep as [ts w i p p' w' Hi Hn|ts w p Hp|ts w i]; cbn in *.
  - pose proof (Forall_lookup_1 _ _ _ _ Hts Hi) as Hsafe.
    destruct p as [a|C m c]; cbn in Hn; [done|]. simplify_eq. destruct (Hsafe w) as [[H1 _] H2].
    split; [by apply Forall_insert|done].
  - split; [|done]. apply Forall_app. split; [done|]. constructor; [by apply Hreq|constructor].
  - split; [by apply Forall_delete|done].
Qed.

Lemma pool_guarded (I : D → Prop) (Rel : relation D) `{!PreOrder Rel} :
  (∀ p, request p → guarded I Rel (λ _, True) p) →
  ∀ s s', rtc pool_step s s' → Forall (guarded I Rel (λ _, True)) s.1 → I (w_db s.2) →
    I (w_db s'.2) ∧ Rel (w_db s.2) (w_db s'.2).
Proof.
  intros Hreq s s' Hs. induction Hs as [s|s1 s2 s3 Hstep _ IH]; intros Hts HI; [done|].
  cut (Forall (guarded I Rel (λ _, True)) s2.1 ∧ I (w_db s2.2) ∧ Rel (w_db s1.2) (w_db s2.2)).
  { intros (H1 & H2 & H3). destruct (IH H1 H2). split; [done|by etrans]. }
  destruct Hstep as [ts w i p p' w' Hi Hn|ts w p Hp|ts w i]; cbn in *.
  - pose proof (Forall_lookup_1 _ _ _ _ Hts Hi) as Hp. destruct p as [a|C m c]; cbn in Hn; [done|]. simplify_eq.
    destruct (Hp w HI) as (H1 & H2 & H3). split_and!; [by apply Forall_insert|done|done].
  - split_and!; [|done|done]. apply Forall_app. split; [done|]. constructor; [by apply Hreq|constructor].
  - split_and!; [by apply Forall_delete|done|done].
Qed.

(** Proving an invariant: [G] says where in its handler a request is. *)
Lemma pool_invariant {G} (at_ : G → proc T) (I : list G → D → Prop) :
  (∀ gs d p, request p → I gs d → ∃ g, p = at_ g ∧ I (gs ++ [g]) d) →
  (∀ gs d i, I gs d → I (delete i gs) d) →
  (∀ gs i g w p' w', gs !! i = Some g → next (at_ g) w = Some (p', w') → I gs (w_db w) →
     ∃ g', p' = at_ g' ∧ I (<[i := g']> gs) (w_db w')) →
  ∀ s s', rtc pool_step s s' →
    (∃ gs, s.1 = at_ <$> gs ∧ I gs (w_db s.2)) → ∃ gs, s'.1 = at_ <$> gs ∧ I gs (w_db s'.2).
Proof.
  intros Harr Hcr Hcall s s' Hs. induction Hs as [|s1 s2 s3 Hstep _ IH]; [done|].
  intros (gs & Hgs & HI). apply IH. clear IH.
  destruct Hstep as [ts w i p p' w' Hi Hn|ts w p Hp|ts w i]; cbn in *; subst ts.
  - rewrite list_lookup_fmap in Hi. destruct (gs !! i) as [g|] eqn:Eg; [|done].
    cbn in Hi. injection Hi as <-. destruct (Hcall _ _ _ _ _ _ Eg Hn HI) as (g' & -> & HI').
    exists (<[i := g']> gs). split; [|done]. by rewrite list_fmap_insert.
  - destruct (Harr _ _ _ Hp HI) as (g & -> & HI'). exists (gs ++ [g]). split; [|done].
    by rewrite fmap_app.
  - exists (delete i gs). split; [|by apply Hcr]. cbn.
    clear -gs. revert i. induction gs as [|g gs IH]; intros [|i]; cbn; [done..|]. by rewrite IH.
Qed.
End interleaving.
End proc.

Arguments proc D A : clear implicits.
Arguments Done {D A} a.
Arguments Call {D A B} m k.

Notation "x <~ p ;; k" := (pbind p (fun x => k))
  (at level 20, p at level 99, k at level 200, right associativity) : go_scope.
Notation "x <~? p ;; k" := (pbind_ok p (fun x => k))
  (at level 20, p at level 99, k at level 200, right associativity) : go_scope.

(** [follow_steps]: along the calls of a handler. *)
Ltac follow_steps :=
  repeat first
    [ exact I
    | solve [auto 2]
    | apply follows_call_or; [typeclasses eauto..|intros ?]
    | apply follows_then_ok; [|intros ?]
    | apply follows_then; [|intros ?]
    | apply follows_one; typeclasses eauto
    | match goal with |- follows _ _ (match ?x with _ => _ end) => destruct x end
    | match goal with |- follows _ _ (let '_ := ?x in _) => destruct x end ].
