(* ===== verification/Rely.v ===== *)
(** * Requests that share a state and keep out of each other's way

    Some requests own a part of the state: what they do there is nobody
    else's business.  [Changes o] is what a request that owns [o] may do,
    [Changes None] what any request may.  [polite] is a proof outline: between
    the calls of a request stand assertions that the others cannot break.
    Whatever the interleaving and whichever requests are lost, a common
    invariant [J] stays. *)

From S2P Require Import Prelude Sql Proc.

Section rely.
Context {D O : Type} (J : D → Prop) (Changes : option O → relation D).

(** What somebody else does. *)
Definition others (o : option O) (d d' : D) : Prop := ∃ o', (o' ≠ o ∨ o' = None) ∧ Changes o' d d'.

Definition stable (o : option O) (P : D → Prop) : Prop :=
  ∀ d d', J d → J d' → others o d d' → P d → P d'.

Fixpoint polite {A} (o : option O) (P : D → Prop) (p : proc D A) (Q : A → D → Prop) : Prop :=
  match p with
  | Done a => ∀ d, J d → P d → Q a d
  | Call m k => (∃ d, J d ∧ P d) → ∃ P' R, (∀ d, J d → P d → P' d) ∧ stable o P' ∧
      (∀ w, J (w_db w) → P' (w_db w) →
         J (w_db (m w).2) ∧ Changes o (w_db w) (w_db (m w).2) ∧ R (m w).1 (w_db (m w).2)) ∧
      ∀ r d, J d → R r d → polite o (R r) (k r) Q
  end.

(** Only states there can be matter. *)
Lemma polite_given {A} o (P : D → Prop) (p : proc D A) (Q : A → D → Prop) :
  (∀ d, J d → P d → polite o P p Q) → polite o P p Q.
Proof.
  intros H. destruct p as [a|B m k]; cbn in *; [intros d Hd Hp; by apply (H d)|].
  intros E. destruct E as (d & Hd & Hp) eqn:HE. apply (H d Hd Hp). eauto.
Qed.

Lemma polite_weaken {A} o (P P' : D → Prop) (p : proc D A) (Q Q' : A → D → Prop) :
  polite o P p Q → (∀ d, J d → P' d → P d) → (∀ a d, J d → Q a d → Q' a d) → polite o P' p Q'.
Proof.
  intros Hp HP HQ. revert P P' Hp HP. induction p as [a|B m k IH]; intros P P' Hp HP; cbn in *; [eauto|].
  intros (d0 & Hd0 & Hp0). destruct Hp as (P0 & R & H1 & H2 & H3 & H4); [eauto|].
  exists P0, R. split_and!; [eauto|done|done|]. intros r d Hd Hr. eapply IH; eauto.
Qed.

Lemma polite_pbind {A B} o (P : D → Prop) (p : proc D A) (k : A → proc D B) (Q : A → D → Prop) (Q' : B → D → Prop) :
  polite o P p Q → (∀ a d, J d → Q a d → polite o (Q a) (k a) Q') → polite o P (pbind p k) Q'.
Proof.
  intros Hp Hk. revert P Hp. induction p as [a|C m c IH]; intros P Hp; cbn in *.
  - apply polite_given. intros d Hd Hpd. eapply polite_weaken; [by eapply (Hk a d), Hp|auto|auto].
  - intros E. destruct (Hp E) as (P0 & R & H1 & H2 & H3 & H4). exists P0, R. split_and!; [done..|].
    intros r d Hd Hr. eapply IH; eauto.
Qed.

(** One call and what holds when it is over. *)
Lemma polite_one {B} o (P : D → Prop) (m : DB D B) (R : result B → D → Prop) :
  stable o P →
  (∀ w, J (w_db w) → P (w_db w) →
     J (w_db (m w).2) ∧ Changes o (w_db w) (w_db (m w).2) ∧ R (m w).1 (w_db (m w).2)) →
  polite o P (one m) R.
Proof. intros HP Hm _. exists P, R. split_and!; [auto..|]. by intros r d _ _ d' _. Qed.

Lemma polite_forget {A} o (P : D → Prop) (p : proc D A) (Q : A → D → Prop) :
  polite o P p Q → polite o P (forget p) (λ _ _, True).
Proof.
  revert P. induction p as [a|B m k IH]; intros P Hp; cbn in *; [done|].
  intros E. destruct (Hp E) as (P0 & R & H1 & H2 & H3 & H4). exists P0, R. split_and!; [done..|].
  intros r d Hd Hr. eapply IH; eauto.
Qed.

(** Without assertions: every call keeps the invariant and to its part. *)
Lemma polite_guarded {A} o (p : proc D A) :
  guarded J (Changes o) (λ _, True) p → polite o (λ _, True) p (λ _ _, True).
Proof.
  induction p as [a|B m k IH]; cbn; [done|]. intros Hp _.
  exists (λ _, True), (λ r _, guarded J (Changes o) (λ _, True) (k r)). split_and!; [done|done| |].
  - intros w Hw _. by destruct (Hp w Hw) as (? & ? & ?).
  - intros r d _ Hr. eapply polite_weaken; [by apply IH|done|done].
Qed.

(** The result of one part says what the next may rely on. *)
Lemma polite_then {A B} o (p : proc D A) (φ : A → Prop) (k : A → proc D B) Q :
  polite o (λ _, True) p (λ a _, φ a) → (∀ a, φ a → polite o (λ _, True) (k a) Q) → polite o (λ _, True) (pbind p k) Q.
Proof.
  intros Hp Hk. eapply polite_pbind; [exact Hp|]. intros a d _ Ha. eapply polite_weaken; [by apply Hk|done|done].
Qed.

Lemma polite_then_ok {A B} o (p : proc D (result A)) (φ : A → Prop) (k : A → proc D (result B)) (Q : result B → Prop) :
  polite o (λ _, True) p (λ r _, match r with Ok a => φ a | Err _ => True end) → (∀ e, Q (Err e)) →
  (∀ a, φ a → polite o (λ _, True) (k a) (λ r _, Q r)) → polite o (λ _, True) (pbind_ok p k) (λ r _, Q r).
Proof. intros Hp He Hk. eapply polite_then; [exact Hp|]. intros [a|e]; [by auto|]. intros _ d _ _. apply He. Qed.

(** A request in flight: an assertion holds that the others cannot break. *)
Definition at_ease (d : D) (p : proc D unit) (o : option O) : Prop :=
  ∃ P, P d ∧ stable o P ∧ polite o P p (λ _ _, True).

Lemma at_ease_polite d p o (P : D → Prop) :
  J d → P d → polite o P p (λ _ _, True) → at_ease d p o.
Proof.
  intros HJ HP Hp. destruct p as [a|B m k]; [by exists (λ _, True)|]. cbn in Hp.
  destruct Hp as (P' & R & H1 & H2 & H3 & H4); [eauto|]. exists P'. split_and!; [auto|done|]. intros _. exists P', R. done.
Qed.

(** No two requests own the same part. *)
Definition apart (os : list (option O)) : Prop :=
  ∀ i j o, os !! i = Some (Some o) → os !! j = Some (Some o) → i = j.

Lemma apart_app_None os : apart os → apart (os ++ [None]).
Proof.
  intros H i j o Hi Hj. apply (H i j o).
  - by apply lookup_app_Some in Hi as [?|[_ [? E]%list_lookup_singleton_Some]].
  - by apply lookup_app_Some in Hj as [?|[_ [? E]%list_lookup_singleton_Some]].
Qed.

Lemma apart_delete os i : apart os → apart (delete i os).
Proof.
  intros H a b o Ha Hb. rewrite !list_lookup_delete in Ha, Hb.
  repeat case_decide; try lia; pose proof (H _ _ _ Ha Hb); lia.
Qed.

Lemma Forall2_insert_other {X Y} (R R' : X → Y → Prop) l l' i x y :
  Forall2 R l l' → l' !! i = Some y → R' x y →
  (∀ j a b, j ≠ i → l !! j = Some a → l' !! j = Some b → R a b → R' a b) → Forall2 R' (<[i := x]> l) l'.
Proof.
  intros Hl Hy Hx Hother. apply Forall2_same_length_lookup. split; [by rewrite length_insert; eapply Forall2_length|].
  intros j a b Ha Hb. destruct (decide (j = i)) as [->|Hj].
  - rewrite list_lookup_insert_eq in Ha by (apply lookup_lt_Some in Hy; by rewrite (Forall2_length _ _ _ Hl)). by simplify_eq.
  - rewrite list_lookup_insert_ne in Ha by done. eapply Hother; [done..|]. by eapply Forall2_lookup_lr.
Qed.

Lemma pool_polite (request : proc D unit → Prop) :
  (∀ p, request p → polite None (λ _, True) p (λ _ _, True)) →
  ∀ s s', rtc (pool_step request) s s' →
    ∀ os, apart os → Forall2 (at_ease (w_db s.2)) s.1 os → J (w_db s.2) → J (w_db s'.2).
Proof.
  intros Hreq s s' Hs. induction Hs as [s|s1 s2 s3 Hstep _ IH]; intros os Hos Hts HJ; [done|].
  destruct Hstep as [ts w i p p' w' Hi Hn|ts w p Hp|ts w i]; cbn in *.
  - destruct (Forall2_lookup_l _ _ _ _ _ Hts Hi) as (o & Ho & P & HP & HPs & Hpo).
    destruct p as [a|B m k]; cbn in Hn; [done|]. simplify_eq. cbn in Hpo.
    destruct Hpo as (P' & R & H1 & H2 & H3 & H4); [eauto|]. destruct (H3 w HJ (H1 _ HJ HP)) as (HJ' & Hch & HR).
    apply (IH os Hos); [|done]. eapply Forall2_insert_other; [exact Hts|exact Ho| |].
    + eapply at_ease_polite; [done|exact HR|]. by eapply H4.
    + intros j q o' Hj _ Ho' (P2 & HP2 & HP2s & Hq). exists P2. split_and!; [|done|done].
      eapply HP2s; [exact HJ|exact HJ'| |exact HP2]. exists o. split; [|done].
      destruct o as [o|]; [|by right]. left. intros <-. by apply Hj, (Hos j i o).
  - apply (IH (os ++ [None])); [by apply apart_app_None| |done]. apply Forall2_app; [done|].
    constructor; [|constructor]. eapply at_ease_polite; [done| |by apply Hreq]. done.
  - apply (IH (delete i os)); [by apply apart_delete| |done]. clear -Hts. revert i.
    induction Hts as [|p o ts os Hp Hts IHts]; intros [|i]; cbn; [constructor|constructor|done|].
    constructor; [done|apply IHts].
Qed.
End rely.

(** ** What has been seen stays so

    Some facts outlive whatever the others do: what was said was said.
    [informed d p Q]: [p], started in [d] or in any state that grew out of it,
    keeps the invariant, and what it returns has [Q] for good. *)
Section informed.
Context {D : Type} (J : D → Prop) (Grow : relation D) `{!PreOrder Grow}.

Fixpoint informed {A} (d : D) (p : proc D A) (Q : A → D → Prop) : Prop :=
  match p with
  | Done a => ∀ d', Grow d d' → J d' → Q a d'
  | Call m k => ∀ w, Grow d (w_db w) → J (w_db w) →
      J (w_db (m w).2) ∧ Grow (w_db w) (w_db (m w).2) ∧ informed (w_db (m w).2) (k (m w).1) Q
  end.

Lemma informed_grow {A} d d' (p : proc D A) Q : Grow d d' → informed d p Q → informed d' p Q.
Proof. destruct p as [a|B m k]; cbn; intros Hg H; [intros d2 H2|intros w H2]; apply H; by etrans. Qed.

Lemma informed_done {A} d (a : A) (Q : A → D → Prop) : (∀ d', Grow d d' → J d' → Q a d') → informed d (Done a) Q.
Proof. done. Qed.

Lemma informed_weaken {A} d (p : proc D A) (Q Q' : A → D → Prop) :
  informed d p Q → (∀ a d', Grow d d' → J d' → Q a d' → Q' a d') → informed d p Q'.
Proof.
  revert d. induction p as [a|B m k IH]; cbn; intros d Hp HQ; [auto|]. intros w Hw HJ.
  destruct (Hp w Hw HJ) as (H1 & H2 & H3). split_and!; [done..|]. eapply IH; [done|].
  intros a d' Hd'. apply HQ. etrans; [exact Hw|]. by etrans.
Qed.

Lemma informed_pbind {A B} d (p : proc D A) (k : A → proc D B) (Q : A → D → Prop) (Q' : B → D → Prop) :
  informed d p Q → (∀ a d', Grow d d' → J d' → (∀ d2, Grow d' d2 → J d2 → Q a d2) → informed d' (k a) Q') →
  informed d (pbind p k) Q'.
Proof.
  revert d. induction p as [a|C m c IH]; cbn; intros d Hp Hk.
  - specialize (Hk a). destruct (k a) as [b|C m c]; cbn.
    + intros d' Hd' HJ. apply (Hk d'); [done|done| |done|done]. intros d2 H2 HJ2. apply Hp; [by etrans|done].
    + intros w Hw HJ. apply (Hk (w_db w)); [done|done| |done|done]. intros d2 H2 HJ2. apply Hp; [by etrans|done].
  - intros w Hw HJ. destruct (Hp w Hw HJ) as (H1 & H2 & H3). split_and!; [done..|]. apply IH; [done|].
    intros a d' Hd'. apply Hk. etrans; [exact Hw|]. by etrans.
Qed.

Lemma informed_one {B} d (m : DB D B) (Q : result B → D → Prop) :
  (∀ w, Grow d (w_db w) → J (w_db w) → J (w_db (m w).2) ∧ Grow (w_db w) (w_db (m w).2) ∧
     ∀ d', Grow (w_db (m w).2) d' → J d' → Q (m w).1 d') → informed d (one m) Q.
Proof. done. Qed.

(** Calls that only keep the invariant. *)
Lemma informed_guarded {A} d (p : proc D A) Q : guarded J Grow Q p → informed d p (λ a _, Q a).
Proof.
  revert d. induction p as [a|B m k IH]; cbn; intros d Hp; [done|]. intros w Hw HJ.
  destruct (Hp w HJ) as (H1 & H2 & H3). split_and!; [done..|by apply IH].
Qed.

Lemma informed_forget {A} d (p : proc D A) Q : informed d p Q → informed d (forget p) (λ _ _, True).
Proof.
  revert d. induction p as [a|B m k IH]; cbn; intros d Hp; [done|]. intros w Hw HJ.
  destruct (Hp w Hw HJ) as (H1 & H2 & H3). split_and!; [done..|by apply IH].
Qed.

(** Goroutines. *)
Lemma informed_both {A B} d (p : proc D A) turns (q : proc D B) Q Q' :
  informed d p Q → informed d q Q' → informed d (both p turns q) (λ r d', Q r.1 d' ∧ Q' r.2 d').
Proof.
  revert d turns q. induction p as [a|C m k IH]; intros d turns q Hp Hq.
  { cbn [both]. eapply informed_pbind; [exact Hq|]. intros b d' Hd' _ Hb d2 H2 HJ2. cbn in *.
    split; [apply Hp; [by etrans|done]|by apply Hb]. }
  revert d q Hp Hq. induction turns as [|[] turns IHt]; intros d q Hp Hq.
  1, 2: intros w Hw HJ; destruct (Hp w Hw HJ) as (H1 & H2 & H3); split_and!; [done..|]; apply IH; [done|];
        eapply informed_grow; [|exact Hq]; by etrans.
  destruct q as [b|C' m' k'].
  - change (informed d (pbind (Call m k) (λ a, Done (a, b))) (λ r d', Q r.1 d' ∧ Q' r.2 d')).
    eapply informed_pbind; [exact Hp|]. intros a d' Hd' _ Ha d2 H2 HJ2. cbn in *. split; [by apply Ha|].
    apply Hq; [by etrans|done].
  - intros w Hw HJ. destruct (Hq w Hw HJ) as (H1 & H2 & H3). split_and!; [done..|]. apply IHt; [|done].
    eapply informed_grow; [|exact Hp]. by etrans.
Qed.

Lemma informed_together {A} d turns (ps : list (proc D A)) Q :
  Forall (λ p, informed d p Q) ps → informed d (together turns ps) (λ l d', Forall (λ a, Q a d') l).
Proof.
  revert d turns. induction ps as [|p ps IH]; intros d turns Hps; cbn [together]; [by intros d' _ _; constructor|].
  apply Forall_cons in Hps as [Hp Hps].
  eapply informed_pbind; [apply informed_both; [exact Hp|by apply IH]|].
  intros [a l] d' Hd' _ Hr d2 H2 HJ2. destruct (Hr d2 H2 HJ2). by constructor.
Qed.

Lemma informed_exec {A} d (p : proc D A) Q w :
  informed d p Q → Grow d (w_db w) → J (w_db w) →
  J (w_db (exec_proc p w).2) ∧ Grow d (w_db (exec_proc p w).2) ∧ Q (exec_proc p w).1 (w_db (exec_proc p w).2).
Proof.
  revert d w. induction p as [a|B m k IH]; cbn; intros d w Hp Hw HJ; [auto|]. destruct (Hp w Hw HJ) as (H1 & H2 & H3).
  destruct (m w) as [r w1]. cbn in *. destruct (IH r _ w1 H3) as (H4 & H5 & H6); [done..|]. split_and!; [done| |done].
  etrans; [exact Hw|]. by etrans.
Qed.

Lemma pool_informed (request : proc D unit → Prop) :
  (∀ p d, request p → informed d p (λ _ _, True)) →
  ∀ s s', rtc (pool_step request) s s' →
    Forall (λ p, informed (w_db s.2) p (λ _ _, True)) s.1 → J (w_db s.2) → J (w_db s'.2) ∧ Grow (w_db s.2) (w_db s'.2).
Proof.
  intros Hreq s s' Hs. induction Hs as [s|s1 s2 s3 Hstep _ IH]; intros Hts HJ; [done|].
  cut (Forall (λ p, informed (w_db s2.2) p (λ _ _, True)) s2.1 ∧ J (w_db s2.2) ∧ Grow (w_db s1.2) (w_db s2.2)).
  { intros (H1 & H2 & H3). destruct (IH H1 H2). split; [done|by etrans]. }
  destruct Hstep as [ts w i p p' w' Hi Hn|ts w p Hp|ts w i]; cbn in *.
  - pose proof (Forall_lookup_1 _ _ _ _ Hts Hi) as Hp. destruct p as [a|C m c]; cbn in Hn; [done|]. simplify_eq.
    destruct (Hp w ltac:(done) HJ) as (H1 & H2 & H3). split_and!; [|done|done]. apply Forall_insert; [|done].
    eapply Forall_impl; [exact Hts|]. intros q. by apply informed_grow.
  - split_and!; [|done|done]. apply Forall_app. split; [done|]. constructor; [by apply Hreq|constructor].
  - split_and!; [by apply Forall_delete|done|done].
Qed.
End informed.
