(* ===== verification/Recharge.v ===== *)
(** * Recharge orders (internal/recharge)

    Packages, orders, the notifications of the payment gateway and what they
    credit.  Marking an order paid and crediting its user are two calls, so
    the handlers that do it are [proc]s: they interleave, and they can be cut
    short. *)

From S2P Require Import Prelude GoStrings Float Sql Schema Proc Ledger Billing Epay.

Definition ErrPackageUnavailable : goerr := Sentinel "recharge: package not available".
Definition ErrChannelDisabled : goerr := Sentinel "recharge: pay channel disabled".
Definition ErrOrderNotFound : goerr := Sentinel "recharge: order not found".
Definition ErrOrderStateInvalid : goerr := Sentinel "recharge: order state invalid".
Definition ErrRechargeDisabled : goerr := Sentinel "recharge: recharge is disabled by admin".
Definition ErrAmountOutOfRange : goerr := Sentinel "recharge: amount out of allowed range".
Definition ErrDailyLimitExceeded : goerr := Sentinel "recharge: daily limit exceeded".
Definition ErrNotFound : goerr := Sentinel "recharge: not found".

Definition StatusPending : string := "pending".
Definition StatusPaid : string := "paid".
Definition StatusExpired : string := "expired".
Definition StatusCancelled : string := "cancelled".
Definition StatusFailed : string := "failed".
Definition ChannelEPay : string := "epay".

(** [Order.TotalCredits] *)
Definition TotalCredits (o : Order) : Z := wrap64 (Credits o + Bonus o).

(** ** DAO (dao.go) *)

Definition ListPackages (onlyEnabled : bool) : DBM (list (N * Package)) :=
  query (λ d, Ok (sort_by
    (λ p q : N * Package, (PkgSort p.2 <? PkgSort q.2) ||
       ((PkgSort p.2 =? PkgSort q.2) && (p.1 <=? q.1)%N))
    (rows_where recharge_packages (λ _ p, negb onlyEnabled || PkgEnabled p) d))).

Definition GetPackage (id : N) : DBM Package :=
  query (λ d, match recharge_packages d !! id with Some p => Ok p | None => Err ErrNotFound end).

Definition CreatePackage (p : Package) : DBM N :=
  exec (λ d, let id := auto_id (recharge_packages d) in Ok (id, with_recharge_packages <[id := p]> d)).

Definition UpdatePackage (id : N) (p : Package) : DBM N :=
  exec (id_update recharge_packages with_recharge_packages id (λ _, Ok true) (λ _, Ok p)).

Definition DeletePackage (id : N) : DBM unit :=
  exec (λ d, Ok (tt, with_recharge_packages (delete id) d)).

Definition find_order (no : string) (d : database) : option (N * Order) :=
  head (rows_where recharge_orders (λ _ o, String.eqb (OutTradeNo o) no) d).

(** [INSERT INTO recharge_orders ..], with its UNIQUE key; the columns it does
    not name take their defaults. *)
Definition insert_order (o : Order) (d : database) : result (N * database) :=
  match find_order (OutTradeNo o) d with
  | Some _ => Err (EMySQL 1062)
  | None => let id := auto_id (recharge_orders d) in Ok (id, with_recharge_orders <[id := o]> d)
  end.
Definition CreateOrder (o : Order) : DBM N := exec (insert_order o).

Definition GetByOutTradeNo (no : string) : DBM (N * Order) :=
  query (λ d, match find_order no d with Some p => Ok p | None => Err ErrNotFound end).

Definition GetByID (id : N) : DBM Order :=
  query (λ d, match recharge_orders d !! id with Some o => Ok o | None => Err ErrNotFound end).

Record ListFilter := {
  LfUserID : N;
  LfStatus : string;
  LfSince : option Z;
  LfUntil : option Z
}.

Definition order_where (f : ListFilter) (_ : N) (o : Order) : bool :=
  ((LfUserID f =? 0)%N || (OrdUserID o =? LfUserID f)%N) &&
  (String.eqb (LfStatus f) "" || String.eqb (OrdStatus o) (LfStatus f)) &&
  match LfSince f with Some t => t <=? OrdCreatedAt o | None => true end &&
  match LfUntil f with Some t => OrdCreatedAt o <? t | None => true end.

Definition ListOrders (f : ListFilter) (offset limit : Z) : DBM (list (N * Order) * Z) :=
  let limit := if (limit <=? 0) || (200 <? limit) then 50 else limit in
  let offset := if offset <? 0 then 0 else offset in
  rows <- query (λ d, Ok (page offset limit (rev (rows_where recharge_orders (order_where f) d)))) ;;
  total <- query (λ d, Ok (Z.of_nat (length (rows_where recharge_orders (order_where f) d)))) ;;
  ret (rows, total).

(** [today]: midnight of the database server's day, [CURDATE()]. *)
Definition paid_today (userID : N) (today : Z) (_ : N) (o : Order) : bool :=
  (OrdUserID o =? userID)%N && String.eqb (OrdStatus o) StatusPaid &&
  match PaidAt o with Some t => today <=? t | None => false end.

Definition SumPaidTodayCNY (userID : N) (today : Z) : DBM Z :=
  query (λ d, bigint (sumZ (λ p : N * Order, PriceCNY p.2)
                        (rows_where recharge_orders (paid_today userID today) d))).

Definition minute_ns : Z := 60 * 1000000000.

Definition set_status (st : string) (o : Order) : Order := {|
  OutTradeNo := OutTradeNo o; OrdUserID := OrdUserID o; PackageID := PackageID o;
  PriceCNY := PriceCNY o; Credits := Credits o; Bonus := Bonus o; Channel := Channel o;
  PayMethod := PayMethod o; OrdStatus := st; TradeNo := TradeNo o; PaidAt := PaidAt o;
  PayURL := PayURL o; ClientIP := ClientIP o; NotifyRaw := NotifyRaw o; Remark := Remark o;
  OrdCreatedAt := OrdCreatedAt o |}.

Definition is_pending (o : Order) : bool := String.eqb (OrdStatus o) StatusPending.

Definition ExpirePending (minutes now : Z) : DBM N :=
  let minutes := if minutes <=? 0 then 30 else minutes in
  exec (all_update recharge_orders with_recharge_orders
    (λ o, is_pending o && (OrdCreatedAt o <? now - minutes * minute_ns)) (set_status StatusExpired)).

(** ** Amounts (service.go) *)

Section amounts.
Variable parse_exotic : list ascii → gofloat.

Definition verifyAmount (money : string) (wantFen : Z) : option goerr :=
  match scan_float parse_exotic money with
  | None => Some (EWrap "invalid money: " (EMsg "scan"))
  | Some f =>
      let got := to_int (fadd (fmul f 100) (1 # 2)) in
      if negb (got =? wantFen)
      then Some (EMsg ("amount mismatch: got " +:+ itoa got +:+ " fen, want " +:+ itoa wantFen))
      else None
  end.
End amounts.

(** ** Service (service.go) *)

(** The getters of [settings.Service] that orders consult (Settings.v). *)
Record RechargeSettings := {
  rs_enabled : bool;
  rs_min : Z;
  rs_max : Z;
  rs_daily : Z
}.

Record EPayConfig := {
  GatewayURL : string;
  CfgPID : string;
  CfgKey : string;
  CfgSignType : string;
  NotifyURL : string;
  ReturnURL : string
}.

Record CreateInput := {
  CiUserID : N;
  CiPackageID : N;
  PayType : string;
  CiClientIP : string
}.

Definition genTradeNo (buf : list ascii) : string := hex_encode buf.

Definition rawDump (m : params) : option string :=
  if decide (m = ∅) then None else Some (Encode (values_of m)).

(** [recharge] is the billing engine's, through its interface. *)
Section service.
Context (md5hex : string → string) (parse_url : string → result (string * values * string))
        (parse_exotic : list ascii → gofloat).
Context (recharge : N → Z → string → string → DBM unit).
Context (cfg : EPayConfig) (settings : option RechargeSettings) (mail_on : bool).

Definition signer : Signer := NewSigner (CfgPID cfg) (CfgKey cfg) (CfgSignType cfg).

Definition Enabled : bool :=
  negb (String.eqb (GatewayURL cfg) "") && negb (String.eqb (CfgPID cfg) "") &&
  negb (String.eqb (CfgKey cfg) "").

(** The range and the daily limit, once the package is known. *)
Definition check_amount (price : Z) : option goerr :=
  match settings with
  | None => None
  | Some s =>
      if (0 <? rs_min s) && (price <? rs_min s) then Some ErrAmountOutOfRange
      else if (0 <? rs_max s) && (rs_max s <? price) then Some ErrAmountOutOfRange
      else None
  end.

Definition check_daily (userID : N) (today price : Z) (k : proc database (result (N * Order))) :
    proc database (result (N * Order)) :=
  match settings with
  | Some s =>
      if 0 <? rs_daily s then
        call_or (SumPaidTodayCNY userID today) Err (λ already,
        if rs_daily s <? wrap64 (already + price) then Done (Err ErrDailyLimitExceeded) else k)
      else k
  | None => k
  end.

(** [buf]: the sixteen random bytes of the order number; [now], [today]: the
    database clock. *)
Definition Create (inp : CreateInput) (buf : list ascii) (now today : Z) :
    proc database (result (N * Order)) :=
  if negb Enabled then Done (Err ErrChannelDisabled) else
  if match settings with Some s => negb (rs_enabled s) | None => false end
  then Done (Err ErrRechargeDisabled) else
  call_or (GetPackage (CiPackageID inp)) Err (λ pkg,
  if negb (PkgEnabled pkg) then Done (Err ErrPackageUnavailable) else
  match check_amount (PkgPriceCNY pkg) with
  | Some e => Done (Err e)
  | None =>
      check_daily (CiUserID inp) today (PkgPriceCNY pkg) (
      let outTradeNo := genTradeNo buf in
      let extra : params := if String.eqb (PayType inp) "" then ∅ else {[ "type" := PayType inp ]} in
      match BuildPayURL md5hex parse_url signer (GatewayURL cfg) outTradeNo (PkgName pkg)
              (PkgPriceCNY pkg) (NotifyURL cfg) (ReturnURL cfg) extra with
      | Err e => Done (Err e)
      | Ok payURL =>
          let o := {| OutTradeNo := outTradeNo; OrdUserID := CiUserID inp; PackageID := CiPackageID inp;
                      PriceCNY := PkgPriceCNY pkg; Credits := PkgCredits pkg; Bonus := PkgBonus pkg;
                      Channel := ChannelEPay; PayMethod := PayType inp; OrdStatus := StatusPending;
                      TradeNo := ""; PaidAt := None; PayURL := payURL; ClientIP := CiClientIP inp;
                      NotifyRaw := None; Remark := PkgName pkg; OrdCreatedAt := now |} in
          call_or (CreateOrder o) Err (λ id, Done (Ok (id, o)))
      end)
  end).

Definition CancelByUser (userID orderID : N) : proc database (result unit) :=
  call_or (GetByID orderID) Err (λ o,
  if negb (OrdUserID o =? userID)%N then Done (Err ErrOrderNotFound) else
  if negb (is_pending o) then Done (Err ErrOrderStateInvalid) else
  call_or (exec (id_update recharge_orders with_recharge_orders orderID
             (λ o, Ok (is_pending o)) (λ o, Ok (set_status StatusCancelled o)))) Err
  (λ _, Done (Ok tt))).

(** [SET status = 'paid', trade_no = ?, pay_method = ?, paid_at = NOW(),
    notify_raw = ?] *)
Definition mark_paid (pl : NotifyPayload) (now : Z) (o : Order) : Order := {|
  OutTradeNo := OutTradeNo o; OrdUserID := OrdUserID o; PackageID := PackageID o;
  PriceCNY := PriceCNY o; Credits := Credits o; Bonus := Bonus o; Channel := Channel o;
  PayMethod := PlType pl; OrdStatus := StatusPaid; TradeNo := PlTradeNo pl; PaidAt := Some now;
  PayURL := PayURL o; ClientIP := ClientIP o; NotifyRaw := rawDump (Raw pl); Remark := Remark o;
  OrdCreatedAt := OrdCreatedAt o |}.

Definition claim_paid (orderID : N) (upd : Order → Order) : DBM N :=
  exec (id_update recharge_orders with_recharge_orders orderID
    (λ o, Ok (is_pending o)) (λ o, Ok (upd o))).

Definition recharge_of (o : Order) (remark : string) : DBM unit :=
  recharge (OrdUserID o) (TotalCredits o) ("order:" +:+ OutTradeNo o) remark.

(** The mail is built from the user's row and queued; its failures are
    ignored. *)
Definition paid_mail (userID : N) : proc database (option goerr) :=
  if mail_on
  then Call (query (λ d, match users d !! userID with Some u => Ok u | None => Err ErrNoRows end))
         (λ _, Done None)
  else Done None.

Definition settle (id : N) (o : Order) (pl : NotifyPayload) (now : Z) : proc database (option goerr) :=
  call_or (claim_paid id (mark_paid pl now)) Some (λ n,
  if (n =? 0)%N then Done None else
  call_or (recharge_of o ("充值:" +:+ Remark o)) Some (λ _, paid_mail (OrdUserID o))).

Definition HandleNotify (form : values) (now : Z) : proc database (string * option goerr) :=
  match ParseNotify md5hex signer form with
  | Err e => Done ("fail", Some e)
  | Ok pl =>
      call_or (GetByOutTradeNo (PlOutTradeNo pl)) (λ e, ("fail", Some e)) (λ p,
      let '(id, o) := p in
      if String.eqb (OrdStatus o) StatusPaid then Done ("success", None) else
      if negb (String.eqb (TradeStatus pl) "TRADE_SUCCESS") then Done ("success", None) else
      match verifyAmount parse_exotic (PlMoney pl) (PriceCNY o) with
      | Some e => Done ("fail", Some e)
      | None =>
          err <~ settle id o pl now ;;
          match err with
          | Some e => Done ("fail", Some e)
          | None => Done ("success", None)
          end
      end)
  end.

(** [SET status = 'paid', paid_at = NOW(), trade_no = IFNULL(NULLIF(trade_no,''), ?)] *)
Definition mark_forced (actorID : N) (now : Z) (o : Order) : Order := {|
  OutTradeNo := OutTradeNo o; OrdUserID := OrdUserID o; PackageID := PackageID o;
  PriceCNY := PriceCNY o; Credits := Credits o; Bonus := Bonus o; Channel := Channel o;
  PayMethod := PayMethod o; OrdStatus := StatusPaid;
  TradeNo := if String.eqb (TradeNo o) "" then "manual-" +:+ pretty actorID else TradeNo o;
  PaidAt := Some now; PayURL := PayURL o; ClientIP := ClientIP o; NotifyRaw := NotifyRaw o;
  Remark := Remark o; OrdCreatedAt := OrdCreatedAt o |}.

Definition AdminForcePaid (orderID actorID : N) (now : Z) : proc database (result unit) :=
  call_or (GetByID orderID) Err (λ o,
  if negb (is_pending o) then Done (Err ErrOrderStateInvalid) else
  call_or (claim_paid orderID (mark_forced actorID now)) Err (λ n,
  if (n =? 0)%N then Done (Err ErrOrderStateInvalid) else
  call_or (recharge_of o ("管理员手工入账:" +:+ Remark o +:+ " by admin=" +:+ pretty actorID)) Err
  (λ _, Done (Ok tt)))).
End service.

(** ** How orders evolve *)

Lemma find_order_Some no d id o :
  find_order no d = Some (id, o) → recharge_orders d !! id = Some o ∧ OutTradeNo o = no.
Proof. intros [H1 H2%String.eqb_eq]%head_rows_where. done. Qed.

Lemma find_order_None no d :
  find_order no d = None ↔ ∀ id o, recharge_orders d !! id = Some o → OutTradeNo o ≠ no.
Proof.
  unfold find_order. rewrite head_rows_where_None.
  split; intros H id c Hc; specialize (H id c Hc); by apply String.eqb_neq.
Qed.

Definition orders_unique (d : database) : Prop :=
  ∀ i j o o', recharge_orders d !! i = Some o → recharge_orders d !! j = Some o' →
    OutTradeNo o = OutTradeNo o' → i = j.

(** What a later state of an order still says. *)
Definition same_order (o o' : Order) : Prop :=
  OutTradeNo o' = OutTradeNo o ∧ OrdUserID o' = OrdUserID o ∧ PriceCNY o' = PriceCNY o ∧
  Credits o' = Credits o ∧ Bonus o' = Bonus o ∧ PackageID o' = PackageID o.

Definition is_paid (o : Order) : bool := String.eqb (OrdStatus o) StatusPaid.

(** Orders stay, keep their number, owner, price and credits, and never
    change again once they have left the pending state. *)
Definition orders_evolve (d d' : database) : Prop :=
  ∀ id o, recharge_orders d !! id = Some o →
    ∃ o', recharge_orders d' !! id = Some o' ∧ same_order o o' ∧ (is_pending o = false → o' = o).

Lemma same_order_refl o : same_order o o.
Proof. by unfold same_order. Qed.
Lemma same_order_trans o1 o2 o3 : same_order o1 o2 → same_order o2 o3 → same_order o1 o3.
Proof. unfold same_order. intros (?&?&?&?&?&?) (?&?&?&?&?&?). split_and!; congruence. Qed.
#[local] Hint Resolve same_order_refl : core.

#[export] Instance orders_evolve_preorder : PreOrder orders_evolve.
Proof.
  split.
  - intros d id o Ho. eauto.
  - intros d1 d2 d3 H12 H23 id o Ho. destruct (H12 _ _ Ho) as (o2 & Ho2 & S12 & P12).
    destruct (H23 _ _ Ho2) as (o3 & Ho3 & S23 & P23). exists o3.
    split_and!; [done|by eapply same_order_trans|]. intros Hp. rewrite (P12 Hp) in *. by apply P23.
Qed.

Lemma same_order_total o o' : same_order o o' → TotalCredits o' = TotalCredits o.
Proof. unfold same_order, TotalCredits. intros (?&?&?&?&?&?). congruence. Qed.

(** A statement that credits nobody and pays no order. *)
Record benign (d d' : database) : Prop := {
  bn_evolve : orders_evolve d d';
  bn_unique : orders_unique d → orders_unique d';
  bn_journal : credit_transactions d' = credit_transactions d;
  bn_new id o : recharge_orders d' !! id = Some o → recharge_orders d !! id = None →
    is_paid o = false ∧ find_order (OutTradeNo o) d = None;
  bn_paid id o o' : recharge_orders d !! id = Some o → recharge_orders d' !! id = Some o' →
    is_paid o' = true → is_paid o = true
}.

Lemma benign_refl d : benign d d.
Proof. split; [done|done|done|by intros id o -> |]. intros id o o' -> [= <-]. done. Qed.
#[local] Hint Resolve benign_refl : core.

(** Changing the status of some pending orders, but not to paid. *)
Lemma benign_status d st (P : Order → bool) :
  String.eqb st StatusPaid = false →
  benign d (with_recharge_orders (fmap (λ o, if is_pending o && P o then set_status st o else o)) d).
Proof.
  intros Hst.
  assert (∀ o, let o' := if is_pending o && P o then set_status st o else o in
    same_order o o' ∧ (is_pending o = false → o' = o) ∧ (is_paid o' = true → is_paid o = true)) as Ho.
  { intros o. cbn. destruct (is_pending o) eqn:Hp; cbn; [|by rewrite ?Hp].
    destruct (P o); [|done]. split_and!; [done|done|]. unfold is_paid. cbn. by rewrite Hst. }
  split; cbn.
  - intros id o H. exists (if is_pending o && P o then set_status st o else o). cbn.
    rewrite lookup_fmap, H. destruct (Ho o) as (? & ? & _). done.
  - intros Hu i j o o'. cbn. rewrite !lookup_fmap. intros H1 H2.
    apply fmap_Some in H1 as (x & Hx & ->), H2 as (y & Hy & ->).
    destruct (Ho x) as (Sx & _), (Ho y) as (Sy & _). cbn in Sx, Sy.
    rewrite (proj1 Sx), (proj1 Sy). by eapply Hu.
  - done.
  - intros id o. rewrite lookup_fmap. by intros (x & -> & ->)%fmap_Some.
  - intros id o o'. rewrite lookup_fmap. intros ->. cbn. intros [= <-]. by apply Ho.
Qed.

Lemma benign_cancel d id o :
  recharge_orders d !! id = Some o → is_pending o = true →
  benign d (with_recharge_orders <[id := set_status StatusCancelled o]> d).
Proof.
  intros Ho Hp. split; cbn.
  - intros i x Hx. cbn. rewrite lookup_insert. case_decide; subst; [|by eauto].
    simplify_eq. eexists. split; [done|]. split; [done|]. congruence.
  - intros Hu i j x y. cbn. rewrite !lookup_insert_Some.
    intros [[<- <-]|[? Hx]] [[<- <-]|[? Hy]]; cbn; [done| | |]; intros; by eapply Hu.
  - done.
  - intros i x. rewrite lookup_insert_Some. intros [[<- <-]|[? Hx]]; congruence.
  - intros i x y Hx. rewrite lookup_insert_Some. intros [[<- <-]|[? Hy]]; [done|congruence].
Qed.

Lemma benign_create d o :
  is_paid o = false → find_order (OutTradeNo o) d = None →
  benign d (with_recharge_orders <[auto_id (recharge_orders d) := o]> d).
Proof.
  intros Hp Hn. pose proof (auto_id_fresh (recharge_orders d)) as Hf.
  pose proof (proj1 (find_order_None _ _) Hn) as Hn'. split; cbn.
  - intros i x Hx. exists x. cbn. rewrite lookup_insert_ne by congruence. done.
  - intros Hu i j x y. cbn. rewrite !lookup_insert_Some.
    intros [[<- <-]|[? Hx]] [[<- <-]|[? Hy]] E; cbn; [done| | |by eapply Hu].
    + exfalso. by eapply Hn'.
    + exfalso. by eapply Hn'.
  - done.
  - intros i x. rewrite lookup_insert_Some. intros [[<- <-]|[? Hx]]; [done|congruence].
  - intros i x y Hx. rewrite lookup_insert_ne by congruence. congruence.
Qed.

(** ** Where a request stands

    [Free]: it owes nothing.  [Knows id o]: it has read the order.
    [Claimed id o]: it has marked the order paid and must credit it. *)

Inductive phase := Free | Knows (id : N) (o : Order) | Claimed (id : N) (o : Order).

Definition agrees (ph : phase) (d : database) : Prop :=
  match ph with
  | Free => True
  | Knows id o | Claimed id o => ∃ o', recharge_orders d !! id = Some o' ∧ same_order o o'
  end.

Lemma agrees_evolve ph d d' : orders_evolve d d' → agrees ph d → agrees ph d'.
Proof.
  intros He. destruct ph as [|id o|id o]; cbn; [done|..]; intros (o1 & H1 & S1);
    destruct (He _ _ H1) as (o2 & H2 & S2 & _); eauto using same_order_trans.
Qed.

(** What one call does. *)
Inductive effect : phase → phase → database → database → Prop :=
  | eff_benign ph d d' : benign d d' → effect ph Free d d'
  | eff_keep ph d : effect ph ph d d
  | eff_learn ph id o d : recharge_orders d !! id = Some o → effect ph (Knows id o) d d
  | eff_claim id o o1 o2 d :
      recharge_orders d !! id = Some o1 → is_pending o1 = true → same_order o1 o2 → is_paid o2 = true →
      effect (Knows id o) (Claimed id o) d (with_recharge_orders <[id := o2]> d)
  | eff_credit id o d bal us m :
      effect (Claimed id o) Free d
        (log_txs [Build_CreditTx (OrdUserID o) 0 KindRecharge (TotalCredits o) bal
                    ("order:" +:+ OutTradeNo o) m] (with_users (λ _, us) d)).

Section requests.
Context (recharge : N → Z → string → string → DBM unit) `{!Recharger recharge}.

(** Handlers made of the calls above. *)
Inductive safe : phase → proc database unit → Prop :=
  | safe_done ph : safe ph (Done tt)
  | safe_free ph p : safe Free p → safe ph p
  | safe_benign ph B (m : DBM B) k :
      (∀ w, benign (w_db w) (w_db (m w).2)) → (∀ r, safe Free (k r)) → safe ph (Call m k)
  | safe_read ph B (m : DBM B) k :
      (∀ w, w_db (m w).2 = w_db w) → (∀ r, safe ph (k r)) → safe ph (Call m k)
  | safe_get_no ph no k :
      (∀ e, safe Free (k (Err e))) → (∀ id o, OutTradeNo o = no → safe (Knows id o) (k (Ok (id, o)))) →
      safe ph (Call (GetByOutTradeNo no) k)
  | safe_get_id ph id k :
      (∀ e, safe Free (k (Err e))) → (∀ o, safe (Knows id o) (k (Ok o))) →
      safe ph (Call (GetByID id) k)
  | safe_claim id o upd k :
      (∀ o1, same_order o1 (upd o1) ∧ is_paid (upd o1) = true) →
      (∀ e, safe Free (k (Err e))) → (∀ n, safe (if (n =? 0)%N then Free else Claimed id o) (k (Ok n))) →
      safe (Knows id o) (Call (claim_paid id upd) k)
  | safe_credit id o m k :
      (∀ r, safe Free (k r)) → safe (Claimed id o) (Call (recharge_of recharge o m) k).

Lemma claim_paid_outcome id upd w :
  (w_db (claim_paid id upd w).2 = w_db w ∧
   ((∃ e, (claim_paid id upd w).1 = Err e) ∨ (claim_paid id upd w).1 = Ok 0%N)) ∨
  ∃ o1, recharge_orders (w_db w) !! id = Some o1 ∧ is_pending o1 = true ∧
    (claim_paid id upd w).1 = Ok 1%N ∧
    w_db (claim_paid id upd w).2 = with_recharge_orders <[id := upd o1]> (w_db w).
Proof.
  destruct (atomic_or_run (claim_paid id upd) w) as [[H1 H2]|Hr]; [left; eauto|].
  unfold claim_paid in Hr at 1. rewrite run_exec in Hr. unfold id_update in Hr.
  destruct (recharge_orders (w_db w) !! id) as [o1|] eqn:E; cbn in Hr.
  - destruct (is_pending o1) eqn:Hp; cbn in Hr; injection Hr as Hr1 Hr2.
    + right. exists o1. by rewrite <-Hr1, <-Hr2.
    + left. rewrite <-Hr1, <-Hr2. split; [done|by right].
  - injection Hr as Hr1 Hr2. left. rewrite <-Hr1, <-Hr2. split; [done|by right].
Qed.

Lemma effect_from_free ph ph' d d' : effect Free ph' d d' → effect ph ph' d d'.
Proof. inversion 1; subst; by constructor. Qed.

Lemma get_by_no_outcome no w :
  w_db (GetByOutTradeNo no w).2 = w_db w ∧
  ((∃ e, (GetByOutTradeNo no w).1 = Err e) ∨
   ∃ id o, (GetByOutTradeNo no w).1 = Ok (id, o) ∧ recharge_orders (w_db w) !! id = Some o ∧ OutTradeNo o = no).
Proof.
  split; [apply query_keeps|].
  destruct (transparent_run (m:=GetByOutTradeNo no) w) as [Hf|Hr]; [left; eauto|].
  unfold GetByOutTradeNo in Hr at 1. rewrite run_query in Hr. injection Hr as Hr _. rewrite <-Hr.
  destruct (find_order no (w_db w)) as [[id o]|] eqn:E; [right|left; eauto].
  apply find_order_Some in E. eauto.
Qed.

Lemma get_by_id_outcome id w :
  w_db (GetByID id w).2 = w_db w ∧
  ((∃ e, (GetByID id w).1 = Err e) ∨
   ∃ o, (GetByID id w).1 = Ok o ∧ recharge_orders (w_db w) !! id = Some o).
Proof.
  split; [apply query_keeps|].
  destruct (transparent_run (m:=GetByID id) w) as [Hf|Hr]; [left; eauto|].
  unfold GetByID in Hr at 1. rewrite run_query in Hr. injection Hr as Hr _. rewrite <-Hr.
  destruct (recharge_orders (w_db w) !! id); eauto.
Qed.

Lemma recharge_of_outcome o m w :
  w_db (recharge_of recharge o m w).2 = w_db w ∨
  ∃ bal us, w_db (recharge_of recharge o m w).2 =
    log_txs [Build_CreditTx (OrdUserID o) 0 KindRecharge (TotalCredits o) bal ("order:" +:+ OutTradeNo o) m]
      (with_users (λ _, us) (w_db w)).
Proof.
  unfold recharge_of. set (m' := recharge _ _ _ _).
  destruct (atomic_or_run m' w) as [[_ ->]|Hr]; [by left|].
  destruct (m' w) as [[[]|e] w'] eqn:E; cbn in Hr.
  - right. apply recharge_ok in Hr as (_ & bal & us & Hd). eauto.
  - left. pose proof (atomic (m:=m') w e) as Ha. rewrite E in Ha. by apply Ha.
Qed.

(** One call of a request is one of the effects. *)
Lemma safe_next ph p w p' w' :
  safe ph p → next p w = Some (p', w') → agrees ph (w_db w) →
  ∃ ph', safe ph' p' ∧ effect ph ph' (w_db w) (w_db w').
Proof.
  intros Hs. revert p' w'.
  induction Hs as [ph|ph p Hs IH|ph B m k Hm Hk _|ph B m k Hm Hk _|ph no k He _ Hk _|ph id k He _ Hk _
    |id o upd k Hu He _ Hk _|id o m k Hk _]; intros p' w'; cbn [next]; [done|..].
  - intros Hn _. destruct (IH _ _ Hn I) as (ph' & H1 & H2). eauto using effect_from_free.
  - intros [= <- <-] _. exists Free. split; [apply Hk|]. constructor. apply Hm.
  - intros [= <- <-] _. exists ph. split; [apply Hk|]. rewrite Hm. constructor.
  - intros [= <- <-] _. destruct (get_by_no_outcome no w) as [-> [[e ->]|(id & o & -> & Ho & Hno)]].
    + exists Free. split; [apply He|by constructor].
    + exists (Knows id o). split; [by apply Hk|by constructor].
  - intros [= <- <-] _. destruct (get_by_id_outcome id w) as [-> [[e ->]|(o & -> & Ho)]].
    + exists Free. split; [apply He|by constructor].
    + exists (Knows id o). split; [by apply Hk|by constructor].
  - intros [= <- <-] (o1 & Ho1 & S1).
    destruct (claim_paid_outcome id upd w) as [[-> [[e ->]| ->]]|(o2 & Ho2 & Hp & -> & ->)].
    + exists Free. split; [apply He|by constructor].
    + exists Free. split; [apply (Hk 0%N)|by constructor].
    + exists (Claimed id o). split; [apply (Hk 1%N)|]. simplify_eq. destruct (Hu o1) as [S2 Hpd].
      by eapply eff_claim.
  - intros [= <- <-] _. exists Free. split; [apply Hk|].
    destruct (recharge_of_outcome o m w) as [->|(bal & us & ->)]; [by apply eff_benign|apply eff_credit].
Qed.

(** ** Counting credits *)

Definition order_line (no : string) (t : CreditTx) : bool :=
  bool_decide (TxType t = KindRecharge ∧ TxRefID t = "order:" +:+ no).

#[local] Arguments Nat.b2n : simpl never.

(** How often order number [no] has been credited. *)
Definition lines (no : string) (d : database) : nat :=
  length (filter (λ t, order_line no t = true) (credit_transactions d)).

#[local] Arguments lines : simpl never.

Definition claimed (id : N) (ph : phase) : bool :=
  match ph with Claimed i _ => (i =? id)%N | _ => false end.

Fixpoint claims (id : N) (gs : list (phase * proc database unit)) : nat :=
  match gs with [] => 0 | g :: gs => Nat.b2n (claimed id g.1) + claims id gs end.

Lemma claims_insert id gs i g g' :
  gs !! i = Some g →
  (claims id (<[i := g']> gs) + Nat.b2n (claimed id g.1) =
   claims id gs + Nat.b2n (claimed id g'.1))%nat.
Proof.
  revert i. induction gs as [|x gs IH]; intros [|i]; [done|done| |].
  - intros [= ->]. cbn. lia.
  - intros Hi. specialize (IH i Hi). change (<[S i := g']> (x :: gs)) with (x :: <[i := g']> gs).
    cbn [claims]. lia.
Qed.

Lemma claims_delete id gs i : (claims id (delete i gs) ≤ claims id gs)%nat.
Proof.
  revert i. induction gs as [|x gs IH]; intros [|i]; [done|done|cbn; lia|].
  specialize (IH i). change (delete (S i) (x :: gs)) with (x :: delete i gs). cbn [claims]. lia.
Qed.

Lemma claims_app id gs g : claims id (gs ++ [g]) = (claims id gs + Nat.b2n (claimed id g.1))%nat.
Proof. induction gs as [|x gs IH]; cbn; lia. Qed.

(** Every order is credited at most once, only when paid, with its credits,
    to its owner. *)
Record credited_once (gs : list (phase * proc database unit)) (d : database) : Prop := {
  co_safe : Forall (λ g, safe g.1 g.2 ∧ agrees g.1 d) gs;
  co_unique : orders_unique d;
  co_count id o : recharge_orders d !! id = Some o →
    (lines (OutTradeNo o) d + claims id gs ≤ if is_paid o then 1 else 0)%nat;
  co_lines id o t : recharge_orders d !! id = Some o → t ∈ credit_transactions d →
    order_line (OutTradeNo o) t = true → TxAmount t = TotalCredits o ∧ TxUserID t = OrdUserID o;
  co_none no : find_order no d = None → lines no d = 0%nat
}.

Lemma lines_zero no d t : lines no d = 0%nat → t ∈ credit_transactions d → order_line no t = true → False.
Proof.
  unfold lines. intros H%nil_length_inv Ht Hl.
  assert (t ∈ filter (λ t, order_line no t = true) (credit_transactions d)) as Hin
    by by apply list_elem_of_filter.
  rewrite H in Hin. by apply not_elem_of_nil in Hin.
Qed.

Lemma claims_exists id gs d :
  Forall (λ g, safe g.1 g.2 ∧ agrees g.1 d) gs → claims id gs ≠ 0%nat →
  is_Some (recharge_orders d !! id).
Proof.
  induction 1 as [|g gs [_ Hg] _ IH]; cbn; [done|].
  destruct (claimed id g.1) eqn:Hc; cbn; [|done]. intros _.
  destruct g as [[|i o|i o] p]; cbn in *; try done. apply N.eqb_eq in Hc as ->.
  destruct Hg as (o' & -> & _). eauto.
Qed.

Lemma co_safe_insert gs i ph' p' d d' :
  Forall (λ g, safe g.1 g.2 ∧ agrees g.1 d) gs → orders_evolve d d' → safe ph' p' → agrees ph' d' →
  Forall (λ g, safe g.1 g.2 ∧ agrees g.1 d') (<[i := (ph', p')]> gs).
Proof.
  intros H He Hs Ha. apply Forall_insert; [|done].
  eapply Forall_impl; [exact H|]. intros g [H1 H2]. eauto using agrees_evolve.
Qed.

Section preserve.
Context (gs : list (phase * proc database unit)) (i : nat) (ph : phase) (p : proc database unit).
Context (Hi : gs !! i = Some (ph, p)).

Lemma credited_benign p' d d' :
  benign d d' → safe Free p' → credited_once gs d → credited_once (<[i := (Free, p')]> gs) d'.
Proof using Hi.
  intros [He Hu Hj Hnew Hpaid] Hp [Hs Huq Hc Hl Hn].
  assert (∀ no, lines no d' = lines no d) as Hlines by (intros; unfold lines; by rewrite Hj).
  assert (∀ id, (claims id (<[i := (Free, p')]> gs) ≤ claims id gs)%nat) as Hcl.
  { intros id. pose proof (claims_insert id _ _ _ (Free, p') Hi) as H. cbn in H. unfold Nat.b2n in H. lia. }
  assert (∀ no, find_order no d' = None → find_order no d = None) as Hfind.
  { intros no. rewrite !find_order_None. intros H id o Ho. destruct (He _ _ Ho) as (o' & Ho' & S & _).
    rewrite <-(proj1 S). by eapply H. }
  split.
  - by eapply co_safe_insert.
  - by apply Hu.
  - intros id o' Ho'. rewrite Hlines. specialize (Hcl id).
    destruct (recharge_orders d !! id) as [o|] eqn:Ho.
    + destruct (He _ _ Ho) as (o2 & Ho2 & S & Hk). simplify_eq. rewrite (proj1 S).
      specialize (Hc _ _ Ho). destruct (is_paid o) eqn:Hp1; [|destruct (is_paid o'); lia].
      unfold is_pending in Hk. unfold is_paid in Hp1. apply String.eqb_eq in Hp1. rewrite Hp1 in Hk.
      rewrite (Hk eq_refl). unfold is_paid. rewrite Hp1. cbn. lia.
    + destruct (Hnew _ _ Ho' Ho) as [-> Hf]. rewrite Hn by done.
      destruct (decide (claims id gs = 0%nat)) as [|Hne]; [lia|].
      apply (claims_exists _ _ _ Hs) in Hne as [? ?]. congruence.
  - intros id o' t Ho' Ht Hline. rewrite Hj in Ht.
    destruct (recharge_orders d !! id) as [o|] eqn:Ho.
    + destruct (He _ _ Ho) as (o2 & Ho2 & S & Hk). simplify_eq.
      rewrite (same_order_total _ _ S). destruct S as (E & -> & _). rewrite E in Hline. by eapply Hl.
    + destruct (Hnew _ _ Ho' Ho) as [_ Hf]. exfalso. eapply lines_zero; [by apply Hn|done|done].
  - intros no H. rewrite Hlines. auto.
Qed.

Lemma credited_same ph' p' d :
  (∀ id, claimed id ph' = true → claimed id ph = true) → safe ph' p' → agrees ph' d →
  credited_once gs d → credited_once (<[i := (ph', p')]> gs) d.
Proof using Hi.
  intros Hph Hp Ha [Hs Huq Hc Hl Hn]. split; [by eapply co_safe_insert|done| |done|done].
  intros id o Ho. specialize (Hc _ _ Ho).
  pose proof (claims_insert id _ _ _ (ph', p') Hi) as Hcl. cbn in Hcl.
  unfold Nat.b2n in Hcl. destruct (claimed id ph') eqn:E; [rewrite (Hph _ E) in Hcl|]; lia.
Qed.

Lemma credited_claim p' id o o1 o2 d :
  ph = Knows id o → recharge_orders d !! id = Some o1 → is_pending o1 = true →
  same_order o1 o2 → is_paid o2 = true → safe (Claimed id o) p' →
  agrees (Knows id o) d → credited_once gs d →
  credited_once (<[i := (Claimed id o, p')]> gs) (with_recharge_orders <[id := o2]> d).
Proof using Hi.
  intros -> Ho1 Hp S12 Hpd Hs' (o0 & Ho0 & S0) [Hs Huq Hc Hl Hn]. simplify_eq.
  set (d' := with_recharge_orders <[id := o2]> d).
  assert (orders_evolve d d') as He.
  { intros j x Hx. cbn. rewrite lookup_insert. case_decide; subst; simplify_eq; [|by eauto].
    exists o2. split_and!; [done|done|congruence]. }
  assert (is_paid o1 = false) as Hnp.
  { unfold is_pending in Hp. unfold is_paid. apply String.eqb_eq in Hp. by rewrite Hp. }
  split.
  - eapply co_safe_insert; [done|done|done|]. cbn. exists o2. rewrite lookup_insert_eq.
    split; [done|by eapply same_order_trans].
  - intros a b x y. cbn. rewrite !lookup_insert_Some.
    intros [[<- <-]|[? Hx]] [[<- <-]|[? Hy]] E; [done| | |by eapply Huq].
    + rewrite (proj1 S12) in E. by eapply Huq.
    + rewrite (proj1 S12) in E. by eapply Huq.
  - intros a x. pose proof (claims_insert a _ _ _ (Claimed id o, p') Hi) as Hcl.
    cbn in Hcl. unfold Nat.b2n in Hcl. cbn. rewrite lookup_insert_Some. intros [[<- <-]|[Hne Hx]].
    + specialize (Hc _ _ Ho1). rewrite Hnp in Hc. rewrite Hpd, (proj1 S12).
      change (lines (OutTradeNo o1) d') with (lines (OutTradeNo o1) d).
      rewrite N.eqb_refl in Hcl. lia.
    + specialize (Hc _ _ Hx). change (lines (OutTradeNo x) d') with (lines (OutTradeNo x) d).
      rewrite (proj2 (N.eqb_neq id a)) in Hcl by done. lia.
  - intros a x t. cbn. rewrite lookup_insert_Some. intros [[<- <-]|[Hne Hx]] Ht Hline; [|by eapply Hl].
    rewrite (same_order_total _ _ S12). rewrite (proj1 S12) in Hline.
    destruct S12 as (_ & -> & _). by eapply Hl.
  - intros no H. change (lines no d') with (lines no d). apply Hn.
    rewrite find_order_None in *. intros j x Hx. destruct (He _ _ Hx) as (x' & Hx' & S & _).
    rewrite <-(proj1 S). by eapply H.
Qed.

Lemma lines_credit no u a b no' m d us :
  lines no (log_txs [Build_CreditTx u 0 KindRecharge a b ("order:" +:+ no') m] (with_users (λ _, us) d)) =
  (lines no d + if bool_decide (no' = no) then 1 else 0)%nat.
Proof.
  unfold lines, log_txs, with_credit_transactions. cbn [credit_transactions with_users].
  rewrite filter_app, length_app. f_equal. case_bool_decide as E.
  - subst. rewrite filter_cons_True; [done|]. unfold order_line. by rewrite bool_decide_eq_true_2.
  - rewrite filter_cons_False; [done|]. unfold order_line. rewrite bool_decide_eq_false_2; [done|].
    cbn [TxRefID]. intros [_ H]. apply E. by injection H.
Qed.

Lemma credited_credit p' id o bal us m d :
  ph = Claimed id o → safe Free p' → agrees (Claimed id o) d → credited_once gs d →
  credited_once (<[i := (Free, p')]> gs)
    (log_txs [Build_CreditTx (OrdUserID o) 0 KindRecharge (TotalCredits o) bal
                ("order:" +:+ OutTradeNo o) m] (with_users (λ _, us) d)).
Proof using Hi.
  intros -> Hs' (o0 & Ho0 & S0) [Hs Huq Hc Hl Hn].
  set (d' := log_txs _ _). assert (recharge_orders d' = recharge_orders d) as Hord by done.
  assert (orders_evolve d d') as He by (intros j x Hx; rewrite Hord; eauto).
  assert (∀ a x, recharge_orders d !! a = Some x →
    lines (OutTradeNo x) d' = (lines (OutTradeNo x) d + if decide (a = id) then 1 else 0)%nat) as Hlines.
  { intros a x Hx. unfold d'. rewrite lines_credit. f_equal.
    destruct (decide (a = id)) as [->|Hne].
    - simplify_eq. rewrite bool_decide_eq_true_2; [done|]. symmetry. by apply S0.
    - rewrite bool_decide_eq_false_2; [done|]. intros E. apply Hne. apply (Huq a id x o0); [done..|].
      rewrite <-E. symmetry. apply S0. }
  split.
  - by eapply co_safe_insert.
  - intros a b x y. rewrite Hord. by eapply Huq.
  - intros a x. rewrite Hord. intros Hx. rewrite (Hlines _ _ Hx). specialize (Hc _ _ Hx).
    pose proof (claims_insert a _ _ _ (Free, p') Hi) as Hcl. cbn in Hcl. unfold Nat.b2n in Hcl.
    destruct (decide (a = id)) as [->|Hne].
    + rewrite N.eqb_refl in Hcl. lia.
    + rewrite (proj2 (N.eqb_neq id a)) in Hcl by done. lia.
  - intros a x t. rewrite Hord. intros Hx Ht Hline. unfold d' in Ht. cbn in Ht.
    apply elem_of_app in Ht as [Ht|Ht]; [by eapply Hl|].
    apply list_elem_of_singleton in Ht as ->. cbn.
    unfold order_line in Hline. apply bool_decide_eq_true in Hline as [_ E]. cbn in E.
    assert (OutTradeNo o = OutTradeNo x) as E' by (by injection E).
    assert (a = id) as ->. { apply (Huq a id x o0); [done..|]. rewrite <-E'. symmetry. apply S0. }
    simplify_eq. rewrite (same_order_total _ _ S0). split; [done|]. symmetry. apply S0.
  - intros no H. assert (find_order no d = None) as H'.
    { rewrite find_order_None in *. intros j x Hx. by eapply H. }
    unfold d'. rewrite lines_credit, Hn by done. rewrite bool_decide_eq_false_2; [done|].
    intros <-. eapply (proj1 (find_order_None _ _) H'); [exact Ho0|apply S0].
Qed.

End preserve.

Lemma credited_step gs i ph p ph' p' d d' :
  gs !! i = Some (ph, p) → safe ph' p' → effect ph ph' d d' → credited_once gs d →
  credited_once (<[i := (ph', p')]> gs) d'.
Proof.
  intros Hi Hs He H.
  assert (agrees ph d) as Ha.
  { pose proof (co_safe _ _ H) as Hall. rewrite Forall_lookup in Hall. by apply (Hall i (ph, p)). }
  destruct He.
  - by eapply credited_benign.
  - by eapply credited_same.
  - eapply credited_same; [done|done|done| |done]. cbn. eauto.
  - by eapply credited_claim.
  - by eapply credited_credit.
Qed.

(** ** The handlers *)

Section handlers.
Context (md5hex : string → string) (parse_url : string → result (string * values * string))
        (parse_exotic : list ascii → gofloat) (cfg : EPayConfig) (mail_on : bool).

(** The requests of users, of the gateway, of administrators and of the
    clean-up job, under whatever settings are in force when they arrive. *)
Inductive request : proc database unit → Prop :=
  | rq_create settings inp buf now today :
      request (forget (Create md5hex parse_url cfg settings inp buf now today))
  | rq_cancel userID orderID : request (forget (CancelByUser userID orderID))
  | rq_notify form now :
      request (forget (HandleNotify md5hex parse_exotic recharge cfg mail_on form now))
  | rq_force orderID actorID now : request (forget (AdminForcePaid recharge orderID actorID now))
  | rq_expire minutes now : request (forget (Call (ExpirePending minutes now) Done))
  | rq_create_package pkg : request (forget (Call (CreatePackage pkg) Done))
  | rq_update_package id pkg : request (forget (Call (UpdatePackage id pkg) Done))
  | rq_delete_package id : request (forget (Call (DeletePackage id) Done)).

Lemma exec_benign {A} (f : database → result (A * database)) :
  (∀ d a d', f d = Ok (a, d') → benign d d') → ∀ w, benign (w_db w) (w_db (exec f w).2).
Proof.
  intros H [d fs]. unfold exec, call. cbn.
  destruct fs as [|[] fs]; cbn; [| |]; try apply benign_refl;
    destruct (f d) as [[a d']|e] eqn:E; cbn; try apply benign_refl; by eapply H.
Qed.

Lemma benign_packages f d : benign d (with_recharge_packages f d).
Proof. destruct (benign_refl d) as []. by split. Qed.

Lemma CreateOrder_benign o w : is_paid o = false → benign (w_db w) (w_db (CreateOrder o w).2).
Proof.
  intros Ho. apply exec_benign. intros d a d'. unfold insert_order.
  destruct (find_order (OutTradeNo o) d) eqn:E; [done|]. intros [= _ <-]. by apply benign_create.
Qed.

Lemma ExpirePending_benign minutes now w : benign (w_db w) (w_db (ExpirePending minutes now w).2).
Proof.
  apply exec_benign. intros d a d'. unfold all_update. intros [= _ <-]. by apply benign_status.
Qed.

Lemma cancel_benign id w :
  benign (w_db w) (w_db (exec (id_update recharge_orders with_recharge_orders id
    (λ o, Ok (is_pending o)) (λ o, Ok (set_status StatusCancelled o))) w).2).
Proof.
  apply exec_benign. intros d a d'. unfold id_update.
  destruct (recharge_orders d !! id) as [o|] eqn:Ho; [|by intros [= _ <-]]. cbn.
  destruct (is_pending o) eqn:Hp; [|by intros [= _ <-]]. intros [= _ <-]. by apply benign_cancel.
Qed.

Lemma Create_safe settings inp buf now today :
  safe Free (forget (Create md5hex parse_url cfg settings inp buf now today)).
Proof.
  unfold Create. destruct (negb (Enabled cfg)); [constructor|].
  destruct (match settings with Some _ => _ | None => _ end); [constructor|]. cbn [forget call_or].
  apply safe_read; [intros; apply query_keeps|]. intros [pkg|e]; [|constructor].
  destruct (negb (PkgEnabled pkg)); [constructor|].
  destruct (check_amount settings (PkgPriceCNY pkg)); [constructor|].
  match goal with |- context [check_daily _ _ _ _ ?k] => assert (safe Free (forget k)) as Hk; [|set k] end.
  { destruct (BuildPayURL _ _ _ _ _ _ _ _ _ _) as [url|e]; [|constructor]. cbn [forget call_or].
    apply safe_benign; [intros w; by apply CreateOrder_benign|]. intros [id|e]; constructor. }
  unfold check_daily. destruct settings as [s|]; [|done]. destruct (0 <? rs_daily s); [|done].
  cbn [forget call_or]. apply safe_read; [intros; apply query_keeps|].
  intros [already|e]; [|constructor]. destruct (rs_daily s <? _); [constructor|done].
Qed.

Lemma Cancel_safe userID orderID : safe Free (forget (CancelByUser userID orderID)).
Proof.
  cbn [CancelByUser forget call_or]. apply safe_read; [intros; apply query_keeps|].
  intros [o|e]; [|constructor]. destruct (negb _); [constructor|].
  destruct (negb _); [constructor|]. cbn [forget call_or].
  apply safe_benign; [apply cancel_benign|]. intros [n|e]; constructor.
Qed.

Lemma paid_mail_safe {A} userID (k : option goerr → proc database A) :
  (∀ r, safe Free (forget (k r))) → safe Free (forget (pbind (paid_mail mail_on userID) k)).
Proof.
  intros Hk. unfold paid_mail. destruct mail_on; cbn [pbind forget]; [|done].
  apply safe_read; [intros; apply query_keeps|done].
Qed.

Lemma Notify_safe form now :
  safe Free (forget (HandleNotify md5hex parse_exotic recharge cfg mail_on form now)).
Proof.
  unfold HandleNotify. destruct (ParseNotify _ _ _) as [pl|e]; [|constructor]. cbn [forget call_or].
  apply safe_get_no; [constructor|]. intros id o _.
  destruct (String.eqb _ _); [constructor|]. destruct (negb _); [constructor|].
  destruct (verifyAmount _ _ _); [constructor|]. unfold settle. cbn [pbind forget call_or].
  apply safe_claim; [by intros|intros; constructor|]. intros n.
  destruct (n =? 0)%N; [constructor|]. cbn [pbind forget call_or].
  apply safe_credit. intros [u|e]; [|constructor]. apply paid_mail_safe. intros [e|]; constructor.
Qed.

Lemma Force_safe orderID actorID now : safe Free (forget (AdminForcePaid recharge orderID actorID now)).
Proof.
  cbn [AdminForcePaid forget call_or]. apply safe_get_id; [intros; constructor|]. intros o.
  destruct (negb _); [constructor|]. cbn [forget call_or].
  apply safe_claim; [by intros|intros; constructor|]. intros n.
  destruct (n =? 0)%N; [constructor|]. cbn [forget call_or].
  apply safe_credit. intros [u|e]; constructor.
Qed.

Lemma request_safe p : request p → safe Free p.
Proof.
  destruct 1; [apply Create_safe|apply Cancel_safe|apply Notify_safe|apply Force_safe|..];
    cbn [forget]; (apply safe_benign; [|intros; constructor]).
  - apply ExpirePending_benign.
  - apply exec_benign. intros d a d' [= _ <-]. apply benign_packages.
  - apply exec_benign. intros d a d'. unfold id_update. destruct (recharge_packages d !! id); cbn;
      intros [= _ <-]; [apply benign_packages|done].
  - apply exec_benign. intros d a d' [= _ <-]. apply benign_packages.
Qed.

(** An order book nobody is working on. *)
Definition books_ok (d : database) : Prop := credited_once [] d.

Lemma reach_credited s s' :
  rtc (pool_step request) s s' → s.1 = [] → books_ok (w_db s.2) →
  ∃ gs, s'.1 = snd <$> gs ∧ credited_once gs (w_db s'.2).
Proof.
  intros Hr Hs Hb. eapply (pool_invariant request snd credited_once); [| | |exact Hr|].
  - intros gs d p Hp [H1 H2 H3 H4 H5]. exists (Free, p). split; [done|]. split; [|done| |done|done].
    + apply Forall_app. split; [done|]. repeat constructor. by apply request_safe.
    + intros id o Ho. rewrite claims_app. cbn [fst claimed].
      unfold Nat.b2n. specialize (H3 _ _ Ho). lia.
  - intros gs d i [H1 H2 H3 H4 H5]. split; [by apply Forall_delete|done| |done|done].
    intros id o Ho. specialize (H3 _ _ Ho). pose proof (claims_delete id gs i). lia.
  - intros gs i [ph p] w p' w' Hi Hn HI.
    pose proof (co_safe _ _ HI) as Hall. rewrite Forall_lookup in Hall.
    destruct (Hall i _ Hi) as [Hsf Ha].
    destruct (safe_next _ _ _ _ _ Hsf Hn Ha) as (ph' & Hs' & He).
    exists (ph', p'). split; [done|]. by eapply credited_step.
  - exists []. split; [by rewrite Hs|done].
Qed.

(** C2: however the requests interleave call by call, whichever of them the
    server loses in the middle and whatever database calls fail, an order is
    credited at most once, only if it is paid, with its credits and bonus, to
    its owner. *)
Theorem order_credited_at_most_once d fs ts w id o :
  books_ok d → rtc (pool_step request) ([], World d fs) (ts, w) →
  recharge_orders (w_db w) !! id = Some o →
  (lines (OutTradeNo o) (w_db w) ≤ if is_paid o then 1 else 0)%nat ∧
  (∀ t, t ∈ credit_transactions (w_db w) → order_line (OutTradeNo o) t = true →
     TxAmount t = TotalCredits o ∧ TxUserID t = OrdUserID o).
Proof.
  intros Hb Hr Ho. destruct (reach_credited _ _ Hr eq_refl Hb) as (gs & _ & H). cbn in H.
  pose proof (co_count _ _ H _ _ Ho). split; [lia|]. intros t. by apply (co_lines _ _ H id).
Qed.

Lemma effect_evolve ph ph' d d' : effect ph ph' d d' → agrees ph d → orders_evolve d d'.
Proof.
  destruct 1; intros Ha; try done.
  - by apply bn_evolve.
  - intros j x Hx. cbn. rewrite lookup_insert. case_decide; subst; simplify_eq; [|by eauto].
    exists o2. split_and!; [done|done|congruence].
  - intros j x Hx. cbn. eauto.
Qed.

(** Under the same interleavings an order is never lost, keeps its
    number, owner, price, credits and bonus, and once it has left the pending
    state (paid, expired, cancelled) it never changes again. *)
Theorem order_status_final d fs ts w ts' w' :
  books_ok d → rtc (pool_step request) ([], World d fs) (ts, w) →
  rtc (pool_step request) (ts, w) (ts', w') →
  ∀ id o, recharge_orders (w_db w) !! id = Some o →
  ∃ o', recharge_orders (w_db w') !! id = Some o' ∧ same_order o o' ∧ (is_pending o = false → o' = o).
Proof.
  intros Hb Hr Hr'. destruct (reach_credited _ _ Hr eq_refl Hb) as (gs & Hts & H). cbn in Hts, H.
  enough (∃ gs, ts' = snd <$> gs ∧
    (Forall (λ g, safe g.1 g.2 ∧ agrees g.1 (w_db w')) gs ∧ orders_evolve (w_db w) (w_db w')))
    as (_ & _ & _ & He) by exact He.
  apply (pool_invariant request snd (λ gs d', Forall (λ g, safe g.1 g.2 ∧ agrees g.1 d') gs ∧
    orders_evolve (w_db w) d')) with (s := (ts, w)) (s' := (ts', w')); [| | |exact Hr'|].
  - intros gs' d' p Hp [H1 H2]. exists (Free, p). split; [done|]. split; [|done].
    apply Forall_app. split; [done|]. repeat constructor. by apply request_safe.
  - intros gs' d' i [H1 H2]. split; [by apply Forall_delete|done].
  - intros gs' i [ph p] w1 p' w1' Hi Hn [H1 H2].
    pose proof H1 as Hall. rewrite Forall_lookup in Hall. destruct (Hall i _ Hi) as [Hsf Ha].
    destruct (safe_next _ _ _ _ _ Hsf Hn Ha) as (ph' & Hs' & He).
    pose proof (effect_evolve _ _ _ _ He Ha) as Hev.
    exists (ph', p'). split; [done|]. split; [|by etrans]. eapply co_safe_insert; [done|done|done|].
    destruct He; cbn in *; try done; eauto.
    destruct Ha as (o' & Ho' & S'). simplify_eq. exists o2. rewrite lookup_insert_eq.
    split; [done|by eapply same_order_trans].
  - exists gs. split; [done|]. split; [apply (co_safe _ _ H)|done].
Qed.
End handlers.

(** ** One notification *)

Section notification.
Context (md5hex : string → string) (parse_exotic : list ascii → gofloat)
        (cfg : EPayConfig) (mail_on : bool).

#[local] Arguments String.append : simpl never.

Lemma verifyAmount_yuan c want :
  0 ≤ c ≤ 2 ^ 48 →
  verifyAmount parse_exotic (format_fixed2 (fdiv (of_int c) 100)) want = None ↔ want = c.
Proof.
  intros Hc. unfold verifyAmount. rewrite scan_float_yuan, cents_of_yuan by done.
  destruct (Z.eqb_spec c want); cbn; [done|]. split; [done|congruence].
Qed.

Lemma find_order_unique d id o :
  orders_unique d → recharge_orders d !! id = Some o → find_order (OutTradeNo o) d = Some (id, o).
Proof.
  intros Hu Ho. destruct (find_order (OutTradeNo o) d) as [[j o']|] eqn:E.
  - apply find_order_Some in E as [Hj Hno]. assert (j = id) as -> by by eapply Hu. by simplify_eq.
  - exfalso. by eapply (proj1 (find_order_None _ _) E).
Qed.

Lemma prun_mail {A} u (k : option goerr → proc database A) d :
  prun (pbind (paid_mail mail_on u) k) d = prun (k None) d.
Proof.
  unfold paid_mail. destruct mail_on; cbn [pbind]; [|done].
  by rewrite (prun_Call (query _) _), run_query.
Qed.

Lemma run_claim_paid id upd d o :
  recharge_orders d !! id = Some o → is_pending o = true →
  run (claim_paid id upd) d = (Ok 1%N, with_recharge_orders <[id := upd o]> d).
Proof. intros Ho Hp. unfold claim_paid. rewrite run_exec. unfold id_update. rewrite Ho. cbn. by rewrite Hp. Qed.

(** What a notification finds when it is let through to the order. *)
Lemma prun_HandleNotify form now d pl :
  ParseNotify md5hex (signer cfg) form = Ok pl →
  prun (HandleNotify md5hex parse_exotic recharge cfg mail_on form now) d =
  match find_order (PlOutTradeNo pl) d with
  | None => (("fail", Some ErrNotFound), d)
  | Some (id, o) =>
      if is_paid o then (("success", None), d)
      else if negb (String.eqb (TradeStatus pl) "TRADE_SUCCESS") then (("success", None), d)
      else match verifyAmount parse_exotic (PlMoney pl) (PriceCNY o) with
           | Some e => (("fail", Some e), d)
           | None =>
               if is_pending o then
                 match run (recharge_of recharge o ("充值:" +:+ Remark o))
                         (with_recharge_orders <[id := mark_paid pl now o]> d) with
                 | (Ok _, d') => (("success", None), d')
                 | (Err e, d') => (("fail", Some e), d')
                 end
               else (("success", None), d)
           end
  end.
Proof.
  intros Hpl. unfold HandleNotify. rewrite Hpl. unfold call_or at 1.
  rewrite (prun_Call (GetByOutTradeNo _) _). unfold GetByOutTradeNo. rewrite run_query. cbn [fst snd].
  destruct (find_order (PlOutTradeNo pl) d) as [[id o]|] eqn:E; [|done].
  apply find_order_Some in E as [Ho _]. unfold is_paid.
  destruct (String.eqb (OrdStatus o) StatusPaid); [done|]. destruct (negb _); [done|].
  destruct (verifyAmount _ _ _); [done|]. unfold settle. cbn [pbind call_or].
  rewrite (prun_Call (claim_paid _ _) _). destruct (is_pending o) eqn:Hp.
  - rewrite (run_claim_paid _ _ _ o) by done. cbn [fst snd N.eqb]. change (1 =? 0)%N with false. cbn [pbind call_or].
    unfold recharge_of at 1. rewrite (prun_Call (recharge _ _ _ _) _). fold (recharge_of recharge o ("充值:" +:+ Remark o)).
    destruct (run (recharge_of recharge o _) _) as [[u|e] d']; cbn [fst snd]; [|done].
    by rewrite prun_mail.
  - unfold claim_paid. rewrite run_exec. unfold id_update. rewrite Ho. cbn. by rewrite Hp.
Qed.

(** A signed notification of a successful payment of the right amount
    for a pending order marks it paid and credits its credits and bonus to
    its owner, once: the gateway's redeliveries are answered "success" and
    change nothing. *)
Theorem notify_pays_once form now now' d pl id o w :
  ParseNotify md5hex (signer cfg) form = Ok pl →
  TradeStatus pl = "TRADE_SUCCESS" →
  orders_unique d → recharge_orders d !! id = Some o → OutTradeNo o = PlOutTradeNo pl →
  is_pending o = true → verifyAmount parse_exotic (PlMoney pl) (PriceCNY o) = None →
  0 < TotalCredits o → users d !! OrdUserID o = Some w → live w = true →
  in_i64 (CreditBalance w + TotalCredits o) →
  let bal := CreditBalance w + TotalCredits o in
  let d' := log_txs [Build_CreditTx (OrdUserID o) 0 KindRecharge (TotalCredits o) bal
                       ("order:" +:+ OutTradeNo o) ("充值:" +:+ Remark o)]
              (with_users <[OrdUserID o := set_wallet bal (CreditFrozen w) w]>
                (with_recharge_orders <[id := mark_paid pl now o]> d)) in
  prun (HandleNotify md5hex parse_exotic recharge cfg mail_on form now) d = (("success", None), d') ∧
  prun (HandleNotify md5hex parse_exotic recharge cfg mail_on form now') d' = (("success", None), d').
Proof.
  intros Hpl Hts Hu Ho Hno Hp Hv Ha Hw Hl Hb bal d'.
  assert (is_paid o = false) as Hnp.
  { unfold is_pending in Hp. unfold is_paid. apply String.eqb_eq in Hp. by rewrite Hp. }
  rewrite !(prun_HandleNotify _ _ _ pl) by done. split.
  - rewrite <-Hno, (find_order_unique d id o) by done. rewrite Hnp, Hts, Hv, Hp. cbn [negb String.eqb].
    change (negb (String.eqb "TRADE_SUCCESS" "TRADE_SUCCESS")) with false.
    unfold recharge_of. by rewrite (recharge_live _ _ _ _ _ w).
  - assert (find_order (PlOutTradeNo pl) d' = Some (id, mark_paid pl now o)) as ->; [|done].
    rewrite <-Hno. apply (find_order_unique d' id (mark_paid pl now o)).
    + intros i j x y. cbn. rewrite !lookup_insert_Some.
      intros [[<- <-]|[? Hx]] [[<- <-]|[? Hy]]; cbn; [done| | |]; intros; by eapply Hu.
    + cbn. apply lookup_insert_eq.
Qed.

(** A payment that arrives after its order expired or was cancelled is
    acknowledged to the gateway with "success" and credited to nobody. *)
Theorem late_payment_dropped form now d pl id o :
  ParseNotify md5hex (signer cfg) form = Ok pl →
  orders_unique d → recharge_orders d !! id = Some o → OutTradeNo o = PlOutTradeNo pl →
  OrdStatus o ∈ [StatusExpired; StatusCancelled; StatusFailed] →
  verifyAmount parse_exotic (PlMoney pl) (PriceCNY o) = None →
  prun (HandleNotify md5hex parse_exotic recharge cfg mail_on form now) d = (("success", None), d).
Proof.
  intros Hpl Hu Ho Hno Hst Hv. rewrite (prun_HandleNotify _ _ _ pl) by done.
  rewrite <-Hno, (find_order_unique d id o), Hv by done.
  assert (is_paid o = false ∧ is_pending o = false) as [-> ->].
  { unfold is_paid, is_pending. rewrite !elem_of_cons in Hst. by destruct Hst as [->|[->|[->|[]%not_elem_of_nil]]]. }
  by destruct (negb _).
Qed.
End notification.
End requests.

(** ** With the billing engine *)

Section engine.
Context (md5hex : string → string) (parse_url : string → result (string * values * string))
        (parse_exotic : list ascii → gofloat) (cfg : EPayConfig) (mail_on : bool).

(** C39: paying an order and crediting it are two transactions: when the
    connection fails between them the order is paid, the user has nothing, and
    every redelivery of the notification is answered "success" without
    crediting, so the gateway stops retrying. *)
Theorem credit_lost form now now' d pl id o :
  ParseNotify md5hex (signer cfg) form = Ok pl →
  TradeStatus pl = "TRADE_SUCCESS" →
  orders_unique d → recharge_orders d !! id = Some o → OutTradeNo o = PlOutTradeNo pl →
  is_pending o = true → verifyAmount parse_exotic (PlMoney pl) (PriceCNY o) = None →
  0 < TotalCredits o →
  let d1 := with_recharge_orders <[id := mark_paid pl now o]> d in
  exec_proc (HandleNotify md5hex parse_exotic EngineRecharge cfg mail_on form now)
    (World d [false; false; true]) = (("fail", Some EDriver), World d1 []) ∧
  users d1 = users d ∧ credit_transactions d1 = credit_transactions d ∧
  prun (HandleNotify md5hex parse_exotic EngineRecharge cfg mail_on form now') d1 = (("success", None), d1).
Proof.
  intros Hpl Hts Hu Ho Hno Hp Hv Ha d1.
  assert (OrdStatus o ≠ StatusPaid) as Hnp.
  { unfold is_pending in Hp. apply String.eqb_eq in Hp. rewrite Hp. done. }
  split_and!; [|done|done|].
  - unfold HandleNotify. rewrite Hpl. cbn [exec_proc call_or]. unfold GetByOutTradeNo, query at 1, call at 1.
    cbn [w_faults w_db]. rewrite <-Hno, (find_order_unique d id o) by done.
    destruct (String.eqb_spec (OrdStatus o) StatusPaid); [done|]. rewrite Hts, Hv. cbn [negb].
    change (negb (String.eqb "TRADE_SUCCESS" "TRADE_SUCCESS")) with false. cbn match.
    unfold settle. cbn [pbind call_or exec_proc]. unfold claim_paid, exec, call at 1, id_update.
    cbn [w_faults w_db]. rewrite Ho. cbn [rbind]. rewrite Hp. cbn [rbind pbind call_or exec_proc].
    change (1 =? 0)%N with false. cbn [pbind call_or exec_proc].
    unfold recharge_of, EngineRecharge. destruct (Z.leb_spec (TotalCredits o) 0); [lia|].
    unfold runTx, call at 1. cbn. done.
  - rewrite (prun_HandleNotify EngineRecharge md5hex parse_exotic cfg mail_on form now' d1 pl) by done.
    assert (find_order (PlOutTradeNo pl) d1 = Some (id, mark_paid pl now o)) as ->; [|done].
    rewrite <-Hno. apply (find_order_unique d1 id (mark_paid pl now o)).
    + intros i j x y. cbn. rewrite !lookup_insert_Some.
      intros [[<- <-]|[? Hx]] [[<- <-]|[? Hy]]; cbn; [done| | |]; intros; by eapply Hu.
    + cbn. apply lookup_insert_eq.
Qed.

(** What [Create] returned. *)
Lemma check_amount_None st price :
  check_amount st price = None →
  match st with
  | None => True
  | Some s => (0 < rs_min s → rs_min s ≤ price) ∧ (0 < rs_max s → price ≤ rs_max s)
  end.
Proof.
  unfold check_amount. destruct st as [s|]; [|done].
  destruct (Z.ltb_spec 0 (rs_min s)), (Z.ltb_spec price (rs_min s)),
    (Z.ltb_spec 0 (rs_max s)), (Z.ltb_spec (rs_max s) price); cbn; intros; try done; lia.
Qed.

Lemma prun_check_daily st u today price k d r d' :
  prun (check_daily st u today price k) d = (Ok r, d') →
  prun k d = (Ok r, d') ∧
  match st with
  | None => True
  | Some s => 0 < rs_daily s → ∃ already, run (SumPaidTodayCNY u today) d = (Ok already, d) ∧
      wrap64 (already + price) ≤ rs_daily s
  end.
Proof.
  unfold check_daily. destruct st as [s|]; [|done].
  destruct (Z.ltb_spec 0 (rs_daily s)); [|intros H1; split; [done|lia]].
  unfold call_or. rewrite (prun_Call (SumPaidTodayCNY _ _) _). unfold SumPaidTodayCNY. rewrite run_query.
  cbn [fst snd]. destruct (bigint _) as [a|e]; [|done].
  destruct (Z.ltb_spec (rs_daily s) (wrap64 (a + price))); [done|]. intros H1. eauto.
Qed.

(** An order is only created when payments are configured and enabled,
    for an enabled package whose price is within the limits and, with what the
    user has paid today, within the daily limit; it is then a new pending
    order with the package's price, credits and bonus and a fresh number,
    and nothing else changes. *)
Theorem Create_spec st inp buf now today d id o d' :
  prun (Create md5hex parse_url cfg st inp buf now today) d = (Ok (id, o), d') →
  Enabled cfg = true ∧
  (∃ pkg, recharge_packages d !! CiPackageID inp = Some pkg ∧ PkgEnabled pkg = true ∧
     PriceCNY o = PkgPriceCNY pkg ∧ Credits o = PkgCredits pkg ∧ Bonus o = PkgBonus pkg) ∧
  match st with
  | None => True
  | Some s =>
      rs_enabled s = true ∧ (0 < rs_min s → rs_min s ≤ PriceCNY o) ∧ (0 < rs_max s → PriceCNY o ≤ rs_max s) ∧
      (0 < rs_daily s → ∃ already, run (SumPaidTodayCNY (CiUserID inp) today) d = (Ok already, d) ∧
         wrap64 (already + PriceCNY o) ≤ rs_daily s)
  end ∧
  OrdUserID o = CiUserID inp ∧ OutTradeNo o = genTradeNo buf ∧ is_pending o = true ∧
  find_order (OutTradeNo o) d = None ∧ recharge_orders d !! id = None ∧
  d' = with_recharge_orders <[id := o]> d.
Proof.
  unfold Create. destruct (Enabled cfg); [|done]. cbn [negb].
  destruct (match st with Some s => negb (rs_enabled s) | None => false end) eqn:Hen; [done|].
  unfold call_or at 1. rewrite (prun_Call (GetPackage _) _). unfold GetPackage. rewrite run_query. cbn [fst snd].
  destruct (recharge_packages d !! CiPackageID inp) as [pkg|]; [|done].
  destruct (PkgEnabled pkg) eqn:Hpe; [|done]. cbn [negb].
  destruct (check_amount st (PkgPriceCNY pkg)) eqn:Hca; [done|]. apply check_amount_None in Hca.
  intros [H Hd]%prun_check_daily. revert H.
  destruct (BuildPayURL _ _ _ _ _ _ _ _ _ _) as [url|e]; [|done].
  unfold call_or. rewrite (prun_Call (CreateOrder _) _). unfold CreateOrder. rewrite run_exec.
  unfold insert_order. cbn [OutTradeNo].
  destruct (find_order (genTradeNo buf) d) eqn:Hf; [done|]. cbn [fst snd]. intros [= <- <- <-].
  split; [done|]. split; [by exists pkg|]. split.
  { destruct st as [s|]; [|done]. apply negb_false_iff in Hen. destruct Hca as [Hmin Hmax].
    split; [done|]. split; [exact Hmin|]. split; [exact Hmax|exact Hd]. }
  do 3 (split; [done|]). split; [done|]. split; [apply auto_id_fresh|done].
Qed.

(** The amount a payment link asks for is accepted for its own price and
    for no other, for every price below 2^48 fen. *)
Theorem pay_amount_roundtrip s no name c nu ru want :
  0 ≤ c ≤ 2 ^ 48 →
  verifyAmount parse_exotic (get (pay_params md5hex s no name c nu ru ∅) "money") want = None ↔ want = c.
Proof.
  intros Hc. rewrite <-(verifyAmount_yuan parse_exotic c want Hc).
  assert (get (pay_params md5hex s no name c nu ru ∅) "money" = format_fixed2 (fdiv (of_int c) 100)) as ->; [|done].
  unfold pay_params, get, add_extra, signed. rewrite lookup_insert_ne by done.
  rewrite map_filter_empty, (left_id_L ∅ (∪)). cbn [list_to_map foldr].
  rewrite !lookup_insert_ne by done. by rewrite lookup_insert_eq.
Qed.
End engine.

(** ** Witnesses *)

Definition sample_cfg : EPayConfig := {|
  GatewayURL := "https://pay.example/submit.php"; CfgPID := "1001"; CfgKey := "s3cret"; CfgSignType := "";
  NotifyURL := "https://shop.example/notify"; ReturnURL := "https://shop.example/back" |}.
Definition sample_parse_url (u : string) : result (string * values * string) := Ok (u, ∅, "").
Definition no_exotic (_ : list ascii) : gofloat := NaN.

Definition sample_package : Package := {|
  PkgName := "starter"; PkgPriceCNY := 1200; PkgCredits := 120000; PkgBonus := 500;
  PkgDescription := ""; PkgSort := 0; PkgEnabled := true |}.
Definition sample_order (st : string) : Order := {|
  OutTradeNo := "ab12"; OrdUserID := 7; PackageID := 1; PriceCNY := 1200; Credits := 120000;
  Bonus := 500; Channel := ChannelEPay; PayMethod := ""; OrdStatus := st; TradeNo := "";
  PaidAt := None; PayURL := "u"; ClientIP := ""; NotifyRaw := None; Remark := "starter";
  OrdCreatedAt := 0 |}.
Definition order_db (st : string) : database :=
  with_recharge_packages (λ _, {[ 1%N := sample_package ]})
    (with_recharge_orders (λ _, {[ 3%N := sample_order st ]}) (sample_db 10 0)).
Definition sample_payload : NotifyPayload :=
  match ParseNotify sample_digest (signer sample_cfg) (values_of signed_notify) with
  | Ok pl => pl
  | Err _ => Build_NotifyPayload "" "" "" "" "" "" ∅
  end.
Abbreviation sample_notification now :=
  (HandleNotify sample_digest no_exotic EngineRecharge sample_cfg true (values_of signed_notify) now).

Lemma order_db_unique st : orders_unique (order_db st).
Proof.
  intros i j o o'. cbn. intros [<- _]%lookup_singleton_Some [<- _]%lookup_singleton_Some. done.
Qed.

Lemma order_db_books : books_ok EngineRecharge (order_db StatusPending).
Proof.
  split; [done|apply order_db_unique| |by intros id o t _ ?%elem_of_nil|done].
  intros id o. cbn. intros [<- <-]%lookup_singleton_Some. by vm_compute.
Qed.

Abbreviation sample_request := (request EngineRecharge sample_digest sample_parse_url no_exotic sample_cfg true).
(** The state after [n] calls of a notification. *)
Definition after_calls (n : nat) : list (proc database unit) * world database :=
  let s := advance n (forget (sample_notification 9)) (World (order_db StatusPending) []) in ([s.1], s.2).

Lemma after_calls_reachable n :
  rtc (pool_step sample_request) ([], World (order_db StatusPending) [])
    ((after_calls n).1, (after_calls n).2).
Proof.
  eapply rtc_l; [apply step_arrive, rq_notify|]. apply (pool_advance _ n).
Qed.

Lemma after_calls_more n m :
  rtc (pool_step sample_request) ((after_calls n).1, (after_calls n).2)
    ((after_calls (n + m)).1, (after_calls (n + m)).2).
Proof. unfold after_calls. rewrite advance_add. cbn. apply pool_advance. Qed.

Definition order_after (n : nat) : Order :=
  default (sample_order "") (recharge_orders (w_db (after_calls n).2) !! 3%N).

Lemma order_credited_at_most_once_witness :
  (lines (OutTradeNo (order_after 3)) (w_db (after_calls 3).2) ≤ 1)%nat ∧
  is_paid (order_after 3) = true.
Proof.
  destruct (order_credited_at_most_once EngineRecharge sample_digest sample_parse_url no_exotic
    sample_cfg true (order_db StatusPending) [] (after_calls 3).1 (after_calls 3).2 3 (order_after 3))
    as [H _]; [apply order_db_books|apply after_calls_reachable|by vm_compute|].
  split; [exact H|by vm_compute].
Defined.

Lemma order_status_final_witness :
  ∃ o', recharge_orders (w_db (after_calls 4).2) !! 3%N = Some o' ∧ same_order (order_after 2) o' ∧
    (is_pending (order_after 2) = false → o' = order_after 2).
Proof.
  apply (order_status_final EngineRecharge sample_digest sample_parse_url no_exotic
    sample_cfg true (order_db StatusPending) [] (after_calls 2).1 (after_calls 2).2
    (after_calls 4).1 (after_calls 4).2 order_db_books (after_calls_reachable 2)
    (after_calls_more 2 2)); by vm_compute.
Defined.

Lemma notify_pays_once_witness :
  ∃ d', prun (sample_notification 9) (order_db StatusPending) = (("success", None), d') ∧
        prun (sample_notification 10) d' = (("success", None), d').
Proof.
  eexists. apply (notify_pays_once EngineRecharge sample_digest no_exotic sample_cfg true
    (values_of signed_notify) 9 10 (order_db StatusPending) sample_payload 3 (sample_order StatusPending)
    (sample_user 10 0)); try (by vm_compute). apply order_db_unique.
Defined.

Lemma late_payment_dropped_witness :
  prun (sample_notification 9) (order_db StatusExpired) = (("success", None), order_db StatusExpired).
Proof.
  apply (late_payment_dropped EngineRecharge sample_digest no_exotic sample_cfg true
    (values_of signed_notify) 9 (order_db StatusExpired) sample_payload 3 (sample_order StatusExpired));
    try (by vm_compute); [apply order_db_unique|by left].
Defined.

Lemma credit_lost_witness :
  let d1 := with_recharge_orders <[3%N := mark_paid sample_payload 9 (sample_order StatusPending)]>
              (order_db StatusPending) in
  exec_proc (sample_notification 9) (World (order_db StatusPending) [false; false; true]) =
    (("fail", Some EDriver), World d1 []) ∧
  users d1 = users (order_db StatusPending) ∧
  credit_transactions d1 = credit_transactions (order_db StatusPending) ∧
  prun (sample_notification 10) d1 = (("success", None), d1).
Proof.
  apply (credit_lost sample_digest no_exotic sample_cfg true (values_of signed_notify) 9 10
    (order_db StatusPending) sample_payload 3 (sample_order StatusPending));
    [by vm_compute|by vm_compute|apply order_db_unique|by vm_compute..].
Defined.

Definition sample_input : CreateInput := {|
  CiUserID := 7; CiPackageID := 1; PayType := "alipay"; CiClientIP := "10.0.0.1" |}.
Definition sample_settings : RechargeSettings := {|
  rs_enabled := true; rs_min := 100; rs_max := 5000; rs_daily := 3000 |}.
Definition sample_create : result (N * Order) * database :=
  prun (Create sample_digest sample_parse_url sample_cfg (Some sample_settings) sample_input
          (repeat "a"%char 16) 0 0) (order_db StatusPending).

Lemma Create_spec_witness :
  match sample_create with
  | (Ok (id, o), d') => is_pending o = true ∧ OutTradeNo o = genTradeNo (repeat "a"%char 16) ∧
      PriceCNY o ≤ 5000 ∧ d' = with_recharge_orders <[id := o]> (order_db StatusPending)
  | _ => False
  end.
Proof.
  destruct sample_create as [[[id o]|e] d'] eqn:E; [|by vm_compute in E].
  destruct (Create_spec sample_digest sample_parse_url sample_cfg (Some sample_settings) sample_input
    (repeat "a"%char 16) 0 0 (order_db StatusPending) id o d' E)
    as (_ & _ & (_ & _ & Hmax & _) & _ & Hno & Hp & _ & _ & Hd).
  split_and!; [done|done|by apply Hmax|done].
Defined.

Lemma pay_amount_roundtrip_witness :
  verifyAmount no_exotic
    (get (pay_params sample_digest sample_signer "ab12" "starter" 1200 "" "" ∅) "money") 1200 = None.
Proof. by apply (pay_amount_roundtrip sample_digest no_exotic sample_signer "ab12" "starter" 1200). Defined.
