(* ===== verification/ApiKey.v ===== *)
(** * API keys (internal/apikey)

    Issuing keys, checking them on every gateway call, their quotas and
    allow-lists.  SHA-256 and encoding/json are parameters; the random bytes
    and the clock are arguments. *)

From S2P Require Import Prelude GoStrings GoTime Sql Schema.

Definition ErrNotFound : goerr := Sentinel "apikey: not found".
Definition ErrKeyCountLimit : goerr := Sentinel "apikey: per-user key count limit reached".
Definition InternalKeyName : string := "__playground__".

(** ** DAO (dao.go) *)

Definition key_live (k : APIKey) : bool := bool_decide (KeyDeletedAt k = None).

(** [INSERT INTO api_keys ..], with the UNIQUE key on the hash; the columns it
    does not name take their defaults. *)
Definition new_row (k : APIKey) : APIKey := {|
  KeyUserID := KeyUserID k; KeyName := KeyName k; KeyPrefix := KeyPrefix k; KeyHash := KeyHash k;
  QuotaLimit := QuotaLimit k; QuotaUsed := 0; AllowedModels := AllowedModels k;
  AllowedIPs := AllowedIPs k; KeyRPM := KeyRPM k; KeyTPM := KeyTPM k; KeyExpiresAt := KeyExpiresAt k;
  KeyEnabled := KeyEnabled k; KeyLastUsedAt := None; KeyLastUsedIP := ""; KeyDeletedAt := None |}.

Definition insert_key (k : APIKey) (d : database) : result (N * database) :=
  match head (rows_where api_keys (λ _ r, String.eqb (KeyHash r) (KeyHash k)) d) with
  | Some _ => Err (EMySQL 1062)
  | None => let id := auto_id (api_keys d) in Ok (id, with_api_keys <[id := new_row k]> d)
  end.
Definition DAOCreate (k : APIKey) : DBM N := exec (insert_key k).

Definition GetByID (id : N) : DBM APIKey :=
  query (λ d, match api_keys d !! id with
              | Some k => if key_live k then Ok k else Err ErrNotFound
              | None => Err ErrNotFound
              end).

Definition usable (hash : string) (_ : N) (k : APIKey) : bool :=
  String.eqb (KeyHash k) hash && KeyEnabled k && key_live k.
Definition GetByHash (hash : string) : DBM (N * APIKey) :=
  query (λ d, match head (rows_where api_keys (usable hash) d) with
              | Some p => Ok p
              | None => Err ErrNotFound
              end).

(** The keys of a user that his list shows and his limit counts. *)
Definition counted (userID : N) (_ : N) (k : APIKey) : bool :=
  (KeyUserID k =? userID)%N && key_live k && negb (String.eqb (KeyName k) InternalKeyName).
Definition count_keys (userID : N) (d : database) : Z :=
  Z.of_nat (length (rows_where api_keys (counted userID) d)).

Definition ListByUser (userID : N) (offset limit : Z) : DBM (list (N * APIKey) * Z) :=
  total <- query (λ d, Ok (count_keys userID d)) ;;
  rows <- query (λ d, Ok (page offset limit (rev (rows_where api_keys (counted userID) d)))) ;;
  ret (rows, total).

Definition CountActiveByUser (userID : N) : DBM Z := query (λ d, Ok (count_keys userID d)).

Definition GetByUserAndName (userID : N) (name : string) : DBM (N * APIKey) :=
  query (λ d, match last (rows_where api_keys (λ _ k, (KeyUserID k =? userID)%N &&
                                   String.eqb (KeyName k) name && key_live k) d) with
              | Some p => Ok p
              | None => Err ErrNotFound
              end).

(** [SET name=?, quota_limit=?, ..] of the row [k] describes. *)
Definition set_key (k r : APIKey) : APIKey := {|
  KeyUserID := KeyUserID r; KeyName := KeyName k; KeyPrefix := KeyPrefix r; KeyHash := KeyHash r;
  QuotaLimit := QuotaLimit k; QuotaUsed := QuotaUsed r; AllowedModels := AllowedModels k;
  AllowedIPs := AllowedIPs k; KeyRPM := KeyRPM k; KeyTPM := KeyTPM k; KeyExpiresAt := KeyExpiresAt k;
  KeyEnabled := KeyEnabled k; KeyLastUsedAt := KeyLastUsedAt r; KeyLastUsedIP := KeyLastUsedIP r;
  KeyDeletedAt := KeyDeletedAt r |}.
Definition DAOUpdate (id : N) (k : APIKey) : DBM N :=
  exec (id_update api_keys with_api_keys id
    (λ r, Ok ((KeyUserID r =? KeyUserID k)%N && key_live r)) (λ r, Ok (set_key k r))).

Definition set_deleted (now : Z) (r : APIKey) : APIKey := {|
  KeyUserID := KeyUserID r; KeyName := KeyName r; KeyPrefix := KeyPrefix r; KeyHash := KeyHash r;
  QuotaLimit := QuotaLimit r; QuotaUsed := QuotaUsed r; AllowedModels := AllowedModels r;
  AllowedIPs := AllowedIPs r; KeyRPM := KeyRPM r; KeyTPM := KeyTPM r; KeyExpiresAt := KeyExpiresAt r;
  KeyEnabled := KeyEnabled r; KeyLastUsedAt := KeyLastUsedAt r; KeyLastUsedIP := KeyLastUsedIP r;
  KeyDeletedAt := Some now |}.
Definition SoftDelete (userID id : N) (now : Z) : DBM N :=
  exec (id_update api_keys with_api_keys id (λ r, Ok (KeyUserID r =? userID)%N)
    (λ r, Ok (set_deleted now r))).

Definition touch (now : Z) (ip : string) (used : Z) (r : APIKey) : APIKey := {|
  KeyUserID := KeyUserID r; KeyName := KeyName r; KeyPrefix := KeyPrefix r; KeyHash := KeyHash r;
  QuotaLimit := QuotaLimit r; QuotaUsed := used; AllowedModels := AllowedModels r;
  AllowedIPs := AllowedIPs r; KeyRPM := KeyRPM r; KeyTPM := KeyTPM r; KeyExpiresAt := KeyExpiresAt r;
  KeyEnabled := KeyEnabled r; KeyLastUsedAt := Some now; KeyLastUsedIP := ip;
  KeyDeletedAt := KeyDeletedAt r |}.
Definition TouchUsage (id : N) (ip : string) (addUsed now : Z) : DBM N :=
  exec (id_update api_keys with_api_keys id (λ _, Ok true)
    (λ r, used <-? bigint (QuotaUsed r + addUsed) ;; Ok (touch now ip used r))).

(** ** Secrets (service.go) *)

Definition base64url_char (n : N) : ascii :=
  (if n <? 26 then ascii_of_N (65 + n) else if n <? 52 then ascii_of_N (71 + n)
   else if n <? 62 then ascii_of_N (n - 4) else if n =? 62 then "-"%char else "_"%char)%N.

(** [base64.RawURLEncoding.EncodeToString] *)
Fixpoint base64url (l : list ascii) : list ascii :=
  match l with
  | a :: b :: c :: l =>
      let n := (code a * 65536 + code b * 256 + code c)%N in
      base64url_char (n / 262144) :: base64url_char (n / 4096 mod 64) ::
      base64url_char (n / 64 mod 64) :: base64url_char (n mod 64) :: base64url l
  | [a; b] =>
      let n := (code a * 1024 + code b * 4)%N in
      [base64url_char (n / 4096); base64url_char (n / 64 mod 64); base64url_char (n mod 64)]
  | [a] => let n := (code a * 16)%N in [base64url_char (n / 64); base64url_char (n mod 64)]
  | [] => []
  end.

Definition generateSecret (buf : list ascii) : string :=
  "sk-" +:+ replace_byte "_" "y" (replace_byte "-" "x" (of_bytes (base64url buf))).

(** The first eleven bytes are kept in clear. *)
Definition key_prefix (key : string) : string :=
  if (11 <? String.length key)%nat then string_take 11 key else key.

Record CreateInput := {
  InName : string;
  InQuotaLimit : Z;
  InAllowedModels : list string;
  InAllowedIPs : list string;
  InRPM : Z;
  InTPM : Z;
  InExpiresAt : Z
}.

(** [None] is a nil slice or pointer. *)
Record UpdateInput := {
  UpName : string;
  UpQuotaLimit : Z;
  UpAllowedModels : option (list string);
  UpAllowedIPs : option (list string);
  UpRPM : Z;
  UpTPM : Z;
  UpExpiresAt : Z;
  UpEnabled : option bool
}.

(** The two settings keys consult (Settings.v). *)
Record KeySettings := { ks_max_per_user : Z; ks_default_quota : Z }.

Section service.
Context (sha256hex : string → string) (marshal : list string → string)
        (unmarshal : string → option (list string)).
Variable settings : option KeySettings.

Definition HashKey (key : string) : string := sha256hex key.

Definition jsonListNullable (l : list string) : option string :=
  match l with [] => None | _ => Some (marshal l) end.

Definition optional_time (t : Z) : option Z := if t =? zero_time then None else Some t.

(** The limit, when there is one. *)
Definition check_count (userID : N) : DBM unit :=
  match settings with
  | None => ret tt
  | Some s =>
      if 0 <? ks_max_per_user s then
        cur <- CountActiveByUser userID ;;
        if ks_max_per_user s <=? cur then throw ErrKeyCountLimit else ret tt
      else ret tt
  end.

Definition default_quota (limit : Z) : Z :=
  match settings with
  | Some s => if limit <=? 0 then ks_default_quota s else limit
  | None => limit
  end.

Definition created_key (userID : N) (inp : CreateInput) (key : string) : APIKey := {|
  KeyUserID := userID; KeyName := InName inp; KeyPrefix := key_prefix key; KeyHash := HashKey key;
  QuotaLimit := default_quota (InQuotaLimit inp); QuotaUsed := 0;
  AllowedModels := jsonListNullable (InAllowedModels inp);
  AllowedIPs := jsonListNullable (InAllowedIPs inp); KeyRPM := InRPM inp; KeyTPM := InTPM inp;
  KeyExpiresAt := optional_time (InExpiresAt inp); KeyEnabled := true; KeyLastUsedAt := None;
  KeyLastUsedIP := ""; KeyDeletedAt := None |}.

Definition Create (userID : N) (inp : CreateInput) (buf : list ascii) : DBM (string * (N * APIKey)) :=
  check_count userID ;;
  let key := generateSecret buf in
  let k := created_key userID inp key in
  id <- DAOCreate k ;;
  ret (key, (id, k)).

(** A missing key is created under the reserved name. *)
Definition EnsureInternalKey (userID : N) (buf : list ascii) : DBM (N * APIKey) :=
  r <- try (GetByUserAndName userID InternalKeyName) ;;
  match r with
  | Ok p => ret p
  | Err e =>
      if negb (errors_Is e ErrNotFound) then throw e else
      let raw := generateSecret buf in
      let k := {| KeyUserID := userID; KeyName := InternalKeyName; KeyPrefix := key_prefix raw;
                  KeyHash := HashKey raw; QuotaLimit := 0; QuotaUsed := 0; AllowedModels := None;
                  AllowedIPs := None; KeyRPM := 0; KeyTPM := 0; KeyExpiresAt := None;
                  KeyEnabled := true; KeyLastUsedAt := None; KeyLastUsedIP := ""; KeyDeletedAt := None |} in
      id <- DAOCreate k ;;
      ret (id, k)
  end.

Definition updated_key (k : APIKey) (inp : UpdateInput) : APIKey := {|
  KeyUserID := KeyUserID k;
  KeyName := if String.eqb (UpName inp) "" then KeyName k else UpName inp;
  KeyPrefix := KeyPrefix k; KeyHash := KeyHash k;
  QuotaLimit := if 0 <=? UpQuotaLimit inp then UpQuotaLimit inp else QuotaLimit k;
  QuotaUsed := QuotaUsed k;
  AllowedModels := match UpAllowedModels inp with Some l => jsonListNullable l | None => AllowedModels k end;
  AllowedIPs := match UpAllowedIPs inp with Some l => jsonListNullable l | None => AllowedIPs k end;
  KeyRPM := if 0 <=? UpRPM inp then UpRPM inp else KeyRPM k;
  KeyTPM := if 0 <=? UpTPM inp then UpTPM inp else KeyTPM k;
  KeyExpiresAt := if UpExpiresAt inp =? zero_time then KeyExpiresAt k else Some (UpExpiresAt inp);
  KeyEnabled := match UpEnabled inp with Some b => b | None => KeyEnabled k end;
  KeyLastUsedAt := KeyLastUsedAt k; KeyLastUsedIP := KeyLastUsedIP k; KeyDeletedAt := KeyDeletedAt k |}.

Definition Update (userID id : N) (inp : UpdateInput) : DBM APIKey :=
  k <- GetByID id ;;
  if negb (KeyUserID k =? userID)%N then throw (EMsg "forbidden") else
  DAOUpdate id (updated_key k inp) ;;
  ret (updated_key k inp).

Definition Delete (userID id : N) (now : Z) : DBM unit := SoftDelete userID id now ;; ret tt.

(** Whatever [GetByHash] fails with, the caller sees one message. *)
Definition Verify (key : string) (now : Z) : DBM (N * APIKey) :=
  if negb (HasPrefix key "sk-") then throw (EMsg "API Key 格式不正确") else
  r <- try (GetByHash (HashKey key)) ;;
  match r with
  | Err _ => throw (EMsg "API Key 不存在或已被停用")
  | Ok (id, k) =>
      if match KeyExpiresAt k with Some t => t <? now | None => false end
      then throw (EMsg "API Key 已过期")
      else if (0 <? QuotaLimit k) && (QuotaLimit k <=? QuotaUsed k)
      then throw (EMsg "API Key 配额已用完")
      else ret (id, k)
  end.

(** ** Allow-lists *)

Definition listed (column : option string) (x : string) : bool :=
  match column with
  | None => true
  | Some s =>
      if String.eqb s "" then true else
      match unmarshal s with
      | None => true
      | Some [] => true
      | Some l => bool_decide (x ∈ l)
      end
  end.
Definition ModelAllowed (k : APIKey) (slug : string) : bool := listed (AllowedModels k) slug.
Definition IPAllowed (k : APIKey) (ip : string) : bool := listed (AllowedIPs k) ip.

(** ** Middleware (middleware.go)

    The request: its Authorization header, its [api_key] parameter and the
    client's address.  [inl code] is a 401 answer. *)

Record Request := { Authorization : string; QueryKey : string; RemoteIP : string }.

Definition extractKey (c : Request) (allowQuery : bool) : string :=
  let h := Authorization c in
  if negb (String.eqb h "") then
    if HasPrefix h "Bearer " then TrimSpace (string_drop 7 h) else TrimSpace h
  else if allowQuery then QueryKey c else "".

Definition Middleware (allowQuery : bool) (c : Request) (now : Z) : DBM (string + N * APIKey) :=
  let raw := extractKey c allowQuery in
  if String.eqb raw "" then ret (inl "missing_api_key") else
  r <- try (Verify raw now) ;;
  match r with
  | Err _ => ret (inl "invalid_api_key")
  | Ok (id, k) =>
      if negb (IPAllowed k (RemoteIP c)) then ret (inl "ip_not_allowed") else ret (inr (id, k))
  end.
End service.

Example base64_sample : of_bytes (base64url (bytes "Man!?")) = "TWFuIT8".
Proof. by vm_compute. Qed.

(** ** Lookups *)

Definition hashes_unique (d : database) : Prop :=
  ∀ i j k k', api_keys d !! i = Some k → api_keys d !! j = Some k' → KeyHash k = KeyHash k' → i = j.

Lemma usable_spec hash id k :
  usable hash id k = true ↔ KeyHash k = hash ∧ KeyEnabled k = true ∧ key_live k = true.
Proof. unfold usable. rewrite !andb_true_iff, String.eqb_eq. tauto. Qed.

Lemma head_usable_unique d hash id k :
  hashes_unique d → api_keys d !! id = Some k → usable hash id k = true →
  head (rows_where api_keys (usable hash) d) = Some (id, k).
Proof.
  intros Hu Hk Hus. destruct (head _) as [[j k']|] eqn:E.
  - apply head_rows_where in E as [Hk' Hus']. apply usable_spec in Hus as [H1 _], Hus' as [H2 _].
    assert (j = id) as -> by (eapply Hu; [done|done|congruence]). by simplify_eq.
  - exfalso. by rewrite (proj1 (head_rows_where_None _ _ _) E id k Hk) in Hus.
Qed.

#[local] Arguments String.append : simpl never.
#[local] Arguments HasPrefix : simpl never.

Section verify.
Context (sha256hex : string → string) (marshal : list string → string)
        (unmarshal : string → option (list string)) (settings : option KeySettings).

(** The conditions a key must meet to be let in. *)
Record admissible (key : string) (now : Z) (d : database) (id : N) (k : APIKey) : Prop := {
  ad_prefix : HasPrefix key "sk-" = true;
  ad_row : api_keys d !! id = Some k;
  ad_hash : KeyHash k = sha256hex key;
  ad_enabled : KeyEnabled k = true;
  ad_live : key_live k = true;
  ad_expiry : match KeyExpiresAt k with Some t => now ≤ t | None => True end;
  ad_quota : 0 < QuotaLimit k → QuotaUsed k < QuotaLimit k
}.

Lemma try_GetByHash hash w :
  w_db (try (GetByHash hash) w).2 = w_db w ∧
  ∃ r, (try (GetByHash hash) w).1 = Ok r ∧
    (r = Err EDriver ∨
     r = match head (rows_where api_keys (usable hash) (w_db w)) with Some p => Ok p | None => Err ErrNotFound end).
Proof.
  unfold try. pose proof (query_keeps (λ d, match head (rows_where api_keys (usable hash) d) with
    | Some p => Ok p | None => Err ErrNotFound end) w) as Hk.
  pose proof (transparent_run (m:=GetByHash hash) w) as Ht. unfold GetByHash in *.
  destruct (query _ w) as [r w']; cbn [fst snd] in *. split; [done|]. exists r. split; [done|].
  destruct Ht as [->|Hr]; [by left|right]. rewrite run_query in Hr. by injection Hr.
Qed.

Lemma Verify_cases key now w :
  w_db (Verify sha256hex key now w).2 = w_db w ∧
  ((∃ e, (Verify sha256hex key now w).1 = Err e) ∨
   ∃ id k, (Verify sha256hex key now w).1 = Ok (id, k) ∧ admissible key now (w_db w) id k).
Proof.
  unfold Verify. destruct (HasPrefix key "sk-") eqn:Hp; cbn [negb]; [|by split; [|left; eexists]].
  unfold bind. destruct (try_GetByHash (HashKey sha256hex key) w) as (Hdb & r & Hr & Hcase).
  destruct (try _ w) as [r' w']; cbn in *. subst r'.
  destruct r as [[id k]|e]; [|by split; [|left; eexists]].
  destruct Hcase as [Hcase|Hcase]; [done|].
  destruct (head (rows_where _ _ _)) as [p|] eqn:E; [|done]. injection Hcase as <-.
  apply head_rows_where in E as [Hk Hus]. apply usable_spec in Hus as (H1 & H2 & H3).
  destruct (match KeyExpiresAt k with Some t => t <? now | None => false end) eqn:He;
    [by split; [|left; eexists]|].
  destruct ((0 <? QuotaLimit k) && (QuotaLimit k <=? QuotaUsed k)) eqn:Hq; [by split; [|left; eexists]|].
  split; [done|right]. exists id, k. split; [done|]. split; try done.
  - destruct (KeyExpiresAt k) as [t|]; [|done]. by apply Z.ltb_ge.
  - intros H0. destruct (Z.ltb_spec 0 (QuotaLimit k)); [|lia]. cbn in Hq. by apply Z.leb_gt.
Qed.

Lemma Verify_complete key now d id k :
  hashes_unique d → admissible key now d id k → run (Verify sha256hex key now) d = (Ok (id, k), d).
Proof.
  intros Hu []. unfold Verify. rewrite ad_prefix0. cbn [negb]. unfold run, bind, try, GetByHash, query, call.
  cbn [w_faults w_db]. rewrite (head_usable_unique d _ id k) by (done || by apply usable_spec).
  destruct (match KeyExpiresAt k with Some t => t <? now | None => false end) eqn:He.
  { destruct (KeyExpiresAt k) as [t|]; [|done]. apply Z.ltb_lt in He. lia. }
  destruct (Z.ltb_spec 0 (QuotaLimit k)) as [H|H]; cbn; [|done].
  destruct (Z.leb_spec (QuotaLimit k) (QuotaUsed k)); [|done]. specialize (ad_quota0 H). lia.
Qed.

Lemma Middleware_ok allowQuery c now w id k :
  (Middleware sha256hex unmarshal allowQuery c now w).1 = Ok (inr (id, k)) →
  admissible (extractKey c allowQuery) now (w_db w) id k ∧ IPAllowed unmarshal k (RemoteIP c) = true.
Proof.
  unfold Middleware. destruct (String.eqb _ ""); [done|]. unfold bind, try.
  destruct (Verify_cases (extractKey c allowQuery) now w) as [_ Hc].
  destruct (Verify _ _ _ w) as [[[i k']|e] w']; cbn in *; [|done].
  destruct (IPAllowed unmarshal k' (RemoteIP c)) eqn:Hip; cbn; [|done]. intros [= -> ->].
  destruct Hc as [[e He]|(i' & k'' & [= <- <-] & Ha)]; [done|]. by split.
Qed.

(** C24: the gateway lets a call in exactly with a key that exists, is enabled
    and not deleted, has not expired, has quota left, and allows the client's
    address; a failing database lets nobody in, and checking changes
    nothing. *)
Theorem Middleware_admits allowQuery c now w :
  hashes_unique (w_db w) →
  w_db (Middleware sha256hex unmarshal allowQuery c now w).2 = w_db w ∧
  (∀ id k, (Middleware sha256hex unmarshal allowQuery c now w).1 = Ok (inr (id, k)) →
     admissible (extractKey c allowQuery) now (w_db w) id k ∧ IPAllowed unmarshal k (RemoteIP c) = true) ∧
  (∀ id k, admissible (extractKey c allowQuery) now (w_db w) id k →
     IPAllowed unmarshal k (RemoteIP c) = true →
     run (Middleware sha256hex unmarshal allowQuery c now) (w_db w) = (Ok (inr (id, k)), w_db w)).
Proof.
  intros Hu. split_and!.
  - unfold Middleware. destruct (String.eqb _ ""); [done|]. unfold bind, try.
    destruct (Verify_cases (extractKey c allowQuery) now w) as [Hdb _].
    destruct (Verify _ _ _ w) as [[[i k]|e] w']; cbn in *; [|done]. by destruct (negb _).
  - intros id k. apply Middleware_ok.
  - intros id k Ha Hip. unfold Middleware.
    destruct (String.eqb_spec (extractKey c allowQuery) "") as [E|_].
    { pose proof (ad_prefix _ _ _ _ _ Ha) as Hp. rewrite E in Hp. done. }
    pose proof (Verify_complete _ _ _ _ _ Hu Ha) as Hv. unfold run, bind, try in *.
    destruct (Verify _ _ _ _) as [r w']; cbn in Hv. injection Hv as -> Hd. cbn. rewrite Hip. cbn. by rewrite Hd.
Qed.

(** ** Issuing a key *)

Lemma run_check_count u d :
  run (check_count settings u) d =
  match settings with
  | Some s => if (0 <? ks_max_per_user s) && (ks_max_per_user s <=? count_keys u d)
              then (Err ErrKeyCountLimit, d) else (Ok tt, d)
  | None => (Ok tt, d)
  end.
Proof.
  unfold check_count. destruct settings as [s|]; [|done].
  destruct (0 <? ks_max_per_user s); [|done]. cbn [andb]. unfold CountActiveByUser.
  rewrite (run_bind (query _) _), run_query. by destruct (ks_max_per_user s <=? _).
Qed.

#[global] Instance check_count_transparent u : Transparent (check_count settings u).
Proof. unfold check_count, CountActiveByUser. db_transparent. Qed.

Lemma insert_key_ok k d id d' :
  insert_key k d = Ok (id, d') →
  api_keys d !! id = None ∧ d' = with_api_keys <[id := new_row k]> d ∧
  ∀ i r, api_keys d !! i = Some r → KeyHash r ≠ KeyHash k.
Proof.
  unfold insert_key. destruct (head _) eqn:E; [done|]. intros [= <- <-].
  split; [apply auto_id_fresh|]. split; [done|]. intros i r Hr.
  pose proof (proj1 (head_rows_where_None _ _ _) E i r Hr) as Hn. by apply String.eqb_neq.
Qed.

Lemma rows_where_insert (P : N → APIKey → bool) d id k :
  api_keys d !! id = None →
  rows_where api_keys P (with_api_keys <[id := k]> d) ≡ₚ
  (if P id k then [(id, k)] else []) ++ rows_where api_keys P d.
Proof.
  intros Hid. unfold rows_where. rewrite !sort_by_Permutation. cbn [api_keys with_api_keys].
  rewrite map_to_list_insert by done. destruct (P id k) eqn:HP.
  - by rewrite filter_cons_True.
  - rewrite filter_cons_False; [done|]. cbn. by rewrite HP.
Qed.

Lemma count_keys_insert u d id k :
  api_keys d !! id = None →
  count_keys u (with_api_keys <[id := k]> d) = count_keys u d + if counted u id k then 1 else 0.
Proof.
  intros Hid. unfold count_keys. rewrite (Permutation_length (rows_where_insert _ d id k Hid)).
  rewrite length_app. destruct (counted u id k); cbn; lia.
Qed.

Lemma create_key_ok u inp buf d key id k d' :
  run (Create sha256hex marshal settings u inp buf) d = (Ok (key, (id, k)), d') →
  (match settings with Some s => 0 < ks_max_per_user s → count_keys u d < ks_max_per_user s | None => True end) ∧
  key = generateSecret buf ∧ k = created_key sha256hex marshal settings u inp key ∧
  insert_key k d = Ok (id, d').
Proof.
  unfold Create. rewrite (run_bind (check_count settings u) _), run_check_count.
  assert (∀ r, (match settings with
      | Some s => if (0 <? ks_max_per_user s) && (ks_max_per_user s <=? count_keys u d)
                  then (Err ErrKeyCountLimit, d) else (Ok tt, d)
      | None => (Ok tt, d) end) = (r, d) → r = Ok tt →
    match settings with Some s => 0 < ks_max_per_user s → count_keys u d < ks_max_per_user s | None => True end) as Hlim.
  { intros r. destruct settings as [s|]; [|done].
    destruct (Z.ltb_spec 0 (ks_max_per_user s)), (Z.leb_spec (ks_max_per_user s) (count_keys u d));
      cbn; intros [= <-]; intros; try done; lia. }
  destruct (match settings with Some s => _ | None => _ end) as [[[]|e] d1] eqn:E; [|done].
  assert (d1 = d) as -> by (destruct settings; repeat case_match; by simplify_eq).
  specialize (Hlim _ eq_refl eq_refl). unfold DAOCreate. rewrite (run_bind (exec _) _), run_exec.
  destruct (insert_key _ d) as [[id' d2]|e] eqn:Hi; [|done]. intros [= <- <- <- <-]. done.
Qed.

Lemma new_row_created u inp key :
  new_row (created_key sha256hex marshal settings u inp key) = created_key sha256hex marshal settings u inp key.
Proof. done. Qed.

Lemma generateSecret_prefix buf : HasPrefix (generateSecret buf) "sk-" = true.
Proof. apply HasPrefix_spec. by eexists. Qed.

(** A key that was issued works: it is stored only as its hash, the user
    stays within his limit of counted keys, and the secret handed out is
    accepted until its expiry, with the record that was returned. *)
Theorem Create_then_Verify u inp buf d key id k d' now :
  run (Create sha256hex marshal settings u inp buf) d = (Ok (key, (id, k)), d') →
  hashes_unique d → (InExpiresAt inp = zero_time ∨ now ≤ InExpiresAt inp) →
  run (Verify sha256hex key now) d' = (Ok (id, k), d') ∧ KeyHash k = sha256hex key ∧ KeyUserID k = u ∧
  match settings with
  | Some s => 0 < ks_max_per_user s → count_keys u d' ≤ ks_max_per_user s
  | None => True
  end.
Proof.
  intros Hc Hu Hx. apply create_key_ok in Hc as (Hlim & -> & -> & Hi).
  apply insert_key_ok in Hi as (Hid & -> & Hfresh). rewrite new_row_created.
  split; [|split; [done|split; [done|]]].
  - apply Verify_complete.
    + intros i j x y. cbn. rewrite !lookup_insert_Some.
      intros [[<- <-]|[? H1]] [[<- <-]|[? H2]] E; [done| | |by eapply Hu].
      * exfalso. by eapply Hfresh.
      * exfalso. by eapply Hfresh.
    + split; [apply generateSecret_prefix|apply lookup_insert_eq|done|done|done| |cbn; lia].
      cbn. unfold optional_time. destruct (Z.eqb_spec (InExpiresAt inp) zero_time); [done|].
      by destruct Hx.
  - destruct settings as [s|]; [|done]. intros Hs. specialize (Hlim Hs).
    rewrite count_keys_insert by done. destruct (counted _ _ _); lia.
Qed.

(** A key created under the reserved name of the playground is issued
    like any other but never counted, so the limit of keys per user does not
    limit such keys. *)
Theorem reserved_name_uncounted u inp buf d key id k d' now :
  run (Create sha256hex marshal settings u inp buf) d = (Ok (key, (id, k)), d') →
  InName inp = InternalKeyName → hashes_unique d → InExpiresAt inp = zero_time →
  count_keys u d' = count_keys u d ∧ run (Verify sha256hex key now) d' = (Ok (id, k), d').
Proof.
  intros Hc Hn Hu Hx. apply create_key_ok in Hc as (_ & -> & -> & Hi).
  apply insert_key_ok in Hi as (Hid & -> & Hfresh). rewrite new_row_created. split.
  - rewrite count_keys_insert by done. unfold counted, created_key. cbn [KeyName].
    rewrite Hn, String.eqb_refl, andb_false_r. lia.
  - apply Verify_complete.
    + intros i j x y. cbn. rewrite !lookup_insert_Some.
      intros [[<- <-]|[? H1]] [[<- <-]|[? H2]] E; [done| | |by eapply Hu].
      * exfalso. by eapply Hfresh.
      * exfalso. by eapply Hfresh.
    + split; [apply generateSecret_prefix|apply lookup_insert_eq|done|done|done| |cbn; lia].
      cbn. unfold optional_time. by rewrite Hx, Z.eqb_refl.
Qed.
End verify.

(** ** Quota *)

(** Charges with their dates. *)
Fixpoint charge_all (id : N) (ip : string) (charges : list (Z * Z)) : DBM unit :=
  match charges with
  | [] => ret tt
  | (now, a) :: charges => TouchUsage id ip a now ;; charge_all id ip charges
  end.

Lemma run_TouchUsage id ip a now d k :
  api_keys d !! id = Some k → in_i64 (QuotaUsed k + a) →
  run (TouchUsage id ip a now) d = (Ok 1%N, with_api_keys <[id := touch now ip (QuotaUsed k + a) k]> d).
Proof.
  intros Hk Hi. unfold TouchUsage. rewrite run_exec. unfold id_update. rewrite Hk. cbn [rbind].
  by rewrite bigint_in.
Qed.

Lemma hashes_unique_insert d id k k' :
  hashes_unique d → api_keys d !! id = Some k → KeyHash k' = KeyHash k →
  hashes_unique (with_api_keys <[id := k']> d).
Proof.
  intros Hu Hk Hh i j x y. cbn. rewrite !lookup_insert_Some.
  intros [[<- <-]|[? Hx]] [[<- <-]|[? Hy]] E; [done| | |by eapply Hu].
  - eapply (Hu id j k y); [done|done|congruence].
  - eapply (Hu i id x k); [done|done|congruence].
Qed.

Lemma charge_all_ok id ip charges d k :
  api_keys d !! id = Some k → Forall (λ c, 0 ≤ c.2) charges → 0 ≤ QuotaUsed k →
  in_i64 (QuotaUsed k + sumZ snd charges) → hashes_unique d →
  ∃ d' k', run (charge_all id ip charges) d = (Ok tt, d') ∧ api_keys d' !! id = Some k' ∧
    hashes_unique d' ∧ QuotaUsed k' = QuotaUsed k + sumZ snd charges ∧ QuotaLimit k' = QuotaLimit k ∧
    KeyHash k' = KeyHash k ∧ KeyEnabled k' = KeyEnabled k ∧ key_live k' = key_live k ∧
    KeyExpiresAt k' = KeyExpiresAt k.
Proof.
  intros Hk Ha. revert d k Hk. induction Ha as [|[now a] charges Ha Hc IH]; intros d k Hk H0 Hi Hu.
  { exists d, k. cbn. split_and!; try done. lia. }
  cbn [charge_all sumZ snd] in *.
  assert (0 ≤ sumZ snd charges) as Hs by (clear -Hc; induction Hc; cbn; lia).
  assert (in_i64 (QuotaUsed k + a)) as Hi1 by i64_lia.
  assert (Transparent (TouchUsage id ip a now)) as Ht by (unfold TouchUsage; apply _).
  rewrite (run_bind (TouchUsage id ip a now) _), (run_TouchUsage _ _ _ _ _ k) by done.
  destruct (IH (with_api_keys <[id := touch now ip (QuotaUsed k + a) k]> d) (touch now ip (QuotaUsed k + a) k))
    as (d' & k' & H1 & H2 & H3 & H4 & H5 & H6 & H7 & H8 & H9).
  - apply lookup_insert_eq.
  - cbn. lia.
  - cbn. by replace (QuotaUsed k + a + sumZ snd charges) with (QuotaUsed k + (a + sumZ snd charges)) by lia.
  - by eapply hashes_unique_insert.
  - exists d', k'. split_and!; try done. rewrite H4. cbn. lia.
Qed.

(** C37: the quota of a key is enforced, and it is one for the key's life.
    After any charges to an admissible key, at whatever times, its use is
    exactly the sum of the charges; at any later time before it expires, be it
    days after the last of them, it is accepted as long as that stays below its
    limit (0: no limit), and refused from then on.  Nothing starts afresh with
    a day, although the limit is documented as a daily one. *)
Theorem quota_enforced sha256hex key now later ip charges d id k :
  hashes_unique d → admissible sha256hex key now d id k → Forall (λ c, 0 ≤ c.2) charges →
  (∀ t, KeyExpiresAt k = Some t → later ≤ t) →
  0 ≤ QuotaUsed k → in_i64 (QuotaUsed k + sumZ snd charges) →
  ∃ d', run (charge_all id ip charges) d = (Ok tt, d') ∧
    if (0 <? QuotaLimit k) && (QuotaLimit k <=? QuotaUsed k + sumZ snd charges)
    then run (Verify sha256hex key later) d' = (Err (EMsg "API Key 配额已用完"), d')
    else ∃ k', run (Verify sha256hex key later) d' = (Ok (id, k'), d') ∧
           QuotaUsed k' = QuotaUsed k + sumZ snd charges.
Proof.
  intros Hu [Hp Hrow Hh Hen Hl _ Hq] Ha Hlater H0 Hi.
  destruct (charge_all_ok id ip charges d k) as (d' & k' & H1 & H2 & H3 & H4 & H5 & H6 & H7 & H8 & H9);
    [done..|]. exists d'. split; [done|].
  destruct ((0 <? QuotaLimit k) && (QuotaLimit k <=? QuotaUsed k + sumZ snd charges)) eqn:Hover.
  - unfold Verify. rewrite Hp. cbn [negb]. unfold run, bind, try, GetByHash, query, call.
    cbn [w_faults w_db]. rewrite (head_usable_unique d' _ id k'); [|done|done|].
    2: { apply usable_spec. unfold HashKey. split_and!; congruence. }
    cbn match. rewrite H9, H5, H4, Hover.
    destruct (KeyExpiresAt k) as [t|]; [|done]. by replace (t <? later) with false by (specialize (Hlater t eq_refl); lia).
  - exists k'. split; [|done]. apply Verify_complete; [done|]. split; try congruence; try done.
    + rewrite H9. destruct (KeyExpiresAt k) as [t|]; [by apply Hlater|done].
    + rewrite H5, H4. intros Hpos. destruct (Z.ltb_spec 0 (QuotaLimit k)); [|lia].
      cbn in Hover. by apply Z.leb_gt.
Qed.

(** ** Whose keys *)

Inductive key_op :=
  | OpCreate (inp : CreateInput) (buf : list ascii)
  | OpUpdate (id : N) (inp : UpdateInput)
  | OpDelete (id : N) (now : Z)
  | OpEnsure (buf : list ascii).

Definition others_kept (u : N) (d d' : database) : Prop :=
  ∀ id k, api_keys d !! id = Some k → KeyUserID k ≠ u → api_keys d' !! id = Some k.

#[export] Instance others_kept_preorder u : PreOrder (others_kept u).
Proof.
  split; [by intros d id k|]. intros d1 d2 d3 H12 H23 id k Hk Hu. eauto.
Qed.

Section isolation.
Context (sha256hex : string → string) (marshal : list string → string) (settings : option KeySettings).

Definition exec_key_op (u : N) (o : key_op) : DBM unit :=
  match o with
  | OpCreate inp buf => void (Create sha256hex marshal settings u inp buf)
  | OpUpdate id inp => void (Update marshal u id inp)
  | OpDelete id now => Delete u id now
  | OpEnsure buf => void (EnsureInternalKey sha256hex u buf)
  end.

Definition exec_key_ops (u : N) (ops : list key_op) (w : world database) : world database :=
  foldl (λ w o, (exec_key_op u o w).2) w ops.

Lemma insert_keeps u k : KeyUserID k = u → Keeps (others_kept u) (DAOCreate k).
Proof.
  intros Hk. apply exec_keeps; [apply _|]. intros d id d' (Hid & -> & _)%insert_key_ok i r Hr Hu.
  cbn. rewrite lookup_insert_ne; [done|congruence].
Qed.

Lemma id_update_keeps u id (P : APIKey → result bool) (f : APIKey → result APIKey) :
  (∀ r, P r = Ok true → KeyUserID r = u) →
  Keeps (others_kept u) (exec (id_update api_keys with_api_keys id P f)).
Proof.
  intros HP. apply exec_keeps; [apply _|]. intros d n d'. unfold id_update.
  destruct (api_keys d !! id) as [r|] eqn:Hr; [|by intros [= _ <-]].
  destruct (P r) as [b|] eqn:Hb; [|done]. cbn. destruct b; [|by intros [= _ <-]].
  destruct (f r) as [r'|]; [|done]. cbn. intros [= _ <-] i k Hk Hu. cbn.
  rewrite lookup_insert_ne; [done|]. intros <-. apply Hu. simplify_eq. auto.
Qed.

Lemma exec_key_op_keeps u o : Keeps (others_kept u) (exec_key_op u o).
Proof.
  destruct o as [inp buf|id inp|id now|buf]; cbn [exec_key_op]; unfold void.
  - apply bind_keeps; [apply _| |intros; apply _]. unfold Create.
    apply bind_keeps; [apply _| |].
    + unfold check_count, CountActiveByUser. destruct settings; apply _.
    + intros _. cbn zeta. apply bind_keeps; [apply _|by apply insert_keeps|intros; apply _].
  - apply bind_keeps; [apply _| |intros; apply _]. unfold Update.
    apply bind_keeps; [apply _|unfold GetByID; apply _|]. intros k.
    destruct (N.eqb_spec (KeyUserID k) u); cbn [negb]; [|apply _].
    apply bind_keeps; [apply _| |intros; apply _]. apply id_update_keeps.
    intros r [= H]. apply andb_true_iff in H as [H _]. apply N.eqb_eq in H. cbn in H. congruence.
  - unfold Delete. apply bind_keeps; [apply _| |intros; apply _]. apply id_update_keeps.
    intros r [= H]. by apply N.eqb_eq in H.
  - apply bind_keeps; [apply _| |intros; apply _]. unfold EnsureInternalKey.
    apply bind_keeps; [apply _|unfold GetByUserAndName; apply _|]. intros [p|e]; [apply _|].
    destruct (errors_Is e ErrNotFound); cbn [negb]; [|apply _].
    apply bind_keeps; [apply _|by apply insert_keeps|intros; apply _].
Qed.

(** Nothing a user asks of his keys, in any order and with any failures
    of the database, touches a key of another user. *)
Theorem keys_isolated u ops w id k :
  api_keys (w_db w) !! id = Some k → KeyUserID k ≠ u →
  api_keys (w_db (exec_key_ops u ops w)) !! id = Some k.
Proof.
  revert w. induction ops as [|o ops IH]; intros w Hk Hu; [done|]. cbn. apply IH; [|done].
  by eapply (exec_key_op_keeps u o w).
Qed.
End isolation.

(** ** Witnesses *)

Definition toy_hash (s : string) : string := hex_encode (bytes s).
Definition toy_marshal (l : list string) : string := Join l ",".
Definition toy_unmarshal (s : string) : option (list string) := Some (Split s ",").
Definition sample_key_input (name : string) : CreateInput := {|
  InName := name; InQuotaLimit := 100; InAllowedModels := []; InAllowedIPs := ["10.0.0.1"; "10.0.0.2"];
  InRPM := 0; InTPM := 0; InExpiresAt := zero_time |}.
Definition key_settings : option KeySettings := Some {| ks_max_per_user := 2; ks_default_quota := 0 |}.
Definition sample_buf : list ascii := repeat "k"%char 32.
Definition key_db : database :=
  (run (Create toy_hash toy_marshal key_settings 7 (sample_key_input "ci") sample_buf) empty_database).2.
Definition sample_key : APIKey :=
  created_key toy_hash toy_marshal key_settings 7 (sample_key_input "ci") (generateSecret sample_buf).

Lemma key_db_unique : hashes_unique key_db.
Proof.
  assert (key_db = with_api_keys <[1%N := sample_key]> empty_database) as -> by by vm_compute.
  intros i j x y. cbn. intros [[<- _]|[_ []%lookup_empty_Some]]%lookup_insert_Some.
  by intros [[<- _]|[_ []%lookup_empty_Some]]%lookup_insert_Some.
Qed.

Lemma empty_unique : hashes_unique empty_database.
Proof. intros i j k k'. cbn. by rewrite lookup_empty. Qed.

Lemma sample_admissible : admissible toy_hash (generateSecret sample_buf) 5 key_db 1 sample_key.
Proof. split; try by vm_compute. Qed.

Lemma Middleware_admits_witness :
  run (Middleware toy_hash toy_unmarshal false
         {| Authorization := "Bearer " +:+ generateSecret sample_buf; QueryKey := ""; RemoteIP := "10.0.0.2" |} 5)
    key_db = (Ok (inr (1%N, sample_key)), key_db).
Proof.
  destruct (Middleware_admits toy_hash toy_unmarshal false
    {| Authorization := "Bearer " +:+ generateSecret sample_buf; QueryKey := ""; RemoteIP := "10.0.0.2" |} 5
    (World key_db []) key_db_unique) as (_ & _ & H).
  apply H; [exact sample_admissible|by vm_compute].
Defined.

Lemma Create_then_Verify_witness :
  run (Verify toy_hash (generateSecret sample_buf) 5) key_db = (Ok (1%N, sample_key), key_db) ∧
  count_keys 7 key_db ≤ 2.
Proof.
  destruct (Create_then_Verify toy_hash toy_marshal key_settings 7 (sample_key_input "ci") sample_buf
    empty_database (generateSecret sample_buf) 1 sample_key key_db 5) as (H1 & _ & _ & H2);
    [by vm_compute|exact empty_unique|by left|].
  split; [exact H1|by apply H2].
Defined.

Lemma reserved_name_uncounted_witness :
  let d' := (run (Create toy_hash toy_marshal key_settings 7 (sample_key_input InternalKeyName) sample_buf)
               empty_database).2 in
  count_keys 7 d' = 0.
Proof.
  destruct (reserved_name_uncounted toy_hash toy_marshal key_settings 7 (sample_key_input InternalKeyName)
    sample_buf empty_database (generateSecret sample_buf) 1
    (created_key toy_hash toy_marshal key_settings 7 (sample_key_input InternalKeyName) (generateSecret sample_buf))
    (run (Create toy_hash toy_marshal key_settings 7 (sample_key_input InternalKeyName) sample_buf)
               empty_database).2 5) as [H _];
    [by vm_compute|done|exact empty_unique|done|]. exact H.
Defined.

(** Spent over two days, and refused on the third. *)
Lemma quota_enforced_witness :
  let day := 86400 * 1000000000 in
  ∃ d', run (charge_all 1 "10.0.0.1" [(6, 60); (6 + day, 50)]) key_db = (Ok tt, d') ∧
    run (Verify toy_hash (generateSecret sample_buf) (6 + 2 * day)) d' = (Err (EMsg "API Key 配额已用完"), d').
Proof.
  cbv zeta.
  apply (quota_enforced toy_hash (generateSecret sample_buf) 5 (6 + 2 * (86400 * 1000000000)) "10.0.0.1"
    [(6, 60); (6 + 86400 * 1000000000, 50)] key_db 1 sample_key key_db_unique sample_admissible);
    [by repeat constructor|by vm_compute|done|by vm_compute].
Defined.

Lemma keys_isolated_witness :
  api_keys (w_db (exec_key_ops toy_hash toy_marshal key_settings 8
    [OpDelete 1 9; OpUpdate 1 {| UpName := "x"; UpQuotaLimit := 0; UpAllowedModels := None;
       UpAllowedIPs := None; UpRPM := 0; UpTPM := 0; UpExpiresAt := zero_time; UpEnabled := None |};
     OpEnsure sample_buf] (World key_db [false; true]))) !! 1%N = Some sample_key.
Proof. by apply (keys_isolated toy_hash toy_marshal key_settings 8); vm_compute. Defined.
