(* ===== verification/Rbac.v ===== *)
(** * Roles, permissions and menus (internal/rbac)

    The permission constants, the static map from roles to permissions and
    the set built from it at start-up, the checks the middlewares use, and the
    menu tree with the filter that prunes it for a role.  A Go map of sets is
    a [gmap] of [gset]s; iteration over it is the only thing whose order Go
    leaves open ([ListPermissions]). *)

From S2P Require Import Prelude GoStrings.

Definition RoleUser : string := "user".
Definition RoleAdmin : string := "admin".

Definition Permission : Type := string.

Definition PermSelfProfile : Permission := "self:profile".
Definition PermSelfKey : Permission := "self:key".
Definition PermSelfUsage : Permission := "self:usage".
Definition PermSelfRecharge : Permission := "self:recharge".
Definition PermSelfImage : Permission := "self:image".
Definition PermUserRead : Permission := "user:read".
Definition PermUserWrite : Permission := "user:write".
Definition PermUserCredit : Permission := "user:credit".
Definition PermKeyReadAll : Permission := "key:read_all".
Definition PermKeyWriteAll : Permission := "key:write_all".
Definition PermAccountRead : Permission := "account:read".
Definition PermAccountWrite : Permission := "account:write".
Definition PermProxyRead : Permission := "proxy:read".
Definition PermProxyWrite : Permission := "proxy:write".
Definition PermModelRead : Permission := "model:read".
Definition PermModelWrite : Permission := "model:write".
Definition PermChannelRead : Permission := "channel:read".
Definition PermChannelWrite : Permission := "channel:write".
Definition PermGroupWrite : Permission := "group:write".
Definition PermRechargeManage : Permission := "recharge:manage".
Definition PermUsageReadAll : Permission := "usage:read_all".
Definition PermStatsReadAll : Permission := "stats:read_all".
Definition PermAuditRead : Permission := "audit:read".
Definition PermSystemSetting : Permission := "system:setting".
Definition PermSystemBackup : Permission := "system:backup".
Definition PermSystemImageFile : Permission := "system:image_file".

Definition rolePermissions : gmap string (list Permission) :=
  <[RoleUser := [PermSelfProfile; PermSelfKey; PermSelfUsage; PermSelfRecharge; PermSelfImage]]>
  (<[RoleAdmin :=
     [PermSelfProfile; PermSelfKey; PermSelfUsage; PermSelfRecharge; PermSelfImage;
      PermUserRead; PermUserWrite; PermUserCredit; PermKeyReadAll;
      PermKeyWriteAll; PermAccountRead; PermAccountWrite; PermProxyRead;
      PermProxyWrite; PermModelRead; PermModelWrite; PermChannelRead;
      PermChannelWrite; PermGroupWrite; PermRechargeManage; PermUsageReadAll;
      PermStatsReadAll; PermAuditRead; PermSystemSetting; PermSystemBackup;
      PermSystemImageFile]]> ∅).

(** [init] *)
Definition permSet : gmap string (gset Permission) := list_to_set <$> rolePermissions.

Definition Has (role : string) (perm : Permission) : bool :=
  match permSet !! role with
  | None => false
  | Some set => bool_decide (perm ∈ set)
  end.

Fixpoint HasAny (role : string) (perms : list Permission) : bool :=
  match perms with
  | [] => false
  | p :: perms => if Has role p then true else HasAny role perms
  end.

Fixpoint HasAll (role : string) (perms : list Permission) : bool :=
  match perms with
  | [] => true
  | p :: perms => if negb (Has role p) then false else HasAll role perms
  end.

(** Go's range over the set has no fixed order; the model's is [elements]'. *)
Definition ListPermissions (role : string) : option (list Permission) :=
  elements <$> permSet !! role.

Definition IsAdmin (role : string) : bool := String.eqb role RoleAdmin.

(** ** Menus *)

Inductive Menu := MkMenu {
  MenuKey : string;
  Title : string;
  Icon : string;
  Path : string;
  Perms : list Permission;
  Children : list Menu
}.

Definition menuTree : list Menu := [
  MkMenu "personal" "个人中心" "User" "/personal" [] [
    MkMenu "personal.dashboard" "总览" "House" "/personal/dashboard" [PermSelfProfile] [];
    MkMenu "personal.security" "安全中心" "Lock" "/personal/security" [PermSelfProfile] [];
    MkMenu "personal.play" "在线体验" "MagicStick" "/personal/play" [PermSelfImage; PermSelfUsage] [];
    MkMenu "personal.usage" "使用记录" "Histogram" "/personal/usage" [PermSelfUsage] [];
    MkMenu "personal.history-tasks" "历史任务" "PictureRounded" "/personal/history-tasks" [PermSelfImage] [];
    MkMenu "personal.billing" "账单与充值" "Wallet" "/personal/billing" [PermSelfRecharge] [];
    MkMenu "personal.keys" "API Keys" "Key" "/personal/keys" [PermSelfKey] [];
    MkMenu "personal.docs" "接口文档" "Document" "/personal/docs" [PermSelfUsage; PermSelfImage] []];
  MkMenu "admin" "后台管理" "Setting" "/admin"
    [PermUserRead; PermUserWrite; PermUserCredit; PermKeyReadAll;
     PermKeyWriteAll; PermAccountRead; PermAccountWrite; PermProxyRead;
     PermProxyWrite; PermModelRead; PermModelWrite; PermChannelRead;
     PermChannelWrite; PermGroupWrite; PermRechargeManage; PermUsageReadAll;
     PermStatsReadAll; PermAuditRead; PermSystemSetting; PermSystemBackup;
     PermSystemImageFile] [
    MkMenu "admin.dashboard" "后台概览" "House" "/admin/dashboard" [] [];
    MkMenu "admin.user-billing" "用户与计费" "UserFilled" "" [] [
      MkMenu "admin.users" "用户管理" "UserFilled" "/admin/users" [PermUserRead] [];
      MkMenu "admin.credits" "积分管理" "Coin" "/admin/credits" [PermUserCredit] [];
      MkMenu "admin.recharges" "充值订单" "CreditCard" "/admin/recharges" [PermRechargeManage] [];
      MkMenu "admin.redeem-codes" "兑换码" "Ticket" "/admin/redeem-codes" [PermRechargeManage] [];
      MkMenu "admin.groups" "用户分组" "OfficeBuilding" "/admin/groups" [PermGroupWrite] [];
      MkMenu "admin.keys" "全局 Keys" "Key" "/admin/keys" [PermKeyReadAll] []];
    MkMenu "admin.models-resources" "模型与资源" "Box" "" [] [
      MkMenu "admin.accounts" "GPT账号" "Connection" "/admin/accounts" [PermAccountRead] [];
      MkMenu "admin.proxies" "代理管理" "Guide" "/admin/proxies" [PermProxyRead] [];
      MkMenu "admin.models" "模型配置" "Box" "/admin/models" [PermModelRead; PermModelWrite] [];
      MkMenu "admin.channels" "上游渠道" "Share" "/admin/channels" [PermChannelRead; PermChannelWrite] [];
      MkMenu "admin.image-files" "图片文件" "Picture" "/admin/image-files" [PermSystemImageFile] []];
    MkMenu "admin.data-records" "数据与记录" "DataAnalysis" "" [] [
      MkMenu "admin.usage" "用量统计" "DataAnalysis" "/admin/usage" [PermUsageReadAll] [];
      MkMenu "admin.request-logs" "请求记录" "Tickets" "/admin/request-logs" [PermUsageReadAll] [];
      MkMenu "admin.image-tasks" "生成记录" "Picture" "/admin/image-tasks" [PermUsageReadAll] [];
      MkMenu "admin.audit" "审计日志" "Document" "/admin/audit" [PermAuditRead] [];
      MkMenu "admin.backup" "数据备份" "FolderOpened" "/admin/backup" [PermSystemBackup] []];
    MkMenu "admin.content-system" "内容与系统" "Tools" "" [] [
      MkMenu "admin.announcements" "公告管理" "Bell" "/admin/announcements" [PermSystemSetting] [];
      MkMenu "admin.update-logs" "系统更新日志" "DocumentChecked" "/admin/update-logs" [PermSystemSetting] [];
      MkMenu "admin.prompts" "Prompt库" "Collection" "/admin/prompts" [PermSystemSetting] [];
      MkMenu "admin.settings" "系统设置" "Tools" "/admin/settings" [PermSystemSetting] []]]].

(** One iteration of the loop of [filterMenus]; the recursive call on the
    children comes first, as in the source. *)
Fixpoint filter_menu (role : string) (m : Menu) : option Menu :=
  let copied := omap (filter_menu role) (Children m) in
  if (0 <? Z.of_nat (length (Children m))) && (Z.of_nat (length copied) =? 0) then None
  else if (0 <? Z.of_nat (length (Perms m))) && negb (HasAny role (Perms m)) then None
  else Some (MkMenu (MenuKey m) (Title m) (Icon m) (Path m) (Perms m) copied).

Definition filterMenus (src : list Menu) (role : string) : list Menu :=
  omap (filter_menu role) src.

Definition MenuForRole (role : string) : list Menu := filterMenus menuTree role.

Fixpoint findDirectMenu (items : list Menu) (key : string) : option Menu :=
  match items with
  | [] => None
  | item :: items => if String.eqb (MenuKey item) key then Some item else findDirectMenu items key
  end.

Definition NavigationMenuForRole (role : string) : list Menu :=
  let menus := MenuForRole role in
  if String.eqb role RoleUser then
    match findDirectMenu menus "personal" with Some root => Children root | None => menus end
  else if String.eqb role RoleAdmin then
    match findDirectMenu menus "admin" with Some root => Children root | None => menus end
  else menus.

(** ** Permission checks *)

Lemma Has_spec role perm : Has role perm = true ↔ ∃ ps, rolePermissions !! role = Some ps ∧ perm ∈ ps.
Proof.
  unfold Has, permSet. rewrite lookup_fmap. destruct (rolePermissions !! role) as [ps|]; cbn.
  - rewrite bool_decide_eq_true, elem_of_list_to_set. naive_solver.
  - naive_solver.
Qed.

Lemma HasAny_spec role perms : HasAny role perms = true ↔ ∃ p, p ∈ perms ∧ Has role p = true.
Proof.
  induction perms as [|p perms IH]; cbn; [set_solver|].
  destruct (Has role p) eqn:E; [set_solver|]. rewrite IH. split; [set_solver|].
  intros (q & [->|Hq]%elem_of_cons & Hh); [congruence|eauto].
Qed.

Lemma HasAll_spec role perms : HasAll role perms = true ↔ ∀ p, p ∈ perms → Has role p = true.
Proof.
  induction perms as [|p perms IH]; cbn; [set_solver|].
  destruct (Has role p) eqn:E; cbn; [|set_solver]. rewrite IH. set_solver.
Qed.

Lemma Has_unknown role p : role ≠ RoleUser → role ≠ RoleAdmin → Has role p = false.
Proof.
  intros H1 H2. unfold Has, permSet, rolePermissions. rewrite lookup_fmap.
  by rewrite !lookup_insert_ne, lookup_empty by done.
Qed.

Lemma HasAny_unknown role ps : role ≠ RoleUser → role ≠ RoleAdmin → HasAny role ps = false.
Proof. intros H1 H2. induction ps; cbn; [done|]. by rewrite Has_unknown. Qed.

(** A permission a resource owner needs on what is his own. *)
Definition self_perm (p : Permission) : bool := HasPrefix p "self:".

Lemma user_permissions : rolePermissions !! RoleUser =
  Some [PermSelfProfile; PermSelfKey; PermSelfUsage; PermSelfRecharge; PermSelfImage].
Proof. by vm_compute. Qed.

Lemma Has_user p : Has RoleUser p = true →
  p ∈ [PermSelfProfile; PermSelfKey; PermSelfUsage; PermSelfRecharge; PermSelfImage].
Proof. intros (ps & Hps & Hp)%Has_spec. rewrite user_permissions in Hps. by simplify_eq. Qed.

(** The checks are the set-theoretic ones, a role the code does not know
    holds nothing, a user holds only permissions on what is his own, whatever
    he holds an administrator holds as well, and the list an account is shown
    is the set it is checked against, without repetition. *)
Theorem least_privilege role :
  (∀ ps, HasAny role ps = true ↔ ∃ p, p ∈ ps ∧ Has role p = true) ∧
  (∀ ps, HasAll role ps = true ↔ ∀ p, p ∈ ps → Has role p = true) ∧
  (role ≠ RoleUser → role ≠ RoleAdmin →
     ListPermissions role = None ∧ ∀ p, Has role p = false) ∧
  (∀ p, Has RoleUser p = true → self_perm p = true ∧ Has RoleAdmin p = true) ∧
  (∀ l, ListPermissions role = Some l → NoDup l ∧ ∀ p, p ∈ l ↔ Has role p = true).
Proof.
  split_and!; [apply HasAny_spec|apply HasAll_spec|intros H1 H2; split| |].
  - unfold ListPermissions, permSet, rolePermissions. rewrite lookup_fmap.
    by rewrite !lookup_insert_ne, lookup_empty by done.
  - intros p. by apply Has_unknown.
  - intros p Hp%Has_user. revert p Hp. by apply Forall_forall; repeat constructor.
  - intros l. unfold ListPermissions, Has. destruct (permSet !! role) as [s|]; [|done].
    intros [= <-]. split; [apply NoDup_elements|]. intros p.
    by rewrite bool_decide_eq_true, elem_of_elements.
Qed.

(** ** What a filtered menu shows *)

(** The item of a menu, without what is below it. *)
Record item := Item {
  it_key : string; it_title : string; it_icon : string; it_path : string; it_perms : list Permission }.
Definition item_of (m : Menu) : item := Item (MenuKey m) (Title m) (Icon m) (Path m) (Perms m).

(** The ways down from a menu to its leaves. *)
Fixpoint chains (m : Menu) : list (list item) :=
  match Children m with
  | [] => [[item_of m]]
  | _ => map (cons (item_of m)) (concat (map chains (Children m)))
  end.
Definition all_chains (ms : list Menu) : list (list item) := concat (map chains ms).

Definition permitted (role : string) (p : item) : bool :=
  match it_perms p with [] => true | _ => HasAny role (it_perms p) end.

Definition kept (role : string) (l : list (list item)) : list (list item) :=
  List.filter (forallb (permitted role)) l.

Fixpoint menu_size (m : Menu) : nat := S (list_sum (map menu_size (Children m))).

(** Induction on a menu through all its children. *)
Lemma menu_children_ind (P : Menu → Prop) :
  (∀ m, Forall P (Children m) → P m) → ∀ m, P m.
Proof.
  intros H. fix IH 1. intros m. apply H. destruct m as [k t i p perms ch]. cbn.
  induction ch as [|c ch IHch]; constructor; [apply IH|apply IHch].
Qed.

Lemma chains_nonempty m : chains m ≠ [].
Proof.
  induction m as [m IH] using menu_children_ind. destruct m as [k t i p perms ch].
  destruct ch as [|c ch]; cbn; [done|]. inversion IH as [|?? Hc _]; subst.
  by destruct (chains c).
Qed.

Lemma all_chains_nil ms : all_chains ms = [] ↔ ms = [].
Proof.
  destruct ms as [|m ms]; [done|]. split; [|done]. unfold all_chains. cbn.
  intros [H _]%app_eq_nil. by apply chains_nonempty in H.
Qed.

Lemma kept_app role l l' : kept role (l ++ l') = kept role l ++ kept role l'.
Proof. apply List.filter_app. Qed.

Lemma kept_cons role p l :
  kept role (map (cons p) l) = if permitted role p then map (cons p) (kept role l) else [].
Proof.
  unfold kept. induction l as [|c l IH]; cbn; [by destruct (permitted _ _)|].
  rewrite IH. by destruct (permitted role p), (forallb _ c).
Qed.

Lemma all_chains_app ms ms' : all_chains (ms ++ ms') = all_chains ms ++ all_chains ms'.
Proof. unfold all_chains. by rewrite map_app, concat_app. Qed.

Lemma filterMenus_cons m ms role :
  filterMenus (m :: ms) role = option_list (filter_menu role m) ++ filterMenus ms role.
Proof. unfold filterMenus. cbn. by destruct (filter_menu role m). Qed.

Lemma all_chains_omap role ms :
  Forall (λ m, all_chains (option_list (filter_menu role m)) = kept role (chains m)) ms →
  all_chains (filterMenus ms role) = kept role (all_chains ms).
Proof.
  induction 1 as [|m ms Hm Hms IH]; [done|].
  by rewrite filterMenus_cons, all_chains_app, Hm, IH, <-kept_app.
Qed.

Lemma chains_children m : Children m ≠ [] → chains m = map (cons (item_of m)) (all_chains (Children m)).
Proof. by destruct m as [k t i p perms [|c ch]]. Qed.

Lemma filter_menu_chains role m :
  all_chains (option_list (filter_menu role m)) = kept role (chains m).
Proof.
  induction m as [m IH] using menu_children_ind. apply all_chains_omap in IH.
  destruct m as [k t i p perms ch]. cbn [Children] in *.
  assert (Hperm : ((0 <? Z.of_nat (length perms)) && negb (HasAny role perms)) =
    negb (permitted role (Item k t i p perms))) by (by destruct perms).
  cbn [filter_menu Children Perms MenuKey Title Icon Path]. rewrite Hperm.
  fold (filterMenus ch role). destruct ch as [|c ch].
  - cbn. by destruct (permitted _ _).
  - rewrite chains_children by done. cbn [Children].
    rewrite kept_cons, <-IH. cbn [item_of MenuKey Title Icon Path Perms].
    destruct (filterMenus (c :: ch) role) as [|c' ch'] eqn:E; cbn [length].
    + cbn. by destruct (permitted _ _).
    + replace (Z.of_nat (S (length ch')) =? 0) with false by (symmetry; apply Z.eqb_neq; lia).
      rewrite andb_false_r.
      destruct (permitted role _); cbn [negb option_list]; [|done].
      transitivity (chains (MkMenu k t i p perms (c' :: ch'))); [apply app_nil_r|].
      by rewrite chains_children.
Qed.

Lemma filterMenus_chains src role :
  all_chains (filterMenus src role) = kept role (all_chains src).
Proof. apply all_chains_omap, Forall_forall. intros m _. apply filter_menu_chains. Qed.

(** Filtering looks at the role's permissions only. *)
Lemma filterMenus_ext role role' src :
  (∀ ps, HasAny role ps = HasAny role' ps) → filterMenus src role = filterMenus src role'.
Proof.
  intros Hext. assert (H : ∀ m, filter_menu role m = filter_menu role' m).
  { induction m as [m IH] using menu_children_ind. destruct m as [k t i p perms ch].
    cbn [filter_menu Children Perms MenuKey Title Icon Path]. rewrite Hext.
    replace (omap (filter_menu role') ch) with (omap (filter_menu role) ch); [done|].
    cbn in IH. induction IH as [|c cs Hc _ IH]; [done|]. cbn. by rewrite Hc, IH. }
  unfold filterMenus. induction src as [|m src IH]; [done|]. cbn. by rewrite H, IH.
Qed.

(** Filtering any menu tree for any role keeps exactly the pages all of
    whose steps from the root the role may see, in their order (so no group
    is left without a page, and none becomes a page). *)
Theorem filterMenus_spec src role :
  all_chains (filterMenus src role) = kept role (all_chains src) ∧
  (filterMenus src role = [] ↔ kept role (all_chains src) = []).
Proof. split; [|rewrite <-filterMenus_chains, all_chains_nil]; [apply filterMenus_chains|done]. Qed.

(** The menus themselves: a user is shown the personal area and nothing
    of the administrator's, an administrator everything, a role the code does
    not know nothing; the navigation bar is one level down. *)
Theorem menus_of_roles :
  MenuForRole RoleAdmin = menuTree ∧
  MenuForRole RoleUser = List.filter (λ m, String.eqb (MenuKey m) "personal") menuTree ∧
  Some (NavigationMenuForRole RoleUser) = Children <$> findDirectMenu menuTree "personal" ∧
  Some (NavigationMenuForRole RoleAdmin) = Children <$> findDirectMenu menuTree "admin" ∧
  (∀ role, role ≠ RoleUser → role ≠ RoleAdmin →
     MenuForRole role = [] ∧ NavigationMenuForRole role = []).
Proof.
  split_and!; [by vm_compute..|]. intros role H1 H2.
  assert (HM : MenuForRole role = []).
  { unfold MenuForRole. rewrite (filterMenus_ext role ""); [by vm_compute|].
    intros ps. by rewrite !HasAny_unknown. }
  split; [done|]. unfold NavigationMenuForRole. rewrite HM.
  by destruct (String.eqb_spec role RoleUser), (String.eqb_spec role RoleAdmin).
Qed.

(** ** The menus of the two roles, checked *)

Example first_item_of_admin :
  MenuKey <$> head (NavigationMenuForRole RoleAdmin) = Some "admin.dashboard".
Proof. by vm_compute. Qed.
