(* ===== verification/Access.v ===== *)
(** * Tokens and guards (pkg/jwt, pkg/resp, internal/middleware/auth.go)

    Issuing and verifying JWT pairs, the codes of the answers, and the gin
    middlewares that guard the routes: a middleware looks at the context the
    ones before it left and either goes on or aborts with an answer.  The
    golang-jwt library is a parameter: how claims become a signed string and
    what parsing one returns. *)

From S2P Require Import Prelude GoStrings GoTime Float Rbac.

(** ** Tokens (pkg/jwt/jwt.go) *)

Record Claims := {
  ClaimUserID : N;
  ClaimRole : string;
  Issuer : string;
  Subject : string;
  Audience : list string;
  IssuedAt : Z;
  ExpiresAt : Z;
  NotBefore : Z
}.

Record TokenPair := {
  AccessToken : string;
  RefreshToken : string;
  ExpiresIn : Z;
  TokenType : string
}.

Record JWTConfig := { Secret : string; CfgIssuer : string; AccessTTLSec : Z; RefreshTTLSec : Z }.

Record Manager := {
  secret : string;
  issuer : string;
  accessTTL : Z;
  refreshTTL : Z;
  ttlProvider : option (Z * Z)     (* what the provider returns when called *)
}.

(** [time.Duration(n) * time.Second] *)
Definition seconds (n : Z) : Z := wrap64 (n * second).

Definition NewManager (c : JWTConfig) : Manager :=
  {| secret := Secret c; issuer := CfgIssuer c; accessTTL := seconds (AccessTTLSec c);
     refreshTTL := seconds (RefreshTTLSec c); ttlProvider := None |}.

Definition SetTTLProvider (p : Z * Z) (m : Manager) : Manager :=
  {| secret := secret m; issuer := issuer m; accessTTL := accessTTL m;
     refreshTTL := refreshTTL m; ttlProvider := Some p |}.

Definition currentTTLs (m : Manager) : Z * Z :=
  match ttlProvider m with
  | Some (a, r) =>
      (if 0 <? a then seconds a else accessTTL m, if 0 <? r then seconds r else refreshTTL m)
  | None => (accessTTL m, refreshTTL m)
  end.

(** [jwt.NewNumericDate]: whole seconds. *)
Definition NumericDate (t : Z) : Z := t / second * second.

(** [int(d.Seconds())] *)
Definition duration_seconds (d : Z) : Z :=
  to_int (fadd (of_int (Z.quot d second)) (fdiv (of_int (Z.rem d second)) (of_int second))).

Definition claims_of (m : Manager) (userID : N) (role typ : string) (now ttl : Z) : Claims :=
  {| ClaimUserID := userID; ClaimRole := role; Issuer := issuer m; Subject := pretty userID;
     Audience := [typ]; IssuedAt := NumericDate now; ExpiresAt := NumericDate (now + ttl);
     NotBefore := NumericDate now |}.

(** The method a token's header names: HMAC of some size, or another. *)
Inductive signing_method := HMAC (alg : string) | OtherMethod (alg : string).

Definition CodeUnauthorized : Z := 40100.
Definition CodeForbidden : Z := 40300.
Definition CodeNotFound : Z := 40400.
Definition CodePaymentRequired : Z := 40200.
Definition CodeRateLimited : Z := 42900.
Definition CodeInternal : Z := 50000.
Definition CodeUpstream : Z := 50200.

Definition statusFromCode (code : Z) : Z :=
  if code =? CodeUnauthorized then 401
  else if code =? CodeForbidden then 403
  else if code =? CodeNotFound then 404
  else if code =? CodeRateLimited then 429
  else if code =? CodePaymentRequired then 402
  else if (code =? CodeInternal) || (code =? CodeUpstream) then 500
  else 200.

(** What the middlewares leave in the gin context. *)
Record Ctx := { ctx_user_id : option N; ctx_role : option string }.

Inductive outcome := Next (c : Ctx) | Abort (code : Z) (msg : string).

Definition no_ctx : Ctx := {| ctx_user_id := None; ctx_role := None |}.

Definition UserID (c : Ctx) : N := default 0%N (ctx_user_id c).
Definition RoleOf (c : Ctx) : string := default "" (ctx_role c).

Definition RequireAdmin (c : Ctx) : outcome :=
  if negb (IsAdmin (RoleOf c)) then Abort CodeForbidden "admin only" else Next c.

Definition RequirePerm (perms : list Permission) (c : Ctx) : outcome :=
  if (UserID c =? 0)%N then Abort CodeUnauthorized "not authenticated" else
  if negb (HasAny (RoleOf c) perms) then Abort CodeForbidden "insufficient permission" else Next c.

Definition RequireAllPerms (perms : list Permission) (c : Ctx) : outcome :=
  if (UserID c =? 0)%N then Abort CodeUnauthorized "not authenticated" else
  if negb (HasAll (RoleOf c) perms) then Abort CodeForbidden "insufficient permission" else Next c.

(** gin runs the handlers of a route in order until one aborts. *)
Fixpoint run_chain (ms : list (Ctx → outcome)) (c : Ctx) : outcome :=
  match ms with
  | [] => Next c
  | m :: ms => match m c with Next c' => run_chain ms c' | Abort code msg => Abort code msg end
  end.

Section jwt.
Context (SignedString : string → Claims → result string)
        (ParseWithClaims : (signing_method → result string) → string → Z → result (Claims * bool))
        (error_text : goerr → string).

Definition signWithTTL (m : Manager) (userID : N) (role typ : string) (now ttl : Z) : result string :=
  SignedString (secret m) (claims_of m userID role typ now ttl).

Definition Issue (m : Manager) (userID : N) (role : string) (now : Z) : result TokenPair :=
  let '(a, r) := currentTTLs m in
  access <-? signWithTTL m userID role "access" now a ;;
  refresh <-? signWithTTL m userID role "refresh" now r ;;
  Ok {| AccessToken := access; RefreshToken := refresh;
        ExpiresIn := duration_seconds a; TokenType := "Bearer" |}.

(** The key function: HMAC only. *)
Definition keyfunc (m : Manager) (alg : signing_method) : result string :=
  match alg with
  | HMAC _ => Ok (secret m)
  | OtherMethod a => Err (EMsg ("unexpected signing method: " +:+ a))
  end.

Definition Verify (m : Manager) (tokenString : string) (now : Z) : result Claims :=
  tok <-? ParseWithClaims (keyfunc m) tokenString now ;;
  let '(claims, valid) := tok in
  if negb valid then Err (EMsg "invalid token") else Ok claims.

Definition VerifyRefresh (m : Manager) (tokenString : string) (now : Z) : result Claims :=
  claims <-? Verify m tokenString now ;;
  if existsb (String.eqb "refresh") (Audience claims) then Ok claims
  else Err (EMsg "not a refresh token").

(** ** Middlewares (internal/middleware/auth.go) *)

Definition JWTAuth (m : Manager) (hdr : string) (now : Z) (c : Ctx) : outcome :=
  if negb (HasPrefix hdr "Bearer ") then Abort CodeUnauthorized "missing bearer token" else
  let tokenStr := TrimSpace (TrimPrefix hdr "Bearer ") in
  match Verify m tokenStr now with
  | Err e => Abort CodeUnauthorized ("invalid token: " +:+ error_text e)
  | Ok claims => Next {| ctx_user_id := Some (ClaimUserID claims); ctx_role := Some (ClaimRole claims) |}
  end.

(** The routes of internal/server/router.go: a user's, an administrator's. *)
Definition authed (m : Manager) (hdr : string) (now : Z) (perms : list Permission) : outcome :=
  run_chain [JWTAuth m hdr now; RequirePerm perms] no_ctx.
Definition admin (m : Manager) (hdr : string) (now : Z) (perms : list Permission) : outcome :=
  run_chain [JWTAuth m hdr now; RequireAdmin; RequirePerm perms] no_ctx.

Lemma authed_Next m hdr now perms c :
  authed m hdr now perms = Next c ↔
  ∃ claims, HasPrefix hdr "Bearer " = true ∧
    Verify m (TrimSpace (TrimPrefix hdr "Bearer ")) now = Ok claims ∧
    ClaimUserID claims ≠ 0%N ∧ HasAny (ClaimRole claims) perms = true ∧
    c = {| ctx_user_id := Some (ClaimUserID claims); ctx_role := Some (ClaimRole claims) |}.
Proof.
  unfold authed. cbn [run_chain]. unfold JWTAuth.
  destruct (HasPrefix hdr "Bearer "); cbn [negb]; [|by split; [|intros (? & ? & _)]].
  destruct (Verify m _ now) as [claims|e]; [|by split; [|intros (? & ? & ? & _)]].
  unfold RequirePerm, UserID, RoleOf. cbn.
  destruct (N.eqb_spec (ClaimUserID claims) 0); [by split; [|intros (? & _ & [= <-] & ? & _)]|].
  destruct (HasAny (ClaimRole claims) perms) eqn:E; cbn.
  - split; [intros [= <-]; eauto 10|]. by intros (cl & _ & [= <-] & _ & _ & ->).
  - split; [done|]. intros (cl & _ & [= <-] & _ & ? & _). congruence.
Qed.

Lemma admin_Next m hdr now perms c :
  admin m hdr now perms = Next c ↔ authed m hdr now perms = Next c ∧ RoleOf c = RoleAdmin.
Proof.
  unfold admin, authed. cbn [run_chain]. destruct (JWTAuth m hdr now no_ctx) as [c1|]; [|split; [done|by intros [? _]]].
  unfold RequireAdmin, IsAdmin. destruct (String.eqb_spec (RoleOf c1) RoleAdmin) as [Hr|Hr]; cbn [negb].
  all: unfold RequirePerm; destruct (UserID c1 =? 0)%N, (HasAny (RoleOf c1) perms); cbn;
    try (split; [done|by intros [? _]]); split; [intros H|intros [H ?]]; simplify_eq; auto.
Qed.

(** The guards of the routes.  A user's route runs exactly for a
    bearer token the manager verifies, of a user whose role holds one of the
    permissions of the route, and the handler sees that user and role; an
    administrator's route asks in addition for that role; everything else
    is answered 401 or 403. *)
Theorem routes_guarded m hdr now perms :
  (∀ c, authed m hdr now perms = Next c ↔
    ∃ claims, HasPrefix hdr "Bearer " = true ∧
      Verify m (TrimSpace (TrimPrefix hdr "Bearer ")) now = Ok claims ∧
      ClaimUserID claims ≠ 0%N ∧ HasAny (ClaimRole claims) perms = true ∧
      c = {| ctx_user_id := Some (ClaimUserID claims); ctx_role := Some (ClaimRole claims) |}) ∧
  (∀ c, admin m hdr now perms = Next c ↔ authed m hdr now perms = Next c ∧ RoleOf c = RoleAdmin) ∧
  (∀ code msg, authed m hdr now perms = Abort code msg ∨ admin m hdr now perms = Abort code msg →
    statusFromCode code = 401 ∨ statusFromCode code = 403).
Proof.
  split; [intros c; apply authed_Next|]. split; [intros c; apply admin_Next|].
  intros code msg. unfold authed, admin. cbn [run_chain]. unfold JWTAuth, RequireAdmin, RequirePerm.
  intros [H|H]; repeat case_match; simplify_eq; by vm_compute; auto.
Qed.

(** ** What a pair of tokens opens *)

Section pair.
Variables (m : Manager) (token_error : goerr).

(** golang-jwt v5: a token it signed parses, under the same key, to the
    claims, as long as the clock is in [nbf, exp); it is written in base64url
    and dots. *)
Hypothesis parse_signed : ∀ claims s now,
  SignedString (secret m) claims = Ok s →
  NumericDate (NotBefore claims) = NotBefore claims →
  NumericDate (ExpiresAt claims) = ExpiresAt claims →
  ParseWithClaims (keyfunc m) s now =
    if (NotBefore claims <=? now) && (now <? ExpiresAt claims) then Ok (claims, true) else Err token_error.
Hypothesis signed_graphic : ∀ claims s,
  SignedString (secret m) claims = Ok s →
  s ≠ "" ∧ Forall (λ c, is_graphic c = true) (bytes s).

Lemma NumericDate_idemp t : NumericDate (NumericDate t) = NumericDate t.
Proof. unfold NumericDate, second. by rewrite Z.div_mul by lia. Qed.

Lemma Verify_signed userID role typ now ttl s t :
  signWithTTL m userID role typ now ttl = Ok s →
  Verify m s t = if (NumericDate now <=? t) && (t <? NumericDate (now + ttl))
                 then Ok (claims_of m userID role typ now ttl) else Err token_error.
Proof.
  intros H. unfold Verify. rewrite (parse_signed _ _ t H) by apply NumericDate_idemp. cbn.
  by destruct (_ && _).
Qed.

Lemma JWTAuth_signed userID role typ now ttl s t c :
  signWithTTL m userID role typ now ttl = Ok s →
  JWTAuth m ("Bearer " +:+ s) t c =
    if (NumericDate now <=? t) && (t <? NumericDate (now + ttl))
    then Next {| ctx_user_id := Some userID; ctx_role := Some role |}
    else Abort CodeUnauthorized ("invalid token: " +:+ error_text token_error).
Proof.
  intros H. unfold JWTAuth. cbn [HasPrefix String.append].
  assert (TrimSpace (TrimPrefix ("Bearer " +:+ s) "Bearer ") = s) as ->.
  { change (TrimPrefix ("Bearer " +:+ s) "Bearer ") with s.
    destruct (signed_graphic _ _ H) as [Hne Hg]. rewrite <-(of_bytes_bytes s).
    apply TrimSpace_graphic; [done|]. by destruct s. }
  cbn. rewrite (Verify_signed _ _ _ _ _ _ t H). by destruct (_ && _).
Qed.

(** C38: a pair opens the routes for as long as the manager's TTLs say, and
    for what the role was when it was issued.  The refresh token opens them
    too, and for longer: the guard does not look at the audience that tells
    the two apart; only the exchange for a new pair does, and it refuses the
    access token. *)
Theorem token_pair_opens userID role now pair t c :
  Issue m userID role now = Ok pair →
  let '(a, r) := currentTTLs m in
  let who := Next {| ctx_user_id := Some userID; ctx_role := Some role |} in
  (JWTAuth m ("Bearer " +:+ AccessToken pair) t c = who ↔
     NumericDate now ≤ t < NumericDate (now + a)) ∧
  (JWTAuth m ("Bearer " +:+ RefreshToken pair) t c = who ↔
     NumericDate now ≤ t < NumericDate (now + r)) ∧
  (is_ok (VerifyRefresh m (RefreshToken pair) t) = true ↔ NumericDate now ≤ t < NumericDate (now + r)) ∧
  is_ok (VerifyRefresh m (AccessToken pair) t) = false.
Proof.
  unfold Issue. destruct (currentTTLs m) as [a r].
  destruct (signWithTTL m userID role "access" now a) as [sa|] eqn:Ha; [|done]. cbn [rbind].
  destruct (signWithTTL m userID role "refresh" now r) as [sr|] eqn:Hr; [|done]. intros [= <-].
  cbn [AccessToken RefreshToken]. unfold VerifyRefresh.
  rewrite (JWTAuth_signed _ _ _ _ _ _ _ _ Ha), (JWTAuth_signed _ _ _ _ _ _ _ _ Hr).
  rewrite (Verify_signed _ _ _ _ _ _ t Ha), (Verify_signed _ _ _ _ _ _ t Hr).
  assert (Hin : ∀ d, (NumericDate now <=? t) && (t <? d) = true ↔ NumericDate now ≤ t < d) by (intros; lia).
  rewrite <-!Hin. split_and!.
  - by destruct (_ && _).
  - by destruct (_ && (t <? NumericDate (now + r))).
  - by destruct (_ && (t <? NumericDate (now + r))).
  - by destruct (_ && _).
Qed.
End pair.
End jwt.

(** ** A library of tokens that are not secret, for the witness *)

Definition claims_tuple (c : Claims) :=
  (ClaimUserID c, ClaimRole c, Issuer c, Subject c, Audience c, IssuedAt c, ExpiresAt c, NotBefore c).
Definition tuple_claims (p : N * string * string * string * list string * Z * Z * Z) : Claims :=
  let '(u, r, i, s, a, ia, ea, nb) := p in
  {| ClaimUserID := u; ClaimRole := r; Issuer := i; Subject := s; Audience := a;
     IssuedAt := ia; ExpiresAt := ea; NotBefore := nb |}.

Fixpoint bits (p : positive) : string :=
  match p with
  | xH => "."
  | xO p => String "0" (bits p)
  | xI p => String "1" (bits p)
  end.
Fixpoint unbits (s : string) : option positive :=
  match s with
  | "" => None
  | String "." "" => Some xH
  | String "0" s => xO <$> unbits s
  | String "1" s => xI <$> unbits s
  | _ => None
  end.

Lemma unbits_bits p : unbits (bits p) = Some p.
Proof. induction p as [p IH|p IH|]; cbn; by rewrite ?IH. Qed.

Definition toy_sign (key : string) (c : Claims) : result string :=
  Ok (bits (encode (key, claims_tuple c))).
Definition toy_token_error : goerr := EMsg "token has invalid claims".
Definition toy_parse (kf : signing_method → result string) (s : string) (now : Z) : result (Claims * bool) :=
  match unbits s ≫= decode with
  | Some (key, p) =>
      k <-? kf (HMAC "HS256") ;;
      let c := tuple_claims p in
      if negb (String.eqb k key) then Err (EMsg "token signature is invalid")
      else if (NotBefore c <=? now) && (now <? ExpiresAt c) then Ok (c, true) else Err toy_token_error
  | None => Err (EMsg "token is malformed")
  end.

Definition sample_manager : Manager :=
  NewManager {| Secret := "s3cret"; CfgIssuer := "gpt2api"; AccessTTLSec := 7200; RefreshTTLSec := 604800 |}.
Definition sample_pair : TokenPair :=
  match Issue toy_sign sample_manager 7 RoleAdmin 1000000000000 with
  | Ok p => p
  | Err _ => {| AccessToken := ""; RefreshToken := ""; ExpiresIn := 0; TokenType := "" |}
  end.

Example sample_expires_in : ExpiresIn sample_pair = 7200.
Proof. by vm_compute. Qed.

Lemma toy_parse_signed c s now :
  toy_sign (secret sample_manager) c = Ok s →
  NumericDate (NotBefore c) = NotBefore c → NumericDate (ExpiresAt c) = ExpiresAt c →
  toy_parse (keyfunc sample_manager) s now =
    if (NotBefore c <=? now) && (now <? ExpiresAt c) then Ok (c, true) else Err toy_token_error.
Proof.
  intros [= <-] _ _. unfold toy_parse. rewrite unbits_bits. cbn [mbind option_bind].
  rewrite decode_encode. cbn. by destruct c.
Qed.

Lemma bits_graphic p : bits p ≠ "" ∧ Forall (λ c, is_graphic c = true) (bytes (bits p)).
Proof. split; [by destruct p|]. induction p; cbn; by constructor. Qed.

Lemma toy_graphic c s :
  toy_sign (secret sample_manager) c = Ok s → s ≠ "" ∧ Forall (λ c, is_graphic c = true) (bytes s).
Proof. intros [= <-]. apply bits_graphic. Qed.

(** A day after it was issued, the refresh token of an administrator opens
    the administrator's routes. *)
Lemma token_pair_opens_witness :
  JWTAuth toy_parse (λ _, "") sample_manager ("Bearer " +:+ RefreshToken sample_pair)
    (1000000000000 + 24 * hour) no_ctx
  = Next {| ctx_user_id := Some 7%N; ctx_role := Some RoleAdmin |}.
Proof.
  destruct (token_pair_opens toy_sign toy_parse (λ _, "") sample_manager toy_token_error
    toy_parse_signed toy_graphic 7 RoleAdmin 1000000000000 sample_pair
    (1000000000000 + 24 * hour) no_ctx) as (_ & Hr & _); [vm_compute; reflexivity|].
  apply Hr. split; [by vm_compute|by vm_compute].
Defined.
