(* ===== verification/Answers.v ===== *)
(** * The answers of the site's own API (pkg/resp)

    What a handler that is not a middleware writes: a code, a text, and the
    data some refusals carry. *)

From S2P Require Import Prelude GoStrings Rbac Access.

Definition CodeOK : Z := 0.
Definition CodeBadRequest : Z := 40000.
Definition CodeConflict : Z := 40900.

(** [resp.Body]; [ans_retry] is the data of a refusal for its rate. *)
Record answer (A : Type) := { ans_code : Z; ans_message : string; ans_data : option A; ans_retry : option Z }.
Arguments Build_answer {A} _ _ _ _.
Arguments ans_code {A} _.
Arguments ans_message {A} _.
Arguments ans_data {A} _.
Arguments ans_retry {A} _.

Section answers.
Context {A : Type}.

Definition OK (data : A) : answer A := Build_answer CodeOK "ok" (Some data) None.
Definition Fail (code : Z) (msg : string) : answer A := Build_answer code msg None None.
Definition BadRequest : string → answer A := Fail CodeBadRequest.
Definition Unauthorized : string → answer A := Fail CodeUnauthorized.
Definition Forbidden : string → answer A := Fail CodeForbidden.
Definition NotFound : string → answer A := Fail CodeNotFound.
Definition Conflict : string → answer A := Fail CodeConflict.
Definition Internal : string → answer A := Fail CodeInternal.
Definition RateLimitedWithData (msg : string) (retry : Z) : answer A := Build_answer CodeRateLimited msg None (Some retry).

(** The status line of the answer. *)
Definition status (a : answer A) : Z := statusFromCode (ans_code a).
End answers.

(** What [validator] counts: characters, not bytes. *)
Definition rune_count (s : string) : Z :=
  Z.of_nat (length (List.filter (λ c, negb ((128 <=? code c) && (code c <? 192))%N) (bytes s))).
