(* ===== verification/Crypto.v ===== *)
(** * Encrypted columns (pkg/crypto/aes.go)

    AES-256-GCM over base64: account tokens, cookies and proxy passwords are
    stored this way.  The cipher itself is the standard library's and is a
    parameter; base64 and hex are computed. *)

From S2P Require Import Prelude GoStrings.

(** ** base64.StdEncoding *)

Definition base64_char (n : N) : ascii :=
  (if n <? 26 then ascii_of_N (65 + n) else if n <? 52 then ascii_of_N (71 + n)
   else if n <? 62 then ascii_of_N (n - 4) else if n =? 62 then "+"%char else "/"%char)%N.

Definition base64_value (c : ascii) : option N :=
  (if is_upper c then Some (code c - 65) else if is_lower c then Some (code c - 71)
   else if is_digit c then Some (code c + 4)
   else if Ascii.eqb c "+" then Some 62 else if Ascii.eqb c "/" then Some 63 else None)%N.

(** Three bytes to four characters, the last group padded. *)
Fixpoint base64_encode (l : list ascii) : list ascii :=
  match l with
  | a :: b :: c :: l =>
      let n := (code a * 65536 + code b * 256 + code c)%N in
      base64_char (n / 262144) :: base64_char (n / 4096 mod 64) ::
      base64_char (n / 64 mod 64) :: base64_char (n mod 64) :: base64_encode l
  | [a; b] =>
      let n := (code a * 1024 + code b * 4)%N in
      [base64_char (n / 4096); base64_char (n / 64 mod 64); base64_char (n mod 64); "="%char]
  | [a] =>
      let n := (code a * 16)%N in [base64_char (n / 64); base64_char (n mod 64); "="%char; "="%char]
  | [] => []
  end.

Definition byte_of (n : N) : ascii := ascii_of_N (n mod 256).

(** Groups of four; padding only at the end; bits beyond the last byte are
    ignored. *)
Fixpoint base64_groups (l : list ascii) : option (list ascii) :=
  match l with
  | [] => Some []
  | a :: b :: c :: d :: l =>
      va ← base64_value a; vb ← base64_value b;
      if Ascii.eqb c "=" then
        if Ascii.eqb d "=" && match l with [] => true | _ => false end
        then Some [byte_of (va * 4 + vb / 16)%N] else None
      else
        vc ← base64_value c;
        if Ascii.eqb d "=" then
          match l with
          | [] => Some [byte_of (va * 4 + vb / 16)%N; byte_of (vb * 16 + vc / 4)%N]
          | _ => None
          end
        else
          vd ← base64_value d; rest ← base64_groups l;
          Some (byte_of (va * 4 + vb / 16)%N :: byte_of (vb * 16 + vc / 4)%N ::
                byte_of (vc * 64 + vd)%N :: rest)
  | _ => None
  end.

(** Carriage returns and newlines are skipped anywhere. *)
Definition base64_decode (s : string) : option (list ascii) :=
  base64_groups (List.filter (λ c, negb (Ascii.eqb c "013") && negb (Ascii.eqb c "010")) (bytes s)).

(** ** hex.DecodeString *)

Definition hex_value (c : ascii) : option N :=
  (let n := code c in
   if is_digit c then Some (n - 48)
   else if (97 <=? n) && (n <=? 102) then Some (n - 87)
   else if (65 <=? n) && (n <=? 70) then Some (n - 55) else None)%N.

Fixpoint hex_decode (l : list ascii) : option (list ascii) :=
  match l with
  | [] => Some []
  | a :: b :: l => va ← hex_value a; vb ← hex_value b; rest ← hex_decode l;
                   Some (ascii_of_N (va * 16 + vb)%N :: rest)
  | [_] => None
  end.

(** ** Round trips *)

Lemma below_64 (P : N → bool) n :
  forallb P (map N.of_nat (seq 0 64)) = true → (n < 64)%N → P n = true.
Proof.
  intros H Hn. rewrite forallb_forall in H. apply H, in_map_iff. exists (N.to_nat n).
  split; [lia|]. apply in_seq. lia.
Qed.

Lemma base64_value_char n : (n < 64)%N → base64_value (base64_char n) = Some n.
Proof.
  intros Hn. eapply bool_decide_eq_true_1.
  apply (below_64 (λ n, bool_decide (base64_value (base64_char n) = Some n)) n); [by vm_compute|done].
Qed.

(** The characters of an encoding: neither padding nor skipped. *)
Lemma base64_char_plain n : (n < 64)%N →
  Ascii.eqb (base64_char n) "=" = false ∧
  negb (Ascii.eqb (base64_char n) "013") && negb (Ascii.eqb (base64_char n) "010") = true.
Proof.
  intros Hn. cut (negb (Ascii.eqb (base64_char n) "=") &&
    (negb (Ascii.eqb (base64_char n) "013") && negb (Ascii.eqb (base64_char n) "010")) = true).
  { intros [H1%negb_true_iff H2]%andb_true_iff. done. }
  apply (below_64 (λ n, negb (Ascii.eqb (base64_char n) "=") &&
    (negb (Ascii.eqb (base64_char n) "013") && negb (Ascii.eqb (base64_char n) "010"))) n);
    [by vm_compute|done].
Qed.

Lemma base64_char_pad n : (n < 64)%N → Ascii.eqb (base64_char n) "=" = false.
Proof. intros. by apply base64_char_plain. Qed.

Lemma byte_of_code a n : (n mod 256 = code a)%N → byte_of n = a.
Proof. unfold byte_of. intros ->. apply ascii_N_embedding. Qed.

#[local] Ltac Zify.zify_post_hook ::= Z.to_euclidean_division_equations.

(** Induction on whole groups of three bytes. *)
Lemma groups_ind (P : list ascii → Prop) :
  P [] → (∀ a, P [a]) → (∀ a b, P [a; b]) → (∀ a b c l, P l → P (a :: b :: c :: l)) → ∀ l, P l.
Proof.
  intros H0 H1 H2 H3. fix IH 1. intros [|a [|b [|c l]]]; [done|apply H1|apply H2|apply H3, IH].
Qed.

Lemma base64_groups_encode l : base64_groups (base64_encode l) = Some l.
Proof.
  induction l as [|a|a b|a b c l IH] using groups_ind; [done|..]; cbn [base64_encode];
    pose proof (code_lt a); try pose proof (code_lt b); try pose proof (code_lt c);
    cbn [base64_groups];
    repeat first [rewrite base64_value_char by lia | rewrite base64_char_pad by lia | rewrite IH
                 | progress cbn [mbind option_bind Ascii.eqb Bool.eqb andb]];
    repeat f_equal; apply byte_of_code; lia.
Qed.

Lemma base64_encode_plain l :
  Forall (λ c, negb (Ascii.eqb c "013") && negb (Ascii.eqb c "010") = true) (base64_encode l).
Proof.
  induction l as [|a|a b|a b c l IH] using groups_ind; cbn [base64_encode];
    pose proof code_lt as Hc; repeat constructor;
    try (pose proof (Hc a); try pose proof (Hc b); try pose proof (Hc c);
         apply base64_char_plain; lia); done.
Qed.

Lemma base64_decode_encode l : base64_decode (of_bytes (base64_encode l)) = Some l.
Proof.
  unfold base64_decode. rewrite bytes_of_bytes, <-(base64_groups_encode l). f_equal.
  pose proof (base64_encode_plain l) as H. induction H as [|c cs Hc _ IH]; [done|].
  cbn [List.filter]. by rewrite Hc, IH.
Qed.

(** [cipher.NewGCM] of [aes.NewCipher], for a key. *)
Definition NewAESGCM {AEAD} (NewGCM : list ascii → result AEAD) (hexKey : string) : result AEAD :=
  if negb (Z.of_nat (String.length hexKey) =? 64)
  then Err (EMsg ("aes key must be 64 hex chars (32 bytes), got " +:+ itoa (Z.of_nat (String.length hexKey)))) else
  match hex_decode (bytes hexKey) with
  | None => Err (EWrap "decode hex key" (EMsg "hex"))
  | Some key => NewGCM key
  end.

Section aead.
(** [Seal] and [Open] without additional data; the sizes the cipher reports. *)
Context {AEAD : Type} (Seal : AEAD → list ascii → list ascii → list ascii)
        (Open : AEAD → list ascii → list ascii → result (list ascii))
        (NonceSize Overhead : nat).

(** The nonce is what [rand.Reader] gives. *)
Definition Encrypt (a : AEAD) (nonce plaintext : list ascii) : string :=
  of_bytes (base64_encode (nonce ++ Seal a nonce plaintext)).

Definition Decrypt (a : AEAD) (b64 : string) : result (list ascii) :=
  match base64_decode b64 with
  | None => Err (EWrap "decode base64" (EMsg "illegal base64 data"))
  | Some raw =>
      if Nat.ltb (length raw) (NonceSize + Overhead) then Err (EMsg "ciphertext too short") else
      match Open a (take NonceSize raw) (drop NonceSize raw) with
      | Err e => Err (EWrap "aead open" e)
      | Ok pt => Ok pt
      end
  end.

Definition EncryptString (a : AEAD) (nonce : list ascii) (s : string) : string :=
  Encrypt a nonce (bytes s).
Definition DecryptString (a : AEAD) (b64 : string) : result string :=
  b <-? Decrypt a b64 ;; Ok (of_bytes b).

Lemma DecryptString_EncryptString a nonce s :
  length nonce = NonceSize →
  (∀ n p, length n = NonceSize → Open a n (Seal a n p) = Ok p) →
  (∀ n p, length (Seal a n p) = (length p + Overhead)%nat) →
  DecryptString a (EncryptString a nonce s) = Ok s.
Proof.
  intros Hn Hopen Hlen. unfold DecryptString, EncryptString, Decrypt, Encrypt.
  rewrite base64_decode_encode. rewrite take_app_length', drop_app_length' by done.
  rewrite Hopen by done. rewrite length_app, Hlen, Hn.
  replace (Nat.ltb _ _) with false by (symmetry; apply Nat.ltb_ge; lia). cbn. by rewrite of_bytes_bytes.
Qed.

Lemma EncryptString_empty a nonce s :
  (∀ n p, length (Seal a n p) = (length p + Overhead)%nat) → EncryptString a nonce s = "" → s = "".
Proof.
  unfold EncryptString, Encrypt. intros Hlen H.
  pose proof (base64_decode_encode (nonce ++ Seal a nonce (bytes s))) as Hd.
  rewrite H in Hd. injection Hd as Hd. symmetry in Hd. apply app_eq_nil in Hd as [_ Hd].
  apply (f_equal length) in Hd. rewrite Hlen in Hd. by destruct s.
Qed.
End aead.

(** ** A cipher for the witnesses: the laws of an AEAD without its secrecy *)

Definition toy_seal (_ : unit) (_ p : list ascii) : list ascii := p ++ repeat "#"%char 16.
Definition toy_open (_ : unit) (_ ct : list ascii) : result (list ascii) := Ok (take (length ct - 16) ct).
Definition sample_nonce (c : ascii) : list ascii := repeat c 12.

Lemma toy_open_seal n p : length n = 12%nat → toy_open tt n (toy_seal tt n p) = Ok p.
Proof. intros _. unfold toy_open, toy_seal. by rewrite length_app, Nat.add_sub, take_app_length. Qed.
Lemma toy_seal_length n p : length (toy_seal tt n p) = (length p + 16)%nat.
Proof. unfold toy_seal. by rewrite length_app. Qed.
