(* ===== verification/Account.v ===== *)
(** * The pool of upstream accounts (internal/account)

    The table oai_accounts with its cookies and proxy bindings, every
    statement of the DAO, and the service that encrypts what it stores.
    [time.Now()] and the random bytes are arguments; [loc] is the process's
    time zone, which the DSN makes the driver's too ([loc=Local]), so a DATE
    column is a local day. *)

From S2P Require Import Prelude GoStrings GoTime Sql Schema Crypto.

Definition StatusHealthy : string := "healthy".
Definition StatusWarned : string := "warned".
Definition StatusThrottled : string := "throttled".
Definition StatusSuspicious : string := "suspicious".
Definition StatusDead : string := "dead".

Definition ErrNotFound : goerr := Sentinel "账号不存在".

Definition active (a : Account) : bool := bool_decide (AccDeletedAt a = None).
Definition has_status (s : string) (a : Account) : bool := String.eqb (AccStatus (AccInfo a)) s.

(** ** Replacing groups of columns *)

Definition with_info (i : AccountInfo) (a : Account) : Account :=
  {| AccInfo := i; AccUse := AccUse a; AccRefresh := AccRefresh a; AccQuota := AccQuota a;
     AccDeletedAt := AccDeletedAt a |}.
Definition with_use (u : AccountUse) (a : Account) : Account :=
  {| AccInfo := AccInfo a; AccUse := u; AccRefresh := AccRefresh a; AccQuota := AccQuota a;
     AccDeletedAt := AccDeletedAt a |}.
Definition with_refresh (r : AccountRefresh) (a : Account) : Account :=
  {| AccInfo := AccInfo a; AccUse := AccUse a; AccRefresh := r; AccQuota := AccQuota a;
     AccDeletedAt := AccDeletedAt a |}.
Definition with_quota (q : AccountQuota) (a : Account) : Account :=
  {| AccInfo := AccInfo a; AccUse := AccUse a; AccRefresh := AccRefresh a; AccQuota := q;
     AccDeletedAt := AccDeletedAt a |}.
Definition with_deleted (t : option Z) (a : Account) : Account :=
  {| AccInfo := AccInfo a; AccUse := AccUse a; AccRefresh := AccRefresh a; AccQuota := AccQuota a;
     AccDeletedAt := t |}.

(** [i] with other tokens, identifiers or status. *)
Definition info_tokens (at_ : string) (rt : option string) (exp : option Z) (i : AccountInfo) : AccountInfo := {|
  AccEmail := AccEmail i; AuthTokenEnc := at_; RefreshTokenEnc := rt;
  SessionTokenEnc := SessionTokenEnc i; TokenExpiresAt := exp; OAISessionID := OAISessionID i;
  OAIDeviceID := OAIDeviceID i; ClientID := ClientID i; ChatGPTAccountID := ChatGPTAccountID i;
  AccountType := AccountType i; PlanType := PlanType i; DailyImageQuota := DailyImageQuota i;
  AccStatus := AccStatus i; AccNotes := AccNotes i |}.
Definition info_ids (device session : string) (i : AccountInfo) : AccountInfo := {|
  AccEmail := AccEmail i; AuthTokenEnc := AuthTokenEnc i; RefreshTokenEnc := RefreshTokenEnc i;
  SessionTokenEnc := SessionTokenEnc i; TokenExpiresAt := TokenExpiresAt i; OAISessionID := session;
  OAIDeviceID := device; ClientID := ClientID i; ChatGPTAccountID := ChatGPTAccountID i;
  AccountType := AccountType i; PlanType := PlanType i; DailyImageQuota := DailyImageQuota i;
  AccStatus := AccStatus i; AccNotes := AccNotes i |}.
Definition info_status (st : string) (i : AccountInfo) : AccountInfo := {|
  AccEmail := AccEmail i; AuthTokenEnc := AuthTokenEnc i; RefreshTokenEnc := RefreshTokenEnc i;
  SessionTokenEnc := SessionTokenEnc i; TokenExpiresAt := TokenExpiresAt i; OAISessionID := OAISessionID i;
  OAIDeviceID := OAIDeviceID i; ClientID := ClientID i; ChatGPTAccountID := ChatGPTAccountID i;
  AccountType := AccountType i; PlanType := PlanType i; DailyImageQuota := DailyImageQuota i;
  AccStatus := st; AccNotes := AccNotes i |}.

(** ** Reading (dao.go) *)

Section dao.
Context (loc : location).

(** [a.Year() == b.Year() && a.Month() == b.Month() && a.Day() == b.Day()] for
    the day of a DATE column and that of an instant. *)
Definition isSameLocalDay (day now : Z) : bool :=
  bool_decide (civil_of_days day = civil_of_days (local_day loc now)).

(** What every row passes through on its way out of the DAO. *)
Definition fill (now : Z) (a : Account) : Account :=
  let u := AccUse a in
  if 0 <? TodayUsedCount u then
    match TodayUsedDate u with
    | Some day =>
        if isSameLocalDay day now then a
        else with_use {| WarnedAt := WarnedAt u; CooldownUntil := CooldownUntil u; AccLastUsedAt := AccLastUsedAt u;
                         TodayUsedCount := 0; TodayUsedDate := TodayUsedDate u |} a
    | None => with_use {| WarnedAt := WarnedAt u; CooldownUntil := CooldownUntil u;
                          AccLastUsedAt := AccLastUsedAt u; TodayUsedCount := 0; TodayUsedDate := None |} a
    end
  else a.

Definition HasRT (a : Account) : bool :=
  match RefreshTokenEnc (AccInfo a) with Some s => negb (String.eqb s "") | None => false end.
Definition HasST (a : Account) : bool :=
  match SessionTokenEnc (AccInfo a) with Some s => negb (String.eqb s "") | None => false end.

Definition fillAll (now : Z) (rows : list (N * Account)) : list (N * Account) :=
  map (λ p, (p.1, fill now p.2)) rows.

Definition GetByID (id : N) (now : Z) : DBM Account :=
  query (λ d, match oai_accounts d !! id with
              | Some a => if active a then Ok (fill now a) else Err ErrNotFound
              | None => Err ErrNotFound
              end).

Definition GetByEmail (email : string) (now : Z) : DBM (option (N * Account)) :=
  query (λ d, Ok (match head (rows_where oai_accounts
                              (λ _ a, String.eqb (AccEmail (AccInfo a)) email && active a) d) with
                  | Some (id, a) => Some (id, fill now a)
                  | None => None
                  end)).

(** [like] is MySQL's [LIKE '%keyword%'] under the column's collation. *)
Context (like : string → string → bool).

Definition list_where (deleted : bool) (status keyword : string) (_ : N) (a : Account) : bool :=
  Bool.eqb (active a) (negb deleted) &&
  (String.eqb status "" || has_status status a) &&
  (String.eqb keyword "" || like keyword (AccEmail (AccInfo a)) || like keyword (AccNotes (AccInfo a))).

Definition List_ (status keyword : string) (offset limit now : Z) : DBM (list (N * Account) * Z) :=
  total <- query (λ d, Ok (Z.of_nat (length (rows_where oai_accounts (list_where false status keyword) d)))) ;;
  rows <- query (λ d, Ok (page offset limit (rev (rows_where oai_accounts (list_where false status keyword) d)))) ;;
  ret (fillAll now rows, total).

(** [ORDER BY deleted_at DESC, id DESC] *)
Definition later_deleted (p q : N * Account) : bool :=
  default 0 (AccDeletedAt q.2) <=? default 0 (AccDeletedAt p.2).

Definition ListDeleted (status keyword : string) (offset limit now : Z) : DBM (list (N * Account) * Z) :=
  total <- query (λ d, Ok (Z.of_nat (length (rows_where oai_accounts (list_where true status keyword) d)))) ;;
  rows <- query (λ d, Ok (page offset limit
            (sort_by later_deleted (rev (rows_where oai_accounts (list_where true status keyword) d))))) ;;
  ret (fillAll now rows, total).

Definition due (t : option Z) (now : Z) : bool := match t with None => true | Some t => t <=? now end.
Definition unexpired (t : option Z) (now : Z) : bool := match t with None => true | Some t => now <? t end.

Definition dispatchable (now : Z) (_ : N) (a : Account) : bool :=
  active a && (has_status StatusHealthy a || has_status StatusWarned a) &&
  due (CooldownUntil (AccUse a)) now && unexpired (TokenExpiresAt (AccInfo a)) now.

(** [ORDER BY CASE status .., CASE WHEN last_used_at IS NULL .., last_used_at ASC] *)
Definition null_first (x y : option Z) : bool :=
  match x, y with
  | None, _ => true
  | Some _, None => false
  | Some a, Some b => a <=? b
  end.
Definition dispatch_order (p q : N * Account) : bool :=
  match has_status StatusHealthy p.2, has_status StatusHealthy q.2 with
  | true, false => true
  | false, true => false
  | _, _ => null_first (AccLastUsedAt (AccUse p.2)) (AccLastUsedAt (AccUse q.2))
  end.

Definition candidates (now : Z) (d : database) : list (N * Account) :=
  sort_by dispatch_order (rows_where oai_accounts (dispatchable now) d).

Definition ListDispatchable (limit now : Z) : DBM (list (N * Account)) :=
  query (λ d, Ok (fillAll now (take (Z.to_nat limit) (candidates now d)))).

Definition by_expiry (p q : N * Account) : bool :=
  null_first (TokenExpiresAt (AccInfo p.2)) (TokenExpiresAt (AccInfo q.2)).

Definition ListNeedRefresh (aheadSec limit now : Z) : DBM (list (N * Account)) :=
  let threshold := now + wrap64 (aheadSec * second) in
  query (λ d, Ok (fillAll now (take (Z.to_nat limit) (sort_by by_expiry (rows_where oai_accounts
    (λ _ a, active a && negb (has_status StatusDead a) &&
       (bool_decide (is_Some (RefreshTokenEnc (AccInfo a))) || bool_decide (is_Some (SessionTokenEnc (AccInfo a)))) &&
       match TokenExpiresAt (AccInfo a) with Some t => t <=? threshold | None => false end) d))))).

Definition by_probe (p q : N * Account) : bool :=
  null_first (ImageQuotaUpdatedAt (AccQuota p.2)) (ImageQuotaUpdatedAt (AccQuota q.2)).

Definition ListNeedProbeQuota (minIntervalSec limit now : Z) : DBM (list (N * Account)) :=
  let threshold := now + wrap64 (- minIntervalSec * second) in
  query (λ d, Ok (fillAll now (take (Z.to_nat limit) (sort_by by_probe (rows_where oai_accounts
    (λ _ a, active a && has_status StatusHealthy a && unexpired (TokenExpiresAt (AccInfo a)) now &&
       (due (ImageQuotaUpdatedAt (AccQuota a)) threshold ||
        (ImageQuotaRemaining (AccQuota a) =? 0) && due (ImageQuotaResetAt (AccQuota a)) now)) d))))).

Definition ListAllActiveIDs : DBM (list N) :=
  query (λ d, Ok (map fst (rows_where oai_accounts (λ _ a, active a) d))).

Record QuotaSummary := { TotalRemaining : Z; TotalCapacity : Z; ActiveAccounts : Z }.

Definition SumQuota : DBM QuotaSummary :=
  query (λ d, let rows := rows_where oai_accounts (λ _ a, active a) d in
    Ok {| TotalRemaining := sumZ (λ p, ImageQuotaRemaining (AccQuota p.2)) rows;
          TotalCapacity := sumZ (λ p, ImageQuotaTotal (AccQuota p.2)) rows;
          ActiveAccounts := Z.of_nat (length rows) |}).
End dao.

(** ** Writing (dao.go) *)

(** UNIQUE KEY uk_active_email: among the rows that are not deleted. *)
Definition email_taken (id : N) (email : string) (d : database) : bool :=
  existsb (λ p : N * Account, negb (p.1 =? id)%N && active p.2 && String.eqb (AccEmail (AccInfo p.2)) email)
    (map_to_list (oai_accounts d)).

Definition new_account (i : AccountInfo) : Account := {|
  AccInfo := i;
  AccUse := {| WarnedAt := None; CooldownUntil := None; AccLastUsedAt := None; TodayUsedCount := 0;
               TodayUsedDate := None |};
  AccRefresh := {| LastRefreshAt := None; LastRefreshSource := ""; RefreshError := "" |};
  AccQuota := {| ImageQuotaRemaining := -1; ImageQuotaTotal := -1; ImageQuotaResetAt := None;
                 ImageQuotaUpdatedAt := None |};
  AccDeletedAt := None |}.

Definition insert_account (i : AccountInfo) (d : database) : result (N * database) :=
  let id := auto_id (oai_accounts d) in
  if email_taken id (AccEmail i) d then Err (EMySQL 1062)
  else Ok (id, with_oai_accounts <[id := new_account i]> d).
Definition DAOCreate (i : AccountInfo) : DBM N := exec (insert_account i).

(** [UPDATE oai_accounts SET .. WHERE id = ? AND ..] *)
Definition update_account (id : N) (where_ : Account → bool) (f : Account → result Account) : DBM N :=
  exec (id_update oai_accounts with_oai_accounts id (λ a, Ok (where_ a)) f).

Definition DAOUpdate (id : N) (i : AccountInfo) : DBM unit :=
  exec (λ d, match oai_accounts d !! id with
             | Some a =>
                 if negb (active a) then Ok (tt, d)
                 else if email_taken id (AccEmail i) d then Err (EMySQL 1062)
                 else Ok (tt, with_oai_accounts <[id := with_info i a]> d)
             | None => Ok (tt, d)
             end).

Definition SoftDelete (id : N) (now : Z) : DBM unit :=
  void (update_account id (λ _, true) (λ a, Ok (with_deleted (Some now) a))).

Definition DAORestore (id : N) : DBM unit :=
  n <- exec (λ d, match oai_accounts d !! id with
             | Some a =>
                 if active a then Ok (0%N, d)
                 else if email_taken id (AccEmail (AccInfo a)) d then Err (EMySQL 1062)
                 else Ok (1%N, with_oai_accounts <[id := with_deleted None a]> d)
             | None => Ok (0%N, d)
             end) ;;
  if (n =? 0)%N then throw ErrNotFound else ret tt.

Definition SoftDeleteByStatus (status : string) (now : Z) : DBM N :=
  if String.eqb status "" then
    exec (all_update oai_accounts with_oai_accounts active (with_deleted (Some now)))
  else exec (all_update oai_accounts with_oai_accounts (λ a, active a && has_status status a)
               (with_deleted (Some now))).

Definition DAOPurge (id : N) : DBM unit :=
  runTx (
    n <- exec (λ d, match oai_accounts d !! id with
               | Some a => if active a then Ok (0%N, d) else Ok (1%N, with_oai_accounts (delete id) d)
               | None => Ok (0%N, d)
               end) ;;
    if (n =? 0)%N then throw ErrNotFound else
    exec (λ d, Ok (tt, with_oai_account_cookies (delete id) d)) ;;
    exec (λ d, Ok (tt, with_account_proxy_bindings (delete id) d)) ;;
    exec (λ d, Ok (tt, with_account_quota_snapshots (filter (λ p : N * N, p.2 ≠ id)) d))).

(** Write once, then read what is there: another request may have been first.
    The second statement does not ask whether the account is deleted. *)
Definition EnsureDeviceID (id : N) (deviceID : string) : DBM unit :=
  void (update_account id (λ a, active a && String.eqb (OAIDeviceID (AccInfo a)) "")
    (λ a, Ok (with_info (info_ids deviceID (OAISessionID (AccInfo a)) (AccInfo a)) a))).
Definition read_device (id : N) : DBM string :=
  query (λ d, match oai_accounts d !! id with Some a => Ok (OAIDeviceID (AccInfo a)) | None => Err ErrNoRows end).
Definition EnsureSessionID (id : N) (sessionID : string) : DBM unit :=
  void (update_account id (λ a, active a && String.eqb (OAISessionID (AccInfo a)) "")
    (λ a, Ok (with_info (info_ids (OAIDeviceID (AccInfo a)) sessionID (AccInfo a)) a))).
Definition read_session (id : N) : DBM string :=
  query (λ d, match oai_accounts d !! id with Some a => Ok (OAISessionID (AccInfo a)) | None => Err ErrNoRows end).

(** [today] is a local day. *)
Definition use_once (today now : Z) (a : Account) : result Account :=
  let u := AccUse a in
  n <-? (if bool_decide (TodayUsedDate u = Some today) then int32 (TodayUsedCount u + 1) else Ok 1) ;;
  Ok (with_use {| WarnedAt := WarnedAt u; CooldownUntil := CooldownUntil u; AccLastUsedAt := Some now;
                  TodayUsedCount := n; TodayUsedDate := Some today |} a).
Definition MarkUsed (id : N) (today now : Z) : DBM unit :=
  void (update_account id (λ _, true) (use_once today now)).

Definition set_status (status : string) (cooldownUntil : option Z) (a : Account) : Account :=
  let u := AccUse a in
  with_info (info_status status (AccInfo a))
    (with_use {| WarnedAt := WarnedAt u; CooldownUntil := cooldownUntil; AccLastUsedAt := AccLastUsedAt u;
                 TodayUsedCount := TodayUsedCount u; TodayUsedDate := TodayUsedDate u |} a).
Definition SetStatus (id : N) (status : string) (cooldownUntil : option Z) : DBM unit :=
  void (update_account id (λ _, true) (λ a, Ok (set_status status cooldownUntil a))).

Definition refreshed (newATEnc newRTEnc : string) (expiresAt : Z) (source : string) (now : Z) (a : Account) : Account :=
  let i := AccInfo a in
  let rt := if negb (String.eqb newRTEnc "") then Some newRTEnc else RefreshTokenEnc i in
  let st := if has_status StatusDead a || has_status StatusSuspicious a then StatusHealthy else AccStatus i in
  with_refresh {| LastRefreshAt := Some now; LastRefreshSource := source; RefreshError := "" |}
    (with_info (info_status st (info_tokens newATEnc rt (Some expiresAt) i)) a).
Definition ApplyRefreshResult (id : N) (newATEnc newRTEnc : string) (expiresAt : Z) (source : string)
    (now : Z) : DBM unit :=
  void (update_account id active (λ a, Ok (refreshed newATEnc newRTEnc expiresAt source now a))).

Definition refresh_failed (source reason : string) (markDead : bool) (now : Z) (a : Account) : Account :=
  let a := with_refresh {| LastRefreshAt := Some now; LastRefreshSource := source; RefreshError := reason |} a in
  if markDead then
    let st := match TokenExpiresAt (AccInfo a) with
              | Some t => if now <? t then StatusWarned else StatusDead
              | None => StatusDead
              end in
    with_info (info_status st (AccInfo a)) a
  else a.
Definition RecordRefreshError (id : N) (source reason : string) (markDead : bool) (now : Z) : DBM unit :=
  void (update_account id active (λ a, Ok (refresh_failed source reason markDead now a))).

Definition probed (remaining total : Z) (resetAt : option Z) (now : Z) (a : Account) : Account :=
  let q := AccQuota a in
  with_quota {|
    ImageQuotaRemaining := if remaining <? 0 then ImageQuotaRemaining q else remaining;
    ImageQuotaTotal := Z.max (ImageQuotaTotal q)
      (Z.max (if total <? 0 then 0 else total) (if remaining <? 0 then 0 else remaining));
    ImageQuotaResetAt := resetAt; ImageQuotaUpdatedAt := Some now |} a.
Definition ApplyQuotaResult (id : N) (remaining total : Z) (resetAt : option Z) (now : Z) : DBM unit :=
  void (update_account id active (λ a, Ok (probed remaining total resetAt now a))).

Definition decr (n : Z) (a : Account) : Account :=
  let q := AccQuota a in
  with_quota {| ImageQuotaRemaining := Z.max 0 (ImageQuotaRemaining q - n);
    ImageQuotaTotal := ImageQuotaTotal q; ImageQuotaResetAt := ImageQuotaResetAt q;
    ImageQuotaUpdatedAt := ImageQuotaUpdatedAt q |} a.
Definition DecrQuota (accountID : N) (n : Z) : DBM unit :=
  if n <=? 0 then ret tt else void (update_account accountID active (λ a, Ok (decr n a))).

(** Cookies and bindings: INSERT .. ON DUPLICATE KEY UPDATE. *)
Definition UpsertCookies (accountID : N) (cookieEnc : string) : DBM unit :=
  exec (λ d, Ok (tt, with_oai_account_cookies <[accountID := cookieEnc]> d)).
Definition GetCookies (accountID : N) : DBM string :=
  query (λ d, Ok (default "" (oai_account_cookies d !! accountID))).
Definition SetBinding (accountID proxyID : N) : DBM unit :=
  exec (λ d, Ok (tt, with_account_proxy_bindings <[accountID := proxyID]> d)).
Definition RemoveBinding (accountID : N) : DBM unit :=
  exec (λ d, Ok (tt, with_account_proxy_bindings (delete accountID) d)).
Definition GetBinding (accountID : N) : DBM (option N) :=
  query (λ d, Ok (account_proxy_bindings d !! accountID)).

(** ** The service (service.go) *)

(** [base64.RawURLEncoding.DecodeString] *)
Definition base64url_value (c : ascii) : option N :=
  if Ascii.eqb c "-" then Some 62%N else if Ascii.eqb c "_" then Some 63%N
  else if Ascii.eqb c "+" || Ascii.eqb c "/" then None else base64_value c.
Fixpoint base64url_groups (l : list ascii) : option (list ascii) :=
  match l with
  | [] => Some []
  | [_] => None
  | [a; b] => va ← base64url_value a; vb ← base64url_value b; Some [byte_of (va * 4 + vb / 16)%N]
  | [a; b; c] =>
      va ← base64url_value a; vb ← base64url_value b; vc ← base64url_value c;
      Some [byte_of (va * 4 + vb / 16)%N; byte_of (vb * 16 + vc / 4)%N]
  | a :: b :: c :: d :: l =>
      va ← base64url_value a; vb ← base64url_value b; vc ← base64url_value c; vd ← base64url_value d;
      rest ← base64url_groups l;
      Some (byte_of (va * 4 + vb / 16)%N :: byte_of (vb * 16 + vc / 4)%N :: byte_of (vc * 64 + vd)%N :: rest)
  end.
Definition base64url_decode (s : string) : option (list ascii) :=
  base64url_groups (List.filter (λ c, negb (Ascii.eqb c "013") && negb (Ascii.eqb c "010")) (bytes s)).

(** What the administrator fills in; "" and the zero time stand for absent. *)
Record Input := {
  InEmail : string;
  InAuthToken : string;
  InRefreshToken : string;
  InSessionToken : string;
  InTokenExpiresAt : Z;
  InOAISessionID : string;
  InOAIDeviceID : string;
  InClientID : string;
  InChatGPTAccountID : string;
  InAccountType : string;
  InPlanType : string;
  InDailyImageQuota : Z;
  InStatus : string;           (* of an update *)
  InNotes : string;
  InCookies : string
}.

(** The random bytes one request draws: a nonce per encryption, a UUID. *)
Record Randomness := {
  nonce_at : list ascii;
  nonce_rt : list ascii;
  nonce_st : list ascii;
  nonce_cookies : list ascii;
  uuid_device : string
}.

Record AccountSecrets := { SecAuthToken : string; SecRefreshToken : string; SecSessionToken : string }.

Definition non_empty (s d : string) : string := if String.eqb s "" then d else s.

Section service.
Context (loc : location) {AEAD : Type}
        (Seal : AEAD → list ascii → list ascii → list ascii)
        (Open : AEAD → list ascii → list ascii → result (list ascii))
        (NonceSize Overhead : nat) (cipher : AEAD)
        (exp_claim : list ascii → option Z).    (* json.Unmarshal of {"exp": ..} *)

Definition encrypt (nonce : list ascii) (s : string) : string := EncryptString Seal cipher nonce s.
Definition decrypt (s : string) : result string := DecryptString Open NonceSize Overhead cipher s.

(** [if s != "" { encrypt }] *)
Definition encrypt_opt (nonce : list ascii) (s : string) (otherwise : option string) : option string :=
  if String.eqb s "" then otherwise else Some (encrypt nonce s).

(** refresher.go: the expiry a token claims, or a day from now. *)
Definition parseJWTExp (token : string) (now : Z) : Z :=
  match Split token "." with
  | _ :: payload :: _ =>
      let raw := match base64url_decode payload with
                 | Some raw => Some raw
                 | None => base64_decode payload
                 end in
      match raw ≫= exp_claim with
      | Some e => if e =? 0 then now + 24 * hour else e * second
      | None => now + 24 * hour
      end
  | _ => now + 24 * hour
  end.

Definition token_expiry (t : Z) (token : string) (now : Z) : option Z :=
  if negb (t =? zero_time) then Some t
  else let e := parseJWTExp token now in if negb (e =? zero_time) then Some e else None.

Definition created_info (inp : Input) (rnd : Randomness) (now : Z) : AccountInfo := {|
  AccEmail := InEmail inp;
  AuthTokenEnc := encrypt (nonce_at rnd) (InAuthToken inp);
  RefreshTokenEnc := encrypt_opt (nonce_rt rnd) (InRefreshToken inp) None;
  SessionTokenEnc := encrypt_opt (nonce_st rnd) (InSessionToken inp) None;
  TokenExpiresAt := token_expiry (InTokenExpiresAt inp) (InAuthToken inp) now;
  OAISessionID := InOAISessionID inp;
  OAIDeviceID := non_empty (InOAIDeviceID inp) (uuid_device rnd);
  ClientID := non_empty (InClientID inp) "app_EMoamEEZ73f0CkXaXp7hrann";
  ChatGPTAccountID := InChatGPTAccountID inp;
  AccountType := non_empty (InAccountType inp) "codex";
  PlanType := non_empty (InPlanType inp) "plus";
  DailyImageQuota := if InDailyImageQuota inp =? 0 then 100 else InDailyImageQuota inp;
  AccStatus := StatusHealthy;
  AccNotes := InNotes inp |}.

Definition store_cookies (id : N) (inp : Input) (rnd : Randomness) : DBM unit :=
  if String.eqb (InCookies inp) "" then ret tt
  else UpsertCookies id (encrypt (nonce_cookies rnd) (InCookies inp)).

Definition Create (inp : Input) (rnd : Randomness) (now : Z) : DBM (N * Account) :=
  if String.eqb (InEmail inp) "" || String.eqb (InAuthToken inp) "" then
    throw (EMsg "email 和 auth_token 不能为空") else
  id <- DAOCreate (created_info inp rnd now) ;;
  store_cookies id inp rnd ;;
  a <- GetByID loc id now ;;
  ret (id, a).

Definition updated_info (i : AccountInfo) (inp : Input) (rnd : Randomness) (now : Z) : AccountInfo := {|
  AccEmail := non_empty (InEmail inp) (AccEmail i);
  AuthTokenEnc := if String.eqb (InAuthToken inp) "" then AuthTokenEnc i
                  else encrypt (nonce_at rnd) (InAuthToken inp);
  RefreshTokenEnc := encrypt_opt (nonce_rt rnd) (InRefreshToken inp) (RefreshTokenEnc i);
  SessionTokenEnc := encrypt_opt (nonce_st rnd) (InSessionToken inp) (SessionTokenEnc i);
  TokenExpiresAt :=
    if negb (InTokenExpiresAt inp =? zero_time) then Some (InTokenExpiresAt inp)
    else if negb (String.eqb (InAuthToken inp) "") then
      let e := parseJWTExp (InAuthToken inp) now in
      if negb (e =? zero_time) then Some e else TokenExpiresAt i
    else TokenExpiresAt i;
  OAISessionID := non_empty (InOAISessionID inp) (OAISessionID i);
  OAIDeviceID := non_empty (InOAIDeviceID inp) (OAIDeviceID i);
  ClientID := non_empty (InClientID inp) (ClientID i);
  ChatGPTAccountID := non_empty (InChatGPTAccountID inp) (ChatGPTAccountID i);
  AccountType := non_empty (InAccountType inp) (AccountType i);
  PlanType := non_empty (InPlanType inp) (PlanType i);
  DailyImageQuota := if 0 <? InDailyImageQuota inp then InDailyImageQuota inp else DailyImageQuota i;
  AccStatus := non_empty (InStatus inp) (AccStatus i);
  AccNotes := InNotes inp |}.

Definition Update (id : N) (inp : Input) (rnd : Randomness) (now : Z) : DBM Account :=
  a <- GetByID loc id now ;;
  let i := updated_info (AccInfo a) inp rnd now in
  DAOUpdate id i ;;
  store_cookies id inp rnd ;;
  ret (with_info i a).

Definition Delete (id : N) (now : Z) : DBM unit := SoftDelete id now.
Definition Restore (id : N) (now : Z) : DBM Account := DAORestore id ;; GetByID loc id now.
Definition Purge (id : N) : DBM unit := DAOPurge id.
Definition BulkDeleteByStatus (status : string) (now : Z) : DBM N :=
  if String.eqb status "all" then SoftDeleteByStatus "" now else SoftDeleteByStatus status now.

Definition DecryptAuthToken (a : Account) : result string := decrypt (AuthTokenEnc (AccInfo a)).

Definition plain_or_empty (enc : string) : string :=
  if String.eqb enc "" then "" else match decrypt enc with Ok v => v | Err _ => "" end.

Definition GetSecrets (id : N) (now : Z) : DBM AccountSecrets :=
  a <- GetByID loc id now ;;
  ret {| SecAuthToken := plain_or_empty (AuthTokenEnc (AccInfo a));
         SecRefreshToken := plain_or_empty (default "" (RefreshTokenEnc (AccInfo a)));
         SecSessionToken := plain_or_empty (default "" (SessionTokenEnc (AccInfo a))) |}.

Definition DecryptCookies (accountID : N) : DBM string :=
  enc <- GetCookies accountID ;;
  if String.eqb enc "" then ret "" else
  match decrypt enc with Ok v => ret v | Err e => throw e end.
End service.

(** ** Which accounts a dispatch sees *)

Lemma elem_of_candidates now d id a :
  (id, a) ∈ candidates now d ↔ oai_accounts d !! id = Some a ∧ dispatchable now id a = true.
Proof. unfold candidates. by rewrite elem_of_sort_by, elem_of_rows_where. Qed.

Lemma NoDup_rows_where {Row} (get : database → gmap N Row) P d : NoDup (rows_where get P d).*1.
Proof.
  unfold rows_where. rewrite sort_by_Permutation.
  apply (NoDup_fmap_fst (filter (λ p : N * Row, P p.1 p.2 = true) (map_to_list (get d)))).
  - intros k r r' [_ H]%list_elem_of_filter [_ H']%list_elem_of_filter.
    apply elem_of_map_to_list in H, H'. congruence.
  - apply NoDup_filter, NoDup_map_to_list.
Qed.

Lemma dispatch_order_total p q : dispatch_order p q = true ∨ dispatch_order q p = true.
Proof.
  unfold dispatch_order, null_first.
  destruct (has_status _ p.2), (has_status _ q.2), (AccLastUsedAt (AccUse p.2)), (AccLastUsedAt (AccUse q.2));
    auto; lia.
Qed.

Lemma dispatch_order_trans p q r :
  dispatch_order p q = true → dispatch_order q r = true → dispatch_order p r = true.
Proof.
  unfold dispatch_order, null_first.
  destruct (has_status _ p.2), (has_status _ q.2), (has_status _ r.2), (AccLastUsedAt (AccUse p.2)),
    (AccLastUsedAt (AccUse q.2)), (AccLastUsedAt (AccUse r.2)); auto; try done; lia.
Qed.

Lemma candidates_sorted now d : StronglySorted (λ p q, dispatch_order p q = true) (candidates now d).
Proof. apply sort_by_sorted; [apply dispatch_order_total|apply dispatch_order_trans]. Qed.

Lemma NoDup_candidates now d : NoDup (candidates now d).*1.
Proof. unfold candidates. rewrite sort_by_Permutation. apply NoDup_rows_where. Qed.

(** The accounts a dispatch tries, in order: each at most once, only
    accounts that are not deleted, healthy or warned, out of their cooldown
    and with a token that has not expired; healthy ones first, and among
    those of the same kind the one that has rested longest; and every such
    account is tried, or the limit is reached by accounts before it. *)
Theorem ListDispatchable_spec loc limit now d :
  0 ≤ limit →
  let l := take (Z.to_nat limit) (candidates now d) in
  run (ListDispatchable loc limit now) d = (Ok (fillAll loc now l), d) ∧
  NoDup l.*1 ∧ StronglySorted (λ p q, dispatch_order p q = true) l ∧
  (∀ id a, (id, a) ∈ l → oai_accounts d !! id = Some a ∧ dispatchable now id a = true) ∧
  (∀ id a, oai_accounts d !! id = Some a → dispatchable now id a = true →
     (id, a) ∈ l ∨ Z.of_nat (length l) = limit ∧ ∀ p, p ∈ l → dispatch_order p (id, a) = true).
Proof.
  intros Hl l. pose proof (take_drop (Z.to_nat limit) (candidates now d)) as Hsplit. fold l in Hsplit.
  pose proof (candidates_sorted now d) as Hs. rewrite <-Hsplit in Hs.
  split_and!; [done| | | |].
  - pose proof (NoDup_candidates now d) as Hn. rewrite <-Hsplit, fmap_app in Hn. by apply NoDup_app in Hn as [? _].
  - by eapply StronglySorted_app_1_l.
  - intros id a Hin. apply elem_of_candidates. rewrite <-Hsplit, elem_of_app. by left.
  - intros id a Ha Hd. assert ((id, a) ∈ candidates now d) as Hin by by apply elem_of_candidates.
    rewrite <-Hsplit, elem_of_app in Hin. destruct Hin as [Hin|Hin]; [by left|right]. split.
    + unfold l. rewrite length_take. destruct (decide (Z.to_nat limit ≤ length (candidates now d))%nat); [lia|].
      rewrite drop_ge in Hin by lia. by apply not_elem_of_nil in Hin.
    + intros p Hp. exact (StronglySorted_app_1_elem_of _ _ _ _ _ Hs Hp Hin).
Qed.

(** ** Accounts that stay aside *)

Definition set_aside (id : N) (d : database) : Prop :=
  ∃ a, oai_accounts d !! id = Some a ∧ AccStatus (AccInfo a) = StatusThrottled.
Definition aside_on (id : N) (d d' : database) : Prop := set_aside id d → set_aside id d'.
#[export] Instance aside_on_preorder id : PreOrder (aside_on id).
Proof. split; [by intros d H|]. intros d1 d2 d3 H1 H2 H. auto. Qed.

(** What happens to the pool when all goes well, or when the upstream limits
    the rate: uses, rate limits, successful refreshes, refresh errors that do
    not condemn, probes, deductions, identifiers, bindings and cookies. *)
Inductive routine_op :=
  | OpUse (id : N) (today now : Z)
  | OpRateLimited (id : N) (until : Z)
  | OpRefreshed (id : N) (at_ rt : string) (exp : Z) (source : string) (now : Z)
  | OpRefreshError (id : N) (source reason : string) (now : Z)
  | OpProbed (id : N) (remaining total : Z) (resetAt : option Z) (now : Z)
  | OpDecr (id : N) (n : Z)
  | OpDevice (id : N) (v : string)
  | OpSession (id : N) (v : string)
  | OpBind (id proxy : N)
  | OpUnbind (id : N)
  | OpCookies (id : N) (enc : string).

Definition exec_routine (o : routine_op) : DBM unit :=
  match o with
  | OpUse id today now => MarkUsed id today now
  | OpRateLimited id until => SetStatus id StatusThrottled (Some until)
  | OpRefreshed id at_ rt exp source now => ApplyRefreshResult id at_ rt exp source now
  | OpRefreshError id source reason now => RecordRefreshError id source reason false now
  | OpProbed id remaining total resetAt now => ApplyQuotaResult id remaining total resetAt now
  | OpDecr id n => DecrQuota id n
  | OpDevice id v => EnsureDeviceID id v
  | OpSession id v => EnsureSessionID id v
  | OpBind id proxy => SetBinding id proxy
  | OpUnbind id => RemoveBinding id
  | OpCookies id enc => UpsertCookies id enc
  end.

Fixpoint exec_routines (os : list routine_op) (w : world database) : world database :=
  match os with [] => w | o :: os => exec_routines os (exec_routine o w).2 end.

Lemma update_account_aside id0 id where_ f :
  (∀ a a', f a = Ok a' → AccStatus (AccInfo a) = StatusThrottled → AccStatus (AccInfo a') = StatusThrottled) →
  Keeps (aside_on id0) (void (update_account id where_ f)).
Proof.
  intros Hf. unfold void. apply bind_keeps; [apply _| |intros; apply _].
  apply exec_keeps; [apply _|]. intros d n d'. unfold id_update.
  destruct (oai_accounts d !! id) as [a|] eqn:Ha; [|by intros [= _ <-]]. cbn.
  destruct (where_ a); [|by intros [= _ <-]].
  destruct (f a) as [a'|] eqn:Ef; [|done]. cbn. intros [= _ <-] (a0 & H0 & Hs).
  destruct (decide (id = id0)) as [->|Hne].
  - exists a'. cbn. rewrite lookup_insert_eq. split; [done|]. apply (Hf a); [done|]. congruence.
  - exists a0. cbn. by rewrite lookup_insert_ne.
Qed.

Lemma exec_routine_aside id o : Keeps (aside_on id) (exec_routine o).
Proof.
  destruct o; cbn [exec_routine];
    try (apply exec_keeps; [apply _|]; by intros d n d' [= _ <-] (a & Ha & Hs); exists a).
  - apply update_account_aside. intros a a'. unfold use_once.
    destruct (if bool_decide _ then _ else _) as [n|e]; [|done]. by intros [= <-].
  - apply update_account_aside. by intros a a' [= <-].
  - apply update_account_aside. intros a a' [= <-] Hs. cbn. unfold has_status. by rewrite Hs.
  - apply update_account_aside. by intros a a' [= <-].
  - apply update_account_aside. by intros a a' [= <-].
  - unfold DecrQuota. destruct (_ <=? _); [apply _|]. apply update_account_aside. by intros a a' [= <-].
  - apply update_account_aside. by intros a a' [= <-].
  - apply update_account_aside. by intros a a' [= <-].
Qed.

(** An account the upstream has rate-limited once is not tried again,
    however long its cooldown has been over, as long as all goes well: no
    use, refresh, probe or further rate limit, in any order and with any
    failures, brings it back.  (Only a failure that marks it warned or dead
    does, or the administrator.) *)
Theorem throttled_stays_aside id until d d1 os fs :
  run (SetStatus id StatusThrottled (Some until)) d = (Ok tt, d1) →
  is_Some (oai_accounts d !! id) →
  let d2 := w_db (exec_routines os (World d1 fs)) in
  set_aside id d2 ∧ ∀ now a, (id, a) ∉ candidates now d2.
Proof.
  intros Hr [a0 Ha0] d2.
  assert (Hset : set_aside id d1).
  { revert Hr. unfold SetStatus, void, update_account. rewrite (run_bind (exec _) _), (run_exec _ d).
    unfold id_update. rewrite Ha0. cbn. intros [= <-]. eexists. cbn. by rewrite lookup_insert_eq. }
  assert (Hkeep : ∀ w, set_aside id (w_db w) → set_aside id (w_db (exec_routines os w))).
  { induction os as [|o os IH]; intros w Hw; [done|]. cbn. apply IH.
    by apply (exec_routine_aside id o w). }
  assert (H2 : set_aside id d2) by (by apply Hkeep). split; [done|].
  destruct H2 as (a & Ha & Hs). intros now a' [Ha' Hd]%elem_of_candidates.
  rewrite Ha in Ha'. injection Ha' as <-. revert Hd. unfold dispatchable, has_status. rewrite Hs.
  cbn. by rewrite andb_false_r.
Qed.

(** ** Stored secrets *)

Section secrets.
Context (loc : location) {AEAD : Type}
        (Seal : AEAD → list ascii → list ascii → list ascii)
        (Open : AEAD → list ascii → list ascii → result (list ascii))
        (NonceSize Overhead : nat) (cipher : AEAD)
        (exp_claim : list ascii → option Z).

(** AES-GCM opens what it sealed; sealing adds the tag. *)
Hypothesis open_seal : ∀ n p, length n = NonceSize → Open cipher n (Seal cipher n p) = Ok p.
Hypothesis seal_length : ∀ n p, length (Seal cipher n p) = (length p + Overhead)%nat.

Lemma decrypt_encrypt nonce s :
  length nonce = NonceSize →
  decrypt Open NonceSize Overhead cipher (encrypt Seal cipher nonce s) = Ok s.
Proof. intros. unfold decrypt, encrypt. by apply DecryptString_EncryptString. Qed.

Lemma encrypt_empty nonce s : encrypt Seal cipher nonce s = "" → s = "".
Proof. by eapply EncryptString_empty. Qed.

Lemma plain_or_empty_encrypt nonce s :
  length nonce = NonceSize →
  plain_or_empty Open NonceSize Overhead cipher (encrypt Seal cipher nonce s) = s.
Proof.
  intros Hn. unfold plain_or_empty. destruct (String.eqb_spec (encrypt Seal cipher nonce s) "") as [He|_].
  - symmetry. by eapply encrypt_empty.
  - by rewrite decrypt_encrypt.
Qed.

Lemma plain_or_empty_opt nonce s :
  length nonce = NonceSize →
  plain_or_empty Open NonceSize Overhead cipher (default "" (encrypt_opt Seal cipher nonce s None)) = s.
Proof.
  intros Hn. unfold encrypt_opt. destruct (String.eqb_spec s "") as [->|_]; [done|].
  by apply plain_or_empty_encrypt.
Qed.

Lemma fill_info now a : AccInfo (fill loc now a) = AccInfo a ∧ AccDeletedAt (fill loc now a) = AccDeletedAt a.
Proof. unfold fill. by repeat case_match. Qed.

#[local] Instance store_cookies_transparent id inp rnd : Transparent (store_cookies Seal cipher id inp rnd).
Proof. unfold store_cookies, UpsertCookies. destruct (_ =? _)%string; apply _. Qed.
#[local] Instance GetByID_transparent id now : Transparent (GetByID loc id now).
Proof. unfold GetByID. apply _. Qed.

(** What the service leaves behind when it creates an account. *)
Lemma create_account_ok inp rnd now d id a d' :
  run (Create loc Seal cipher exp_claim inp rnd now) d = (Ok (id, a), d') →
  oai_accounts d !! id = None ∧
  oai_accounts d' !! id = Some (new_account (created_info Seal cipher exp_claim inp rnd now)) ∧
  (InCookies inp ≠ "" → oai_account_cookies d' !! id = Some (encrypt Seal cipher (nonce_cookies rnd) (InCookies inp))).
Proof.
  unfold Create. destruct (_ || _); [done|].
  rewrite (run_bind (DAOCreate _) _). unfold DAOCreate. rewrite (run_exec _ d). unfold insert_account.
  destruct (email_taken _ _ d); [done|]. set (id0 := auto_id (oai_accounts d)).
  rewrite (run_bind (store_cookies _ _ _ _ _) _).
  unfold store_cookies, UpsertCookies.
  destruct (String.eqb_spec (InCookies inp) "") as [He|Hne].
  - rewrite (run_ret tt). rewrite (run_bind (GetByID _ _ _) _). unfold GetByID. rewrite (run_query _ _). cbn [oai_accounts with_oai_accounts].
    rewrite lookup_insert_eq. cbn. intros [= <- _ <-]. split_and!; [apply auto_id_fresh| |done].
    cbn. by rewrite lookup_insert_eq.
  - rewrite (run_exec _ _). rewrite (run_bind (GetByID _ _ _) _). unfold GetByID. rewrite (run_query _ _). cbn.
    rewrite lookup_insert_eq. cbn. intros [= <- _ <-]. split_and!; [apply auto_id_fresh| |].
    + cbn. by rewrite lookup_insert_eq.
    + intros _. cbn. by rewrite lookup_insert_eq.
Qed.

(** The column of a token that need not be there. *)
Definition sealed_column (nonce : list ascii) (token : string) : option string :=
  if String.eqb token "" then None else Some (encrypt Seal cipher nonce token).

(** C36: secrets are sealed, and come back.  What an administrator hands in when
    he creates an account goes into the tables as the seal of each token and of
    the cookies, under the nonce drawn for it, and absent ones as NULL; it is
    what the pages that edit the account are given later, token by token and
    absent ones as empty, and what a dispatch sends upstream. *)
Theorem secrets_roundtrip inp rnd now now' d id a d' :
  run (Create loc Seal cipher exp_claim inp rnd now) d = (Ok (id, a), d') →
  Forall (λ n, length n = NonceSize) [nonce_at rnd; nonce_rt rnd; nonce_st rnd; nonce_cookies rnd] →
  run (GetSecrets loc Open NonceSize Overhead cipher id now') d' =
    (Ok {| SecAuthToken := InAuthToken inp; SecRefreshToken := InRefreshToken inp;
           SecSessionToken := InSessionToken inp |}, d') ∧
  (∃ row, oai_accounts d' !! id = Some row ∧
     AuthTokenEnc (AccInfo row) = encrypt Seal cipher (nonce_at rnd) (InAuthToken inp) ∧
     RefreshTokenEnc (AccInfo row) = sealed_column (nonce_rt rnd) (InRefreshToken inp) ∧
     SessionTokenEnc (AccInfo row) = sealed_column (nonce_st rnd) (InSessionToken inp) ∧
     DecryptAuthToken Open NonceSize Overhead cipher row = Ok (InAuthToken inp)) ∧
  (InCookies inp ≠ "" →
     oai_account_cookies d' !! id = Some (encrypt Seal cipher (nonce_cookies rnd) (InCookies inp)) ∧
     run (DecryptCookies Open NonceSize Overhead cipher id) d' = (Ok (InCookies inp), d')).
Proof.
  intros (Hf & Ha & Hc)%create_account_ok Hn. rewrite !Forall_cons in Hn. destruct Hn as (H1 & H2 & H3 & H4 & _).
  split_and!.
  - unfold GetSecrets. rewrite (run_bind (GetByID _ _ _) _). unfold GetByID. rewrite (run_query _ _), Ha.
    change (active (new_account _)) with true. cbn iota.
    rewrite run_ret, (proj1 (fill_info _ _)). cbn [AccInfo new_account created_info AuthTokenEnc RefreshTokenEnc SessionTokenEnc].
    by rewrite plain_or_empty_encrypt, !plain_or_empty_opt.
  - eexists. split; [exact Ha|]. split_and!; [done..|]. by apply decrypt_encrypt.
  - intros Hne. specialize (Hc Hne). split; [exact Hc|]. unfold DecryptCookies. rewrite (run_bind (GetCookies _) _).
    unfold GetCookies. rewrite (run_query _ _), Hc. cbn [default from_option]; unfold Datatypes.id.
    destruct (String.eqb_spec (encrypt Seal cipher (nonce_cookies rnd) (InCookies inp)) "") as [He|_].
    + by apply encrypt_empty in He.
    + by rewrite decrypt_encrypt.
Qed.
End secrets.

(** ** Witnesses *)

Definition sample_input (email : string) : Input := {|
  InEmail := email; InAuthToken := "eyJ0.eyJleHAiOjF9.x"; InRefreshToken := "rt-1"; InSessionToken := "";
  InTokenExpiresAt := zero_time; InOAISessionID := ""; InOAIDeviceID := ""; InClientID := "";
  InChatGPTAccountID := ""; InAccountType := ""; InPlanType := ""; InDailyImageQuota := 0; InStatus := "";
  InNotes := ""; InCookies := "[]" |}.
Definition sample_randomness : Randomness := {|
  nonce_at := sample_nonce "a"; nonce_rt := sample_nonce "b"; nonce_st := sample_nonce "c";
  nonce_cookies := sample_nonce "d"; uuid_device := "device-1" |}.
Definition create_sample (email : string) (d : database) : result (N * Account) * database :=
  run (Create UTC toy_seal tt (λ _, Some 5) (sample_input email) sample_randomness 0) d.
Definition pool_db : database := (create_sample "b@x" (create_sample "a@x" empty_database).2).2.

Example pool_db_candidates : map fst (candidates 1000 pool_db) = [1; 2]%N.
Proof. by vm_compute. Qed.

Lemma ListDispatchable_spec_witness : NoDup (take 1 (candidates 1000 pool_db)).*1.
Proof. by destruct (ListDispatchable_spec UTC 1 1000 pool_db) as (_ & H & _). Defined.

Definition throttled_db : database := (run (SetStatus 1 StatusThrottled (Some 1000)) pool_db).2.
Lemma throttled_stays_aside_witness :
  set_aside 1 (w_db (exec_routines
    [OpUse 1 0 2000; OpRefreshed 1 "at" "" 9000 "rt" 3000; OpProbed 1 5 10 None 4000] (World throttled_db [true]))).
Proof.
  destruct (throttled_stays_aside 1 1000 pool_db throttled_db
    [OpUse 1 0 2000; OpRefreshed 1 "at" "" 9000 "rt" 3000; OpProbed 1 5 10 None 4000] [true]) as [H _].
  - by vm_compute.
  - eexists. vm_compute. reflexivity.
  - exact H.
Defined.

Lemma secrets_roundtrip_witness :
  (run (GetSecrets UTC toy_open 12 16 tt 2 77) pool_db).1 =
  Ok {| SecAuthToken := "eyJ0.eyJleHAiOjF9.x"; SecRefreshToken := "rt-1"; SecSessionToken := "" |}.
Proof.
  pose (r := create_sample "b@x" (create_sample "a@x" empty_database).2).
  assert (Hr : ∃ a, r = (Ok (2%N, a), pool_db)) by (eexists; vm_compute; reflexivity).
  destruct Hr as [a Hr].
  destruct (secrets_roundtrip UTC toy_seal toy_open 12 16 tt (λ _, Some 5)) with
    (inp := sample_input "b@x") (rnd := sample_randomness) (now := 0) (now' := 77)
    (d := (create_sample "a@x" empty_database).2) (id := 2%N) (a := a) (d' := pool_db) as (H & _ & _).
  - apply toy_open_seal.
  - apply toy_seal_length.
  - exact Hr.
  - by repeat constructor.
  - by rewrite H.
Defined.
