(* ===== verification/Channels.v ===== *)
(** * Third-party channels (internal/channel)

    The providers a model can be served by instead of the account pool: the
    tables upstream_channels and channel_model_mappings, the service that
    encrypts the keys and counts failures, and the router that orders the
    candidates.  The adapters' own HTTP exchanges are not modelled: an
    [Adapter] is what it was built from.  MySQL's JSON columns are a
    parameter: [json_column] normalises a document or refuses it. *)

From S2P Require Import Prelude GoStrings Sql Schema Crypto.
From Stdlib Require Import QArith.
#[local] Open Scope Z_scope.

Definition TypeOpenAI : string := "openai".
Definition TypeGemini : string := "gemini".
Definition ModalityText : string := "text".
Definition ModalityImage : string := "image".
Definition ModalityVideo : string := "video".
Definition StatusHealthy : string := "healthy".
Definition StatusUnhealthy : string := "unhealthy".

Definition ErrNotFound : goerr := Sentinel "channel: not found".
Definition ErrNoRoute : goerr := Sentinel "channel: no route".

Definition ch_live (c : ChannelRow) : bool := bool_decide (ChDeletedAt c = None).

(** ** The DAO *)

Section dao.
Context (json_column : string → option string).

Definition with_extra (x : option string) (c : ChannelRow) : ChannelRow := {|
  ChName := ChName c; ChType := ChType c; BaseURL := BaseURL c; APIKeyEnc := APIKeyEnc c;
  ChEnabled := ChEnabled c; ChPriority := ChPriority c; Weight := Weight c; TimeoutS := TimeoutS c;
  ChRatio := ChRatio c; Extra := x; ChStatus := ChStatus c; FailCount := FailCount c;
  LastTestAt := LastTestAt c; LastTestOK := LastTestOK c; LastTestError := LastTestError c;
  ChRemark := ChRemark c; ChDeletedAt := ChDeletedAt c |}.

Definition DAOCreate (c : ChannelRow) : DBM N :=
  exec (λ d, x <-? json_value json_column (Extra c) ;;
             let id := auto_id (upstream_channels d) in
             Ok (id, with_upstream_channels <[id := with_extra x c]> d)).

(** The columns an UPDATE sets; the health of the row stays. *)
Definition with_columns (c old : ChannelRow) : ChannelRow := {|
  ChName := ChName c; ChType := ChType c; BaseURL := BaseURL c; APIKeyEnc := APIKeyEnc c;
  ChEnabled := ChEnabled c; ChPriority := ChPriority c; Weight := Weight c; TimeoutS := TimeoutS c;
  ChRatio := ChRatio c; Extra := Extra c; ChStatus := ChStatus old; FailCount := FailCount old;
  LastTestAt := LastTestAt old; LastTestOK := LastTestOK old; LastTestError := LastTestError old;
  ChRemark := ChRemark c; ChDeletedAt := ChDeletedAt old |}.

Definition update_channel (id : N) (where_ : ChannelRow → bool) (upd : ChannelRow → result ChannelRow) : DBM N :=
  exec (id_update upstream_channels with_upstream_channels id (λ c, Ok (where_ c)) upd).

Definition DAOUpdate (id : N) (c : ChannelRow) : DBM unit :=
  update_channel id ch_live (λ old, x <-? json_value json_column (Extra c) ;; Ok (with_extra x (with_columns c old))) ;;
  ret tt.

Definition with_deleted (t : option Z) (c : ChannelRow) : ChannelRow := {|
  ChName := ChName c; ChType := ChType c; BaseURL := BaseURL c; APIKeyEnc := APIKeyEnc c;
  ChEnabled := ChEnabled c; ChPriority := ChPriority c; Weight := Weight c; TimeoutS := TimeoutS c;
  ChRatio := ChRatio c; Extra := Extra c; ChStatus := ChStatus c; FailCount := FailCount c;
  LastTestAt := LastTestAt c; LastTestOK := LastTestOK c; LastTestError := LastTestError c;
  ChRemark := ChRemark c; ChDeletedAt := t |}.

Definition SoftDelete (id : N) (now : Z) : DBM unit :=
  update_channel id (λ _, true) (λ c, Ok (with_deleted (Some now) c)) ;; ret tt.

Definition GetByID (id : N) : DBM ChannelRow :=
  query (λ d, match upstream_channels d !! id with
              | Some c => if ch_live c then Ok c else Err ErrNotFound
              | None => Err ErrNotFound
              end).

(** [ORDER BY priority ASC, id ASC] of rows that come by id. *)
Definition by_priority (p q : N * ChannelRow) : bool := ChPriority p.2 <=? ChPriority q.2.

Definition List_ (offset limit : Z) : DBM (list (N * ChannelRow) * Z) :=
  total <- query (λ d, Ok (Z.of_nat (length (rows_where upstream_channels (λ _, ch_live) d)))) ;;
  rows <- query (λ d, Ok (page offset limit (sort_by by_priority (rows_where upstream_channels (λ _, ch_live) d)))) ;;
  ret (rows, total).

Definition ListEnabled : DBM (list (N * ChannelRow)) :=
  query (λ d, Ok (sort_by by_priority (rows_where upstream_channels (λ _ c, ch_live c && ChEnabled c) d))).

Definition with_health (ok : bool) (err : string) (failCount : Z) (status : string) (now : Z)
    (c : ChannelRow) : ChannelRow := {|
  ChName := ChName c; ChType := ChType c; BaseURL := BaseURL c; APIKeyEnc := APIKeyEnc c;
  ChEnabled := ChEnabled c; ChPriority := ChPriority c; Weight := Weight c; TimeoutS := TimeoutS c;
  ChRatio := ChRatio c; Extra := Extra c; ChStatus := status; FailCount := failCount;
  LastTestAt := Some now; LastTestOK := Some ok; LastTestError := string_take 500 err;
  ChRemark := ChRemark c; ChDeletedAt := ChDeletedAt c |}.

Definition UpdateHealth (id : N) (ok : bool) (errMsg : string) (failCount : Z) (status : string) (now : Z) : DBM unit :=
  update_channel id (λ _, true) (λ c, n <-? int32 failCount ;; Ok (with_health ok errMsg n status now c)) ;;
  ret tt.

(** *** Mappings *)

(** uk_channel_local_modality *)
Definition mapping_taken (id : N) (m : Mapping) (d : database) : bool :=
  existsb (λ p : N * Mapping, negb (p.1 =? id)%N && (ChannelID p.2 =? ChannelID m)%N &&
             String.eqb (LocalModel p.2) (LocalModel m) && String.eqb (Modality p.2) (Modality m))
    (map_to_list (channel_model_mappings d)).

Definition DAOCreateMapping (m : Mapping) : DBM N :=
  exec (λ d,
    let id := auto_id (channel_model_mappings d) in
    if mapping_taken id m d then Err (EMySQL 1062) else
    match upstream_channels d !! ChannelID m with
    | None => Err (EMySQL 1452)
    | Some _ => Ok (id, with_channel_model_mappings <[id := m]> d)
    end).

Definition mapped (m old : Mapping) : Mapping := {|
  ChannelID := ChannelID old; LocalModel := LocalModel m; UpstreamModel := UpstreamModel m;
  Modality := Modality m; MapEnabled := MapEnabled m; MapPriority := MapPriority m |}.

Definition DAOUpdateMapping (id : N) (m : Mapping) : DBM unit :=
  exec (λ d, match channel_model_mappings d !! id with
             | None => Ok (0%N, d)
             | Some old => if mapping_taken id (mapped m old) d then Err (EMySQL 1062)
                           else Ok (1%N, with_channel_model_mappings <[id := mapped m old]> d)
             end) ;;
  ret tt.

Definition DAODeleteMapping (id : N) : DBM unit :=
  exec (λ d, Ok (tt, with_channel_model_mappings (delete id) d)).
Definition DeleteMappingsByChannel (channelID : N) : DBM unit :=
  exec (λ d, Ok (tt, with_channel_model_mappings (filter (λ p : N * Mapping, ChannelID p.2 ≠ channelID)) d)).

Definition by_map_priority (p q : N * Mapping) : bool := MapPriority p.2 <=? MapPriority q.2.
Definition ListMappingsByChannel (channelID : N) : DBM (list (N * Mapping)) :=
  query (λ d, Ok (sort_by by_map_priority
                    (rows_where channel_model_mappings (λ _ m, (ChannelID m =? channelID)%N) d))).

(** A mapping with its channel: the join of the routing query. *)
Record candidate := {
  cand_id : N;
  cand_mapping : Mapping;
  cand_channel_id : N;
  cand_channel : ChannelRow
}.

Definition route_order (p q : candidate) : bool :=
  (ChPriority (cand_channel p) <? ChPriority (cand_channel q)) ||
  ((ChPriority (cand_channel p) =? ChPriority (cand_channel q)) &&
   ((MapPriority (cand_mapping p) <? MapPriority (cand_mapping q)) ||
    ((MapPriority (cand_mapping p) =? MapPriority (cand_mapping q)) && (cand_id p <=? cand_id q)%N))).

Definition route_join (d : database) (p : N * Mapping) : option candidate :=
  match upstream_channels d !! ChannelID p.2 with
  | Some c => if ChEnabled c && ch_live c then
                Some {| cand_id := p.1; cand_mapping := p.2; cand_channel_id := ChannelID p.2; cand_channel := c |}
              else None
  | None => None
  end.

Definition route_where (localModel modality : string) (_ : N) (m : Mapping) : bool :=
  String.eqb (LocalModel m) localModel && String.eqb (Modality m) modality && MapEnabled m.

Definition candidates (localModel modality : string) (d : database) : list candidate :=
  sort_by route_order (omap (route_join d) (rows_where channel_model_mappings (route_where localModel modality) d)).

Definition ResolveByLocalModel (localModel modality : string) : DBM (list candidate) :=
  query (λ d, Ok (candidates localModel modality d)).
End dao.

(** ** The service *)

Record ChannelInput := {
  InName : string;
  InType : string;
  InBaseURL : string;
  InAPIKey : string;
  InChEnabled : bool;
  InPriority : Z;
  InWeight : Z;
  InTimeoutS : Z;
  InRatio : Q;
  InExtra : string;
  InChRemark : string
}.

(** A channel with the fields [decorate] adds. *)
Record Decorated := {
  DecChannel : ChannelRow;
  APIKeyMasked : string;
  ExtraJSON : string
}.

Definition validType (t : string) : bool := String.eqb t TypeOpenAI || String.eqb t TypeGemini.
Definition validModality (m : string) : bool :=
  String.eqb m ModalityText || String.eqb m ModalityImage || String.eqb m ModalityVideo.

Definition stars (n : nat) : string := of_bytes (repeat "*"%char n).
Definition maskKey (s : string) : string :=
  if Nat.leb (String.length s) 8 then stars (String.length s)
  else string_take 4 s +:+ "****" +:+ string_drop (String.length s - 4) s.

Section service.
Context (json_column : string → option string).
Context {AEAD : Type}
        (Seal : AEAD → list ascii → list ascii → list ascii)
        (Open : AEAD → list ascii → list ascii → result (list ascii))
        (NonceSize Overhead : nat) (cipher : AEAD).

Definition DecryptKey (c : ChannelRow) : result string :=
  if String.eqb (APIKeyEnc c) "" then Ok "" else DecryptString Open NonceSize Overhead cipher (APIKeyEnc c).

Definition decorate (c : ChannelRow) : Decorated := {|
  DecChannel := c;
  APIKeyMasked :=
    if String.eqb (APIKeyEnc c) "" then ""
    else match DecryptString Open NonceSize Overhead cipher (APIKeyEnc c) with
         | Ok pt => maskKey pt
         | Err _ => "(invalid)"
         end;
  ExtraJSON := default "" (Extra c) |}.

Definition Get (id : N) : DBM Decorated := c <- GetByID id ;; ret (decorate c).
Definition ListChannels (offset limit : Z) : DBM (list (N * Decorated) * Z) :=
  r <- List_ offset limit ;; ret (map (λ p, (p.1, decorate p.2)) r.1, r.2).

Definition type_error : goerr := EMsg ("type 只能是 " +:+ TypeOpenAI +:+ " / " +:+ TypeGemini).

Definition created_channel (inp : ChannelInput) (nonce : list ascii) : ChannelRow := {|
  ChName := InName inp; ChType := InType inp; BaseURL := InBaseURL inp;
  APIKeyEnc := EncryptString Seal cipher nonce (InAPIKey inp); ChEnabled := InChEnabled inp;
  ChPriority := if InPriority inp <? 0 then 100 else InPriority inp;
  Weight := if InWeight inp <=? 0 then 1 else InWeight inp;
  TimeoutS := if InTimeoutS inp <=? 0 then 120 else InTimeoutS inp;
  ChRatio := if Qle_bool (InRatio inp) 0 then 1 else InRatio inp;
  Extra := if String.eqb (InExtra inp) "" then None else Some (InExtra inp);
  ChStatus := StatusHealthy; FailCount := 0; LastTestAt := None; LastTestOK := None; LastTestError := "";
  ChRemark := InChRemark inp; ChDeletedAt := None |}.

Definition Create (inp : ChannelInput) (nonce : list ascii) : DBM (N * Decorated) :=
  if String.eqb (TrimSpace (InName inp)) "" then throw (EMsg "name 不能为空") else
  if negb (validType (InType inp)) then throw type_error else
  if String.eqb (TrimSpace (InBaseURL inp)) "" then throw (EMsg "base_url 不能为空") else
  if String.eqb (TrimSpace (InAPIKey inp)) "" then throw (EMsg "api_key 不能为空") else
  id <- DAOCreate json_column (created_channel inp nonce) ;;
  c <- Get id ;;
  ret (id, c).

Definition updated_channel (c : ChannelRow) (inp : ChannelInput) (nonce : list ascii) : ChannelRow := {|
  ChName := if String.eqb (InName inp) "" then ChName c else InName inp;
  ChType := if String.eqb (InType inp) "" then ChType c else InType inp;
  BaseURL := if String.eqb (InBaseURL inp) "" then BaseURL c else InBaseURL inp;
  APIKeyEnc := if String.eqb (InAPIKey inp) "" then APIKeyEnc c
               else EncryptString Seal cipher nonce (InAPIKey inp);
  ChEnabled := InChEnabled inp;
  ChPriority := if 0 <=? InPriority inp then InPriority inp else ChPriority c;
  Weight := if 0 <? InWeight inp then InWeight inp else Weight c;
  TimeoutS := if 0 <? InTimeoutS inp then InTimeoutS inp else TimeoutS c;
  ChRatio := if Qle_bool (InRatio inp) 0 then ChRatio c else InRatio inp;
  Extra := if String.eqb (InExtra inp) "" then None else Some (InExtra inp);
  ChStatus := ChStatus c; FailCount := FailCount c; LastTestAt := LastTestAt c; LastTestOK := LastTestOK c;
  LastTestError := LastTestError c; ChRemark := InChRemark inp; ChDeletedAt := ChDeletedAt c |}.

Definition Update (id : N) (inp : ChannelInput) (nonce : list ascii) : DBM Decorated :=
  c <- GetByID id ;;
  if negb (String.eqb (InType inp) "") && negb (validType (InType inp)) then throw type_error else
  DAOUpdate json_column id (updated_channel c inp nonce) ;;
  Get id.

Definition Delete (id : N) (now : Z) : DBM unit := SoftDelete id now.

Record MappingInput := {
  InChannelID : N;
  InLocalModel : string;
  InUpstreamModel : string;
  InModality : string;
  InMapEnabled : bool;
  InMapPriority : Z
}.

Definition modality_or_text (inp : MappingInput) : string :=
  if String.eqb (InModality inp) "" then ModalityText else InModality inp.

Definition CreateMapping (inp : MappingInput) : DBM (N * Mapping) :=
  if (InChannelID inp =? 0)%N then throw (EMsg "channel_id 不能为空") else
  if String.eqb (TrimSpace (InLocalModel inp)) "" then throw (EMsg "local_model 不能为空") else
  if String.eqb (TrimSpace (InUpstreamModel inp)) "" then throw (EMsg "upstream_model 不能为空") else
  if negb (validModality (modality_or_text inp)) then throw (EMsg "modality 只能是 text / image / video") else
  let m := {| ChannelID := InChannelID inp; LocalModel := InLocalModel inp; UpstreamModel := InUpstreamModel inp;
              Modality := modality_or_text inp; MapEnabled := InMapEnabled inp;
              MapPriority := if InMapPriority inp <? 0 then 100 else InMapPriority inp |} in
  id <- DAOCreateMapping m ;;
  ret (id, m).

(** The answer carries no channel. *)
Definition UpdateMapping (id : N) (inp : MappingInput) : DBM Mapping :=
  if negb (validModality (modality_or_text inp)) then throw (EMsg "modality 只能是 text / image / video") else
  let m := {| ChannelID := 0; LocalModel := InLocalModel inp; UpstreamModel := InUpstreamModel inp;
              Modality := modality_or_text inp; MapEnabled := InMapEnabled inp; MapPriority := InMapPriority inp |} in
  DAOUpdateMapping id m ;;
  ret m.

Definition DeleteMapping (id : N) : DBM unit := DAODeleteMapping id.
Definition ListMappings (channelID : N) : DBM (list (N * Mapping)) := ListMappingsByChannel channelID.

(** [c] is the row as the caller read it. *)
Definition MarkHealth (id : N) (c : ChannelRow) (ok : bool) (errMsg : string) (now : Z) : DBM unit :=
  if ok then UpdateHealth id true errMsg 0 StatusHealthy now
  else
    let failCount := FailCount c + 1 in
    UpdateHealth id false errMsg failCount (if 3 <=? failCount then StatusUnhealthy else ChStatus c) now.

(** ** The router *)

(** What [adapter.New] builds an adapter from. *)
Record Adapter := {
  AdType : string;
  AdBaseURL : string;
  AdAPIKey : string;
  AdTimeoutS : Z;
  AdExtra : string
}.

Definition adapter_New (typ baseURL key : string) (timeoutS : Z) (extra : string) : result Adapter :=
  if String.eqb typ "openai" || String.eqb typ "gemini"
  then Ok {| AdType := typ; AdBaseURL := baseURL; AdAPIKey := key; AdTimeoutS := timeoutS; AdExtra := extra |}
  else Err (EMsg ("adapter: unsupported type " +:+ typ)).

Record Route := {
  RtChannelID : N;
  RtChannel : ChannelRow;
  RtMapping : Mapping;
  RtUpstreamModel : string;
  RtAdapter : Adapter
}.

Definition channel_adapter (c : ChannelRow) : result Adapter :=
  key <-? DecryptKey c ;;
  adapter_New (ChType c) (BaseURL c) key (TimeoutS c) (default "" (Extra c)).

Definition route_of (mw : candidate) : option Route :=
  match channel_adapter (cand_channel mw) with
  | Ok ad => Some {| RtChannelID := cand_channel_id mw; RtChannel := cand_channel mw; RtMapping := cand_mapping mw;
                     RtUpstreamModel := UpstreamModel (cand_mapping mw); RtAdapter := ad |}
  | Err _ => None
  end.

Definition unhealthy (r : Route) : bool := String.eqb (ChStatus (RtChannel r)) StatusUnhealthy.

(** The healthy routes first, both parts in the order of the query. *)
Definition ordered (routes : list Route) : list Route :=
  filter (λ r, unhealthy r = false) routes ++ filter (λ r, unhealthy r = true) routes.

Definition Resolve (localModel modality : string) : DBM (list Route) :=
  mws <- ResolveByLocalModel localModel modality ;;
  if bool_decide (length mws = 0%nat) then throw ErrNoRoute else
  let routes := omap route_of mws in
  if bool_decide (length routes = 0%nat) then throw ErrNoRoute else
  ret (ordered routes).

Definition BuildAdapter (channelID : N) : DBM (Adapter * ChannelRow) :=
  c <- GetByID channelID ;;
  match DecryptKey c with
  | Err e => throw (EWrap "decrypt key" e)
  | Ok key =>
      match adapter_New (ChType c) (BaseURL c) key (TimeoutS c) (default "" (Extra c)) with
      | Err e => throw e
      | Ok ad => ret (ad, c)
      end
  end.
End service.

(** ** Which routes a request tries, and in which order *)

Section routing.
Context {AEAD : Type} (Open : AEAD → list ascii → list ascii → result (list ascii))
        (NonceSize Overhead : nat) (cipher : AEAD).

Abbreviation adapter_of := (channel_adapter Open NonceSize Overhead cipher).

(** A route the tables promise for a model and a modality. *)
Definition servable (localModel modality : string) (d : database) (r : Route) : Prop :=
  ∃ id, channel_model_mappings d !! id = Some (RtMapping r) ∧
    LocalModel (RtMapping r) = localModel ∧ Modality (RtMapping r) = modality ∧
    MapEnabled (RtMapping r) = true ∧ ChannelID (RtMapping r) = RtChannelID r ∧
    RtUpstreamModel r = UpstreamModel (RtMapping r) ∧
    upstream_channels d !! RtChannelID r = Some (RtChannel r) ∧
    ChEnabled (RtChannel r) = true ∧ ChDeletedAt (RtChannel r) = None ∧
    adapter_of (RtChannel r) = Ok (RtAdapter r).

(** [r] may be tried before [r']. *)
Definition preferred (r r' : Route) : Prop :=
  ChPriority (RtChannel r) < ChPriority (RtChannel r') ∨
  ChPriority (RtChannel r) = ChPriority (RtChannel r') ∧ MapPriority (RtMapping r) ≤ MapPriority (RtMapping r').
Definition before (r r' : Route) : Prop :=
  unhealthy r = false ∧ unhealthy r' = true ∨ unhealthy r = unhealthy r' ∧ preferred r r'.

Lemma route_order_total p q : route_order p q = true ∨ route_order q p = true.
Proof.
  unfold route_order. rewrite !orb_true_iff, !andb_true_iff, !orb_true_iff, !andb_true_iff, !Z.ltb_lt, !Z.eqb_eq, !N.leb_le. lia.
Qed.
Lemma route_order_trans p q r : route_order p q = true → route_order q r = true → route_order p r = true.
Proof.
  unfold route_order. rewrite !orb_true_iff, !andb_true_iff, !orb_true_iff, !andb_true_iff, !Z.ltb_lt, !Z.eqb_eq, !N.leb_le. lia.
Qed.

Lemma StronglySorted_omap {A B} (P : relation A) (Q : relation B) (f : A → option B) l :
  (∀ x y a b, P x y → f x = Some a → f y = Some b → Q a b) →
  StronglySorted P l → StronglySorted Q (omap f l).
Proof.
  intros HPQ. induction 1 as [|x l Hl IH Hx]; [constructor|]. cbn. destruct (f x) as [a|] eqn:E; [|done].
  constructor; [done|]. apply Forall_forall. intros b Hb. apply list_elem_of_omap in Hb as (y & Hy & Ey).
  rewrite Forall_forall in Hx. eauto.
Qed.

Lemma StronglySorted_filter {A} (P : relation A) (F : A → Prop) `{!∀ x, Decision (F x)} l :
  StronglySorted P l → StronglySorted P (filter F l).
Proof.
  induction 1 as [|x l Hl IH Hx]; [constructor|]. rewrite filter_cons. case_decide; [|done].
  constructor; [done|]. rewrite Forall_forall in Hx |- *. intros y [_ Hy]%list_elem_of_filter. auto.
Qed.

Lemma StronglySorted_app_2 {A} (P : relation A) l k :
  StronglySorted P l → StronglySorted P k → (∀ x y, x ∈ l → y ∈ k → P x y) → StronglySorted P (l ++ k).
Proof.
  intros Hl Hk H. induction Hl as [|x l Hl IH Hx]; [done|]. cbn. constructor.
  - apply IH. intros y z Hy Hz. apply H; [by right|done].
  - rewrite Forall_forall in Hx |- *. intros y [Hy|Hy]%elem_of_app; [auto|]. apply H; [left|done].
Qed.

Lemma StronglySorted_weaken {A} (P Q : relation A) l :
  (∀ x y, x ∈ l → y ∈ l → P x y → Q x y) → StronglySorted P l → StronglySorted Q l.
Proof.
  intros H. induction 1 as [|x l Hl IH Hx]; [constructor|]. constructor.
  - apply IH. intros y z Hy Hz. apply H; by right.
  - rewrite Forall_forall in Hx |- *. intros y Hy. apply H; [left|by right|auto].
Qed.

Abbreviation routes lm md d := (omap (route_of Open NonceSize Overhead cipher) (candidates lm md d)).

Lemma routes_sorted lm md d : StronglySorted preferred (routes lm md d).
Proof.
  apply (StronglySorted_omap (λ p q, route_order p q = true)).
  - intros p q a b Hpq. unfold route_of.
    destruct (adapter_of (cand_channel p)); [|done]. destruct (adapter_of (cand_channel q)); [|done].
    intros [= <-] [= <-]. unfold preferred, route_order in *. cbn [RtChannel RtMapping]. lia.
  - apply sort_by_sorted; [apply route_order_total|apply route_order_trans].
Qed.

Lemma elem_of_routes lm md d r : r ∈ routes lm md d ↔ servable lm md d r.
Proof.
  rewrite list_elem_of_omap. unfold candidates, servable. split.
  - intros (p & Hp & Hr). rewrite elem_of_sort_by, list_elem_of_omap in Hp. destruct Hp as ([id m] & Hm & Hj).
    apply elem_of_rows_where in Hm as [Hm Hw]. unfold route_where in Hw. unfold route_join in Hj. cbn in Hj, Hw.
    destruct (upstream_channels d !! ChannelID m) as [c|] eqn:Ec; [|done].
    destruct (ChEnabled c) eqn:Een; [|done]. destruct (ch_live c) eqn:El; [|done]. injection Hj as <-.
    unfold route_of in Hr. cbn in Hr. destruct (adapter_of c) as [ad|] eqn:Ea; [|done]. injection Hr as <-. cbn.
    apply andb_true_iff in Hw as [[H1%String.eqb_eq H2%String.eqb_eq]%andb_true_iff H3].
    apply bool_decide_eq_true in El. exists id. by split_and!.
  - intros (id & Hm & Hlm & Hmd & Hen & Hch & Hup & Hc & Hce & Hdel & Had).
    exists {| cand_id := id; cand_mapping := RtMapping r; cand_channel_id := RtChannelID r; cand_channel := RtChannel r |}.
    split.
    + rewrite elem_of_sort_by, list_elem_of_omap. exists (id, RtMapping r). split.
      * apply elem_of_rows_where. split; [done|]. unfold route_where. by rewrite Hlm, Hmd, Hen, !String.eqb_refl.
      * unfold route_join. cbn. rewrite Hch, Hc, Hce. unfold ch_live. by rewrite Hdel.
    + unfold route_of. cbn. rewrite Had, <-Hup. by destruct r.
Qed.

Lemma elem_of_ordered r l : r ∈ ordered l ↔ r ∈ l.
Proof.
  unfold ordered. rewrite elem_of_app, !list_elem_of_filter. destruct (unhealthy r); naive_solver.
Qed.

Lemma ordered_sorted l : StronglySorted preferred l → StronglySorted before (ordered l).
Proof.
  intros Hl. apply StronglySorted_app_2.
  - eapply StronglySorted_weaken; [|by apply StronglySorted_filter].
    intros x y [Hx _]%list_elem_of_filter [Hy _]%list_elem_of_filter H. right. split; [congruence|done].
  - eapply StronglySorted_weaken; [|by apply StronglySorted_filter].
    intros x y [Hx _]%list_elem_of_filter [Hy _]%list_elem_of_filter H. right. split; [congruence|done].
  - intros x y [Hx _]%list_elem_of_filter [Hy _]%list_elem_of_filter. by left.
Qed.

(** C29: the routes of a model are exactly the enabled mappings of that model
    and modality to an enabled channel that is not deleted and whose key
    opens, healthy channels before unhealthy ones and by priority within each
    group; without any such route the answer is [ErrNoRoute], and nothing is
    written. *)
Theorem Resolve_spec lm md d :
  ∃ rs, (∀ r, r ∈ rs ↔ servable lm md d r) ∧ StronglySorted before rs ∧
    run (Resolve Open NonceSize Overhead cipher lm md) d =
      (if bool_decide (rs = []) then Err ErrNoRoute else Ok rs, d).
Proof.
  exists (ordered (routes lm md d)). split_and!.
  - intros r. by rewrite elem_of_ordered, elem_of_routes.
  - apply ordered_sorted, routes_sorted.
  - unfold Resolve. rewrite (run_bind (ResolveByLocalModel lm md) _). unfold ResolveByLocalModel.
    rewrite (run_query _ _). case_bool_decide as H0.
    + apply length_zero_iff_nil in H0. rewrite H0. by rewrite bool_decide_eq_true_2.
    + case_bool_decide as H1.
      * apply length_zero_iff_nil in H1. rewrite H1. by rewrite bool_decide_eq_true_2.
      * rewrite bool_decide_eq_false_2; [by rewrite run_ret|]. intros He.
        assert (∀ r, r ∉ routes lm md d) as Hn.
        { intros r. rewrite <-elem_of_ordered, He. apply not_elem_of_nil. }
        destruct (routes lm md d) as [|r l]; [done|]. apply (Hn r). left.
Qed.
End routing.

(** ** Health *)

(** Requests that one after the other take the route of a channel, with the
    outcomes of their calls. *)
Definition attempt (id : N) (ok : bool) (err : string) (now : Z) : DBM unit :=
  c <- GetByID id ;; MarkHealth id c ok err now.
Fixpoint attempts (id : N) (os : list (bool * string * Z)) (d : database) : database :=
  match os with
  | [] => d
  | (ok, err, now) :: os => attempts id os (run (attempt id ok err now) d).2
  end.

(** The failures since the last success, [n] of them already counted. *)
Fixpoint in_a_row (n : Z) (os : list (bool * string * Z)) : Z :=
  match os with
  | [] => n
  | (ok, _, _) :: os => in_a_row (if ok then 0 else n + 1) os
  end.

Lemma run_update_channel id f upd c c' d :
  upstream_channels d !! id = Some c → f c = true → upd c = Ok c' →
  run (update_channel id f upd) d = (Ok 1%N, with_upstream_channels <[id := c']> d).
Proof.
  intros Hc Hf Hu. unfold update_channel. rewrite (run_exec _ d). unfold id_update. by rewrite Hc; cbn; rewrite Hf; cbn; rewrite Hu.
Qed.

Lemma run_attempt id ok err now c d :
  upstream_channels d !! id = Some c → ch_live c = true → 0 ≤ FailCount c < 2 ^ 31 - 1 →
  (run (attempt id ok err now) d).2 =
    with_upstream_channels <[id := if ok then with_health true err 0 StatusHealthy now c
      else with_health false err (FailCount c + 1) (if 3 <=? FailCount c + 1 then StatusUnhealthy else ChStatus c) now c]> d.
Proof.
  intros Hc Hl Hn. unfold attempt. rewrite (run_bind (GetByID id) _). unfold GetByID. rewrite (run_query _ _), Hc, Hl.
  unfold MarkHealth, UpdateHealth.
  destruct ok; rewrite (run_bind (update_channel id _ _) _);
    (erewrite (run_update_channel id); [by rewrite run_ret|done|done|]); [done|].
  unfold int32. rewrite bool_decide_eq_true_2 by lia. done.
Qed.

(** Three failures in a row put a channel behind the healthy ones, and
    one success puts it back: for requests that follow each other, the count of
    a channel is the number of failures since its last success, and it is
    unhealthy exactly from the third of them on. *)
Theorem MarkHealth_counts id c d os :
  upstream_channels d !! id = Some c → ChDeletedAt c = None → ChStatus c = StatusHealthy → FailCount c = 0 →
  Z.of_nat (length os) < 2 ^ 31 - 1 →
  ∃ c', upstream_channels (attempts id os d) !! id = Some c' ∧
    FailCount c' = in_a_row 0 os ∧
    ChStatus c' = (if 3 <=? in_a_row 0 os then StatusUnhealthy else StatusHealthy) ∧
    ChDeletedAt c' = None ∧ ChPriority c' = ChPriority c ∧ ChEnabled c' = ChEnabled c ∧ APIKeyEnc c' = APIKeyEnc c.
Proof.
  intros Hc Hdel Hst Hf Hlen.
  cut (∀ os n c d, upstream_channels d !! id = Some c → ChDeletedAt c = None → FailCount c = n → 0 ≤ n →
    ChStatus c = (if 3 <=? n then StatusUnhealthy else StatusHealthy) → n + Z.of_nat (length os) < 2 ^ 31 - 1 →
    ∃ c', upstream_channels (attempts id os d) !! id = Some c' ∧ FailCount c' = in_a_row n os ∧
      ChStatus c' = (if 3 <=? in_a_row n os then StatusUnhealthy else StatusHealthy) ∧
      ChDeletedAt c' = None ∧ ChPriority c' = ChPriority c ∧ ChEnabled c' = ChEnabled c ∧ APIKeyEnc c' = APIKeyEnc c).
  { intros H. by apply (H os 0 c d). }
  clear. intros os. induction os as [|[[ok err] now] os IH]; intros n c d Hc Hdel Hn H0 Hst Hlen; cbn.
  { by exists c. }
  assert (Hlive : ch_live c = true) by (unfold ch_live; by rewrite Hdel). cbn in Hlen.
  rewrite (run_attempt id ok err now c d Hc Hlive) by lia.
  set (c1 := if ok then _ else _). set (d1 := with_upstream_channels _ d).
  assert (Hc1 : upstream_channels d1 !! id = Some c1) by (cbn; apply lookup_insert_eq).
  destruct (IH (if ok then 0 else n + 1) c1 d1 Hc1) as (c' & H1 & H2 & H3 & H4 & H5 & H6 & H7).
  - by destruct ok.
  - destruct ok; cbn; lia.
  - destruct ok; lia.
  - destruct ok; cbn; [done|]. rewrite Hn, Hst. destruct (Z.leb_spec 3 (n + 1)); [done|].
    by destruct (Z.leb_spec 3 n); [lia|].
  - destruct ok; lia.
  - exists c'. rewrite H5, H6, H7. by destruct ok.
Qed.

(** Failures marked from one and the same reading of the row count as one. *)
Lemma stale_failures_count_once id c d err1 err2 now1 now2 :
  upstream_channels d !! id = Some c → 0 ≤ FailCount c < 2 ^ 31 - 1 →
  FailCount <$> (upstream_channels (run (MarkHealth id c false err2 now2)
    (run (MarkHealth id c false err1 now1) d).2).2 !! id) = Some (FailCount c + 1).
Proof.
  intros Hc Hn.
  assert (∀ c' d err now, upstream_channels d !! id = Some c' →
    FailCount <$> (upstream_channels (run (MarkHealth id c false err now) d).2 !! id) = Some (FailCount c + 1)) as H.
  { intros c' d' err now Hc'. unfold MarkHealth, UpdateHealth. rewrite (run_bind (update_channel id _ _) _).
    rewrite (run_update_channel id _ _ c' (with_health false err (FailCount c + 1)
      (if 3 <=? FailCount c + 1 then StatusUnhealthy else ChStatus c) now c')); [|done..|].
    - rewrite run_ret. cbn [snd upstream_channels with_upstream_channels]. by rewrite lookup_insert_eq.
    - unfold int32. by rewrite bool_decide_eq_true_2 by lia. }
  specialize (H c d err1 now1 Hc) as H1.
  destruct (upstream_channels (run (MarkHealth id c false err1 now1) d).2 !! id) as [c1|] eqn:E; [|done].
  by apply (H c1).
Qed.

(** ** Keys *)

Section keys.
Context (json_column : string → option string).
Context {AEAD : Type} (Seal : AEAD → list ascii → list ascii → list ascii)
        (Open : AEAD → list ascii → list ascii → result (list ascii))
        (NonceSize Overhead : nat) (cipher : AEAD).
Hypothesis open_seal : ∀ n p, length n = NonceSize → Open cipher n (Seal cipher n p) = Ok p.
Hypothesis seal_length : ∀ n p, length (Seal cipher n p) = (length p + Overhead)%nat.

Lemma string_take_length n s : (String.length (string_take n s) ≤ n)%nat.
Proof. revert s. induction n as [|n IH]; intros [|c s]; cbn; [lia..|]. specialize (IH s). lia. Qed.

(** The characters of a key its mask gives away are its first and last four,
    and only for keys of more than eight. *)
Lemma maskKey_spec s :
  maskKey s = stars (String.length s) ∧ (String.length s ≤ 8)%nat ∨
  maskKey s = string_take 4 s +:+ "****" +:+ string_drop (String.length s - 4) s ∧ (8 < String.length s)%nat.
Proof. unfold maskKey. destruct (Nat.leb_spec (String.length s) 8); auto. Qed.

(** The key of a channel reaches the provider and nobody else: what an
    administrator stored is, opened, what requests and tests of that channel
    send, at the channel's own address and with its own time-out; the row
    holds it encrypted, and the pages show its mask. *)
Theorem channel_key_roundtrip inp nonce d id dec d' :
  length nonce = NonceSize →
  run (Create json_column Seal Open NonceSize Overhead cipher inp nonce) d = (Ok (id, dec), d') →
  upstream_channels d !! id = None ∧
  APIKeyMasked dec = maskKey (InAPIKey inp) ∧
  ∃ c, upstream_channels d' !! id = Some c ∧ dec = decorate Open NonceSize Overhead cipher c ∧
    APIKeyEnc c = EncryptString Seal cipher nonce (InAPIKey inp) ∧
    channel_adapter Open NonceSize Overhead cipher c =
      Ok {| AdType := InType inp; AdBaseURL := InBaseURL inp; AdAPIKey := InAPIKey inp;
            AdTimeoutS := TimeoutS c; AdExtra := default "" (Extra c) |} ∧
    0 < TimeoutS c ∧ (0 < ChRatio c)%Q ∧ ChStatus c = StatusHealthy ∧ ChDeletedAt c = None.
Proof.
  intros Hnonce. unfold Create. destruct (String.eqb (TrimSpace (InName inp)) ""); [done|].
  destruct (validType (InType inp)) eqn:Et; [|done]. cbn [negb].
  destruct (String.eqb (TrimSpace (InBaseURL inp)) ""); [done|].
  destruct (String.eqb (TrimSpace (InAPIKey inp)) "") eqn:Ekey; [done|].
  rewrite (run_bind (DAOCreate _ _) _). unfold DAOCreate. rewrite (run_exec _ d).
  destruct (json_value _ _) as [x|]; [|done]. cbn [rbind]. set (c := with_extra x _).
  rewrite (run_bind (Get _ _ _ _ _) _). unfold Get. rewrite (run_bind (GetByID _) _). unfold GetByID.
  rewrite (run_query _ _). cbn [upstream_channels with_upstream_channels]. rewrite lookup_insert_eq.
  change (ch_live c) with true. cbn iota. rewrite run_ret. cbn iota. rewrite run_ret. intros [= <- <- <-].
  assert (Henc : APIKeyEnc c = EncryptString Seal cipher nonce (InAPIKey inp)) by done.
  assert (Hdec : DecryptString Open NonceSize Overhead cipher (APIKeyEnc c) = Ok (InAPIKey inp)).
  { rewrite Henc. by apply DecryptString_EncryptString. }
  assert (Hne : String.eqb (APIKeyEnc c) "" = false).
  { destruct (String.eqb_spec (APIKeyEnc c) "") as [He|]; [|done].
    rewrite Henc in He. eapply EncryptString_empty in He; [|exact seal_length]. by rewrite He in Ekey. }
  split_and!; [apply auto_id_fresh|unfold decorate; cbn [APIKeyMasked]; rewrite Hne, Hdec; done|].
  exists c. split_and!; [cbn; apply lookup_insert_eq|done|done| | | |done|done].
  - unfold channel_adapter, DecryptKey. rewrite Hne, Hdec. cbn [rbind]. unfold adapter_New.
    change (ChType c) with (InType inp). unfold validType, TypeOpenAI, TypeGemini in Et. by rewrite Et.
  - cbn. destruct (Z.leb_spec (InTimeoutS inp) 0); lia.
  - cbn. destruct (Qle_bool (InRatio inp) 0) eqn:Eq; [done|]. apply Qnot_le_lt. intros Hq%Qle_bool_iff. congruence.
Qed.
End keys.

(** ** Witnesses *)

Definition sample_channel : ChannelInput := {|
  InName := "relay"; InType := "openai"; InBaseURL := "https://relay.example"; InAPIKey := "sk-0123456789abcd";
  InChEnabled := true; InPriority := -1; InWeight := 0; InTimeoutS := 0; InRatio := 3 # 2; InExtra := "";
  InChRemark := "" |}.
Definition channel_created : result (N * Decorated) * database :=
  run (Create (λ s, Some s) toy_seal toy_open 12 16 tt sample_channel (sample_nonce "n")) empty_database.

Lemma channel_key_roundtrip_witness :
  ∃ id dec, channel_created = (Ok (id, dec), channel_created.2) ∧ APIKeyMasked dec = "sk-0****abcd".
Proof.
  destruct channel_created as [r d] eqn:E. assert (Hr : ∃ id dec, r = Ok (id, dec)).
  { apply (f_equal fst) in E. cbn in E. rewrite <-E. do 2 eexists. vm_compute. reflexivity. }
  destruct Hr as (id & dec & Hr). subst r. exists id, dec. split; [done|].
  destruct (channel_key_roundtrip (λ s, Some s) toy_seal toy_open 12 16 tt toy_open_seal toy_seal_length
    sample_channel (sample_nonce "n") empty_database id dec d) as (_ & H & _); [done|exact E|].
  rewrite H. by vm_compute.
Defined.

Definition channel_outcomes : list (bool * string * Z) :=
  [(false, "502", 1); (true, "", 2); (false, "502", 3); (false, "503", 4); (false, "504", 5)].

Lemma MarkHealth_counts_witness :
  ∃ c, upstream_channels (attempts 1 channel_outcomes channel_created.2) !! 1%N = Some c ∧
    ChStatus c = StatusUnhealthy.
Proof.
  destruct (upstream_channels channel_created.2 !! 1%N) as [c|] eqn:Ec; [|by vm_compute in Ec].
  destruct (MarkHealth_counts 1 c channel_created.2 channel_outcomes Ec) as (c' & H1 & _ & H3 & _).
  - vm_compute in Ec. by injection Ec as <-.
  - vm_compute in Ec. by injection Ec as <-.
  - vm_compute in Ec. by injection Ec as <-.
  - by vm_compute.
  - exists c'. split; [exact H1|]. rewrite H3. by vm_compute.
Defined.
