(* ===== verification/Tasks.v ===== *)
(** * Image tasks (internal/image/dao.go, model.go, task_meta.go)

    The table image_tasks: a row per image request, from its creation to its
    result, and what the pages show of it.  [marshal] and [unmarshal] are
    encoding/json on slices of strings (a nil slice and an empty one are both
    [[]]: nothing that reads them back tells them apart), [json_column] is what
    MySQL stores of a document, [like] its operator LIKE; [now] is NOW(). *)

From S2P Require Import Prelude GoStrings Sql Schema Ledger.

#[local] Open Scope Z_scope.

Definition ErrNotFound : goerr := Sentinel "image: task not found".

Definition StatusQueued : string := "queued".
Definition StatusDispatched : string := "dispatched".
Definition StatusRunning : string := "running".
Definition TaskSuccess : string := "success".
Definition TaskFailed : string := "failed".

Definition ErrUnknown : string := "unknown".
Definition ErrNoAccount : string := "no_available_account".
Definition ErrAuthRequired : string := "auth_required".
Definition ErrRateLimited : string := "rate_limited".
Definition ErrNetworkTransient : string := "network_transient".
Definition ErrPOWTimeout : string := "pow_timeout".
Definition ErrPOWFailed : string := "pow_failed".
Definition ErrUpstream : string := "upstream_error".
Definition ErrPollTimeout : string := "poll_timeout".
Definition ErrDownload : string := "download_failed".
Definition ErrArchive : string := "archive_failed".
Definition ErrInvalidResponse : string := "invalid_response".

Definition StorageModeLocal : string := "local".
Definition StorageModeCloud : string := "cloud".
Definition NormalizeStorageMode (mode : string) : string :=
  if String.eqb mode StorageModeCloud then StorageModeCloud else StorageModeLocal.

Definition nullEmpty (s fallback : string) : string := if String.eqb s "" then fallback else s.
(** An absent value and an empty one are both NULL. *)
Definition nullJSON (b : option string) : option string :=
  match b with Some s => if String.eqb s "" then None else Some s | None => None end.

(** ** The row and its updates *)

Definition set_running (accountID : N) (now : Z) (t : Task) : Task := {|
  TaskID := TaskID t; TaskUserID := TaskUserID t; TaskKeyID := TaskKeyID t; TaskModelID := TaskModelID t;
  TaskAccountID := accountID; TaskPrompt := TaskPrompt t; TaskN := TaskN t; TaskSize := TaskSize t;
  TaskUpscale := TaskUpscale t; TaskStorageMode := TaskStorageMode t; TaskStatus := StatusRunning;
  ConversationID := ConversationID t; FileIDs := FileIDs t; ResultURLs := ResultURLs t; ThumbURLs := ThumbURLs t;
  ReferenceCount := ReferenceCount t; ReferenceURLs := ReferenceURLs t; ReferenceThumbURLs := ReferenceThumbURLs t;
  TaskError := TaskError t; EstimatedCredit := EstimatedCredit t; TaskCreditCost := TaskCreditCost t;
  TaskCreatedAt := TaskCreatedAt t; StartedAt := Some now; FinishedAt := FinishedAt t; TaskDeletedAt := TaskDeletedAt t |}.

Definition set_account (accountID : N) (t : Task) : Task := {|
  TaskID := TaskID t; TaskUserID := TaskUserID t; TaskKeyID := TaskKeyID t; TaskModelID := TaskModelID t;
  TaskAccountID := accountID; TaskPrompt := TaskPrompt t; TaskN := TaskN t; TaskSize := TaskSize t;
  TaskUpscale := TaskUpscale t; TaskStorageMode := TaskStorageMode t; TaskStatus := TaskStatus t;
  ConversationID := ConversationID t; FileIDs := FileIDs t; ResultURLs := ResultURLs t; ThumbURLs := ThumbURLs t;
  ReferenceCount := ReferenceCount t; ReferenceURLs := ReferenceURLs t; ReferenceThumbURLs := ReferenceThumbURLs t;
  TaskError := TaskError t; EstimatedCredit := EstimatedCredit t; TaskCreditCost := TaskCreditCost t;
  TaskCreatedAt := TaskCreatedAt t; StartedAt := StartedAt t; FinishedAt := FinishedAt t; TaskDeletedAt := TaskDeletedAt t |}.

Definition set_success (convID : string) (fileIDs resultURLs thumbURLs : option string) (mode : string) (cost now : Z)
    (t : Task) : Task := {|
  TaskID := TaskID t; TaskUserID := TaskUserID t; TaskKeyID := TaskKeyID t; TaskModelID := TaskModelID t;
  TaskAccountID := TaskAccountID t; TaskPrompt := TaskPrompt t; TaskN := TaskN t; TaskSize := TaskSize t;
  TaskUpscale := TaskUpscale t; TaskStorageMode := mode; TaskStatus := TaskSuccess;
  ConversationID := convID; FileIDs := fileIDs; ResultURLs := resultURLs; ThumbURLs := thumbURLs;
  ReferenceCount := ReferenceCount t; ReferenceURLs := ReferenceURLs t; ReferenceThumbURLs := ReferenceThumbURLs t;
  TaskError := TaskError t; EstimatedCredit := EstimatedCredit t; TaskCreditCost := cost;
  TaskCreatedAt := TaskCreatedAt t; StartedAt := StartedAt t; FinishedAt := Some now; TaskDeletedAt := TaskDeletedAt t |}.

Definition set_references (urls thumbs : option string) (t : Task) : Task := {|
  TaskID := TaskID t; TaskUserID := TaskUserID t; TaskKeyID := TaskKeyID t; TaskModelID := TaskModelID t;
  TaskAccountID := TaskAccountID t; TaskPrompt := TaskPrompt t; TaskN := TaskN t; TaskSize := TaskSize t;
  TaskUpscale := TaskUpscale t; TaskStorageMode := TaskStorageMode t; TaskStatus := TaskStatus t;
  ConversationID := ConversationID t; FileIDs := FileIDs t; ResultURLs := ResultURLs t; ThumbURLs := ThumbURLs t;
  ReferenceCount := ReferenceCount t; ReferenceURLs := urls; ReferenceThumbURLs := thumbs;
  TaskError := TaskError t; EstimatedCredit := EstimatedCredit t; TaskCreditCost := TaskCreditCost t;
  TaskCreatedAt := TaskCreatedAt t; StartedAt := StartedAt t; FinishedAt := FinishedAt t; TaskDeletedAt := TaskDeletedAt t |}.

Definition set_cost (cost : Z) (t : Task) : Task := {|
  TaskID := TaskID t; TaskUserID := TaskUserID t; TaskKeyID := TaskKeyID t; TaskModelID := TaskModelID t;
  TaskAccountID := TaskAccountID t; TaskPrompt := TaskPrompt t; TaskN := TaskN t; TaskSize := TaskSize t;
  TaskUpscale := TaskUpscale t; TaskStorageMode := TaskStorageMode t; TaskStatus := TaskStatus t;
  ConversationID := ConversationID t; FileIDs := FileIDs t; ResultURLs := ResultURLs t; ThumbURLs := ThumbURLs t;
  ReferenceCount := ReferenceCount t; ReferenceURLs := ReferenceURLs t; ReferenceThumbURLs := ReferenceThumbURLs t;
  TaskError := TaskError t; EstimatedCredit := EstimatedCredit t; TaskCreditCost := cost;
  TaskCreatedAt := TaskCreatedAt t; StartedAt := StartedAt t; FinishedAt := FinishedAt t; TaskDeletedAt := TaskDeletedAt t |}.

Definition set_failed (code : string) (now : Z) (t : Task) : Task := {|
  TaskID := TaskID t; TaskUserID := TaskUserID t; TaskKeyID := TaskKeyID t; TaskModelID := TaskModelID t;
  TaskAccountID := TaskAccountID t; TaskPrompt := TaskPrompt t; TaskN := TaskN t; TaskSize := TaskSize t;
  TaskUpscale := TaskUpscale t; TaskStorageMode := TaskStorageMode t; TaskStatus := TaskFailed;
  ConversationID := ConversationID t; FileIDs := FileIDs t; ResultURLs := ResultURLs t; ThumbURLs := ThumbURLs t;
  ReferenceCount := ReferenceCount t; ReferenceURLs := ReferenceURLs t; ReferenceThumbURLs := ReferenceThumbURLs t;
  TaskError := code; EstimatedCredit := EstimatedCredit t; TaskCreditCost := TaskCreditCost t;
  TaskCreatedAt := TaskCreatedAt t; StartedAt := StartedAt t; FinishedAt := Some now; TaskDeletedAt := TaskDeletedAt t |}.

Definition set_deleted (now : Z) (t : Task) : Task := {|
  TaskID := TaskID t; TaskUserID := TaskUserID t; TaskKeyID := TaskKeyID t; TaskModelID := TaskModelID t;
  TaskAccountID := TaskAccountID t; TaskPrompt := TaskPrompt t; TaskN := TaskN t; TaskSize := TaskSize t;
  TaskUpscale := TaskUpscale t; TaskStorageMode := TaskStorageMode t; TaskStatus := TaskStatus t;
  ConversationID := ConversationID t; FileIDs := FileIDs t; ResultURLs := ResultURLs t; ThumbURLs := ThumbURLs t;
  ReferenceCount := ReferenceCount t; ReferenceURLs := ReferenceURLs t; ReferenceThumbURLs := ReferenceThumbURLs t;
  TaskError := TaskError t; EstimatedCredit := EstimatedCredit t; TaskCreditCost := TaskCreditCost t;
  TaskCreatedAt := TaskCreatedAt t; StartedAt := StartedAt t; FinishedAt := FinishedAt t; TaskDeletedAt := Some now |}.

(** ** The DAO *)

Section dao.
Context (json_column : string → option string) (marshal : list string → string)
        (unmarshal : string → option (list string)).

(** uk_task_id *)
Definition task_taken (taskID : string) (d : database) : bool :=
  existsb (λ p : N * Task, String.eqb (TaskID p.2) taskID) (map_to_list (image_tasks d)).

(** The row an INSERT makes of a task. *)
Definition new_row (t : Task) (now : Z) : result Task :=
  n <-? int32 (TaskN t) ;;
  refs <-? int32 (ReferenceCount t) ;;
  fids <-? json_value json_column (nullJSON (FileIDs t)) ;;
  urls <-? json_value json_column (nullJSON (ResultURLs t)) ;;
  thumbs <-? json_value json_column (nullJSON (ThumbURLs t)) ;;
  rurls <-? json_value json_column (nullJSON (ReferenceURLs t)) ;;
  rthumbs <-? json_value json_column (nullJSON (ReferenceThumbURLs t)) ;;
  Ok {| TaskID := TaskID t; TaskUserID := TaskUserID t; TaskKeyID := TaskKeyID t; TaskModelID := TaskModelID t;
        TaskAccountID := TaskAccountID t; TaskPrompt := TaskPrompt t; TaskN := n; TaskSize := TaskSize t;
        TaskUpscale := ""; TaskStorageMode := NormalizeStorageMode (TaskStorageMode t);
        TaskStatus := nullEmpty (TaskStatus t) StatusQueued; ConversationID := ConversationID t; FileIDs := fids;
        ResultURLs := urls; ThumbURLs := thumbs; ReferenceCount := refs; ReferenceURLs := rurls;
        ReferenceThumbURLs := rthumbs; TaskError := TaskError t; EstimatedCredit := EstimatedCredit t;
        TaskCreditCost := TaskCreditCost t; TaskCreatedAt := now; StartedAt := None; FinishedAt := None;
        TaskDeletedAt := None |}.

(** The id of the row; an error is wrapped. *)
Definition Create (t : Task) (now : Z) : DBM N := λ w,
  let '(r, w') := exec (λ d,
    row <-? new_row t now ;;
    if task_taken (TaskID t) d then Err (EMySQL 1062) else
    let id := auto_id (image_tasks d) in
    Ok (id, with_image_tasks <[id := row]> d)) w in
  (match r with Ok id => Ok id | Err e => Err (EWrap "image dao create" e) end, w').

(** [UPDATE image_tasks SET .. WHERE ..] *)
Definition update_tasks (where_ : Task → bool) (upd : Task → Task) : DBM N :=
  exec (all_update image_tasks with_image_tasks where_ upd).

Definition is_task (taskID : string) (t : Task) : bool := String.eqb (TaskID t) taskID.

Definition MarkRunning (taskID : string) (accountID : N) (now : Z) : DBM unit :=
  void (update_tasks (λ t, is_task taskID t &&
          (String.eqb (TaskStatus t) StatusQueued || String.eqb (TaskStatus t) StatusDispatched))
        (set_running accountID now)).

Definition SetAccount (taskID : string) (accountID : N) : DBM unit :=
  void (update_tasks (is_task taskID) (set_account accountID)).

Definition MarkSuccess (taskID convID : string) (fileIDs resultURLs thumbURLs : list string) (storageMode : string)
    (creditCost : Z) (now : Z) : DBM unit :=
  void (exec (λ d,
    fids <-? json_value json_column (Some (marshal fileIDs)) ;;
    urls <-? json_value json_column (Some (marshal resultURLs)) ;;
    thumbs <-? json_value json_column (Some (marshal thumbURLs)) ;;
    all_update image_tasks with_image_tasks (is_task taskID)
      (set_success convID fids urls thumbs (NormalizeStorageMode storageMode) creditCost now) d)).

(** [None]: a nil slice. *)
Definition UpdateReferences (taskID : string) (referenceURLs referenceThumbURLs : option (list string)) : DBM unit :=
  void (exec (λ d,
    urls <-? json_value json_column (nullJSON (marshal <$> referenceURLs)) ;;
    thumbs <-? json_value json_column (nullJSON (marshal <$> referenceThumbURLs)) ;;
    all_update image_tasks with_image_tasks (is_task taskID) (set_references urls thumbs) d)).

Definition UpdateCost (taskID : string) (cost : Z) : DBM unit :=
  void (update_tasks (is_task taskID) (set_cost cost)).

Definition MarkFailed (taskID errorCode : string) (now : Z) : DBM unit :=
  void (update_tasks (is_task taskID) (set_failed (string_take 500 errorCode) now)).

Definition task_live (t : Task) : bool := bool_decide (TaskDeletedAt t = None).

Definition Get (taskID : string) : DBM (N * Task) :=
  query (λ d, match head (rows_where image_tasks (λ _ t, is_task taskID t && task_live t) d) with
              | Some p => Ok p
              | None => Err ErrNotFound
              end).

Definition SoftDeleteByUser (taskID : string) (userID : N) (now : Z) : DBM unit :=
  n <- update_tasks (λ t, is_task taskID t && (TaskUserID t =? userID)%N && task_live t) (set_deleted now) ;;
  if (n =? 0)%N then throw ErrNotFound else ret tt.

(** *** Pages *)

Context (like : string → string → bool).

(** [None]: the zero value, no condition. *)
Record UserTaskFilter := {
  FStatus : string;
  FKeyword : string;
  FSince : option Z;
  FUntil : option Z
}.

(** The conditions both pages put on a row. *)
Definition in_window (since until : option Z) (t : Task) : bool :=
  match since with Some s => s <=? TaskCreatedAt t | None => true end &&
  match until with Some u => TaskCreatedAt t <? u | None => true end.
Definition has_status (status : string) (t : Task) : bool := String.eqb status "" || String.eqb (TaskStatus t) status.
Definition pattern (keyword : string) : string := "%" +:+ keyword +:+ "%".

Definition user_row (userID : N) (f : UserTaskFilter) (t : Task) : bool :=
  (TaskUserID t =? userID)%N && task_live t && has_status (FStatus f) t &&
  (String.eqb (FKeyword f) "" || like (TaskPrompt t) (pattern (FKeyword f))) && in_window (FSince f) (FUntil f) t.

(** Newest first. *)
Definition ListByUserFiltered (userID : N) (f : UserTaskFilter) (limit offset : Z) : DBM (list (N * Task) * Z) :=
  let limit := if limit <=? 0 then 20 else limit in
  let offset := if offset <? 0 then 0 else offset in
  total <- query (λ d, Ok (Z.of_nat (length (rows_where image_tasks (λ _, user_row userID f) d)))) ;;
  rows <- query (λ d, Ok (page offset limit (rev (rows_where image_tasks (λ _, user_row userID f) d)))) ;;
  ret (rows, total).

Definition ListByUser (userID : N) (limit offset : Z) : DBM (list (N * Task)) :=
  r <- ListByUserFiltered userID {| FStatus := ""; FKeyword := ""; FSince := None; FUntil := None |} limit offset ;;
  ret r.1.

Record AdminTaskFilter := {
  AUserID : N;
  AKeyword : string;
  AStatus : string;
  ASince : option Z;
  AUntil : option Z
}.

(** The joined columns; a missing row gives NULL, which LIKE does not match
    and COALESCE turns into the empty string. *)
Definition task_email (d : database) (t : Task) : option string := Email <$> users d !! TaskUserID t.
Definition task_slug (d : database) (t : Task) : option string := Slug <$> models d !! TaskModelID t.

Definition admin_row (f : AdminTaskFilter) (d : database) (t : Task) : bool :=
  task_live t && ((AUserID f =? 0)%N || (TaskUserID t =? AUserID f)%N) && has_status (AStatus f) t &&
  (String.eqb (AKeyword f) "" || like (TaskPrompt t) (pattern (AKeyword f)) ||
     match task_email d t with Some e => like e (pattern (AKeyword f)) | None => false end) &&
  in_window (ASince f) (AUntil f) t.

(** A negative OFFSET is a syntax error. *)
Definition ListAdmin (f : AdminTaskFilter) (limit offset : Z) : DBM (list (N * Task * string * string) * Z) :=
  let limit := if limit <=? 0 then 20 else limit in
  total <- query (λ d, Ok (Z.of_nat (length (rows_where image_tasks (λ _, admin_row f d) d)))) ;;
  rows <- query (λ d,
    if offset <? 0 then Err (EMySQL 1064) else
    Ok (map (λ p : N * Task, (p, default "" (task_email d p.2), default "" (task_slug d p.2)))
          (page offset limit (rev (rows_where image_tasks (λ _, admin_row f d) d))))) ;;
  ret (rows, total).

(** *** Decoding *)

(** [_ = json.Unmarshal(col, &out)] *)
Definition decode_column (col : option string) : list string :=
  match nullJSON col with Some s => default [] (unmarshal s) | None => [] end.
Definition DecodeFileIDs (t : Task) : list string := decode_column (FileIDs t).
Definition DecodeResultURLs (t : Task) : list string := decode_column (ResultURLs t).
Definition DecodeThumbURLs (t : Task) : list string := decode_column (ThumbURLs t).
Definition DecodeReferenceURLs (t : Task) : list string := decode_column (ReferenceURLs t).
Definition DecodeReferenceThumbURLs (t : Task) : list string := decode_column (ReferenceThumbURLs t).

(** ** What is shown of a task (task_meta.go) *)

Record TaskProgressMeta := {
  Phase : string;
  PhaseLabel : string;
  MetaEstimatedCredit : Z;
  ActualCount : Z;
  BillingStatus : string;
  BillingNote : string
}.

Definition taskActualCount (t : Task) : Z :=
  Z.max (Z.max (Z.of_nat (length (DecodeResultURLs t))) (Z.of_nat (length (DecodeFileIDs t))))
        (Z.of_nat (length (DecodeThumbURLs t))).

Definition taskPhaseMeta (status : string) : string * string :=
  if String.eqb status StatusQueued then ("queued", "排队中")
  else if String.eqb status StatusDispatched then ("preparing", "准备中")
  else if String.eqb status StatusRunning then ("generating", "生成中")
  else if String.eqb status TaskSuccess then ("completed", "已完成")
  else if String.eqb status TaskFailed then ("failed", "生成失败")
  else ("unknown", "状态未知").

Definition taskBillingMeta (t : Task) (actualCount : Z) : string * string :=
  let requested := if TaskN t <=? 0 then 1 else TaskN t in
  let s := TaskStatus t in
  if String.eqb s StatusQueued || String.eqb s StatusDispatched || String.eqb s StatusRunning then
    if 0 <? EstimatedCredit t
    then ("pending", "已预扣 " +:+ pretty (EstimatedCredit t) +:+ " 积分，完成后按实际结果结算")
    else ("pending", "任务处理中，完成后展示结算结果")
  else if String.eqb s TaskFailed then
    if 0 <? EstimatedCredit t
    then ("refunded", "任务失败，已退回预扣的 " +:+ pretty (EstimatedCredit t) +:+ " 积分")
    else ("free", "任务失败，未产生积分扣除")
  else if String.eqb s TaskSuccess then
    if (0 <? actualCount) && (actualCount <? requested) then
      let head := "提交 " +:+ pretty requested +:+ " 张，成功 " +:+ pretty actualCount +:+ " 张，" in
      if 0 <? TaskCreditCost t
      then ("settled_partial", head +:+ "已按实际结果扣除 " +:+ pretty (TaskCreditCost t) +:+ " 积分")
      else ("free", head +:+ "本次未产生积分扣除")
    else if 0 <? TaskCreditCost t
    then ("settled", "成功生成 " +:+ pretty (Z.max actualCount requested) +:+ " 张，已扣除 " +:+ pretty (TaskCreditCost t) +:+ " 积分")
    else if 0 <? actualCount then ("free", "成功生成 " +:+ pretty actualCount +:+ " 张，本次未产生积分扣除")
    else ("free", "任务已完成，本次未产生积分扣除")
  else if 0 <? TaskCreditCost t then ("settled", "已扣除 " +:+ pretty (TaskCreditCost t) +:+ " 积分")
  else ("unknown", "").

Definition BuildTaskProgressMeta (t : option Task) : TaskProgressMeta :=
  match t with
  | None => {| Phase := "unknown"; PhaseLabel := "状态未知"; MetaEstimatedCredit := 0; ActualCount := 0;
               BillingStatus := "unknown"; BillingNote := "" |}
  | Some t =>
      let n := taskActualCount t in
      let '(phase, label) := taskPhaseMeta (TaskStatus t) in
      let '(status, note) := taskBillingMeta t n in
      {| Phase := phase; PhaseLabel := label; MetaEstimatedCredit := EstimatedCredit t; ActualCount := n;
         BillingStatus := status; BillingNote := note |}
  end.
End dao.
