(* ===== verification/Archive.v ===== *)
(** * Keeping the images (internal/image/runner.go)

    After a run the images are saved on disk, or uploaded to the cloud with
    their thumbnails, by the channel that is preferred and then by the other.
    The disk, the decoder of images, the downloads and the upload service are
    parameters ([Stores]); encoding/json and net/url are those of Settings.
    Image bytes are a [string]. *)

From S2P Require Import Prelude GoStrings Sql Schema Settings Tasks.

#[local] Open Scope Z_scope.

(** [imagestore.SourceImage] *)
Record SourceImage := {
  SrcIndex : Z;
  SrcData : string;
  SrcFileName : string;
  SrcContentType : string
}.

Definition with_index (i : Z) (src : SourceImage) : SourceImage := {|
  SrcIndex := i; SrcData := SrcData src; SrcFileName := SrcFileName src; SrcContentType := SrcContentType src |}.
Definition with_name (n : string) (src : SourceImage) : SourceImage := {|
  SrcIndex := SrcIndex src; SrcData := SrcData src; SrcFileName := n; SrcContentType := SrcContentType src |}.

(** What an uploader answers for an image and a channel, without the
    compression the code never asks for. *)
Definition Uploader : Type := SourceImage → string → result string.

Record Stores := {
  SaveTaskImages : option (string → list SourceImage → result unit);   (* None: no store mounted *)
  BuildThumbnail : string → result (string * string);
  download : string → result (string * string);
  cloudUploader : option Uploader;                                     (* an injected one *)
  NewUploader : SanyueImgHubConfig → Uploader
}.

Definition ENoImages : goerr := EMsg "no archive images".

Section archive.
Context (st : Stores) (settings : option cache).
Context (unmarshal : string → result rawConfig) (unmarshal_bool : string → option bool) (http_url : string → bool).

Definition storageMode : string :=
  match settings with
  | None => StorageModeLocal
  | Some c => NormalizeStorageMode (ImageStorageMode c)
  end.

Definition resolveCloudUploader : result Uploader :=
  match cloudUploader st with
  | Some u => Ok u
  | None =>
      match settings with
      | None => Err (EMsg "cloud storage settings not configured")
      | Some c =>
          cfg <-? ParseSanyueImgHubConfig unmarshal unmarshal_bool (CloudConfig c) ;;
          _ <-? ValidateStorageSnapshot unmarshal unmarshal_bool http_url
                  (<[KeyStorageImageMode := StorageModeCloud]> {[ KeyStorageCloudConfig := CloudConfig c ]}) ;;
          Ok (NewUploader st cfg)
      end
  end.

Definition cloudUploadChannels : list string :=
  let preferred :=
    match settings with
    | None => SanyueUploadChannelTelegram
    | Some c =>
        match ParseSanyueImgHubConfig unmarshal unmarshal_bool (CloudConfig c) with
        | Ok cfg => if IsSupportedSanyueUploadChannel (UploadChannel cfg)
                    then NormalizeSanyueUploadChannel (UploadChannel cfg) else SanyueUploadChannelTelegram
        | Err _ => SanyueUploadChannelTelegram
        end
    end in
  if String.eqb preferred SanyueUploadChannelHuggingFace then [SanyueUploadChannelHuggingFace]
  else [SanyueUploadChannelTelegram; SanyueUploadChannelHuggingFace].

(** The first channel that takes the image, or the last error. *)
Fixpoint uploadCloudImage (u : Uploader) (src : SourceImage) (channels : list string) (lastErr : goerr) : result string :=
  match channels with
  | [] => Err lastErr
  | ch :: channels =>
      match u src ch with
      | Ok url => Ok url
      | Err e => uploadCloudImage u src channels e
      end
  end.
Definition upload (u : Uploader) (src : SourceImage) : result string :=
  uploadCloudImage u src cloudUploadChannels (EMsg "cloud upload failed").

(** The thumbnail of an image, under its own name. *)
Definition buildCloudThumbSource (name : string) (src : SourceImage) : result SourceImage :=
  t <-? BuildThumbnail st (SrcData src) ;;
  Ok {| SrcIndex := SrcIndex src; SrcData := t.1; SrcFileName := name; SrcContentType := t.2 |}.

(** The address of a thumbnail, empty when it cannot be made or uploaded. *)
Definition thumb_url (u : Uploader) (name : string) (src : SourceImage) : string :=
  match buildCloudThumbSource name src with
  | Err _ => ""
  | Ok thumb => match upload u thumb with Ok url => url | Err _ => "" end
  end.

(** Originals and thumbnails, image by image; an original that cannot be
    uploaded ends it. *)
Fixpoint uploadCloudImages (u : Uploader) (taskID : string) (images : list SourceImage) : result (list string * list string) :=
  match images with
  | [] => Ok ([], [])
  | src :: images =>
      let name := taskID +:+ "_" +:+ pretty (SrcIndex src) in
      url <-? upload u (with_name name src) ;;
      rest <-? uploadCloudImages u taskID images ;;
      Ok (url :: rest.1, thumb_url u ("tmp_" +:+ name) src :: rest.2)
  end.

Definition default_type (ct : string) (i : nat) (cts : list string) : string :=
  if String.eqb ct "" then default "" (cts !! i) else ct.

Fixpoint downloadArchiveImages (i : nat) (cts urls : list string) : result (list SourceImage) :=
  match urls with
  | [] => Ok []
  | url :: urls =>
      r <-? download st url ;;
      rest <-? downloadArchiveImages (S i) cts urls ;;
      Ok ({| SrcIndex := Z.of_nat i; SrcData := r.1; SrcFileName := ""; SrcContentType := default_type r.2 i cts |} :: rest)
  end.

(** The images the run has fetched, or else those behind its addresses. *)
Definition archiveSourceImages (fetched : list SourceImage) (cts urls : list string) : result (list SourceImage) :=
  match fetched with
  | _ :: _ => Ok fetched
  | [] => match urls with [] => Err (EMsg "no signed urls") | _ => downloadArchiveImages O cts urls end
  end.

(** What is archived: the mode, and the addresses to hand out. *)
Record archived := {
  ArMode : string;
  ArURLs : list string;
  ArThumbs : list string
}.

Definition archiveResultImages (taskID : string) (fetched : list SourceImage) (cts urls thumbs : list string) :
    result archived :=
  if String.eqb storageMode StorageModeCloud then
    images <-? archiveSourceImages fetched cts urls ;;
    u <-? resolveCloudUploader ;;
    match images with
    | [] => Err ENoImages
    | _ =>
        r <-? uploadCloudImages u taskID images ;;
        Ok {| ArMode := storageMode; ArURLs := r.1; ArThumbs := r.2 |}
    end
  else
    let kept := {| ArMode := storageMode; ArURLs := urls; ArThumbs := thumbs |} in
    match SaveTaskImages st with
    | None => Ok kept
    | Some save =>
        if String.eqb taskID "" then Ok kept else
        images <-? archiveSourceImages fetched cts urls ;;
        match images with
        | [] => Err ENoImages
        | _ => _ <-? save taskID images ;; Ok kept
        end
    end.

(** Images a channel has drawn: those behind [urls], then [inline]. *)
Fixpoint renumber (i : Z) (l : list SourceImage) : list SourceImage :=
  match l with [] => [] | src :: l => with_index i src :: renumber (i + 1) l end.

Definition inline_name (i : nat) : string := "inline://image/" +:+ pretty (Z.of_nat i).

Definition ArchiveExternalImages (taskID : string) (urls : list string) (inline : list SourceImage) : result archived :=
  down <-? match urls with [] => Ok [] | _ => downloadArchiveImages O [] urls end ;;
  let images := down ++ renumber (Z.of_nat (length down)) inline in
  match images with
  | [] => Err ENoImages
  | _ =>
      let signed := urls ++ map inline_name (seq (length urls) (length images - length urls)) in
      archiveResultImages taskID images [] signed []
  end.

(** ** As many addresses as images *)

Lemma uploadCloudImages_length u taskID images r :
  uploadCloudImages u taskID images = Ok r → length r.1 = length images ∧ length r.2 = length images.
Proof.
  revert r. induction images as [|src images IH]; intros r; cbn; [by intros [= <-]|].
  destruct (upload _ _) as [url|]; cbn; [|done]. destruct (uploadCloudImages u taskID images) as [[a b]|]; cbn; [|done].
  intros [= <-]. cbn. destruct (IH (a, b)) as [H1 H2]; [done|]. cbn in *. lia.
Qed.

Lemma downloadArchiveImages_length i cts urls images :
  downloadArchiveImages i cts urls = Ok images → length images = length urls.
Proof.
  revert i images. induction urls as [|url urls IH]; intros i images; cbn; [by intros [= <-]|].
  destruct (download st url) as [r|]; cbn; [|done]. destruct (downloadArchiveImages (S i) cts urls) as [l|] eqn:E; cbn; [|done].
  intros [= <-]. cbn. by rewrite (IH _ _ E).
Qed.

Lemma archiveSourceImages_length fetched cts urls images :
  archiveSourceImages fetched cts urls = Ok images →
  images = fetched ∧ fetched ≠ [] ∨ fetched = [] ∧ length images = length urls.
Proof.
  unfold archiveSourceImages. destruct fetched as [|x l]; [|intros [= <-]; by left].
  destruct urls; [done|]. intros H. right. split; [done|]. by eapply downloadArchiveImages_length.
Qed.

(** What is handed out has one address per image of the run, and as many
    thumbnails or none. *)
Lemma archiveResultImages_length taskID fetched cts urls r n :
  archiveResultImages taskID fetched cts urls [] = Ok r →
  length urls = n → (fetched = [] ∨ length fetched = n) →
  length (ArURLs r) = n ∧ (ArThumbs r = [] ∨ length (ArThumbs r) = n).
Proof.
  unfold archiveResultImages. intros H Hu Hf. destruct (String.eqb storageMode StorageModeCloud).
  - destruct (archiveSourceImages fetched cts urls) as [images|] eqn:Ei; cbn in H; [|done].
    assert (length images = n) as Hn.
    { destruct (archiveSourceImages_length _ _ _ _ Ei) as [[-> Hne]|[-> Hl]]; [by destruct Hf|lia]. }
    destruct resolveCloudUploader as [u|]; cbn in H; [|done].
    destruct images as [|x l] eqn:E; [done|]. rewrite <-E in *.
    destruct (uploadCloudImages u taskID images) as [[a b]|] eqn:Er; cbn in H; [|done].
    injection H as <-. apply uploadCloudImages_length in Er. cbn in *. split; [lia|]. right. lia.
  - destruct (SaveTaskImages st) as [save|]; [|injection H as <-; cbn; auto].
    destruct (String.eqb taskID ""); [injection H as <-; cbn; auto|].
    destruct (archiveSourceImages fetched cts urls) as [images|]; cbn in H; [|done].
    destruct images as [|x l]; [done|]. destruct (save taskID _); cbn in H; [|done]. injection H as <-. cbn. auto.
Qed.

Lemma renumber_length i l : length (renumber i l) = length l.
Proof. revert i. induction l as [|x l IH]; intros i; cbn; [done|]. by rewrite IH. Qed.

Lemma ArchiveExternalImages_length taskID urls inline r :
  ArchiveExternalImages taskID urls inline = Ok r →
  length (ArURLs r) = (length urls + length inline)%nat ∧
  (ArThumbs r = [] ∨ length (ArThumbs r) = (length urls + length inline)%nat).
Proof.
  unfold ArchiveExternalImages. intros H.
  destruct (match urls with [] => Ok [] | _ => downloadArchiveImages O [] urls end) as [down|] eqn:Ed; cbn in H; [|done].
  assert (length down = length urls) as Hd.
  { destruct urls; [injection Ed as <-; done|]. by eapply downloadArchiveImages_length. }
  destruct (down ++ _) as [|x l] eqn:E; [done|]. rewrite <-E in H.
  eapply archiveResultImages_length; [exact H| |].
  - rewrite length_app, length_map, length_seq, length_app, renumber_length. lia.
  - right. rewrite length_app, renumber_length. lia.
Qed.
End archive.
