(* ===== verification/System.v ===== *)
(** * The state the server's processes share: MySQL, Redis, the clock

    Redis is not part of the repository: [RedisServer] names the commands the
    source sends, [RedisLaws] what their documentation promises, in terms of
    what a [GET] would answer at every later instant.  [map_redis] is a store
    with these laws, for the witnesses.  The clock advances by an arbitrary
    schedule of delays: whoever looks at it, or sends a command whose effect
    depends on it, first waits for the next delay. *)

From S2P Require Import Prelude Sql Schema GoTime Models Users.

(** All instants and durations are nanoseconds; [GET now k r] is what the
    server [r] answers at [now]. *)
Class RedisServer (R : Type) := {
  GET : Z → string → R → option string;
  SETNX : Z → string → string → Z → R → bool * R;      (* SET key value NX PX ttl *)
  DEL : Z → string → R → Z * R;
  PEXPIRE : Z → string → Z → R → Z * R
}.

(** Two servers that answer alike from now on. *)
Definition same_from `{RedisServer R} (now : Z) (P : string → Prop) (r r' : R) : Prop :=
  ∀ t k, now ≤ t → P k → GET t k r' = GET t k r.

Class RedisLaws (R : Type) `{RedisServer R} := {
  get_only_lapses : ∀ (r : R) k v t t', t ≤ t' → GET t' k r = Some v → GET t k r = Some v;
  setnx_taken : ∀ (r : R) now k v w ttl, GET now k r = Some w →
    (SETNX now k v ttl r).1 = false ∧ same_from now (λ _, True) r (SETNX now k v ttl r).2;
  setnx_free : ∀ (r : R) now k v ttl, 0 < ttl → GET now k r = None →
    (SETNX now k v ttl r).1 = true ∧
    (∀ t, now ≤ t < now + ttl → GET t k (SETNX now k v ttl r).2 = Some v) ∧
    (∀ t, now + ttl < t → GET t k (SETNX now k v ttl r).2 = None) ∧
    same_from now (λ k', k' ≠ k) r (SETNX now k v ttl r).2;
  del_gone : ∀ (r : R) now k t, now ≤ t → GET t k (DEL now k r).2 = None;
  del_others : ∀ (r : R) now k, same_from now (λ k', k' ≠ k) r (DEL now k r).2;
  pexpire_live : ∀ (r : R) now k v ttl, 0 < ttl → GET now k r = Some v →
    (PEXPIRE now k ttl r).1 = 1 ∧
    (∀ t, now ≤ t < now + ttl → GET t k (PEXPIRE now k ttl r).2 = Some v) ∧
    (∀ t, now + ttl < t → GET t k (PEXPIRE now k ttl r).2 = None);
  pexpire_others : ∀ (r : R) now k ttl, same_from now (λ k', k' ≠ k) r (PEXPIRE now k ttl r).2
}.

(** ** A store with these laws *)

Record entry := { e_value : string; e_deadline : option Z }.
Abbreviation map_redis := (gmap string entry).

Definition alive (now : Z) (e : entry) : bool :=
  match e_deadline e with None => true | Some d => now <? d end.

#[global] Instance map_redis_server : RedisServer map_redis := {
  GET now k r := e ← r !! k; if alive now e then Some (e_value e) else None;
  SETNX now k v ttl r :=
    match r !! k with
    | Some e => if alive now e then (false, r)
                else (true, <[k := {| e_value := v; e_deadline := Some (now + ttl) |}]> r)
    | None => (true, <[k := {| e_value := v; e_deadline := Some (now + ttl) |}]> r)
    end;
  DEL now k r := (match r !! k with Some e => if alive now e then 1 else 0 | None => 0 end, delete k r);
  PEXPIRE now k ttl r :=
    match r !! k with
    | Some e => if alive now e
                then (1, <[k := {| e_value := e_value e; e_deadline := Some (now + ttl) |}]> r)
                else (0, r)
    | None => (0, r)
    end
}.

Lemma alive_back e t t' : t ≤ t' → alive t' e = true → alive t e = true.
Proof. unfold alive. destruct (e_deadline e); [lia|done]. Qed.

#[global] Instance map_redis_laws : RedisLaws map_redis.
Proof.
  split; unfold same_from; cbn [GET SETNX DEL PEXPIRE map_redis_server].
  - intros r k v t t' Ht. destruct (r !! k) as [e|]; cbn [mbind option_bind]; [|done].
    destruct (alive t' e) eqn:E; [|done]. by rewrite (alive_back _ _ _ Ht E).
  - intros r now k v w ttl. destruct (r !! k) as [e|]; cbn [mbind option_bind]; [|done].
    by destruct (alive now e).
  - intros r now k v ttl Httl Hk.
    assert (SETNX now k v ttl r = (true, <[k := {| e_value := v; e_deadline := Some (now + ttl) |}]> r)) as Hs.
    { cbn [SETNX map_redis_server]. destruct (r !! k) as [e|]; cbn [mbind option_bind] in *; [|done].
      by destruct (alive now e). }
    cbn [SETNX map_redis_server] in Hs. rewrite Hs. cbn [fst snd]. split_and!; [done| | |].
    + intros t Ht. rewrite lookup_insert_eq. cbn [mbind option_bind]. unfold alive. cbn [e_deadline e_value]. by replace (t <? now + ttl) with true by lia.
    + intros t Ht. rewrite lookup_insert_eq. cbn [mbind option_bind]. unfold alive. cbn [e_deadline e_value]. by replace (t <? now + ttl) with false by lia.
    + intros t k' _ Hk'. by rewrite lookup_insert_ne.
  - intros r now k t _. cbn [snd]. by rewrite lookup_delete_eq.
  - intros r now k t k' _ Hk. cbn [snd]. by rewrite lookup_delete_ne.
  - intros r now k v ttl Httl Hk. destruct (r !! k) as [e|]; cbn [mbind option_bind] in *; [|done].
    destruct (alive now e); [|done]. injection Hk as <-. cbn [fst snd]. split_and!; [done| |].
    + intros t Ht. rewrite lookup_insert_eq. cbn [mbind option_bind]. unfold alive. cbn [e_deadline e_value]. by replace (t <? now + ttl) with true by lia.
    + intros t Ht. rewrite lookup_insert_eq. cbn [mbind option_bind]. unfold alive. cbn [e_deadline e_value]. by replace (t <? now + ttl) with false by lia.
  - intros r now k ttl t k' _ Hk. destruct (r !! k) as [e|]; [|done].
    destruct (alive now e); [|done]. cbn [snd]. by rewrite lookup_insert_ne.
Qed.

(** ** The shared state *)

Record system (R : Type) := System {
  sys_db : database;
  sys_redis : R;
  sys_now : Z;
  sys_delays : list N;
  sys_uuids : nat;         (* how many UUIDs have been drawn *)
  sys_models : Models.registry;
  sys_groups : Users.group_cache
}.
Arguments System {R} _ _ _ _ _ _ _.
Arguments sys_db {R} _.
Arguments sys_redis {R} _.
Arguments sys_now {R} _.
Arguments sys_delays {R} _.
Arguments sys_uuids {R} _.
Arguments sys_models {R} _.
Arguments sys_groups {R} _.

Section system.
Context {R : Type}.
Implicit Types s : system R.

Definition with_db (d : database) (s : system R) : system R :=
  System d (sys_redis s) (sys_now s) (sys_delays s) (sys_uuids s) (sys_models s) (sys_groups s).
Definition with_redis (r : R) (s : system R) : system R :=
  System (sys_db s) r (sys_now s) (sys_delays s) (sys_uuids s) (sys_models s) (sys_groups s).
Definition with_uuids (n : nat) (s : system R) : system R :=
  System (sys_db s) (sys_redis s) (sys_now s) (sys_delays s) n (sys_models s) (sys_groups s).
Definition with_models_cache (r : Models.registry) (s : system R) : system R :=
  System (sys_db s) (sys_redis s) (sys_now s) (sys_delays s) (sys_uuids s) r (sys_groups s).
Definition with_groups_cache (c : Users.group_cache) (s : system R) : system R :=
  System (sys_db s) (sys_redis s) (sys_now s) (sys_delays s) (sys_uuids s) (sys_models s) c.

(** The clock moves on by at least [d]. *)
Definition wait (d : Z) (s : system R) : system R :=
  match sys_delays s with
  | [] => System (sys_db s) (sys_redis s) (sys_now s + d) [] (sys_uuids s) (sys_models s) (sys_groups s)
  | e :: es => System (sys_db s) (sys_redis s) (sys_now s + d + Z.of_N e) es (sys_uuids s) (sys_models s) (sys_groups s)
  end.

(** [time.Now()] *)
Definition Now : DB (system R) Z := λ w,
  let s := wait 0 (w_db w) in (Ok (sys_now s), World s (w_faults w)).

(** [time.Sleep], or a timer: at least [d]. *)
Definition Sleep (d : Z) : DB (system R) unit := λ w, (Ok tt, World (wait d (w_db w)) (w_faults w)).

(** A statement, or a transaction, on the database. *)
Definition on_db {A} (m : DBM A) : DB (system R) A := λ w,
  let '(r, w') := m (World (sys_db (w_db w)) (w_faults w)) in
  (r, World (with_db (w_db w') (w_db w)) (w_faults w')).

(** A command, or a script, sent to Redis. *)
Definition redis {A} (f : Z → R → A * R) : DB (system R) A :=
  call (λ s, let s := wait 0 s in
             let '(a, r) := f (sys_now s) (sys_redis s) in (Ok a, with_redis r s)).

(** [uuid.NewString()] *)
Definition NewString (uuid : nat → string) : DB (system R) string := λ w,
  (Ok (uuid (sys_uuids (w_db w))), World (with_uuids (S (sys_uuids (w_db w))) (w_db w)) (w_faults w)).

Lemma wait_now d s : 0 ≤ d → sys_now s + d ≤ sys_now (wait d s).
Proof. intros. unfold wait. destruct (sys_delays s); cbn; lia. Qed.
Lemma wait_db d s : sys_db (wait d s) = sys_db s.
Proof. unfold wait. by destruct (sys_delays s). Qed.
Lemma wait_redis d s : sys_redis (wait d s) = sys_redis s.
Proof. unfold wait. by destruct (sys_delays s). Qed.

(** Invariants of everything but the clock, under which time only passes. *)
Definition forward (P : relation (system R)) : Prop :=
  PreOrder P ∧
  (∀ s d, 0 ≤ d → P s (wait d s)) ∧ (∀ s d, P s (with_db d s)) ∧
  (∀ s, P s (with_uuids (S (sys_uuids s)) s)).

Lemma Now_keeps P : forward P → Keeps P Now.
Proof. intros (_ & Hw & _) [s fs]. cbn. by apply Hw. Qed.
Lemma Sleep_keeps P d : forward P → 0 ≤ d → Keeps P (Sleep d).
Proof. intros (_ & Hw & _) Hd [s fs]. cbn. by apply Hw. Qed.
Lemma on_db_keeps P {A} (m : DBM A) : forward P → Keeps P (on_db m).
Proof. intros (_ & _ & Hd & _) [s fs]. unfold on_db. cbn. destruct (m _) as [r [d' fs']]. cbn. apply Hd. Qed.
Lemma NewString_keeps P uuid : forward P → Keeps P (NewString uuid).
Proof. intros (_ & _ & _ & Hu) [s fs]. cbn. apply Hu. Qed.

#[global] Instance Now_steady : Steady Now.
Proof. by intros [s fs]. Qed.
#[global] Instance Sleep_steady d : Steady (Sleep d).
Proof. by intros [s fs]. Qed.
#[global] Instance on_db_steady {A} (m : DBM A) : Steady m → Steady (on_db m).
Proof.
  intros Hm [s fs] Hf. cbn in Hf. unfold on_db. cbn. specialize (Hm (World (sys_db s) fs) Hf).
  by destruct (m _) as [r [d' fs']].
Qed.
#[global] Instance NewString_steady uuid : Steady (NewString uuid).
Proof. by intros [s fs]. Qed.
#[global] Instance redis_steady {A} (f : Z → R → A * R) : Steady (redis f).
Proof. unfold redis. apply _. Qed.

Lemma redis_keeps P {A} (f : Z → R → A * R) :
  forward P →
  (∀ s, P s (with_redis (f (sys_now s) (sys_redis s)).2 s)) → Keeps P (redis f).
Proof.
  intros (HP & Hw & _) Hf [s fs]. unfold redis, call. cbn.
  assert (P s (let '(_, d) := (let s := wait 0 s in
    let '(a, r) := f (sys_now s) (sys_redis s) in (Ok a, with_redis r s)) in d)) as H.
  { cbn. etrans; [by apply (Hw s 0)|]. specialize (Hf (wait 0 s)). by destruct (f _ _). }
  destruct fs as [|[] fs]; cbn; [|done|]; cbn in H; by destruct (f _ _).
Qed.
End system.
