(* ===== verification/RateLimit.v ===== *)
(** * Rate limits (pkg/ratelimit, internal/ratelimit)

    The token bucket the Lua script keeps in Redis, and the two limits of a
    key.  Lua's numbers are [float64], rounded operation by operation;
    [tostring] keeps 14 significant digits of them, so what a script reads
    back is not exactly what the last one computed.  The commands on a hash
    are a class of their own: only the limiter uses them. *)

From S2P Require Import Models Users Prelude Float Sql Schema GoTime System.
From Stdlib Require Import QArith Lqa Qabs.
#[local] Open Scope Z_scope.

(** ** Lua's numbers as text *)

(** The decimal logarithm of [z], rounded down. *)
Fixpoint ilog10 (fuel : nat) (z : Z) : Z :=
  match fuel with
  | O => 0
  | S fuel => if z <? 10 then 0 else 1 + ilog10 fuel (z / 10)
  end.

Definition log10 (z : Z) : Z := ilog10 (Z.to_nat (Z.log2 z + 1)) z.

(** [e] with [10^e <= q < 10^(e+1)], for a positive [q]. *)
Definition decimal_exponent (q : Q) : Z :=
  let z := Qnum q / Zpos (Qden q) in
  if 1 <=? z then log10 z
  else
    let r := (Zpos (Qden q) - 1) / Qnum q in
    - 1 - log10 r.

Definition dec14_pos (q : Q) : Q :=
  let e := decimal_exponent q in
  (inject_Z (nearest (q * pow10 (13 - e))) * pow10 (e - 13))%Q.

(** [tonumber(tostring(q))]: "%.14g", then the nearest [float64]. *)
Definition reread (q : Q) : Q :=
  if Qnum q =? 0 then 0%Q
  else if 0 <? Qnum q then rnd (dec14_pos q) else (- rnd (dec14_pos (- q)))%Q.

Example reread_third : reread (rnd (1 # 3)) = rnd (33333333333333 # 100000000000000).
Proof. by vm_compute. Qed.
Example reread_big : reread (inject_Z 123456789012345678) = inject_Z 123456789012350000.
Proof. by vm_compute. Qed.
Example reread_small : Qeq_bool (reread (rnd (125 # 100000))) (rnd (125 # 100000)) = true.
Proof. by vm_compute. Qed.

(** ** The script *)

(** A bucket as the next script reads it: the tokens and the milliseconds of
    its last visit. *)
Record bucket := { b_tokens : Q; b_ts : Z }.

(** [math.min] and [math.max]: the first argument unless the second is
    smaller, or larger. *)
Definition qmin (x y : Q) : Q := if Qle_bool x y then x else y.
Definition qmax (x y : Q) : Q := if Qle_bool y x then x else y.

(** [math.ceil] *)
Definition ceil (q : Q) : Z := - (- Qnum q / Zpos (Qden q)).

Definition refilled (capacity refill : Q) (now : Z) (b : option bucket) : Q :=
  let '(tokens, ts) := match b with Some b => (b_tokens b, b_ts b) | None => (capacity, now) end in
  let delta := fmul (fdiv (of_int (now - ts)) 1000) refill in
  qmin capacity (fadd tokens delta).

(** Whether the cost was granted, and what is left. *)
Definition spend (tokens cost : Q) : bool * Q :=
  if Qle_bool cost tokens then (true, fadd tokens (- cost)) else (false, tokens).

(** The TTL of the bucket, in milliseconds. *)
Definition bucket_ttl (capacity refill : Q) : Z :=
  ceil (fmul (fdiv capacity (qmax refill (rnd (1 # 1000)))) 2000).

(** ** Redis hashes *)

(** [HMGET key tokens ts], and [HMSET] followed by [PEXPIRE]. *)
Class RedisHashes (R : Type) := {
  HMGET : Z → string → R → option bucket;
  HMSET : Z → string → bucket → Z → R → R
}.

Class RedisHashLaws (R : Type) `{RedisServer R, RedisHashes R} := {
  hmset_reads : ∀ (r : R) now k b ttl t, now ≤ t → 0 < ttl →
    HMGET t k (HMSET now k b ttl r) = if t <? now + ttl then Some b else None;
  hmset_others : ∀ (r : R) now k b ttl t k', now ≤ t → k' ≠ k → HMGET t k' (HMSET now k b ttl r) = HMGET t k' r;
  hmset_strings : ∀ (r : R) now k b ttl, same_from now (λ k', k' ≠ k) r (HMSET now k b ttl r)
}.

Section limiter.
Context {R : Type} `{!RedisServer R, !RedisHashes R}.

(** The script: [now] is the server's own clock, [nowMs] the caller's. *)
Definition script (key : string) (capacity refill : Q) (nowMs : Z) (cost : Q) (now : Z) (r : R) : (bool * Q) * R :=
  let tokens := refilled capacity refill nowMs (HMGET now key r) in
  let '(allowed, tokens) := spend tokens cost in
  ((allowed, reread tokens),
   HMSET now key {| b_tokens := reread tokens; b_ts := nowMs |} (bucket_ttl capacity refill * 1000000) r).

(** [Allow]; [strconv.ParseFloat] reads the answer as Lua would. *)
Definition Allow (key : string) (capacity cost : Z) (refillPerSec : Q) : DB (system R) (bool * Q) :=
  now <- Now ;;
  redis (script key (of_int capacity) refillPerSec (now / 1000000) (of_int cost)).

Definition refill_of (capacity : Z) : Q := fdiv (of_int capacity) 60.

Definition rpm_key (keyID : N) : string := "rl:rpm:k:" +:+ pretty keyID.
Definition tpm_key (keyID : N) : string := "rl:tpm:k:" +:+ pretty keyID.

Definition AllowRPM (keyID : N) (capacity : Z) : DB (system R) (bool * Q) :=
  if capacity <=? 0 then ret (true, 0%Q)
  else Allow (rpm_key keyID) capacity 1 (refill_of capacity).

Definition AllowTPM (keyID : N) (capacity tokens : Z) : DB (system R) (bool * Q) :=
  if (capacity <=? 0) || (tokens <=? 0) then ret (true, 0%Q)
  else Allow (tpm_key keyID) capacity tokens (refill_of capacity).

(** Nothing is given back for a negative difference. *)
Definition AdjustTPM (keyID : N) (capacity delta : Z) : DB (system R) unit :=
  if (capacity <=? 0) || (delta =? 0) then ret tt
  else if 0 <? delta then ignore (Allow (tpm_key keyID) capacity delta (refill_of capacity))
  else ret tt.
End limiter.

(** ** Rounding errors *)

Lemma ilog10_spec fuel z :
  0 < z < 10 ^ Z.of_nat fuel → 0 ≤ ilog10 fuel z ∧ 10 ^ ilog10 fuel z ≤ z < 10 ^ (ilog10 fuel z + 1).
Proof.
  revert z. induction fuel as [|fuel IH]; intros z Hz; [cbn in Hz; lia|]. cbn [ilog10].
  destruct (Z.ltb_spec z 10) as [|Hz10]; [change (10 ^ 0) with 1; change (10 ^ (0 + 1)) with 10; lia|].
  rewrite Nat2Z.inj_succ, Z.pow_succ_r in Hz by lia.
  destruct (IH (z / 10)) as (H0 & H1 & H2).
  { split; [apply Z.div_str_pos; lia|apply Z.div_lt_upper_bound; lia]. }
  split; [lia|]. rewrite (Z.add_comm 1), !Z.pow_add_r in * by lia. change (10 ^ 1) with 10 in *.
  pose proof (Z.div_mod z 10 ltac:(lia)). pose proof (Z.mod_pos_bound z 10 ltac:(lia)). nia.
Qed.

Lemma log10_spec z : 0 < z → 0 ≤ log10 z ∧ 10 ^ log10 z ≤ z < 10 ^ (log10 z + 1).
Proof.
  intros Hz. unfold log10. apply ilog10_spec. split; [done|].
  pose proof (Z.log2_nonneg z). rewrite Z2Nat.id by lia. pose proof (Z.log2_spec z Hz) as [_ H1].
  eapply Z.lt_le_trans; [exact H1|]. apply Z.pow_le_mono_l. lia.
Qed.

Lemma pow10_Qpower e : (pow10 e == 10 ^ e)%Q.
Proof.
  unfold pow10. destruct (Z.leb_spec 0 e) as [He|He].
  - by rewrite Zpower_Qpower.
  - assert (10 ^ e == / inject_Z (10 ^ (- e)))%Q as ->.
    { rewrite Zpower_Qpower by lia. change (inject_Z 10) with 10%Q.
      rewrite <-Qpower_opp, Z.opp_involutive. reflexivity. }
    pose proof (Z.pow_pos_nonneg 10 (- e) ltac:(lia) ltac:(lia)) as Hp.
    unfold inject_Z, Qinv, Qeq; cbn. destruct (10 ^ (- e)); cbn; lia.
Qed.

Lemma decimal_exponent_lower q : (0 < q)%Q → (pow10 (decimal_exponent q) <= q)%Q.
Proof.
  destruct q as [n d]. unfold Qlt. cbn. rewrite Z.mul_1_r. intros Hn. unfold decimal_exponent. cbn [Qnum Qden].
  pose proof (Z.div_mod n (Zpos d) ltac:(lia)) as Hdm. pose proof (Z.mod_pos_bound n (Zpos d) ltac:(lia)).
  destruct (Z.leb_spec 1 (n / Zpos d)) as [H1|H1].
  - destruct (log10_spec (n / Zpos d)) as (H2 & H3 & _); [lia|]. unfold pow10.
    replace (0 <=? log10 (n / Zpos d)) with true by lia. unfold Qle; cbn [Qnum Qden inject_Z]. nia.
  - assert (n < Zpos d) as Hlt by nia. set (r := (Zpos d - 1) / n).
    assert (0 < r) as Hr by (apply Z.div_str_pos; lia). destruct (log10_spec r Hr) as (H2 & _ & H3).
    unfold pow10. replace (0 <=? -1 - log10 r) with false by lia. replace (- (-1 - log10 r)) with (log10 r + 1) by lia.
    pose proof (Z.pow_pos_nonneg 10 (log10 r + 1) ltac:(lia) ltac:(lia)) as Hp.
    unfold Qle; cbn [Qnum Qden]. rewrite Z2Pos.id by lia.
    pose proof (Z.div_mod (Zpos d - 1) n ltac:(lia)) as Hd. fold r in Hd.
    pose proof (Z.mod_pos_bound (Zpos d - 1) n ltac:(lia)). nia.
Qed.

Lemma nearest_error x : (inject_Z (nearest x) <= x + (1 # 2))%Q.
Proof.
  unfold nearest. pose proof (rne_error (Qnum x) (Zpos (Qden x)) ltac:(lia)) as H.
  unfold Qle; cbn. destruct x as [n d]; cbn in *. nia.
Qed.

Lemma dec14_pos_upper q : (0 < q)%Q → (dec14_pos q <= q * (1 + (1 # 10000000000000)))%Q.
Proof.
  intros Hq. unfold dec14_pos. pose proof (decimal_exponent_lower q Hq) as He.
  set (e := decimal_exponent q) in *. pose proof (nearest_error (q * pow10 (13 - e))) as Hn.
  generalize dependent (nearest (q * pow10 (13 - e))). intros z Hn. rewrite !pow10_Qpower in *.
  assert (Hinv : (10 ^ (13 - e) * 10 ^ (e - 13) == 1)%Q).
  { rewrite <-Qpower_plus by done. by replace (13 - e + (e - 13)) with 0 by lia. }
  assert (Hsmall : (10 ^ (e - 13) == 10 ^ e * (1 # 10000000000000))%Q).
  { unfold Z.sub. rewrite Qpower_plus by done. reflexivity. }
  assert (Hpos : (0 < 10 ^ (e - 13))%Q) by (apply Qpower_0_lt; lra).
  apply (Qmult_le_compat_r _ _ (10 ^ (e - 13))) in Hn; [|lra].
  eapply Qle_trans; [exact Hn|].
  assert ((q * 10 ^ (13 - e) + (1 # 2)) * 10 ^ (e - 13) == q * (10 ^ (13 - e) * 10 ^ (e - 13)) + (1 # 2) * 10 ^ (e - 13))%Q as -> by ring.
  rewrite Hinv, Hsmall. lra.
Qed.

Lemma dec14_pos_nonneg q : (0 < q)%Q → (0 <= dec14_pos q)%Q.
Proof.
  intros Hq. unfold dec14_pos. set (e := decimal_exponent q).
  assert (0 <= nearest (q * pow10 (13 - e))) as Hn.
  { unfold nearest. rewrite <-(rne_exact 0). apply rne_mono; [done..|]. rewrite Z.mul_0_l, Z.mul_1_r.
    assert (0 <= q * pow10 (13 - e))%Q as H0.
    { apply Qmult_le_0_compat; [lra|]. rewrite pow10_Qpower. apply Qpower_pos. lra. }
    unfold Qle in H0; cbn in H0. cbn. lia. }
  apply Qmult_le_0_compat; [|rewrite pow10_Qpower; apply Qpower_pos; lra].
  change 0%Q with (inject_Z 0). by rewrite <-Zle_Qle.
Qed.

(** Rounding up by at most one part in [2^53], or by next to nothing. *)
Definition tiny : Q := 1 # 2 ^ 99.

Lemma rnd_nonneg x : (0 <= x)%Q → (0 <= rnd x)%Q.
Proof. intros Hx. pose proof (rnd_mono 0 x ltac:(lra) Hx) as H. by rewrite (rnd_0 0) in H. Qed.

Lemma rnd_upper x : (0 <= x)%Q → (rnd x <= x * (1 + ulp) + tiny)%Q.
Proof.
  intros Hx. assert (Ht : (tiny == 2 * (1 # 2 ^ 100))%Q) by done. rewrite Ht.
  assert (H0 : (0 < 1 # 2 ^ 100)%Q) by done.
  pose proof (rnd_error (1 # 2 ^ 100) (Qle_refl _)) as [_ H'].
  pose proof (rnd_mono x (1 # 2 ^ 100) Hx) as Hm. pose proof (rnd_error x) as He.
  set (t := (1 # 2 ^ 100)%Q) in *. clearbody t. unfold ulp in *. clear Ht.
  destruct (Qlt_le_dec x t) as [Hlt|Hge].
  - specialize (Hm ltac:(lra)). lra.
  - destruct (He Hge) as [_ H]. lra.
Qed.

Lemma reread_upper q : (0 <= q)%Q → (0 <= reread q <= q * (1 + (2 # 10000000000000)) + tiny)%Q.
Proof.
  intros Hq. unfold reread. destruct (Z.eqb_spec (Qnum q) 0) as [E|E].
  - unfold tiny. split; [done|]. assert (q == 0)%Q as -> by (unfold Qeq; cbn; lia). done.
  - assert (0 < Qnum q) as Hn by (unfold Qle in Hq; cbn in Hq; lia).
    replace (0 <? Qnum q) with true by lia. assert (0 < q)%Q as Hq' by (unfold Qlt; cbn; lia).
    pose proof (dec14_pos_upper q Hq') as Hu. pose proof (dec14_pos_nonneg q Hq') as H0.
    split; [by apply rnd_nonneg|]. pose proof (rnd_upper _ H0) as H. unfold ulp in H. lra.
Qed.

(** ** What one visit grants *)

Definition slack : Q := 3 # 10000000000000.

Lemma tiny_small : (0 < tiny /\ tiny <= 1 # 100000000000000000000)%Q.
Proof. split; [reflexivity|]. unfold tiny, Qle. vm_compute. discriminate. Qed.

(** What came in since the last visit, on paper. *)
Definition inflow (refill : Q) (ms : Z) : Q := (inject_Z ms / 1000 * refill)%Q.

Lemma delta_upper F ms :
  0 ≤ ms → (0 <= F)%Q →
  (0 <= fmul (fdiv (of_int ms) 1000) F <= inflow F ms * (1 + 8 * ulp) + (3 * F + 1) * tiny)%Q.
Proof.
  intros Hms HF. unfold fmul, fdiv, inflow. destruct (of_int_near ms Hms) as [Ha1 Ha].
  assert (H0 : (0 <= inject_Z ms)%Q) by (change 0%Q with (inject_Z 0); by rewrite <-Zle_Qle).
  assert (Hdiv : ∀ x, (x / 1000 == x * (1 # 1000))%Q) by reflexivity.
  destruct tiny_small as [Ht0 Ht].
  assert (Ha0 : (0 <= of_int ms)%Q) by (unfold ulp in *; lra).
  assert (Hb0 : (0 <= of_int ms / 1000)%Q) by (rewrite Hdiv; lra).
  pose proof (rnd_upper _ Hb0) as Hb. pose proof (rnd_nonneg _ Hb0) as Hb1.
  set (b := rnd (of_int ms / 1000)) in *. clearbody b. rewrite Hdiv in Hb |- *.
  assert (Hb2 : (b <= inject_Z ms * (1 # 1000) * (1 + 4 * ulp) + 2 * tiny)%Q).
  { clear -Hb Ha Ha0 H0 Ht Ht0. unfold ulp in *. lra. }
  assert (Hc0 : (0 <= b * F)%Q) by (by apply Qmult_le_0_compat).
  pose proof (rnd_upper _ Hc0) as Hc. pose proof (rnd_nonneg _ Hc0) as Hc1. split; [done|].
  apply (Qmult_le_compat_r _ _ F) in Hb2; [|done].
  assert (E : ((inject_Z ms * (1 # 1000) * (1 + 4 * ulp) + 2 * tiny) * F ==
    inject_Z ms * (1 # 1000) * F * (1 + 4 * ulp) + 2 * (F * tiny))%Q) by ring. rewrite E in Hb2. clear E.
  assert (E : ((3 * F + 1) * tiny == 3 * (F * tiny) + tiny)%Q) by ring. rewrite E. clear E.
  assert (Hd0 : (0 <= inject_Z ms * (1 # 1000) * F)%Q) by (apply Qmult_le_0_compat; [lra|done]).
  assert (Hft : (0 <= F * tiny)%Q) by (apply Qmult_le_0_compat; lra).
  set (x := (inject_Z ms * (1 # 1000) * F)%Q) in *. set (ft := (F * tiny)%Q) in *. set (c := (b * F)%Q) in *.
  clearbody x ft. unfold ulp in *. lra.
Qed.

(** A bucket the limiter can have left, when [nowMs] is not before it. *)
Definition sound (capacity : Q) (nowMs : Z) (b : option bucket) : Prop :=
  match b with Some b => (0 <= b_tokens b <= 2 * capacity)%Q ∧ b_ts b ≤ nowMs | None => True end.
Definition held_tokens (capacity : Q) (b : option bucket) : Q := match b with Some b => b_tokens b | None => capacity end.
Definition idle (nowMs : Z) (b : option bucket) : Z := match b with Some b => nowMs - b_ts b | None => 0 end.

Lemma qmin_le x y : (qmin x y <= x /\ qmin x y <= y)%Q.
Proof.
  unfold qmin. destruct (Qle_bool x y) eqn:E; [apply Qle_bool_iff in E; split; [apply Qle_refl|done]|].
  assert (¬ (x <= y)%Q) as H by (intros H%Qle_bool_iff; congruence). apply Qnot_le_lt in H. split; lra.
Qed.
Lemma qmin_nonneg x y : (0 <= x)%Q → (0 <= y)%Q → (0 <= qmin x y)%Q.
Proof. intros. unfold qmin. by destruct (Qle_bool x y). Qed.

Lemma refilled_upper C F nowMs b :
  (1 <= C)%Q → (0 <= F <= C)%Q → sound C nowMs b →
  (0 <= refilled C F nowMs b <= C /\
   refilled C F nowMs b <= held_tokens C b + inflow F (idle nowMs b) + C * (1 # 100000000000000))%Q.
Proof.
  intros HC [HF0 HF] Hb. unfold refilled. set (tokens := held_tokens C b).
  assert (Hsplit : (let '(t, ts) := match b with Some b => (b_tokens b, b_ts b) | None => (C, nowMs) end in
    qmin C (fadd t (fmul (fdiv (of_int (nowMs - ts)) 1000) F))) =
    qmin C (fadd tokens (fmul (fdiv (of_int (idle nowMs b)) 1000) F))).
  { destruct b; cbn; [done|]. by rewrite Z.sub_diag. }
  rewrite Hsplit. clear Hsplit.
  assert (Ht : (0 <= tokens <= 2 * C)%Q) by (destruct b; cbn in *; [tauto|lra]).
  assert (Hms : 0 ≤ idle nowMs b) by (destruct b; cbn in *; lia).
  pose proof (delta_upper F (idle nowMs b) Hms HF0) as [Hd0 Hd]. set (dl := fmul _ F) in *. clearbody dl.
  set (i := inflow F (idle nowMs b)) in *. clearbody i. destruct Ht as [Ht0 Ht].
  assert (Hs0 : (0 <= tokens + dl)%Q) by lra. pose proof (rnd_upper _ Hs0) as Hs. pose proof (rnd_nonneg _ Hs0) as Hs1.
  unfold fadd. set (s := rnd (tokens + dl)) in *. clearbody s. pose proof (qmin_le C s) as [Hq1 Hq2].
  split; [split; [apply qmin_nonneg; lra|done]|]. destruct tiny_small as [Hy0 Hy].
  assert (HFt : (F * tiny <= C * (1 # 100000000000000000000))%Q).
  { apply Qle_trans with (C * tiny)%Q; [apply Qmult_le_compat_r; lra|].
    rewrite (Qmult_comm C tiny), (Qmult_comm C). apply Qmult_le_compat_r; lra. }
  assert (HFt0 : (0 <= F * tiny)%Q) by (apply Qmult_le_0_compat; lra).
  assert (E : ((3 * F + 1) * tiny == 3 * (F * tiny) + tiny)%Q) by ring. rewrite E in Hd. clear E.
  set (ft := (F * tiny)%Q) in *. clearbody ft. set (q := qmin C s) in *. clearbody q.
  destruct (Qlt_le_dec (2 * C) i) as [Hi|Hi]; unfold ulp in *; lra.
Qed.

Lemma spend_upper C u c ok t :
  (1 <= C)%Q → (0 <= u <= C)%Q → (0 <= c)%Q → spend u c = (ok, t) →
  (0 <= reread t <= 2 * C /\
   (if ok then c else 0) + reread t <= u + C * (25 # 100000000000000))%Q.
Proof.
  intros HC [Hu0 Hu] Hc. unfold spend. destruct tiny_small as [Hy0 Hy].
  destruct (Qle_bool c u) eqn:E; intros [= <- <-].
  - apply Qle_bool_iff in E. unfold fadd. assert (H0 : (0 <= u + - c)%Q) by lra.
    pose proof (rnd_upper _ H0) as H1. pose proof (rnd_nonneg _ H0) as H2. set (t := rnd (u + - c)) in *. clearbody t.
    pose proof (reread_upper t H2) as [H3 H4]. set (r := reread t) in *. clearbody r. unfold ulp in *. split; lra.
  - pose proof (reread_upper u Hu0) as [H3 H4]. set (r := reread u) in *. clearbody r. split; lra.
Qed.

Lemma visit_upper C F nowMs b c ok t :
  (1 <= C)%Q → (0 <= F <= C)%Q → (0 <= c)%Q → sound C nowMs b →
  spend (refilled C F nowMs b) c = (ok, t) →
  (0 <= reread t <= 2 * C /\
   (if ok then c else 0) + reread t <= held_tokens C b + inflow F (idle nowMs b) + C * slack)%Q.
Proof.
  intros HC HF Hc Hb Hs. destruct (refilled_upper C F nowMs b HC HF Hb) as [Hu H1].
  destruct (spend_upper C _ c ok t HC Hu Hc Hs) as [H2 H3]. split; [done|].
  set (r := refilled _ _ _ _) in *. clearbody r. set (x := reread t) in *. clearbody x. unfold slack.
  set (y := (if ok then c else 0)%Q) in *. clearbody y. set (i := inflow F _) in *. clearbody i. lra.
Qed.

(** ** What a client can get in a time *)

Lemma refill_bounds cap :
  1 ≤ cap ≤ 2 ^ 50 →
  (1 <= of_int cap /\ of_int cap * (1 # 60) * (1 - ulp) <= refill_of cap /\
   refill_of cap <= of_int cap * (1 # 60) * (1 + ulp))%Q.
Proof.
  intros Hc. assert (H1 : (1 <= of_int cap)%Q).
  { apply Qle_trans with (rnd 1); [vm_compute; discriminate|]. apply rnd_mono; [done|].
    change 1%Q with (inject_Z 1). rewrite <-Zle_Qle. lia. }
  split; [done|]. unfold refill_of, fdiv. assert (E : (of_int cap / 60 == of_int cap * (1 # 60))%Q) by reflexivity.
  rewrite E. destruct (rnd_near (of_int cap * (1 # 60))) as (_ & H2 & H3).
  - right. apply Qle_trans with (1 # 60)%Q; [done|]. lra.
  - set (x := rnd _) in *. clearbody x. unfold ulp in *. split; lra.
Qed.

Lemma ceil_ge q z : (inject_Z z <= q)%Q → z ≤ ceil q.
Proof.
  unfold ceil, Qle, inject_Z; cbn. intros H.
  assert (- Qnum q / QDen q ≤ - z) as Hd; [|lia].
  apply Z.div_le_upper_bound; lia.
Qed.

Lemma bucket_ttl_long cap : 1 ≤ cap ≤ 2 ^ 50 → 119999 ≤ bucket_ttl (of_int cap) (refill_of cap).
Proof.
  intros Hc. destruct (refill_bounds cap Hc) as (HC & HF1 & HF2). unfold bucket_ttl.
  set (C := of_int cap) in *. set (F := refill_of cap) in *. clearbody C F.
  assert (HF0 : (0 < F)%Q) by (unfold ulp in *; lra).
  assert (Hq : qmax F (rnd (1 # 1000)) = F).
  { unfold qmax. assert (rnd (1 # 1000) <= 1 # 999)%Q as Hr by (vm_compute; discriminate).
    assert (Qle_bool (rnd (1 # 1000)) F = true) as ->; [|done]. apply Qle_bool_iff. unfold ulp in *. lra. }
  rewrite Hq. apply ceil_ge. unfold fmul, fdiv.
  assert (H1 : (59 + (999999 # 1000000) <= C / F)%Q).
  { apply Qle_shift_div_l; [done|]. unfold ulp in *. lra. }
  pose proof (rnd_error (C / F)) as [H2 _]; [eapply Qle_trans; [|exact H1]; done|].
  set (x := rnd (C / F)) in *. clearbody x. assert (H3 : (59 + (999998 # 1000000) <= x)%Q) by (unfold ulp in *; lra).
  pose proof (rnd_error (x * 2000)) as [H4 _]; [apply Qle_trans with 1%Q; [done|lra]|].
  set (y := rnd (x * 2000)) in *. clearbody y. change (inject_Z 119999) with 119999%Q. unfold ulp in *. lra.
Qed.

Section rate.
Context {R : Type} `{!RedisServer R, !RedisHashes R, !RedisHashLaws R}.

(** Visits to one bucket: after a pause, a request of a cost. *)
Fixpoint visits (key : string) (cap : Z) (l : list (N * Z)) (w : world (system R)) :
    list (Z * result (bool * Q)) * world (system R) :=
  match l with
  | [] => ([], w)
  | (pause, cost) :: l =>
      let w1 := (Sleep (Z.of_N pause) w).2 in
      let '(r, w2) := Allow key cap cost (refill_of cap) w1 in
      let '(rs, w3) := visits key cap l w2 in ((cost, r) :: rs, w3)
  end.

Definition granted (p : Z * result (bool * Q)) : Q :=
  match p.2 with Ok (true, _) => of_int p.1 | _ => 0%Q end.
Fixpoint total (rs : list (Z * result (bool * Q))) : Q :=
  match rs with [] => 0%Q | p :: rs => (granted p + total rs)%Q end.

Definition ms (s : system R) : Z := sys_now s / 1000000.

(** The bucket of [key]: none from now on, or one that will be there until its
    deadline. *)
Definition bucket_at (key : string) (s : system R) (b : option (bucket * Z)) : Prop :=
  ∀ t, sys_now s ≤ t → HMGET t key (sys_redis s) =
    match b with Some (b, deadline) => if t <? deadline then Some b else None | None => None end.

(** After [g] has been granted in [n] visits since [start]. *)
Definition limited (key : string) (cap start : Z) (g : Q) (n : nat) (s : system R) : Prop :=
  start ≤ ms s ∧ ∃ b, bucket_at key s b ∧
  match b with
  | None => (g <= inject_Z (Z.of_nat n) * (of_int cap * slack))%Q
  | Some (b, deadline) =>
      (0 <= b_tokens b <= 2 * of_int cap)%Q ∧ b_ts b ≤ ms s ∧
      b_ts b * 1000000 + bucket_ttl (of_int cap) (refill_of cap) * 1000000 ≤ deadline ∧
      (g + b_tokens b + inflow (refill_of cap) (ms s - b_ts b) <=
        of_int cap + inflow (refill_of cap) (ms s - start) + inject_Z (Z.of_nat n) * (of_int cap * slack))%Q
  end.
Lemma inflow_add F a b : (inflow F (a + b) == inflow F a + inflow F b)%Q.
Proof. unfold inflow. rewrite inject_Z_plus. field. Qed.
Lemma inflow_nonneg F a : (0 <= F)%Q → 0 ≤ a → (0 <= inflow F a)%Q.
Proof.
  intros HF Ha. unfold inflow. apply Qmult_le_0_compat; [|done]. unfold Qdiv. apply Qmult_le_0_compat; [|done].
  change 0%Q with (inject_Z 0). by rewrite <-Zle_Qle.
Qed.
Lemma inflow_mono F a b : (0 <= F)%Q → a ≤ b → (inflow F a <= inflow F b)%Q.
Proof.
  intros HF Hab. replace b with (a + (b - a)) by lia. rewrite inflow_add.
  pose proof (inflow_nonneg F (b - a) HF ltac:(lia)). lra.
Qed.

Lemma limited_wait key cap start g n s s' :
  sys_now s ≤ sys_now s' → sys_redis s' = sys_redis s → limited key cap start g n s → limited key cap start g n s'.
Proof.
  intros Hn Hr (Hs & b & Hb & Hlim).
  assert (Hms : ms s ≤ ms s') by (unfold ms; apply Z.div_le_mono; lia).
  split; [lia|]. exists b. split; [intros t Ht; rewrite Hr; apply Hb; lia|].
  destruct b as [[b deadline]|]; [|done]. destruct Hlim as (Ht & Hts & Hd & HP).
  split_and!; [apply Ht|apply Ht|lia|done|].
  replace (ms s' - b_ts b) with (ms s - b_ts b + (ms s' - ms s)) by lia.
  replace (ms s' - start) with (ms s - start + (ms s' - ms s)) by lia.
  rewrite !inflow_add. lra.
Qed.

Definition latency : Z := 50 * second.

Lemma wait_latency d (s : system R) :
  Forall (λ e, Z.of_N e ≤ latency) (sys_delays s) →
  sys_now (wait d s) ≤ sys_now s + d + latency ∧ Forall (λ e, Z.of_N e ≤ latency) (sys_delays (wait d s)).
Proof.
  unfold wait. destruct (sys_delays s) as [|e es] eqn:E; cbn; [unfold latency, second; intros _; split; [lia|constructor]|].
  rewrite Forall_cons. intros [He Hes]. split; [lia|done].
Qed.


Lemma limited_more key cap start g n s :
  (0 <= of_int cap)%Q → limited key cap start g n s → limited key cap start g (S n) s.
Proof.
  intros HC (Hs & b & Hb & Hlim). split; [done|]. exists b. split; [done|].
  assert (Hsl : (0 <= of_int cap * slack)%Q) by (apply Qmult_le_0_compat; [done|by compute]).
  assert (Hn : (inject_Z (Z.of_nat (S n)) == inject_Z (Z.of_nat n) + 1)%Q).
  { rewrite Nat2Z.inj_succ. unfold Z.succ. by rewrite inject_Z_plus. }
  destruct b as [[b deadline]|].
  - destruct Hlim as (H1 & H2 & H3 & H4). split_and!; try done; [apply H1..|]. rewrite Hn. lra.
  - rewrite Hn. lra.
Qed.

(** The script, run at the clock of [s2] with the time the caller read in
    [s1]. *)
Lemma script_limited key cap start g n cost s1 s2 a r' :
  1 ≤ cap ≤ 2 ^ 50 → 0 ≤ cost →
  sys_now s1 ≤ sys_now s2 ≤ sys_now s1 + latency → sys_redis s2 = sys_redis s1 →
  limited key cap start g n s1 →
  script key (of_int cap) (refill_of cap) (ms s1) (of_int cost) (sys_now s2) (sys_redis s2) = (a, r') →
  limited key cap start (g + granted (cost, Ok a)) (S n) (with_redis r' s2).
Proof.
  intros Hcap Hcost Hnow Hr Hlim Hscript. destruct (refill_bounds cap Hcap) as (HC & HF1 & HF2).
  pose proof (bucket_ttl_long cap Hcap) as Httl.
  set (C := of_int cap) in *. set (F := refill_of cap) in *.
  assert (HF : (0 <= F <= C)%Q) by (clearbody C F; unfold ulp in *; split; lra).
  destruct Hlim as (Hs & b & Hb & Hlim). pose proof (Hb (sys_now s2) ltac:(lia)) as Hget. rewrite <-Hr in Hget.
  unfold script in Hscript. rewrite Hget in Hscript.
  set (b0 := match b with Some (b, deadline) => if sys_now s2 <? deadline then Some b else None | None => None end) in *.
  destruct (spend (refilled C F (ms s1) b0) (of_int cost)) as [ok t] eqn:Esp. injection Hscript as <- <-.
  assert (Hc0 : (0 <= of_int cost)%Q).
  { apply rnd_nonneg. change 0%Q with (inject_Z 0). by rewrite <-Zle_Qle. }
  assert (Hsound : sound C (ms s1) b0).
  { destruct b as [[b deadline]|]; cbn in b0; [|done]. destruct Hlim as (H1 & H2 & _). subst b0.
    destruct (sys_now s2 <? deadline); [|done]. cbn. split; [done|done]. }
  destruct (visit_upper C F (ms s1) b0 (of_int cost) ok t HC HF Hc0 Hsound Esp) as [Ht HV].
  assert (Hms : ms s1 ≤ ms s2) by (unfold ms; apply Z.div_le_mono; lia).
  split; [change (ms (with_redis _ s2)) with (ms s2); lia|].
  exists (Some ({| b_tokens := reread t; b_ts := ms s1 |}, sys_now s2 + bucket_ttl C F * 1000000)). split.
  { intros t' Ht'. cbn in *. apply hmset_reads; lia. }
  change (ms (with_redis _ s2)) with (ms s2). cbn [b_tokens b_ts].
  assert (Hms1 : ms s1 * 1000000 ≤ sys_now s1) by (unfold ms; pose proof (Z.mul_div_le (sys_now s1) 1000000); lia).
  fold C F. split_and!; [apply Ht|apply Ht|done|lia|].
  assert (Hn : (inject_Z (Z.of_nat (S n)) * (C * slack) == inject_Z (Z.of_nat n) * (C * slack) + C * slack)%Q).
  { rewrite Nat2Z.inj_succ. unfold Z.succ. rewrite inject_Z_plus. ring. }
  rewrite Hn. clear Hn. set (k := (inject_Z (Z.of_nat n) * (C * slack))%Q) in *.
  assert (Hgr : (granted (cost, Ok (ok, reread t)) == if ok then of_int cost else 0)%Q) by (by destruct ok).
  rewrite Hgr. clear Hgr. replace (ms s2 - start) with (ms s1 - start + (ms s2 - ms s1)) by lia. rewrite inflow_add.
  assert (Hk : (g + held_tokens C b0 + inflow F (idle (ms s1) b0) <= C + inflow F (ms s1 - start) + k)%Q).
  { pose proof (inflow_nonneg F (ms s1 - start) (proj1 HF) ltac:(lia)) as H0.
    destruct b as [[b deadline]|]; cbn in b0; subst b0.
    - destruct Hlim as (H1 & H2 & H3 & HP). fold C F in HP. fold k in HP. destruct (Z.ltb_spec (sys_now s2) deadline) as [Hlt|Hge]; cbn; [exact HP|].
      (* expired: the bucket would have been full by now *)
      assert (Hfull : (C <= inflow F (ms s1 - b_ts b))%Q).
      { apply Qle_trans with (inflow F 69000); [|apply inflow_mono; [apply HF|]].
        - unfold inflow. change (inject_Z 69000 / 1000)%Q with (69000 / 1000)%Q.
          assert (E : (69000 / 1000 * F == 69 * F)%Q) by field. rewrite E. clearbody C F. unfold ulp in *. lra.
        - fold C F in H3. unfold latency, second in *.
          assert (b_ts b + 69000 ≤ ms s1); [|lia]. unfold ms. apply Z.div_le_lower_bound; lia. }
      assert (E : (inflow F 0 == 0)%Q) by (unfold inflow; field). rewrite E. clear E.
      clearbody k. set (i := inflow F (ms s1 - b_ts b)) in *. clearbody i. destruct H1 as [H1 _]. lra.
    - cbn. fold C k in Hlim. assert (E : (inflow F 0 == 0)%Q) by (unfold inflow; field). rewrite E. clear E.
      clearbody k. lra. }
  set (x := reread t) in *. clearbody x. set (i := inflow F (ms s2 - ms s1)). clearbody i.
  set (j := inflow F (idle (ms s1) b0)) in *. clearbody j. set (i0 := inflow F (ms s1 - start)) in *. clearbody i0.
  set (h := held_tokens C b0) in *. clearbody h. clearbody k. set (y := (if ok then of_int cost else 0)%Q) in *. clearbody y.
  lra.
Qed.

Lemma limited_le key cap start g g' n s : (g' <= g)%Q → limited key cap start g n s → limited key cap start g' n s.
Proof.
  intros Hg (Hs & b & Hb & Hlim). split; [done|]. exists b. split; [done|].
  destruct b as [[b deadline]|]; [|lra]. destruct Hlim as (H1 & H2 & H3 & H4). split_and!; [apply H1..|done|done|lra].
Qed.

Definition prompt (s : system R) : Prop := Forall (λ e, Z.of_N e ≤ latency) (sys_delays s).

Lemma Allow_limited key cap start g n cost s fs r w' :
  1 ≤ cap ≤ 2 ^ 50 → 0 ≤ cost → prompt s → limited key cap start g n s →
  Allow key cap cost (refill_of cap) (World s fs) = (r, w') →
  limited key cap start (g + granted (cost, r)) (S n) (w_db w') ∧ prompt (w_db w').
Proof.
  intros Hcap Hcost Hp Hlim. destruct (refill_bounds cap Hcap) as (HC & _ & _).
  unfold Allow, bind, Now, redis, call. cbn [w_db w_faults fst snd].
  set (s1 := wait 0 s). destruct (wait_latency 0 s Hp) as [_ Hp1]. fold s1 in Hp1.
  assert (Hlim1 : limited key cap start g n s1).
  { eapply limited_wait; [|apply wait_redis|exact Hlim]. pose proof (wait_now 0 s ltac:(lia)). subst s1. lia. }
  set (s2 := wait 0 s1). destruct (wait_latency 0 s1 Hp1) as [Hn2 Hp2]. fold s2 in Hn2, Hp2.
  pose proof (wait_now 0 s1 ltac:(lia)) as Hn1. fold s2 in Hn1.
  destruct (script key (of_int cap) (refill_of cap) (sys_now s1 / 1000000) (of_int cost) (sys_now s2) (sys_redis s2))
    as [a r'] eqn:Es.
  assert (Hok : limited key cap start (g + granted (cost, Ok a)) (S n) (with_redis r' s2)).
  { eapply (script_limited key cap start g n cost s1 s2); [done|done|lia|apply wait_redis|done|exact Es]. }
  destruct fs as [|[] fs]; intros [= <- <-]; cbn [w_db]; (split; [|done]); try exact Hok.
  eapply limited_le; [|eapply limited_more; [lra|exact Hlim1]]. unfold granted; cbn. lra.
Qed.

Lemma total_bound key cap start g n l w rs w' :
  1 ≤ cap ≤ 2 ^ 50 → Forall (λ p : N * Z, 0 ≤ p.2) l → prompt (w_db w) → limited key cap start g n (w_db w) →
  visits key cap l w = (rs, w') → limited key cap start (g + total rs) (n + length l) (w_db w').
Proof.
  intros Hcap Hl. revert g n w rs w'. induction Hl as [|[pause cost] l Hcost Hl IH]; intros g n w rs w' Hp Hlim; cbn [visits].
  { intros [= <- <-]. rewrite Nat.add_0_r. eapply limited_le; [|exact Hlim]. cbn. lra. }
  cbn in Hcost. destruct w as [s fs]. cbn [Sleep snd w_db w_faults].
  destruct (wait_latency (Z.of_N pause) s Hp) as [_ Hp1]. set (s1 := wait (Z.of_N pause) s) in *.
  assert (Hlim1 : limited key cap start g n s1).
  { eapply limited_wait; [|apply wait_redis|exact Hlim]. pose proof (wait_now (Z.of_N pause) s ltac:(lia)). cbn. subst s1. lia. }
  destruct (Allow key cap cost (refill_of cap) (World s1 fs)) as [r w2] eqn:Ea.
  destruct (Allow_limited key cap start g n cost s1 fs r w2 Hcap Hcost Hp1 Hlim1 Ea) as [Hlim2 Hp2].
  destruct (visits key cap l w2) as [rs' w3] eqn:Ev. intros [= <- <-].
  specialize (IH _ _ _ _ _ Hp2 Hlim2 Ev). cbn [length total]. rewrite Nat.add_succ_r.
  eapply limited_le; [|exact IH]. lra.
Qed.

(** C30: the limit of a key is a limit.  However a client spaces its requests
    and whatever fails, what one bucket grants it in all is at most the
    capacity and what flowed in over the time that passed, but for three parts
    in ten million millions of the capacity per request (what rounding to 14
    digits can give away); a bucket that Redis drops when it expires grants
    nothing extra.  (Commands take less than 50 seconds to reach Redis.) *)
Theorem rate_bounded key cap l w rs w' :
  1 ≤ cap ≤ 2 ^ 50 → Forall (λ p : N * Z, 0 ≤ p.2) l → prompt (w_db w) →
  (∀ t, sys_now (w_db w) ≤ t → HMGET t key (sys_redis (w_db w)) = None) →
  visits key cap l w = (rs, w') →
  (total rs <= of_int cap + inflow (refill_of cap) (ms (w_db w') - ms (w_db w)) +
               inject_Z (Z.of_nat (length l)) * (of_int cap * slack))%Q.
Proof.
  intros Hcap Hl Hp Hnone Hv. destruct (refill_bounds cap Hcap) as (HC & HF & _).
  assert (HF0 : (0 <= refill_of cap)%Q) by (unfold ulp in *; lra).
  assert (Hlim : limited key cap (ms (w_db w)) 0 0 (w_db w)).
  { split; [lia|]. exists None. split; [exact Hnone|]. change (inject_Z (Z.of_nat 0)) with 0%Q. rewrite Qmult_0_l. lra. }
  pose proof (total_bound key cap _ _ _ l w rs w' Hcap Hl Hp Hlim Hv) as (Hs & b & _ & H). cbn [Nat.add] in H.
  pose proof (inflow_nonneg (refill_of cap) (ms (w_db w') - ms (w_db w)) HF0 ltac:(lia)) as Hi.
  set (k := (inject_Z (Z.of_nat (length l)) * (of_int cap * slack))%Q) in *. clearbody k.
  set (i := inflow (refill_of cap) (ms (w_db w') - ms (w_db w))) in *. clearbody i.
  destruct b as [[b deadline]|]; [|lra]. destruct H as ([H1 _] & H2 & _ & H4).
  pose proof (inflow_nonneg (refill_of cap) (ms (w_db w') - b_ts b) HF0 ltac:(lia)) as Hj.
  set (j := inflow (refill_of cap) (ms (w_db w') - b_ts b)) in *. clearbody j. lra.
Qed.
End rate.

(** ** A store with strings and hashes *)

Record store := { strings : map_redis; hashes : gmap string (bucket * Z) }.

Definition on_strings {A} (p : A * map_redis) (r : store) : A * store :=
  (p.1, {| strings := p.2; hashes := hashes r |}).

#[global] Instance store_server : RedisServer store := {
  GET now k r := GET now k (strings r);
  SETNX now k v ttl r := on_strings (SETNX now k v ttl (strings r)) r;
  DEL now k r := on_strings (DEL now k (strings r)) r;
  PEXPIRE now k ttl r := on_strings (PEXPIRE now k ttl (strings r)) r
}.

#[global] Instance store_hashes : RedisHashes store := {
  HMGET now k r := match hashes r !! k with Some (b, d) => if now <? d then Some b else None | None => None end;
  HMSET now k b ttl r := {| strings := strings r; hashes := <[k := (b, now + ttl)]> (hashes r) |}
}.

#[global] Instance store_laws : RedisLaws store.
Proof.
  assert (Hs : ∀ now P (r r' : store), same_from now P (strings r) (strings r') → same_from now P r r') by done.
  split; cbn [GET SETNX DEL PEXPIRE store_server on_strings fst snd].
  - intros r. apply (get_only_lapses (strings r)).
  - intros r now k v w ttl H. destruct (setnx_taken (strings r) now k v w ttl H) as [H1 H2]. split; [done|by apply Hs].
  - intros r now k v ttl Ht H. destruct (setnx_free (strings r) now k v ttl Ht H) as (H1 & H2 & H3 & H4).
    split_and!; [done..|by apply Hs].
  - intros r. apply (del_gone (strings r)).
  - intros r now k. apply Hs. apply (del_others (strings r) now k).
  - intros r now k v ttl Ht H. apply (pexpire_live (strings r) now k v ttl Ht H).
  - intros r now k ttl. apply Hs. apply (pexpire_others (strings r) now k ttl).
Qed.

#[global] Instance store_hash_laws : RedisHashLaws store.
Proof.
  split; cbn [HMGET HMSET store_hashes hashes].
  - intros r now k b ttl t Ht Httl. by rewrite lookup_insert_eq.
  - intros r now k b ttl t k' Ht Hk. by rewrite lookup_insert_ne.
  - by intros r now k b ttl t k' Ht Hk.
Qed.

Definition empty_store : store := {| strings := ∅; hashes := ∅ |}.

(** Sixty requests a minute: a burst of seventy, one every 10 ms, and one more
    after a minute. *)
Definition burst : list (N * Z) := repeat (10000000%N, 1) 70 ++ [(60000000000%N, 60)].
Definition burst_world : world (system store) :=
  World (System empty_database empty_store (1000 * second) [] 0 Models.NewRegistry Users.empty_cache) [].
Definition burst_run : list (Z * result (bool * Q)) * world (system store) := visits "rl:rpm:k:1" 60 burst burst_world.

Example burst_grants :
  map (λ p : Z * result (bool * Q), match p.2 with Ok (ok, _) => ok | Err _ => false end) burst_run.1 =
  repeat true 60 ++ repeat false 10 ++ [true].
Proof. by vm_compute. Qed.

Lemma rate_bounded_witness :
  (total burst_run.1 <= of_int 60 + inflow (refill_of 60) (ms (w_db burst_run.2) - ms (w_db burst_world)) +
               inject_Z 71 * (of_int 60 * slack))%Q.
Proof.
  apply (rate_bounded "rl:rpm:k:1" 60 burst burst_world burst_run.1 burst_run.2).
  - done.
  - by repeat constructor.
  - constructor.
  - done.
  - unfold burst_run. apply surjective_pairing.
Defined.
