(* ===== verification/Caches.v ===== *)
(** * The gateway's caches at work (internal/model/registry.go, internal/user/cache.go)

    The processes that read, fill and refresh the registry of models and the
    cache of groups.  Every look at a cache under its mutex is one step. *)

From S2P Require Import Prelude GoTime Sql Schema Models Users System Proc.

Section caches.
Context {R : Type}.

Abbreviation process := (proc (system R)).

(** A step on the memory of the server: it cannot fail. *)
Definition look {A} (f : system R → A * system R) : DB (system R) A := λ w,
  let '(a, s) := f (w_db w) in (Ok a, World s (w_faults w)).

Definition registry_step {A} (f : Models.registry → A * Models.registry) : DB (system R) A :=
  look (λ s, let '(a, r) := f (sys_models s) in (a, with_models_cache r s)).
Definition groups_step {A} (f : Users.group_cache → A * Users.group_cache) : DB (system R) A :=
  look (λ s, let '(a, c) := f (sys_groups s) in (a, with_groups_cache c s)).

(** [BySlug]; the flag says whether it has started a refresh. *)
Definition BySlug (slug : string) : process (result (N * Model) * bool) :=
  now <~ one Now ;;
  match now with
  | Err e => Done (Err e, false)
  | Ok now =>
      r <~ one (registry_step (λ r, let '(m, started, r) := cached slug now r in ((m, started), r))) ;;
      match r with
      | Err e => Done (Err e, false)
      | Ok (Some m, started) => Done (Ok m, started)
      | Ok (None, started) => r <~ one (on_db (Models.GetBySlug slug)) ;; Done (r, started)
      end
  end.

(** [refresh] *)
Definition refresh : process (result unit) :=
  list <~? one (on_db ListModels) ;;
  now <~? one Now ;;
  one (registry_step (λ r, (tt, loaded list now r))).

(** The goroutine [BySlug] starts. *)
Definition background_refresh : process unit :=
  _ <~ refresh ;;
  _ <~ one (registry_step (λ r, (tt, {| bySlug := bySlug r; loadedAt := loadedAt r; refreshing := false |}))) ;;
  Done tt.

(** [ListEnabled] of the registry; the cache is a Go map, so the order of a
    cached answer is arbitrary: here that of [map_to_list]. *)
Definition RegistryListEnabled : process (result (list (N * Model))) :=
  now <~? one Now ;;
  c <~? one (registry_step (λ r, ((expired now r, cached_enabled r), r))) ;;
  let '(expired, cached) := c in
  if negb expired && negb (bool_decide (cached = [])) then Done (Ok cached)
  else one (on_db Models.ListEnabled).

(** [OfUser] *)
Definition OfUser (ttl : Z) (userID : N) : process (result Group) :=
  now <~? one Now ;;
  ue <~? one (groups_step (λ c, (cached_user ttl now userID c, c))) ;;
  groupID <~? (match ue with
               | Some groupID => Done (Ok groupID)
               | None =>
                   u <~? one (on_db (Users.GetByID userID)) ;;
                   _ <~? one (groups_step (λ c, (tt, store_user userID (GroupID u) now c))) ;;
                   Done (Ok (GroupID u))
               end) ;;
  ge <~? one (groups_step (λ c, (cached_group ttl now groupID c, c))) ;;
  match ge with
  | Some g => Done (Ok g)
  | None =>
      g <~? one (on_db (GetGroup groupID)) ;;
      _ <~? one (groups_step (λ c, (tt, store_group groupID g now c))) ;;
      Done (Ok g)
  end.
End caches.
