(* ===== verification/Lock.v ===== *)
(** * The Redis lock (pkg/lock)

    SET NX with a token and a TTL, and the two compare-and-act scripts.  What
    a holder may rely on is stated for any traffic of other clients: locks
    taken, released and refreshed under other tokens, in any order, at any
    speed and with any failures of the connection. *)

From S2P Require Import Models Users Prelude Sql Schema GoTime System.

Definition ErrNotAcquired : goerr := Sentinel "lock: not acquired".

Section lock.
Context {R : Type} `{!RedisServer R}.
Implicit Types s : system R.

Definition Acquire (key token : string) (ttl : Z) : DB (system R) unit :=
  ok <- redis (λ now, SETNX now key token ttl) ;;
  if negb ok then throw ErrNotAcquired else ret tt.

Definition releaseScript (key token : string) (now : Z) (r : R) : Z * R :=
  if bool_decide (GET now key r = Some token) then DEL now key r else (0, r).

Definition Release (key token : string) : DB (system R) unit :=
  redis (releaseScript key token) ;; ret tt.

Definition refreshScript (key token : string) (ttl : Z) (now : Z) (r : R) : Z * R :=
  if bool_decide (GET now key r = Some token) then PEXPIRE now key ttl r else (0, r).

(** [ttl.Milliseconds()] truncates. *)
Definition Refresh (key token : string) (ttl : Z) : DB (system R) unit :=
  redis (refreshScript key token (Z.quot ttl 1000000 * 1000000)) ;; ret tt.

(** ** Traffic *)

Inductive lock_op :=
  | OpAcquire (key token : string) (ttl : Z)
  | OpRelease (key token : string)
  | OpRefresh (key token : string) (ttl : Z)
  | OpElapse (d : N).

Definition exec_lock_op (o : lock_op) : DB (system R) unit :=
  match o with
  | OpAcquire key token ttl => Acquire key token ttl
  | OpRelease key token => Release key token
  | OpRefresh key token ttl => Refresh key token ttl
  | OpElapse d => Sleep (Z.of_N d)
  end.

Fixpoint exec_lock_ops (os : list lock_op) (w : world (system R)) : world (system R) :=
  match os with
  | [] => w
  | o :: os => exec_lock_ops os (exec_lock_op o w).2
  end.

(** An operation of somebody else than the holder of [key] by [token]. *)
Definition others (key token : string) (o : lock_op) : Prop :=
  match o with
  | OpAcquire _ _ ttl => 0 < ttl
  | OpRelease k t => k = key → t ≠ token
  | OpRefresh k t _ => k = key → t ≠ token
  | OpElapse _ => True
  end.

(** ** What a holder can rely on *)

(** [key] answers [token] up to [until]. *)
Definition held (key token : string) (until : Z) (s : system R) : Prop :=
  ∀ t, sys_now s ≤ t < until → GET t key (sys_redis s) = Some token.

Definition held_on (key token : string) (until : Z) (s s' : system R) : Prop :=
  sys_now s ≤ sys_now s' ∧ (held key token until s → held key token until s').

#[export] Instance held_on_preorder key token until : PreOrder (held_on key token until).
Proof.
  split; [by intros s; split|]. intros s1 s2 s3 [H1 H2] [H3 H4]. split; [lia|auto].
Qed.

Lemma held_on_forward key token until : forward (held_on key token until).
Proof.
  split; [apply _|]. split_and!.
  - intros s d Hd. pose proof (wait_now d s Hd) as Hn. split; [lia|].
    intros Hh t Ht. assert (sys_redis (wait d s) = sys_redis s) as -> by apply wait_redis.
    apply Hh. lia.
  - intros s d. by split.
  - intros s. by split.
Qed.

(** A command that leaves [key] alone while it answers [token]. *)
Definition polite (key token : string) (f : Z → R → R) : Prop :=
  ∀ now r, GET now key r = Some token → same_from now (λ k, k = key) r (f now r).

Lemma polite_held key token until {A} (f : Z → R → A * R) :
  polite key token (λ now r, (f now r).2) → Keeps (held_on key token until) (redis f).
Proof.
  intros Hf. apply redis_keeps; [apply held_on_forward|]. intros s. split; [done|].
  intros Hh t Ht. cbn in *. destruct (decide (sys_now s < until)) as [Hlt|]; [|lia].
  rewrite (Hf (sys_now s) (sys_redis s)); [by apply Hh|apply Hh; lia|lia|done].
Qed.

Context `{!RedisLaws R}.

Lemma SETNX_polite key token k t ttl : 0 < ttl → polite key token (λ now r, (SETNX now k t ttl r).2).
Proof.
  intros Httl now r Hk. destruct (GET now k r) as [w|] eqn:E.
  - intros t' k' Ht _. by apply (setnx_taken r now k t w ttl E).
  - intros t' k' Ht ->. apply (setnx_free r now k t ttl Httl E); [done|congruence].
Qed.

Lemma releaseScript_polite key token k t :
  (k = key → t ≠ token) → polite key token (λ now r, (releaseScript k t now r).2).
Proof.
  intros Hne now r Hk t' k' Ht ->. unfold releaseScript.
  case_bool_decide as Hg; [|done]. apply del_others; [done|]. naive_solver.
Qed.

Lemma refreshScript_polite key token k t ttl :
  (k = key → t ≠ token) → polite key token (λ now r, (refreshScript k t ttl now r).2).
Proof.
  intros Hne now r Hk t' k' Ht ->. unfold refreshScript.
  case_bool_decide as Hg; [|done]. apply pexpire_others; [done|]. naive_solver.
Qed.

#[export] Instance Acquire_held key token until k t ttl :
  TCEq (0 <? ttl) true → Keeps (held_on key token until) (Acquire k t ttl).
Proof.
  intros Httl%TCEq_eq. unfold Acquire. apply bind_keeps; [apply _| |].
  - apply polite_held, SETNX_polite. lia.
  - intros []; cbn; apply _.
Qed.

Lemma Release_held key token until k t :
  (k = key → t ≠ token) → Keeps (held_on key token until) (Release k t).
Proof.
  intros Hne. unfold Release. apply bind_keeps; [apply _| |apply _].
  by apply polite_held, releaseScript_polite.
Qed.

Lemma Refresh_held key token until k t ttl :
  (k = key → t ≠ token) → Keeps (held_on key token until) (Refresh k t ttl).
Proof.
  intros Hne. unfold Refresh. apply bind_keeps; [apply _| |apply _].
  by apply polite_held, refreshScript_polite.
Qed.

Lemma exec_lock_op_held key token until o :
  others key token o → Keeps (held_on key token until) (exec_lock_op o).
Proof.
  destruct o as [k t ttl|k t|k t ttl|d]; cbn.
  - intros H. apply Acquire_held. apply TCEq_eq. lia.
  - apply Release_held.
  - apply Refresh_held.
  - intros _. apply Sleep_keeps; [apply held_on_forward|lia].
Qed.

Lemma exec_lock_ops_held key token until os w :
  Forall (others key token) os →
  held_on key token until (w_db w) (w_db (exec_lock_ops os w)).
Proof.
  intros H. revert w. induction H as [|o os Ho _ IH]; intros w; [done|]. cbn.
  etrans; [|apply IH]. by apply (exec_lock_op_held key token until o Ho w).
Qed.

(** An acquisition, on its own. *)
Lemma Acquire_Ok key token ttl w w' :
  0 < ttl → Acquire key token ttl w = (Ok tt, w') →
  held key token (sys_now (w_db w') + ttl) (w_db w') ∧
  GET (sys_now (w_db w')) key (sys_redis (w_db w)) = None ∧
  sys_now (w_db w) ≤ sys_now (w_db w').
Proof.
  intros Httl. unfold Acquire, bind, redis, call. destruct w as [s fs]. cbn.
  pose proof (wait_now 0 s ltac:(lia)) as Hn.
  assert (sys_redis (wait 0 s) = sys_redis s) as Hr by apply wait_redis.
  assert (∀ fs', (let '(r, w1) := (let '(a, r) := SETNX (sys_now (wait 0 s)) key token ttl (sys_redis (wait 0 s)) in
      (Ok a, World (with_redis r (wait 0 s)) fs')) in
    match r with Ok a => (if negb a then throw ErrNotAcquired else ret tt) w1 | Err e => (Err e, w1) end)
    = (Ok tt, w') →
    held key token (sys_now (w_db w') + ttl) (w_db w') ∧
    GET (sys_now (w_db w')) key (sys_redis s) = None ∧ sys_now s ≤ sys_now (w_db w')) as Hmain.
  { intros fs'. destruct (SETNX _ _ _ _ _) as [ok r'] eqn:E. cbn. destruct ok; [|done].
    intros [= <-]. cbn. destruct (GET (sys_now (wait 0 s)) key (sys_redis s)) as [v|] eqn:Eg.
    - destruct (setnx_taken (sys_redis (wait 0 s)) (sys_now (wait 0 s)) key token v ttl) as [Hf _].
      { by rewrite Hr. } by rewrite E in Hf.
    - destruct (setnx_free (sys_redis (wait 0 s)) (sys_now (wait 0 s)) key token ttl Httl) as (_ & Hh & _).
      { by rewrite Hr. } rewrite E in Hh. cbn in Hh. split_and!; [|done|lia].
      intros t Ht. cbn in *. by apply Hh. }
  destruct fs as [|[] fs]; [|done|]; cbn; intros H; (eapply Hmain; rewrite <-H; by destruct (SETNX _ _ _ _ _)).
Qed.

(** The lock excludes.  Once [Acquire] succeeds, and until the TTL it
    asked for is over, whatever the other clients do, in any order, at any
    speed and with any failures, the key keeps the holder's token, nobody else
    acquires it, and nobody but the holder's own token releases it. *)
Theorem lock_exclusive key token ttl w w1 os :
  0 < ttl → Acquire key token ttl w = (Ok tt, w1) → Forall (others key token) os →
  let until := sys_now (w_db w1) + ttl in
  let w2 := exec_lock_ops os w1 in
  (sys_now (w_db w2) < until →
     GET (sys_now (w_db w2)) key (sys_redis (w_db w2)) = Some token) ∧
  (∀ token' ttl' w3, 0 < ttl' → Acquire key token' ttl' w2 = (Ok tt, w3) → until ≤ sys_now (w_db w3)) ∧
  (∀ w3, w_faults w2 = [] → sys_now (w_db w3) < until → Release key token w2 = (Ok tt, w3) →
     GET (sys_now (w_db w3)) key (sys_redis (w_db w3)) = None).
Proof.
  intros Httl Ha Hos until w2. apply Acquire_Ok in Ha as (Hh & _ & _); [|done].
  destruct (exec_lock_ops_held key token until os w1 Hos) as [_ Hk].
  specialize (Hk Hh). fold w2 in Hk. split_and!.
  - intros Hlt. apply Hk. lia.
  - intros token' ttl' w3 Httl' H3. apply Acquire_Ok in H3 as (_ & Hn & Hle); [|done].
    destruct (decide (sys_now (w_db w3) < until)); [|lia].
    rewrite Hk in Hn by lia. done.
  - intros w3 Hf Hlt. unfold Release, bind, redis, call. rewrite Hf. cbn.
    set (s := w_db w2) in *. pose proof (wait_now 0 s ltac:(lia)) as Hn.
    assert (sys_redis (wait 0 s) = sys_redis s) as Hr by apply wait_redis.
    destruct (releaseScript key token (sys_now (wait 0 s)) (sys_redis (wait 0 s))) as [z r'] eqn:E.
    cbn. intros [= <-]. cbn in *. unfold releaseScript in E. rewrite Hr in E.
    rewrite bool_decide_eq_true_2 in E by (apply Hk; lia).
    apply (f_equal snd) in E. cbn in E. rewrite <-E. by apply del_gone.
Qed.
End lock.

(** ** A witness *)

Definition lock_world : world (system map_redis) :=
  World (System empty_database ∅ 0 [3; 5; 1000000000]%N 0 Models.NewRegistry Users.empty_cache) [false; false; true].
Definition lock_held_world : world (system map_redis) := (Acquire "acct:lock:1" "a" (180 * second) lock_world).2.
Definition lock_traffic : list lock_op :=
  [OpAcquire "acct:lock:1" "b" (180 * second); OpRelease "acct:lock:1" "b"; OpElapse 60000000000;
   OpRefresh "acct:lock:1" "b" (180 * second); OpAcquire "acct:lock:2" "c" second].

Lemma lock_exclusive_witness :
  GET (sys_now (w_db (exec_lock_ops lock_traffic lock_held_world))) "acct:lock:1"
    (sys_redis (w_db (exec_lock_ops lock_traffic lock_held_world))) = Some "a".
Proof.
  destruct (lock_exclusive "acct:lock:1" "a" (180 * second) lock_world lock_held_world lock_traffic)
    as (H & _ & _).
  - by vm_compute.
  - by vm_compute.
  - by repeat constructor.
  - apply H. by vm_compute.
Defined.
