(* ===== verification/Signup.v ===== *)
(** * Registration, login and the tokens refreshed (internal/auth)

    A registration is a sequence of calls: is the address free, which role,
    the code that was mailed, the row, the bonus.  Others come between them.
    bcrypt, the random number of a code and the exchange with the mail server
    are parameters, as are the signatures of the tokens. *)

From S2P Require Import Prelude GoStrings GoTime Sql Schema Models Users Proc Ledger Billing Rbac Access Settings Mail System Lock Answers.

(** ** Errors (service.go) *)

Definition ErrEmailExists : goerr := Sentinel "auth: email already exists".
Definition ErrInvalidCredential : goerr := Sentinel "auth: invalid email or password".
Definition ErrUserBanned : goerr := Sentinel "auth: user banned".
Definition ErrRegisterDisabled : goerr := Sentinel "auth: user registration is disabled".
Definition ErrEmailNotAllowed : goerr := Sentinel "auth: email domain is not allowed by whitelist".
Definition ErrPasswordTooShort : goerr := Sentinel "auth: password too short".
Definition ErrEmailVerifyDisabled : goerr := Sentinel "auth: email verification is disabled".
Definition ErrEmailServiceUnavailable : goerr := Sentinel "auth: email service is unavailable".
Definition ErrEmailCodeSendFailed : goerr := Sentinel "auth: failed to send email verification code".
Definition ErrEmailCodeRequired : goerr := Sentinel "auth: email verification code is required".
Definition ErrEmailCodeInvalidOrExpired : goerr := Sentinel "auth: invalid or expired email verification code".
Definition ErrEmailCodeCooldown : goerr := Sentinel "auth: email code requested too frequently".
Definition ErrEmailCodeRateLimited : goerr := Sentinel "auth: email code request rate limit exceeded".
Definition no_redis : goerr := EMsg "auth: redis not configured".

Definition registerEmailCodeTTL : Z := 10 * minute.
Definition registerEmailCodeCooldownTTL : Z := 60 * second.
Definition registerEmailCodeRateWindow : Z := 10 * minute.
Definition registerEmailCodeEmailLimit : Z := 5.
Definition registerEmailCodeIPLimit : Z := 20.

(** An error, or a [retryAfterError] with the seconds it carries. *)
Inductive send_error :=
  | Plain (e : goerr)
  | RetryAfter (cause : goerr) (retryAfterSec : Z).

Definition cause_of (e : send_error) : goerr := match e with Plain e => e | RetryAfter e _ => e end.

Record sendRegisterEmailCodeResult := { Sent : bool; ExpireSec : Z; RetryAfterSec : Z }.

(** ** The service *)

Record Service := {
  svc_jwt : Manager;
  svc_bcryptCost : Z;
  svc_rdb : bool;
  svc_mail : option MailConfig;                 (* what the provider returns now *)
  svc_baseURL : string;
  svc_settings : option cache;                  (* what the settings hold now *)
  svc_billing : bool
}.

Definition NewService (jm : Manager) (bcryptCost : Z) : Service := {|
  svc_jwt := jm; svc_bcryptCost := if (bcryptCost <? 4) || (31 <? bcryptCost) then 10 else bcryptCost;
  svc_rdb := false; svc_mail := None; svc_baseURL := ""; svc_settings := None; svc_billing := false |}.
Definition SetMailer (m : option MailConfig) (baseURL : string) (s : Service) : Service := {|
  svc_jwt := svc_jwt s; svc_bcryptCost := svc_bcryptCost s; svc_rdb := svc_rdb s; svc_mail := m; svc_baseURL := baseURL;
  svc_settings := svc_settings s; svc_billing := svc_billing s |}.
Definition SetSettings (ss : option cache) (s : Service) : Service := {|
  svc_jwt := svc_jwt s; svc_bcryptCost := svc_bcryptCost s; svc_rdb := svc_rdb s; svc_mail := svc_mail s;
  svc_baseURL := svc_baseURL s; svc_settings := ss; svc_billing := svc_billing s |}.
Definition SetBilling (b : bool) (s : Service) : Service := {|
  svc_jwt := svc_jwt s; svc_bcryptCost := svc_bcryptCost s; svc_rdb := svc_rdb s; svc_mail := svc_mail s;
  svc_baseURL := svc_baseURL s; svc_settings := svc_settings s; svc_billing := b |}.
Definition SetRedis (b : bool) (s : Service) : Service := {|
  svc_jwt := svc_jwt s; svc_bcryptCost := svc_bcryptCost s; svc_rdb := b; svc_mail := svc_mail s;
  svc_baseURL := svc_baseURL s; svc_settings := svc_settings s; svc_billing := svc_billing s |}.

Definition siteName (s : Service) : string := match svc_settings s with None => "GPT2API" | Some c => SiteName c end.

Definition normalizeEmail (v : string) : string := ToLower (TrimSpace v).
Definition normalizeNickname (v : string) : string := TrimSpace v.
Definition normalizeEmailCode (v : string) : string := TrimSpace v.

Definition value_key (email : string) : string := "auth:register:email_code:value:" +:+ email.
Definition cooldown_key (email : string) : string := "auth:register:email_code:cooldown:" +:+ email.
Definition email_rate_key (email : string) : string := "auth:register:email_code:rate:email:" +:+ email.
Definition ip_rate_key (ip : string) : string := "auth:register:email_code:rate:ip:" +:+ TrimSpace ip.

(** ["%06d"] of a number below a million *)
Definition pad6 (n : Z) : string :=
  of_bytes [digit_char (n / 100000); digit_char (n / 10000); digit_char (n / 1000); digit_char (n / 100);
            digit_char (n / 10); digit_char n].
Definition generateEmailCode (random : result Z) : result string :=
  match random with Err e => Err (EWrap "generate email code: " e) | Ok n => Ok (pad6 n) end.

(** [email[strings.LastIndex(email, "@")+1:]], when there is one *)
Fixpoint last_part (sep : ascii) (l : list ascii) : option (list ascii) :=
  match l with
  | [] => None
  | c :: l => match last_part sep l with
              | Some r => Some r
              | None => if Ascii.eqb c sep then Some l else None
              end
  end.

Definition ensureEmailAllowed (s : Service) (email : string) : result unit :=
  match svc_settings s ≫= EmailDomainWhitelist with
  | None => Ok tt
  | Some wl =>
      match last_part "@" (bytes email) with
      | None => Err ErrEmailNotAllowed
      | Some domain => if decide (of_bytes domain ∈ wl) then Ok tt else Err ErrEmailNotAllowed
      end
  end.

Definition ensureEmailAvailable (email : string) : DBM unit :=
  n <- CountByEmail email ;; if 0 <? n then throw ErrEmailExists else ret tt.

Definition registerRole (s : Service) : DBM string :=
  total <- CountAll ;;
  if total =? 0 then ret "admin" else
  match svc_settings s with
  | Some c => if negb (AllowRegister c) then throw ErrRegisterDisabled else ret "user"
  | None => ret "user"
  end.

Definition requires_code (s : Service) : bool :=
  match svc_settings s with Some c => RequireEmailVerify c | None => false end.

Definition too_short (s : Service) (password : string) : bool :=
  match svc_settings s with
  | Some c => let min := PasswordMinLength c in (0 <? min) && (Z.of_nat (String.length password) <? min)
  | None => false
  end.

Definition default_group (s : Service) : N :=
  match svc_settings s with
  | Some c => let g := DefaultGroupID c in if (0 <? g)%N then g else 1%N
  | None => 1%N
  end.

Definition signup_bonus (s : Service) : Z :=
  match svc_settings s with
  | Some c => if svc_billing s then SignupBonusCredits c else 0
  | None => 0
  end.

Definition new_user (email hash nickname role : string) (group : N) : User := {|
  Email := email; PasswordHash := hash; Nickname := nickname; GroupID := group; Role := role; Status := "active";
  CreditBalance := 0; CreditFrozen := 0; Version := 0; LastLoginAt := None; LastLoginIP := ""; UserDeletedAt := None |}.

Definition welcome (s : Service) (u : User) : option Message :=
  if Disabled (svc_mail s) then None else
  let '(subject, html) := RenderWelcome (Nickname u) (Email u) (svc_baseURL s) in
  Some {| To := Email u; Subject := subject; HTML := html |}.

(** ** The commands on codes and counters *)

(** [SET key value PX ttl]; [TTL] as Redis answers it, in seconds, with -2 for
    no key and -1 for no deadline; [INCR]. *)
Class RedisCounters (R : Type) := {
  SET : Z → string → string → Z → R → R;
  TTL : Z → string → R → Z;
  INCR : Z → string → R → result Z * R
}.

Class RedisCounterLaws (R : Type) `{RedisServer R, RedisCounters R} := {
  set_reads : ∀ (r : R) now k v ttl t, now ≤ t < now + ttl → GET t k (SET now k v ttl r) = Some v;
  set_others : ∀ (r : R) now k v ttl, same_from now (λ k', k' ≠ k) r (SET now k v ttl r);
  incr_others : ∀ (r : R) now k, same_from now (λ k', k' ≠ k) r (INCR now k r).2;
  ttl_missing : ∀ (r : R) now k, TTL now k r = -2 → GET now k r = None;
  ttl_answers : ∀ (r : R) now k, -2 ≤ TTL now k r
}.

(** [go-redis] leaves the two negative answers as they are. *)
Definition ttl_duration (n : Z) : Z := if (n =? -2) || (n =? -1) then n else n * second.

Section signup.
Context {R : Type} `{!RedisServer R, !RedisCounters R}.
Context (GenerateFromPassword : string → string → Z → result string)     (* salt, password, cost *)
        (CompareHashAndPassword : string → string → bool)
        (SignedString : string → Claims → result string)
        (ParseWithClaims : (signing_method → result string) → string → Z → result (Claims * bool))
        (exchange : Message → result unit).

Abbreviation process := (proc (system R)).

Definition consumeRegisterEmailCodeScript (key code : string) (now : Z) (r : R) : Z * R :=
  if bool_decide (GET now key r = Some code) then (1, (DEL now key r).2) else (0, r).

Definition redis_get (key : string) : DB (system R) (option string) := redis (λ now r, (GET now key r, r)).
Definition redis_set (key v : string) (ttl : Z) : DB (system R) unit := redis (λ now r, (tt, SET now key v ttl r)).
Definition redis_ttl (key : string) : DB (system R) Z := redis (λ now r, (ttl_duration (TTL now key r), r)).
Definition redis_expire (key : string) (ttl : Z) : DB (system R) unit := redis (λ now r, (tt, (PEXPIRE now key ttl r).2)).
Definition redis_del (keys : list string) : DB (system R) unit :=
  redis (λ now r, (tt, foldl (λ r k, (DEL now k r).2) r keys)).
Definition redis_incr (key : string) : DB (system R) Z :=
  n <- redis (λ now r, INCR now key r) ;; match n with Ok n => ret n | Err e => throw e end.

Definition redisCounter (s : Service) (key : string) : DB (system R) Z :=
  if negb (svc_rdb s) then throw no_redis else
  v <- redis_get key ;;
  match v with
  | None => ret 0
  | Some v => match Atoi v with Some n => ret n | None => throw (EMsg ("strconv.ParseInt: parsing " +:+ v)) end
  end.

Definition redisTTLSeconds (s : Service) (key : string) (fallback : Z) : DB (system R) Z :=
  if negb (svc_rdb s) then throw no_redis else
  ttl <- redis_ttl key ;;
  if ttl =? -2 then ret 0 else
  let ttl := if ttl <=? 0 then fallback else ttl in
  ret (Z.quot (ttl + second - 1) second).

Definition bumpRegisterEmailCodeRate (key : string) : process (result unit) :=
  n <~? one (redis_incr key) ;;
  ttl <~ one (redis_ttl key) ;;
  match ttl with
  | Ok ttl => if (ttl <=? 0) || (n =? 1) then one (redis_expire key registerEmailCodeRateWindow) else Done (Ok tt)
  | Err _ => if n =? 1 then one (redis_expire key registerEmailCodeRateWindow) else Done (Ok tt)
  end.

Definition limit_reached (s : Service) (key : string) (limit : Z) (k : process (option send_error)) : process (option send_error) :=
  call_or (redisCounter s key) (λ e, Some (Plain e)) (λ count,
  if limit <=? count
  then call_or (redisTTLSeconds s key registerEmailCodeRateWindow) (λ e, Some (Plain e))
         (λ ttl, Done (Some (RetryAfter ErrEmailCodeRateLimited ttl)))
  else k).

Definition ensureRegisterEmailCodeSendAllowed (s : Service) (email ip : string) : process (option send_error) :=
  if negb (svc_rdb s) then Done (Some (Plain no_redis)) else
  call_or (redisTTLSeconds s (cooldown_key email) registerEmailCodeCooldownTTL) (λ e, Some (Plain e)) (λ ttl,
  if 0 <? ttl then Done (Some (RetryAfter ErrEmailCodeCooldown ttl)) else
  limit_reached s (email_rate_key email) registerEmailCodeEmailLimit
    (limit_reached s (ip_rate_key ip) registerEmailCodeIPLimit (Done None))).

Definition verifyAndConsumeRegisterEmailCode (s : Service) (email code : string) : DB (system R) unit :=
  if negb (svc_rdb s) then throw no_redis else
  v <- redis (consumeRegisterEmailCodeScript (value_key email) code) ;;
  if v =? 1 then ret tt else throw ErrEmailCodeInvalidOrExpired.

(** ** Operations *)

Abbreviation sending := (process (send_error + sendRegisterEmailCodeResult)).
Definition refuse (e : goerr) : send_error + sendRegisterEmailCodeResult := inl (Plain e).

Definition mail_code (s : Service) (cfg : MailConfig) (email ip code : string) : sending :=
  call_or (redis_set (value_key email) code registerEmailCodeTTL) refuse (λ _,
  set <~ one (redis_set (cooldown_key email) "1" registerEmailCodeCooldownTTL) ;;
  match set with
  | Err e => _ <~ one (redis_del [value_key email]) ;; Done (refuse e)
  | Ok _ =>
      let '(subject, html) := RenderRegisterEmailCode (siteName s) email code registerEmailCodeTTL in
      match SendSync exchange cfg {| To := email; Subject := subject; HTML := html |} with
      | Err _ => _ <~ one (redis_del [value_key email; cooldown_key email]) ;; Done (refuse ErrEmailCodeSendFailed)
      | Ok _ =>
          _ <~ bumpRegisterEmailCodeRate (email_rate_key email) ;;
          _ <~ bumpRegisterEmailCodeRate (ip_rate_key ip) ;;
          Done (inr {| Sent := true; ExpireSec := Z.quot registerEmailCodeTTL second;
                       RetryAfterSec := Z.quot registerEmailCodeCooldownTTL second |})
      end
  end).

Definition SendRegisterEmailCode (s : Service) (email ip : string) (random : result Z) : sending :=
  let email := normalizeEmail email in
  if String.eqb email "" then Done (refuse (EMsg "email required")) else
  if negb (requires_code s) then Done (refuse ErrEmailVerifyDisabled) else
  match svc_mail s with
  | None => Done (refuse ErrEmailServiceUnavailable)
  | Some cfg =>
      if disabledConfig cfg then Done (refuse ErrEmailServiceUnavailable) else
      match ensureEmailAllowed s email with
      | Err e => Done (refuse e)
      | Ok _ =>
          call_or (on_db (ensureEmailAvailable email)) refuse (λ _,
          call_or (on_db (registerRole s)) refuse (λ _,
          allowed <~ ensureRegisterEmailCodeSendAllowed s email ip ;;
          match allowed with
          | Some e => Done (inl e)
          | None =>
              match generateEmailCode random with
              | Err e => Done (refuse e)
              | Ok code => mail_code s cfg email ip code
              end
          end))
      end
  end.

Definition check_code (s : Service) (email emailCode : string) : process (result unit) :=
  if negb (requires_code s) then Done (Ok tt) else
  if String.eqb emailCode "" then Done (Err ErrEmailCodeRequired) else
  one (verifyAndConsumeRegisterEmailCode s email emailCode).

Definition grant_bonus (s : Service) (id : N) : process (result Z) :=
  let bonus := signup_bonus s in
  if 0 <? bonus then one (on_db (AdminAdjust id 0 bonus "signup_bonus" "auto grant on register")) else Done (Ok 0).

(** The new user and the mail that is queued for him. *)
Definition Register (s : Service) (email password nickname emailCode salt : string) : process (result (N * User * option Message)) :=
  let email := normalizeEmail email in
  let nickname := normalizeNickname nickname in
  let emailCode := normalizeEmailCode emailCode in
  if String.eqb email "" || String.eqb password "" then Done (Err (EMsg "email and password required")) else
  if too_short s password then Done (Err ErrPasswordTooShort) else
  match ensureEmailAllowed s email with
  | Err e => Done (Err e)
  | Ok _ =>
      _ <~? one (on_db (ensureEmailAvailable email)) ;;
      role <~? one (on_db (registerRole s)) ;;
      _ <~? check_code s email emailCode ;;
      match GenerateFromPassword salt password (svc_bcryptCost s) with
      | Err e => Done (Err e)
      | Ok hash =>
          let u := new_user email hash nickname role (default_group s) in
          id <~? one (on_db (Users.Create u)) ;;
          _ <~ grant_bonus s id ;;
          Done (Ok (id, u, welcome s u))
      end
  end.

Definition Login (s : Service) (email password ip : string) : process (result (N * User * TokenPair)) :=
  let email := ToLower (TrimSpace email) in
  found <~ one (on_db (GetByEmail email)) ;;
  match found with
  | Err e => Done (Err (if errors_Is e Users.ErrNotFound then ErrInvalidCredential else e))
  | Ok (id, u) =>
      if String.eqb (Status u) "banned" then Done (Err ErrUserBanned) else
      if negb (CompareHashAndPassword (PasswordHash u) password) then Done (Err ErrInvalidCredential) else
      now <~? one Now ;;
      match Issue SignedString (svc_jwt s) id (Role u) now with
      | Err e => Done (Err e)
      | Ok tokens =>
          now <~? one Now ;;
          _ <~ one (on_db (UpdateLoginInfo id ip now)) ;;
          Done (Ok (id, u, tokens))
      end
  end.

Definition HashPassword (s : Service) (plain salt : string) : result string :=
  let min := match svc_settings s with
             | Some c => let v := PasswordMinLength c in if 0 <? v then v else 6
             | None => 6
             end in
  if Z.of_nat (String.length plain) <? min then Err ErrPasswordTooShort else
  GenerateFromPassword salt plain (svc_bcryptCost s).

Definition VerifyPassword (userID : N) (password : string) : DBM unit :=
  found <- try (GetByID userID) ;;
  match found with
  | Err e => throw (if errors_Is e Users.ErrNotFound then ErrInvalidCredential else e)
  | Ok u =>
      if String.eqb (Status u) "banned" then throw ErrUserBanned else
      if negb (CompareHashAndPassword (PasswordHash u) password) then throw ErrInvalidCredential else ret tt
  end.

Definition Refresh (s : Service) (refreshToken : string) : process (result TokenPair) :=
  now <~? one Now ;;
  match VerifyRefresh ParseWithClaims (svc_jwt s) refreshToken now with
  | Err e => Done (Err e)
  | Ok claims =>
      u <~? one (on_db (GetByID (ClaimUserID claims))) ;;
      if String.eqb (Status u) "banned" then Done (Err ErrUserBanned) else
      now <~? one Now ;;
      Done (Issue SignedString (svc_jwt s) (ClaimUserID claims) (Role u) now)
  end.

(** ** Handlers (handler.go)

    [None]: the body is not JSON of the shape.  What [validator] takes for an
    address is its own. *)

Context (valid_email : string → bool) (error_text : goerr → string) (unbound : string).

Record registerReq := { req_email : string; req_password : string; req_nickname : string; req_email_code : string }.

Definition registerReq_ok (q : registerReq) : bool :=
  negb (String.eqb (req_email q) "") && valid_email (req_email q) &&
  negb (String.eqb (req_password q) "") && (6 <=? rune_count (req_password q)) && (rune_count (req_password q) <=? 64) &&
  (rune_count (req_nickname q) <=? 64).

Definition register_answer (r : result (N * User * option Message)) : answer (N * User * option Message) :=
  match r with
  | Ok u => OK u
  | Err e =>
      if errors_Is e ErrEmailExists then Conflict "email already registered" else
      if errors_Is e ErrRegisterDisabled then Forbidden "user registration is currently disabled" else
      if errors_Is e ErrEmailNotAllowed then BadRequest "this email domain is not allowed for registration" else
      if errors_Is e ErrPasswordTooShort then BadRequest "password is too short" else
      if errors_Is e ErrEmailCodeRequired then BadRequest "email verification code is required" else
      if errors_Is e ErrEmailCodeInvalidOrExpired then BadRequest "invalid or expired email verification code" else
      Internal (error_text e)
  end.

Definition HandleRegister (s : Service) (body : option registerReq) (salt : string) : process (answer (N * User * option Message)) :=
  match body with
  | None => Done (BadRequest unbound)
  | Some q =>
      if negb (registerReq_ok q) then Done (BadRequest unbound) else
      r <~ Register s (req_email q) (req_password q) (req_nickname q) (req_email_code q) salt ;;
      Done (register_answer r)
  end.

Definition retryAfterSec (e : send_error) : Z :=
  match e with
  | RetryAfter _ n => if 0 <? n then n else Z.quot registerEmailCodeCooldownTTL second
  | Plain _ => Z.quot registerEmailCodeCooldownTTL second
  end.

Definition send_answer (r : send_error + sendRegisterEmailCodeResult) : answer sendRegisterEmailCodeResult :=
  match r with
  | inr out => OK out
  | inl err =>
      let e := cause_of err in
      if errors_Is e ErrEmailVerifyDisabled then BadRequest "email verification is disabled" else
      if errors_Is e ErrEmailServiceUnavailable then Internal "email service is unavailable" else
      if errors_Is e ErrEmailCodeSendFailed then Internal "failed to send email verification code" else
      if errors_Is e ErrEmailNotAllowed then BadRequest "this email domain is not allowed for registration" else
      if errors_Is e ErrEmailExists then Conflict "email already registered" else
      if errors_Is e ErrRegisterDisabled then Forbidden "user registration is currently disabled" else
      if errors_Is e ErrEmailCodeCooldown then RateLimitedWithData "email code requested too frequently" (retryAfterSec err) else
      if errors_Is e ErrEmailCodeRateLimited then RateLimitedWithData "email code request rate limit exceeded" (retryAfterSec err) else
      Internal (error_text e)
  end.

Definition HandleSendCode (s : Service) (body : option string) (ip : string) (random : result Z) : process (answer sendRegisterEmailCodeResult) :=
  match body with
  | None => Done (BadRequest unbound)
  | Some email =>
      if String.eqb email "" || negb (valid_email email) then Done (BadRequest unbound) else
      r <~ SendRegisterEmailCode s email ip random ;; Done (send_answer r)
  end.

Definition HandleLogin (s : Service) (body : option (string * string)) (ip : string) : process (answer (N * User * TokenPair)) :=
  match body with
  | None => Done (BadRequest unbound)
  | Some (email, password) =>
      if String.eqb email "" || negb (valid_email email) || String.eqb password "" then Done (BadRequest unbound) else
      r <~ Login s email password ip ;;
      Done (match r with
            | Ok out => OK out
            | Err e => if errors_Is e ErrInvalidCredential then Unauthorized "invalid email or password"
                       else if errors_Is e ErrUserBanned then Forbidden "user banned"
                       else Internal (error_text e)
            end)
  end.

Definition HandleRefresh (s : Service) (body : option string) : process (answer TokenPair) :=
  match body with
  | None => Done (BadRequest unbound)
  | Some token =>
      if String.eqb token "" then Done (BadRequest unbound) else
      r <~ Refresh s token ;;
      Done (match r with Ok tokens => OK tokens | Err e => Unauthorized (error_text e) end)
  end.

(** ** Registering alone *)

Definition nobody (d : database) : bool := bool_decide (rows_where users (λ _ u, present u) d = []).

Definition registration_open (s : Service) : bool :=
  match svc_settings s with Some c => AllowRegister c | None => true end.

Definition code_right (s : Service) (email emailCode : string) (st : system R) : bool :=
  negb (requires_code s) ||
  (negb (String.eqb emailCode "") && svc_rdb s &&
   bool_decide (GET (sys_now (wait 0 st)) (value_key email) (sys_redis st) = Some emailCode)).

Definition admissible (s : Service) (email password emailCode salt : string) (st : system R) : bool :=
  let email := normalizeEmail email in
  negb (String.eqb email "") && negb (String.eqb password "") && negb (too_short s password) &&
  is_ok (ensureEmailAllowed s email) && negb (email_used email (sys_db st)) &&
  (nobody (sys_db st) || registration_open s) && code_right s email (normalizeEmailCode emailCode) st &&
  is_ok (GenerateFromPassword salt password (svc_bcryptCost s)).

Definition bonus_entry (s : Service) (id : N) : list CreditTx :=
  let bonus := signup_bonus s in
  if 0 <? bonus then [Build_CreditTx id 0 KindAdjust bonus bonus "signup_bonus" "auto grant on register"] else [].

Definition granted (s : Service) (u : User) : User :=
  if 0 <? signup_bonus s then set_wallet (signup_bonus s) 0 u else u.

Definition admitted (s : Service) (id : N) (u : User) (d : database) : database :=
  log_txs (bonus_entry s id) (with_users <[id := granted s u]> d).

(** No code of [email]'s is left, nor will there be until one is sent. *)
Definition spent (email : string) (st : system R) : Prop :=
  ∀ t, sys_now st ≤ t → GET t (value_key email) (sys_redis st) = None.

Context `{!RedisLaws R}.

Lemma on_db_quiet {A} (m : DBM A) `{!Transparent m} (st : system R) :
  on_db m (World st []) = ((run m (sys_db st)).1, World (with_db (run m (sys_db st)).2 st) []).
Proof. unfold on_db. cbn [w_db w_faults]. by rewrite (run_world m). Qed.

Lemma with_db_same (st : system R) : with_db (sys_db st) st = st.
Proof. by destruct st. Qed.

Lemma redis_quiet {A} (f : Z → R → A * R) (st : system R) :
  redis f (World st []) =
  (Ok (f (sys_now (wait 0 st)) (sys_redis st)).1,
   World (with_redis (f (sys_now (wait 0 st)) (sys_redis st)).2 (wait 0 st)) []).
Proof.
  unfold redis, call. cbn [w_faults w_db].
  assert (sys_redis (wait 0 st) = sys_redis st) as -> by apply wait_redis.
  by destruct (f _ _).
Qed.

Lemma exec_ok_one {A B} (m : DB (system R) A) (k : A → process (result B)) w :
  exec_proc (pbind_ok (one m) k) w =
  match m w with (Ok a, w1) => exec_proc (k a) w1 | (Err e, w1) => (Err e, w1) end.
Proof. unfold pbind_ok. rewrite exec_pbind_one. by destruct (m w) as [[a|e] w1]. Qed.

Lemma exec_ok {A B} (p : process (result A)) (k : A → process (result B)) w :
  exec_proc (pbind_ok p k) w =
  match exec_proc p w with (Ok a, w1) => exec_proc (k a) w1 | (Err e, w1) => (Err e, w1) end.
Proof. unfold pbind_ok. rewrite exec_pbind. by destruct (exec_proc p w) as [[a|e] w1]. Qed.

Definition with_email (email : string) (d : database) : list (N * User) :=
  rows_where users (λ _ u, String.eqb (Email u) email && present u) d.

Lemma positive_length {A} (l : list A) : (0 <? Z.of_nat (length l)) = negb (bool_decide (l = [])).
Proof. by destruct l. Qed.

Lemma run_available email d :
  run (ensureEmailAvailable email) d =
  (if bool_decide (with_email email d = []) then Ok tt else Err ErrEmailExists, d).
Proof.
  unfold ensureEmailAvailable, CountByEmail. db_eval. change (rows_where _ _ d) with (with_email email d).
  rewrite positive_length. by destruct (bool_decide _).
Qed.

Lemma run_role s d :
  run (registerRole s) d =
  (if nobody d then Ok "admin" else if registration_open s then Ok "user" else Err ErrRegisterDisabled, d).
Proof.
  unfold registerRole, CountAll, nobody, registration_open. db_eval.
  set (l := rows_where _ _ d). destruct l as [|x l]; cbn; [done|].
  destruct (svc_settings s) as [c|]; [|done]. by destruct (AllowRegister c).
Qed.

Lemma email_used_lookup email d : email_used email d = true ↔ ∃ id u, users d !! id = Some u ∧ Email u = email.
Proof.
  unfold email_used. rewrite existsb_exists. split.
  - intros ([id u] & Hin & He). exists id, u. cbn in He. apply String.eqb_eq in He. split; [|done].
    apply elem_of_map_to_list. by rewrite list_elem_of_In.
  - intros (id & u & Hl & <-). exists (id, u). split; [|apply String.eqb_refl].
    apply list_elem_of_In. by apply elem_of_map_to_list.
Qed.

Lemma with_email_unused email d : email_used email d = false → with_email email d = [].
Proof.
  intros H. destruct (with_email email d) as [|[id u] l] eqn:E; [done|].
  assert ((id, u) ∈ with_email email d) as Hin by (rewrite E; left).
  apply elem_of_rows_where in Hin as [Hl [He _]%andb_true_iff]. apply String.eqb_eq in He.
  assert (email_used email d = true) by (apply email_used_lookup; eauto). congruence.
Qed.

#[local] Instance available_transparent email : Transparent (ensureEmailAvailable email).
Proof. unfold ensureEmailAvailable, CountByEmail. db_transparent. Qed.
#[local] Instance role_transparent s : Transparent (registerRole s).
Proof. unfold registerRole, CountAll. db_transparent. Qed.
#[local] Instance create_transparent u : Transparent (Users.Create u).
Proof. unfold Users.Create. db_transparent. Qed.

(** The code is asked for, compared and deleted. *)
Lemma check_code_run s email code st :
  ∃ r st1, exec_proc (check_code s email code) (World st []) = (r, World st1 []) ∧
    is_ok r = code_right s email code st ∧ sys_db st1 = sys_db st ∧
    (is_ok r = true → requires_code s = true → spent email st1).
Proof.
  unfold check_code, code_right. destruct (requires_code s); cbn [negb orb]; [|by exists (Ok tt), st].
  destruct (String.eqb code ""); [by exists (Err ErrEmailCodeRequired), st|]. cbn [negb andb exec_proc one].
  unfold verifyAndConsumeRegisterEmailCode. destruct (svc_rdb s); cbn [negb andb]; [|by exists (Err no_redis), st].
  assert (sys_db (wait 0 st) = sys_db st) as Hdb by apply wait_db.
  unfold bind. rewrite redis_quiet. unfold consumeRegisterEmailCodeScript. case_bool_decide as Hg; cbn [fst snd Z.eqb].
  - eexists _, _. split_and!; [done|done|exact Hdb|]. intros _ _ t Ht. cbn in *. by apply del_gone.
  - eexists (Err _), _. split_and!; [done|done|exact Hdb|done].
Qed.

Lemma signup_bonus_in s : 0 ≤ signup_bonus s ≤ i64_max.
Proof.
  unfold signup_bonus. destruct (svc_settings s) as [c|]; [|by vm_compute; split; intros].
  destruct (svc_billing s); [|by vm_compute; split; intros].
  unfold SignupBonusCredits, floor0, GetInt, ParseInt_value. destruct (signed_digits _) as [v|]; [|by vm_compute; split; intros].
  destruct (Z.ltb_spec (Z.max i64_min (Z.min i64_max v)) 0); unfold i64_min, i64_max in *; lia.
Qed.

Lemma run_bonus b id u (d : database) remark :
  0 < b ≤ i64_max → users d !! id = Some u → CreditBalance u = 0 → CreditFrozen u = 0 → UserDeletedAt u = None →
  (run (AdminAdjust id 0 b "signup_bonus" remark) d).2 =
  log_txs [Build_CreditTx id 0 KindAdjust b b "signup_bonus" remark] (with_users <[id := set_wallet b 0 u]> d).
Proof.
  intros Hb Hu H0 Hf Hl. unfold AdminAdjust. replace (b =? 0) with false by lia. replace (0 <? b) with true by lia.
  db_eval. rewrite Hu. unfold live. rewrite bool_decide_eq_true_2 by done.
  unfold add_balance. rewrite H0, Z.add_0_l, bigint_in by (unfold in_i64, i64_min in *; lia). cbn [rbind].
  rewrite Hf. unfold select_balance. db_eval. rewrite lookup_insert_eq. by cbn.
Qed.

(** Whoever is admitted gets the row and the bonus that the settings grant. *)
Lemma grant_run s id u d0 (st : system R) :
  sys_db st = with_users <[id := u]> d0 → CreditBalance u = 0 → CreditFrozen u = 0 → UserDeletedAt u = None →
  ∃ r, exec_proc (grant_bonus s id) (World st []) = (r, World (with_db (admitted s id u d0) st) []).
Proof.
  intros Hd H0 Hf Hl. unfold grant_bonus, admitted, granted, bonus_entry. pose proof (signup_bonus_in s) as Hb.
  destruct (Z.ltb_spec 0 (signup_bonus s)) as [Hpos|Hz].
  - assert (users (sys_db st) !! id = Some u) as Hu by (rewrite Hd; cbn; by rewrite lookup_insert_eq).
    pose proof (run_bonus (signup_bonus s) id u (sys_db st) "auto grant on register" ltac:(lia) Hu H0 Hf Hl) as Hr.
    eexists. cbn [exec_proc one]. rewrite (on_db_quiet (AdminAdjust _ _ _ _ _)), Hr, Hd. do 3 f_equal. unfold log_txs, with_db, with_credit_transactions, with_users. cbn.
    by rewrite insert_insert_eq.
  - eexists. cbn [exec_proc]. rewrite log_txs_nil, <-Hd. by rewrite with_db_same.
Qed.

(** The result and the database of a registration that runs alone. *)
Lemma Register_run s email password nickname emailCode salt (st : system R) :
  let '(r, st') := prun (Register s email password nickname emailCode salt) st in
  is_ok r = admissible s email password emailCode salt st ∧
  match r with
  | Ok (id, u, mail) =>
      ∃ hash, GenerateFromPassword salt password (svc_bcryptCost s) = Ok hash ∧
        u = new_user (normalizeEmail email) hash (normalizeNickname nickname)
              (if nobody (sys_db st) then RoleAdmin else RoleUser) (default_group s) ∧
        users (sys_db st) !! id = None ∧ sys_db st' = admitted s id u (sys_db st) ∧ mail = welcome s u ∧
        (requires_code s = true → spent (normalizeEmail email) st')
  | Err _ => sys_db st' = sys_db st
  end.
Proof.
  unfold Register, admissible. set (e := normalizeEmail email). set (code := normalizeEmailCode emailCode).
  destruct (String.eqb e ""); [by split|]. destruct (String.eqb password ""); [by split|]. cbn [orb negb andb].
  destruct (too_short s password); [by split|]. destruct (ensureEmailAllowed s e) as [[]|]; [|by split]. cbn [negb andb is_ok].
  unfold prun. rewrite exec_ok_one, (on_db_quiet (ensureEmailAvailable e)), run_available. cbn [fst snd]. rewrite with_db_same.
  destruct (bool_decide (with_email e (sys_db st) = [])) eqn:Htaken; cbn [fst snd].
  2: { apply bool_decide_eq_false in Htaken. split; [|done]. cbn.
       destruct (email_used e (sys_db st)) eqn:Hu; [done|]. exfalso. by apply Htaken, with_email_unused. }
  rewrite exec_ok_one, (on_db_quiet (registerRole s)), run_role. cbn [fst snd]. rewrite with_db_same.
  destruct (nobody (sys_db st) || registration_open s) eqn:Hopen.
  2: { apply orb_false_iff in Hopen as [-> ->]. cbn. by rewrite andb_false_r. }
  assert ((if nobody (sys_db st) then Ok "admin" else if registration_open s then Ok "user" else Err ErrRegisterDisabled) =
          Ok (if nobody (sys_db st) then RoleAdmin else RoleUser)) as ->.
  { apply orb_true_iff in Hopen as [-> | ->]; [done|]. by destruct (nobody (sys_db st)). }
  rewrite exec_ok. destruct (check_code_run s e code st) as (r & st1 & -> & <- & Hdb & Hsp).
  destruct r as [[]|err]; cbn [is_ok]; [|by rewrite !andb_false_r].
  destruct (GenerateFromPassword salt password (svc_bcryptCost s)) as [hash|err]; [|by rewrite andb_false_r]. cbn [is_ok].
  rewrite exec_ok_one, (on_db_quiet (Users.Create _)), Hdb. unfold Users.Create. db_eval.
  destruct (email_used e (sys_db st)) eqn:Hused; cbn [fst snd negb andb].
  { split; [done|]. cbn. done. }
  set (u := new_user _ _ _ _ _). set (id := auto_id _).
  rewrite exec_pbind. destruct (grant_run s id u (sys_db st) (with_db (with_users <[id := u]> (sys_db st)) st1)) as [r Hr]; [done..|].
  rewrite Hr. cbn [fst snd exec_proc w_db is_ok]. split; [done|]. exists hash. split_and!; try done.
  - apply auto_id_fresh.
  - intros Hq. exact (Hsp eq_refl Hq).
Qed.

(** C15: who is registered.  Alone, with a server that answers, a registration
    succeeds exactly when the address is given, allowed and borne by no row,
    deleted ones included, the password is long enough and hashed, registration
    is open or nobody is there yet, and the code, where one is asked for, is the
    one that was mailed.  Then one row is added, under a new id, with the
    address trimmed and folded, the hash, the role of an administrator exactly
    when it is the first, and the bonus of the settings for its balance; that
    bonus is the one entry the journal gains, and only when it is positive; no
    other row of users changes; the code is spent.  Otherwise the database is as
    it was. *)
Theorem Register_admits s email password nickname emailCode salt (st : system R) :
  let '(r, st') := prun (Register s email password nickname emailCode salt) st in
  is_ok r = admissible s email password emailCode salt st ∧
  match r with
  | Ok (id, u, mail) =>
      (∃ v, users (sys_db st') !! id = Some v ∧ Email v = normalizeEmail email ∧ Status v = "active" ∧
         Ok (PasswordHash v) = GenerateFromPassword salt password (svc_bcryptCost s) ∧
         (Role v = RoleAdmin ↔ nobody (sys_db st) = true) ∧
         CreditBalance v = signup_bonus s ∧ CreditFrozen v = 0) ∧
      users (sys_db st) !! id = None ∧ (∀ i, i ≠ id → users (sys_db st') !! i = users (sys_db st) !! i) ∧
      credit_transactions (sys_db st') = credit_transactions (sys_db st) ++ bonus_entry s id ∧
      (requires_code s = true → spent (normalizeEmail email) st')
  | Err _ => sys_db st' = sys_db st
  end.
Proof.
  pose proof (Register_run s email password nickname emailCode salt st) as H.
  destruct (prun (Register _ _ _ _ _ _) st) as [[[[id u] mail]|e] st']; [|exact H].
  destruct H as [Hadm (hash & Hhash & Hu & Hid & Hdb & _ & Hsp)]. rewrite Hdb. split; [exact Hadm|]. split_and!; try done.
  - exists (granted s u). cbn. rewrite lookup_insert_eq, Hhash. pose proof (signup_bonus_in s) as Hb. subst u. unfold granted.
    destruct (Z.ltb_spec 0 (signup_bonus s)); destruct (nobody (sys_db st)); cbn; split_and!; try done; lia.
  - intros i Hi. cbn. by rewrite lookup_insert_ne.
Qed.

(** ** Logging in *)

Lemma Now_quiet (st : system R) : Now (World st []) = (Ok (sys_now (wait 0 st)), World (wait 0 st) []).
Proof. done. Qed.


Lemma wait_twice (st : system R) : sys_now st ≤ sys_now (wait 0 st).
Proof. pose proof (wait_now 0 st). lia. Qed.

#[local] Instance GetByEmail_transparent email : Transparent (GetByEmail email).
Proof. unfold GetByEmail. db_transparent. Qed.
#[local] Instance UpdateLoginInfo_transparent id ip now : Transparent (UpdateLoginInfo id ip now).
Proof. unfold UpdateLoginInfo. db_transparent. Qed.

(** The row that is found, its password compared, the pair issued for the
    role it has now, and the login noted. *)
Lemma Login_alone s email password ip st id u l tokens :
  with_email (normalizeEmail email) (sys_db st) = (id, u) :: l → Status u ≠ "banned" →
  CompareHashAndPassword (PasswordHash u) password = true →
  Issue SignedString (svc_jwt s) id (Role u) (sys_now (wait 0 st)) = Ok tokens →
  ∃ now st', prun (Login s email password ip) st = (Ok (id, u, tokens), st') ∧ sys_now (wait 0 st) ≤ now ∧
    sys_db st' = with_users <[id := with_login now ip u]> (sys_db st).
Proof.
  intros Hrow Hb Hc Hi. unfold prun, Login. change (ToLower (TrimSpace email)) with (normalizeEmail email).
  rewrite exec_pbind_one, (on_db_quiet (GetByEmail _)). unfold GetByEmail. db_eval.
  change (rows_where _ _ (sys_db st)) with (with_email (normalizeEmail email) (sys_db st)). rewrite Hrow. cbn [head fst snd].
  rewrite with_db_same. destruct (String.eqb_spec (Status u) "banned"); [done|]. rewrite Hc. cbn [negb].
  cbn [exec_proc]. rewrite Now_quiet, Hi. cbn [exec_proc]. rewrite Now_quiet. cbn [exec_proc]. rewrite (on_db_quiet (UpdateLoginInfo _ _ _)).
  cbn [fst snd exec_proc w_db].
  do 2 eexists. split; [reflexivity|]. split; [apply wait_twice|]. cbn [with_db sys_db]. rewrite !wait_db.
  unfold UpdateLoginInfo. db_eval. unfold id_update.
  assert ((id, u) ∈ with_email (normalizeEmail email) (sys_db st)) as [Hl _]%elem_of_rows_where by (rewrite Hrow; left).
  by rewrite Hl.
Qed.

Lemma with_email_admitted s id u d :
  users d !! id = None → email_used (Email u) d = false → UserDeletedAt u = None →
  ∃ l, with_email (Email u) (admitted s id u d) = (id, granted s u) :: l.
Proof.
  intros Hid Hu Hdel.
  assert (Email (granted s u) = Email u ∧ UserDeletedAt (granted s u) = None) as [He Hp].
  { unfold granted. destruct (0 <? signup_bonus s); by split. }
  assert (∀ i v, (i, v) ∈ with_email (Email u) (admitted s id u d) ↔ i = id ∧ v = granted s u) as H.
  { intros i v. unfold with_email. rewrite elem_of_rows_where. cbn. split.
    - intros [Hl [Hv _]%andb_true_iff]. apply String.eqb_eq in Hv.
      destruct (decide (i = id)) as [->|Hne]; [rewrite lookup_insert_eq in Hl; by simplify_eq|].
      rewrite lookup_insert_ne in Hl by done. assert (email_used (Email u) d = true) by (apply email_used_lookup; eauto). congruence.
    - intros [-> ->]. split; [by rewrite lookup_insert_eq|]. rewrite He, String.eqb_refl. unfold present.
      by rewrite bool_decide_eq_true_2. }
  destruct (with_email (Email u) (admitted s id u d)) as [|[i v] l].
  - exfalso. assert ((id, granted s u) ∈ []) as Hin by (by apply H). by apply not_elem_of_nil in Hin.
  - exists l. f_equal. assert (i = id ∧ v = granted s u) as [-> ->]; [|done]. apply H. left.
Qed.

Section logged_in.
(** bcrypt accepts a password under the hash it has made of it; the library
    of tokens signs what it is given and parses what it has signed. *)
Hypothesis hash_accepts : ∀ salt password cost hash,
  GenerateFromPassword salt password cost = Ok hash → CompareHashAndPassword hash password = true.
Hypothesis signs : ∀ key claims, is_ok (SignedString key claims) = true.
Variables (token_error : goerr) (m : Manager).
Hypothesis parse_signed : ∀ claims t now,
  SignedString (secret m) claims = Ok t →
  NumericDate (NotBefore claims) = NotBefore claims → NumericDate (ExpiresAt claims) = ExpiresAt claims →
  ParseWithClaims (keyfunc m) t now =
    if (NotBefore claims <=? now) && (now <? ExpiresAt claims) then Ok (claims, true) else Err token_error.
Hypothesis signed_graphic : ∀ claims t,
  SignedString (secret m) claims = Ok t → t ≠ "" ∧ Forall (λ c, is_graphic c = true) (bytes t).

(** C10: who has registered can log in.  With the address in any letter case
    and with any blanks around it, and the password, a login right after the
    registration returns the new user and a pair whose access token opens the
    routes under that user's number and role as long as it lives. *)
Theorem registered_can_log_in s email password nickname emailCode salt st id u mail st' email' ip :
  svc_jwt s = m → normalizeEmail email' = normalizeEmail email →
  prun (Register s email password nickname emailCode salt) st = (Ok (id, u, mail), st') →
  ∃ tokens st'', prun (Login s email' password ip) st' = (Ok (id, granted s u, tokens), st'') ∧
    let now := sys_now (wait 0 st') in
    ∀ t c, JWTAuth ParseWithClaims error_text m ("Bearer " +:+ AccessToken tokens) t c =
      if (NumericDate now <=? t) && (t <? NumericDate (now + (currentTTLs m).1))
      then Next {| ctx_user_id := Some id; ctx_role := Some (if nobody (sys_db st) then RoleAdmin else RoleUser) |}
      else Abort CodeUnauthorized ("invalid token: " +:+ error_text token_error).
Proof.
  intros Hm He Hreg. pose proof (Register_run s email password nickname emailCode salt st) as H. rewrite Hreg in H.
  destruct H as [Hadm (hash & Hhash & Hu & Hid & Hdb & _ & _)].
  set (now := sys_now (wait 0 st')).
  assert (Status (granted s u) ≠ "banned" ∧ PasswordHash (granted s u) = hash ∧ Email u = normalizeEmail email ∧
          UserDeletedAt u = None ∧ Role (granted s u) = if nobody (sys_db st) then RoleAdmin else RoleUser)
    as (Hb & Hph & Hue & Hdel & Hrole).
  { subst u. unfold granted. by destruct (0 <? signup_bonus s). }
  assert (email_used (Email u) (sys_db st) = false) as Hused.
  { rewrite Hue. unfold admissible in Hadm. destruct (email_used _ _); [|done]. cbn [negb] in Hadm.
    rewrite !andb_false_r in Hadm. done. }
  destruct (with_email_admitted s id u (sys_db st) Hid Hused Hdel) as [l Hl].
  assert (∃ tokens, Issue SignedString (svc_jwt s) id (Role (granted s u)) now = Ok tokens ∧
            signWithTTL SignedString m id (Role (granted s u)) "access" now (currentTTLs m).1 = Ok (AccessToken tokens)) as (tokens & Hi & Hacc).
  { unfold Issue. rewrite Hm. destruct (currentTTLs m) as [a r]. unfold signWithTTL.
    pose proof (signs (secret m)) as Hs.
    pose proof (Hs (claims_of m id (Role (granted s u)) "access" now a)) as H1.
    pose proof (Hs (claims_of m id (Role (granted s u)) "refresh" now r)) as H2.
    destruct (SignedString _ (claims_of _ _ _ "access" _ _)) eqn:E1; [|done].
    destruct (SignedString _ (claims_of _ _ _ "refresh" _ _)) eqn:E2; [|done]. cbn. eauto. }
  destruct (Login_alone s email' password ip st' id (granted s u) l tokens) as (now' & st'' & Hlog & _ & _); [|done| |done|].
  - by rewrite He, Hdb, <-Hue.
  - rewrite Hph. eapply hash_accepts. exact Hhash.
  - exists tokens, st''. split; [exact Hlog|]. cbn zeta. intros t c.
    rewrite (JWTAuth_signed SignedString ParseWithClaims error_text m token_error parse_signed signed_graphic _ _ _ _ _ _ t c Hacc).
    by rewrite Hrole.
Qed.
End logged_in.

(** ** What other requests do to an address *)

Section traffic.
Context (Rel : relation (system R)) `{!PreOrder Rel} (Hwait : ∀ st d, 0 ≤ d → Rel st (wait d st)).

#[local] Instance Rel_same {A} (m : DBM A) : Keeps eq m → Keeps Rel (on_db m).
Proof.
  intros Hm [st fs]. unfold on_db. cbn. specialize (Hm (World (sys_db st) fs)). cbn in Hm.
  destruct (m _) as [r [d fs']]. cbn in *. subst d. by rewrite with_db_same.
Qed.
#[local] Instance Rel_now : Keeps Rel Now.
Proof. intros [st fs]. cbn. by apply (Hwait st 0). Qed.

#[local] Instance Rel_reads {A} (f : Z → R → A) : Keeps Rel (redis (λ now r, (f now r, r))).
Proof.
  intros [st fs]. unfold redis, call. cbn.
  assert (Rel st (with_redis (sys_redis (wait 0 st)) (wait 0 st))) as H.
  { assert (with_redis (sys_redis (wait 0 st)) (wait 0 st) = wait 0 st) as -> by (by destruct (wait 0 st)). by apply Hwait. }
  by destruct fs as [|[] fs].
Qed.
#[local] Instance Rel_get key : Keeps Rel (redis_get key) := _.
#[local] Instance Rel_ttl key : Keeps Rel (redis_ttl key) := _.
#[local] Instance redis_get_steady key : Steady (redis_get key) := _.
#[local] Instance redis_ttl_steady key : Steady (redis_ttl key) := _.
#[local] Instance redis_set_steady key v ttl : Steady (redis_set key v ttl) := _.
#[local] Instance redis_del_steady keys : Steady (redis_del keys) := _.
#[local] Instance redis_expire_steady key ttl : Steady (redis_expire key ttl) := _.
#[local] Instance redis_incr_steady key : Steady (redis_incr key).
Proof. unfold redis_incr. apply _. Qed.

Abbreviation fine p := (follows Rel (λ _, True) p).

#[local] Instance CountByEmail_steady email : Steady (ensureEmailAvailable email) := _.
#[local] Instance registerRole_steady s : Steady (registerRole s) := _.

#[local] Instance available_same email : Keeps eq (ensureEmailAvailable email).
Proof. unfold ensureEmailAvailable, CountByEmail. apply _. Qed.
#[local] Instance role_same s : Keeps eq (registerRole s).
Proof. unfold registerRole, CountAll. apply _. Qed.
#[local] Instance GetByEmail_same email : Keeps eq (GetByEmail email).
Proof. unfold GetByEmail. apply _. Qed.
#[local] Instance GetByID_same id : Keeps eq (GetByID id).
Proof. unfold GetByID. apply _. Qed.

Lemma check_follows s email code :
  Keeps Rel (redis (consumeRegisterEmailCodeScript (value_key email) code)) → fine (check_code s email code).
Proof. intros Hc. unfold check_code, verifyAndConsumeRegisterEmailCode. follow_steps. Qed.

Lemma grant_follows s id :
  (∀ b, Keeps Rel (on_db (AdminAdjust id 0 b "signup_bonus" "auto grant on register"))) → fine (grant_bonus s id).
Proof. intros Ha. unfold grant_bonus. follow_steps. Qed.

Lemma Register_follows s email password nickname emailCode salt :
  Keeps Rel (redis (consumeRegisterEmailCodeScript (value_key (normalizeEmail email)) (normalizeEmailCode emailCode))) →
  (∀ u, Email u = normalizeEmail email → Keeps Rel (on_db (Users.Create u))) →
  (∀ id b, Keeps Rel (on_db (AdminAdjust id 0 b "signup_bonus" "auto grant on register"))) →
  fine (Register s email password nickname emailCode salt).
Proof.
  intros Hc Hcreate Ha. unfold Register.
  pose proof (check_follows s (normalizeEmail email) (normalizeEmailCode emailCode) Hc).
  assert (∀ id, fine (grant_bonus s id)) by (intros id; by apply grant_follows).
  assert (∀ hash role, Keeps Rel (on_db (Users.Create (new_user (normalizeEmail email) hash (normalizeNickname nickname) role (default_group s))))).
  { intros hash role. by apply Hcreate. }
  assert (∀ u, Steady (Users.Create u)) by (intros; unfold Users.Create; apply _).
  follow_steps.
Qed.

Lemma Login_follows s email password ip :
  (∀ id now, Keeps Rel (on_db (UpdateLoginInfo id ip now))) → fine (Login s email password ip).
Proof. intros Hu. unfold Login. follow_steps. Qed.

Lemma Refresh_follows s token : fine (Refresh s token).
Proof. unfold Refresh. follow_steps. Qed.

Section send.
Variables (s : Service) (email ip : string).
Abbreviation e := (normalizeEmail email).
Hypothesis Hkeys : ∀ key, key = email_rate_key e ∨ key = ip_rate_key ip →
  Keeps Rel (redis (λ now r, INCR now key r)) ∧ (∀ ttl, Keeps Rel (redis_expire key ttl)).
Hypothesis Hset : ∀ code, Keeps Rel (redis_set (value_key e) code registerEmailCodeTTL).
Hypothesis Hcool : Keeps Rel (redis_set (cooldown_key e) "1" registerEmailCodeCooldownTTL).
Hypothesis Hdel1 : Keeps Rel (redis_del [value_key e]).
Hypothesis Hdel2 : Keeps Rel (redis_del [value_key e; cooldown_key e]).

Lemma bump_follows key : key = email_rate_key e ∨ key = ip_rate_key ip → fine (bumpRegisterEmailCodeRate key).
Proof.
  intros Hk. destruct (Hkeys key Hk) as [Hi Hx].
  assert (Keeps Rel (redis_incr key)) by (unfold redis_incr; apply _).
  unfold bumpRegisterEmailCodeRate. follow_steps.
Qed.

Lemma Send_follows random : fine (SendRegisterEmailCode s email ip random).
Proof.
  assert (∀ key fallback, Keeps Rel (redisTTLSeconds s key fallback)) by (intros; unfold redisTTLSeconds; apply _).
  assert (∀ key fallback, Steady (redisTTLSeconds s key fallback)) by (intros; unfold redisTTLSeconds; apply _).
  assert (∀ key, Keeps Rel (redisCounter s key)) by (intros; unfold redisCounter; apply _).
  assert (∀ key, Steady (redisCounter s key)) by (intros; unfold redisCounter; apply _).
  pose proof (bump_follows (email_rate_key e) (or_introl eq_refl)) as Hb1.
  pose proof (bump_follows (ip_rate_key ip) (or_intror eq_refl)) as Hb2.
  assert (fine (ensureRegisterEmailCodeSendAllowed s e ip)) as Hallowed.
  { unfold ensureRegisterEmailCodeSendAllowed, limit_reached. follow_steps. }
  assert (∀ cfg code, fine (mail_code s cfg e ip code)) as Hmail.
  { intros cfg code. unfold mail_code. follow_steps. }
  unfold SendRegisterEmailCode. follow_steps.
Qed.
End send.
End traffic.

(** ** An address and its codes *)

Definition spent_on (e : string) (st st' : system R) : Prop :=
  sys_now st ≤ sys_now st' ∧ (spent e st → spent e st').


Lemma spent_on_forward e : forward (spent_on e).
Proof.
  split_and!.
  - split; [by intros st; split|]. intros st1 st2 st3 [H1 H2] [H3 H4]. split; [lia|auto].
  - intros st d Hd. pose proof (wait_now d st Hd). split; [lia|]. intros Hs t Ht. rewrite wait_redis. apply Hs. lia.
  - by intros st d.
  - by intros st.
Qed.

Lemma value_key_inj a b : value_key a = value_key b → a = b.
Proof. by intros [=]. Qed.
Lemma value_cooldown a b : value_key a ≠ cooldown_key b.
Proof. by intros [=]. Qed.
Lemma value_email_rate a b : value_key a ≠ email_rate_key b.
Proof. by intros [=]. Qed.
Lemma value_ip_rate a b : value_key a ≠ ip_rate_key b.
Proof. by intros [=]. Qed.

(** A command that brings no code of [e]'s into being. *)
Lemma spent_command e {A} (f : Z → R → A * R) :
  (∀ now r, (∀ t, now ≤ t → GET t (value_key e) r = None) → ∀ t, now ≤ t → GET t (value_key e) (f now r).2 = None) →
  Keeps (spent_on e) (redis f).
Proof.
  intros Hf. apply redis_keeps; [apply spent_on_forward|]. intros st. split; [done|]. intros Hs t Ht. cbn in *.
  by apply (Hf (sys_now st)).
Qed.

Lemma spent_elsewhere e {A} (f : Z → R → A * R) k :
  value_key e ≠ k → (∀ now r, same_from now (λ k', k' ≠ k) r (f now r).2) → Keeps (spent_on e) (redis f).
Proof. intros Hk Hf. apply spent_command. intros now r Hs t Ht. rewrite (Hf now r t (value_key e) Ht Hk). by apply Hs. Qed.

Lemma del_spent e now k r :
  (∀ t, now ≤ t → GET t (value_key e) r = None) → ∀ t, now ≤ t → GET t (value_key e) (DEL now k r).2 = None.
Proof.
  intros Hs t Ht. destruct (decide (value_key e = k)) as [->|Hne]; [by apply del_gone|].
  rewrite (del_others r now k t (value_key e) Ht Hne). by apply Hs.
Qed.

Lemma consume_spent e k code : Keeps (spent_on e) (redis (consumeRegisterEmailCodeScript k code)).
Proof.
  apply spent_command. intros now r Hs. unfold consumeRegisterEmailCodeScript.
  case_bool_decide; [|done]. by apply del_spent.
Qed.

Lemma redis_del_spent e keys : Keeps (spent_on e) (redis_del keys).
Proof.
  apply spent_command. intros now r Hs. cbn [snd]. revert r Hs.
  induction keys as [|k keys IH]; intros r Hs; [done|]. cbn [foldl]. apply IH. by apply del_spent.
Qed.

Section counters.
Context `{!RedisCounterLaws R}.

Lemma Register_spent e s email password nickname emailCode salt :
  follows (spent_on e) (λ _, True) (Register s email password nickname emailCode salt).
Proof. apply Register_follows; [apply spent_on_forward..|apply consume_spent| |]; intros; by apply on_db_keeps, spent_on_forward. Qed.

Lemma Send_spent e s email ip random :
  normalizeEmail email ≠ e → follows (spent_on e) (λ _, True) (SendRegisterEmailCode s email ip random).
Proof.
  intros He. apply Send_follows; [apply spent_on_forward..| | | |apply redis_del_spent|apply redis_del_spent].
  - intros key Hk. assert (value_key e ≠ key) as Hne.
    { destruct Hk as [->| ->]; [apply value_email_rate|apply value_ip_rate]. }
    split; [|intros ttl]; (eapply spent_elsewhere; [exact Hne|intros now r; cbn [snd]]); [apply incr_others|apply pexpire_others].
  - intros code. eapply (spent_elsewhere e _ (value_key (normalizeEmail email))); [|intros now r; apply set_others].
    intros Hv. apply value_key_inj in Hv. congruence.
  - eapply (spent_elsewhere e _ (cooldown_key (normalizeEmail email))); [apply value_cooldown|intros now r; apply set_others].
Qed.
End counters.

(** No row of [e]'s that was not there. *)
Definition none_new (e : string) (d d' : database) : Prop :=
  ∀ id u', users d' !! id = Some u' → Email u' = e → ∃ u, users d !! id = Some u ∧ Email u = e.
Definition none_new_sys (e : string) (st st' : system R) : Prop := none_new e (sys_db st) (sys_db st').

#[local] Instance none_new_preorder e : PreOrder (none_new e).
Proof. split; [by intros d id u; eauto|]. intros d1 d2 d3 H1 H2 id u Hu He. destruct (H2 id u Hu He) as (v & Hv & Hve). eauto. Qed.
#[local] Instance none_new_sys_preorder e : PreOrder (none_new_sys e).
Proof. split; [intros st; unfold none_new_sys; reflexivity|]. intros st1 st2 st3 H1 H2. unfold none_new_sys in *. by etrans. Qed.

#[local] Instance none_new_on_db e {A} (m : DBM A) : Keeps (none_new e) m → Keeps (none_new_sys e) (on_db m).
Proof.
  intros Hm [st fs]. unfold on_db. cbn. specialize (Hm (World (sys_db st) fs)). by destruct (m _) as [r [d fs']].
Qed.

#[local] Instance none_new_redis e {A} (f : Z → R → A * R) : Keeps (none_new_sys e) (redis f).
Proof.
  intros [st fs]. unfold redis, call, none_new_sys. cbn. destruct fs as [|[] fs]; cbn; [|done|];
    destruct (f _ _); cbn; rewrite wait_db; done.
Qed.

Lemma none_new_wait e st d : 0 ≤ d → none_new_sys e st (wait d st).
Proof. intros _. unfold none_new_sys. by rewrite wait_db. Qed.

(** An UPDATE of a user leaves the address. *)
Lemma none_new_update e id W S :
  (∀ u u', S u = Ok u' → Email u' = Email u) → Keeps (none_new e) (exec (id_update users with_users id W S)).
Proof.
  intros HS. apply exec_keeps; [apply _|]. intros d a d' H. unfold id_update in H.
  destruct (users d !! id) as [u|] eqn:Hu; [|by simplify_eq].
  destruct (W u) as [[]|]; cbn in H; [|by simplify_eq|done]. destruct (S u) as [u'|] eqn:E; cbn in H; [|done]. simplify_eq.
  intros j v Hv He. cbn in Hv. destruct (decide (j = id)) as [->|Hne].
  - rewrite lookup_insert_eq in Hv. simplify_eq. exists u. split; [done|]. by rewrite <-(HS _ _ E).
  - rewrite lookup_insert_ne in Hv by done. eauto.
Qed.

#[local] Instance none_new_update_user e id W db : Keeps (none_new e) (update_user id W (add_balance db)).
Proof.
  apply none_new_update. intros u u' H. unfold add_balance in H. destruct (bigint _); cbn in H; by simplify_eq.
Qed.

#[local] Instance none_new_AdminAdjust e id x b r m : Keeps (none_new e) (AdminAdjust id x b r m).
Proof.
  assert (∀ t, Keeps (none_new e) (insert_tx t)).
  { intros t. apply exec_keeps; [apply _|]. intros d a d' [= <- <-]. cbn. by intros j v Hv He; eauto. }
  unfold AdminAdjust, select_balance. destruct (b =? 0); [apply _|]. apply runTx_keeps; [apply _|]. apply _.
Qed.

#[local] Instance none_new_login e id ip now : Keeps (none_new e) (UpdateLoginInfo id ip now).
Proof.
  unfold UpdateLoginInfo. apply bind_keeps; [apply _| |intros; apply _].
  apply none_new_update. by intros u u' [= <-].
Qed.

Lemma none_new_create e u : Email u ≠ e → Keeps (none_new e) (Users.Create u).
Proof.
  intros He. apply exec_keeps; [apply _|]. intros d a d' H. destruct (email_used _ _); [done|].
  remember (auto_id (users d)) as i eqn:Ei. injection H as <- <-.
  intros j v Hv Hve. cbn in Hv. destruct (decide (j = i)) as [->|Hne].
  - rewrite lookup_insert_eq in Hv. by simplify_eq.
  - rewrite lookup_insert_ne in Hv by done. eauto.
Qed.

Section requests.
Context `{!RedisCounterLaws R}.

Variable e : string.

(** Everything but a code sent to [e]; who registers under [e] is asked for
    one. *)
Inductive signup_request : process unit → Prop :=
  | RegisterRequest s email password nickname emailCode salt :
      (normalizeEmail email = e → requires_code s = true) →
      signup_request (forget (Register s email password nickname emailCode salt))
  | LoginRequest s email password ip : signup_request (forget (Login s email password ip))
  | RefreshRequest s token : signup_request (forget (Refresh s token))
  | SendRequest s email ip random :
      normalizeEmail email ≠ e → signup_request (forget (SendRegisterEmailCode s email ip random)).

Abbreviation safe p := (guarded (spent e) (none_new_sys e) (λ _, True) p).

Lemma safe_follows {A} (p : process A) :
  follows (spent_on e) (λ _, True) p → follows (none_new_sys e) (λ _, True) p → safe p.
Proof. apply guarded_follows. by intros s s' [_ H]. Qed.

Lemma safe_call {A} (m : DB (system R) A) :
  Keeps (spent_on e) m → Keeps (none_new_sys e) m → Steady m → safe (one m).
Proof. intros H1 H2 H3. apply safe_follows; by apply follows_one. Qed.

Lemma check_fails s code : requires_code s = true → guarded (spent e) (none_new_sys e) (λ r, is_ok r = false) (check_code s e code).
Proof.
  intros Hs. unfold check_code. rewrite Hs. cbn [negb]. destruct (String.eqb code ""); [done|].
  cbn [one guarded]. intros w Hw.
  assert (Keeps (spent_on e) (verifyAndConsumeRegisterEmailCode s e code)) as H1.
  { pose proof (consume_spent e (value_key e) code). pose proof (proj1 (spent_on_forward e)).
    unfold verifyAndConsumeRegisterEmailCode. destruct (negb _); apply _. }
  assert (Keeps (none_new_sys e) (verifyAndConsumeRegisterEmailCode s e code)) as H2.
  { unfold verifyAndConsumeRegisterEmailCode. destruct (negb _); apply _. }
  split_and!; [by apply (H1 w)|by apply (H2 w)|]. unfold verifyAndConsumeRegisterEmailCode.
  destruct (negb _); [done|]. unfold bind, redis, call. destruct w as [st fs]. cbn [w_db w_faults] in *.
  assert (GET (sys_now (wait 0 st)) (value_key e) (sys_redis (wait 0 st)) = None) as Hg.
  { rewrite wait_redis. apply Hw. apply wait_twice. }
  unfold consumeRegisterEmailCodeScript. rewrite Hg. rewrite bool_decide_eq_false_2 by done. by destruct fs as [|[] fs].
Qed.

Lemma Register_safe s email password nickname emailCode salt :
  (normalizeEmail email = e → requires_code s = true) → safe (Register s email password nickname emailCode salt).
Proof.
  intros Hs. destruct (decide (normalizeEmail email = e)) as [He|Hne].
  2: { apply safe_follows; [apply Register_spent|]. apply Register_follows; [apply _|apply _| |].
       2: { intros id b. apply none_new_on_db, none_new_AdminAdjust. }
       intros u Hu. apply none_new_on_db, none_new_create. by rewrite Hu. }
  specialize (Hs He). unfold Register. rewrite He.
  destruct (_ || _); [done|]. destruct (too_short s password); [done|]. destruct (ensureEmailAllowed s e); [|done].
  assert (∀ m : DBM string, Keeps eq m → Steady m → safe (one (on_db m))) as Hsame.
  { intros m Hm Hst. apply safe_follows; apply follows_one; try apply _;
      (eapply Rel_same; [|done]); [apply (spent_on_forward e)|apply _]. }
  assert (∀ m : DBM unit, Keeps eq m → Steady m → safe (one (on_db m))) as Hsame'.
  { intros m Hm Hst. apply safe_follows; apply follows_one; try apply _;
      (eapply Rel_same; [|done]); [apply (spent_on_forward e)|apply _]. }
  eapply guarded_pbind; [apply Hsame'; [unfold ensureEmailAvailable, CountByEmail; apply _|apply _]|]. intros [[]|] _; [|done].
  eapply guarded_pbind; [apply Hsame; [unfold registerRole, CountAll; apply _|apply _]|]. intros [role|] _; [|done].
  eapply guarded_pbind; [by apply check_fails|]. by intros [[]|].
Qed.

(** C11: an address needs its code.  While registration asks for the code that
    was mailed, nobody gets an account under an address no code was sent to:
    from a moment at which no code of [e]'s is left, whatever registrations,
    logins, refreshes and codes to other addresses come, however their calls
    interleave, whichever of them fail or are cut short, every row that bears
    [e] was there before, and there is still no code of [e]'s. *)
Theorem address_needs_code w ts w' :
  spent e (w_db w) → rtc (pool_step signup_request) ([], w) (ts, w') →
  none_new e (sys_db (w_db w)) (sys_db (w_db w')) ∧ spent e (w_db w').
Proof.
  intros Hs Hr. destruct (pool_guarded signup_request (spent e) (none_new_sys e)) with (s := (@nil (process unit), w)) (s' := (ts, w'))
    as [H1 H2]; [|exact Hr|constructor|exact Hs|by split].
  intros p Hp. destruct Hp as [s email password nickname emailCode salt Hq|s email password ip|s token|s email ip random Hne].
  - eapply guarded_forget. by apply Register_safe.
  - eapply guarded_forget. apply safe_follows.
    + apply Login_follows; [apply (spent_on_forward e)..|]. intros; by apply on_db_keeps, spent_on_forward.
    + apply Login_follows; [apply _|apply none_new_wait|]. intros; by apply none_new_on_db, none_new_login.
  - eapply guarded_forget. apply safe_follows.
    + apply Refresh_follows; apply (spent_on_forward e).
    + apply Refresh_follows; [apply _|apply none_new_wait].
  - eapply guarded_forget. apply safe_follows; [by apply Send_spent|].
    apply Send_follows; [apply _|apply none_new_wait|..]; try (intros; apply _).
    intros key _. split; [apply _|intros; apply _].
Qed.
End requests.
End signup.

(** ** A server with these commands, a bcrypt, for the witnesses *)

#[global] Instance map_redis_counters : RedisCounters map_redis := {
  SET now k v ttl r := <[k := {| e_value := v; e_deadline := Some (now + ttl) |}]> r;
  TTL now k r :=
    match r !! k with
    | Some e => if alive now e
                then match e_deadline e with None => -1 | Some d => (d - now + 500000000) / second end
                else -2
    | None => -2
    end;
  INCR now k r :=
    match r !! k with
    | Some e =>
        if alive now e then
          match Atoi (e_value e) with
          | Some n => if bool_decide (in_i64 (n + 1))
                      then (Ok (n + 1), <[k := {| e_value := itoa (n + 1); e_deadline := e_deadline e |}]> r)
                      else (Err (EMsg "ERR increment or decrement would overflow"), r)
          | None => (Err (EMsg "ERR value is not an integer or out of range"), r)
          end
        else (Ok 1, <[k := {| e_value := "1"; e_deadline := None |}]> r)
    | None => (Ok 1, <[k := {| e_value := "1"; e_deadline := None |}]> r)
    end
}.

#[global] Instance map_redis_counter_laws : RedisCounterLaws map_redis.
Proof.
  split; unfold same_from; cbn [GET SET TTL INCR map_redis_server map_redis_counters].
  - intros r now k v ttl t Ht. rewrite lookup_insert_eq. cbn. unfold alive. cbn. by replace (t <? now + ttl) with true by lia.
  - intros r now k v ttl t k' _ Hk. by rewrite lookup_insert_ne.
  - intros r now k t k' _ Hk. repeat case_match; cbn; by rewrite ?lookup_insert_ne.
  - intros r now k. destruct (r !! k) as [x|]; [|done]. cbn. unfold alive. destruct (e_deadline x) as [d|]; [|done].
    destruct (Z.ltb_spec now d) as [Hd|Hd]; [|done]. intros Hq. unfold second in Hq.
    assert (0 ≤ (d - now + 500000000) / 1000000000) by (apply Z.div_pos; lia). lia.
  - intros r now k. destruct (r !! k) as [x|]; [|done]. unfold alive. destruct (e_deadline x) as [d|]; [|done].
    destruct (Z.ltb_spec now d) as [Hd|Hd]; [|done]. unfold second.
    assert (0 ≤ (d - now + 500000000) / 1000000000) by (apply Z.div_pos; lia). lia.
Qed.

(** Not a hash at all, but it accepts what it made. *)
Definition toy_bcrypt (salt password : string) (cost : Z) : result string :=
  if (72 <? String.length password)%nat then Err (EMsg "bcrypt: password length exceeds 72 bytes") else Ok password.
Definition toy_compare (hash password : string) : bool := String.eqb hash password.

Lemma toy_accepts salt password cost hash : toy_bcrypt salt password cost = Ok hash → toy_compare hash password = true.
Proof. unfold toy_bcrypt. case_match; [done|]. intros [= <-]. apply String.eqb_refl. Qed.

Definition sample_service : Service :=
  SetRedis true (SetBilling true (SetSettings (Some (<["auth.require_email_verify" := "true"]> ∅)) (NewService sample_manager 10))).

Definition sample_st : system map_redis :=
  System empty_database (<[value_key "ada@example.org" := {| e_value := "012345"; e_deadline := Some (hour * 500) |}]> ∅)
    (hour * 400) [] O Models.NewRegistry Users.empty_cache.

Abbreviation register_toy := (Register (R:=map_redis) toy_bcrypt sample_service).

Definition ada := register_toy " Ada@Example.org" "correct horse" "Ada" "012345" "salt".

Lemma Register_admits_witness :
  let '(r, st') := prun ada sample_st in
  is_ok r = true ∧ (requires_code sample_service = true → spent "ada@example.org" st').
Proof.
  pose proof (Register_admits toy_bcrypt sample_service " Ada@Example.org" "correct horse" "Ada" "012345" "salt" sample_st) as H.
  fold ada in H. destruct (prun ada sample_st) as [r st'] eqn:E. destruct H as [H1 H2].
  assert (admissible toy_bcrypt sample_service " Ada@Example.org" "correct horse" "012345" "salt" sample_st = true) as Ha
    by (vm_compute; reflexivity).
  rewrite Ha in H1. split; [exact H1|]. destruct r as [[[id u] mail]|]; [|discriminate H1].
  destruct H2 as (_ & _ & _ & _ & H2). exact H2.
Defined.

Lemma toy_signs key claims : is_ok (toy_sign key claims) = true.
Proof. done. Qed.

(** Ada logs in as [ADA@EXAMPLE.ORG]. *)
Lemma registered_can_log_in_witness :
  match prun ada sample_st with
  | (Ok (id, u, mail), st') =>
      ∃ tokens st'', prun (Login toy_compare toy_sign sample_service "ADA@EXAMPLE.ORG " "correct horse" "10.0.0.1") st' =
        (Ok (id, granted sample_service u, tokens), st'')
  | _ => False
  end.
Proof.
  destruct (prun ada sample_st) as [[[[id u] mail]|e] st'] eqn:E.
  2: { assert (is_ok (prun ada sample_st).1 = true) as H by (vm_compute; reflexivity). rewrite E in H. discriminate H. }
  destruct (registered_can_log_in toy_bcrypt toy_compare toy_sign toy_parse (λ _, "") toy_accepts toy_signs
    toy_token_error sample_manager toy_parse_signed toy_graphic sample_service " Ada@Example.org" "correct horse" "Ada" "012345"
    "salt" sample_st id u mail st' "ADA@EXAMPLE.ORG " "10.0.0.1") as (tokens & st'' & H & _);
    [vm_compute; reflexivity|vm_compute; reflexivity|exact E|].
  exists tokens, st''. exact H.
Defined.

(** Bob, to whom nothing was mailed, tries a code. *)
Definition bob := forget (register_toy "bob@example.org" "correct horse" "Bob" "012345" "salt").

Lemma address_needs_code_witness :
  let '(ts, w') := ([(advance 9 bob (World sample_st [])).1], (advance 9 bob (World sample_st [])).2) in
  none_new "bob@example.org" empty_database (sys_db (w_db w')) ∧ spent "bob@example.org" (w_db w').
Proof.
  cbn zeta. apply (address_needs_code toy_bcrypt toy_compare toy_sign toy_parse (λ _, Ok tt) "bob@example.org" (World sample_st [])
    [(advance 9 bob (World sample_st [])).1] (advance 9 bob (World sample_st [])).2).
  - intros t Ht. reflexivity.
  - eapply rtc_l; [apply (step_arrive _ [] _ bob)|]; [|apply pool_advance].
    unfold bob. apply RegisterRequest. intros _. reflexivity.
Defined.

(** Two registrations on an empty site: the second comes between the count
    and the row of the first, and both are administrators. *)
Example two_administrators :
  let plain := NewService sample_manager 10 in
  let register email := Register (R:=map_redis) toy_bcrypt plain email "correct horse" "" "" "salt" in
  let '(first, w1) := advance 2 (register "a@x") (World sample_st []) in
  let w2 := (exec_proc (register "b@x") w1).2 in
  let w3 := (exec_proc first w2).2 in
  map (λ p, Role p.2) (map_to_list (users (sys_db (w_db w3)))) = ["admin"; "admin"].
Proof. vm_compute. reflexivity. Qed.

(** The row of a deleted user bars his address, which the check before it
    takes for free: the code is gone and the answer is the server's error. *)
Definition deleted_row : User := {|
  Email := "ada@example.org"; PasswordHash := ""; Nickname := ""; GroupID := 1; Role := "user"; Status := "banned";
  CreditBalance := 0; CreditFrozen := 0; Version := 1; LastLoginAt := None; LastLoginIP := ""; UserDeletedAt := Some 0 |}.

Example deleted_address_barred :
  let st := with_db (with_users <[3%N := deleted_row]> empty_database) sample_st in
  let '(r, st') := prun ada st in
  match r with Err (EMySQL n) => n =? 1062 | _ => false end = true ∧
  GET (hour * 400) (value_key "ada@example.org") (sys_redis st') = None.
Proof. vm_compute. split; reflexivity. Qed.
