(* ===== verification/Playground.v ===== *)
(** * The playground (internal/gateway/playground.go)

    A signed-in user may call the gateway with his JWT: a middleware after
    [JWTAuth] looks up (or makes) a key of his under a reserved name and hands
    it to the handlers of the gateway, which then run as for any key. *)

From S2P Require Import Prelude GoStrings GoTime Sql Schema Rbac Access ApiKey.

Section playground.
Context (sha256hex : string → string) (error_text : goerr → string).

(** The answer, or the key the handler runs with. *)
Definition JWTAsPlaygroundKey (buf : list ascii) (c : Ctx) : DBM ((Z * string) + N * APIKey) :=
  let uid := UserID c in
  if (uid =? 0)%N then ret (inl (CodeUnauthorized, "not logged in")) else
  r <- try (EnsureInternalKey sha256hex uid buf) ;;
  match r with
  | Err e => ret (inl (CodeInternal, error_text e))
  | Ok k => ret (inr k)
  end.

Definition PlaygroundImagePreflight (c : Ctx) : outcome :=
  if (UserID c =? 0)%N then Abort CodeUnauthorized "not logged in" else Next c.

(** A key of the reserved name, live, in the table. *)
Definition internal_key (u : N) (d : database) (id : N) : Prop :=
  ∃ r, api_keys d !! id = Some r ∧ KeyUserID r = u ∧ KeyName r = InternalKeyName ∧ key_live r = true.

Lemma found_internal u d id k :
  last (rows_where api_keys (λ _ k, (KeyUserID k =? u)%N && String.eqb (KeyName k) InternalKeyName
                                    && key_live k) d) = Some (id, k) →
  internal_key u d id ∧ KeyUserID k = u.
Proof.
  intros (Hk & Hp)%last_Some_elem_of%elem_of_rows_where.
  apply andb_true_iff in Hp as [[Hu%N.eqb_eq Hn%String.eqb_eq]%andb_true_iff Hl].
  split; [by exists k|done].
Qed.

Lemma DAOCreate_ok k w id :
  (DAOCreate k w).1 = Ok id → api_keys (w_db (DAOCreate k w).2) !! id = Some (new_row k).
Proof.
  destruct w as [d fs]. unfold DAOCreate, exec, call. cbn [w_faults w_db].
  destruct fs as [|[] fs]; [|done|]; destruct (insert_key k d) as [[j d']|] eqn:Hi; cbn; try done;
    intros [= <-]; apply insert_key_ok in Hi as (_ & -> & _); apply lookup_insert_eq.
Qed.

Lemma EnsureInternalKey_ok u buf w id k :
  (EnsureInternalKey sha256hex u buf w).1 = Ok (id, k) →
  internal_key u (w_db (EnsureInternalKey sha256hex u buf w).2) id ∧ KeyUserID k = u.
Proof.
  unfold EnsureInternalKey, bind, try.
  pose proof (query_keeps (λ d, match last (rows_where api_keys (λ _ k, (KeyUserID k =? u)%N &&
      String.eqb (KeyName k) InternalKeyName && key_live k) d) with
    | Some p => Ok p | None => Err ErrNotFound end) w) as Hq.
  pose proof (transparent_run (m:=GetByUserAndName u InternalKeyName) w) as Ht.
  unfold GetByUserAndName in *. destruct (query _ w) as [[[i r]|e] w1]; cbn [fst snd] in *.
  - destruct Ht as [|Ht]; [done|]. rewrite run_query in Ht. intros [= -> ->]. cbn.
    apply found_internal. rewrite Hq. destruct (last _); by simplify_eq.
  - destruct (negb _); [done|].
    match goal with |- context [DAOCreate ?k w1] => pose proof (DAOCreate_ok k w1) as Hn end.
    destruct (DAOCreate _ w1) as [[j|e'] w2]; cbn in *; [|done]. intros [= -> <-].
    split; [|done]. eexists. split; [by apply Hn|done].
Qed.

(** The key a handler of the playground runs with is a live key of the user
    whose token was checked; nobody else comes through. *)
Theorem playground_key_is_own buf c w k :
  (JWTAsPlaygroundKey buf c w).1 = Ok (inr k) →
  UserID c ≠ 0%N ∧ KeyUserID k.2 = UserID c ∧
  internal_key (UserID c) (w_db (JWTAsPlaygroundKey buf c w).2) k.1.
Proof.
  unfold JWTAsPlaygroundKey. destruct (N.eqb_spec (UserID c) 0) as [|Hu]; [done|].
  unfold bind, try. pose proof (EnsureInternalKey_ok (UserID c) buf w) as H.
  destruct (EnsureInternalKey _ _ _ w) as [[[id k']|e] w']; cbn in *; [|done].
  intros [= <-]. destruct (H _ _ eq_refl). done.
Qed.
End playground.
