(* ===== verification/Router.v ===== *)
(** * The table of routes (internal/server/router.go, internal/middleware)

    Which handler answers which verb and path, and which middlewares a request
    passes on the way there.  gin itself, which finds the route of a request
    and runs its handlers in order, is not modelled; that it accepts the table
    is a theorem. *)

From S2P Require Import Prelude GoStrings GoTime Sql Schema Rbac Access ApiKey Playground.

Inductive verb := GET | POST | PUT | PATCH | DELETE.
#[export] Instance verb_eq_dec : EqDecision verb.
Proof. solve_decision. Defined.

(** The middlewares of groups and routes. *)
Inductive guard :=
  | JWT                                   (* middleware.JWTAuth *)
  | Admin                                 (* middleware.RequireAdmin *)
  | Perm (perms : list Permission)        (* middleware.RequirePerm *)
  | Audit                                 (* audit.Middleware *)
  | Key                                   (* apikey.Middleware(svc, false) *)
  | PlayKey                               (* gateway.JWTAsPlaygroundKey *)
  | PlayImage.                            (* gateway.PlaygroundImagePreflight *)

Record route := { on : verb; at_path : string; guards : list guard; handler : string }.

(** [g := r.Group(prefix, ms...)]: paths here are empty or begin with a slash
    and do not end in one, so gin joins them by writing one after the other. *)
Definition group (prefix : string) (ms : list guard) (rs : list route) : list route :=
  map (λ r, {| on := on r; at_path := prefix +:+ at_path r; guards := ms ++ guards r; handler := handler r |}) rs.
Definition handle (v : verb) (path : string) (ms : list guard) (h : string) : list route :=
  [{| on := v; at_path := path; guards := ms; handler := h |}].

(** Which handlers there are: the fields of [Deps] that may be nil. *)
Record Deps := {
  CheckinH : bool; RechargeH : bool; RedeemH : bool; MeUsageH : bool; MeImageH : bool; PromptH : bool;
  AdminModelH : bool; AccountH : bool; GatewayH : bool; KeySvc : bool; ImagesH : bool; SettingsH : bool;
  AnnouncementH : bool; UpdateLogH : bool; AuditDAO : bool; AdminUserH : bool; AdminGroupH : bool; AuditH : bool;
  AdminImageH : bool; ChannelH : bool; AdminKeyH : bool; AdminUsageH : bool; AdminRechargeH : bool;
  AdminRedeemH : bool; BackupH : bool; ImageFilesH : bool
}.

(** [if d.X != nil { .. }] *)
Definition when {A} (b : bool) (l : list A) : list A := if b then l else [].

(** ** The routes, in the order they are mounted *)

Definition auth_routes : list route :=
  group "/auth" [] (
    handle POST "/register" [] "AuthH.Register" ++
    handle POST "/email-code/send" [] "AuthH.SendRegisterEmailCode" ++
    handle POST "/login" [] "AuthH.Login" ++
    handle POST "/refresh" [] "AuthH.Refresh").

Definition authed_routes (d : Deps) : list route :=
  group "" [JWT] (
    handle GET "/me" [] "UserH.Me" ++
    handle GET "/me/menu" [] "UserH.Menu" ++
    handle POST "/me/change-password" [Perm [PermSelfProfile]] "UserH.ChangePassword" ++
    when (CheckinH d) (
      handle GET "/me/checkin" [Perm [PermSelfProfile]] "CheckinH.Status" ++
      handle POST "/me/checkin" [Perm [PermSelfProfile]] "CheckinH.Checkin") ++
    group "/keys" [Perm [PermSelfKey]] (
      handle POST "" [] "KeyH.Create" ++
      handle GET "" [] "KeyH.List" ++
      handle PATCH "/:id" [] "KeyH.Update" ++
      handle DELETE "/:id" [] "KeyH.Delete") ++
    when (RechargeH d) (group "/recharge" [Perm [PermSelfRecharge]] (
      handle GET "/packages" [] "RechargeH.ListPackages" ++
      handle POST "/orders" [] "RechargeH.CreateOrder" ++
      handle GET "/orders" [] "RechargeH.ListMyOrders" ++
      handle POST "/orders/:id/cancel" [] "RechargeH.CancelOrder")) ++
    when (RedeemH d) (group "/recharge" [Perm [PermSelfRecharge]] (
      handle POST "/redeem-codes" [] "RedeemH.Redeem")) ++
    when (MeUsageH d) (group "/me/usage" [Perm [PermSelfUsage]] (
      handle GET "/logs" [] "MeUsageH.Logs" ++
      handle GET "/stats" [] "MeUsageH.Stats")) ++
    handle GET "/me/credit-logs" [Perm [PermSelfUsage]] "UserH.CreditLogs" ++
    when (MeImageH d) (group "/me/images" [Perm [PermSelfImage]] (
      handle GET "/tasks" [] "MeImageH.List" ++
      handle GET "/tasks/:id" [] "MeImageH.Get" ++
      handle DELETE "/tasks/:id" [] "MeImageH.Delete")) ++
    when (PromptH d) (group "/me/prompts" [Perm [PermSelfImage]] (
      handle GET "" [] "PromptH.ListMe" ++
      handle GET "/categories" [] "PromptH.Categories")) ++
    when (AdminModelH d) (handle GET "/me/models" [] "AdminModelH.ListEnabledForMe") ++
    when (AccountH d) (
      handle GET "/me/local-pool-quota-summary" [Perm [PermSelfImage]] "AccountH.LocalPoolQuotaSummary") ++
    when (GatewayH d && KeySvc d) (group "/me/playground" [PlayKey] (
      handle POST "/chat" [] "GatewayH.ChatCompletions" ++
      when (ImagesH d) (
        handle POST "/image" [PlayImage] "ImagesH.ImageGenerations" ++
        handle POST "/image-edit" [PlayImage] "ImagesH.ImageEdits")))).

Definition public_routes (d : Deps) : list route :=
  group "/public" [] (
    when (AdminModelH d) (handle GET "/models" [] "AdminModelH.ListEnabledForPublic") ++
    when (SettingsH d) (handle GET "/site-info" [] "SettingsH.Public") ++
    when (AnnouncementH d) (handle GET "/announcements" [] "AnnouncementH.ListPublic") ++
    when (UpdateLogH d) (handle GET "/update-logs" [] "UpdateLogH.ListPublic") ++
    when (PromptH d) (
      handle GET "/prompts" [] "PromptH.ListPublic" ++
      handle GET "/prompts/categories" [] "PromptH.Categories") ++
    when (RechargeH d) (
      handle POST "/epay/notify" [] "RechargeH.EPayNotify" ++
      handle GET "/epay/notify" [] "RechargeH.EPayNotify")).

(** The pool: proxies and accounts. *)
Definition pool_routes : list route :=
  group "/proxies" [Perm [PermProxyRead; PermProxyWrite]] (
    handle POST "" [Perm [PermProxyWrite]] "ProxyH.Create" ++
    handle POST "/import" [Perm [PermProxyWrite]] "ProxyH.Import" ++
    handle POST "/probe-all" [Perm [PermProxyWrite]] "ProxyH.ProbeAll" ++
    handle GET "" [] "ProxyH.List" ++
    handle GET "/:id" [] "ProxyH.Get" ++
    handle POST "/:id/probe" [Perm [PermProxyWrite]] "ProxyH.Probe" ++
    handle PATCH "/:id" [Perm [PermProxyWrite]] "ProxyH.Update" ++
    handle DELETE "/:id" [Perm [PermProxyWrite]] "ProxyH.Delete") ++
  group "/accounts" [Perm [PermAccountRead; PermAccountWrite]] (
    handle POST "" [Perm [PermAccountWrite]] "AccountH.Create" ++
    handle POST "/import" [Perm [PermAccountWrite]] "AccountH.Import" ++
    handle POST "/import-tokens" [Perm [PermAccountWrite]] "AccountH.ImportTokens" ++
    handle POST "/refresh-all" [Perm [PermAccountWrite]] "AccountH.RefreshAll" ++
    handle POST "/probe-quota-all" [Perm [PermAccountWrite]] "AccountH.ProbeQuotaAll" ++
    handle POST "/bulk-delete" [Perm [PermAccountWrite]] "AccountH.BulkDelete" ++
    handle GET "/auto-refresh" [] "AccountH.GetAutoRefresh" ++
    handle PUT "/auto-refresh" [Perm [PermAccountWrite]] "AccountH.SetAutoRefresh" ++
    handle GET "/quota-summary" [] "AccountH.QuotaSummary" ++
    handle GET "" [] "AccountH.List" ++
    handle GET "/deleted" [] "AccountH.ListDeleted" ++
    handle POST "/:id/restore" [Perm [PermAccountWrite]] "AccountH.Restore" ++
    handle DELETE "/:id/purge" [Perm [PermAccountWrite]] "AccountH.Purge" ++
    handle GET "/:id" [] "AccountH.Get" ++
    handle GET "/:id/secrets" [Perm [PermAccountWrite]] "AccountH.GetSecrets" ++
    handle PATCH "/:id" [Perm [PermAccountWrite]] "AccountH.Update" ++
    handle DELETE "/:id" [Perm [PermAccountWrite]] "AccountH.Delete" ++
    handle POST "/:id/refresh" [Perm [PermAccountWrite]] "AccountH.Refresh" ++
    handle POST "/:id/probe-quota" [Perm [PermAccountWrite]] "AccountH.ProbeQuota").

Definition people_routes (d : Deps) : list route :=
  when (AdminUserH d) (
    group "/users" [Perm [PermUserRead; PermUserWrite]] (
      handle GET "" [] "AdminUserH.List" ++
      handle POST "" [Perm [PermUserWrite]] "AdminUserH.Create" ++
      handle GET "/:id" [] "AdminUserH.Get" ++
      handle PATCH "/:id" [Perm [PermUserWrite]] "AdminUserH.Update" ++
      handle POST "/:id/reset-password" [Perm [PermUserWrite]] "AdminUserH.ResetPassword" ++
      handle DELETE "/:id" [Perm [PermUserWrite]] "AdminUserH.Delete" ++
      handle POST "/:id/credits/adjust" [Perm [PermUserCredit]] "AdminUserH.Adjust" ++
      handle GET "/:id/credit-logs" [Perm [PermUsageReadAll]] "AdminUserH.CreditLogs") ++
    group "/credits" [Perm [PermUserCredit]] (
      handle GET "/summary" [] "AdminUserH.CreditsSummary" ++
      handle GET "/logs" [] "AdminUserH.CreditLogsGlobal" ++
      handle POST "/adjust" [] "AdminUserH.AdjustByUser")) ++
  when (AdminGroupH d) (group "/groups" [Perm [PermGroupWrite]] (
    handle GET "" [] "AdminGroupH.List" ++
    handle POST "" [] "AdminGroupH.Create" ++
    handle PUT "/:id" [] "AdminGroupH.Update" ++
    handle DELETE "/:id" [] "AdminGroupH.Delete")) ++
  when (AuditH d) (group "/audit" [Perm [PermAuditRead]] (handle GET "/logs" [] "AuditH.List")) ++
  when (AdminImageH d) (handle GET "/image-tasks" [Perm [PermUsageReadAll]] "AdminImageH.List").

Definition upstream_routes (d : Deps) : list route :=
  when (ChannelH d) (
    group "/channels" [Perm [PermChannelRead; PermChannelWrite]] (
      handle GET "" [] "ChannelH.List" ++
      handle POST "" [Perm [PermChannelWrite]] "ChannelH.Create" ++
      handle GET "/:id" [] "ChannelH.Get" ++
      handle PATCH "/:id" [Perm [PermChannelWrite]] "ChannelH.Update" ++
      handle DELETE "/:id" [Perm [PermChannelWrite]] "ChannelH.Delete" ++
      handle POST "/:id/test" [Perm [PermChannelWrite]] "ChannelH.Test" ++
      handle GET "/:id/mappings" [] "ChannelH.ListMappings" ++
      handle POST "/:id/mappings" [Perm [PermChannelWrite]] "ChannelH.CreateMapping") ++
    group "/channel-mappings" [Perm [PermChannelRead; PermChannelWrite]] (
      handle PATCH "/:mid" [Perm [PermChannelWrite]] "ChannelH.UpdateMapping" ++
      handle DELETE "/:mid" [Perm [PermChannelWrite]] "ChannelH.DeleteMapping")) ++
  when (AdminModelH d) (group "/models" [Perm [PermModelRead; PermModelWrite]] (
    handle GET "" [] "AdminModelH.List" ++
    handle POST "" [Perm [PermModelWrite]] "AdminModelH.Create" ++
    handle PUT "/:id" [Perm [PermModelWrite]] "AdminModelH.Update" ++
    handle PATCH "/:id/enabled" [Perm [PermModelWrite]] "AdminModelH.SetEnabled" ++
    handle DELETE "/:id" [Perm [PermModelWrite]] "AdminModelH.Delete")).

Definition books_routes (d : Deps) : list route :=
  when (AdminKeyH d) (group "/keys" [Perm [PermKeyReadAll; PermKeyWriteAll]] (
    handle GET "" [] "AdminKeyH.List" ++
    handle PATCH "/:id" [Perm [PermKeyWriteAll]] "AdminKeyH.SetEnabled")) ++
  when (AdminUsageH d) (group "/usage" [Perm [PermUsageReadAll; PermStatsReadAll]] (
    handle GET "/stats" [] "AdminUsageH.Stats" ++
    handle GET "/logs" [] "AdminUsageH.Logs")) ++
  when (AdminRechargeH d) (group "/recharge" [Perm [PermRechargeManage]] (
    handle GET "/packages" [] "AdminRechargeH.ListPackages" ++
    handle POST "/packages" [] "AdminRechargeH.CreatePackage" ++
    handle PATCH "/packages/:id" [] "AdminRechargeH.UpdatePackage" ++
    handle DELETE "/packages/:id" [] "AdminRechargeH.DeletePackage" ++
    handle GET "/orders" [] "AdminRechargeH.ListOrders" ++
    handle POST "/orders/:id/force-paid" [] "AdminRechargeH.ForcePaid")) ++
  when (AdminRedeemH d) (group "/redeem-codes" [Perm [PermRechargeManage]] (
    handle GET "" [] "AdminRedeemH.List" ++
    handle POST "/generate" [] "AdminRedeemH.Generate")).

Definition content_routes (d : Deps) : list route :=
  when (AnnouncementH d) (group "/announcements" [Perm [PermSystemSetting]] (
    handle GET "" [] "AnnouncementH.ListAdmin" ++
    handle POST "" [] "AnnouncementH.Create" ++
    handle PUT "/:id" [] "AnnouncementH.Update" ++
    handle DELETE "/:id" [] "AnnouncementH.Delete")) ++
  when (UpdateLogH d) (group "/update-logs" [Perm [PermSystemSetting]] (
    handle GET "" [] "UpdateLogH.ListAdmin" ++
    handle POST "" [] "UpdateLogH.Create" ++
    handle PUT "/:id" [] "UpdateLogH.Update" ++
    handle DELETE "/:id" [] "UpdateLogH.Delete")) ++
  when (PromptH d) (
    group "/prompts" [Perm [PermSystemSetting]] (
      handle GET "" [] "PromptH.ListAdmin" ++
      handle POST "" [] "PromptH.Create" ++
      handle PUT "/:id" [] "PromptH.Update" ++
      handle DELETE "/:id" [] "PromptH.Delete") ++
    group "/prompt-categories" [Perm [PermSystemSetting]] (
      handle GET "" [] "PromptH.ListAdminCategories" ++
      handle POST "" [] "PromptH.CreateCategory" ++
      handle DELETE "/:id" [] "PromptH.DeleteCategory")).

Definition system_routes (d : Deps) : list route :=
  when (SettingsH d) (group "/settings" [Perm [PermSystemSetting]] (
    handle GET "" [] "SettingsH.List" ++
    handle PUT "" [] "SettingsH.Update" ++
    handle POST "/reload" [] "SettingsH.Reload" ++
    handle POST "/test-email" [] "SettingsH.TestMail")) ++
  when (BackupH d) (group "/system/backup" [Perm [PermSystemBackup]] (
    handle GET "" [] "BackupH.List" ++
    handle POST "" [] "BackupH.Create" ++
    handle GET "/:id/download" [] "BackupH.Download" ++
    handle DELETE "/:id" [] "BackupH.Delete" ++
    handle POST "/:id/restore" [] "BackupH.Restore" ++
    handle POST "/upload" [] "BackupH.Upload")) ++
  when (ImageFilesH d) (group "/system/image-files" [Perm [PermSystemImageFile]] (
    handle GET "/stats" [] "ImageFilesH.Stats" ++
    handle GET "/original" [] "ImageFilesH.ListOriginal" ++
    handle GET "/thumb" [] "ImageFilesH.ListThumb" ++
    handle POST "/original/delete" [] "ImageFilesH.DeleteOriginal" ++
    handle POST "/thumb/delete" [] "ImageFilesH.DeleteThumb")).

Definition admin_routes (d : Deps) : list route :=
  group "/admin" ([JWT; Admin] ++ when (AuditDAO d) [Audit]) (
    handle GET "/ping" [] "ping" ++
    pool_routes ++ people_routes d ++ upstream_routes d ++ books_routes d ++ content_routes d ++ system_routes d).

Definition gateway_routes (d : Deps) : list route :=
  group "/v1" [Key] (
    handle GET "/models" [] "GatewayH.ListModels" ++
    handle POST "/chat/completions" [] "GatewayH.ChatCompletions" ++
    when (ImagesH d) (
      handle POST "/images/generations" [] "ImagesH.ImageGenerations" ++
      handle POST "/images/edits" [] "ImagesH.ImageEdits" ++
      handle GET "/images/tasks/:id" [] "ImagesH.ImageTask")).

Definition image_routes (d : Deps) : list route :=
  when (ImagesH d) (
    handle GET "/p/img/:task_id/:idx" [] "ImagesH.ImageProxy" ++
    handle GET "/p/thumb/:task_id/:idx" [] "ImagesH.ThumbProxy" ++
    handle GET "/p/ref/:task_id/:idx" [] "ImagesH.ReferenceProxy" ++
    handle GET "/p/ref-thumb/:task_id/:idx" [] "ImagesH.ReferenceThumbProxy").

Definition New (d : Deps) : list route :=
  handle GET "/healthz" [] "healthz" ++
  handle GET "/readyz" [] "readyz" ++
  group "/api" [] (auth_routes ++ authed_routes d ++ public_routes d ++ admin_routes d) ++
  gateway_routes d ++
  image_routes d.

(** ** Cross-origin requests (internal/middleware/cors.go), before every route *)

Fixpoint drop_slashes (l : list ascii) : list ascii :=
  match l with
  | a :: l' => if Ascii.eqb a "/" then drop_slashes l' else l
  | [] => []
  end.
(** [strings.TrimRight(s, "/")] *)
Definition TrimRight_slash (s : string) : string := of_bytes (rev (drop_slashes (rev (bytes s)))).

(** The headers it sets, and whether it answers 204 itself. *)
Definition CORS (origins : list string) (origin method : string) : list (string * string) * bool :=
  let allow := map TrimRight_slash origins in
  let allowAll := existsb (String.eqb "*") origins in
  let headers :=
    if String.eqb origin "" then [] else
    when (allowAll || existsb (String.eqb (TrimRight_slash origin)) allow) [("Access-Control-Allow-Origin", origin)] ++
    [("Vary", "Origin");
     ("Access-Control-Allow-Credentials", "true");
     ("Access-Control-Allow-Methods", "GET, POST, PUT, PATCH, DELETE, OPTIONS");
     ("Access-Control-Allow-Headers", "Authorization, Content-Type, X-Request-Id");
     ("Access-Control-Expose-Headers", "X-Request-Id");
     ("Access-Control-Max-Age", "86400")] in
  (headers, String.eqb method "OPTIONS").

(** A page of another site may read an answer only if its site is listed. *)
Lemma CORS_allows origins origin method v :
  ("Access-Control-Allow-Origin", v) ∈ (CORS origins origin method).1 →
  v = origin ∧ ("*" ∈ origins ∨ ∃ o, o ∈ origins ∧ TrimRight_slash o = TrimRight_slash origin).
Proof.
  unfold CORS. cbn [fst]. destruct (String.eqb origin ""); [by intros ?%not_elem_of_nil|].
  intros [H|H]%elem_of_app; [|exfalso; revert H; by rewrite !elem_of_cons, elem_of_nil; naive_solver].
  destruct (_ || _) eqn:E; [|by apply not_elem_of_nil in H]. apply list_elem_of_singleton in H as [= ->].
  split; [done|]. apply orb_true_iff in E as [(o & Ho & ->%String.eqb_eq)%existsb_exists|(o & Ho & E)%existsb_exists].
  - left. by apply list_elem_of_In.
  - right. apply String.eqb_eq in E. apply in_map_iff in Ho as (o' & <- & Ho). exists o'. by rewrite list_elem_of_In.
Qed.

(** ** The audit log (internal/audit/middleware.go) *)

Definition isWrite (v : verb) : bool := match v with POST | PUT | PATCH | DELETE => true | GET => false end.

Definition method_name (v : verb) : string :=
  match v with GET => "GET" | POST => "POST" | PUT => "PUT" | PATCH => "PATCH" | DELETE => "DELETE" end.

(** From the path of the route, not that of the request. *)
Definition deriveAction (v : verb) (fullPath : string) : string :=
  let p := TrimSuffix (TrimPrefix fullPath "/api/admin/") "/" in
  if String.eqb p "" then method_name v else
  let parts := map (λ seg, if HasPrefix seg ":" then "*" else seg) (Split p "/") in
  let key := replace_byte "-" "_" (Join parts ".") in
  match v with
  | POST => key +:+ ".create"
  | PUT | PATCH => key +:+ ".update"
  | DELETE => key +:+ ".delete"
  | GET => key +:+ "." +:+ ToLower (method_name v)
  end.

(** The action that is recorded for a request of a route, if one is. *)
Definition recorded (r : route) : option string :=
  if existsb (λ g, match g with Audit => true | _ => false end) (guards r) && isWrite (on r)
  then Some (deriveAction (on r) (at_path r)) else None.

(** ** On the way to a handler *)

(** What the handler finds in the context. *)
Record Entered := { who : Ctx; key : option (N * APIKey) }.

Section admission.
Context (ParseWithClaims : (signing_method → result string) → string → Z → result (Claims * bool))
        (error_text : goerr → string) (m : Manager)
        (sha256hex : string → string) (unmarshal : string → option (list string)).

Abbreviation JWTAuth := (JWTAuth ParseWithClaims error_text m).
Abbreviation Verify := (Access.Verify ParseWithClaims m).

Definition of_outcome (o : outcome) (e : Entered) : (Z * string) + Entered :=
  match o with Next c => inr {| who := c; key := key e |} | Abort code msg => inl (code, msg) end.

(** One middleware: an answer, or the context it leaves.  [buf] are the
    random bytes of a key that is made. *)
Definition pass (g : guard) (q : Request) (now : Z) (buf : list ascii) (e : Entered) : DBM ((Z * string) + Entered) :=
  match g with
  | JWT => ret (of_outcome (JWTAuth (Authorization q) now (who e)) e)
  | Admin => ret (of_outcome (RequireAdmin (who e)) e)
  | Perm perms => ret (of_outcome (RequirePerm perms (who e)) e)
  | PlayImage => ret (of_outcome (PlaygroundImagePreflight (who e)) e)
  | Audit => ret (inr e)
  | Key =>
      r <- Middleware sha256hex unmarshal false q now ;;
      ret match r with inl why => inl (CodeUnauthorized, why) | inr k => inr {| who := who e; key := Some k |} end
  | PlayKey =>
      r <- JWTAsPlaygroundKey sha256hex error_text buf (who e) ;;
      ret match r with inl answer => inl answer | inr k => inr {| who := who e; key := Some k |} end
  end.

Fixpoint enter (gs : list guard) (q : Request) (now : Z) (buf : list ascii) (e : Entered) : DBM ((Z * string) + Entered) :=
  match gs with
  | [] => ret (inr e)
  | g :: gs =>
      r <- pass g q now buf e ;;
      match r with inl answer => ret (inl answer) | inr e => enter gs q now buf e end
  end.

Definition arrive (r : route) (q : Request) (now : Z) (buf : list ascii) : DBM ((Z * string) + Entered) :=
  enter (guards r) q now buf {| who := no_ctx; key := None |}.
End admission.

(** ** The table as it is when every handler is there *)

Definition everything (audited : bool) : Deps := {|
  CheckinH := true; RechargeH := true; RedeemH := true; MeUsageH := true; MeImageH := true; PromptH := true;
  AdminModelH := true; AccountH := true; GatewayH := true; KeySvc := true; ImagesH := true; SettingsH := true;
  AnnouncementH := true; UpdateLogH := true; AuditDAO := audited; AdminUserH := true; AdminGroupH := true; AuditH := true;
  AdminImageH := true; ChannelH := true; AdminKeyH := true; AdminUsageH := true; AdminRechargeH := true;
  AdminRedeemH := true; BackupH := true; ImageFilesH := true |}.

Lemma group_sub prefix ms rs rs' : rs `sublist_of` rs' → group prefix ms rs `sublist_of` group prefix ms rs'.
Proof. apply fmap_sublist. Qed.
Lemma when_sub {A} b (l l' : list A) : l `sublist_of` l' → when b l `sublist_of` l'.
Proof. destruct b; [done|]. intros _. apply sublist_nil_l. Qed.

Ltac routes_sub := repeat first
  [ reflexivity | apply sublist_app | apply group_sub | apply when_sub ].

(** Wiring fewer handlers only leaves routes out. *)
Lemma New_sub d : New d `sublist_of` New (everything (AuditDAO d)).
Proof.
  unfold New, authed_routes, public_routes, admin_routes, people_routes, upstream_routes, books_routes, content_routes,
    system_routes, gateway_routes, image_routes. cbn [everything CheckinH RechargeH RedeemH MeUsageH MeImageH PromptH
    AdminModelH AccountH GatewayH KeySvc ImagesH SettingsH AnnouncementH UpdateLogH AuditDAO AdminUserH AdminGroupH AuditH
    AdminImageH ChannelH AdminKeyH AdminUsageH AdminRechargeH AdminRedeemH BackupH ImageFilesH when andb].
  routes_sub.
Qed.

Lemma New_forallb (P : route → bool) d r :
  forallb P (New (everything true)) = true → forallb P (New (everything false)) = true → r ∈ New d → P r = true.
Proof.
  intros Ht Hf Hr. assert (r ∈ New (everything (AuditDAO d))) as Hin by (eapply elem_of_sublist; [done|apply New_sub]).
  rewrite list_elem_of_In in Hin. destruct (AuditDAO d); [|clear Ht]; by eapply forallb_forall in Hin.
Qed.

(** ** Who gets in *)

(** Permissions to change something. *)
Definition write_perms : list Permission :=
  [PermUserWrite; PermUserCredit; PermKeyWriteAll; PermAccountWrite; PermProxyWrite; PermModelWrite; PermChannelWrite;
   PermGroupWrite; PermRechargeManage; PermSystemSetting; PermSystemBackup; PermSystemImageFile].
Definition perm_in (p : Permission) (l : list Permission) : bool := existsb (String.eqb p) l.

(** What may be posted without a token: signing up and in, and the payment
    gateway's notification, which is signed. *)
Definition public_writes : list string :=
  ["/api/auth/register"; "/api/auth/email-code/send"; "/api/auth/login"; "/api/auth/refresh"; "/api/public/epay/notify"].

Inductive area := AdminArea | PlayArea | UserArea | GatewayArea | OpenArea.
Definition area_of (path : string) : area :=
  if HasPrefix path "/api/admin/" then AdminArea else
  if HasPrefix path "/api/me/playground/" then PlayArea else
  if existsb (HasPrefix path) ["/api/me"; "/api/keys"; "/api/recharge/"] then UserArea else
  if HasPrefix path "/v1/" then GatewayArea else OpenArea.

Definition no_jwt (gs : list guard) : bool := forallb (λ g, match g with JWT => false | _ => true end) gs.
(** A RequirePerm all of whose permissions are to write. *)
Definition asks_write (gs : list guard) : bool :=
  existsb (λ g, match g with Perm ps => forallb (λ p, perm_in p write_perms) ps | _ => false end) gs.

Definition guarded (r : route) : bool :=
  match area_of (at_path r), guards r with
  | AdminArea, JWT :: Admin :: gs => no_jwt gs && (negb (isWrite (on r)) || asks_write gs)
  | PlayArea, JWT :: PlayKey :: gs => no_jwt gs && forallb (λ g, match g with PlayImage => true | _ => false end) gs
  | UserArea, JWT :: gs => no_jwt gs && forallb (λ g, match g with Perm _ => true | _ => false end) gs
  | GatewayArea, [Key] => true
  | OpenArea, [] => negb (isWrite (on r)) || existsb (String.eqb (at_path r)) public_writes
  | _, _ => false
  end.

Lemma New_guarded d r : r ∈ New d → guarded r = true.
Proof. apply New_forallb; by vm_compute. Qed.

Section doors.
Context (ParseWithClaims : (signing_method → result string) → string → Z → result (Claims * bool))
        (error_text : goerr → string) (m : Manager)
        (sha256hex : string → string) (unmarshal : string → option (list string)).
Abbreviation pass := (pass ParseWithClaims error_text m sha256hex unmarshal).
Abbreviation enter := (enter ParseWithClaims error_text m sha256hex unmarshal).
Abbreviation arrive := (arrive ParseWithClaims error_text m sha256hex unmarshal).

(** The bearer of a token the manager verifies. *)
Definition signed_in (q : Request) (now : Z) (c : Ctx) : Prop :=
  ∃ claims, HasPrefix (Authorization q) "Bearer " = true ∧
    Access.Verify ParseWithClaims m (TrimSpace (TrimPrefix (Authorization q) "Bearer ")) now = Ok claims ∧
    c = {| ctx_user_id := Some (ClaimUserID claims); ctx_role := Some (ClaimRole claims) |}.

Lemma enter_cons g gs q now buf e w e' w' :
  enter (g :: gs) q now buf e w = (Ok (inr e'), w') →
  ∃ e1 w1, pass g q now buf e w = (Ok (inr e1), w1) ∧ enter gs q now buf e1 w1 = (Ok (inr e'), w').
Proof.
  cbn [Router.enter]. unfold bind. destruct (pass g q now buf e w) as [[[a|e1]|err] w1]; [done| |done]. eauto.
Qed.

(** After the token was looked at, nobody is taken for somebody else. *)
Lemma pass_who g q now buf e w e1 w1 :
  pass g q now buf e w = (Ok (inr e1), w1) → match g with JWT => False | _ => True end → who e1 = who e.
Proof.
  destruct g; cbn [Router.pass]; try done; unfold ret, RequireAdmin, RequirePerm, PlaygroundImagePreflight, of_outcome.
  - destruct (negb _); intros [= <- <-]. done.
  - destruct (UserID _ =? 0)%N; [done|]. destruct (negb _); intros [= <- <-]. done.
  - by intros [= <- <-].
  - unfold bind. destruct (Middleware _ _ _ _ _ _) as [[[|]|] ?]; by intros [= <- <-].
  - unfold bind. destruct (JWTAsPlaygroundKey _ _ _ _ _) as [[[|]|] ?]; by intros [= <- <-].
  - destruct (UserID _ =? 0)%N; intros [= <- <-]. done.
Qed.

Lemma enter_who gs q now buf : ∀ e w e' w',
  enter gs q now buf e w = (Ok (inr e'), w') → no_jwt gs = true → who e' = who e.
Proof.
  induction gs as [|g gs IH]; intros e w e' w' H Hg; [by injection H as <- <-|].
  apply enter_cons in H as (e1 & w1 & H1 & H2). cbn in Hg. apply andb_true_iff in Hg as [Hg Hgs].
  rewrite (IH _ _ _ _ H2 Hgs). eapply pass_who; [exact H1|by destruct g].
Qed.

Lemma pass_jwt q now buf e w e1 w1 : pass JWT q now buf e w = (Ok (inr e1), w1) → signed_in q now (who e1) ∧ key e1 = key e.
Proof.
  cbn [Router.pass]. unfold ret, of_outcome, JWTAuth. destruct (HasPrefix _ _) eqn:Hp; cbn [negb]; [|done].
  destruct (Access.Verify _ _ _ _) as [claims|] eqn:Hv; [|done]. intros [= <- <-]. split; [|done]. by exists claims.
Qed.

Lemma enter_perm gs q now buf : ∀ e w e' w',
  enter gs q now buf e w = (Ok (inr e'), w') → no_jwt gs = true → asks_write gs = true →
  UserID (who e') ≠ 0%N ∧ HasAny (RoleOf (who e')) write_perms = true.
Proof.
  induction gs as [|g gs IH]; intros e w e' w' H Hg Hw; [done|].
  pose proof (enter_who _ _ _ _ _ _ _ _ H Hg) as Hwho. apply enter_cons in H as (e1 & w1 & H1 & H2).
  cbn in Hg. apply andb_true_iff in Hg as [Hg Hgs]. cbn [asks_write existsb] in Hw.
  apply orb_true_iff in Hw as [Hw|Hw]; [|by eapply IH].
  destruct g as [| |ps| | | |]; try done. rewrite Hwho. cbn [Router.pass] in H1. unfold ret, RequirePerm in H1.
  destruct (N.eqb_spec (UserID (who e)) 0) as [|Hu]; [done|]. split; [done|].
  destruct (HasAny (RoleOf (who e)) ps) eqn:Ha; [|done]. apply HasAny_spec in Ha as (p & Hp & Hhas).
  apply HasAny_spec. exists p. split; [|done].
  rewrite list_elem_of_In in Hp. rewrite forallb_forall in Hw. apply Hw in Hp.
  apply existsb_exists in Hp as (p' & Hp' & ->%String.eqb_eq). by apply list_elem_of_In.
Qed.

Lemma enter_play gs q now buf : ∀ e w e' w',
  enter gs q now buf e w = (Ok (inr e'), w') →
  forallb (λ g, match g with PlayImage => true | _ => false end) gs = true → e' = e.
Proof.
  induction gs as [|g gs IH]; intros e w e' w' H Hg; [by injection H as <- <-|].
  apply enter_cons in H as (e1 & w1 & H1 & H). cbn in Hg. apply andb_true_iff in Hg as [Hg Hgs].
  rewrite (IH _ _ _ _ H Hgs). destruct g; try done. revert H1. cbn [Router.pass]. unfold ret, of_outcome, PlaygroundImagePreflight.
  destruct (UserID _ =? 0)%N; intros [= <- <-]. by destruct e.
Qed.

(** C25: nobody comes in by the wrong door.  However the server is wired, a
    request that reaches the handler of a route: under /api/admin it bears a
    token the manager verifies, of an administrator, and to change something
    his role holds a permission to write; in the playground it bears such a
    token and the handler runs with a key of that very user; under /api/me,
    /api/keys and /api/recharge it bears one; under /v1 the handler runs with
    a key that exists, is valid and allows the client's address; and where
    nothing is asked, the handler knows nobody, and the only writes are those
    of signing up and in and the notification of the payment gateway. *)
Theorem doors d r q now buf w e w' :
  r ∈ New d → arrive r q now buf w = (Ok (inr e), w') →
  match area_of (at_path r) with
  | AdminArea =>
      signed_in q now (who e) ∧ RoleOf (who e) = RoleAdmin ∧
      (isWrite (on r) = true → UserID (who e) ≠ 0%N ∧ HasAny (RoleOf (who e)) write_perms = true)
  | PlayArea => signed_in q now (who e) ∧ UserID (who e) ≠ 0%N ∧ ∃ k, key e = Some k ∧ KeyUserID k.2 = UserID (who e)
  | UserArea => signed_in q now (who e)
  | GatewayArea => ∃ id k, key e = Some (id, k) ∧ admissible sha256hex (extractKey q false) now (w_db w) id k ∧
                     IPAllowed unmarshal k (RemoteIP q) = true
  | OpenArea => e = {| who := no_ctx; key := None |} ∧ (isWrite (on r) = true → at_path r ∈ public_writes)
  end.
Proof.
  intros Hr%New_guarded H. unfold Router.arrive in H. unfold guarded in Hr.
  destruct (area_of (at_path r)), (guards r) as [|[] gs]; try done.
  - destruct gs as [|[] gs]; try done. apply andb_true_iff in Hr as [Hg Hw].
    apply enter_cons in H as (e1 & w1 & H1%pass_jwt & H). pose proof (enter_who _ _ _ _ _ _ _ _ H Hg) as Hwho.
    destruct H1 as [H1 _]. rewrite Hwho. split; [done|]. apply enter_cons in H as (e2 & w2 & H2 & H).
    cbn [Router.pass] in H2. unfold ret, RequireAdmin, IsAdmin in H2.
    destruct (String.eqb_spec (RoleOf (who e1)) RoleAdmin) as [Hrole|]; [|done]. split; [done|].
    intros Hwr. rewrite Hwr in Hw. rewrite <-Hwho. by eapply enter_perm.
  - destruct gs as [|[] gs]; try done. apply andb_true_iff in Hr as [Hg Himg].
    apply enter_cons in H as (e1 & w1 & H1%pass_jwt & H). pose proof (enter_who _ _ _ _ _ _ _ _ H Hg) as Hwho.
    destruct H1 as [H1 _]. rewrite Hwho. split; [done|]. apply enter_cons in H as (e2 & w2 & H2 & H).
    cbn [Router.pass] in H2. unfold bind in H2.
    pose proof (playground_key_is_own sha256hex error_text buf (who e1) w1) as Hkey.
    destruct (JWTAsPlaygroundKey _ _ _ _ _) as [[[|k]|] w3]; [done| |done]. injection H2 as <- <-.
    destruct (Hkey k eq_refl) as (Hu & Hk & _). split; [done|]. exists k. split; [|done].
    by rewrite (enter_play _ _ _ _ _ _ _ _ H Himg).
  - apply andb_true_iff in Hr as [Hg _]. apply enter_cons in H as (e1 & w1 & H1%pass_jwt & H).
    rewrite (enter_who _ _ _ _ _ _ _ _ H Hg). by destruct H1.
  - destruct gs; [|done]. apply enter_cons in H as (e1 & w1 & H1 & H). injection H as <- <-.
    cbn [Router.pass] in H1. unfold bind in H1.
    pose proof (Middleware_ok sha256hex unmarshal false q now w) as Hok.
    destruct (Middleware _ _ _ _ _ _) as [[[|[id k]]|] w2]; [done| |done]. injection H1 as <- <-.
    destruct (Hok id k eq_refl). by exists id, k.
  - injection H as <- <-. split; [done|]. intros Hw. rewrite Hw in Hr.
    apply existsb_exists in Hr as (p & Hp & ->%String.eqb_eq). by apply list_elem_of_In.
Qed.
End doors.

(** ** The table is one gin accepts, and the audit log tells its routes apart *)

(** Two paths of one verb, segment by segment: where they first differ, not
    both are wildcards. *)
Fixpoint agree (p q : list string) : bool :=
  match p, q with
  | a :: p, b :: q => if String.eqb a b then agree p q else negb (HasPrefix a ":" && HasPrefix b ":")
  | _, _ => true
  end.
Definition place (r : route) : verb * string := (on r, at_path r).

Definition compatible (r1 r2 : route) : bool :=
  (negb (bool_decide (on r1 = on r2)) || agree (Split (at_path r1) "/") (Split (at_path r2) "/")) &&
  match recorded r1, recorded r2 with
  | Some a1, Some a2 => negb (String.eqb a1 a2) || bool_decide (place r1 = place r2)
  | _, _ => true
  end.

Lemma New_compatible d r1 r2 : r1 ∈ New d → r2 ∈ New d → compatible r1 r2 = true.
Proof.
  intros H1 H2. assert (∀ b, forallb (λ r1, forallb (compatible r1) (New (everything b))) (New (everything b)) = true) as H
    by by intros []; vm_compute.
  eapply elem_of_sublist in H1; [|apply New_sub]. eapply elem_of_sublist in H2; [|apply New_sub].
  rewrite list_elem_of_In in H1, H2. specialize (H (AuditDAO d)). rewrite forallb_forall in H.
  specialize (H _ H1). rewrite forallb_forall in H. by apply H.
Qed.

Lemma New_places d : NoDup (map place (New d)).
Proof.
  eapply (sublist_NoDup _ (map place (New (everything (AuditDAO d))))); [|apply fmap_sublist, New_sub].
  destruct (AuditDAO d); by apply (bool_decide_unpack _); vm_compute.
Qed.

(** The table is sound.  However the server is wired, no two routes have
    one verb and path, and no two wildcards of different names stand at one
    place of a path, at either of which gin would refuse to start; and where
    requests are audited, every write under /api/admin is, and what is
    recorded of it names its route. *)
Theorem table_sound d :
  NoDup (map place (New d)) ∧
  (∀ r1 r2, r1 ∈ New d → r2 ∈ New d → on r1 = on r2 → agree (Split (at_path r1) "/") (Split (at_path r2) "/") = true) ∧
  (∀ r, r ∈ New d → AuditDAO d = true → area_of (at_path r) = AdminArea → isWrite (on r) = true → is_Some (recorded r)) ∧
  (∀ r1 r2 a, r1 ∈ New d → r2 ∈ New d → recorded r1 = Some a → recorded r2 = Some a → place r1 = place r2).
Proof.
  split_and!; [apply New_places| | |].
  - intros r1 r2 H1 H2 E. pose proof (New_compatible _ _ _ H1 H2) as H. unfold compatible in H.
    rewrite bool_decide_eq_true_2 in H by done. by apply andb_true_iff in H as [? _].
  - intros r Hr Ha Harea Hw. eapply elem_of_sublist in Hr; [|apply New_sub]. rewrite Ha in Hr.
    assert (forallb (λ r, match area_of (at_path r), recorded r with AdminArea, None => negb (isWrite (on r)) | _, _ => true end)
      (New (everything true)) = true) as H by by vm_compute.
    rewrite list_elem_of_In in Hr. rewrite forallb_forall in H. specialize (H r Hr). cbv beta in H. rewrite Harea, Hw in H.
    by destruct (recorded r).
  - intros r1 r2 a H1 H2 E1 E2. pose proof (New_compatible _ _ _ H1 H2) as H. unfold compatible in H.
    rewrite E1, E2, String.eqb_refl in H. apply andb_true_iff in H as [_ H]. by apply bool_decide_eq_true in H.
Qed.

(** ** An administrator deletes an account *)

Definition sample_deletion : route :=
  {| on := DELETE; at_path := "/api/admin/accounts/:id"; handler := "AccountH.Delete";
     guards := [JWT; Admin; Audit; Perm [PermAccountRead; PermAccountWrite]; Perm [PermAccountWrite]] |}.
Definition sample_request : Request :=
  {| Authorization := "Bearer " +:+ AccessToken sample_pair; QueryKey := ""; RemoteIP := "10.0.0.1" |}.

Definition sample_arrival : result ((Z * string) + Entered) * world database :=
  arrive toy_parse (λ _, "") sample_manager (λ s, s) (λ _, None) sample_deletion sample_request 1000000000000 []
    (World empty_database []).
Definition is_in (o : result ((Z * string) + Entered) * world database) : bool :=
  match o.1 with Ok (inr _) => true | _ => false end.

Lemma sample_admitted : is_in sample_arrival = true.
Proof. by vm_compute. Qed.

Lemma sample_routed : sample_deletion ∈ New (everything true).
Proof. apply (list_elem_of_lookup_2 _ 66%nat). by vm_compute. Qed.

Lemma doors_witness :
  match sample_arrival.1 with Ok (inr e) => RoleOf (who e) = RoleAdmin ∧ UserID (who e) ≠ 0%N | _ => False end.
Proof.
  pose proof sample_admitted as H. destruct sample_arrival as [o w'] eqn:E. unfold is_in in H. cbn [fst] in *.
  destruct o as [[a|e]|err]; [discriminate H| |discriminate H].
  destruct (doors toy_parse (λ _, "") sample_manager (λ s, s) (λ _, None) (everything true) sample_deletion sample_request
    1000000000000 [] (World empty_database []) e w' sample_routed E) as (_ & H1 & H2).
  split; [exact H1|exact (proj1 (H2 eq_refl))].
Defined.
