(* ===== verification/UserAdmin.v ===== *)
(** * Users as administrators and they themselves change them (internal/user)

    The statements of admin_dao.go that write, and the handlers that call
    them: an administrator creates, changes, bans and deletes users, resets
    their passwords and adjusts their credits, a user changes his password,
    groups are kept.  The rows of the audit log that follow a success are not
    in the tables modelled. *)

From S2P Require Import Prelude GoStrings Sql Schema Proc Ledger Billing Users Rbac Access Mail System Answers Signup.
From Stdlib Require Import QArith Qabs.
#[local] Open Scope Z_scope.

(** ** admin_dao.go *)

Record UpdatePatch := {
  PatchNickname : option string;
  PatchRole : option string;
  PatchStatus : option string;
  PatchGroupID : option N
}.

Definition patched (p : UpdatePatch) (u : User) : User := {|
  Email := Email u; PasswordHash := PasswordHash u; Nickname := default (Nickname u) (PatchNickname p);
  GroupID := default (GroupID u) (PatchGroupID p); Role := default (Role u) (PatchRole p);
  Status := default (Status u) (PatchStatus p); CreditBalance := CreditBalance u; CreditFrozen := CreditFrozen u;
  Version := Version u + 1; LastLoginAt := LastLoginAt u; LastLoginIP := LastLoginIP u; UserDeletedAt := UserDeletedAt u |}.

(** [SET password_hash = ?], [SET deleted_at = NOW(), status = 'banned'] *)
Definition with_password (hash : string) (u : User) : User := {|
  Email := Email u; PasswordHash := hash; Nickname := Nickname u; GroupID := GroupID u; Role := Role u; Status := Status u;
  CreditBalance := CreditBalance u; CreditFrozen := CreditFrozen u; Version := Version u + 1;
  LastLoginAt := LastLoginAt u; LastLoginIP := LastLoginIP u; UserDeletedAt := UserDeletedAt u |}.
Definition deleted_at (now : Z) (u : User) : User := {|
  Email := Email u; PasswordHash := PasswordHash u; Nickname := Nickname u; GroupID := GroupID u; Role := Role u;
  Status := "banned"; CreditBalance := CreditBalance u; CreditFrozen := CreditFrozen u; Version := Version u + 1;
  LastLoginAt := LastLoginAt u; LastLoginIP := LastLoginIP u; UserDeletedAt := Some now |}.

Definition update_present (id : N) (upd : User → User) : DBM N :=
  exec (id_update users with_users id (λ u, Ok (present u)) (λ u, Ok (upd u))).

Definition bad_choice (v : option string) (a b : string) : option string :=
  match v with
  | Some v => if String.eqb v a || String.eqb v b then None else Some v
  | None => None
  end.

Definition nothing_set (p : UpdatePatch) : bool :=
  match PatchNickname p, PatchRole p, PatchStatus p, PatchGroupID p with None, None, None, None => true | _, _, _, _ => false end.

Definition Update (id : N) (p : UpdatePatch) : DBM N :=
  match bad_choice (PatchRole p) "user" "admin" with
  | Some r => throw (EMsg ("invalid role: " +:+ r))
  | None =>
      match bad_choice (PatchStatus p) "active" "banned" with
      | Some v => throw (EMsg ("invalid status: " +:+ v))
      | None => if nothing_set p then ret 0%N else update_present id (patched p)
      end
  end.

Definition or_not_found (m : DBM N) : DBM unit :=
  n <- m ;; if (n =? 0)%N then throw Users.ErrNotFound else ret tt.

Definition ResetPassword (id : N) (hash : string) : DBM unit := or_not_found (update_present id (with_password hash)).
Definition SoftDelete (id : N) (now : Z) : DBM unit := or_not_found (update_present id (deleted_at now)).

(** *** Groups *)

Definition group_present (g : Group) : bool := bool_decide (GroupDeletedAt g = None).

Definition ListGroups : DBM (list (N * Group)) :=
  query (λ d, Ok (rows_where user_groups (λ _ g, group_present g) d)).

(** uk_name also covers the deleted rows. *)
Definition group_named (name : string) (d : database) : list N :=
  map fst (rows_where user_groups (λ _ g, String.eqb (GroupName g) name) d).

Definition with_ratio (r : Q) (g : Group) : Group := {|
  GroupName := GroupName g; GroupRatio := r; DailyLimitCredits := DailyLimitCredits g; RPMLimit := RPMLimit g;
  TPMLimit := TPMLimit g; GroupRemark := GroupRemark g; GroupDeletedAt := GroupDeletedAt g |}.

(** DECIMAL(6,4): four decimals, halves away from zero; beyond 99.9999 the
    row is refused. *)
Definition decimal_6_4 (q : Q) : result Q :=
  let x := (Qabs q * 10000 + (1 # 2))%Q in
  let z := Qnum x / Zpos (Qden x) in
  if 999999 <? z then Err (EMySQL 1264)
  else Ok (Qred ((if Qnum q <? 0 then - z else z) # 10000)).

Definition stored (g : Group) : result Group := r <-? decimal_6_4 (GroupRatio g) ;; Ok (with_ratio r g).

Definition CreateGroup (g : Group) : DBM N :=
  if String.eqb (GroupName g) "" then throw (EMsg "group name required") else
  let g := if Qle_bool (GroupRatio g) 0 then with_ratio 1 g else g in
  exec (λ d,
    g <-? stored g ;;
    match group_named (GroupName g) d with
    | [] => let id := auto_id (user_groups d) in Ok (id, with_user_groups <[id := g]> d)
    | _ => Err (EMySQL 1062)
    end).

Definition same_columns (g g' : Group) : bool :=
  String.eqb (GroupName g) (GroupName g') && Qeq_bool (GroupRatio g) (GroupRatio g') &&
  (DailyLimitCredits g =? DailyLimitCredits g') && (RPMLimit g =? RPMLimit g') && (TPMLimit g =? TPMLimit g') &&
  String.eqb (GroupRemark g) (GroupRemark g').

(** The rows affected are those that change. *)
Definition UpdateGroup (id : N) (g : Group) : DBM unit :=
  or_not_found (exec (λ d,
    match user_groups d !! id with
    | Some old =>
        if negb (group_present old) then Ok (0%N, d) else
        g <-? stored g ;;
        if existsb (λ i, negb (i =? id)%N) (group_named (GroupName g) d) then Err (EMySQL 1062) else
        if same_columns g old then Ok (0%N, d) else Ok (1%N, with_user_groups <[id := g]> d)
    | None => Ok (0%N, d)
    end)).

Definition group_deleted_at (now : Z) (g : Group) : Group := {|
  GroupName := GroupName g; GroupRatio := GroupRatio g; DailyLimitCredits := DailyLimitCredits g; RPMLimit := RPMLimit g;
  TPMLimit := TPMLimit g; GroupRemark := GroupRemark g; GroupDeletedAt := Some now |}.

Definition members (id : N) (d : database) : list (N * User) :=
  rows_where users (λ _ u, (GroupID u =? id)%N && present u) d.

Definition delete_group_row (id : N) (now : Z) : DBM N :=
  exec (id_update user_groups with_user_groups id (λ g, Ok (group_present g)) (λ g, Ok (group_deleted_at now g))).

Definition DeleteGroup (id : N) (now : Z) : proc database (result unit) :=
  if (id =? 1)%N then Done (Err (EMsg "default group cannot be deleted")) else
  used <~? one (query (λ d, Ok (Z.of_nat (length (members id d))))) ;;
  if 0 <? used then Done (Err (EMsg ("group in use by " +:+ itoa used +:+ " users"))) else
  one (or_not_found (delete_group_row id now)).

(** ** Handlers (admin_handler.go, handler.go, admin_group_handler.go)

    [actor] is the user of the token; a body that is not JSON of the shape
    is [None].  [auth] is the password service; without one only
    [ChangePassword] says so. *)

Section handlers.
Context (GenerateFromPassword : string → string → Z → result string)
        (CompareHashAndPassword : string → string → bool)
        (valid_email : string → bool) (error_text : goerr → string) (unbound : string)
        (svc : Service).

Abbreviation handler A := (proc database (answer A)).
Abbreviation VerifyPassword := (VerifyPassword CompareHashAndPassword).
Abbreviation HashPassword := (HashPassword GenerateFromPassword svc).

(** What a call that errs is answered. *)
Definition call_else {A B} (m : DBM B) (fail : goerr → answer A) (k : B → handler A) : handler A := call_or m fail k.

Definition parseID (param : string) : option N :=
  match ParseUint param with Some n => if (n =? 0)%N then None else Some n | None => None end.

Definition with_id {A} (param : string) (k : N → handler A) : handler A :=
  match parseID param with None => Done (BadRequest "invalid id") | Some id => k id end.

(** The header, or the form. *)
Definition confirmAdmin (actor : N) (header form : string) : proc database (option string) :=
  let pwd := if String.eqb header "" then form else header in
  if String.eqb pwd "" then Done (Some "X-Admin-Confirm header required for this destructive operation") else
  if (actor =? 0)%N then Done (Some "not authenticated") else
  ok <~ one (VerifyPassword actor pwd) ;;
  Done (match ok with Ok _ => None | Err _ => Some "admin password mismatch" end).

Definition confirmed {A} (actor : N) (header form : string) (k : handler A) : handler A :=
  refused <~ confirmAdmin actor header form ;;
  match refused with Some msg => Done (Forbidden msg) | None => k end.

Definition not_found_or_internal {A} (msg : string) (e : goerr) : answer A :=
  if errors_Is e Users.ErrNotFound then NotFound msg else Internal (error_text e).

Record createReq := {
  cr_email : string; cr_password : string; cr_nickname : string; cr_role : string; cr_status : string;
  cr_group : N; cr_credits : Z
}.

Definition createReq_ok (q : createReq) : bool :=
  negb (String.eqb (cr_email q) "") && valid_email (cr_email q) && negb (String.eqb (cr_password q) "") &&
  (6 <=? rune_count (cr_password q)).

Definition lowered (v d : string) : string :=
  let v := ToLower (TrimSpace v) in if String.eqb v "" then d else v.

Definition created_row (q : createReq) (hash role status : string) : User := {|
  Email := ToLower (TrimSpace (cr_email q)); PasswordHash := hash; Nickname := TrimSpace (cr_nickname q);
  GroupID := if (cr_group q =? 0)%N then 1%N else cr_group q; Role := role; Status := status;
  CreditBalance := 0; CreditFrozen := 0; Version := 0; LastLoginAt := None; LastLoginIP := ""; UserDeletedAt := None |}.

Definition AdminCreate (actor : N) (body : option createReq) (salt : string) : handler (N * User) :=
  match body with
  | None => Done (BadRequest unbound)
  | Some q =>
      if negb (createReq_ok q) then Done (BadRequest unbound) else
      let email := ToLower (TrimSpace (cr_email q)) in
      if String.eqb email "" then Done (BadRequest "email required") else
      let role := lowered (cr_role q) "user" in
      if negb (String.eqb role "user") && negb (String.eqb role "admin") then Done (BadRequest "role must be user or admin") else
      let status := lowered (cr_status q) "active" in
      if negb (String.eqb status "active") && negb (String.eqb status "banned")
      then Done (BadRequest "status must be active or banned") else
      call_else (CountByEmail email) (λ e, Internal (error_text e)) (λ n,
      if 0 <? n then Done (BadRequest "邮箱已存在") else
      match HashPassword (cr_password q) salt with
      | Err e => Done (BadRequest (error_text e))
      | Ok hash =>
          let u := created_row q hash role status in
          call_else (Users.Create u) (λ e, Internal (error_text e)) (λ id,
          _ <~ (if (0 <? cr_credits q) && svc_billing svc
                then one (AdminAdjust id actor (cr_credits q) "admin_create" "created by admin") else Done (Ok 0)) ;;
          Done (OK (id, u)))
      end)
  end.

Definition AdminGet (param : string) : handler User :=
  with_id param (λ id, call_else (GetByID id) (not_found_or_internal "user not found") (λ u, Done (OK u))).

Definition AdminUpdate (actor : N) (param : string) (body : option UpdatePatch) : handler N :=
  with_id param (λ id,
  match body with
  | None => Done (BadRequest unbound)
  | Some p =>
      if (match PatchRole p with Some r => negb (String.eqb r "admin") | None => false end) && (id =? actor)%N
      then Done (BadRequest "cannot downgrade your own admin role") else
      call_else (Update id p) (λ e, BadRequest (error_text e)) (λ n,
      if (n =? 0)%N then Done (NotFound "user not found") else Done (OK n))
  end).

(** The new password and the administrator's own. *)
Definition AdminResetPassword (actor : N) (param : string) (body : option (string * string)) (salt : string) : handler unit :=
  with_id param (λ id,
  match body with
  | None => Done (BadRequest unbound)
  | Some (new, own) =>
      if String.eqb new "" || (rune_count new <? 6) || String.eqb own "" then Done (BadRequest unbound) else
      call_else (VerifyPassword actor own) (λ _, Forbidden "admin password mismatch") (λ _,
      match HashPassword new salt with
      | Err e => Done (BadRequest (error_text e))
      | Ok hash => call_else (ResetPassword id hash) (not_found_or_internal "user not found") (λ _, Done (OK tt))
      end)
  end).

Definition AdminDelete (actor : N) (param header form : string) (now : Z) : handler N :=
  with_id param (λ id,
  if (id =? actor)%N then Done (BadRequest "cannot delete yourself") else
  confirmed actor header form
    (call_else (SoftDelete id now) (not_found_or_internal "user not found") (λ _, Done (OK id)))).

Record adjustReq := { adj_delta : Z; adj_remark : string; adj_ref : string }.

(** [required] refuses a zero, [max] counts characters. *)
Definition adjustReq_ok (q : adjustReq) : bool :=
  negb (adj_delta q =? 0) && negb (String.eqb (adj_remark q) "") && (rune_count (adj_remark q) <=? 200).

Definition adjust (id actor : N) (q : adjustReq) (short : string) : handler (Z * Z) :=
  call_else (AdminAdjust id actor (adj_delta q) (adj_ref q) (adj_remark q))
    (λ e, if errors_Is e ErrInsufficient then BadRequest short else Internal (error_text e))
    (λ balance, Done (OK (balance, adj_delta q))).

Definition Adjust (actor : N) (param header form : string) (body : option adjustReq) : handler (Z * Z) :=
  with_id param (λ id,
  match body with
  | None => Done (BadRequest unbound)
  | Some q =>
      if negb (adjustReq_ok q) then Done (BadRequest unbound) else
      confirmed actor header form (adjust id actor q "积分不足")
  end).

Definition AdjustByUser (actor : N) (header form : string) (body : option (N * adjustReq)) : handler (Z * Z) :=
  match body with
  | None => Done (BadRequest unbound)
  | Some (id, q) =>
      if (id =? 0)%N || negb (adjustReq_ok q) then Done (BadRequest unbound) else
      confirmed actor header form (adjust id actor q "余额不足")
  end.

(** *** The user's own (handler.go) *)

Definition Me (uid : N) : handler (User * option (list Permission)) :=
  if (uid =? 0)%N then Done (Unauthorized "not logged in") else
  call_else (GetByID uid)
    (λ e, if bool_decide (e = Users.ErrNotFound) then NotFound "user not found" else Internal (error_text e))
    (λ u, Done (OK (u, ListPermissions (Role u)))).

Definition ChangePassword (uid : N) (configured : bool) (body : option (string * string)) (salt : string) : handler unit :=
  if (uid =? 0)%N then Done (Unauthorized "not logged in") else
  if negb configured then Done (Internal "password service not configured") else
  match body with
  | None => Done (BadRequest unbound)
  | Some (old, new) =>
      if String.eqb old "" || String.eqb new "" then Done (BadRequest unbound) else
      call_else (VerifyPassword uid old) (λ _, Forbidden "old password mismatch") (λ _,
      if String.eqb old new then Done (BadRequest "new password must differ from old password") else
      match HashPassword new salt with
      | Err e => Done (BadRequest (error_text e))
      | Ok hash => call_else (ResetPassword uid hash) (not_found_or_internal "user not found") (λ _, Done (OK tt))
      end)
  end.

(** *** Groups *)

Definition groupReq_ok (g : Group) : bool :=
  (2 <=? rune_count (GroupName g)) && (rune_count (GroupName g) <=? 64) && negb (Qle_bool (GroupRatio g) 0).

Definition GroupCreate (body : option Group) : handler (N * Group) :=
  match body with
  | None => Done (BadRequest unbound)
  | Some g =>
      if negb (groupReq_ok g) then Done (BadRequest unbound) else
      call_else (CreateGroup g) (λ e, BadRequest (error_text e)) (λ id, Done (OK (id, g)))
  end.

Definition GroupUpdate (param : string) (body : option Group) : handler (N * Group) :=
  with_id param (λ id,
  match body with
  | None => Done (BadRequest unbound)
  | Some g =>
      if negb (groupReq_ok g) then Done (BadRequest unbound) else
      call_else (UpdateGroup id g) (not_found_or_internal "group not found") (λ _, Done (OK (id, g)))
  end).

Definition GroupDelete (param : string) (now : Z) : handler N :=
  with_id param (λ id,
  r <~ DeleteGroup id now ;;
  Done (match r with
        | Ok _ => OK id
        | Err e => if errors_Is e Users.ErrNotFound then NotFound "group not found" else BadRequest (error_text e)
        end)).

(** ** Dangerous operations are confirmed *)

(** [password] is that of the [actor], who may log in. *)
Definition proven (actor : N) (password : string) (d : database) : Prop :=
  ∃ u, users d !! actor = Some u ∧ present u = true ∧ Status u ≠ "banned" ∧ CompareHashAndPassword (PasswordHash u) password = true.

Lemma call_cases {A} (f : database → result A * database) w :
  let '(r, w') := call f w in
  (r = Err EDriver ∧ w_db w' = w_db w) ∨ (r, w_db w') = f (w_db w).
Proof. destruct w as [d [|[] fs]]; unfold call; cbn; [|by left|]; destruct (f d); by right. Qed.

Lemma VerifyPassword_spec actor password w :
  let '(r, w') := VerifyPassword actor password w in
  w_db w' = w_db w ∧ (is_ok r = true → proven actor password (w_db w)).
Proof.
  unfold Signup.VerifyPassword, bind, try, GetByID, query.
  pose proof (call_cases (λ d, (match users d !! actor with
                                | Some u => if present u then Ok u else Err Users.ErrNotFound
                                | None => Err Users.ErrNotFound end, d)) w) as H.
  destruct (call _ w) as [r w']. destruct H as [[-> H]|H]; [done|].
  injection H as -> H. destruct (users (w_db w) !! actor) as [u|] eqn:Hu; [|done].
  destruct (present u) eqn:Hp; [|done]. destruct (String.eqb_spec (Status u) "banned"); [done|].
  destruct (CompareHashAndPassword (PasswordHash u) password) eqn:Hc; cbn; [|done]. split; [done|]. intros _. by exists u.
Qed.

Lemma exec_call_else {A B} (m : DBM B) (fail : goerr → answer A) (k : B → handler A) w :
  exec_proc (call_else m fail k) w =
  match m w with (Ok b, w') => exec_proc (k b) w' | (Err e, w') => (fail e, w') end.
Proof. unfold call_else, call_or. cbn. by destruct (m w) as [[b|e] w']. Qed.

Lemma confirmed_spec {A} actor header form (k : handler A) w a w' :
  exec_proc (confirmed actor header form k) w = (a, w') →
  w_db w' = w_db w ∨ proven actor (if String.eqb header "" then form else header) (w_db w).
Proof.
  unfold confirmed, confirmAdmin. destruct (String.eqb _ ""); [intros [= <- <-]; by left|].
  destruct (actor =? 0)%N; [intros [= <- <-]; by left|]. rewrite exec_pbind, exec_pbind_one.
  pose proof (VerifyPassword_spec actor (if String.eqb header "" then form else header) w) as H.
  destruct (VerifyPassword actor _ w) as [r w1]. destruct H as [H1 H2]. destruct r as [[]|]; cbn [fst snd exec_proc].
  - intros _. right. by apply H2.
  - intros [= <- <-]. by left.
Qed.

(** C21: the dangerous operations are confirmed.  An administrator who resets
    a password, deletes a user or adjusts credits changes nothing in the
    database unless the password that came with the request is his own, his row
    is there and he is not banned; a user who changes his password changes
    nothing unless the old one is right.  Whatever calls fail. *)
Theorem dangerous_confirmed actor param header form w :
  let pwd := if String.eqb header "" then form else header in
  let guarded {A} (p : handler A) password := w_db (exec_proc p w).2 = w_db w ∨ proven actor password (w_db w) in
  (∀ now, guarded (AdminDelete actor param header form now) pwd) ∧
  (∀ body, guarded (Adjust actor param header form body) pwd) ∧
  (∀ body, guarded (AdjustByUser actor header form body) pwd) ∧
  (∀ new own salt, guarded (AdminResetPassword actor param (Some (new, own)) salt) own) ∧
  (∀ configured old new salt, guarded (ChangePassword actor configured (Some (old, new)) salt) old).
Proof.
  assert (∀ A (k : handler A), w_db (exec_proc (confirmed actor header form k) w).2 = w_db w ∨
            proven actor (if String.eqb header "" then form else header) (w_db w)) as Hc.
  { intros A k. destruct (exec_proc (confirmed actor header form k) w) as [a w'] eqn:E. by eapply confirmed_spec. }
  assert (∀ A password (fail : goerr → answer A) k, w_db (exec_proc (call_else (VerifyPassword actor password) fail k) w).2 = w_db w ∨
            proven actor password (w_db w)) as Hv.
  { intros A password fail k. rewrite exec_call_else. pose proof (VerifyPassword_spec actor password w) as H.
    destruct (VerifyPassword actor password w) as [[[]|] w1]; destruct H as [H1 H2]; [right; by apply H2|by left]. }
  cbn zeta. split_and!.
  - intros now. unfold AdminDelete, with_id. destruct (parseID param) as [id|]; [|by left].
    destruct (id =? actor)%N; [by left|apply Hc].
  - intros body. unfold Adjust, with_id. destruct (parseID param) as [id|]; [|by left].
    destruct body as [q|]; [|by left]. destruct (adjustReq_ok q); [apply Hc|by left].
  - intros [[id q]|]; [|by left]. unfold AdjustByUser. destruct (_ || _); [by left|apply Hc].
  - intros new own salt. unfold AdminResetPassword, with_id. destruct (parseID param) as [id|]; [|by left].
    destruct (_ || _); [by left|apply Hv].
  - intros configured old new salt. unfold ChangePassword. destruct (actor =? 0)%N; [by left|]. destruct configured; [|by left].
    destruct (_ || _); [by left|apply Hv].
Qed.

(** ** An administrator keeps his row and his role *)

Definition administers (a : N) (d : database) : Prop :=
  ∃ u, users d !! a = Some u ∧ present u = true ∧ Role u = "admin".
Definition still_administers (a : N) (d d' : database) : Prop := administers a d → administers a d'.

#[local] Instance still_preorder a : PreOrder (still_administers a).
Proof. split; [by intros d H|]. intros d1 d2 d3 H1 H2 H. auto. Qed.

Lemma still_update a id W S :
  (∀ u u', id = a → S u = Ok u' → present u = true → Role u = "admin" → present u' = true ∧ Role u' = "admin") →
  Keeps (still_administers a) (exec (id_update users with_users id W S)).
Proof.
  intros HS. apply exec_keeps; [apply _|]. intros d x d' H (u & Hu & Hp & Hr). unfold id_update in H.
  destruct (users d !! id) as [v|] eqn:Hv; [|by simplify_eq; exists u].
  destruct (W v) as [[]|]; cbn in H; [|by simplify_eq; exists u|done]. destruct (S v) as [v'|] eqn:E; cbn in H; [|done].
  injection H as _ <-. destruct (decide (id = a)) as [->|Hne].
  - rewrite Hu in Hv. injection Hv as <-. destruct (HS u v' eq_refl E Hp Hr). exists v'. cbn. by rewrite lookup_insert_eq.
  - exists u. cbn. by rewrite lookup_insert_ne by done.
Qed.

Lemma still_tables a {A} (g : database → result (A * database)) :
  (∀ d x d', g d = Ok (x, d') → users d' = users d) → Keeps (still_administers a) (exec g).
Proof.
  intros Hg. apply exec_keeps; [apply _|]. intros d x d' H (u & Hu & Hp & Hr). exists u. by rewrite (Hg _ _ _ H).
Qed.

Lemma still_create a u : Keeps (still_administers a) (Users.Create u).
Proof.
  apply exec_keeps; [apply _|]. intros d x d' H (v & Hv & Hp & Hr). destruct (email_used _ _); [done|].
  pose proof (auto_id_fresh (users d)) as Hf. remember (auto_id (users d)) as i eqn:Ei. injection H as _ <-.
  exists v. cbn. rewrite lookup_insert_ne; [done|]. intros ->. congruence.
Qed.

Lemma still_AdminAdjust a id x b r m : Keeps (still_administers a) (AdminAdjust id x b r m).
Proof.
  assert (∀ W db, Keeps (still_administers a) (update_user id W (add_balance db))).
  { intros W db. apply still_update. intros u u' _ H Hp Hr. unfold add_balance in H. destruct (bigint _); cbn in H; by simplify_eq. }
  assert (∀ t, Keeps (still_administers a) (insert_tx t)).
  { intros t. apply (still_tables a). by intros d y d' [= _ <-]. }
  unfold AdminAdjust, select_balance. destruct (b =? 0); [apply _|]. apply runTx_keeps; [apply _|]. apply _.
Qed.

Lemma still_update_present a id upd :
  (∀ u, id = a → present u = true → Role u = "admin" → present (upd u) = true ∧ Role (upd u) = "admin") →
  Keeps (still_administers a) (update_present id upd).
Proof. intros H. apply still_update. intros u u' E [= <-]. by apply H. Qed.

Lemma still_or_not_found a m : Keeps (still_administers a) m → Keeps (still_administers a) (or_not_found m).
Proof. intros H. unfold or_not_found. apply _. Qed.

Lemma still_reset a id hash : Keeps (still_administers a) (ResetPassword id hash).
Proof. apply still_or_not_found, still_update_present. by intros u _. Qed.

Lemma still_delete a id now : id ≠ a → Keeps (still_administers a) (SoftDelete id now).
Proof. intros Hne. apply still_or_not_found, still_update_present. by intros u E. Qed.

Lemma still_patch a id p :
  (match PatchRole p with Some r => negb (String.eqb r "admin") | None => false end) && (id =? a)%N = false →
  Keeps (still_administers a) (Update id p).
Proof.
  intros Hg. unfold Update. destruct (bad_choice (PatchRole p) _ _); [apply _|]. destruct (bad_choice (PatchStatus p) _ _); [apply _|].
  destruct (nothing_set p); [apply _|]. apply still_update_present. intros u -> Hp Hr. split; [done|].
  rewrite N.eqb_refl, andb_true_r in Hg. cbn. destruct (PatchRole p) as [r|]; [|done]. cbn.
  destruct (String.eqb_spec r "admin"); [done|discriminate Hg].
Qed.

Lemma still_groups a : (∀ g, Keeps (still_administers a) (CreateGroup g)) ∧ (∀ id g, Keeps (still_administers a) (UpdateGroup id g)) ∧
  (∀ id now, Keeps (still_administers a) (delete_group_row id now)).
Proof.
  split_and!.
  - intros g. unfold CreateGroup. destruct (String.eqb _ _); [apply _|]. apply (still_tables a).
    intros d x d' H. destruct (stored _); cbn in H; [|done]. destruct (group_named _ _); [|done]. by injection H as _ <-.
  - intros id g. unfold UpdateGroup. apply still_or_not_found, (still_tables a).
    intros d x d' H. destruct (user_groups d !! id) as [old|]; [|by injection H as _ <-].
    destruct (negb _); [by injection H as _ <-|]. destruct (stored g); cbn in H; [|done].
    destruct (existsb _ _); [done|]. destruct (same_columns _ _); by injection H as _ <-.
  - intros id now. unfold delete_group_row. apply (still_tables a). intros d x d' H. unfold id_update in H.
    destruct (user_groups d !! id) as [g|]; [|by injection H as _ <-]. cbn in H. destruct (group_present g); by injection H as _ <-.
Qed.

#[local] Instance Update_steady id p : Steady (Update id p).
Proof. unfold Update, update_present. apply _. Qed.
#[local] Instance or_not_found_steady m : Steady m → Steady (or_not_found m).
Proof. intros H. unfold or_not_found. apply _. Qed.
#[local] Instance update_present_steady id upd : Steady (update_present id upd) := _.
#[local] Instance ResetPassword_steady id hash : Steady (ResetPassword id hash) := _.
#[local] Instance SoftDelete_steady id now : Steady (SoftDelete id now) := _.
#[local] Instance CreateGroup_steady g : Steady (CreateGroup g).
Proof. unfold CreateGroup. destruct (String.eqb _ _); apply _. Qed.
#[local] Instance UpdateGroup_steady id g : Steady (UpdateGroup id g) := _.
#[local] Instance delete_group_row_steady id now : Steady (delete_group_row id now) := _.
#[local] Instance VerifyPassword_steady id password : Steady (VerifyPassword id password).
Proof. unfold Signup.VerifyPassword, GetByID. apply _. Qed.

#[local] Instance still_verify a id password : Keeps (still_administers a) (VerifyPassword id password).
Proof. unfold Signup.VerifyPassword, GetByID. apply _. Qed.
#[local] Instance still_create' a u : Keeps (still_administers a) (Users.Create u) := still_create a u.
#[local] Instance still_adjust' a id x b r m : Keeps (still_administers a) (AdminAdjust id x b r m) := still_AdminAdjust a id x b r m.
#[local] Instance still_reset' a id hash : Keeps (still_administers a) (ResetPassword id hash) := still_reset a id hash.
#[local] Instance still_group1 a g : Keeps (still_administers a) (CreateGroup g) := proj1 (still_groups a) g.
#[local] Instance still_group2 a id g : Keeps (still_administers a) (UpdateGroup id g) := proj1 (proj2 (still_groups a)) id g.
#[local] Instance still_group3 a id now : Keeps (still_administers a) (or_not_found (delete_group_row id now)) :=
  still_or_not_found a _ (proj2 (proj2 (still_groups a)) id now).

(** What administrator [a] asks for; users change their passwords
    meanwhile. *)
Inductive admin_request (a : N) : proc database unit → Prop :=
  | ReqCreate body salt : admin_request a (forget (AdminCreate a body salt))
  | ReqGet param : admin_request a (forget (AdminGet param))
  | ReqUpdate param body : admin_request a (forget (AdminUpdate a param body))
  | ReqReset param body salt : admin_request a (forget (AdminResetPassword a param body salt))
  | ReqDelete param header form now : admin_request a (forget (AdminDelete a param header form now))
  | ReqAdjust param header form body : admin_request a (forget (Adjust a param header form body))
  | ReqAdjustBy header form body : admin_request a (forget (AdjustByUser a header form body))
  | ReqChange uid configured body salt : admin_request a (forget (ChangePassword uid configured body salt))
  | ReqGroupCreate body : admin_request a (forget (GroupCreate body))
  | ReqGroupUpdate param body : admin_request a (forget (GroupUpdate param body))
  | ReqGroupDelete param now : admin_request a (forget (GroupDelete param now)).

Lemma confirmed_follows {A} Rel `{!PreOrder Rel} actor header form (k : handler A) :
  (∀ id password, Keeps Rel (VerifyPassword id password)) → follows Rel (λ _, True) k →
  follows Rel (λ _, True) (confirmed actor header form k).
Proof. intros Hv Hk. unfold confirmed, confirmAdmin. follow_steps. Qed.

Lemma AdminUpdate_still a param body : follows (still_administers a) (λ _, True) (AdminUpdate a param body).
Proof.
  unfold AdminUpdate, with_id, call_else. destruct (parseID param) as [id|]; [|done]. destruct body as [p|]; [|done].
  destruct (_ && (id =? a)%N) eqn:E; [done|]. pose proof (still_patch a id p E). follow_steps.
Qed.

Lemma AdminDelete_still a param header form now : follows (still_administers a) (λ _, True) (AdminDelete a param header form now).
Proof.
  unfold AdminDelete, with_id, call_else. destruct (parseID param) as [id|]; [|done].
  destruct (N.eqb_spec id a) as [->|Hne]; [done|]. apply confirmed_follows; [apply _..|].
  pose proof (still_delete a id now Hne). follow_steps.
Qed.

Lemma admin_request_still a p : admin_request a p → follows (still_administers a) (λ _, True) p.
Proof.
  destruct 1; apply (follows_forget _ (λ _, True)).
  - unfold AdminCreate, call_else, CountByEmail. follow_steps.
  - unfold AdminGet, with_id, call_else, GetByID. follow_steps.
  - apply AdminUpdate_still.
  - unfold AdminResetPassword, with_id, call_else. follow_steps.
  - apply AdminDelete_still.
  - unfold Adjust, with_id, adjust, call_else. destruct (parseID param); [|done]. destruct body; [|done].
    destruct (negb _); [done|]. apply confirmed_follows; [apply _..|]. follow_steps.
  - unfold AdjustByUser, adjust, call_else. destruct body as [[id q]|]; [|done].
    destruct (_ || _); [done|]. apply confirmed_follows; [apply _..|]. follow_steps.
  - unfold ChangePassword, call_else. follow_steps.
  - unfold GroupCreate, call_else. follow_steps.
  - unfold GroupUpdate, with_id, call_else. follow_steps.
  - unfold GroupDelete, with_id, DeleteGroup. follow_steps.
Qed.

(** C16: an administrator keeps his row and his role.  Whatever requests to the
    pages of users, credits and groups administrator [a] makes, however many at
    once, whichever of them fail or are cut short, while users change their
    passwords: his row is not deleted and his role stays that of an
    administrator, as long as nobody else interferes; a request to delete
    himself, or to give himself another role, is refused before it has called
    anything.  Only row and role: he may ban himself ([bans_himself]), another
    administrator may demote him, and the restore of a backup, which replaces
    the tables, is no such request. *)
Theorem administrator_stays a :
  (∀ w ts w', rtc (pool_step (admin_request a)) ([], w) (ts, w') → administers a (w_db w) → administers a (w_db w')) ∧
  ∀ param, parseID param = Some a →
    (∀ header form now, AdminDelete a param header form now = Done (BadRequest "cannot delete yourself")) ∧
    ∀ patch r, PatchRole patch = Some r → r ≠ "admin" →
      AdminUpdate a param (Some patch) = Done (BadRequest "cannot downgrade your own admin role").
Proof.
  split.
  - intros w ts w' Hr. destruct (pool_follows (admin_request a) (still_administers a) (admin_request_still a) ([], w) (ts, w') Hr) as [_ H];
      [constructor|exact H].
  - intros param Hid. unfold AdminDelete, AdminUpdate, with_id. rewrite Hid, N.eqb_refl. split; [done|].
    intros patch r -> Hne. by destruct (String.eqb_spec r "admin").
Qed.
End handlers.

(** ** Examples *)

Definition admin_row (email : string) : User := {|
  Email := email; PasswordHash := "correct horse"; Nickname := ""; GroupID := 1; Role := "admin"; Status := "active";
  CreditBalance := 0; CreditFrozen := 0; Version := 0; LastLoginAt := None; LastLoginIP := ""; UserDeletedAt := None |}.
Definition two_admins : database := with_users (λ _, <[1%N := admin_row "a@x"]> (<[2%N := admin_row "b@x"]> ∅)) empty_database.

Abbreviation update_toy := (AdminUpdate (λ _, "") "bad body").
Definition demoted : UpdatePatch := {| PatchNickname := None; PatchRole := Some "user"; PatchStatus := None; PatchGroupID := None |}.
Definition banned : UpdatePatch := {| PatchNickname := None; PatchRole := None; PatchStatus := Some "banned"; PatchGroupID := None |}.
Definition unset : UpdatePatch := {| PatchNickname := None; PatchRole := None; PatchStatus := None; PatchGroupID := None |}.

Definition demotes_other := forget (update_toy 1 "2" (Some demoted)).

Lemma administrator_stays_witness :
  administers 1 two_admins ∧ administers 1 (w_db (advance 3 demotes_other (World two_admins [])).2) ∧
  update_toy 1 "1" (Some demoted) = Done (BadRequest "cannot downgrade your own admin role").
Proof.
  assert (administers 1 two_admins) as H by (exists (admin_row "a@x"); by vm_compute).
  split; [exact H|].
  destruct (administrator_stays toy_bcrypt toy_compare (λ _, true) (λ _, "") "bad body" sample_service 1) as [H1 H2].
  split; [|by apply (proj2 (H2 "1" ltac:(by vm_compute)) demoted "user")].
  apply (H1 (World two_admins []) [(advance 3 demotes_other (World two_admins [])).1]); [|exact H].
  eapply rtc_l; [apply (step_arrive _ [] _ demotes_other)|]; [|apply pool_advance].
  unfold demotes_other. apply (ReqUpdate toy_bcrypt toy_compare (λ _, true) (λ _, "") "bad body" sample_service 1 "2" (Some demoted)).
Defined.

(** The guard looks at the role only: an administrator can ban himself, and once
    his token has expired nobody on a site with one administrator can undo it. *)
Example bans_himself :
  let d := with_users (λ _, <[1%N := admin_row "a@x"]> ∅) empty_database in
  let '(a, d') := prun (update_toy 1 "1" (Some banned)) d in
  ans_code a = CodeOK ∧ Status <$> users d' !! 1%N = Some "banned".
Proof. vm_compute. split; reflexivity. Qed.

(** Two administrators who demote each other leave none. *)
Example no_administrator_left :
  let '(_, d1) := prun (update_toy 1 "2" (Some demoted)) two_admins in
  let '(_, d2) := prun (update_toy 2 "1" (Some demoted)) d1 in
  map (λ p, Role p.2) (map_to_list (users d2)) = ["user"; "user"].
Proof. vm_compute. reflexivity. Qed.

(** A patch without fields is answered as if the user were missing, a group
    saved as it is as if the group were. *)
Example empty_patch_not_found :
  ans_code (prun (update_toy 1 "2" (Some unset)) two_admins).1 = CodeNotFound.
Proof. vm_compute. reflexivity. Qed.

Definition vip : Group := {|
  GroupName := "vip"; GroupRatio := 4 # 5; DailyLimitCredits := 0; RPMLimit := 300; TPMLimit := 300000; GroupRemark := "";
  GroupDeletedAt := None |}.

Example unchanged_group_not_found :
  let d := with_user_groups (λ _, <[2%N := vip]> ∅) empty_database in
  ans_code (prun (GroupUpdate (λ _, "") "bad body" "2" (Some vip)) d).1 = CodeNotFound.
Proof. vm_compute. reflexivity. Qed.

(** A ratio the form accepts and the column rounds to nothing. *)
Example ratio_rounds_to_zero :
  let d := with_user_groups (λ _, <[2%N := vip]> ∅) empty_database in
  (λ g, Qeq_bool (GroupRatio g) 0) <$> user_groups (prun (GroupUpdate (λ _, "") "bad body" "2" (Some (with_ratio (1 # 100000) vip))) d).2 !! 2%N = Some true.
Proof. vm_compute. reflexivity. Qed.
