(* ===== verification/ProxyPool.v ===== *)
(** * Proxies and their temporary leases (internal/proxy)

    The table of proxies, the statements of its DAO, the service that stores
    passwords encrypted and builds URLs, and the allocator that leases a free
    proxy for one request, by a Redis lock, as a process. *)

From S2P Require Import Prelude GoStrings GoTime Sql Schema Crypto System Lock Proc.

Definition ErrNotFound : goerr := Sentinel "proxy: not found".

(** ** URLs (model.go) *)

(** The digits are written from the end of a buffer of 20 bytes. *)
Fixpoint itoa_loop (fuel : nat) (i : Z) (buf : list ascii) : list ascii :=
  match fuel with
  | O => buf
  | S fuel => if 0 <? i then itoa_loop fuel (i / 10) (ascii_of_N (Z.to_N (48 + i mod 10)) :: buf) else buf
  end.
Definition itoa (i : Z) : string :=
  if i =? 0 then "0" else
  let neg := i <? 0 in
  let buf := itoa_loop 20 (if neg then wrap64 (- i) else i) [] in
  of_bytes (if neg then "-"%char :: buf else buf).

Definition host (h : string) (port : Z) : string := h +:+ ":" +:+ itoa port.

Definition URLWithPassword (p : Proxy) (password : string) : string :=
  if String.eqb (ProxyUsername p) "" then Scheme p +:+ "://" +:+ host (Host p) (Port p)
  else if String.eqb password "" then
    Scheme p +:+ "://" +:+ ProxyUsername p +:+ "@" +:+ host (Host p) (Port p)
  else Scheme p +:+ "://" +:+ ProxyUsername p +:+ ":" +:+ password +:+ "@" +:+ host (Host p) (Port p).

(** ** Statements (dao.go) *)

Definition present (p : Proxy) : bool := bool_decide (ProxyDeletedAt p = None).

(** [p] with another health, other times. *)
Definition with_health (score : Z) (probe used : option Z) (err : string) (p : Proxy) : Proxy := {|
  Scheme := Scheme p; Host := Host p; Port := Port p; ProxyUsername := ProxyUsername p;
  PasswordEnc := PasswordEnc p; Country := Country p; ISP := ISP p; HealthScore := score;
  LastProbeAt := probe; ProxyLastUsedAt := used; LastError := err; ProxyEnabled := ProxyEnabled p;
  ProxyRemark := ProxyRemark p; ProxyDeletedAt := ProxyDeletedAt p |}.
Definition with_gone (t : option Z) (p : Proxy) : Proxy := {|
  Scheme := Scheme p; Host := Host p; Port := Port p; ProxyUsername := ProxyUsername p;
  PasswordEnc := PasswordEnc p; Country := Country p; ISP := ISP p; HealthScore := HealthScore p;
  LastProbeAt := LastProbeAt p; ProxyLastUsedAt := ProxyLastUsedAt p; LastError := LastError p;
  ProxyEnabled := ProxyEnabled p; ProxyRemark := ProxyRemark p; ProxyDeletedAt := t |}.
(** The columns an update writes, from [p], in the row [r]. *)
Definition set_proxy (p r : Proxy) : Proxy := {|
  Scheme := Scheme p; Host := Host p; Port := Port p; ProxyUsername := ProxyUsername p;
  PasswordEnc := PasswordEnc p; Country := Country p; ISP := ISP p; HealthScore := HealthScore r;
  LastProbeAt := LastProbeAt r; ProxyLastUsedAt := ProxyLastUsedAt r; LastError := LastError r;
  ProxyEnabled := ProxyEnabled p; ProxyRemark := ProxyRemark p; ProxyDeletedAt := ProxyDeletedAt r |}.

Definition DAOCreate (p : Proxy) : DBM N :=
  exec (λ d, let id := auto_id (proxies d) in Ok (id, with_proxies <[id := p]> d)).

Definition GetByID (id : N) : DBM Proxy :=
  query (λ d, match proxies d !! id with
              | Some p => if present p then Ok p else Err ErrNotFound
              | None => Err ErrNotFound
              end).

Definition List_ (offset limit : Z) : DBM (list (N * Proxy) * Z) :=
  total <- query (λ d, Ok (Z.of_nat (length (rows_where proxies (λ _ p, present p) d)))) ;;
  rows <- query (λ d, Ok (page offset limit (rev (rows_where proxies (λ _ p, present p) d)))) ;;
  ret (rows, total).

Definition ListAllEnabled : DBM (list (N * Proxy)) :=
  query (λ d, Ok (rows_where proxies (λ _ p, present p && ProxyEnabled p) d)).

Definition DAOUpdate (id : N) (p : Proxy) : DBM unit :=
  void (exec (id_update proxies with_proxies id (λ r, Ok (present r)) (λ r, Ok (set_proxy p r)))).

Definition SoftDelete (id : N) (now : Z) : DBM unit :=
  void (exec (id_update proxies with_proxies id (λ _, Ok true) (λ r, Ok (with_gone (Some now) r)))).

Definition FindByEndpoint (scheme host : string) (port : Z) (username : string) : DBM (N * Proxy) :=
  query (λ d, match head (rows_where proxies (λ _ p, String.eqb (Scheme p) scheme && String.eqb (Host p) host &&
                          (Port p =? port) && String.eqb (ProxyUsername p) username && present p) d) with
              | Some r => Ok r
              | None => Err ErrNotFound
              end).

Definition UpdateHealth (id : N) (score : Z) (lastErr : string) (now : Z) : DBM unit :=
  void (exec (id_update proxies with_proxies id (λ _, Ok true)
    (λ r, Ok (with_health score (Some now) (ProxyLastUsedAt r) lastErr r)))).

Definition runtime_candidate (_ : N) (p : Proxy) : bool :=
  present p && ProxyEnabled p && (0 <? HealthScore p).

(** [ORDER BY health_score DESC, CASE WHEN last_used_at IS NULL .. ASC,
    last_used_at ASC, id ASC] *)
Definition runtime_order (p q : N * Proxy) : bool :=
  if HealthScore p.2 =? HealthScore q.2 then
    match ProxyLastUsedAt p.2, ProxyLastUsedAt q.2 with
    | None, None => (p.1 <=? q.1)%N
    | None, Some _ => true
    | Some _, None => false
    | Some a, Some b => if a =? b then (p.1 <=? q.1)%N else a <? b
    end
  else HealthScore q.2 <? HealthScore p.2.

Definition ListRuntimeCandidates (limit : Z) : DBM (list (N * Proxy)) :=
  let limit := if limit <=? 0 then 64 else limit in
  query (λ d, Ok (take (Z.to_nat limit) (sort_by runtime_order (rows_where proxies runtime_candidate d)))).

Definition TouchLastUsed (id : N) (now : Z) : DBM unit :=
  void (exec (id_update proxies with_proxies id (λ r, Ok (present r))
    (λ r, Ok (with_health (HealthScore r) (LastProbeAt r) (Some now) (LastError r) r)))).

Definition DeductHealthOnRuntimeFailure (id : N) (deduct : Z) (lastErr : string) : DBM unit :=
  let deduct := if deduct <=? 0 then 20 else deduct in
  void (exec (id_update proxies with_proxies id (λ r, Ok (present r))
    (λ r, Ok (with_health (if deduct <? HealthScore r then HealthScore r - deduct else 0)
                (LastProbeAt r) (ProxyLastUsedAt r) lastErr r)))).

(** ** The service (service.go) *)

Record ProxyInput := {
  InScheme : string;
  InHost : string;
  InPort : Z;
  InUsername : string;
  InPassword : string;
  InCountry : string;
  InISP : string;
  InEnabled : bool;
  InRemark : string
}.

Section service.
Context {AEAD : Type}
        (Seal : AEAD → list ascii → list ascii → list ascii)
        (Open : AEAD → list ascii → list ascii → result (list ascii))
        (NonceSize Overhead : nat) (cipher : AEAD).

Definition Create (inp : ProxyInput) (nonce : list ascii) : DBM (N * Proxy) :=
  if String.eqb (InHost inp) "" || (InPort inp =? 0) then throw (EMsg "host 和 port 不能为空") else
  let enc := if String.eqb (InPassword inp) "" then ""
             else EncryptString Seal cipher nonce (InPassword inp) in
  id <- DAOCreate {|
    Scheme := if String.eqb (InScheme inp) "" then "http" else InScheme inp; Host := InHost inp; Port := InPort inp;
    ProxyUsername := InUsername inp; PasswordEnc := enc; Country := InCountry inp; ISP := InISP inp;
    HealthScore := 100; LastProbeAt := None; ProxyLastUsedAt := None; LastError := "";
    ProxyEnabled := InEnabled inp; ProxyRemark := InRemark inp; ProxyDeletedAt := None |} ;;
  p <- GetByID id ;;
  ret (id, p).

Definition updated_proxy (p : Proxy) (inp : ProxyInput) (nonce : list ascii) : Proxy := {|
  Scheme := if String.eqb (InScheme inp) "" then Scheme p else InScheme inp;
  Host := if String.eqb (InHost inp) "" then Host p else InHost inp;
  Port := if InPort inp =? 0 then Port p else InPort inp;
  ProxyUsername := InUsername inp;
  PasswordEnc := if String.eqb (InPassword inp) "" then PasswordEnc p
                 else EncryptString Seal cipher nonce (InPassword inp);
  Country := InCountry inp; ISP := InISP inp; HealthScore := HealthScore p; LastProbeAt := LastProbeAt p;
  ProxyLastUsedAt := ProxyLastUsedAt p; LastError := LastError p; ProxyEnabled := InEnabled inp;
  ProxyRemark := InRemark inp; ProxyDeletedAt := ProxyDeletedAt p |}.

Definition Update (id : N) (inp : ProxyInput) (nonce : list ascii) : DBM Proxy :=
  p <- GetByID id ;;
  let p := updated_proxy p inp nonce in
  DAOUpdate id p ;;
  ret p.

Definition Delete (id : N) (now : Z) : DBM unit := SoftDelete id now.

Definition DecryptPassword (p : Proxy) : result string :=
  if String.eqb (PasswordEnc p) "" then Ok ""
  else DecryptString Open NonceSize Overhead cipher (PasswordEnc p).

Definition BuildURL (p : Proxy) : result string :=
  pw <-? DecryptPassword p ;; Ok (URLWithPassword p pw).

(** ** The allocator (allocator.go) *)

Definition runtimeFailureDeductScore : Z := 20.

(** A lease, with what its two [sync.Once] have done. *)
Record ProxyLease := {
  LeaseProxyID : N;
  LeaseProxyURL : string;
  proxyLockKey : string;
  proxyLockToken : string;
  failureOnce : bool;
  releaseOnce : bool
}.

Context {R : Type} `{!RedisServer R} (uuid : nat → string).

(** [NewAllocator]: the TTL. *)
Definition allocator_ttl (ttl : Z) : Z := if ttl <=? 0 then 180 * second else ttl.

Definition proxy_key (id : N) : string := "proxy:lease:" +:+ pretty id.

(** [time.Now()] and a statement that uses it. *)
Definition at_now {A} (m : Z → DBM A) : DB (system R) A := now <- Now ;; on_db (m now).

Fixpoint lease_first (ttl : Z) (candidates : list (N * Proxy)) : proc (system R) (result (option ProxyLease)) :=
  match candidates with
  | [] => Done (Ok None)
  | (id, candidate) :: candidates =>
      lockToken <~? one (NewString uuid) ;;
      let lockKey := proxy_key id in
      r <~ one (Acquire lockKey lockToken ttl) ;;
      match r with
      | Err e => if errors_Is e ErrNotAcquired then lease_first ttl candidates else Done (Err e)
      | Ok _ =>
          match BuildURL candidate with
          | Err e => _ <~ one (Release lockKey lockToken) ;; Done (Err e)
          | Ok proxyURL =>
              r <~ one (at_now (TouchLastUsed id)) ;;
              match r with
              | Err e => _ <~ one (Release lockKey lockToken) ;; Done (Err e)
              | Ok _ => Done (Ok (Some {|
                  LeaseProxyID := id; LeaseProxyURL := proxyURL; proxyLockKey := lockKey;
                  proxyLockToken := lockToken; failureOnce := false; releaseOnce := false |}))
              end
          end
      end
  end.

(** [Ok None]: the request goes without a proxy. *)
Definition AllocatorLease (ttl : Z) : proc (system R) (result (option ProxyLease)) :=
  candidates <~? one (on_db (ListRuntimeCandidates 64)) ;;
  lease_first (allocator_ttl ttl) candidates.

(** The error of the call, and the lease as it is afterwards. *)
Definition ProxyRelease (l : ProxyLease) : proc (system R) (result unit * ProxyLease) :=
  if String.eqb (proxyLockKey l) "" || String.eqb (proxyLockToken l) "" then Done (Ok tt, l) else
  if releaseOnce l then Done (Ok tt, l) else
  let l' := {| LeaseProxyID := LeaseProxyID l; LeaseProxyURL := LeaseProxyURL l;
    proxyLockKey := proxyLockKey l; proxyLockToken := proxyLockToken l;
    failureOnce := failureOnce l; releaseOnce := true |} in
  r <~ one (Release (proxyLockKey l) (proxyLockToken l)) ;;
  Done (r, l').

Definition MarkFailure (l : ProxyLease) (summary : string) : proc (system R) (result unit * ProxyLease) :=
  if (LeaseProxyID l =? 0)%N then Done (Ok tt, l) else
  let summary := TrimSpace summary in
  let summary := if String.eqb summary "" then "runtime proxy failure" else summary in
  let summary := string_take 255 summary in
  if failureOnce l then Done (Ok tt, l) else
  let l' := {| LeaseProxyID := LeaseProxyID l; LeaseProxyURL := LeaseProxyURL l;
    proxyLockKey := proxyLockKey l; proxyLockToken := proxyLockToken l;
    failureOnce := true; releaseOnce := releaseOnce l |} in
  r <~ one (on_db (DeductHealthOnRuntimeFailure (LeaseProxyID l) runtimeFailureDeductScore summary)) ;;
  Done (r, l').
End service.
