(* ===== verification/Outside.v ===== *)
(** * What goes out to the upstream beside conversations

    The refresher, the prober and the import of tokens ask auth.openai.com and
    chatgpt.com: a question, the client it is asked through, and an answer,
    which is a parameter ([internet]) of everything asked before, the time,
    the client and the question.  The state joins what the server's processes
    share (System) and the record of these exchanges.

    internal/upstream/chatgpt/utls_transport.go: which proxies a client takes;
    cmd/server/main.go: the proxy of an account. *)

From S2P Require Import Prelude GoStrings GoTime Sql Schema Crypto System Proc ProxyPool Account.

(** ** Questions and answers *)

Inductive question :=
  | OAuthToken (refreshToken clientID : string)          (* POST auth.openai.com/oauth/token *)
  | AuthSession (sessionToken : string)                  (* GET chatgpt.com/api/auth/session *)
  | Me (accessToken : string)                            (* GET chatgpt.com/backend-api/me *)
  | ConversationInit (accessToken deviceID : string) (sessionID : option string).

(** The status and what could be read of the body; or the text of the error
    of the exchange. *)
Inductive heard := HTTP (status : Z) (body : string) | Broken (text : string).

(** The client: with the fingerprint of a browser or Go's own, and its proxy. *)
Inductive client := UTLS (proxy : option string) | Std (proxy : option string).

Record exchange := { x_client : client; x_question : question; x_answer : heard }.

Record wired (R : Type) := Wired { w_sys : system R; w_wire : list exchange }.
Arguments Wired {R} _ _.
Arguments w_sys {R} _.
Arguments w_wire {R} _.

(** [truncate] of refresher.go *)
Definition truncate (s : string) (n : nat) : string :=
  if (String.length s <=? n)%nat then s else string_take n s +:+ "…".

(** The quote, colon and blank after the address in an error of net/http. *)
Definition quote_colon : string := String "034" ": ".
(** [if i := strings.Index(s, quote_colon); i > 0 && i < len(s)-3 { s = s[i+3:] }] *)
Definition without_url (s : string) : string :=
  match Index s quote_colon with
  | Some i => if (0 <? i)%nat && (i + 3 <? String.length s)%nat then string_drop (i + 3) s else s
  | None => s
  end.

Section outside.
Context {R : Type} {AEAD : Type}
        (Open : AEAD → list ascii → list ascii → result (list ascii))
        (NonceSize Overhead : nat) (cipher : AEAD)
        (url_scheme : string → option string)                          (* url.Parse *)
        (internet : list exchange → Z → client → question → heard).

Abbreviation process A := (proc (wired R) A).

Definition on_sys {B} (m : DB (system R) B) : DB (wired R) B := λ w,
  let '(r, w') := m (World (w_sys (w_db w)) (w_faults w)) in
  (r, World (Wired (w_db w') (w_wire (w_db w))) (w_faults w')).
Definition on_tables {B} (m : DBM B) : DB (wired R) B := on_sys (on_db m).

Definition now : DB (wired R) Z := on_sys Now.

Definition exchange_now (c : client) (q : question) : DB (wired R) heard := λ w,
  let s := wait 0 (w_sys (w_db w)) in
  let a := internet (w_wire (w_db w)) (sys_now s) c q in
  (Ok a, World (Wired s (w_wire (w_db w) ++ [{| x_client := c; x_question := q; x_answer := a |}])) (w_faults w)).

(** [client.Do(req)], and the body read. *)
Definition ask (c : client) (q : question) : process heard :=
  Call (exchange_now c q) (λ r, Done (match r with Ok a => a | Err _ => Broken "" end)).

(** ** Clients and proxies *)

(** Which proxy the transport takes, none for a blank address. *)
Definition NewUTLSTransport (proxyURL : string) : result (option string) :=
  if String.eqb (TrimSpace proxyURL) "" then Ok None else
  match url_scheme proxyURL with
  | None => Err (EMsg "invalid proxy url")
  | Some scheme =>
      let scheme := ToLower scheme in
      if String.eqb scheme "http" || String.eqb scheme "https" then Ok (Some proxyURL)
      else Err (EMsg "unsupported proxy scheme")
  end.

(** The address of an enabled proxy, or "". *)
Definition proxy_url (proxyID : N) : process string :=
  r <~ one (on_tables (ProxyPool.GetByID proxyID)) ;;
  Done (match r with
        | Ok p => if negb (ProxyEnabled p) then "" else
                  match BuildURL Open NonceSize Overhead cipher p with Ok u => u | Err _ => "" end
        | Err _ => ""
        end).

Definition ProxyURLForAccount (accountID : N) : process string :=
  b <~ one (on_tables (GetBinding accountID)) ;;
  match b with
  | Ok (Some proxyID) => proxy_url proxyID
  | _ => Done ""
  end.

Definition ProxyURLByID (proxyID : N) : process string :=
  if (proxyID =? 0)%N then Done "" else proxy_url proxyID.

(** *** What a step does to the state *)

(** The tables move along [RT], the record of exchanges only grows. *)
Definition wired_along (RT : relation database) (s s' : wired R) : Prop :=
  RT (sys_db (w_sys s)) (sys_db (w_sys s')) ∧ ∃ more, w_wire s' = w_wire s ++ more.
#[global] Instance wired_along_preorder RT `{!PreOrder RT} : PreOrder (wired_along RT).
Proof.
  split.
  - intros s. split; [done|]. exists []. by rewrite app_nil_r.
  - intros s1 s2 s3 [H1 [m1 E1]] [H2 [m2 E2]]. split; [by etrans|]. exists (m1 ++ m2). by rewrite E2, E1, app_assoc.
Qed.

Lemma now_spec w : w_faults (now w).2 = w_faults w ∧ w_wire (w_db (now w).2) = w_wire (w_db w) ∧
  sys_db (w_sys (w_db (now w).2)) = sys_db (w_sys (w_db w)) ∧ is_ok (now w).1 = true.
Proof. destruct w as [[s x] fs]. cbn. by rewrite wait_db. Qed.

Lemma exchange_spec c q w : ∃ a, (exchange_now c q w).1 = Ok a ∧
  w_wire (w_db (exchange_now c q w).2) = w_wire (w_db w) ++ [{| x_client := c; x_question := q; x_answer := a |}] ∧
  sys_db (w_sys (w_db (exchange_now c q w).2)) = sys_db (w_sys (w_db w)) ∧ ∃ t, a = internet (w_wire (w_db w)) t c q.
Proof. destruct w as [[s x] fs]. eexists. cbn. rewrite wait_db. split_and!; [done..|by eexists]. Qed.

Lemma on_tables_spec {B} (m : DBM B) w :
  on_tables m w = ((m (World (sys_db (w_sys (w_db w))) (w_faults w))).1,
    World (Wired (with_db (w_db (m (World (sys_db (w_sys (w_db w))) (w_faults w))).2) (w_sys (w_db w))) (w_wire (w_db w)))
          (w_faults (m (World (sys_db (w_sys (w_db w))) (w_faults w))).2)).
Proof. unfold on_tables, on_sys, on_db. cbn. by destruct (m _). Qed.
End outside.
