(* ===== verification/Refresher.v ===== *)
(** * Refreshing the tokens of the accounts (internal/account/refresher.go)

    An access token expires; it is replaced by what the account's refresh
    token or, failing that, its session token fetches.  A refresh is a process
    over the state of Outside: it reads the account, asks the upstream, and
    writes one row.  [decode] is json.Unmarshal into a document,
    [decode_error] the text of its error on a body it or the target refuses. *)

From S2P Require Import Prelude GoStrings GoTime Sql Schema Crypto Settings System Proc ProxyPool Account Outside Json.

Definition RefreshSourceRT : string := "rt".
Definition RefreshSourceST : string := "st".

Record RefreshResult := {
  RfAccountID : N;
  RfEmail : string;
  RfOK : bool;
  RfSource : string;
  RfExpiresAt : Z;
  RfError : string;
  RTRotated : bool;
  ATVerified : bool;
  WebUnauthorized : bool
}.

(** ** The text of an error *)

Definition stripHTTPPrefix (s : string) : string :=
  let s := TrimSpace (without_url s) in
  if (120 <? String.length s)%nat then string_take 120 s +:+ "…" else s.

Definition any_of (low : string) (ps : list string) : bool := existsb (Contains low) ps.

(** "" for no error. *)
Definition friendlyRefreshErr (err : option string) : string :=
  match err with
  | None => ""
  | Some s =>
      let low := ToLower s in
      if any_of low ["http=401"; "invalid_grant"] then "RT 已失效(401)" else
      if any_of low ["http=403"] then "上游拒绝访问(403)" else
      if any_of low ["http=429"] then "触发速率限制(429)" else
      if any_of low ["timeout"; "deadline exceeded"] then "刷新请求超时" else
      if any_of low ["proxyconnect"] && any_of low ["no such host"] then "代理域名无法解析" else
      if any_of low ["proxyconnect tcp"] then "代理握手失败" else
      if any_of low ["no such host"] then "DNS 解析失败" else
      if any_of low ["connection refused"] then "连接被拒绝" else
      if any_of low ["connection reset"] then "连接被重置" else
      if any_of low ["unexpected eof"] || HasSuffix low ": eof" then "连接被对端关闭" else
      if any_of low ["tls"; "x509"] then "TLS 握手失败" else
      if any_of low ["missing access_token"] || Contains s "ST 已过期" then stripHTTPPrefix s
      else "刷新失败:" +:+ stripHTTPPrefix s
  end.

(** ** Reading answers *)

Section refresher.
Context {R : Type} (loc : location) {AEAD : Type}
        (Seal : AEAD → list ascii → list ascii → list ascii)
        (Open : AEAD → list ascii → list ascii → result (list ascii))
        (NonceSize Overhead : nat) (cipher : AEAD)
        (url_scheme : string → option string)
        (internet : list exchange → Z → client → question → heard)
        (decode : string → option json) (decode_error : string → string).

Abbreviation process A := (proc (wired R) A).

(** [json.Unmarshal(data, &out)]: an error's text, or what was read. *)
Definition Unmarshal {A} (read : option json → result A) (data : string) : string + A :=
  match decode data with
  | Some v => match read (Some v) with Ok a => inr a | Err _ => inl (decode_error data) end
  | None => inl (decode_error data)
  end.

Definition read_oauth : option json → result (string * string * Z) :=
  read_struct (λ m,
    at_ <-? read_string (member "access_token" m) ;;
    rt <-? read_string (member "refresh_token" m) ;;
    e <-? read_int (member "expires_in" m) ;;
    Ok (at_, rt, e)).

Definition read_session : option json → result (string * string) :=
  read_struct (λ m,
    at_ <-? read_string (member "accessToken" m) ;;
    e <-? read_string (member "expires" m) ;;
    Ok (at_, e)).

(** The claim of [parseJWTExp] *)
Definition exp_claim (raw : list ascii) : option Z :=
  match Unmarshal (read_struct (λ m, read_int (member "exp" m))) (of_bytes raw) with
  | inr e => Some e
  | inl _ => None
  end.

Definition jwt_exp (token : string) (now : Z) : Z := parseJWTExp exp_claim token now.

(** ** The exchanges *)

Definition clientFor (accountID : N) : process client :=
  pu <~ ProxyURLForAccount Open NonceSize Overhead cipher accountID ;;
  Done (if String.eqb pu "" then UTLS None else
        match NewUTLSTransport url_scheme pu with Ok p => UTLS p | Err _ => UTLS None end).

Definition http_error (what : string) (status : Z) (body : string) : string :=
  what +:+ " http=" +:+ itoa status +:+ " body=" +:+ truncate body 200.

(** What the body of a refresh says: the token, the new refresh token, the
    seconds it lives. *)
Definition oauth_reply (what : string) (a : heard) : string + (string * string * Z) :=
  match a with
  | Broken text => inl text
  | HTTP status body =>
      if negb (status =? 200) then inl (http_error what status body) else
      match Unmarshal read_oauth body with
      | inl e => inl e
      | inr (at_, rt, e) =>
          if String.eqb at_ "" then inl (what +:+ ": missing access_token in response") else inr (at_, rt, e)
      end
  end.

Definition rtToAT (accountID : N) (refreshToken clientID : string) : process (string + (string * string * Z)) :=
  c <~ clientFor accountID ;;
  a <~ ask internet c (OAuthToken refreshToken clientID) ;;
  match oauth_reply "rt refresh" a with
  | inl e => Done (inl e)
  | inr (at_, rt, e) =>
      t <~ one now ;;
      let t := match t with Ok t => t | Err _ => 0 end in
      Done (inr (at_, rt, if 0 <? e then t + wrap64 (e * second) else jwt_exp at_ t))
  end.

(** A token and when it expires; [empty] and [missing] are the errors. *)
Definition session_reply (what empty missing : string) (a : heard) : string + (string * string) :=
  match a with
  | Broken text => inl text
  | HTTP status body =>
      if negb (status =? 200) then inl (http_error what status body) else
      let raw := TrimSpace body in
      if String.eqb raw "" || String.eqb raw "{}" then inl empty else
      match Unmarshal read_session raw with
      | inl e => inl e
      | inr (at_, e) => if String.eqb at_ "" then inl missing else inr (at_, e)
      end
  end.

(** [if expires != "" { if t, e := time.Parse(..); e == nil { expAt = t } }] *)
Definition parsed_expiry (expires : string) : Z :=
  if String.eqb expires "" then zero_time else default zero_time (ParseRFC3339 expires).

Definition stToAT (accountID : N) (sessionToken : string) : process (string + (string * Z)) :=
  c <~ clientFor accountID ;;
  a <~ ask internet c (AuthSession sessionToken) ;;
  match session_reply "st refresh" "ST 已过期或无效,响应为空" "响应缺少 accessToken 字段" a with
  | inl e => Done (inl e)
  | inr (at_, e) =>
      t <~ one now ;;
      let t := match t with Ok t => t | Err _ => 0 end in
      Done (inr (at_, if parsed_expiry e =? zero_time then jwt_exp at_ t else parsed_expiry e))
  end.

(** The status, or the error of the exchange. *)
Definition verifyATOnWeb (accountID : N) (accessToken : string) : process (string + Z) :=
  c <~ clientFor accountID ;;
  a <~ ask internet c (Me accessToken) ;;
  Done (match a with Broken text => inl text | HTTP status _ => inr status end).

(** ** One account *)

(** The nonces a refresh draws. *)
Record Nonces := { new_at_nonce : list ascii; new_rt_nonce : list ascii }.

Definition applyRefresh (id : N) (a : Account) (newAT newRT : string) (expAt : Z) (source : string) (ns : Nonces)
    : process (result RefreshResult) :=
  let atEnc := encrypt Seal cipher (new_at_nonce ns) newAT in
  let rtEnc := if String.eqb newRT "" then "" else encrypt Seal cipher (new_rt_nonce ns) newRT in
  t <~? one now ;;
  let expAt := if expAt =? zero_time then jwt_exp newAT t else expAt in
  _ <~? one (on_tables (ApplyRefreshResult id atEnc rtEnc expAt source t)) ;;
  Done (Ok {| RfAccountID := id; RfEmail := AccEmail (AccInfo a); RfOK := true; RfSource := source;
              RfExpiresAt := expAt; RfError := ""; RTRotated := negb (String.eqb rtEnc ""); ATVerified := true;
              WebUnauthorized := false |}).

(** A stored token that is there and can be decrypted. *)
Definition stored_token (enc : option string) : option string :=
  match enc with
  | Some enc =>
      if String.eqb enc "" then None else
      match decrypt Open NonceSize Overhead cipher enc with
      | Ok s => if String.eqb s "" then None else Some s
      | Err _ => None
      end
  | None => None
  end.

(** With the refresh token: it is over, or this is what went wrong so far;
    [rejected]: chatgpt.com answered the new token with 401. *)
Inductive rt_outcome := RTDone (r : result RefreshResult) | RTFailed (rejected : bool) (err : string).

Definition tryRT (id : N) (a : Account) (c : cache) (ns : Nonces) : process rt_outcome :=
  match stored_token (RefreshTokenEnc (AccInfo a)) with
  | None => Done (RTFailed false "")
  | Some rt =>
      let clientID := if String.eqb (ClientID (AccInfo a)) "" then AccountDefaultClientID c else ClientID (AccInfo a) in
      r <~ rtToAT id rt clientID ;;
      match r with
      | inl e => Done (RTFailed false (friendlyRefreshErr (Some e)))
      | inr (newAT, newRT, expAt) =>
          if String.eqb newAT "" then Done (RTFailed false (friendlyRefreshErr None)) else
          v <~ verifyATOnWeb id newAT ;;
          match v with
          | inl e => Done (RTFailed false ("RT 换出的 AT 校验失败:" +:+ friendlyRefreshErr (Some e)))
          | inr status =>
              if status =? 200 then
                r <~ applyRefresh id a newAT newRT expAt RefreshSourceRT ns ;;
                Done (RTDone r)
              else if status =? 401 then Done (RTFailed true "RT 换出的 AT 被 chatgpt.com 拒绝(iOS 作用域)")
              else Done (RTFailed false ("RT 换出的 AT 校验失败(HTTP " +:+ itoa status +:+ ")"))
          end
      end
  end.

(** Neither led anywhere. *)
Definition giveUp (id : N) (a : Account) (rejected : bool) (err : string) : process (result RefreshResult) :=
  let err := if rejected then
               if negb (HasST a) then "RT 换出的 AT 被 chatgpt.com 拒绝(iOS 作用域不兼容 web),请为该账号补充 Session Token"
               else err
             else if String.eqb err "" then "账号既无可用 RT 也无可用 ST" else err in
  t <~? one now ;;
  _ <~ one (on_tables (RecordRefreshError id RefreshSourceRT err true t)) ;;
  Done (Ok {| RfAccountID := id; RfEmail := AccEmail (AccInfo a); RfOK := false; RfSource := "failed";
              RfExpiresAt := zero_time; RfError := err; RTRotated := false; ATVerified := false;
              WebUnauthorized := rejected |}).

Definition tryST (id : N) (a : Account) (rejected : bool) (err : string) (ns : Nonces) : process (result RefreshResult) :=
  match stored_token (SessionTokenEnc (AccInfo a)) with
  | None => giveUp id a rejected err
  | Some st =>
      let failed e := giveUp id a rejected
        (if String.eqb err "" then friendlyRefreshErr e else err +:+ " / ST:" +:+ friendlyRefreshErr e) in
      r <~ stToAT id st ;;
      match r with
      | inl e => failed (Some e)
      | inr (newAT, expAt) =>
          if String.eqb newAT "" then failed None
          else applyRefresh id a newAT "" expAt RefreshSourceST ns
      end
  end.

Definition RefreshAuto (id : N) (a : Account) (c : cache) (ns : Nonces) : process (result RefreshResult) :=
  o <~ tryRT id a c ns ;;
  match o with
  | RTDone r => Done r
  | RTFailed rejected err => tryST id a rejected err ns
  end.

Definition RefreshByID (id : N) (c : cache) (ns : Nonces) : process (result RefreshResult) :=
  t <~? one now ;;
  a <~? one (on_tables (GetByID loc id t)) ;;
  RefreshAuto id a c ns.

(** ** The scan *)

(** One goroutine per account, of which a semaphore lets some work at a time:
    their calls interleave in some order, here any ([turns]).  [ns n] are the
    nonces of the nth. *)
Definition scanOnce (c : cache) (turns : nat → list bool) (ns : nat → Nonces) : process unit :=
  t <~ one now ;;
  let t := match t with Ok t => t | Err _ => 0 end in
  rows <~ one (on_tables (ListNeedRefresh loc (AccountRefreshAheadSec c) 256 t)) ;;
  match rows with
  | Err _ => Done tt
  | Ok rows =>
      _ <~ together turns (imap (λ n p, RefreshAuto p.1 p.2 c (ns n)) rows) ;;
      Done tt
  end.

(** What a turn of the loop waits for. *)
Inductive woken := Cancelled | TimeUp | Kicked.

Definition sleep (d : Z) : process unit := _ <~ one (on_sys (Sleep d)) ;; Done tt.

Definition refresh_interval (c : cache) : Z :=
  let d := wrap64 (AccountRefreshIntervalSec c * second) in
  if d <? 30 * second then 30 * second else d.

(** [Run], for [n] turns at most: [settings] is what the settings hold at the
    nth, [waits] what ends the wait after it. *)
Fixpoint refresh_loop (n : nat) (settings : nat → cache) (waits : nat → woken)
    (turns : nat → nat → list bool) (ns : nat → nat → Nonces) : process unit :=
  match n with
  | O => Done tt
  | S n =>
      let c := settings n in
      _ <~ (if AccountRefreshEnabled c then scanOnce c (turns n) (ns n) else Done tt) ;;
      match waits n with
      | Cancelled => Done tt
      | TimeUp => _ <~ sleep (refresh_interval c) ;; refresh_loop n settings waits turns ns
      | Kicked => refresh_loop n settings waits turns ns
      end
  end.

(** Five seconds after the start. *)
Definition Run (n : nat) (first : woken) (settings : nat → cache) (waits : nat → woken)
    (turns : nat → nat → list bool) (ns : nat → nat → Nonces) : process unit :=
  match first with
  | Cancelled => Done tt
  | _ => _ <~ sleep (5 * second) ;; refresh_loop n settings waits turns ns
  end.
End refresher.
