(* ===== verification/Prober.v ===== *)
(** * Probing the image quota of the accounts (internal/account/quota.go)

    The page of a ChatGPT account says how many images are left today; the
    prober asks for it, reads the limits that are about images, and writes one
    row.  The headers of the request are constants but for the token and the
    ids of device and session. *)

From S2P Require Import Prelude GoStrings GoTime Sql Schema Crypto Settings System Proc ProxyPool Account Outside Json Refresher.

Record QuotaResult := {
  QrAccountID : N;
  QrEmail : string;
  QrOK : bool;
  QrRemaining : Z;
  QrTotal : Z;
  QrResetAt : Z;
  QrDefaultModel : string;
  QrBlockedFeatures : list string;
  QrError : string
}.

Record probeOutcome := {
  p_remaining : Z;
  p_total : Z;
  p_resetAt : Z;
  p_defaultModel : string;
  p_blockedFeatures : list string
}.

(** An entry of limits_progress. *)
Record limit_entry := {
  FeatureName : string;
  Remaining : option Z;
  ResetAfter : string;
  MaxValue : option Z;
  Cap : option Z;
  Total : option Z;
  Limit : option Z
}.

Definition isImageFeature (name : string) : bool :=
  let n := ToLower name in
  existsb (String.eqb n) ["image_gen"; "image_generation"; "image_edit"; "img_gen"] ||
  Contains n "image_gen" || Contains n "img_gen".

(** The first pointer that is not nil. *)
Fixpoint pickInt (ps : list (option Z)) : option Z :=
  match ps with
  | [] => None
  | Some v :: _ => Some v
  | None :: ps => pickInt ps
  end.

(** [%012d] *)
Definition pad12 (n : N) : string :=
  let s := itoa (Z.of_N n) in of_bytes (repeat "0"%char (12 - String.length s)) +:+ s.
Definition fallbackDeviceID (accountID : N) : string :=
  "00000000-0000-4000-8000-" +:+ pad12 (accountID mod 1000000000000)%N.

Definition friendlyProbeErr (err : option string) : string :=
  match err with
  | None => ""
  | Some s =>
      let low := ToLower s in
      if any_of low ["http=401"] then "AT 已过期,无法探测额度" else
      if any_of low ["http=403"] then "上游拒绝访问(403)" else
      if any_of low ["http=429"] then "上游速率限制(429)" else
      if any_of low ["timeout"; "deadline exceeded"] then "探测超时" else
      if any_of low ["connection refused"; "no such host"] then "网络不通" else
      "探测失败:" +:+ (if (160 <? String.length s)%nat then string_take 160 s +:+ "…" else s)
  end.

(** ** What the limits say *)

Definition take_remaining (out : Z) (r : option Z) : Z :=
  match r with
  | Some v => if (out <? 0) || (v <? out) then v else out
  | None => out
  end.
Definition take_total (out : Z) (item : limit_entry) : Z :=
  match pickInt [MaxValue item; Cap item; Total item; Limit item] with
  | Some v => if out <? v then v else out
  | None => out
  end.
Definition take_reset (out : Z) (after : string) : Z :=
  if String.eqb after "" then out else
  match ParseRFC3339 after with
  | Some t => if (out =? zero_time) || (t <? out) then t else out
  | None => out
  end.

Definition read_entry (acc : Z * Z * Z) (item : limit_entry) : Z * Z * Z :=
  let '(remaining, total, resetAt) := acc in
  if negb (isImageFeature (FeatureName item)) then acc
  else (take_remaining remaining (Remaining item), take_total total item, take_reset resetAt (ResetAfter item)).

Definition read_limits (items : list limit_entry) : Z * Z * Z :=
  fold_left read_entry items (-1, -1, zero_time).

(** What the account has used today. *)
Definition used_today (loc : location) (a : Account) (now : Z) : Z :=
  match TodayUsedDate (AccUse a) with
  | Some day => if isSameLocalDay loc day now then TodayUsedCount (AccUse a) else 0
  | None => 0
  end.

(** Without a limit in the answer: what was used and what is left. *)
Definition estimate_total (used remaining total : Z) : Z :=
  if (total <=? 0) && (0 <=? remaining) then
    let sum := wrap64 (used + remaining) in if 0 <? sum then sum else total
  else total.

Section prober.
Context {R : Type} (loc : location) {AEAD : Type}
        (Open : AEAD → list ascii → list ascii → result (list ascii))
        (NonceSize Overhead : nat) (cipher : AEAD)
        (url_scheme : string → option string)
        (internet : list exchange → Z → client → question → heard)
        (decode : string → option json) (decode_error : string → string).

Abbreviation process A := (proc (wired R) A).

Definition clientFor (accountID : N) : process client :=
  pu <~ ProxyURLForAccount Open NonceSize Overhead cipher accountID ;;
  Done (match NewUTLSTransport url_scheme pu with Ok p => UTLS p | Err _ => Std None end).

Definition read_limit : option json → result limit_entry :=
  read_struct (λ m,
    name <-? read_string (member "feature_name" m) ;;
    remaining <-? read_int_ptr (member "remaining" m) ;;
    after <-? read_string (member "reset_after" m) ;;
    maxv <-? read_int_ptr (member "max_value" m) ;;
    cap <-? read_int_ptr (member "cap" m) ;;
    total <-? read_int_ptr (member "total" m) ;;
    limit <-? read_int_ptr (member "limit" m) ;;
    Ok {| FeatureName := name; Remaining := remaining; ResetAfter := after; MaxValue := maxv; Cap := cap;
          Total := total; Limit := limit |}).

(** The blocked features, the default model, the limits. *)
Definition read_init : option json → result (list string * string * list limit_entry) :=
  read_struct (λ m,
    _ <-? read_string (member "type" m) ;;
    blocked <-? read_slice read_string (member "blocked_features" m) ;;
    model <-? read_string (member "default_model_slug" m) ;;
    limits <-? read_slice read_limit (member "limits_progress" m) ;;
    Ok (blocked, model, limits)).

Definition init_reply (a : heard) : string + (list string * string * list limit_entry) :=
  match a with
  | Broken text => inl text
  | HTTP status body =>
      if negb (status =? 200) then inl (http_error "conversation/init" status body)
      else Unmarshal decode decode_error read_init body
  end.

Definition outcome_of (a : Account) (now : Z) (reply : list string * string * list limit_entry) : probeOutcome :=
  let '(blocked, model, items) := reply in
  let '(remaining, total, resetAt) := read_limits items in
  {| p_remaining := remaining; p_total := estimate_total (used_today loc a now) remaining total;
     p_resetAt := resetAt; p_defaultModel := model; p_blockedFeatures := blocked |}.

Definition doProbe (id : N) (a : Account) (accessToken : string) : process (string + probeOutcome) :=
  let deviceID := TrimSpace (OAIDeviceID (AccInfo a)) in
  let deviceID := if String.eqb deviceID "" then fallbackDeviceID id else deviceID in
  let sid := TrimSpace (OAISessionID (AccInfo a)) in
  c <~ clientFor id ;;
  r <~ ask internet c (ConversationInit accessToken deviceID (if String.eqb sid "" then None else Some sid)) ;;
  match init_reply r with
  | inl e => Done (inl e)
  | inr reply =>
      t <~ one now ;;
      let t := match t with Ok t => t | Err _ => 0 end in
      Done (inr (outcome_of a t reply))
  end.

(** ** One account *)

(** [_ = dao.ApplyQuotaResult(ctx, a.ID, -1, -1, nil)] *)
Definition unprobed (id : N) : process unit :=
  t <~ one now ;;
  match t with
  | Ok t => _ <~ one (on_tables (ApplyQuotaResult id (-1) (-1) None t)) ;; Done tt
  | Err _ => Done tt
  end.

Definition failed_probe (id : N) (a : Account) (err : string) : QuotaResult := {|
  QrAccountID := id; QrEmail := AccEmail (AccInfo a); QrOK := false; QrRemaining := 0; QrTotal := 0;
  QrResetAt := zero_time; QrDefaultModel := ""; QrBlockedFeatures := []; QrError := err |}.

(** The result comes with an error, or without. *)
Definition ProbeOne (id : N) (a : Account) : process (QuotaResult * option goerr) :=
  match decrypt Open NonceSize Overhead cipher (AuthTokenEnc (AccInfo a)) with
  | Ok (String _ _ as at_) =>
      p <~ doProbe id a at_ ;;
      match p with
      | inl e => _ <~ unprobed id ;; Done (failed_probe id a (friendlyProbeErr (Some e)), Some (EMsg e))
      | inr p =>
          t <~ one now ;;
          let t := match t with Ok t => t | Err _ => 0 end in
          w <~ one (on_tables (ApplyQuotaResult id (p_remaining p) (p_total p)
                 (if p_resetAt p =? zero_time then None else Some (p_resetAt p)) t)) ;;
          match w with
          | Err e => Done (failed_probe id a "写库失败", Some e)
          | Ok _ => Done ({| QrAccountID := id; QrEmail := AccEmail (AccInfo a); QrOK := true;
                             QrRemaining := p_remaining p; QrTotal := p_total p; QrResetAt := p_resetAt p;
                             QrDefaultModel := p_defaultModel p; QrBlockedFeatures := p_blockedFeatures p;
                             QrError := "" |}, None)
          end
      end
  | _ => _ <~ unprobed id ;; Done (failed_probe id a "AT 解密失败", Some (EMsg "AT 解密失败"))
  end.

(** No result: the account could not be read. *)
Definition ProbeByID (id : N) : process (option QuotaResult * option goerr) :=
  t <~ one now ;;
  let t := match t with Ok t => t | Err _ => 0 end in
  a <~ one (on_tables (GetByID loc id t)) ;;
  match a with
  | Err e => Done (None, Some e)
  | Ok a => r <~ ProbeOne id a ;; Done (Some r.1, r.2)
  end.

(** ** The scan *)

Definition scanOnce (c : cache) (turns : nat → list bool) : process unit :=
  t <~ one now ;;
  let t := match t with Ok t => t | Err _ => 0 end in
  rows <~ one (on_tables (ListNeedProbeQuota loc (AccountQuotaProbeIntervalSec c) 256 t)) ;;
  match rows with
  | Err _ => Done tt
  | Ok rows => _ <~ together turns (map (λ p, ProbeOne p.1 p.2) rows) ;; Done tt
  end.

Definition scanInterval : Z := 60 * second.

(** [Run], for [n] turns at most; see [refresh_loop]. *)
Fixpoint probe_loop (n : nat) (settings : nat → cache) (waits : nat → woken) (turns : nat → nat → list bool) : process unit :=
  match n with
  | O => Done tt
  | S n =>
      let c := settings n in
      _ <~ (if AccountQuotaProbeEnabled c then scanOnce c (turns n) else Done tt) ;;
      match waits n with
      | Cancelled => Done tt
      | TimeUp => _ <~ sleep scanInterval ;; probe_loop n settings waits turns
      | Kicked => probe_loop n settings waits turns
      end
  end.

Definition Run (n : nat) (first : woken) (settings : nat → cache) (waits : nat → woken)
    (turns : nat → nat → list bool) : process unit :=
  match first with
  | Cancelled => Done tt
  | _ => _ <~ sleep (10 * second) ;; probe_loop n settings waits turns
  end.
End prober.
