(* ===== verification/Import.v ===== *)
(** * Importing accounts (internal/account/importer.go, importer_tokens.go)

    An administrator pastes exports, token files or bare tokens; each becomes
    a source, and each source an account that is created or updated, one
    statement at a time.  [decode] is json.Unmarshal into a document,
    [decode_stream] a json.Decoder read to its end: the documents, and whether
    an error came last. *)

From stdpp Require Import strings.
From S2P Require Import Prelude GoStrings GoTime Float Sql Schema Crypto Settings System Proc ProxyPool Account Outside Json Refresher.

#[local] Open Scope Z_scope.

Record ImportSource := {
  ImAccessToken : string;
  ImEmail : string;
  ImRefreshToken : string;
  ImSessionToken : string;
  ImClientID : string;
  ImChatGPTAccountID : string;
  ImAccountType : string;
  ImExpiredAt : Z;
  ImName : string
}.

Inductive line_status := Created | Updated | Skipped | LineFailed.

Record ImportLineResult := {
  LrIndex : Z;
  LrEmail : string;
  LrStatus : line_status;
  LrReason : string;
  LrID : N
}.

Record ImportSummary := {
  SumTotal : Z;
  SumCreated : Z;
  SumUpdated : Z;
  SumSkipped : Z;
  SumFailed : Z;
  Results : list ImportLineResult
}.

Record ImportOptions := {
  UpdateExisting : bool;
  DefaultClientID : string;
  BatchSize : Z
}.

Definition app_client : string := "app_EMoamEEZ73f0CkXaXp7hrann".

(** ** Exports and token files (importer.go) *)

(** The first of the prefixes comes off; what is left ends in _domain. *)
Fixpoint trim_first (ps : list string) (n : string) : string :=
  match ps with
  | [] => n
  | p :: ps => if HasPrefix n p then TrimPrefix n p else trim_first ps n
  end.
Definition emailFromName (name : string) : string :=
  if String.eqb name "" then "" else
  match last_cut "_" (bytes (trim_first ["codex-"; "chatgpt-"; "openai-"] name)) with
  | Some ((_ :: _) as user, (_ :: _) as domain) => of_bytes user +:+ "@" +:+ of_bytes domain
  | _ => ""
  end.

Definition normalizeType (name platform : string) : string :=
  let lower := ToLower (name +:+ " " +:+ platform) in
  if Contains lower "codex" then "codex" else
  if Contains lower "chatgpt" then "chatgpt" else
  if Contains lower "openai" then "codex" else "codex".

Record subAPIAccount := {
  SaName : string;
  SaPlatform : string;
  SaAccessToken : string;
  SaRefreshToken : string;
  SaSessionToken : string;
  SaClientID : string;
  SaChatGPTAccountID : string;
  SaEmail : string
}.

(** A source is of use with a token and an address. *)
Definition usable (src : ImportSource) : option ImportSource :=
  if String.eqb (ImAccessToken src) "" || String.eqb (ImEmail src) "" then None else Some src.

Definition sub_source (a : subAPIAccount) : option ImportSource :=
  let email := TrimSpace (SaEmail a) in
  usable {|
    ImAccessToken := SaAccessToken a; ImEmail := if String.eqb email "" then emailFromName (SaName a) else email;
    ImRefreshToken := SaRefreshToken a; ImSessionToken := SaSessionToken a; ImClientID := SaClientID a;
    ImChatGPTAccountID := SaChatGPTAccountID a; ImAccountType := normalizeType (SaName a) (SaPlatform a);
    ImExpiredAt := zero_time; ImName := SaName a |}.

Record tokenFileB := {
  TbAccessToken : string;
  TbRefreshToken : string;
  TbAccountID : string;
  TbEmail : string;
  TbType : string;
  TbClientID : string;
  TbExpired : string
}.

Definition file_source (b : tokenFileB) : option ImportSource :=
  let type := ToLower (TrimSpace (TbType b)) in
  usable {|
    ImAccessToken := TbAccessToken b; ImEmail := TrimSpace (TbEmail b); ImRefreshToken := TbRefreshToken b;
    ImSessionToken := ""; ImClientID := TbClientID b; ImChatGPTAccountID := TbAccountID b;
    ImAccountType := if String.eqb type "" then "codex" else type;
    ImExpiredAt := parsed_expiry (TbExpired b); ImName := "" |}.

Definition read_sub : option json → result subAPIAccount :=
  read_struct (λ m,
    name <-? read_string (member "name" m) ;;
    platform <-? read_string (member "platform" m) ;;
    _ <-? read_string (member "type" m) ;;
    cred <-? read_struct (λ c,
        at_ <-? read_string (member "access_token" c) ;;
        rt <-? read_string (member "refresh_token" c) ;;
        st <-? read_string (member "session_token" c) ;;
        client <-? read_string (member "client_id" c) ;;
        account <-? read_string (member "chatgpt_account_id" c) ;;
        Ok (at_, rt, st, client, account)) (member "credentials" m) ;;
    email <-? read_struct (λ e, read_string (member "email" e)) (member "extra" m) ;;
    let '(at_, rt, st, client, account) := cred in
    Ok {| SaName := name; SaPlatform := platform; SaAccessToken := at_; SaRefreshToken := rt; SaSessionToken := st;
          SaClientID := client; SaChatGPTAccountID := account; SaEmail := email |}).

(** A token file names its fields in one of two ways; only the first has an
    id_token. *)
Definition read_file (at_name rt_name expired_name : string) (has_id : bool) : option json → result tokenFileB :=
  read_struct (λ m,
    at_ <-? read_string (member at_name m) ;;
    rt <-? read_string (member rt_name m) ;;
    _ <-? (if has_id then read_string (member "id_token" m) else Ok "") ;;
    account <-? read_string (member "account_id" m) ;;
    email <-? read_string (member "email" m) ;;
    type <-? read_string (member "type" m) ;;
    client <-? read_string (member "client_id" m) ;;
    expired <-? read_string (member expired_name m) ;;
    Ok {| TbAccessToken := at_; TbRefreshToken := rt; TbAccountID := account; TbEmail := email; TbType := type;
          TbClientID := client; TbExpired := expired |}).

Definition EFile : goerr := EMsg "token 文件缺少必要字段".
Definition EShape : goerr := EMsg "未识别的 JSON 结构(既不是 sub2api 也不是 token 文件)".

Definition one_source (b : result tokenFileB) : result (list ImportSource) :=
  b <-? b ;; match file_source b with Some src => Ok [src] | None => Err EFile end.

Definition parse_flat (m : list (string * json)) : result (list ImportSource) :=
  if bool_decide (is_Some (field "access_token" m)) then
    one_source (read_file "access_token" "refresh_token" "expired" true (Some (JObj m)))
  else if bool_decide (is_Some (field "accessToken" m)) then
    one_source (read_file "accessToken" "refreshToken" "expires" false (Some (JObj m)))
  else Err EShape.

Definition parse_object (m : list (string * json)) : result (list ImportSource) :=
  match field "accounts" m with
  | Some v =>
      match read_slice read_sub (Some v) with
      | Ok accs => Ok (omap sub_source accs)
      | Err _ => parse_flat m
      end
  | None => parse_flat m
  end.

(** Of an array, what can be read; [null] is a nil map. *)
Fixpoint parse_value (v : json) : result (list ImportSource) :=
  match v with
  | JArr l => Ok (List.flat_map (λ i, match parse_value i with Ok xs => xs | Err _ => [] end) l)
  | JObj m => parse_object m
  | JNull => Err EShape
  | _ => Err EType
  end.

Section parsing.
Context (decode : string → option json) (decode_stream : string → list json * bool).

Definition parseSingleJSON (s : string) : result (list ImportSource) :=
  let s := TrimSpace s in
  if String.eqb s "" then Err (EMsg "空 JSON") else
  match decode s with
  | None => Err (EMsg "解析 JSON 失败")
  | Some v => parse_value v
  end.

(** Documents one after the other; the first error is the one reported, when
    nothing can be read. *)
Definition ParseJSONBlob (raw : string) : result (list ImportSource) :=
  let raw := TrimSpace raw in
  if String.eqb raw "" then Err (EMsg "输入为空") else
  match parseSingleJSON raw with
  | Ok ((_ :: _) as xs) => Ok xs
  | _ =>
      let '(docs, broken) := decode_stream raw in
      match List.flat_map (λ v, match parse_value v with Ok xs => xs | Err _ => [] end) docs with
      | [] => match omap (λ v, match parse_value v with Ok _ => None | Err e => Some e end) docs with
              | e :: _ => Err e
              | [] => if broken then Err (EMsg "解析 JSON 失败") else Err (EMsg "无法识别的 JSON 格式")
              end
      | all => Ok all
      end
  end.
End parsing.

(** ** Writing them (importer.go) *)

(** The last source of an address wins, in the place of the first. *)
Definition dedup_step (acc : gmap string nat * list ImportSource) (it : ImportSource) : gmap string nat * list ImportSource :=
  let '(seen, dedup) := acc in
  if String.eqb (ImEmail it) "" then acc else
  let key := ToLower (ImEmail it) in
  match seen !! key with
  | Some idx => (seen, <[idx := it]> dedup)
  | None => (<[key := length dedup]> seen, dedup ++ [it])
  end.
Definition dedup (items : list ImportSource) : list ImportSource := (fold_left dedup_step items (∅, [])).2.

Definition count_line (res : ImportLineResult) (sum : ImportSummary) : ImportSummary :=
  let one st := match LrStatus res, st with
                | Created, Created | Updated, Updated | Skipped, Skipped | LineFailed, LineFailed => 1
                | _, _ => 0
                end in
  {| SumTotal := SumTotal sum; SumCreated := SumCreated sum + one Created; SumUpdated := SumUpdated sum + one Updated;
     SumSkipped := SumSkipped sum + one Skipped; SumFailed := SumFailed sum + one LineFailed;
     Results := Results sum ++ [res] |}.

(** The columns of a new account, and of one that is there. *)
Definition imported_info (it : ImportSource) (client type at_ rt st : string) (expAt : Z) : AccountInfo := {|
  AccEmail := ImEmail it; AuthTokenEnc := at_;
  RefreshTokenEnc := if String.eqb rt "" then None else Some rt;
  SessionTokenEnc := if String.eqb st "" then None else Some st;
  TokenExpiresAt := if expAt =? zero_time then None else Some expAt;
  OAISessionID := ""; OAIDeviceID := ""; ClientID := client; ChatGPTAccountID := ImChatGPTAccountID it;
  AccountType := type; PlanType := "free"; DailyImageQuota := 100; AccStatus := StatusHealthy; AccNotes := "" |}.

Definition reimported_info (i : AccountInfo) (it : ImportSource) (client type at_ rt st : string) (expAt : Z) : AccountInfo := {|
  AccEmail := AccEmail i; AuthTokenEnc := at_;
  RefreshTokenEnc := if String.eqb rt "" then RefreshTokenEnc i else Some rt;
  SessionTokenEnc := if String.eqb st "" then SessionTokenEnc i else Some st;
  TokenExpiresAt := if expAt =? zero_time then TokenExpiresAt i else Some expAt;
  OAISessionID := OAISessionID i; OAIDeviceID := OAIDeviceID i; ClientID := non_empty client (ClientID i);
  ChatGPTAccountID := non_empty (ImChatGPTAccountID it) (ChatGPTAccountID i);
  AccountType := non_empty type (AccountType i); PlanType := PlanType i; DailyImageQuota := DailyImageQuota i;
  AccStatus := if String.eqb (AccStatus i) StatusDead || String.eqb (AccStatus i) StatusSuspicious then StatusHealthy
               else AccStatus i;
  AccNotes := AccNotes i |}.

Section import.
Context {R : Type} (loc : location) {AEAD : Type}
        (Seal : AEAD → list ascii → list ascii → list ascii)
        (Open : AEAD → list ascii → list ascii → result (list ascii))
        (NonceSize Overhead : nat) (cipher : AEAD)
        (url_scheme : string → option string)
        (internet : list exchange → Z → client → question → heard)
        (decode : string → option json) (decode_error : string → string).

Abbreviation process A := (proc (wired R) A).

Definition line (idx : Z) (email : string) (st : line_status) (reason : string) (id : N) : ImportLineResult :=
  {| LrIndex := idx; LrEmail := email; LrStatus := st; LrReason := reason; LrID := id |}.

Definition enc_or_empty (nonce : list ascii) (s : string) : string :=
  if String.eqb s "" then "" else encrypt Seal cipher nonce s.

Definition importOne (idx : Z) (it : ImportSource) (opt : ImportOptions) (rnd : Randomness) : process ImportLineResult :=
  let failed reason := Done (line idx (ImEmail it) LineFailed reason 0%N) in
  if String.eqb (ImAccessToken it) "" then failed "缺少 access_token" else
  t <~ one now ;;
  let t := match t with Ok t => t | Err _ => 0 end in
  let expAt := if ImExpiredAt it =? zero_time then jwt_exp decode decode_error (ImAccessToken it) t else ImExpiredAt it in
  let client := if String.eqb (ImClientID it) "" then DefaultClientID opt else ImClientID it in
  let type := if String.eqb (ImAccountType it) "" then "codex" else ImAccountType it in
  existing <~ one (on_tables (GetByEmail loc (ImEmail it) t)) ;;
  match existing with
  | Err _ => failed "查询失败"
  | Ok existing =>
      let at_ := encrypt Seal cipher (nonce_at rnd) (ImAccessToken it) in
      let rt := enc_or_empty (nonce_rt rnd) (ImRefreshToken it) in
      let st := enc_or_empty (nonce_st rnd) (ImSessionToken it) in
      match existing with
      | None =>
          id <~ one (on_tables (DAOCreate (imported_info it client type at_ rt st expAt))) ;;
          match id with
          | Err _ => failed "入库失败"
          | Ok id => Done (line idx (ImEmail it) Created "" id)
          end
      | Some (id, a) =>
          if negb (UpdateExisting opt) then Done (line idx (ImEmail it) Skipped "邮箱已存在" id) else
          r <~ one (on_tables (DAOUpdate id (reimported_info (AccInfo a) it client type at_ rt st expAt))) ;;
          match r with
          | Err _ => failed "更新失败"
          | Ok _ => Done (line idx (ImEmail it) Updated "" id)
          end
      end
  end.

(** [cancelled i]: the context is done before the [i]th source. *)
Fixpoint import_loop (cancelled : Z → bool) (opt : ImportOptions) (rnd : Z → Randomness) (i : Z)
    (items : list ImportSource) (sum : ImportSummary) : process ImportSummary :=
  match items with
  | [] => Done sum
  | it :: rest =>
      if (0 <? i) && (i mod BatchSize opt =? 0) && cancelled i then
        Done {| SumTotal := SumTotal sum; SumCreated := SumCreated sum; SumUpdated := SumUpdated sum;
                SumSkipped := SumSkipped sum; SumFailed := SumFailed sum + Z.of_nat (length items);
                Results := Results sum ++ [line i "" LineFailed "导入被取消" 0%N] |}
      else
        res <~ importOne i it opt (rnd i) ;;
        import_loop cancelled opt rnd (i + 1) rest (count_line res sum)
  end.

Definition batch_options (opt : ImportOptions) : ImportOptions := {|
  UpdateExisting := UpdateExisting opt;
  DefaultClientID := if String.eqb (DefaultClientID opt) "" then app_client else DefaultClientID opt;
  BatchSize := if BatchSize opt <=? 0 then 200 else BatchSize opt |}.

Definition ImportBatch (cancelled : Z → bool) (items : list ImportSource) (opt : ImportOptions) (rnd : Z → Randomness)
    : process ImportSummary :=
  let items := dedup items in
  import_loop cancelled (batch_options opt) rnd 0 items
    {| SumTotal := Z.of_nat (length items); SumCreated := 0; SumUpdated := 0; SumSkipped := 0; SumFailed := 0; Results := [] |}.

(** ** Bare tokens (importer_tokens.go) *)

Inductive ImportTokenMode := ModeAT | ModeRT | ModeST | ModeUnknown (m : string).

Record ImportTokensOptions := {
  Mode : ImportTokenMode;
  TkClientID : string;
  ProxyURL : string;
  TkUpdateExisting : bool;
  TkDefaultClientID : string;
  TkBatchSize : Z
}.

(** Blanks and a prefix that was copied along come off. *)
Definition clean_token (raw : string) : string :=
  let t := TrimPrefix (TrimPrefix (TrimSpace raw) "Bearer ") "bearer " in
  match Index t "=" with
  | Some i => if (0 <? i)%nat && (i <? 60)%nat && HasPrefix (ToLower t) "__secure-next-auth.session-token"
              then string_drop (i + 1) t else t
  | None => t
  end.

(** Each token once, the first time it comes. *)
Fixpoint clean_tokens (seen : list string) (tokens : list string) : list string :=
  match tokens with
  | [] => []
  | raw :: tokens =>
      if String.eqb (TrimSpace raw) "" then clean_tokens seen tokens else
      let t := clean_token raw in
      if existsb (String.eqb t) seen then clean_tokens seen tokens else t :: clean_tokens (t :: seen) tokens
  end.

(** [v, ok := m[k].(string); ok && v != ""] *)
Definition text_of (k : string) (m : list (string * json)) : option string :=
  match as_string (field k m) with
  | Some v => if String.eqb v "" then None else Some v
  | None => None
  end.
Definition or_else (x : string) (y : option string) : string := if String.eqb x "" then default "" y else x.

(** json.Unmarshal into an interface refuses numbers that no float64 holds. *)
Definition float_of (t : string) : gofloat := ParseFloat_value (λ _, Fin 0) t.
Fixpoint numbers_fit (v : json) : bool :=
  match v with
  | JNum t => match float_of t with Fin _ => true | _ => false end
  | JArr l => forallb numbers_fit l
  | JObj m => forallb (λ p, numbers_fit p.2) m
  | _ => true
  end.

Definition namespaces : list string := ["https://api.openai.com/profile"; "https://api.openai.com/auth"].

Definition claim_step (claims : list (string * json)) (acc : string * string) (ns : string) : string * string :=
  match as_object (field ns claims) with
  | Some m => (or_else acc.1 (text_of "email" m),
               or_else (or_else acc.2 (text_of "chatgpt_account_id" m)) (text_of "user_id" m))
  | None => acc
  end.

(** The address, the account and the expiry a token claims. *)
Definition decodeATClaims (at_ : string) : string + (string * string * Z) :=
  match Split at_ "." with
  | _ :: payload :: _ =>
      match (match base64url_decode payload with Some raw => Some raw | None => base64_decode payload end) with
      | None => inl "base64 解码失败"
      | Some raw =>
          match decode (of_bytes raw) with
          | Some ((JObj _ | JNull) as v) =>
              if negb (numbers_fit v) then inl "claims JSON 解码失败" else
              let claims := default [] (as_object (Some v)) in
              let '(email, account) := fold_left (claim_step claims) namespaces
                (default "" (text_of "email" claims), default "" (text_of "chatgpt_account_id" claims)) in
              let expAt := match field "exp" claims with
                           | Some (JNum t) => match float_of t with
                                              | Fin q => if negb (Qle_bool q 0) then wrap64 (to_int q) * second else zero_time
                                              | _ => zero_time
                                              end
                           | _ => zero_time
                           end in
              inr (email, account, expAt)
          | _ => inl "claims JSON 解码失败"
          end
      end
  | _ => inl "非法 JWT(段数不足)"
  end.

Definition token_source (at_ rt st email account client : string) (expAt : Z) : ImportSource := {|
  ImAccessToken := at_; ImEmail := email; ImRefreshToken := rt; ImSessionToken := st; ImClientID := client;
  ImChatGPTAccountID := account; ImAccountType := "chatgpt"; ImExpiredAt := expAt; ImName := "" |}.

Definition convertATToSource (at_ client : string) : string + ImportSource :=
  match decodeATClaims at_ with
  | inl e => inl ("解析 AT 失败:" +:+ e)
  | inr (email, account, expAt) =>
      if String.eqb email "" then inl "无法从 AT 解出 email,请改用 JSON 或带 email 的导入"
      else inr (token_source at_ "" "" email account client expAt)
  end.

Definition friendlyImportErr (s : string) : string :=
  let low := ToLower s in
  if any_of low ["http=401"; "invalid_grant"] then "token 已失效(401)" else
  if any_of low ["http=403"] then "上游拒绝访问(403)" else
  if any_of low ["http=429"] then "触发速率限制(429),稍后再试" else
  if any_of low ["timeout"; "deadline exceeded"] then "请求超时,建议配代理" else
  if any_of low ["no such host"; "dial tcp"] then "无法连接 openai(建议选择请求代理)" else
  if any_of low ["tls"; "x509"] then "TLS 握手失败" else
  truncate (TrimSpace (without_url s)) 120.

Definition buildImportHTTPClient (proxyURL : string) : client :=
  if String.eqb proxyURL "" then Std None else
  match url_scheme proxyURL with Some _ => Std (Some proxyURL) | None => Std None end.

Definition rtExchange (c : client) (rt clientID : string) : process (string + (string * string * Z)) :=
  a <~ ask internet c (OAuthToken rt clientID) ;;
  match oauth_reply decode decode_error "rt exchange" a with
  | inl e => Done (inl e)
  | inr (at_, newRT, e) =>
      t <~ one now ;;
      let t := match t with Ok t => t | Err _ => 0 end in
      Done (inr (at_, newRT, if 0 <? e then t + wrap64 (e * second) else zero_time))
  end.

Definition stExchange (c : client) (st : string) : process (string + (string * Z)) :=
  a <~ ask internet c (AuthSession st) ;;
  Done (match session_reply decode decode_error "st exchange" "ST 已过期或无效(响应为空)"
                "响应缺少 accessToken 字段,ST 已失效" a with
        | inl e => inl e
        | inr (at_, e) => inr (at_, parsed_expiry e)
        end).

(** A token that was fetched becomes a source when it says whose it is. *)
Definition fetched_source (what at_ rt st client : string) (expAt : Z) : string + ImportSource :=
  match decodeATClaims at_ with
  | inr (String _ _ as email, account, expFromJWT) =>
      inr (token_source at_ rt st email account client (if expAt =? zero_time then expFromJWT else expAt))
  | _ => inl (what +:+ " 换出的 AT 无法解析出 email")
  end.

Definition convertRTToSource (c : client) (rt client : string) : process (string + ImportSource) :=
  r <~ rtExchange c rt client ;;
  Done (match r with
        | inl e => inl ("RT 换 AT 失败:" +:+ friendlyImportErr e)
        | inr (at_, newRT, expAt) => fetched_source "RT" at_ (if String.eqb newRT "" then rt else newRT) "" client expAt
        end).

Definition convertSTToSource (c : client) (st client : string) : process (string + ImportSource) :=
  r <~ stExchange c st ;;
  Done (match r with
        | inl e => inl ("ST 换 AT 失败:" +:+ friendlyImportErr e)
        | inr (at_, expAt) => fetched_source "ST" at_ "" st client expAt
        end).

Definition convert (opts : ImportTokensOptions) (c : client) (clientID t : string) : process (string + ImportSource) :=
  match Mode opts with
  | ModeAT => Done (convertATToSource t clientID)
  | ModeRT => if String.eqb clientID "" then Done (inl "RT 模式需要 APPID(client_id)") else convertRTToSource c t clientID
  | ModeST => convertSTToSource c t clientID
  | ModeUnknown m => Done (inl ("未知模式:" +:+ m))
  end.

(** The sources and the lines that failed; a cancelled context ends it. *)
Fixpoint convert_loop (cancelled : Z → bool) (opts : ImportTokensOptions) (c : client) (clientID : string) (idx : Z)
    (tokens : list string) (items : list ImportSource) (failed : list ImportLineResult)
    : process (list ImportSource * list ImportLineResult) :=
  match tokens with
  | [] => Done (items, failed)
  | t :: tokens =>
      if cancelled idx then Done (items, failed) else
      r <~ convert opts c clientID t ;;
      match r with
      | inl e => convert_loop cancelled opts c clientID (idx + 1) tokens items
                   (failed ++ [line idx "?" LineFailed (truncate e 160) 0%N])
      | inr src => convert_loop cancelled opts c clientID (idx + 1) tokens (items ++ [src]) failed
      end
  end.

Definition ImportTokensBatch (cancelled cancelled_batch : Z → bool) (tokens : list string) (opts : ImportTokensOptions)
    (rnd : Z → Randomness) : process ImportSummary :=
  let default_client := if String.eqb (TkDefaultClientID opts) "" then app_client else TkDefaultClientID opts in
  let clientID := TrimSpace (TkClientID opts) in
  let clientID := match Mode opts with
                  | ModeRT => if String.eqb clientID "" then default_client else clientID
                  | _ => clientID
                  end in
  r <~ convert_loop cancelled opts (buildImportHTTPClient (ProxyURL opts)) clientID 0 (clean_tokens [] tokens) [] [] ;;
  let '(items, failed) := r in
  batch <~ ImportBatch cancelled_batch items {| UpdateExisting := TkUpdateExisting opts; DefaultClientID := clientID;
                                                BatchSize := TkBatchSize opts |} rnd ;;
  let n := Z.of_nat (length failed) in
  Done {| SumTotal := n + SumTotal batch; SumCreated := SumCreated batch; SumUpdated := SumUpdated batch;
          SumSkipped := SumSkipped batch; SumFailed := n + SumFailed batch; Results := failed ++ Results batch |}.
End import.
