(* ===== verification/ImportSpec.v ===== *)
(** * What an import leaves behind

    The lines of the summary of [ImportBatch] are read against the table of
    accounts: what a line says was written is there, nothing else was written,
    and every source has its line. *)

From S2P Require Import Prelude GoStrings GoTime Sql Schema Crypto Settings Models Users System Proc ProxyPool Account Outside Json Refresher Import.

#[local] Open Scope Z_scope.

(** ** One source for each address *)

Definition address (it : ImportSource) : string := ToLower (ImEmail it).

(** [it] is the last of its address, in any letter case. *)
Definition last_of (items : list ImportSource) (it : ImportSource) : Prop :=
  ∃ before after, items = before ++ it :: after ∧ ImEmail it ≠ "" ∧
    ∀ x, x ∈ after → ImEmail x ≠ "" → address x ≠ address it.

Lemma last_of_snoc items x it :
  last_of (items ++ [x]) it ↔ (it = x ∧ ImEmail x ≠ "") ∨ (last_of items it ∧ (ImEmail x ≠ "" → address x ≠ address it)).
Proof.
  split.
  - intros (before & after & E & Hit & Hafter). destruct after as [|y after _] using rev_ind.
    + apply app_inj_tail in E as [_ ->]. auto.
    + rewrite app_comm_cons, app_assoc in E. apply app_inj_tail in E as [-> ->]. right. split.
      * exists before, after. split_and!; [done..|]. intros z Hz. apply Hafter. set_solver.
      * apply Hafter. set_solver.
  - intros [[-> Hx]|[(before & after & -> & Hit & Hafter) Hx]].
    + exists items, []. split_and!; [done..|]. by intros y ?%not_elem_of_nil.
    + exists before, (after ++ [x]). split_and!; [by rewrite <-app_assoc|done|].
      intros y [Hy|Hy%list_elem_of_singleton]%elem_of_app Hne; [by apply Hafter|]. subst. auto.
Qed.

(** What the loop knows after the sources [done]. *)
Record deduped (done : list ImportSource) (acc : gmap string nat * list ImportSource) : Prop := {
  places_right : ∀ k n, acc.1 !! k = Some n ↔ ∃ it, acc.2 !! n = Some it ∧ address it = k;
  kept_last : ∀ it, it ∈ acc.2 ↔ last_of done it
}.

Lemma deduped_step l acc x : deduped l acc → deduped (l ++ [x]) (dedup_step acc x).
Proof.
  destruct acc as [seen d]. intros [Hp Hk]. cbn in *. unfold dedup_step.
  assert (∀ n n' it it', d !! n = Some it → d !! n' = Some it' → address it = address it' → n = n') as Hinj.
  { intros n n' it it' H1 H2 E.
    assert (seen !! address it = Some n) as S1 by (apply Hp; eauto).
    assert (seen !! address it = Some n') as S2 by (apply Hp; eauto). congruence. }
  destruct (String.eqb_spec (ImEmail x) "") as [Hx|Hx].
  { split; [done|]. intros it. rewrite last_of_snoc, Hk. naive_solver. }
  fold (address x). destruct (seen !! address x) as [n|] eqn:Hn; split; cbn.
  - pose proof (proj1 (Hp _ _) Hn) as (y & Hy & Ey). intros k m. rewrite Hp. split.
    + intros (it & Hit & <-). destruct (decide (m = n)) as [->|].
      * exists x. rewrite list_lookup_insert_eq by (by eapply lookup_lt_Some). split; [done|]. rewrite <-Ey. congruence.
      * exists it. by rewrite list_lookup_insert_ne.
    + intros (it & Hit & <-). destruct (decide (m = n)) as [->|].
      * rewrite list_lookup_insert_eq in Hit by (by eapply lookup_lt_Some). injection Hit as <-. eauto.
      * rewrite list_lookup_insert_ne in Hit by done. eauto.
  - pose proof (proj1 (Hp _ _) Hn) as (y & Hy & Ey). intros it. rewrite last_of_snoc, <-Hk. split.
    + intros (m & Hm)%list_elem_of_lookup. destruct (decide (m = n)) as [->|Hmn].
      * rewrite list_lookup_insert_eq in Hm by (by eapply lookup_lt_Some). injection Hm as <-. auto.
      * rewrite list_lookup_insert_ne in Hm by done. right. split; [by eapply list_elem_of_lookup_2|].
        intros _ E. apply Hmn. eapply Hinj; [done..|]. congruence.
    + intros [[-> _]|[Hit Hne]].
      * eapply list_elem_of_lookup_2. apply list_lookup_insert_eq. by eapply lookup_lt_Some.
      * apply list_elem_of_lookup in Hit as [m Hm]. assert (n ≠ m) by (intros ->; naive_solver).
        apply (list_elem_of_lookup_2 _ m). by rewrite list_lookup_insert_ne.
  - intros k m. split.
    + intros [[E1 E2]|[Hne H]]%lookup_insert_Some; [subst k m|].
      * exists x. by rewrite lookup_app_r, Nat.sub_diag.
      * apply Hp in H as (it & Hit & E). exists it. split; [|done]. by apply lookup_app_l_Some.
    + intros (it & [Hit|[Hle Hit]]%lookup_app_Some & E).
      * rewrite lookup_insert_ne; [apply Hp; eauto|]. intros Ex.
        assert (seen !! address x = Some m) by (apply Hp; naive_solver). congruence.
      * apply list_lookup_singleton_Some in Hit as [Hm <-]. assert (m = length d) as -> by lia. subst k.
        by rewrite lookup_insert_eq.
  - intros it. rewrite elem_of_app, list_elem_of_singleton, last_of_snoc, <-Hk. split.
    + intros [Hit| ->]; [right|auto]. split; [done|]. intros _ E.
      apply list_elem_of_lookup in Hit as [m Hm].
      assert (seen !! address x = Some m) by (apply Hp; eauto). congruence.
    + naive_solver.
Qed.

Lemma dedup_fold items : deduped items (fold_left dedup_step items (∅, [])).
Proof.
  induction items as [|x items IH] using rev_ind.
  - split; cbn; intros.
    + split; [done|]. intros (it & H & _). done.
    + split; [by intros ?%not_elem_of_nil|]. intros (before & after & E & _). by destruct before.
  - rewrite fold_left_app. by apply deduped_step.
Qed.

Lemma dedup_spec items it : it ∈ dedup items ↔ last_of items it.
Proof. apply (kept_last _ _ (dedup_fold items)). Qed.

Lemma dedup_elem it items : it ∈ dedup items → it ∈ items.
Proof. intros (before & after & -> & _)%dedup_spec. set_solver. Qed.

Lemma dedup_NoDup items : NoDup (map address (dedup items)).
Proof.
  apply NoDup_alt. intros i j k Hi Hj. rewrite list_lookup_fmap in Hi, Hj.
  destruct (dedup items !! i) as [x|] eqn:Ei, (dedup items !! j) as [y|] eqn:Ej; simplify_eq/=.
  destruct (dedup_fold items) as [Hp _]. unfold dedup in *.
  assert (∀ n it, (fold_left dedup_step items (∅, [])).2 !! n = Some it → address it = address x →
    (fold_left dedup_step items (∅, [])).1 !! address x = Some n) as H by (intros; apply Hp; eauto).
  assert (Some i = Some j) as [= ->]; [|done]. by rewrite <-(H i x Ei eq_refl), <-(H j y Ej).
Qed.

(** ** One line *)

Section import_spec.
Context {R : Type} (loc : location) {AEAD : Type}
        (Seal : AEAD → list ascii → list ascii → list ascii)
        (Open : AEAD → list ascii → list ascii → result (list ascii))
        (NonceSize Overhead : nat) (cipher : AEAD)
        (decode : string → option json) (decode_error : string → string).
Hypothesis open_seal : ∀ n p, length n = NonceSize → Open cipher n (Seal cipher n p) = Ok p.
Hypothesis seal_length : ∀ n p, length (Seal cipher n p) = (length p + Overhead)%nat.

Abbreviation importOne := (importOne (R := R) loc Seal cipher decode decode_error).
Abbreviation import_loop := (import_loop (R := R) loc Seal cipher decode decode_error).
Abbreviation ImportBatch := (ImportBatch (R := R) loc Seal cipher decode decode_error).
Abbreviation decrypt := (decrypt Open NonceSize Overhead cipher).

Definition accounts (w : world (wired R)) : gmap N Account := oai_accounts (sys_db (w_sys (w_db w))).

(** A column that holds a token, if there was one. *)
Definition holds (column : option string) (token : string) : Prop :=
  token = "" ∨ ∃ enc, column = Some enc ∧ decrypt enc = Ok token.

(** The account of the source: its tokens, in service. *)
Definition bears (a : Account) (it : ImportSource) : Prop :=
  active a = true ∧ AccEmail (AccInfo a) = ImEmail it ∧
  decrypt (AuthTokenEnc (AccInfo a)) = Ok (ImAccessToken it) ∧
  holds (RefreshTokenEnc (AccInfo a)) (ImRefreshToken it) ∧ holds (SessionTokenEnc (AccInfo a)) (ImSessionToken it) ∧
  AccStatus (AccInfo a) ≠ StatusDead ∧ AccStatus (AccInfo a) ≠ StatusSuspicious.

Definition written (l : ImportLineResult) : Prop := LrStatus l = Created ∨ LrStatus l = Updated.

Definition randomness_fits (rnd : Randomness) : Prop :=
  length (nonce_at rnd) = NonceSize ∧ length (nonce_rt rnd) = NonceSize ∧ length (nonce_st rnd) = NonceSize.

(** What a line says of the accounts before and after it. *)
Definition line_true (opt : ImportOptions) (it : ImportSource) (l : ImportLineResult) (m m' : gmap N Account) : Prop :=
  LrEmail l = ImEmail it ∧
  match LrStatus l with
  | Created => m !! LrID l = None ∧ ∃ a, bears a it ∧ m' = <[LrID l := a]> m
  | Updated => UpdateExisting opt = true ∧ ∃ a0 a, m !! LrID l = Some a0 ∧ active a0 = true ∧
                 AccEmail (AccInfo a0) = ImEmail it ∧ bears a it ∧ m' = <[LrID l := a]> m
  | Skipped => UpdateExisting opt = false ∧ m' = m
  | LineFailed => m' = m
  end.

Lemma tables_exec {B} (f : database → result (B * database)) w r w' :
  on_tables (R := R) (exec f) w = (r, w') →
  ((∃ e, r = Err e) ∧ accounts w' = accounts w) ∨
  ∃ b d', f (sys_db (w_sys (w_db w))) = Ok (b, d') ∧ r = Ok b ∧ accounts w' = oai_accounts d'.
Proof.
  rewrite on_tables_spec. unfold exec, call, accounts. destruct w as [[s x] [|[] fs]]; cbn.
  - destruct (f _) as [[b d']|e] eqn:Hf; cbn; intros [= <- <-]; cbn; [right; eauto|left; split; [by eexists|done]].
  - intros [= <- <-]. left. cbn. split; [by eexists|done].
  - destruct (f _) as [[b d']|e] eqn:Hf; cbn; intros [= <- <-]; cbn; [right; eauto|left; split; [by eexists|done]].
Qed.

Lemma tables_query {B} (f : database → result B) w r w' :
  on_tables (R := R) (query f) w = (r, w') →
  accounts w' = accounts w ∧ ∀ b, r = Ok b → f (sys_db (w_sys (w_db w))) = Ok b ∧ sys_db (w_sys (w_db w')) = sys_db (w_sys (w_db w)).
Proof.
  rewrite on_tables_spec. unfold query, call, accounts. by destruct w as [[s x] [|[] fs]]; cbn; intros [= <- <-].
Qed.

Lemma holds_enc nonce token : length nonce = NonceSize →
  holds (if String.eqb (enc_or_empty Seal cipher nonce token) "" then None else Some (enc_or_empty Seal cipher nonce token)) token.
Proof.
  intros Hn. unfold holds, enc_or_empty. destruct (String.eqb_spec token "") as [->|]; [by left|].
  destruct (String.eqb_spec (encrypt Seal cipher nonce token) "") as [E|_].
  - left. by eapply encrypt_empty.
  - right. eexists. split; [done|]. by apply (decrypt_encrypt Seal).
Qed.

Lemma holds_kept column nonce token : length nonce = NonceSize →
  holds (if String.eqb (enc_or_empty Seal cipher nonce token) "" then column else Some (enc_or_empty Seal cipher nonce token)) token.
Proof.
  intros Hn. pose proof (holds_enc nonce token Hn) as H. destruct (String.eqb _ ""); [|done].
  destruct H as [->|(enc & [=] & _)]. by left.
Qed.

Lemma importOne_line i it opt rnd w l w' :
  randomness_fits rnd → exec_proc (importOne i it opt rnd) w = (l, w') → line_true opt it l (accounts w) (accounts w').
Proof.
  intros (Hat & Hrt & Hst). unfold Import.importOne. cbn zeta.
  destruct (String.eqb (ImAccessToken it) ""); [by intros [= <- <-]|].
  rewrite exec_pbind_one. destruct (now_spec (R := R) w) as (_ & _ & Hnow & _).
  assert (accounts (now w).2 = accounts w) as Hm by (unfold accounts; by rewrite Hnow).
  generalize dependent (now w).2. intros w1 Hnow Hm. rewrite exec_pbind_one.
  destruct (on_tables _ w1) as [existing w2] eqn:Hget. apply tables_query in Hget as [Hm2 Hget]. cbn [fst snd].
  assert (accounts w2 = accounts w) as Hm2' by congruence.
  destruct existing as [existing|]; [|by intros [= <- <-]]. destruct (Hget _ eq_refl) as [Hrow Hsame]. clear Hget.
  injection Hrow as Hrow. destruct (head _) as [[id a]|] eqn:Hhead; subst existing.
  - apply head_rows_where in Hhead as [Ha [Ee%String.eqb_eq Hact]%andb_true_iff]. rewrite Hnow in Ha. fold (accounts w) in Ha.
    destruct (UpdateExisting opt) eqn:Hopt; cbn [negb]; [|by intros [= <- <-]].
    rewrite exec_pbind_one. destruct (on_tables _ w2) as [r w3] eqn:Hupd.
    apply tables_exec in Hupd as [[[e ->] Hm3]|(b & d' & Hupd & -> & Hm3)]; intros [= <- <-]; (split; [done|]); cbn [fst snd LrStatus line].
    { congruence. }
    split; [done|]. revert Hupd. fold (accounts w2). rewrite Hm2', Ha, Hact. cbn [negb].
    destruct (email_taken _ _ _); [done|]. intros [= _ <-]. eexists a, _. split_and!; [done..| |by rewrite Hm3; cbn; fold (accounts w2); rewrite Hm2'].
    match goal with |- context [fill loc ?t a] => destruct (fill_info loc t a) as [Hfi Hfd] end.
    unfold bears. cbn [AccInfo with_info reimported_info AccEmail AuthTokenEnc RefreshTokenEnc SessionTokenEnc AccStatus].
    rewrite ?Hfi. split_and!; [done|done|by apply (decrypt_encrypt Seal)|by apply holds_kept|by apply holds_kept|..].
    all: destruct (String.eqb_spec (AccStatus (AccInfo a)) StatusDead), (String.eqb_spec (AccStatus (AccInfo a)) StatusSuspicious); cbn; done.
  - rewrite exec_pbind_one. destruct (on_tables _ w2) as [r w3] eqn:Hins.
    apply tables_exec in Hins as [[[e ->] Hm3]|(b & d' & Hins & -> & Hm3)]; intros [= <- <-]; (split; [done|]); cbn [fst snd LrStatus LrID line].
    { congruence. }
    revert Hins. unfold insert_account. destruct (email_taken _ _ _); [done|]. fold (accounts w2). rewrite Hm2'. intros [= <- <-].
    split; [apply auto_id_fresh|]. eexists. split; [|by rewrite Hm3; cbn; fold (accounts w2); rewrite Hm2'].
    unfold bears. cbn. split_and!; [done|done|by apply (decrypt_encrypt Seal)|by apply holds_enc|by apply holds_enc|done|done].
Qed.
(** ** All lines *)

(** What the lines of [items] say of the accounts before and after them. *)
Record lines_true (opt : ImportOptions) (items : list ImportSource) (lines : list ImportLineResult) (m m' : gmap N Account) := {
  lines_written : ∀ l, l ∈ lines → written l → ∃ it a, it ∈ items ∧ LrEmail l = ImEmail it ∧ m' !! LrID l = Some a ∧ bears a it ∧
    match m !! LrID l with
    | None => LrStatus l = Created
    | Some a0 => LrStatus l = Updated ∧ UpdateExisting opt = true ∧ active a0 = true ∧ AccEmail (AccInfo a0) = ImEmail it
    end;
  lines_only : ∀ id, m' !! id = m !! id ∨ ∃ l, l ∈ lines ∧ written l ∧ LrID l = id;
  rows_stay : ∀ id a, m !! id = Some a → ∃ a', m' !! id = Some a' ∧ AccEmail (AccInfo a') = AccEmail (AccInfo a)
}.

Lemma lines_true_none opt items lines m : (∀ l, l ∈ lines → LrStatus l = LineFailed) → lines_true opt items lines m m.
Proof. intros H. split; [|by left|eauto]. intros l Hl [E|E]; by rewrite (H l Hl) in E. Qed.

Lemma line_true_one opt it l m m' : line_true opt it l m m' → lines_true opt [it] [l] m m'.
Proof.
  intros [He Hl]. destruct (LrStatus l) eqn:Es; [| |destruct Hl as [_ ->]|subst].
  - destruct Hl as [Hn (a & Ha & ->)]. split.
    + intros l' ->%list_elem_of_singleton _. exists it, a. rewrite lookup_insert_eq, Hn. split_and!; [by left|done..].
    + intros id. destruct (decide (LrID l = id)); [right|left; by rewrite lookup_insert_ne].
      exists l. split_and!; [by left|by left|done].
    + intros id a' Ha'. exists a'. rewrite lookup_insert_ne; [done|congruence].
  - destruct Hl as (Hopt & a0 & a & Ha0 & Hact & He0 & Ha & ->). split.
    + intros l' ->%list_elem_of_singleton _. exists it, a. rewrite lookup_insert_eq, Ha0. split_and!; [by left|done..].
    + intros id. destruct (decide (LrID l = id)); [right|left; by rewrite lookup_insert_ne].
      exists l. split_and!; [by left|by right|done].
    + intros id a' Ha'. destruct (decide (LrID l = id)) as [<-|]; [|exists a'; by rewrite lookup_insert_ne].
      exists a. rewrite lookup_insert_eq. destruct Ha as (_ & -> & _). split; congruence.
  - split; [|by left|eauto]. intros l' ->%list_elem_of_singleton [|]; congruence.
  - by apply lines_true_none; intros l' ->%list_elem_of_singleton.
Qed.

Lemma lines_true_app opt items1 items2 lines1 lines2 m m1 m' :
  (∀ it1 it2, it1 ∈ items1 → it2 ∈ items2 → ImEmail it1 ≠ ImEmail it2) →
  lines_true opt items1 lines1 m m1 → lines_true opt items2 lines2 m1 m' →
  lines_true opt (items1 ++ items2) (lines1 ++ lines2) m m'.
Proof.
  intros Hd H1 H2. split.
  - intros l [Hl|Hl]%elem_of_app Hw.
    + destruct (lines_written _ _ _ _ _ H1 l Hl Hw) as (it & a & Hit & He & Ha & Hb & Hm).
      destruct (lines_only _ _ _ _ _ H2 (LrID l)) as [E|(l' & Hl' & Hw' & Eid)].
      { exists it, a. rewrite elem_of_app, E. auto. }
      exfalso. destruct (lines_written _ _ _ _ _ H2 l' Hl' Hw') as (it' & a' & Hit' & _ & _ & _ & Hm').
      rewrite Eid, Ha in Hm'. destruct Hm' as (_ & _ & _ & E). destruct Hb as (_ & E' & _).
      apply (Hd it it'); congruence.
    + destruct (lines_written _ _ _ _ _ H2 l Hl Hw) as (it & a & Hit & He & Ha & Hb & Hm).
      exists it, a. rewrite elem_of_app. split_and!; [auto|done..|].
      destruct (lines_only _ _ _ _ _ H1 (LrID l)) as [E|(l' & Hl' & Hw' & Eid)]; [by rewrite <-E|].
      exfalso. destruct (lines_written _ _ _ _ _ H1 l' Hl' Hw') as (it' & a' & Hit' & _ & Ha' & Hb' & _).
      rewrite <-Eid, Ha' in Hm. destruct Hm as (_ & _ & _ & E). destruct Hb' as (_ & E' & _).
      apply (Hd it' it); congruence.
  - intros id. destruct (lines_only _ _ _ _ _ H2 id) as [->|(l & Hl & ?)]; [|right; exists l; rewrite elem_of_app; auto].
    destruct (lines_only _ _ _ _ _ H1 id) as [->|(l & Hl & ?)]; [by left|right; exists l; rewrite elem_of_app; auto].
  - intros id a Ha. destruct (rows_stay _ _ _ _ _ H1 id a Ha) as (a1 & Ha1 & <-). by apply (rows_stay _ _ _ _ _ H2).
Qed.

Definition tallied (sum : ImportSummary) : Z := SumCreated sum + SumUpdated sum + SumSkipped sum + SumFailed sum.

(** The lines with a status; the counters tell their number, and without a
    cancellation that of the failures too. *)
#[local] Instance line_status_eq : EqDecision line_status.
Proof. solve_decision. Defined.
Definition lines_with (st : line_status) (sum : ImportSummary) : Z :=
  Z.of_nat (length (filter (λ l, LrStatus l = st) (Results sum))).
Definition counted (sum : ImportSummary) : Prop :=
  SumCreated sum = lines_with Created sum ∧ SumUpdated sum = lines_with Updated sum ∧ SumSkipped sum = lines_with Skipped sum.

Lemma lines_with_snoc st ls l :
  Z.of_nat (length (filter (λ l, LrStatus l = st) (ls ++ [l]))) =
  Z.of_nat (length (filter (λ l, LrStatus l = st) ls)) + (if decide (LrStatus l = st) then 1 else 0).
Proof. rewrite filter_app, length_app, filter_cons. destruct (decide _); cbn; lia. Qed.

Lemma count_line_counted l sum :
  (counted sum → counted (count_line l sum)) ∧
  (SumFailed sum = lines_with LineFailed sum → SumFailed (count_line l sum) = lines_with LineFailed (count_line l sum)).
Proof.
  unfold counted, lines_with. cbn [count_line SumCreated SumUpdated SumSkipped SumFailed Results]. rewrite !lines_with_snoc.
  split; [intros (-> & -> & ->)|intros ->]; destruct (LrStatus l); repeat case_decide; try done; split_and?; lia.
Qed.

Lemma import_loop_counts cancelled opt rnd items : ∀ i sum (w : world (wired R)),
  let sum' := (exec_proc (import_loop cancelled opt rnd i items sum) w).1 in
  (counted sum → counted sum') ∧
  ((∀ i, cancelled i = false) → SumFailed sum = lines_with LineFailed sum → SumFailed sum' = lines_with LineFailed sum').
Proof.
  cbv zeta. induction items as [|it items IH]; intros i sum w; cbn [Import.import_loop]; [done|].
  destruct (_ && _ && _) eqn:Hc.
  - split; [|intros H; by rewrite H, andb_false_r in Hc].
    unfold counted, lines_with. cbn [exec_proc fst SumCreated SumUpdated SumSkipped Results]. rewrite !lines_with_snoc.
    intros (-> & -> & ->). cbn. repeat case_decide; try done; split_and!; lia.
  - rewrite exec_pbind. destruct (exec_proc (importOne i it opt (rnd i)) w) as [l w1]. cbn [fst snd].
    destruct (IH (i + 1) (count_line l sum) w1) as [H1 H2], (count_line_counted l sum) as [H3 H4]. split; auto.
Qed.

Lemma import_loop_lines cancelled opt rnd items : ∀ i sum w sum' w',
  (∀ i, randomness_fits (rnd i)) → NoDup (map ImEmail items) →
  exec_proc (import_loop cancelled opt rnd i items sum) w = (sum', w') →
  SumTotal sum' = SumTotal sum ∧ tallied sum' = tallied sum + Z.of_nat (length items) ∧
  ∃ lines, Results sum' = Results sum ++ lines ∧ lines_true opt items lines (accounts w) (accounts w') ∧
    ((∀ i, cancelled i = false) → map LrEmail lines = map ImEmail items).
Proof.
  induction items as [|it items IH]; intros i sum w sum' w' Hrnd Hd; cbn [Import.import_loop].
  { intros [= <- <-]. split_and!; [done|cbn; lia|]. exists []. rewrite app_nil_r. split_and!; [done| |done].
    apply lines_true_none. by intros l ?%not_elem_of_nil. }
  destruct (_ && _ && _) eqn:Hc.
  { intros [= <- <-]. split_and!; [done|unfold tallied; cbn [SumCreated SumUpdated SumSkipped SumFailed length]; lia|].
    eexists. split_and!; [done|by apply lines_true_none; intros l ->%list_elem_of_singleton|].
    intros H. by rewrite H, andb_false_r in Hc. }
  rewrite exec_pbind. destruct (exec_proc (importOne i it opt (rnd i)) w) as [l w1] eqn:E. apply importOne_line in E; [|done].
  cbn [fst snd]. cbn [map] in Hd. apply NoDup_cons in Hd as [Hit Hd]. intros Hrun.
  destruct (IH _ _ _ _ _ Hrnd Hd Hrun) as (HT & Hn & lines & Hres & Hlines & Hall).
  split_and!; [done| |].
  - rewrite Hn. unfold tallied. cbn [count_line SumCreated SumUpdated SumSkipped SumFailed length].
    destruct (LrStatus l); lia.
  - exists (l :: lines). split_and!; [rewrite Hres; cbn; by rewrite <-app_assoc| |].
    + apply (lines_true_app opt [it] items [l] lines _ (accounts w1)); [|by apply line_true_one|done].
      intros it1 it2 ->%list_elem_of_singleton Hin Heq. apply Hit. rewrite Heq. by apply list_elem_of_fmap_2.
    + intros Hc'. cbn. f_equal; [apply E|auto].
Qed.

(** C22: the summary of an import is the truth.  Whichever statements fail and
    whenever the request is cancelled: every source that is the last of its
    address counts once, as created, updated, skipped or failed, the first
    three as often as there are such lines, and without a cancellation it has
    its line and the failures are as many as the lines that say so; an account was written exactly where a line
    says so, and then holds the tokens of that source, readable, under its
    address and in service; a line says created where there was no such
    account, and updated, which the options must allow, where a live account
    bore the address; no account goes, and none changes its address. *)
Theorem import_accounted cancelled items opt rnd w sum w' :
  (∀ i, randomness_fits (rnd i)) →
  exec_proc (ImportBatch cancelled items opt rnd) w = (sum, w') →
  SumTotal sum = Z.of_nat (length (dedup items)) ∧ SumTotal sum = tallied sum ∧ counted sum ∧
  ((∀ i, cancelled i = false) → SumFailed sum = lines_with LineFailed sum) ∧
  (∀ l, l ∈ Results sum → written l → ∃ it a, last_of items it ∧ LrEmail l = ImEmail it ∧
     accounts w' !! LrID l = Some a ∧ bears a it ∧
     match accounts w !! LrID l with
     | None => LrStatus l = Created
     | Some a0 => LrStatus l = Updated ∧ UpdateExisting opt = true ∧ active a0 = true ∧ AccEmail (AccInfo a0) = ImEmail it
     end) ∧
  (∀ id, accounts w' !! id = accounts w !! id ∨ ∃ l, l ∈ Results sum ∧ written l ∧ LrID l = id) ∧
  (∀ id a, accounts w !! id = Some a → ∃ a', accounts w' !! id = Some a' ∧ AccEmail (AccInfo a') = AccEmail (AccInfo a)) ∧
  ((∀ i, cancelled i = false) → ∀ it, last_of items it → ∃ l, l ∈ Results sum ∧ LrEmail l = ImEmail it).
Proof.
  intros Hrnd. unfold Import.ImportBatch. cbn zeta. intros Hrun.
  match type of Hrun with exec_proc (import_loop _ ?o _ ?i ?its ?s0) _ = _ =>
    destruct (import_loop_counts cancelled o rnd its i s0 w) as [Hc1 Hc2]; rewrite Hrun in Hc1, Hc2; cbn [fst] in Hc1, Hc2 end.
  apply import_loop_lines in Hrun as (HT & Hn & lines & Hres & [H1 H2 H3] & Hall); [|done|].
  - cbn [Results app] in Hres. subst lines. rewrite HT, Hn. split_and!;
      [done|unfold tallied; cbn [SumTotal SumCreated SumUpdated SumSkipped SumFailed]; lia|by apply Hc1|by intros Hc; apply Hc2| |done|done|].
    + intros l Hl Hw. destruct (H1 l Hl Hw) as (it & a & Hit & H). exists it, a. by rewrite <-dedup_spec.
    + intros Hc it Hit%dedup_spec. assert (ImEmail it ∈ map ImEmail (dedup items)) as Hm by by apply list_elem_of_fmap_2.
      rewrite <-(Hall Hc) in Hm. apply list_elem_of_fmap in Hm as (l & He & Hl). eauto.
  - pose proof (dedup_NoDup items) as Hd. unfold address in Hd. rewrite <-(map_map ImEmail ToLower) in Hd.
    by apply NoDup_fmap_1 in Hd.
Qed.
End import_spec.

(** Two exports of one account, of which the later counts, and a new account. *)
Definition sample_wired : wired unit :=
  Wired {| sys_db := pool_db; sys_redis := (); sys_now := 1000; sys_delays := []; sys_uuids := 0;
           sys_models := NewRegistry; sys_groups := empty_cache |} [].
Definition sample_source (email at_ rt : string) : ImportSource := {|
  ImAccessToken := at_; ImEmail := email; ImRefreshToken := rt; ImSessionToken := ""; ImClientID := "";
  ImChatGPTAccountID := ""; ImAccountType := ""; ImExpiredAt := 0; ImName := "" |}.
Definition sample_sources : list ImportSource :=
  [sample_source "A@x" "old" ""; sample_source "c@x" "at of c" "rt of c"; sample_source "a@x" "at of a" ""].
Definition sample_import := exec_proc (ImportBatch UTC toy_seal tt (λ _, None) (λ s, s) (λ _, false) sample_sources
  {| UpdateExisting := true; DefaultClientID := ""; BatchSize := 0 |} (λ _, sample_randomness)) (World sample_wired []).

Example sample_lines : map (λ l, (LrEmail l, LrStatus l, LrID l)) (Results sample_import.1) =
  [("a@x", Updated, 1%N); ("c@x", Created, 3%N)].
Proof. by vm_compute. Qed.

Lemma import_accounted_witness : SumTotal sample_import.1 = tallied sample_import.1 ∧ counted sample_import.1 ∧
  SumFailed sample_import.1 = lines_with LineFailed sample_import.1 ∧
  ∀ it, last_of sample_sources it → ∃ l, l ∈ Results sample_import.1 ∧ LrEmail l = ImEmail it.
Proof.
  unfold sample_import. destruct (exec_proc _ _) as [sum w'] eqn:E.
  destruct (import_accounted UTC toy_seal toy_open 12 16 tt (λ _, None) (λ s, s) toy_open_seal toy_seal_length (λ _, false)
    sample_sources _ (λ _, sample_randomness) (World sample_wired []) sum w' (λ _, conj eq_refl (conj eq_refl eq_refl)) E)
    as (_ & H & Hcount & Hfail & _ & _ & _ & Hall).
  split; [exact H|]. split; [exact Hcount|]. split; [exact (Hfail (λ _, eq_refl))|exact (Hall (λ _, eq_refl))].
Defined.
