(* ===== verification/AccountPages.v ===== *)
(** * The pages of the account pool (internal/account/handler.go)

    What an administrator's requests do to the accounts.  A page ends in an
    answer and may wake the loops of the refresher and the prober.  The server
    wires all the parts a page asks for.  A body is [None] when it does not
    bind; [error_text] is the text of an error. *)

From stdpp Require Import strings.
From S2P Require Import Prelude GoStrings GoTime Sql Schema Crypto Settings System Proc ProxyPool Account Rbac Access Answers Outside Json Refresher Prober Import.

#[local] Open Scope Z_scope.

Inductive loop := RefreshLoop | ProbeLoop.

Definition ParseUint_value (s : string) : N :=
  match bytes s with
  | [] => 0%N
  | l => match digits_value 0 l with Some v => Z.to_N (Z.min v (2 ^ 64 - 1)) | None => 0%N end
  end.

(** The lines of a text, trimmed, without the empty ones. *)
Fixpoint crlf_to_lf (l : list ascii) : list ascii :=
  match l with
  | a :: ((b :: l') as r) => if Ascii.eqb a "013" && Ascii.eqb b "010" then "010"%char :: crlf_to_lf l' else a :: crlf_to_lf r
  | _ => l
  end.
Definition splitLines (s : string) : list string :=
  omap (λ p, let t := TrimSpace p in if String.eqb t "" then None else Some t)
    (Split (of_bytes (crlf_to_lf (bytes s))) "010").

(** The tokens of a request: an array, of which what is no string decodes to
    an empty one; or lines. *)
Definition token_lines (raw : option json) : list string :=
  match raw with
  | Some (JArr l) => map (λ v, match v with JStr s => s | _ => "" end) l
  | Some (JStr s) => splitLines s
  | _ => []
  end.

Definition parse_mode (s : string) : ImportTokenMode :=
  let m := ToLower (TrimSpace s) in
  if String.eqb m "" || String.eqb m "at" then ModeAT else
  if String.eqb m "rt" then ModeRT else if String.eqb m "st" then ModeST else ModeUnknown m.

Definition boolStr (b : bool) : string := if b then "true" else "false".

(** The body of an import: a document, or a form with files ([None]: a file
    that cannot be read). *)
Inductive import_body :=
  | ImportJSON (body : option (string * option bool * string))
  | ImportForm (text update_existing client : string) (files : option (list (option string))).

Definition lf : string := String "010" "".
Definition form_text (text : string) (files : option (list (option string))) : string :=
  match files with
  | None => text
  | Some files =>
      (if String.eqb text "" then "" else text +:+ lf) +:+
      concat_strings (map (λ f, match f with
                                | Some data => if String.eqb data "" then "" else data +:+ lf
                                | None => ""
                                end) files)
  end.

Record tokens_body := {
  BodyMode : string;
  BodyTokens : option json;
  BodyClientID : string;
  BodyUpdateExisting : option bool;
  BodyProxyID : N
}.

Section pages.
Context {R : Type} (loc : location) {AEAD : Type}
        (Seal : AEAD → list ascii → list ascii → list ascii)
        (Open : AEAD → list ascii → list ascii → result (list ascii))
        (NonceSize Overhead : nat) (cipher : AEAD)
        (url_scheme : string → option string)
        (internet : list exchange → Z → client → question → heard)
        (decode : string → option json) (decode_stream : string → list json * bool) (decode_error : string → string)
        (like : string → string → bool) (error_text : goerr → string).

Abbreviation process A := (proc (wired R) A).
Abbreviation page A := (proc (wired R) (answer A * list loop)).
Abbreviation RefreshByID := (RefreshByID loc Seal Open NonceSize Overhead cipher url_scheme internet decode decode_error).
Abbreviation ProbeByID := (ProbeByID loc Open NonceSize Overhead cipher url_scheme internet decode decode_error).

Definition reply {A} (a : answer A) : page A := Done (a, []).
Definition unbound : string := "请求参数错误".

(** Statements that look at the clock, and that do not. *)
Definition at_now {A B} (m : Z → DBM A) (k : result A → page B) : page B :=
  t <~ one now ;;
  r <~ one (on_tables (m (match t with Ok t => t | Err _ => 0 end))) ;;
  k r.

Definition statement {A B} (m : DBM A) (k : result A → page B) : page B := r <~ one (on_tables m) ;; k r.

Definition or_internal {A B} (f : A → B) (r : result A) : page B :=
  reply match r with Ok a => OK (f a) | Err e => Internal (error_text e) end.
Definition or_not_found {A B} (f : A → B) (r : result A) : page B :=
  reply match r with
        | Ok a => OK (f a)
        | Err e => if errors_Is e ErrNotFound then NotFound (error_text e) else Internal (error_text e)
        end.

(** [Service.Create] and [Service.Update], one statement after the other, as
    the requests beside them see it. *)
Abbreviation claim := (exp_claim decode decode_error).
Definition create_account (inp : Input) (rnd : Randomness) : process (result (N * Account)) :=
  if String.eqb (InEmail inp) "" || String.eqb (InAuthToken inp) "" then
    Done (Err (EMsg "email 和 auth_token 不能为空")) else
  t <~? one now ;;
  id <~? one (on_tables (DAOCreate (created_info Seal cipher claim inp rnd t))) ;;
  _ <~? one (on_tables (store_cookies Seal cipher id inp rnd)) ;;
  a <~? one (on_tables (GetByID loc id t)) ;;
  Done (Ok (id, a)).

Definition edit_account (id : N) (inp : Input) (rnd : Randomness) : process (result Account) :=
  t <~? one now ;;
  a <~? one (on_tables (GetByID loc id t)) ;;
  let i := updated_info Seal cipher claim (AccInfo a) inp rnd t in
  _ <~? one (on_tables (DAOUpdate id i)) ;;
  _ <~? one (on_tables (store_cookies Seal cipher id inp rnd)) ;;
  Done (Ok (with_info i a)).

Definition CreatePage (body : option Input) (rnd : Randomness) : page (N * Account) :=
  match body with
  | None => reply (BadRequest unbound)
  | Some inp => r <~ create_account inp rnd ;; or_internal id r
  end.

Definition QuotaSummaryPage : page QuotaSummary := statement SumQuota (or_internal id).

(** The page and its size. *)
Definition paging (page size : option string) : Z * Z :=
  let p := ParseInt_value (default "1" page) in
  let s := ParseInt_value (default "10" size) in
  let s := if s <? 1 then 10 else s in
  (if p <? 1 then 1 else p, if 1000 <? s then 1000 else s).

Definition listed (list_ : string → string → Z → Z → Z → DBM (list (N * Account) * Z))
    (p size : option string) (status keyword : string) : page (list (N * Account) * Z * Z * Z) :=
  let '(p, s) := paging p size in
  at_now (list_ status keyword (wrap64 ((p - 1) * s)) s) (or_internal (λ r, (r.1, r.2, p, s))).
Definition ListPage := listed (List_ loc like).
Definition ListDeletedPage := listed (ListDeleted loc like).

Definition GetPage (param : string) : page Account :=
  at_now (GetByID loc (ParseUint_value param))
    (λ r, reply match r with Ok a => OK a | Err e => NotFound (error_text e) end).

Definition UpdatePage (param : string) (body : option Input) (rnd : Randomness) : page Account :=
  match body with
  | None => reply (BadRequest unbound)
  | Some inp => r <~ edit_account (ParseUint_value param) inp rnd ;; or_internal id r
  end.

Definition DeletePage (param : string) : page N :=
  let id := ParseUint_value param in at_now (Account.Delete id) (or_internal (λ _, id)).

Definition RestorePage (param : string) : page Account :=
  at_now (Account.Restore loc (ParseUint_value param)) (or_not_found id).

Definition PurgePage (param : string) : page N :=
  let id := ParseUint_value param in statement (Account.Purge id) (or_not_found (λ _, id)).

Definition GetSecretsPage (param : string) : page AccountSecrets :=
  at_now (GetSecrets loc Open NonceSize Overhead cipher (ParseUint_value param)) (or_internal id).

Definition scopes : list string := ["dead"; "suspicious"; "warned"; "throttled"; "all"].

Definition BulkDelete (body : option string) : page (N * string) :=
  match body with
  | None => reply (BadRequest unbound)
  | Some scope =>
      if String.eqb scope "" then reply (BadRequest unbound) else
      let scope := ToLower (TrimSpace scope) in
      if negb (existsb (String.eqb scope) scopes) then
        reply (BadRequest "scope 仅支持 dead / suspicious / warned / throttled / all")
      else at_now (BulkDeleteByStatus scope) (or_internal (λ n, (n, scope)))
  end.

(** ** The switch of the refresher *)

Definition GetAutoRefresh (c : cache) : page (bool * Z) :=
  reply (OK (AccountRefreshEnabled c, AccountRefreshAheadSec c)).

(** The settings after it come with the answer; [flip]: the order in which Go
    ranges over the map. *)
Definition SetAutoRefresh (c : cache) (body : option bool) (flip : bool) : process (answer (bool * Z) * list loop * cache) :=
  match body with
  | None => Done (BadRequest unbound, [], c)
  | Some enabled =>
      let updates := [(KeyAccountRefreshEnabled, boolStr enabled); (KeyAccountRefreshAheadSec, "86400")] in
      r <~ one (on_tables (Set_ c (if flip then rev updates else updates))) ;;
      Done (match r with
            | Err e => (Internal (error_text e), [], c)
            | Ok c => (OK (enabled, 86400), if enabled then [RefreshLoop] else [], c)
            end)
  end.

(** ** Imports *)

Definition import_text (text : string) (upd : option bool) (client : string) (cancelled : Z → bool) (rnd : Z → Randomness)
    : page ImportSummary :=
  if String.eqb text "" then reply (BadRequest "请提供 text 或上传文件") else
  match ParseJSONBlob decode decode_stream text with
  | Err e => reply (BadRequest ("解析失败:" +:+ error_text e))
  | Ok items =>
      sum <~ ImportBatch loc Seal cipher decode decode_error cancelled items
               {| UpdateExisting := default true upd; DefaultClientID := client; BatchSize := 200 |} rnd ;;
      Done (OK sum, [RefreshLoop; ProbeLoop])
  end.

Definition Import (body : import_body) (cancelled : Z → bool) (rnd : Z → Randomness) : page ImportSummary :=
  match body with
  | ImportJSON None => reply (BadRequest unbound)
  | ImportJSON (Some (text, upd, client)) => import_text text upd client cancelled rnd
  | ImportForm text upd client files =>
      import_text (form_text text files)
        (if String.eqb upd "" then None else Some (String.eqb upd "true" || String.eqb upd "1")) client cancelled rnd
  end.

Definition ImportTokens (body : option tokens_body) (cancelled cancelled_batch : Z → bool) (rnd : Z → Randomness)
    : page ImportSummary :=
  match body with
  | None => reply (BadRequest unbound)
  | Some req =>
      let tokens := token_lines (BodyTokens req) in
      match tokens with
      | [] => reply (BadRequest "tokens 不能为空,请每行一个")
      | _ =>
          let client := TrimSpace (BodyClientID req) in
          let mode := parse_mode (BodyMode req) in
          let go :=
            proxyURL <~ ProxyURLByID Open NonceSize Overhead cipher (BodyProxyID req) ;;
            sum <~ ImportTokensBatch loc Seal cipher url_scheme internet decode decode_error cancelled cancelled_batch tokens
                     {| Mode := mode; TkClientID := client; ProxyURL := proxyURL;
                        TkUpdateExisting := default true (BodyUpdateExisting req); TkDefaultClientID := client;
                        TkBatchSize := 0 |} rnd ;;
            Done (OK sum, [RefreshLoop; ProbeLoop]) in
          match mode with
          | ModeUnknown _ => reply (BadRequest "不支持的 mode(仅 at / rt / st)")
          | ModeRT => if String.eqb client "" then reply (BadRequest "RT 模式必须提供 client_id(APPID)") else go
          | _ => go
          end
      end
  end.

(** ** Refreshes and probes *)

Definition Refresh (param : string) (c : cache) (ns : Nonces) : page RefreshResult :=
  r <~ RefreshByID (ParseUint_value param) c ns ;;
  or_internal id r.

Definition refresh_or_failed (id : N) (r : result RefreshResult) : RefreshResult :=
  match r with
  | Ok r => r
  | Err e => {| RfAccountID := id; RfEmail := ""; RfOK := false; RfSource := "failed"; RfExpiresAt := zero_time;
                RfError := error_text e; RTRotated := false; ATVerified := false; WebUnauthorized := false |}
  end.

(** How many there are, how many went well, how many did not. *)
Definition tally {A} (ok : A → bool) (results : list A) : Z * Z * Z * list A :=
  (Z.of_nat (length results), Z.of_nat (length (List.filter ok results)),
   Z.of_nat (length (List.filter (λ r, negb (ok r)) results)), results).

(** A goroutine per account, eight at a time, in any order ([turns]); the
    results come as they are done ([arrival]). *)
Definition for_all_accounts {A} (f : nat → N → process A) (ok : A → bool) (turns : nat → list bool) (arrival : list nat)
    : page (Z * Z * Z * list A) :=
  statement ListAllActiveIDs (λ r,
    match r with
    | Err e => reply (Internal (error_text e))
    | Ok ids =>
        results <~ together turns (imap f ids) ;;
        reply (OK (tally ok (shuffle arrival results)))
    end).

Definition RefreshAll (c : cache) (ns : nat → Nonces) (turns : nat → list bool) (arrival : list nat)
    : page (Z * Z * Z * list RefreshResult) :=
  for_all_accounts (λ n id, r <~ RefreshByID id c (ns n) ;; Done (refresh_or_failed id r)) RfOK turns arrival.

Definition ProbeQuota (param : string) : page QuotaResult :=
  r <~ ProbeByID (ParseUint_value param) ;;
  reply match r with
        | (None, Some e) => Internal (error_text e)
        | (Some res, _) => OK res
        | (None, None) => Internal ""
        end.

Definition probe_or_failed (id : N) (r : option QuotaResult * option goerr) : QuotaResult :=
  match r.1 with
  | Some res => res
  | None => {| QrAccountID := id; QrEmail := ""; QrOK := false; QrRemaining := 0; QrTotal := 0; QrResetAt := zero_time;
               QrDefaultModel := ""; QrBlockedFeatures := [];
               QrError := match r.2 with Some e => error_text e | None => "" end |}
  end.

Definition ProbeQuotaAll (turns : nat → list bool) (arrival : list nat) : page (Z * Z * Z * list QuotaResult) :=
  for_all_accounts (λ _ id, r <~ ProbeByID id ;; Done (probe_or_failed id r)) QrOK turns arrival.
End pages.
