(* ===== verification/TokenSpec.v ===== *)
(** * Where the tokens of the accounts come from

    Refreshes, probes and imports run side by side and write the rows of the
    accounts.  This file shows what may come to stand in them: whose word there
    is for a token ([vouched]), and that nothing else is written. *)

From S2P Require Import Prelude GoStrings GoTime Sql Schema Crypto Settings Models Users System Proc Rely ProxyPool Account Outside Json Refresher Prober Import ImportSpec Rbac Access Answers AccountPages.

#[local] Open Scope Z_scope.

Section steps.
Context {R : Type} (internet : list exchange → Z → client → question → heard).

(** An invariant of the tables that outlives further exchanges. *)
Context (I : list exchange → database → Prop).
Hypothesis I_more : ∀ x more d, I x d → I (x ++ more) d.

Abbreviation Process A := (proc (wired R) A).

Definition J (s : wired R) : Prop := I (w_wire s) (sys_db (w_sys s)).
Definition Grow (s s' : wired R) : Prop := ∃ more, w_wire s' = w_wire s ++ more.

#[global] Instance Grow_preorder : PreOrder Grow.
Proof.
  split.
  - intros s. exists []. by rewrite app_nil_r.
  - intros s1 s2 s3 [m1 E1] [m2 E2]. exists (m1 ++ m2). by rewrite E2, E1, app_assoc.
Qed.

Abbreviation inf d p Q := (informed J Grow d p Q).

(** ** Steps *)

Lemma inf_now s : inf s (one now) (λ _ _, True).
Proof.
  intros w Hw HJ. unfold J, Grow in *. destruct w as [[sy x] fs]. cbn in *. rewrite wait_db.
  split_and!; [done| |done]. exists []. by rewrite app_nil_r.
Qed.

Lemma inf_sleep s d : inf s (sleep d) (λ _ _, True).
Proof.
  intros w Hw HJ. unfold J, Grow in *. destruct w as [[sy x] fs]. cbn in *. rewrite wait_db.
  split_and!; [done| |done]. exists []. by rewrite app_nil_r.
Qed.

Lemma inf_ask s c q : inf s (ask internet c q)
  (λ a s', (∃ x, x ∈ w_wire s' ∧ x_client x = c ∧ x_question x = q ∧ x_answer x = a) ∧ ∃ y t, a = internet y t c q).
Proof.
  intros w Hw HJ. unfold J in *. destruct (exchange_spec internet c q w) as (a & Ha & Hx & Hdb & t & Ht).
  rewrite Hx, Hdb. split_and!; [by apply I_more|exists [{| x_client := c; x_question := q; x_answer := a |}]; exact Hx|].
  rewrite Ha. intros d' [more Hmore] _. split; [|by eauto]. exists {| x_client := c; x_question := q; x_answer := a |}. split; [|done].
  rewrite Hmore, Hx, !elem_of_app. left. right. by apply list_elem_of_singleton.
Qed.

Lemma inf_tables {B} s (m : DBM B) (Q : result B → Prop) :
  (∀ more (w : world database), let x := w_wire s ++ more in
     I x (w_db w) → I x (w_db (m w).2) ∧ Q (m w).1) →
  inf s (one (on_tables m)) (λ r _, Q r).
Proof.
  intros Hm w [more Hmore] HJ. unfold J in *. rewrite on_tables_spec. cbn [fst snd w_db w_sys w_wire sys_db with_db].
  specialize (Hm more (World (sys_db (w_sys (w_db w))) (w_faults w))). cbn in Hm. rewrite <-Hmore in Hm.
  destruct (Hm HJ) as [H1 H2]. split_and!; [exact H1| |by intros d' _ _]. exists []. by rewrite app_nil_r.
Qed.

Lemma inf_keeps {B} (RT : relation database) s (m : DBM B) `{!Keeps RT m} :
  (∀ x d d', RT d d' → I x d → I x d') → inf s (one (on_tables m)) (λ _ _, True).
Proof. intros HI. apply (inf_tables s m (λ _, True)). intros more w x Hx. split; [|done]. eapply HI; [apply (keeps (R:=RT))|done]. Qed.

Lemma inf_query {B} s (m : DBM B) `{!Keeps (=) m} : inf s (one (on_tables m)) (λ _ _, True).
Proof. apply (inf_keeps (=)); [done|]. by intros x d d' ->. Qed.

(** ** The parts of a request *)

Lemma inf_then {A B} s (p : Process A) (k : A → Process B) Q :
  inf s p (λ _ _, True) → (∀ a s', Grow s s' → inf s' (k a) Q) → inf s (pbind p k) Q.
Proof. intros Hp Hk. eapply informed_pbind; [exact _|exact Hp|]. intros a s' Hs' _ _. by apply Hk. Qed.

Lemma inf_then_ok {A B} s (p : Process (result A)) (k : A → Process (result B)) Q :
  inf s p (λ _ _, True) → (∀ e s', Q (Err e) s') → (∀ a s', Grow s s' → inf s' (k a) Q) → inf s (pbind_ok p k) Q.
Proof. intros Hp He Hk. apply inf_then; [exact Hp|]. intros [a|e] s' Hs'; [by apply Hk|]. by intros d' _ _. Qed.

Lemma inf_done {A} s (a : A) (Q : A → wired R → Prop) : (∀ s', Grow s s' → Q a s') → inf s (Done a) Q.
Proof. intros H d' Hd' _. by apply H. Qed.

End steps.

Ltac inf_steps :=
  repeat first
    [ assumption
    | apply inf_done; by intros
    | apply inf_now | apply inf_sleep | (apply inf_query; typeclasses eauto)
    | (eapply informed_weaken; [exact _|apply inf_ask; auto|by intros])
    | match goal with |- informed _ _ _ (pbind_ok _ _) _ => apply inf_then_ok; [|by intros|intros ? ? ?] end
    | match goal with |- informed _ _ _ (pbind _ _) _ => apply inf_then; [|intros ? ? ?] end
    | match goal with |- informed _ _ _ (match ?x with _ => _ end) _ => destruct x end
    | match goal with |- informed _ _ _ (let '_ := ?x in _) _ => destruct x end ].

#[export] Instance GetBinding_quiet id : Keeps (=) (GetBinding id).
Proof. unfold GetBinding. apply _. Qed.
#[export] Instance ProxyGet_quiet id : Keeps (=) (ProxyPool.GetByID id).
Proof. unfold ProxyPool.GetByID. apply _. Qed.

Section client.
Context {R : Type} {AEAD : Type}
        (Open : AEAD → list ascii → list ascii → result (list ascii))
        (NonceSize Overhead : nat) (cipher : AEAD)
        (url_scheme : string → option string)
        (I : list exchange → database → Prop).

Abbreviation inf d p Q := (informed (J I) Grow d p Q).

Lemma inf_proxy_url (s : wired R) id : inf s (proxy_url Open NonceSize Overhead cipher id) (λ _ _, True).
Proof. unfold proxy_url. inf_steps. Qed.
Lemma inf_account_url (s : wired R) id : inf s (ProxyURLForAccount Open NonceSize Overhead cipher id) (λ _ _, True).
Proof. unfold ProxyURLForAccount. inf_steps. Qed.
Lemma inf_clientFor (s : wired R) id : inf s (Refresher.clientFor Open NonceSize Overhead cipher url_scheme id) (λ _ _, True).
Proof. unfold Refresher.clientFor. apply inf_then; [apply inf_account_url|]. intros. inf_steps. Qed.
Lemma inf_probe_client (s : wired R) id : inf s (clientFor Open NonceSize Overhead cipher url_scheme id) (λ _ _, True).
Proof. unfold clientFor. apply inf_then; [apply inf_account_url|]. intros. inf_steps. Qed.

End client.


Section tokens.
Context {R : Type} (loc : location) {AEAD : Type}
        (Seal : AEAD → list ascii → list ascii → list ascii)
        (Open : AEAD → list ascii → list ascii → result (list ascii))
        (NonceSize Overhead : nat) (cipher : AEAD)
        (url_scheme : string → option string)
        (internet : list exchange → Z → client → question → heard)
        (decode : string → option json) (decode_error : string → string).

(** AES-GCM opens what it sealed; sealing adds the tag. *)
Hypothesis open_seal : ∀ n p, length n = NonceSize → Open cipher n (Seal cipher n p) = Ok p.
Hypothesis seal_length : ∀ n p, length (Seal cipher n p) = (length p + Overhead)%nat.

(** The accounts at the start, the tokens administrators hand in, and whether
    they import refresh tokens too. *)
Variables (d0 : database) (given : list string) (rt_imports : Prop).

Abbreviation Process A := (proc (wired R) A).
Abbreviation decrypt := (decrypt Open NonceSize Overhead cipher).

(** ** Whose word there is for a token *)

(** chatgpt.com let it in. *)
Definition let_in (at_ : string) (x : exchange) : Prop :=
  x_question x = Me at_ ∧ ∃ body, x_answer x = HTTP 200 body.
(** chatgpt.com gave it for a session token. *)
Definition of_session (at_ : string) (x : exchange) : Prop :=
  ∃ st what empty missing e, x_question x = AuthSession st ∧
    session_reply decode decode_error what empty missing (x_answer x) = inr (at_, e).
(** An import fetched it for a refresh token. *)
Definition of_import (at_ : string) (x : exchange) : Prop :=
  ∃ proxy rt cid what r, x_client x = Std proxy ∧ x_question x = OAuthToken rt cid ∧
    oauth_reply decode decode_error what (x_answer x) = inr (at_, r.1, r.2).

Definition vouched (wire : list exchange) (at_ : string) : Prop :=
  at_ ∈ given ∨ ∃ x, x ∈ wire ∧ (let_in at_ x ∨ of_session at_ x ∨ rt_imports ∧ of_import at_ x).

Lemma vouched_more wire more at_ : vouched wire at_ → vouched (wire ++ more) at_.
Proof. intros [H|(x & Hx & H)]; [by left|right]. exists x. split; [|done]. apply elem_of_app. by left. Qed.

(** What a column may hold: what it held at the start, or a vouched token. *)
Definition rightful (wire : list exchange) (id : N) (enc : string) : Prop :=
  (∃ a, oai_accounts d0 !! id = Some a ∧ AuthTokenEnc (AccInfo a) = enc) ∨
  ∃ at_, decrypt enc = Ok at_ ∧ vouched wire at_.

Definition all_rightful (wire : list exchange) (d : database) : Prop :=
  ∀ id a, oai_accounts d !! id = Some a → rightful wire id (AuthTokenEnc (AccInfo a)).

Lemma all_rightful_more wire more d : all_rightful wire d → all_rightful (wire ++ more) d.
Proof.
  intros H id a Ha. destruct (H id a Ha) as [?|(at_ & Hd & Hv)]; [by left|right].
  exists at_. split; [done|by apply vouched_more].
Qed.

#[local] Hint Resolve all_rightful_more : core.
Abbreviation inf d p Q := (informed (J all_rightful) Grow d p Q).

(** Statements that leave the tokens alone. *)
Definition tokens_kept (d d' : database) : Prop :=
  ∀ id a', oai_accounts d' !! id = Some a' → ∃ a, oai_accounts d !! id = Some a ∧
    AuthTokenEnc (AccInfo a') = AuthTokenEnc (AccInfo a).
#[export] Instance tokens_kept_preorder : PreOrder tokens_kept.
Proof.
  split; [intros d id a Ha; by exists a|]. intros d1 d2 d3 H1 H2 id a3 H.
  destruct (H2 id a3 H) as (a2 & Ha2 & E2). destruct (H1 id a2 Ha2) as (a1 & Ha1 & E1). exists a1. split; [done|congruence].
Qed.

Lemma tokens_kept_rightful x d d' : tokens_kept d d' → all_rightful x d → all_rightful x d'.
Proof. intros H Hd id a' Ha'. destruct (H id a' Ha') as (a & Ha & ->). by apply Hd. Qed.

Lemma inf_tokens {B} (s : wired R) (m : DBM B) `{!Keeps tokens_kept m} : inf s (one (on_tables m)) (λ _ _, True).
Proof. apply (inf_keeps _ tokens_kept); [done|]. apply tokens_kept_rightful. Qed.

Lemma update_account_keeps id where_ f :
  (∀ a a', f a = Ok a' → AuthTokenEnc (AccInfo a') = AuthTokenEnc (AccInfo a)) →
  Keeps tokens_kept (update_account id where_ f).
Proof.
  intros Hf. apply exec_keeps; [apply _|]. intros d n d'. unfold id_update.
  destruct (oai_accounts d !! id) as [a|] eqn:Ha; [|by intros [= _ <-]]. cbn.
  destruct (where_ a); [|by intros [= _ <-]]. destruct (f a) as [a'|] eqn:E; [|done]. cbn.
  intros [= _ <-] i b. cbn. destruct (decide (id = i)) as [->|].
  - rewrite lookup_insert_eq. intros [= <-]. exists a. split; [done|by apply Hf].
  - rewrite lookup_insert_ne by done. intros Hb. by exists b.
Qed.

#[local] Instance ApplyQuotaResult_keeps id r t re n : Keeps tokens_kept (ApplyQuotaResult id r t re n).
Proof. unfold ApplyQuotaResult, void. apply bind_keeps; [apply _|apply update_account_keeps; by intros a a' [= <-]|intros; apply _]. Qed.
#[local] Instance RecordRefreshError_keeps id so re b n : Keeps tokens_kept (RecordRefreshError id so re b n).
Proof.
  unfold RecordRefreshError, void. apply bind_keeps; [apply _|apply update_account_keeps|intros; apply _].
  intros a a' [= <-]. unfold refresh_failed. by destruct b.
Qed.
#[local] Instance GetBinding_keeps id : Keeps tokens_kept (GetBinding id).
Proof. unfold GetBinding. apply _. Qed.
#[local] Instance ProxyGet_keeps id : Keeps tokens_kept (ProxyPool.GetByID id).
Proof. unfold ProxyPool.GetByID. apply _. Qed.
#[local] Instance AccountGet_keeps id n : Keeps tokens_kept (GetByID loc id n).
Proof. unfold GetByID. apply _. Qed.
#[local] Instance ByEmail_keeps e n : Keeps tokens_kept (GetByEmail loc e n).
Proof. unfold GetByEmail. apply _. Qed.
#[local] Instance NeedRefresh_keeps a l n : Keeps tokens_kept (ListNeedRefresh loc a l n).
Proof. unfold ListNeedRefresh. apply _. Qed.
#[local] Instance NeedProbe_keeps a l n : Keeps tokens_kept (ListNeedProbeQuota loc a l n).
Proof. unfold ListNeedProbeQuota. apply _. Qed.

Ltac tok_steps := repeat first [progress inf_steps | (apply inf_tokens; typeclasses eauto)].

Abbreviation rtToAT := (rtToAT Open NonceSize Overhead cipher url_scheme internet decode decode_error).
Abbreviation stToAT := (stToAT Open NonceSize Overhead cipher url_scheme internet decode decode_error).
Abbreviation verifyATOnWeb := (verifyATOnWeb Open NonceSize Overhead cipher url_scheme internet).

Lemma inf_rtToAT (s : wired R) id rt cid : inf s (rtToAT id rt cid) (λ _ _, True).
Proof. unfold Refresher.rtToAT. apply inf_then; [apply inf_clientFor|]. intros. tok_steps. Qed.

Lemma session_vouches (s : wired R) x st at_ e what empty missing :
  x ∈ w_wire s → x_question x = AuthSession st →
  session_reply decode decode_error what empty missing (x_answer x) = inr (at_, e) → vouched (w_wire s) at_.
Proof. intros Hx Hq Ha. right. exists x. split; [done|]. right. left. by repeat eexists. Qed.

Lemma inf_stToAT (s : wired R) id st : inf s (stToAT id st)
  (λ r s', match r with inr (at_, _) => vouched (w_wire s') at_ | inl _ => True end).
Proof.
  unfold Refresher.stToAT. apply inf_then; [apply inf_clientFor|]. intros c s1 _.
  eapply informed_pbind; [exact _|apply inf_ask; auto|]. intros a s2 Hs2 HJ2 Hx. cbn beta in Hx.
  destruct (session_reply _ _ _ _ _ a) as [e|[at_ e]] eqn:Ea; [apply inf_done; by intros|].
  assert (∀ s3, Grow s2 s3 → vouched (w_wire s3) at_) as Hv.
  { destruct (Hx s2) as [(x & Hin & _ & Hq & <-) _]; [done..|]. intros s3 [more ->]. apply vouched_more.
    by eapply session_vouches. }
  apply inf_then; [apply inf_now|]. intros t s3 Hs3. apply inf_done. intros s4 Hs4. apply Hv. by etrans.
Qed.

Lemma inf_verify (s : wired R) id at_ : inf s (verifyATOnWeb id at_)
  (λ v s', match v with inr status => status = 200 → vouched (w_wire s') at_ | inl _ => True end).
Proof.
  unfold Refresher.verifyATOnWeb. apply inf_then; [apply inf_clientFor|]. intros c s1 _.
  eapply informed_pbind; [exact _|apply inf_ask; auto|]. intros a s2 Hs2 HJ2 Hx. cbn beta in Hx.
  apply inf_done. intros s3 Hs3. destruct a as [status body|]; [|done]. intros ->.
  destruct (Hx s2) as [(x & Hin & _ & Hq & Ha) _]; [done..|]. destruct Hs3 as [more ->]. apply vouched_more.
  right. exists x. split; [done|]. left. split; [done|by eexists].
Qed.

(** Writing a vouched token. *)
Lemma rightful_encrypted x id nonce at_ :
  length nonce = NonceSize → vouched x at_ → rightful x id (encrypt Seal cipher nonce at_).
Proof.
  intros Hn Hv. right. exists at_. split; [|done].
  by eapply (decrypt_encrypt Seal Open NonceSize Overhead cipher).
Qed.

Lemma all_rightful_insert x d id a :
  all_rightful x d → rightful x id (AuthTokenEnc (AccInfo a)) → all_rightful x (with_oai_accounts <[id := a]> d).
Proof.
  intros Hd Ha i b. cbn. destruct (decide (id = i)) as [->|].
  - rewrite lookup_insert_eq. by intros [= <-].
  - rewrite lookup_insert_ne by done. apply Hd.
Qed.

(** A statement that fails changes nothing. *)
Lemma exec_rightful {B} x (f : database → result (B * database)) (w : world database) :
  (∀ b d', f (w_db w) = Ok (b, d') → all_rightful x d') → all_rightful x (w_db w) → all_rightful x (w_db (exec f w).2).
Proof.
  destruct w as [d fs]. cbn. intros Hf Hd. unfold exec, call. cbn.
  destruct fs as [|[] fs]; [|done|]; destruct (f d) as [[b d']|e] eqn:E; cbn; try done; by eapply Hf.
Qed.

Lemma update_account_rightful x id where_ f (w : world database) :
  (∀ a a', f a = Ok a' → rightful x id (AuthTokenEnc (AccInfo a'))) →
  all_rightful x (w_db w) → all_rightful x (w_db (update_account id where_ f w).2).
Proof.
  intros Hf Hd. apply exec_rightful; [|done]. intros n d'. unfold id_update.
  destruct (oai_accounts (w_db w) !! id) as [a|]; [|by intros [= _ <-]]. cbn.
  destruct (where_ a); [|by intros [= _ <-]]. destruct (f a) as [a'|] eqn:E; [|done]. cbn.
  intros [= _ <-]. apply all_rightful_insert; [done|by eapply Hf].
Qed.

Lemma void_db {B} (m : DBM B) w : (void m w).2 = (m w).2.
Proof. unfold void, bind. by destruct (m w) as [[b|e] w']. Qed.

(** ** Refreshes *)

Definition good_nonces (ns : Nonces) : Prop := length (new_at_nonce ns) = NonceSize.

Abbreviation applyRefresh := (applyRefresh Seal cipher decode decode_error).
Abbreviation tryRT := (tryRT Seal Open NonceSize Overhead cipher url_scheme internet decode decode_error).
Abbreviation tryST := (tryST Seal Open NonceSize Overhead cipher url_scheme internet decode decode_error).
Abbreviation RefreshAuto := (RefreshAuto Seal Open NonceSize Overhead cipher url_scheme internet decode decode_error).
Abbreviation RefreshByID := (RefreshByID loc Seal Open NonceSize Overhead cipher url_scheme internet decode decode_error).
Abbreviation refresh_run := (Refresher.Run loc Seal Open NonceSize Overhead cipher url_scheme internet decode decode_error).
Abbreviation ProbeByID := (ProbeByID loc Open NonceSize Overhead cipher url_scheme internet decode decode_error).
Abbreviation probe_run := (Prober.Run loc Open NonceSize Overhead cipher url_scheme internet decode decode_error).

Lemma inf_apply (s : wired R) id a newAT newRT expAt source ns :
  good_nonces ns → vouched (w_wire s) newAT → inf s (applyRefresh id a newAT newRT expAt source ns) (λ _ _, True).
Proof.
  intros Hn Hv. unfold Refresher.applyRefresh. apply inf_then_ok; [apply inf_now|by intros|]. intros t s1 [more Hm].
  apply inf_then_ok; [|by intros|intros; by apply inf_done].
  apply (inf_tables _ _ _ (λ _, True)). intros more' w x Hx. split; [|done].
  unfold ApplyRefreshResult. rewrite void_db. apply update_account_rightful; [|done].
  intros b b' [= <-]. apply rightful_encrypted; [done|]. unfold x. rewrite Hm, <-app_assoc. by apply vouched_more.
Qed.

Lemma inf_giveUp (s : wired R) id a rej err : inf s (giveUp id a rej err) (λ _ _, True).
Proof. unfold giveUp. cbn zeta. tok_steps. Qed.

Lemma inf_tryRT (s : wired R) id a c ns : good_nonces ns → inf s (tryRT id a c ns) (λ _ _, True).
Proof.
  intros Hn. unfold Refresher.tryRT. destruct (stored_token _ _ _ _ _) as [rt|]; [|by apply inf_done].
  apply inf_then; [apply inf_rtToAT|]. intros [e|[[newAT newRT] expAt]] s1 _; [by apply inf_done|].
  destruct (String.eqb newAT ""); [by apply inf_done|].
  eapply informed_pbind; [exact _|apply inf_verify|]. intros v s2 Hs2 HJ Hv. cbn beta in Hv.
  destruct v as [e|status]; [by apply inf_done|]. destruct (Z.eqb_spec status 200) as [->|_].
  - apply inf_then; [|intros; by apply inf_done]. apply inf_apply; [done|]. by apply (Hv s2).
  - destruct (status =? 401); by apply inf_done.
Qed.

Lemma inf_tryST (s : wired R) id a rej err ns : good_nonces ns → inf s (tryST id a rej err ns) (λ _ _, True).
Proof.
  intros Hn. unfold Refresher.tryST. destruct (stored_token _ _ _ _ _) as [st|]; [|apply inf_giveUp].
  eapply informed_pbind; [exact _|apply inf_stToAT|]. intros r s1 Hs1 HJ Hr. cbn beta in Hr.
  destruct r as [e|[newAT expAt]]; [apply inf_giveUp|]. destruct (String.eqb newAT ""); [apply inf_giveUp|].
  apply inf_apply; [done|]. by apply (Hr s1).
Qed.

Lemma inf_RefreshAuto (s : wired R) id a c ns : good_nonces ns → inf s (RefreshAuto id a c ns) (λ _ _, True).
Proof.
  intros Hn. unfold Refresher.RefreshAuto. apply inf_then; [by apply inf_tryRT|].
  intros [r|rej err] s1 _; [by apply inf_done|by apply inf_tryST].
Qed.

Lemma inf_RefreshByID (s : wired R) id c ns : good_nonces ns → inf s (RefreshByID id c ns) (λ _ _, True).
Proof. intros Hn. unfold Refresher.RefreshByID. tok_steps. by apply inf_RefreshAuto. Qed.

Lemma inf_together {A} (s : wired R) turns (ps : list (Process A)) :
  (∀ p s', p ∈ ps → inf s' p (λ _ _, True)) → inf s (together turns ps) (λ _ _, True).
Proof.
  intros H. eapply informed_weaken; [exact _|apply informed_together; [exact _|]|by intros].
  apply Forall_forall. intros p Hp. by apply H.
Qed.

Lemma inf_refresh_scan (s : wired R) c turns ns : (∀ n, good_nonces (ns n)) →
  inf s (Refresher.scanOnce loc Seal Open NonceSize Overhead cipher url_scheme internet decode decode_error c turns ns) (λ _ _, True).
Proof.
  intros Hn. unfold Refresher.scanOnce. tok_steps. apply inf_together. intros p s3 Hp.
  apply elem_of_lookup_imap in Hp as (i & x & -> & _). by apply inf_RefreshAuto.
Qed.

Lemma inf_refresh_run (s : wired R) n first settings waits turns ns : (∀ m k, good_nonces (ns m k)) →
  inf s (refresh_run n first settings waits turns ns) (λ _ _, True).
Proof.
  intros Hn. unfold Refresher.Run.
  assert (∀ m (s' : wired R), inf s' (refresh_loop loc Seal Open NonceSize Overhead cipher url_scheme internet decode decode_error
    m settings waits turns ns) (λ _ _, True)) as Hloop.
  { induction m as [|m IH]; intros s'; cbn [refresh_loop]; [by apply inf_done|]. cbn zeta.
    apply inf_then; [destruct (AccountRefreshEnabled _); [by apply inf_refresh_scan|by apply inf_done]|].
    intros _ s1 _. destruct (waits m); [by apply inf_done| |apply IH].
    apply inf_then; [apply inf_sleep|]. intros. apply IH. }
  destruct first; [by apply inf_done|..]; (apply inf_then; [apply inf_sleep|intros; apply Hloop]).
Qed.

(** ** Probes *)

Lemma inf_unprobed (s : wired R) id : inf s (unprobed id) (λ _ _, True).
Proof. unfold unprobed. tok_steps. Qed.

Lemma inf_ProbeOne (s : wired R) id a : inf s (ProbeOne loc Open NonceSize Overhead cipher url_scheme internet decode decode_error id a) (λ _ _, True).
Proof.
  assert (∀ (r : QuotaResult * option goerr) (s' : wired R), inf s' (pbind (unprobed (R:=R) id) (λ _, Done r)) (λ _ _, True)) as Hu.
  { intros r s'. apply inf_then; [apply inf_unprobed|]. intros. by apply inf_done. }
  unfold ProbeOne. destruct (Account.decrypt _ _ _ _ _) as [[|x y]|]; [apply Hu| |apply Hu].
  apply inf_then.
  - unfold doProbe. cbn zeta. apply inf_then; [apply inf_probe_client|]. intros. tok_steps.
  - intros [e|p] s1 _; [apply Hu|]. tok_steps.
Qed.

Lemma inf_ProbeByID (s : wired R) id : inf s (ProbeByID id) (λ _ _, True).
Proof.
  unfold Prober.ProbeByID. tok_steps. apply inf_ProbeOne.
Qed.

Lemma inf_probe_run (s : wired R) n first settings waits turns : inf s (probe_run n first settings waits turns) (λ _ _, True).
Proof.
  unfold Prober.Run.
  assert (∀ m (s' : wired R), inf s' (probe_loop loc Open NonceSize Overhead cipher url_scheme internet decode decode_error
    m settings waits turns) (λ _ _, True)) as Hloop.
  { induction m as [|m IH]; intros s'; cbn [probe_loop]; [by apply inf_done|]. cbn zeta. apply inf_then.
    - destruct (AccountQuotaProbeEnabled _); [|by apply inf_done]. unfold scanOnce. tok_steps.
      apply inf_together. intros p s3 (x & -> & _)%list_elem_of_fmap. apply inf_ProbeOne.
    - intros _ s1 _. destruct (waits m); [by apply inf_done| |apply IH].
      apply inf_then; [apply inf_sleep|]. intros. apply IH. }
  destruct first; [by apply inf_done|..]; (apply inf_then; [apply inf_sleep|intros; apply Hloop]).
Qed.

(** ** Imports *)

Abbreviation importOne := (importOne loc Seal cipher decode decode_error).
Abbreviation ImportBatch := (ImportBatch loc Seal cipher decode decode_error).
Abbreviation ImportTokensBatch := (ImportTokensBatch loc Seal cipher url_scheme internet decode decode_error).

Definition good_randomness (rnd : Z → Randomness) : Prop := ∀ i, length (nonce_at (rnd i)) = NonceSize.

Lemma inf_importOne (s : wired R) i it opt rnd :
  length (nonce_at rnd) = NonceSize → vouched (w_wire s) (ImAccessToken it) → inf s (importOne i it opt rnd) (λ _ _, True).
Proof.
  intros Hn Hv. unfold Import.importOne. cbn zeta. destruct (String.eqb (ImAccessToken it) ""); [by apply inf_done|].
  apply inf_then; [apply inf_now|]. intros t s1 H1. apply inf_then; [tok_steps|]. intros e s2 H2.
  assert (∀ more id, rightful (w_wire s2 ++ more) id (encrypt Seal cipher (nonce_at rnd) (ImAccessToken it))) as Hr.
  { intros more id. apply rightful_encrypted; [done|]. destruct H2 as [m2 ->], H1 as [m1 ->].
    by do 3 apply vouched_more. }
  destruct e as [[[id a]|]|]; [| |by apply inf_done].
  - destruct (UpdateExisting opt); cbn [negb]; [|by apply inf_done].
    apply inf_then; [|intros [] ? ?; by apply inf_done]. apply (inf_tables _ _ _ (λ _, True)). intros more w x Hx.
    split; [|done]. apply exec_rightful; [|done]. intros [] d'. destruct (oai_accounts (w_db w) !! id) as [b|]; [|by intros [= <-]].
    destruct (negb (active b)); [by intros [= <-]|]. destruct (email_taken _ _ _); [done|]. intros [= <-].
    apply all_rightful_insert; [done|]. apply Hr.
  - apply inf_then; [|intros [] ? ?; by apply inf_done]. apply (inf_tables _ _ _ (λ _, True)). intros more w x Hx.
    split; [|done]. apply exec_rightful; [|done]. intros n d'. unfold insert_account.
    destruct (email_taken _ _ _); [done|]. intros [= _ <-]. apply all_rightful_insert; [done|]. apply Hr.
Qed.


Lemma inf_ImportBatch (s : wired R) cancelled items opt rnd :
  good_randomness rnd → (∀ it, it ∈ items → vouched (w_wire s) (ImAccessToken it)) →
  inf s (ImportBatch cancelled items opt rnd) (λ _ _, True).
Proof.
  intros Hn Hv. unfold Import.ImportBatch. cbn zeta. set (o := batch_options opt).
  assert (∀ it, it ∈ dedup items → vouched (w_wire s) (ImAccessToken it)) as Hd by (intros it ?%dedup_elem; auto).
  revert Hd. generalize (dedup items). intros l. generalize 0 at 1.
  generalize {| SumTotal := Z.of_nat (length l); SumCreated := 0; SumUpdated := 0; SumSkipped := 0; SumFailed := 0; Results := [] |}.
  clear Hv. revert s. induction l as [|it l IH]; intros s sum i Hd; cbn [import_loop]; [by apply inf_done|].
  destruct (_ && _ && _); [by apply inf_done|].
  apply inf_then; [apply inf_importOne; [apply Hn|apply Hd; by left]|]. intros res s1 [more Hm]. apply IH.
  intros it' Hit. rewrite Hm. apply vouched_more, Hd. by right.
Qed.

Definition vouched_source (r : string + ImportSource) (s : wired R) : Prop :=
  match r with inr src => vouched (w_wire s) (ImAccessToken src) | inl _ => True end.

Lemma fetched_token what at_ rt st client e src :
  fetched_source decode what at_ rt st client e = inr src → ImAccessToken src = at_.
Proof.
  unfold fetched_source. destruct (decodeATClaims decode at_) as [|[[[|c email] account] exp]]; try done. by intros [= <-].
Qed.

Lemma inf_convert (s : wired R) opts proxy cid t :
  (Mode opts = ModeAT → t ∈ given) → (Mode opts = ModeRT → rt_imports) →
  inf s (convert internet decode decode_error opts (Std proxy) cid t) vouched_source.
Proof.
  intros Hg Hi. unfold convert. destruct (Mode opts) eqn:Em.
  - apply inf_done. intros s' _. unfold vouched_source, convertATToSource.
    destruct (decodeATClaims decode t) as [|[[email account] e]]; [done|]. destruct (String.eqb email ""); [done|]. cbn.
    left. by apply Hg.
  - destruct (String.eqb cid ""); [by apply inf_done|]. unfold convertRTToSource, rtExchange.
    eapply informed_pbind; [exact _|eapply informed_pbind; [exact _|apply inf_ask; auto|]|].
    + intros a s1 Hs1 HJ Hx. cbn beta in Hx.
      instantiate (1 := λ r s', match r with inr (at_, _, _) => vouched (w_wire s') at_ | inl _ => True end).
      destruct (oauth_reply decode decode_error "rt exchange" a) as [e|[[at_ newRT] e]] eqn:Ea; [by apply inf_done|].
      apply inf_then; [apply inf_now|]. intros t' s2 Hs2. apply inf_done. intros s3 Hs3.
      destruct (Hx s1) as [(x & Hin & Hc & Hq & Hans) _]; [done..|].
      assert (Grow s1 s3) as [more ->] by by etrans. apply vouched_more. right. exists x. split; [done|]. do 2 right.
      split; [by apply Hi|]. exists proxy, t, cid, "rt exchange", (newRT, e). by rewrite Hans.
    + intros r s1 Hs1 HJ Hr. apply inf_done. intros s2 Hs2. unfold vouched_source.
      destruct r as [e|[[at_ newRT] e]]; [done|]. destruct (fetched_source _ _ _ _ _ _ _) as [|src] eqn:Es; [done|].
      apply fetched_token in Es as ->. destruct Hs2 as [more ->]. apply vouched_more. by apply (Hr s1).
  - unfold convertSTToSource, stExchange.
    eapply informed_pbind; [exact _|eapply informed_pbind; [exact _|apply inf_ask; auto|]|].
    + intros a s1 Hs1 HJ Hx. cbn beta in Hx.
      instantiate (1 := λ r s', match r with inr (at_, _) => vouched (w_wire s') at_ | inl _ => True end).
      apply inf_done. intros s2 [more Hm].
      destruct (session_reply _ _ _ _ _ a) as [e|[at_ e]] eqn:Ea; [done|]. rewrite Hm. apply vouched_more.
      destruct (Hx s1) as [(x & Hin & Hc & Hq & <-) _]; [done..|]. by eapply session_vouches.
    + intros r s1 Hs1 HJ Hr. apply inf_done. intros s2 Hs2. unfold vouched_source.
      destruct r as [e|[at_ e]]; [done|]. destruct (fetched_source _ _ _ _ _ _ _) as [|src] eqn:Es; [done|].
      apply fetched_token in Es as ->. destruct Hs2 as [more ->]. apply vouched_more. by apply (Hr s1).
  - by apply inf_done.
Qed.

Lemma buildImportHTTPClient_std url : ∃ proxy, buildImportHTTPClient url_scheme url = Std proxy.
Proof. unfold buildImportHTTPClient. destruct (String.eqb url ""); [by eexists|]. destruct (url_scheme url); by eexists. Qed.

Lemma inf_ImportTokens (s : wired R) cancelled cancelled_batch tokens opts rnd :
  good_randomness rnd → (Mode opts = ModeAT → ∀ t, t ∈ clean_tokens [] tokens → t ∈ given) → (Mode opts = ModeRT → rt_imports) →
  inf s (ImportTokensBatch cancelled cancelled_batch tokens opts rnd) (λ _ _, True).
Proof.
  intros Hn Hg Hrt. unfold Import.ImportTokensBatch. cbn zeta.
  destruct (buildImportHTTPClient_std (ProxyURL opts)) as [proxy ->].
  set (cid := match Mode opts with ModeRT => _ | _ => _ end). revert Hg. generalize (clean_tokens [] tokens). intros l Hg.
  eapply informed_pbind; [exact _| |].
  - instantiate (1 := λ r s', ∀ src, src ∈ r.1 → vouched (w_wire s') (ImAccessToken src)).
    cut (∀ (s : wired R) i items failed, (∀ src, src ∈ items → vouched (w_wire s) (ImAccessToken src)) →
      inf s (convert_loop internet decode decode_error cancelled opts (Std proxy) cid i l items failed)
        (λ r s', ∀ src, src ∈ r.1 → vouched (w_wire s') (ImAccessToken src))).
    { intros H. apply H. by intros src ?%not_elem_of_nil. }
    clear s. induction l as [|t l IH]; intros s i items failed Hi; cbn [convert_loop].
    + apply inf_done. intros s' [more ->] src Hsrc. by apply vouched_more, Hi.
    + destruct (cancelled i). { apply inf_done. intros s' [more ->] src Hsrc. by apply vouched_more, Hi. }
      eapply informed_pbind; [exact _|apply inf_convert; [intros Hm; apply Hg; [done|by left]|done]|].
      intros r s1 [more Hm] HJ Hr. destruct r as [e|src]; apply IH.
      * intros Hmode t' Ht'. apply Hg; [done|by right].
      * intros src Hsrc. rewrite Hm. by apply vouched_more, Hi.
      * intros Hmode t' Ht'. apply Hg; [done|by right].
      * intros src' [Hsrc|Hsrc%list_elem_of_singleton]%elem_of_app; [rewrite Hm; by apply vouched_more, Hi|].
        subst src'. by apply (Hr s1).
  - intros [items failed] s1 Hs1 HJ Hr. cbn beta in Hr. apply inf_then; [|intros; by apply inf_done].
    apply inf_ImportBatch; [done|]. intros it Hit. by apply (Hr s1).
Qed.

(** ** The pages *)

Context (decode_stream : string → list json * bool) (error_text : goerr → string).

Abbreviation create_account := (AccountPages.create_account (R:=R) loc Seal cipher decode decode_error).
Abbreviation edit_account := (AccountPages.edit_account (R:=R) loc Seal cipher decode decode_error).
Abbreviation CreatePage := (CreatePage (R:=R) loc Seal cipher decode decode_error error_text).
Abbreviation UpdatePage := (UpdatePage (R:=R) loc Seal cipher decode decode_error error_text).
Abbreviation ImportPage := (AccountPages.Import (R:=R) loc Seal cipher decode decode_stream decode_error error_text).
Abbreviation ImportTokensPage := (ImportTokens (R:=R) loc Seal Open NonceSize Overhead cipher url_scheme internet decode decode_error).
Abbreviation RefreshPage := (Refresh (R:=R) loc Seal Open NonceSize Overhead cipher url_scheme internet decode decode_error error_text).
Abbreviation RefreshAll := (RefreshAll (R:=R) loc Seal Open NonceSize Overhead cipher url_scheme internet decode decode_error error_text).
Abbreviation ProbePage := (ProbeQuota (R:=R) loc Open NonceSize Overhead cipher url_scheme internet decode decode_error error_text).
Abbreviation ProbeQuotaAll := (ProbeQuotaAll (R:=R) loc Open NonceSize Overhead cipher url_scheme internet decode decode_error error_text).

#[local] Instance store_cookies_keeps id inp rnd : Keeps tokens_kept (store_cookies Seal cipher id inp rnd).
Proof.
  unfold store_cookies. destruct (String.eqb _ _); [apply _|]. apply exec_keeps; [apply _|]. intros d u d' [= _ <-] i a Ha. by exists a.
Qed.
#[local] Instance ListAll_keeps : Keeps tokens_kept ListAllActiveIDs.
Proof. unfold ListAllActiveIDs. apply _. Qed.

Lemma inf_insert (s : wired R) i :
  (∀ more id, rightful (w_wire s ++ more) id (AuthTokenEnc i)) → inf s (one (on_tables (DAOCreate i))) (λ _ _, True).
Proof.
  intros Hr. apply (inf_tables _ _ _ (λ _, True)). intros more w x Hx.
  split; [|done]. apply exec_rightful; [|done]. intros n d'. unfold insert_account.
  destruct (email_taken _ _ _); [done|]. intros [= _ <-]. apply all_rightful_insert; [done|]. apply Hr.
Qed.

Lemma inf_overwrite (s : wired R) id i :
  (∀ more, rightful (w_wire s ++ more) id (AuthTokenEnc i)) → inf s (one (on_tables (DAOUpdate id i))) (λ _ _, True).
Proof.
  intros Hr. apply (inf_tables _ _ _ (λ _, True)). intros more w x Hx.
  split; [|done]. apply exec_rightful; [|done]. intros [] d'. destruct (oai_accounts (w_db w) !! id) as [b|]; [|by intros [= <-]].
  destruct (negb (active b)); [by intros [= <-]|]. destruct (email_taken _ _ _); [done|]. intros [= <-].
  apply all_rightful_insert; [done|]. apply Hr.
Qed.

(** What a request reads of a row stays rightful, however old it gets. *)
Lemma rightful_more x more id enc : rightful x id enc → rightful (x ++ more) id enc.
Proof. intros [?|(at_ & Hd & Hv)]; [by left|right]. exists at_. split; [done|by apply vouched_more]. Qed.

Lemma GetByID_reads id t (w : world database) :
  w_db (GetByID loc id t w).2 = w_db w ∧
  match (GetByID loc id t w).1 with
  | Ok a => ∃ b, oai_accounts (w_db w) !! id = Some b ∧ AuthTokenEnc (AccInfo a) = AuthTokenEnc (AccInfo b)
  | Err _ => True
  end.
Proof.
  destruct w as [d fs]. unfold GetByID, query, call. cbn.
  destruct fs as [|[] fs]; [|done|]; cbn; (destruct (oai_accounts d !! id) as [b|]; [destruct (active b)|]; cbn; [|done..]);
    (split; [done|exists b; by rewrite (proj1 (fill_info loc t b))]).
Qed.

Lemma inf_read (s : wired R) id t : inf s (one (on_tables (GetByID loc id t)))
  (λ r s', match r with Ok a => rightful (w_wire s') id (AuthTokenEnc (AccInfo a)) | Err _ => True end).
Proof.
  intros w Hw HJ. rewrite on_tables_spec. unfold J in *. cbn.
  destruct (GetByID_reads id t (World (sys_db (w_sys (w_db w))) (w_faults w))) as [E H]. rewrite E. split; [exact HJ|].
  split; [exists []; by rewrite app_nil_r|]. intros s' [more Hm] _. cbn in Hm. destruct (GetByID _ _ _ _).1 as [a|]; [|done].
  destruct H as (b & Hb & ->). rewrite Hm. apply rightful_more. by apply HJ.
Qed.

Lemma inf_create (s : wired R) inp rnd :
  length (nonce_at rnd) = NonceSize → InAuthToken inp ∈ given → inf s (create_account inp rnd) (λ _ _, True).
Proof.
  intros Hn Hg. unfold AccountPages.create_account. destruct (_ || _); [by apply inf_done|].
  apply inf_then_ok; [apply inf_now|by intros|]. intros t s1 _.
  apply inf_then_ok; [|by intros|intros id s2 _; tok_steps].
  apply inf_insert. intros more id. apply rightful_encrypted; [done|by left].
Qed.

Lemma inf_edit (s : wired R) id inp rnd :
  length (nonce_at rnd) = NonceSize → (InAuthToken inp ≠ "" → InAuthToken inp ∈ given) →
  inf s (edit_account id inp rnd) (λ _ _, True).
Proof.
  intros Hn Hg. unfold AccountPages.edit_account.
  apply inf_then_ok; [apply inf_now|by intros|]. intros t s1 _. unfold pbind_ok at 1.
  eapply informed_pbind; [exact _|apply inf_read|]. intros [a|e] s2 Hs2 HJ Ha; [|by apply inf_done].
  pose proof (Ha s2 ltac:(done) HJ) as Hr. cbn beta in Hr. cbv zeta.
  apply inf_then_ok; [|by intros|intros u s3 _; tok_steps].
  apply inf_overwrite. intros more. unfold updated_info. cbn [AuthTokenEnc].
  destruct (String.eqb_spec (InAuthToken inp) ""); [by apply rightful_more|].
  apply rightful_encrypted; [done|left; auto].
Qed.

Lemma inf_for_all {A} (s : wired R) (f : nat → N → Process A) ok turns arrival :
  (∀ n id s', inf s' (f n id) (λ _ _, True)) → inf s (for_all_accounts error_text f ok turns arrival) (λ _ _, True).
Proof.
  intros Hf. unfold for_all_accounts, statement, reply. apply inf_then; [tok_steps|]. intros [ids|e] s1 _; [|by apply inf_done].
  apply inf_then; [|intros; by apply inf_done]. apply inf_together. intros p s2 Hp.
  apply elem_of_lookup_imap in Hp as (i & x & -> & _). apply Hf.
Qed.

(** The text an import is of. *)
Definition pasted_text (b : import_body) : string :=
  match b with
  | ImportJSON None => ""
  | ImportJSON (Some (text, _, _)) => text
  | ImportForm text _ _ files => form_text text files
  end.

Lemma inf_import_page (s : wired R) body cancelled rnd :
  good_randomness rnd →
  (∀ items it, ParseJSONBlob decode decode_stream (pasted_text body) = Ok items → it ∈ items → ImAccessToken it ∈ given) →
  inf s (ImportPage body cancelled rnd) (λ _ _, True).
Proof.
  intros Hn Hg.
  assert (∀ upd client, inf s (import_text loc Seal cipher decode decode_stream decode_error error_text (pasted_text body) upd client cancelled rnd)
    (λ _ _, True)) as Ht.
  { intros upd client. unfold import_text, reply. destruct (String.eqb _ ""); [by apply inf_done|].
    destruct (ParseJSONBlob _ _ _) as [items|e] eqn:E; [|by apply inf_done].
    apply inf_then; [|intros; by apply inf_done]. apply inf_ImportBatch; [done|]. intros it Hit. left. by eapply Hg. }
  destruct body as [[[[text upd] client]|]|text upd client files]; cbn [AccountPages.Import]; [apply Ht|by apply inf_done|apply Ht].
Qed.

Lemma inf_tokens_page (s : wired R) body cancelled cancelled_batch rnd :
  good_randomness rnd →
  (∀ req, body = Some req →
    (parse_mode (BodyMode req) = ModeAT → ∀ t, t ∈ clean_tokens [] (token_lines (BodyTokens req)) → t ∈ given) ∧
    (parse_mode (BodyMode req) = ModeRT → rt_imports)) →
  inf s (ImportTokensPage body cancelled cancelled_batch rnd) (λ _ _, True).
Proof.
  intros Hn Hg. unfold ImportTokens, reply. destruct body as [req|]; [|by apply inf_done]. destruct (Hg req eq_refl) as [Hat Hrt].
  cbv zeta. destruct (token_lines (BodyTokens req)) as [|t l] eqn:El; [by apply inf_done|]. rewrite <-El in *.
  match goal with |- informed _ _ _ (match _ with ModeAT => ?g | _ => _ end) _ => set (go := g) end.
  assert (inf s go (λ _ _, True)) as Hgo.
  { subst go. apply inf_then; [unfold ProxyURLByID; destruct (_ =? 0)%N; [by apply inf_done|apply inf_proxy_url]|]. intros url s1 _.
    apply inf_then; [by apply inf_ImportTokens|intros; by apply inf_done]. }
  destruct (parse_mode (BodyMode req)); [exact Hgo| |exact Hgo|by apply inf_done].
  destruct (String.eqb _ ""); [by apply inf_done|exact Hgo].
Qed.

(** ** Any number of them *)

(** Whatever else works on the server and leaves the tokens alone. *)
Definition hands_off (s s' : wired R) : Prop :=
  w_wire s' = w_wire s ∧ tokens_kept (sys_db (w_sys s)) (sys_db (w_sys s')).

(** Every page and loop that writes the column of the access tokens; the
    tokens administrators hand in are among the [given]. *)
Inductive request : Process unit → Prop :=
  | req_refresh param c ns : good_nonces ns → request (forget (RefreshPage param c ns))
  | req_refresh_all c ns turns arrival : (∀ n, good_nonces (ns n)) → request (forget (RefreshAll c ns turns arrival))
  | req_refresher n first settings waits turns ns :
      (∀ m k, good_nonces (ns m k)) → request (refresh_run n first settings waits turns ns)
  | req_probe param : request (forget (ProbePage param))
  | req_probe_all turns arrival : request (forget (ProbeQuotaAll turns arrival))
  | req_prober n first settings waits turns : request (probe_run n first settings waits turns)
  | req_create body rnd :
      length (nonce_at rnd) = NonceSize → (∀ inp, body = Some inp → InAuthToken inp ∈ given) →
      request (forget (CreatePage body rnd))
  | req_update param body rnd :
      length (nonce_at rnd) = NonceSize → (∀ inp, body = Some inp → InAuthToken inp ≠ "" → InAuthToken inp ∈ given) →
      request (forget (UpdatePage param body rnd))
  | req_import body cancelled rnd :
      good_randomness rnd →
      (∀ items it, ParseJSONBlob decode decode_stream (pasted_text body) = Ok items → it ∈ items → ImAccessToken it ∈ given) →
      request (forget (ImportPage body cancelled rnd))
  | req_tokens body cancelled cancelled_batch rnd :
      good_randomness rnd →
      (∀ req, body = Some req →
        (parse_mode (BodyMode req) = ModeAT → ∀ t, t ∈ clean_tokens [] (token_lines (BodyTokens req)) → t ∈ given) ∧
        (parse_mode (BodyMode req) = ModeRT → rt_imports)) →
      request (forget (ImportTokensPage body cancelled cancelled_batch rnd))
  | req_works q : follows hands_off (λ _, True) q → request q.

Lemma inf_works (s : wired R) (q : Process unit) : follows hands_off (λ _, True) q → inf s q (λ _ _, True).
Proof.
  intros Hq. apply informed_guarded. induction q as [[]|B m k IH]; cbn in *; [done|]. intros w Hw.
  destruct (Hq w) as [[[E Hk] _] Hf]. split_and!; [|exists []; by rewrite E, app_nil_r|by apply IH].
  unfold J in *. rewrite E. by eapply tokens_kept_rightful.
Qed.

Lemma inf_request (p : Process unit) (s : wired R) : request p → inf s p (λ _ _, True).
Proof.
  destruct 1; try (apply informed_forget with (Q := λ _ _, True)).
  - unfold Refresh, or_internal, reply. apply inf_then; [by apply inf_RefreshByID|intros; by apply inf_done].
  - apply inf_for_all. intros m id s'. apply inf_then; [by apply inf_RefreshByID|intros; by apply inf_done].
  - by apply inf_refresh_run.
  - unfold ProbeQuota, reply. apply inf_then; [apply inf_ProbeByID|intros; by apply inf_done].
  - apply inf_for_all. intros m id s'. apply inf_then; [apply inf_ProbeByID|intros; by apply inf_done].
  - apply inf_probe_run.
  - unfold AccountPages.CreatePage, reply. destruct body as [inp|]; [|by apply inf_done].
    apply inf_then; [apply inf_create; auto|intros; by apply inf_done].
  - unfold AccountPages.UpdatePage, reply. destruct body as [inp|]; [|by apply inf_done].
    apply inf_then; [apply inf_edit; auto|intros; by apply inf_done].
  - by apply inf_import_page.
  - by apply inf_tokens_page.
  - by apply inf_works.
Qed.

(** C5: every token has somebody's word.  The refresher and the prober run,
    administrators create and edit accounts, refresh and probe one or all of
    them, import documents and bare tokens, any number at a time, next to work
    that leaves the column of the access tokens alone; their statements and
    exchanges interleave, calls fail, requests are lost, and the upstream
    answers as it likes.  Still each access token in the table of accounts is
    the one that was there at the start, or one an administrator handed in, or
    one chatgpt.com has let in (GET /me, 200) or has itself given for a session
    token, or, if refresh tokens are imported, one an import was given for a
    refresh token.  So where nobody hands in or imports anything, every token
    the refresher has stored is one that chatgpt.com has let in or has itself
    given. *)
Theorem tokens_vouched s0 fs ts w id a :
  sys_db (w_sys s0) = d0 → rtc (pool_step request) ([], World s0 fs) (ts, w) →
  oai_accounts (sys_db (w_sys (w_db w))) !! id = Some a →
  let enc := AuthTokenEnc (AccInfo a) in
  rightful (w_wire (w_db w)) id enc ∧
  (given = [] → ¬ rt_imports →
   (∃ a0, oai_accounts d0 !! id = Some a0 ∧ AuthTokenEnc (AccInfo a0) = enc) ∨
   ∃ at_ x, decrypt enc = Ok at_ ∧ x ∈ w_wire (w_db w) ∧ (let_in at_ x ∨ of_session at_ x)).
Proof.
  intros Hd Hrun Ha. cbv zeta. cut (rightful (w_wire (w_db w)) id (AuthTokenEnc (AccInfo a))).
  { intros Hr. split; [exact Hr|]. intros Hg Hi. destruct Hr as [?|(at_ & Hdec & [Hin|(x & Hx & Hv)])]; [by left| |right].
    - rewrite Hg in Hin. by apply not_elem_of_nil in Hin.
    - exists at_, x. split; [done|]. split; [done|]. destruct Hv as [?|[?|[? _]]]; [by left|by right|by destruct Hi]. }
  destruct (pool_informed (J all_rightful) Grow request (λ p s, inf_request p s) _ _ Hrun) as [HJ _];
    [constructor| |by apply (HJ id)].
  intros i b Hb. left. exists b. cbn in Hb. by rewrite <-Hd.
Qed.
End tokens.

(** ** A refresh token that is replaced and not kept *)

Definition refresh_tokens_kept (d d' : database) : Prop :=
  ∀ id, RefreshTokenEnc ∘ AccInfo <$> oai_accounts d' !! id = RefreshTokenEnc ∘ AccInfo <$> oai_accounts d !! id.
#[export] Instance refresh_tokens_kept_preorder : PreOrder refresh_tokens_kept.
Proof. split; [by intros d id|]. intros d1 d2 d3 H1 H2 id. by rewrite H2. Qed.

#[export] Instance RecordRefreshError_tokens id so re b n : Keeps refresh_tokens_kept (RecordRefreshError id so re b n).
Proof.
  unfold RecordRefreshError, void. apply bind_keeps; [apply _| |intros; apply _].
  apply exec_keeps; [apply _|]. intros d m d'. unfold id_update.
  destruct (oai_accounts d !! id) as [a|] eqn:Ha; [|by intros [= _ <-]]. cbn.
  destruct (active a); [|by intros [= _ <-]]. cbn. intros [= _ <-] i. cbn. destruct (decide (id = i)) as [->|].
  - rewrite lookup_insert_eq, Ha. unfold refresh_failed. by destruct b.
  - by rewrite lookup_insert_ne.
Qed.

#[export] Instance ApplyRefreshResult_tokens id at_ exp so n : Keeps refresh_tokens_kept (ApplyRefreshResult id at_ "" exp so n).
Proof.
  unfold ApplyRefreshResult, void. apply bind_keeps; [apply _| |intros; apply _].
  apply exec_keeps; [apply _|]. intros d m d'. unfold id_update.
  destruct (oai_accounts d !! id) as [a|] eqn:Ha; [|by intros [= _ <-]]. cbn.
  destruct (active a); [|by intros [= _ <-]]. cbn. intros [= _ <-] i. cbn. destruct (decide (id = i)) as [->|].
  - by rewrite lookup_insert_eq, Ha.
  - by rewrite lookup_insert_ne.
Qed.

(** *** The parts that only read *)

Abbreviation read_only p := (follows (wired_along (=)) (λ _, True) p).

#[local] Instance now_along {R} : Keeps (wired_along (=)) (now (R:=R)).
Proof. intros w. destruct (now_spec w) as (_ & H1 & H2 & _). split; [done|]. exists []. by rewrite H1, app_nil_r. Qed.
#[local] Instance now_keeps_faults {R} : Steady (now (R:=R)).
Proof. intros w Hw. by destruct (now_spec w) as [-> _]. Qed.
#[local] Instance tables_along {R B} (m : DBM B) `{!Keeps (=) m} : Keeps (wired_along (=)) (on_tables (R:=R) m).
Proof. intros w. rewrite on_tables_spec. split; [cbn; exact (Keeps0 (World _ _))|]. exists []. by rewrite app_nil_r. Qed.
#[local] Instance tables_steady {R B} (m : DBM B) `{!Steady m} : Steady (on_tables (R:=R) m).
Proof. intros w Hw. rewrite on_tables_spec. cbn. by apply steady. Qed.
#[local] Instance exchange_along {R} internet c q : Keeps (wired_along (=)) (exchange_now (R:=R) internet c q).
Proof. intros w. destruct (exchange_spec internet c q w) as (a & _ & H1 & H2 & _). split; [done|]. by eexists. Qed.
#[local] Instance exchange_steady {R} internet c q : Steady (exchange_now (R:=R) internet c q).
Proof. intros [s fs] Hw. cbn. exact Hw. Qed.

Section rotation.
Context {R : Type} {AEAD : Type}
        (Seal : AEAD → list ascii → list ascii → list ascii)
        (Open : AEAD → list ascii → list ascii → result (list ascii))
        (NonceSize Overhead : nat) (cipher : AEAD)
        (url_scheme : string → option string)
        (internet : list exchange → Z → client → question → heard)
        (decode : string → option json) (decode_error : string → string).

Lemma ask_reads c q : read_only (ask (R:=R) internet c q).
Proof. unfold ask. by apply follows_call; [apply _..|]. Qed.

Lemma clientFor_reads id : read_only (Refresher.clientFor (R:=R) Open NonceSize Overhead cipher url_scheme id).
Proof. unfold Refresher.clientFor, ProxyURLForAccount, proxy_url. follow_steps. Qed.

Lemma exchange_reads id rt cid :
  read_only (rtToAT (R:=R) Open NonceSize Overhead cipher url_scheme internet decode decode_error id rt cid).
Proof.
  unfold rtToAT. apply follows_then; [apply clientFor_reads|]. intros c. apply follows_then; [apply ask_reads|]. intros a. follow_steps.
Qed.

Lemma verify_reads id at_ : read_only (verifyATOnWeb (R:=R) Open NonceSize Overhead cipher url_scheme internet id at_).
Proof.
  unfold verifyATOnWeb. apply follows_then; [apply clientFor_reads|]. intros c. apply follows_then; [apply ask_reads|]. intros a. follow_steps.
Qed.

Definition refused_by_web (a : heard) : Prop := match a with HTTP status _ => status ≠ 200 | Broken _ => True end.

Variables (rt newAT newRT : string) (e : Z) (d0 : database).
Hypothesis gives : ∀ x t cl cid,
  oauth_reply decode decode_error "rt refresh" (internet x t cl (OAuthToken rt cid)) = inr (newAT, newRT, e).
Hypothesis refuses : ∀ x t cl, refused_by_web (internet x t cl (Me newAT)).

Definition replaced (s : wired R) : Prop := ∃ x cid, x ∈ w_wire s ∧ x_question x = OAuthToken rt cid ∧
  oauth_reply decode decode_error "rt refresh" (x_answer x) = inr (newAT, newRT, e).

Abbreviation I := (λ (_ : list exchange) d, refresh_tokens_kept d0 d).
Abbreviation inf d p Q := (informed (J I) Grow d p Q).

Lemma I_more x more d : I x d → I (x ++ more) d.
Proof. done. Qed.

Lemma replaced_more s s' : Grow s s' → replaced s → replaced s'.
Proof. intros [more Hm] (x & cid & Hx & H). exists x, cid. rewrite Hm, elem_of_app. eauto. Qed.

Lemma lost_exchange (s : wired R) id cid :
  inf s (rtToAT Open NonceSize Overhead cipher url_scheme internet decode decode_error id rt cid)
    (λ r s', replaced s' ∧ ∃ exp, r = inr (newAT, newRT, exp)).
Proof.
  unfold rtToAT. apply inf_then; [apply inf_clientFor|]. intros cl s1 _.
  eapply informed_pbind; [exact _|apply (inf_ask internet I I_more)|]. intros a s2 Hs2 HJ2 Hx. cbn beta in Hx.
  destruct (Hx s2) as [(x & Hin & _ & Hq & Hans) (y & t & Ha)]; [done..|].
  assert (oauth_reply decode decode_error "rt refresh" a = inr (newAT, newRT, e)) as E by by rewrite Ha.
  rewrite E. apply inf_then; [apply inf_now|]. intros t' s3 Hs3. apply inf_done. intros s4 Hs4. split; [|by eexists].
  eapply replaced_more; [etrans; [exact Hs3|exact Hs4]|]. exists x, cid. by rewrite Hans.
Qed.

Lemma lost_verify (s : wired R) id :
  inf s (verifyATOnWeb Open NonceSize Overhead cipher url_scheme internet id newAT) (λ v _, v ≠ inr 200).
Proof.
  unfold verifyATOnWeb. apply inf_then; [apply inf_clientFor|]. intros cl s1 _.
  eapply informed_pbind; [exact _|apply (inf_ask internet I I_more)|]. intros a s2 Hs2 HJ2 Hx. cbn beta in Hx.
  destruct (Hx s2) as [_ (y & t & Ha)]; [done..|]. apply inf_done. intros s3 _.
  pose proof (refuses y t cl) as Hr. rewrite <-Ha in Hr. destruct a; [|done]. cbn in Hr. congruence.
Qed.

Abbreviation tryRT := (tryRT (R:=R) Seal Open NonceSize Overhead cipher url_scheme internet decode decode_error).
Abbreviation tryST := (tryST (R:=R) Seal Open NonceSize Overhead cipher url_scheme internet decode decode_error).
Abbreviation RefreshAuto := (RefreshAuto (R:=R) Seal Open NonceSize Overhead cipher url_scheme internet decode decode_error).
Abbreviation stored := (stored_token Open NonceSize Overhead cipher).

Lemma lost_tryRT (s : wired R) id a c ns :
  stored (RefreshTokenEnc (AccInfo a)) = Some rt →
  inf s (tryRT id a c ns) (λ o s', replaced s' ∧ ∃ rej err, o = RTFailed rej err).
Proof.
  intros Hrt. unfold Refresher.tryRT. rewrite Hrt. eapply informed_pbind; [exact _|apply lost_exchange|].
  intros r s1 Hs1 HJ1 Hr. destruct (Hr s1) as [Hrep [exp ->]]; [done..|].
  assert (∀ (s2 : wired R) rej err, Grow s1 s2 →
    inf s2 (Done (RTFailed rej err)) (λ o s', replaced s' ∧ ∃ rej err, o = RTFailed rej err)) as Hf.
  { intros s2 rej err Hs2. apply inf_done. intros s3 Hs3. split; [|by eauto].
    apply (replaced_more s1); [by etrans|done]. }
  destruct (String.eqb newAT ""); [by apply Hf|]. eapply informed_pbind; [exact _|apply lost_verify|].
  intros v s2 Hs2 HJ2 Hv. pose proof (Hv s2 ltac:(done) HJ2) as Hv2. cbn beta in Hv2.
  destruct v as [err|status]; [by apply Hf|].
  destruct (Z.eqb_spec status 200) as [->|_]; [done|]. destruct (status =? 401); by apply Hf.
Qed.

(** Short of a success it writes nothing. *)
Lemma tryRT_untouched id a c ns (w : world (wired R)) rej err :
  w_faults w = [] → (exec_proc (tryRT id a c ns) w).1 = RTFailed rej err →
  sys_db (w_sys (w_db (exec_proc (tryRT id a c ns) w).2)) = sys_db (w_sys (w_db w)) ∧ w_faults (exec_proc (tryRT id a c ns) w).2 = [].
Proof.
  intros Hw. unfold Refresher.tryRT. destruct (stored _) as [token|]; [|done]. rewrite exec_pbind.
  set (cid := if String.eqb (ClientID (AccInfo a)) "" then _ else _).
  pose proof (follows_exec _ _ _ w (exchange_reads id token cid)) as [_ [E1 _]].
  pose proof (follows_exec_steady _ _ _ w (exchange_reads id token cid) Hw) as E2.
  destruct (exec_proc (rtToAT _ _ _ _ _ _ _ _ _ _ _) w) as [[x|[[at_ nrt] exp]] w1]; cbn [fst snd] in *; [by cbn; rewrite <-E1|].
  destruct (String.eqb at_ ""); [by cbn; rewrite <-E1|]. rewrite exec_pbind.
  pose proof (follows_exec _ _ _ w1 (verify_reads id at_)) as [_ [F1 _]].
  pose proof (follows_exec_steady _ _ _ w1 (verify_reads id at_) E2) as F2.
  destruct (exec_proc (verifyATOnWeb _ _ _ _ _ _ _ _) w1) as [[x|status] w2]; cbn [fst snd] in *; [by cbn; rewrite <-F1, <-E1|].
  destruct (status =? 200); [by rewrite exec_pbind|]. destruct (status =? 401); cbn; by rewrite <-F1, <-E1.
Qed.

(** The session token, if there is one, leaves the refresh token as it is. *)
Definition unrotated (a : Account) (r : result RefreshResult) : Prop :=
  match r with Ok res => RTRotated res = false ∧ (HasST a = false → RfOK res = false) | Err _ => True end.

Lemma no_session a : HasST a = false → stored (SessionTokenEnc (AccInfo a)) = None.
Proof.
  unfold HasST, stored_token. destruct (SessionTokenEnc (AccInfo a)) as [enc|]; [|done]. by destruct (String.eqb enc "").
Qed.

Lemma kept_giveUp (s : wired R) id a rej err : inf s (giveUp id a rej err) (λ r _, unrotated a r).
Proof.
  unfold giveUp. cbn zeta. apply inf_then_ok; [apply inf_now|by intros|]. intros t s1 _.
  apply inf_then; [apply (inf_keeps _ refresh_tokens_kept); [apply _|]; intros x d d' H1 H2; by etrans|].
  intros u s2 _. by apply inf_done.
Qed.

Lemma kept_tryST (s : wired R) id a rej err ns : inf s (tryST id a rej err ns) (λ r _, unrotated a r).
Proof.
  unfold Refresher.tryST. destruct (stored (SessionTokenEnc (AccInfo a))) as [st|] eqn:Est; [|apply kept_giveUp].
  assert (HasST a = true) as Hst by (destruct (HasST a) eqn:E; [done|by rewrite (no_session a E) in Est]).
  apply inf_then.
  { unfold stToAT. apply inf_then; [apply inf_clientFor|]. intros. inf_steps. }
  intros [err'|[at_ exp]] s1 _; [apply kept_giveUp|]. destruct (String.eqb at_ ""); [apply kept_giveUp|].
  unfold applyRefresh. apply inf_then_ok; [apply inf_now|by intros|]. intros t s2 _. cbv zeta.
  apply inf_then_ok; [apply (inf_keeps _ refresh_tokens_kept); [apply _|]; intros x d d' H1 H2; by etrans|by intros|].
  intros u s3 _. apply inf_done. intros s4 _. split; [done|]. by rewrite Hst.
Qed.

Lemma lost_refresh (s : wired R) id a c ns :
  stored (RefreshTokenEnc (AccInfo a)) = Some rt →
  inf s (RefreshAuto id a c ns) (λ r s', replaced s' ∧ unrotated a r).
Proof.
  intros Hrt. unfold Refresher.RefreshAuto. eapply informed_pbind; [exact _|by apply lost_tryRT|].
  intros o s1 Hs1 HJ1 Ho. destruct (Ho s1) as [Hrep (rej & err & ->)]; [done..|].
  eapply informed_weaken; [exact _|apply kept_tryST|]. intros r s2 Hs2 _ Hr. split; [|done]. by apply (replaced_more s1).
Qed.

(** The row of an account that was given up. *)
Definition marked_failed (b b' : Account) : Prop :=
  RefreshError (AccRefresh b') ≠ "" ∧ RefreshTokenEnc (AccInfo b') = RefreshTokenEnc (AccInfo b) ∧
  (AccStatus (AccInfo b') = StatusWarned ∨ AccStatus (AccInfo b') = StatusDead).

Lemma giveUp_marks id a rej err (w : world (wired R)) b :
  w_faults w = [] → oai_accounts (sys_db (w_sys (w_db w))) !! id = Some b → active b = true → HasST a = false →
  ∃ b', oai_accounts (sys_db (w_sys (w_db (exec_proc (giveUp id a rej err) w).2))) !! id = Some b' ∧ marked_failed b b'.
Proof.
  intros Hw Hb Hact Hst. unfold giveUp. cbv zeta. rewrite Hst. cbn [negb].
  match goal with |- context [RecordRefreshError id _ ?m _ _] => assert (m ≠ "") as Hm; [|set (msg := m) in *; clearbody msg] end.
  { destruct rej; [done|]. by destruct (String.eqb_spec err ""). }
  destruct w as [[sy x] fs]. cbn in Hw, Hb. subst fs. unfold pbind_ok, one, now, on_sys, Now. cbn. rewrite on_tables_spec. cbn.
  rewrite wait_db. unfold RecordRefreshError, void, update_account, exec, call, bind, id_update. cbn. rewrite Hb. cbn. rewrite Hact. cbn.
  rewrite lookup_insert_eq. eexists. split; [done|]. unfold marked_failed, refresh_failed. cbn. split; [done|]. split; [done|].
  destruct (TokenExpiresAt (AccInfo b)) as [t|]; [|by right]. destruct (_ <? t); [by left|by right].
Qed.

(** C40: a refresh loses the refresh token it was given.  Where the upstream
    answers the refresh token of an account with a new access token and a new
    refresh token, and then, for whatever reason (a rate limit, a broken
    connection), does not let the access token in, the new refresh token is
    written nowhere, whether or not there is a session token to go on with:
    every account keeps the refresh token it had, which the upstream has
    replaced, and no result says that it was rotated.  An account without a
    session token is not refreshed; where no call fails its row gets the error
    and is marked as warned or dead, with the old refresh token in it. *)
Theorem rotated_token_lost id a c ns (w : world (wired R)) r w' :
  stored (RefreshTokenEnc (AccInfo a)) = Some rt → sys_db (w_sys (w_db w)) = d0 →
  exec_proc (RefreshAuto id a c ns) w = (r, w') →
  refresh_tokens_kept d0 (sys_db (w_sys (w_db w'))) ∧ replaced (w_db w') ∧
  (∀ res, r = Ok res → RTRotated res = false ∧ (HasST a = false → RfOK res = false)) ∧
  (HasST a = false → w_faults w = [] → ∀ b, oai_accounts d0 !! id = Some b → active b = true →
   ∃ b', oai_accounts (sys_db (w_sys (w_db w'))) !! id = Some b' ∧ marked_failed b b').
Proof.
  intros Hrt Hd Hexec.
  destruct (informed_exec (J I) Grow _ _ _ w (lost_refresh (w_db w) id a c ns Hrt)) as (H1 & _ & H2 & H3);
    [done|by rewrite <-Hd; intros i|]. rewrite Hexec in *. split; [done|]. split; [done|].
  split; [by intros res ->|]. intros Hst Hw b Hb Hact.
  destruct (informed_exec (J I) Grow _ _ _ w (lost_tryRT (w_db w) id a c ns Hrt)) as (_ & _ & _ & rej & err & Ho);
    [done|by rewrite <-Hd; intros i|].
  destruct (tryRT_untouched id a c ns w rej err Hw Ho) as [Hd1 Hw1].
  unfold Refresher.RefreshAuto in Hexec. rewrite exec_pbind, Ho in Hexec. unfold Refresher.tryST in Hexec. rewrite (no_session a Hst) in Hexec.
  destruct (giveUp_marks id a rej err (exec_proc (tryRT id a c ns) w).2 b) as (b' & Hb' & Hmark); [done|by rewrite Hd1, Hd|done|done|].
  rewrite Hexec in Hb'. by exists b'.
Qed.
End rotation.

(** ** An upstream, for the witnesses

    It gives out tokens that name who they are for, and lets them in or not. *)

Definition sample_internet (me : Z) (_ : list exchange) (_ : Z) (_ : client) (q : question) : heard :=
  match q with
  | OAuthToken rt _ => HTTP 200 ("new:" +:+ rt)
  | AuthSession st => HTTP 200 ("session:" +:+ st)
  | Me _ => HTTP me ""
  | ConversationInit _ _ _ => HTTP 200 "init"
  end.
Definition sample_decode (s : string) : option json :=
  if HasPrefix s "new:" then
    Some (JObj [("access_token", JStr ("at of " +:+ TrimPrefix s "new:"));
                ("refresh_token", JStr ("next of " +:+ TrimPrefix s "new:")); ("expires_in", JNum "3600")])
  else if HasPrefix s "session:" then Some (JObj [("accessToken", JStr ("at of " +:+ TrimPrefix s "session:"))])
  else if String.eqb s "init" then
    Some (JObj [("limits_progress", JArr [JObj [("feature_name", JStr "image_gen"); ("remaining", JNum "7")]])])
  else None.
Definition sample_decode_error (s : string) : string := "invalid character".

Definition sample_nonces : Nonces := {| new_at_nonce := sample_nonce "e"; new_rt_nonce := sample_nonce "f" |}.
Definition sample_scheme (url : string) : option string := Some "http".

Definition sample_refresh (me : Z) : proc (wired unit) (result RefreshResult) :=
  RefreshByID UTC toy_seal toy_open 12 16 tt sample_scheme (sample_internet me) sample_decode sample_decode_error 1 ∅ sample_nonces.

Example refreshed_and_refused :
  map (λ me, match (exec_proc (sample_refresh me) (World sample_wired [])).1 with
             | Ok r => (RfOK r, RfSource r, RTRotated r, RfError r) | Err _ => (false, "", false, "") end) [200; 403] =
  [(true, "rt", true, ""); (false, "failed", false, "RT 换出的 AT 校验失败(HTTP 403)")].
Proof. by vm_compute. Qed.

(** A refresh, alone, from its arrival to its end. *)
Definition sample_page : proc (wired unit) (answer RefreshResult * list loop) :=
  Refresh UTC toy_seal toy_open 12 16 tt sample_scheme (sample_internet 200) sample_decode sample_decode_error (λ _, "") "1" ∅
    sample_nonces.
Definition refreshed_world : world (wired unit) := (advance 20 (forget sample_page) (World sample_wired [])).2.
Definition sample_request := request (R:=unit) UTC toy_seal toy_open 12 16 tt sample_scheme (sample_internet 200) sample_decode
  sample_decode_error [] False (λ _, ([], true)) (λ _, "").

Lemma sample_requested : sample_request (forget sample_page).
Proof. unfold sample_request, sample_page. apply req_refresh. reflexivity. Qed.

Lemma sample_run : ∃ ts, rtc (pool_step sample_request) ([], World sample_wired []) (ts, refreshed_world).
Proof.
  unfold refreshed_world. generalize (forget sample_page), sample_requested. intros p Hp. eexists.
  eapply rtc_l; [apply (step_arrive _ [] _ p Hp)|]. apply (pool_advance _ 20).
Qed.

Definition stored_at_end : option Account := oai_accounts (sys_db (w_sys (w_db refreshed_world))) !! 1%N.

Lemma tokens_vouched_witness :
  match stored_at_end with
  | Some a => decrypt toy_open 12 16 tt (AuthTokenEnc (AccInfo a)) = Ok "at of rt-1" ∧
      ((∃ a0, oai_accounts pool_db !! 1%N = Some a0 ∧ AuthTokenEnc (AccInfo a0) = AuthTokenEnc (AccInfo a)) ∨
       ∃ x, x ∈ w_wire (w_db refreshed_world) ∧
         (let_in "at of rt-1" x ∨ of_session sample_decode sample_decode_error "at of rt-1" x))
  | None => False
  end.
Proof.
  destruct stored_at_end as [a|] eqn:Ha; [|vm_compute in Ha; discriminate Ha].
  destruct sample_run as [ts Hrun].
  assert (Hd : (λ o : option Account, match o with Some a => decrypt toy_open 12 16 tt (AuthTokenEnc (AccInfo a)) | None => Ok "" end)
    stored_at_end = Ok "at of rt-1") by by vm_compute.
  rewrite Ha in Hd. cbn beta iota in Hd. split; [exact Hd|].
  destruct (tokens_vouched UTC toy_seal toy_open 12 16 tt sample_scheme (sample_internet 200) sample_decode sample_decode_error
      toy_open_seal toy_seal_length pool_db [] False (λ _, ([], true)) (λ _, "") sample_wired [] ts refreshed_world 1 a eq_refl Hrun Ha)
    as [_ [H|(at_ & x & H1 & H2 & H3)]]; [done|by intros []|by left|right].
  rewrite Hd in H1. injection H1 as <-. by exists x.
Defined.

Definition sample_account : Account := default (new_account (created_info toy_seal tt (λ _, None) (sample_input "") sample_randomness 0))
  (oai_accounts pool_db !! 1%N).

Definition sample_refusal := exec_proc (RefreshAuto toy_seal toy_open 12 16 tt sample_scheme (sample_internet 403) sample_decode
  sample_decode_error 1 sample_account ∅ sample_nonces) (World sample_wired []).

Lemma rotated_token_lost_witness :
  refresh_tokens_kept pool_db (sys_db (w_sys (w_db sample_refusal.2))) ∧
  replaced sample_decode sample_decode_error "rt-1" "at of rt-1" "next of rt-1" 3600 (w_db sample_refusal.2) ∧
  ∃ b b', oai_accounts pool_db !! 1%N = Some b ∧
    oai_accounts (sys_db (w_sys (w_db sample_refusal.2))) !! 1%N = Some b' ∧ marked_failed b b'.
Proof.
  assert (stored_token toy_open 12 16 tt (RefreshTokenEnc (AccInfo sample_account)) = Some "rt-1") as Hrt by by vm_compute.
  assert (HasST sample_account = false) as Hst by by vm_compute.
  assert (∀ (x : list exchange) (t : Z) cl cid, oauth_reply sample_decode sample_decode_error "rt refresh"
    (sample_internet 403 x t cl (OAuthToken "rt-1" cid)) = inr ("at of rt-1", "next of rt-1", 3600)) as Hg by by vm_compute.
  assert (active sample_account = true) as Hact by by vm_compute.
  assert (oai_accounts pool_db !! 1%N = Some sample_account) as Hrow.
  { unfold sample_account. destruct (oai_accounts pool_db !! 1%N) eqn:E; [done|]. vm_compute in E. discriminate E. }
  unfold sample_refusal. revert Hrt Hst Hact Hrow. generalize sample_account. intros account Hrt Hst Hact Hrow.
  destruct (exec_proc _ _) as [r w'] eqn:E.
  destruct (rotated_token_lost toy_seal toy_open 12 16 tt sample_scheme (sample_internet 403) sample_decode sample_decode_error
    "rt-1" "at of rt-1" "next of rt-1" 3600 pool_db Hg (λ _ _ _, ltac:(by cbn)) 1 account ∅ sample_nonces
    (World sample_wired []) r w' Hrt eq_refl E) as (H1 & H2 & _ & H4).
  split; [exact H1|]. split; [exact H2|]. destruct (H4 Hst eq_refl account Hrow Hact) as (b' & H5 & H6). by exists account, b'.
Defined.
