(* ===== verification/Books.v ===== *)
(** * What leaves the books alone

    The statements a request sends on its way, on accounts, proxies, channels,
    models and keys, touch neither a wallet nor the journal. *)

From S2P Require Import Prelude GoStrings GoTime Sql Schema Crypto Ledger Models Users ProxyPool Account Channels Tasks ApiKey.

#[export] Instance update_account_books id P f : Keeps same_books (update_account id P f).
Proof. by apply update_books. Qed.
#[export] Instance update_channel_books id P f : Keeps same_books (update_channel id P f).
Proof. by apply update_books. Qed.
#[export] Instance update_account_steady id P f : Steady (update_account id P f).
Proof. unfold update_account. apply _. Qed.
#[export] Instance update_channel_steady id P f : Steady (update_channel id P f).
Proof. unfold update_channel. apply _. Qed.

(** [books]: a statement that is neither on users nor on the journal. *)
Ltac books := unfold void; repeat first [progress intros | apply _ | apply bind_keeps | (by apply update_books)].

Section accounts.
Context (loc : GoTime.location).

#[export] Instance ListDispatchable_books limit now : Keeps same_books (ListDispatchable loc limit now).
Proof. unfold ListDispatchable. books. Qed.
#[export] Instance EnsureDeviceID_books id x : Keeps same_books (EnsureDeviceID id x).
Proof. unfold EnsureDeviceID. books. Qed.
#[export] Instance EnsureSessionID_books id x : Keeps same_books (EnsureSessionID id x).
Proof. unfold EnsureSessionID. books. Qed.
#[export] Instance read_device_books id : Keeps same_books (read_device id).
Proof. unfold read_device. books. Qed.
#[export] Instance read_session_books id : Keeps same_books (read_session id).
Proof. unfold read_session. books. Qed.
#[export] Instance GetBinding_books id : Keeps same_books (GetBinding id).
Proof. unfold GetBinding. books. Qed.
#[export] Instance MarkUsed_books id day now : Keeps same_books (MarkUsed id day now).
Proof. unfold MarkUsed. books. Qed.
#[export] Instance SetStatus_books id status until : Keeps same_books (SetStatus id status until).
Proof. unfold SetStatus. books. Qed.

#[export] Instance ListDispatchable_steady limit now : Steady (ListDispatchable loc limit now).
Proof. unfold ListDispatchable. apply _. Qed.
#[export] Instance EnsureDeviceID_steady id x : Steady (EnsureDeviceID id x).
Proof. unfold EnsureDeviceID, void. apply _. Qed.
#[export] Instance EnsureSessionID_steady id x : Steady (EnsureSessionID id x).
Proof. unfold EnsureSessionID, void. apply _. Qed.
#[export] Instance read_device_steady id : Steady (read_device id).
Proof. unfold read_device. apply _. Qed.
#[export] Instance read_session_steady id : Steady (read_session id).
Proof. unfold read_session. apply _. Qed.
#[export] Instance GetBinding_steady id : Steady (GetBinding id).
Proof. unfold GetBinding. apply _. Qed.
#[export] Instance MarkUsed_steady id day now : Steady (MarkUsed id day now).
Proof. unfold MarkUsed, void. apply _. Qed.
#[export] Instance SetStatus_steady id status until : Steady (SetStatus id status until).
Proof. unfold SetStatus, void. apply _. Qed.
End accounts.

Section proxies.
#[export] Instance proxy_books id : Keeps same_books (ProxyPool.GetByID id).
Proof. unfold ProxyPool.GetByID. books. Qed.
#[export] Instance ListRuntimeCandidates_books limit : Keeps same_books (ListRuntimeCandidates limit).
Proof. unfold ListRuntimeCandidates. books. Qed.
#[export] Instance TouchLastUsed_books id now : Keeps same_books (TouchLastUsed id now).
Proof. unfold TouchLastUsed. books. Qed.
#[export] Instance DeductHealth_books id deduct err : Keeps same_books (DeductHealthOnRuntimeFailure id deduct err).
Proof. unfold DeductHealthOnRuntimeFailure. books. Qed.

#[export] Instance proxy_steady id : Steady (ProxyPool.GetByID id).
Proof. unfold ProxyPool.GetByID. apply _. Qed.
#[export] Instance ListRuntimeCandidates_steady limit : Steady (ListRuntimeCandidates limit).
Proof. unfold ListRuntimeCandidates. apply _. Qed.
#[export] Instance TouchLastUsed_steady id now : Steady (TouchLastUsed id now).
Proof. unfold TouchLastUsed, void. apply _. Qed.
#[export] Instance DeductHealth_steady id deduct err : Steady (DeductHealthOnRuntimeFailure id deduct err).
Proof. unfold DeductHealthOnRuntimeFailure, void. apply _. Qed.
End proxies.

Section tasks.
Context (json_column : string → option string) (marshal : list string → string).

Lemma task_update_books where_ upd d n d' :
  all_update image_tasks with_image_tasks where_ upd d = Ok (n, d') → same_books d d'.
Proof. unfold all_update. by intros [= _ <-]. Qed.

#[export] Instance update_tasks_books P f : Keeps same_books (update_tasks P f).
Proof. apply exec_keeps; [apply _|]. intros d a d'. apply task_update_books. Qed.
#[export] Instance update_tasks_steady P f : Steady (update_tasks P f).
Proof. unfold update_tasks. apply _. Qed.
#[export] Instance MarkRunning_books id acc now : Keeps same_books (MarkRunning id acc now).
Proof. unfold MarkRunning. books. Qed.
#[export] Instance MarkRunning_steady id acc now : Steady (MarkRunning id acc now).
Proof. unfold MarkRunning, void. apply _. Qed.
#[export] Instance SetAccount_books id acc : Keeps same_books (SetAccount id acc).
Proof. unfold SetAccount. books. Qed.
#[export] Instance SetAccount_steady id acc : Steady (SetAccount id acc).
Proof. unfold SetAccount, void. apply _. Qed.
#[export] Instance MarkFailed_books id code now : Keeps same_books (MarkFailed id code now).
Proof. unfold MarkFailed. books. Qed.
#[export] Instance MarkFailed_steady id code now : Steady (MarkFailed id code now).
Proof. unfold MarkFailed, void. apply _. Qed.
#[export] Instance UpdateCost_books id cost : Keeps same_books (UpdateCost id cost).
Proof. unfold UpdateCost. books. Qed.
#[export] Instance UpdateCost_steady id cost : Steady (UpdateCost id cost).
Proof. unfold UpdateCost, void. apply _. Qed.
#[export] Instance MarkSuccess_books id conv f u t mode cost now :
  Keeps same_books (MarkSuccess json_column marshal id conv f u t mode cost now).
Proof.
  unfold MarkSuccess, void. apply bind_keeps; [apply _| |apply _]. apply exec_keeps; [apply _|]. intros d a d'.
  destruct (json_value _ _), (json_value _ _), (json_value _ _); cbn; try done. apply task_update_books.
Qed.
#[export] Instance MarkSuccess_steady id conv f u t mode cost now :
  Steady (MarkSuccess json_column marshal id conv f u t mode cost now).
Proof. unfold MarkSuccess, void. apply _. Qed.
#[export] Instance UpdateReferences_books id u t : Keeps same_books (UpdateReferences json_column marshal id u t).
Proof.
  unfold UpdateReferences, void. apply bind_keeps; [apply _| |apply _]. apply exec_keeps; [apply _|]. intros d a d'.
  destruct (json_value _ _), (json_value _ _); cbn; try done. apply task_update_books.
Qed.
#[export] Instance UpdateReferences_steady id u t : Steady (UpdateReferences json_column marshal id u t).
Proof. unfold UpdateReferences, void. apply _. Qed.
#[export] Instance task_create_books t now : Keeps same_books (Tasks.Create json_column t now).
Proof.
  intros w. unfold Tasks.Create. match goal with |- context [exec ?f w] => pose proof (exec_keeps same_books f) as H end.
  specialize (H ltac:(intros d a d'; destruct (Tasks.new_row _ t now); cbn; [|done];
    destruct (task_taken _ d); [done|]; by intros [= _ <-])). specialize (H w). by destruct (exec _ w).
Qed.
#[export] Instance task_create_steady t now : Steady (Tasks.Create json_column t now).
Proof.
  intros w Hw. unfold Tasks.Create. match goal with |- context [exec ?f w] => pose proof (steady (m:=exec f) w Hw) as H end.
  by destruct (exec _ w).
Qed.
#[export] Instance DecrQuota_books id n : Keeps same_books (DecrQuota id n).
Proof. unfold DecrQuota. books. Qed.
#[export] Instance DecrQuota_steady id n : Steady (DecrQuota id n).
Proof. unfold DecrQuota, void. apply _. Qed.
End tasks.

Section others.
Context {AEAD : Type} (Open : AEAD → list ascii → list ascii → result (list ascii))
        (NonceSize Overhead : nat) (cipher : AEAD).

#[export] Instance DecryptCookies_books id : Keeps same_books (DecryptCookies Open NonceSize Overhead cipher id).
Proof. unfold DecryptCookies, GetCookies. books. Qed.
#[export] Instance DecryptCookies_steady id : Steady (DecryptCookies Open NonceSize Overhead cipher id).
Proof. unfold DecryptCookies, GetCookies. apply _. Qed.
#[export] Instance Resolve_books m md : Keeps same_books (Resolve Open NonceSize Overhead cipher m md).
Proof. unfold Resolve, ResolveByLocalModel. books. Qed.
#[export] Instance Resolve_steady m md : Steady (Resolve Open NonceSize Overhead cipher m md).
Proof. unfold Resolve, ResolveByLocalModel. apply _. Qed.
#[export] Instance MarkHealth_books id c ok err now : Keeps same_books (MarkHealth id c ok err now).
Proof. unfold MarkHealth, UpdateHealth. books. Qed.
#[export] Instance MarkHealth_steady id c ok err now : Steady (MarkHealth id c ok err now).
Proof. unfold MarkHealth, UpdateHealth. apply _. Qed.
#[export] Instance TouchUsage_books id ip used now : Keeps same_books (TouchUsage id ip used now).
Proof. unfold TouchUsage. books. Qed.
#[export] Instance TouchUsage_steady id ip used now : Steady (TouchUsage id ip used now).
Proof. unfold TouchUsage. apply _. Qed.
#[export] Instance GetBySlug_books slug : Keeps same_books (Models.GetBySlug slug).
Proof. unfold Models.GetBySlug. books. Qed.
#[export] Instance GetBySlug_steady slug : Steady (Models.GetBySlug slug).
Proof. unfold Models.GetBySlug. apply _. Qed.
#[export] Instance ListModels_books : Keeps same_books ListModels.
Proof. unfold ListModels. books. Qed.
#[export] Instance ListModels_steady : Steady ListModels.
Proof. unfold ListModels. apply _. Qed.
#[export] Instance user_books id : Keeps same_books (Users.GetByID id).
Proof. unfold Users.GetByID. books. Qed.
#[export] Instance user_steady id : Steady (Users.GetByID id).
Proof. unfold Users.GetByID. apply _. Qed.
#[export] Instance GetGroup_books id : Keeps same_books (GetGroup id).
Proof. unfold GetGroup. books. Qed.
#[export] Instance GetGroup_steady id : Steady (GetGroup id).
Proof. unfold GetGroup. apply _. Qed.
End others.
