(* ===== verification/Upstream.v ===== *)
(** * The client of ChatGPT as the handlers see it (internal/upstream/chatgpt/client.go)

    The options a client is built from, its errors and what the first exchange
    returns.  The exchanges themselves go over the network: the handlers take
    what they return as an argument. *)

From S2P Require Import Prelude GoStrings.

(** [chatgpt.Options], the fields the gateway sets *)
Record Options := {
  OptAuthToken : string;
  OptDeviceID : string;
  OptSessionID : string;
  OptProxyURL : string;
  OptCookies : string;
  OptTimeout : Z
}.

(** An error of the client: an HTTP answer of the upstream, or anything else. *)
Inductive uerr :=
  | UpstreamError (status : Z) (message body : string)
  | Failed (text : string).

Definition IsRateLimited (status : Z) : bool := status =? 429.
Definition IsUnauthorized (status : Z) : bool := (status =? 401) || (status =? 403).

Record ChatRequirementsResp := {
  Token : string;
  Persona : string;
  PowRequired : bool
}.

Definition IsFreeAccount (cr : ChatRequirementsResp) : bool := String.eqb (Persona cr) "chatgpt-freeaccount".

Definition isProxyTransportError (e : uerr) : bool :=
  match e with
  | UpstreamError _ _ _ => false
  | Failed text =>
      let msg := ToLower (TrimSpace text) in
      if String.eqb msg "" then false else
      existsb (Contains msg)
        ["invalid proxy url"; "unsupported proxy scheme"; "dial proxy"; "tls handshake to https proxy";
         "proxyconnect"; "proxy connect"]
  end.

Definition error_text (e : uerr) : string :=
  match e with
  | UpstreamError status message _ => "chatgpt upstream " +:+ pretty status +:+ ": " +:+ message
  | Failed text => text
  end.
