(* ===== verification/Refs.v ===== *)
(** * Finding the images of a conversation (internal/upstream/chatgpt/image.go)

    The upstream names the images it draws by references in its events and in
    the messages of a conversation.  [ParseImageSSE] collects them from the
    stream of an answer, [PollConversationForImages] asks for the conversation
    until there are enough.  encoding/json is a parameter ([decode]), and so
    are the exchanges ([conversation]: the answer to the nth request). *)

From S2P Require Import Prelude GoStrings GoTime Sql Schema System Proc Upstream Json Delta.
From Stdlib Require Import QArith.

#[local] Open Scope Z_scope.

(** ** The regular expressions [prefix([A-Za-z0-9_-]+)] *)

Definition ref_char (c : ascii) : bool :=
  is_lower c || is_upper c || is_digit c || Ascii.eqb c "_" || Ascii.eqb c "-".

(** The longest run at the start. *)
Fixpoint ref_run (s : string) : string :=
  match s with
  | String c s => if ref_char c then String c (ref_run s) else ""
  | "" => ""
  end.

(** [FindAllSubmatch]: leftmost, greedy, without overlap; [skip] bytes still
    belong to the last match. *)
Fixpoint find_all (prefix : string) (skip : nat) (s : string) : list string :=
  match s with
  | "" => []
  | String _ s' =>
      match skip with
      | S k => find_all prefix k s'
      | O =>
          let id := ref_run (string_drop (String.length prefix) s) in
          if HasPrefix s prefix && negb (String.eqb id "")
          then id :: find_all prefix (String.length prefix + String.length id - 1) s'
          else find_all prefix 0 s'
      end
  end.

Definition reFileRef : string → list string := find_all "file-service://" 0.
Definition reSedRef : string → list string := find_all "sediment://" 0.

(** [if _, ok := seen[x]; !ok { seen[x] = ..; out = append(out, x) }]: what
    has been seen is what has been kept. *)
Definition add_new (out : list string) (x : string) : list string :=
  if bool_decide (x ∈ out) then out else out ++ [x].
Definition add_all : list string → list string → list string := foldl add_new.

(** ** The stream *)

Record ImageSSEResult := {
  SSEConversationID : string;
  SSEFileIDs : list string;
  SSESedimentIDs : list string;
  FinishType : string;
  ImageGenTaskID : string
}.

Section parse.
Context (decode : string → option json).

(** What one event adds. *)
Definition sse_event (r : ImageSSEResult) (data : string) : ImageSSEResult :=
  let files := add_all (SSEFileIDs r) (reFileRef data) in
  let seds := add_all (SSESedimentIDs r) (reSedRef data) in
  let v := match decode data with Some (JObj obj) => as_object (field "v" obj) | _ => None end in
  let meta := match v with
              | Some v => match as_object (field "message" v) with
                          | Some msg => as_object (field "metadata" msg)
                          | None => None end
              | None => None end in
  {| SSEConversationID :=
       match v with
       | Some v => match as_string (field "conversation_id" v) with
                   | Some cid => if String.eqb cid "" || negb (String.eqb (SSEConversationID r) "")
                                 then SSEConversationID r else cid
                   | None => SSEConversationID r end
       | None => SSEConversationID r end;
     SSEFileIDs := files;
     SSESedimentIDs := seds;
     FinishType :=
       match meta with
       | Some meta => match as_object (field "finish_details" meta) with
                      | Some fd => default (FinishType r) (as_string (field "type" fd))
                      | None => FinishType r end
       | None => FinishType r end;
     ImageGenTaskID :=
       match meta with
       | Some meta => default (ImageGenTaskID r) (as_string (field "image_gen_task_id" meta))
       | None => ImageGenTaskID r end |}.

Fixpoint parse_events (r : ImageSSEResult) (stream : list SSEEvent) : ImageSSEResult :=
  match stream with
  | [] => r
  | EvErr _ :: _ => r
  | EvData _ data :: stream =>
      if String.eqb data "" then parse_events r stream
      else if String.eqb data "[DONE]" then r
      else parse_events (sse_event r data) stream
  end.

Definition ParseImageSSE (stream : list SSEEvent) : ImageSSEResult :=
  parse_events {| SSEConversationID := ""; SSEFileIDs := []; SSESedimentIDs := []; FinishType := ""; ImageGenTaskID := "" |}
    stream.
End parse.

(** ** The messages of a conversation *)

Record ImageToolMsg := {
  MessageID : string;
  CreateTime : Q;
  ModelSlug : string;
  Recipient : string;
  AuthorName : string;
  ImageGenTitle : string;
  MsgFileIDs : list string;
  MsgSedimentIDs : list string
}.

Section messages.
(** The value of a JSON number. *)
Context (num : string → Q).

Definition str_of (v : option json) : string := default "" (as_string v).

Definition asset_text (p : json) : string :=
  match p with
  | JObj m => str_of (field "asset_pointer" m)
  | JStr s => s
  | _ => ""
  end.

(** One node of the mapping. *)
Definition tool_msg (mid : string) (raw : json) : option ImageToolMsg :=
  node ← as_object (Some raw);
  msg ← as_object (field "message" node);
  author ← as_object (field "author" msg);
  meta ← as_object (field "metadata" msg);
  content ← as_object (field "content" msg);
  if negb (String.eqb (str_of (field "role" author)) "tool") then None
  else if negb (String.eqb (str_of (field "async_task_type" meta)) "image_gen") then None
  else if negb (String.eqb (str_of (field "content_type" content)) "multimodal_text") then None
  else
    let texts := map asset_text (default [] (as_array (field "parts" content))) in
    Some {| MessageID := mid;
            CreateTime := match field "create_time" msg with Some (JNum t) => num t | _ => 0%Q end;
            ModelSlug := str_of (field "model_slug" meta);
            Recipient := str_of (field "recipient" msg);
            AuthorName := str_of (field "name" author);
            ImageGenTitle := str_of (field "image_gen_title" meta);
            MsgFileIDs := foldl (λ acc t, add_all acc (reFileRef t)) [] texts;
            MsgSedimentIDs := foldl (λ acc t, add_all acc (reSedRef t)) [] texts |}.

(** The entries of a Go map, in the order [range] visits them: that of the
    fields, which is left open; the last of equal names stays. *)
Fixpoint entries (m : list (string * json)) : list (string * json) :=
  match m with
  | [] => []
  | (k, v) :: m => if bool_decide (k ∈ m.*1) then entries m else (k, v) :: entries m
  end.

(** [sort.Slice] by the time of creation. *)
Definition ExtractImageToolMsgs (mapping : list (string * json)) : list ImageToolMsg :=
  sort_by (λ a b, Qle_bool (CreateTime a) (CreateTime b)) (omap (λ p, tool_msg p.1 p.2) (entries mapping)).

(** ** Polling *)

Record PollOpts := {
  BaselineToolIDs : list string;
  ExpectedN : Z;
  MaxWait : Z;
  Interval : Z
}.

Definition normalizePollOpts (opt : PollOpts) : PollOpts := {|
  BaselineToolIDs := BaselineToolIDs opt;
  ExpectedN := if ExpectedN opt <=? 0 then 1 else ExpectedN opt;
  MaxWait := if MaxWait opt <=? 0 then 300 * second else MaxWait opt;
  Interval := if Interval opt <=? 0 then 3 * second else Interval opt |}.

Inductive PollStatus := PollSuccess | PollTimeout | PollError.

Definition found : Type := PollStatus * list string * list string.

Context (decode : string → option json).

(** The body of the nth answer, or the error of the exchange. *)
Context (conversation : nat → uerr + string).

(** [getMappingRaw] over [GetConversationMapping]: a document that is no
    object is an error, a missing mapping an empty one. *)
Definition getMappingRaw (convID : string) (n : nat) : uerr + list (string * json) :=
  if String.eqb convID "" then inl (Failed "conv_id required") else
  match conversation n with
  | inl e => inl e
  | inr body =>
      match decode body with
      | Some (JObj full) => inr (default [] (as_object (field "mapping" full)))
      | Some JNull => inr []
      | _ => inl (Failed "decode conversation: ")
      end
  end.

Context {R : Type}.
Abbreviation process := (proc (system R)).

(** The deadline of the context, if it has one. *)
Context (ctx_done : option Z).

Definition expired (now : Z) : bool := match ctx_done with Some t => t <=? now | None => false end.

(** [sleep]: until the timer or the context. *)
Definition sleep (d : Z) : process unit :=
  r <~ one Now ;;
  let now := match r with Ok t => t | Err _ => 0 end in
  let d := match ctx_done with Some t => if t <=? now + d then Z.max 0 (t - now) else d | None => d end in
  _ <~ one (Sleep d) ;;
  Done tt.

(** The references in the new messages, after those seen so far. *)
Definition gather_refs (baseline : list string) (acc : list string * list string) (mapping : list (string * json)) :
    list string * list string :=
  let msgs := filter (λ m, MessageID m ∉ baseline) (ExtractImageToolMsgs mapping) in
  (foldl (λ l m, add_all l (MsgFileIDs m)) acc.1 msgs, foldl (λ l m, add_all l (MsgSedimentIDs m)) acc.2 msgs).

Definition count (acc : list string * list string) : Z := Z.of_nat (length acc.1) + Z.of_nat (length acc.2).

Definition is_429 (e : uerr) : bool := match e with UpstreamError status _ _ => status =? 429 | Failed _ => false end.

(** [n] requests have been sent, the last [hot] of them answered 429. *)
Fixpoint poll_loop (fuel : nat) (opt : PollOpts) (convID : string) (deadline : Z) (n : nat) (hot : Z)
    (acc : list string * list string) : process (option found) :=
  match fuel with
  | O => Done None
  | S fuel =>
      r <~ one Now ;;
      let now := match r with Ok t => t | Err _ => 0 end in
      if negb (now <? deadline) then
        Done (Some (if 0 <? count acc then (PollSuccess, acc.1, acc.2) else (PollTimeout, [], [])))
      else
      r <~ one Now ;;
      if expired (match r with Ok t => t | Err _ => 0 end) then Done (Some (PollError, [], [])) else
        match getMappingRaw convID n with
        | inl e =>
            if is_429 e then
              if 3 <=? hot + 1 then Done (Some (PollError, [], [])) else
              _ <~ sleep (10 * second) ;;
              poll_loop fuel opt convID deadline (S n) (hot + 1) acc
            else
              _ <~ sleep (Interval opt) ;;
              poll_loop fuel opt convID deadline (S n) hot acc
        | inr mapping =>
            let acc := gather_refs (BaselineToolIDs opt) acc mapping in
            if ExpectedN opt <=? count acc then Done (Some (PollSuccess, acc.1, acc.2)) else
            _ <~ sleep (Interval opt) ;;
            poll_loop fuel opt convID deadline (S n) 0 acc
        end
  end.

(** A round takes the interval or ten seconds, unless the context ends. *)
Definition poll_fuel (opt : PollOpts) : nat :=
  Z.to_nat (MaxWait opt / Z.min (Interval opt) (10 * second)) + 3.

Definition PollConversationForImages (convID : string) (opt : PollOpts) : process (option found) :=
  let opt := normalizePollOpts opt in
  r <~ one Now ;;
  let now := match r with Ok t => t | Err _ => 0 end in
  poll_loop (poll_fuel opt) opt convID (now + MaxWait opt) 0 0 ([], []).
End messages.

(** ** What is found *)

Definition is_ref (id : string) : Prop := id ≠ "" ∧ Forall (λ c, ref_char c = true) (bytes id).

Lemma ref_run_chars s : Forall (λ c, ref_char c = true) (bytes (ref_run s)).
Proof. induction s as [|c s IH]; cbn; [constructor|]. destruct (ref_char c) eqn:E; [by constructor|constructor]. Qed.

Lemma find_all_refs prefix skip s : Forall is_ref (find_all prefix skip s).
Proof.
  revert skip. induction s as [|c s IH]; intros [|skip]; cbn [find_all]; [constructor..| |apply IH].
  destruct (_ && _) eqn:E; [|apply IH]. constructor; [|apply IH].
  apply andb_true_iff in E as [_ E]. split; [|apply ref_run_chars].
  intros H. by rewrite H in E.
Qed.

(** A list of references, none twice. *)
Definition ref_list (l : list string) : Prop := NoDup l ∧ Forall is_ref l.

Lemma ref_list_nil : ref_list [].
Proof. split; constructor. Qed.

Lemma add_new_spec l x : ref_list l → is_ref x → ref_list (add_new l x).
Proof.
  intros [H1 H2] Hx. unfold add_new. case_bool_decide as E; [done|]. split.
  - apply NoDup_app. split_and!; [done| |apply NoDup_singleton]. intros y Hy ->%list_elem_of_singleton. done.
  - apply Forall_app. split; [done|]. by apply Forall_singleton.
Qed.

Lemma add_all_spec l xs : ref_list l → Forall is_ref xs → ref_list (add_all l xs).
Proof.
  intros Hl Hxs. revert l Hl. induction Hxs as [|x xs Hx _ IH]; intros l Hl; cbn; [done|].
  apply IH, add_new_spec; done.
Qed.
#[local] Hint Resolve ref_list_nil add_all_spec find_all_refs : refs.

Lemma foldl_refs {A} (f : A → list string) acc xs :
  (∀ x, Forall is_ref (f x)) → ref_list acc → ref_list (foldl (λ l x, add_all l (f x)) acc xs).
Proof. intros Hf. revert acc. induction xs as [|x xs IH]; cbn; auto with refs. Qed.

Lemma ParseImageSSE_refs decode stream :
  ref_list (SSEFileIDs (ParseImageSSE decode stream)) ∧ ref_list (SSESedimentIDs (ParseImageSSE decode stream)).
Proof.
  unfold ParseImageSSE. match goal with |- context [parse_events _ ?r _] =>
    assert (ref_list (SSEFileIDs r) ∧ ref_list (SSESedimentIDs r)) as Hr by (by split; apply ref_list_nil);
    revert Hr; generalize r end.
  induction stream as [|[e|ev data] stream IH]; intros r Hr; cbn [parse_events]; [done..|].
  destruct (String.eqb data ""); [by apply IH|]. destruct (String.eqb data "[DONE]"); [done|].
  apply IH. destruct Hr. cbn. unfold reFileRef, reSedRef. auto with refs.
Qed.

Lemma tool_msg_refs num mid raw m :
  tool_msg num mid raw = Some m → Forall is_ref (MsgFileIDs m) ∧ Forall is_ref (MsgSedimentIDs m).
Proof.
  unfold tool_msg. intros H.
  repeat match type of H with
    | (_ ← ?x; _) = Some _ => let E := fresh in destruct x eqn:E; cbn [mbind option_bind] in H; [|done]
    | (if ?b then _ else _) = _ => destruct b; [done|]
    end.
  injection H as <-. cbn [MsgFileIDs MsgSedimentIDs]. unfold reFileRef, reSedRef.
  split; (eapply foldl_refs; [|apply ref_list_nil]; intros; apply find_all_refs).
Qed.

Lemma gather_refs_spec num baseline acc mapping :
  ref_list acc.1 → ref_list acc.2 →
  ref_list (gather_refs num baseline acc mapping).1 ∧ ref_list (gather_refs num baseline acc mapping).2.
Proof.
  intros H1 H2. unfold gather_refs. cbn [fst snd].
  set (msgs := filter _ _).
  assert (Forall (λ m, Forall is_ref (MsgFileIDs m) ∧ Forall is_ref (MsgSedimentIDs m)) msgs) as Hm.
  { apply Forall_forall. intros m Hm. apply list_elem_of_filter in Hm as [_ Hm]. unfold ExtractImageToolMsgs in Hm.
    rewrite elem_of_sort_by, list_elem_of_omap in Hm. destruct Hm as ([mid raw] & _ & Hm). by eapply tool_msg_refs. }
  generalize msgs Hm. clear msgs Hm. intros msgs Hm. destruct acc as [a b]. cbn [fst snd] in *. revert a b H1 H2.
  induction Hm as [|m msgs [] _ IH]; intros a b Ha Hb; cbn [foldl]; [done|]. apply IH; by apply add_all_spec.
Qed.

(** ** Polling ends *)

Section polling.
Context (num : string → Q) (decode : string → option json) (conversation : nat → uerr + string).
Context {R : Type} (ctx_done : option Z).
Implicit Types w : world (system R).

Abbreviation now_of w := (sys_now (w_db w)).

Lemma Now_at w : (Now w).1 = Ok (now_of (Now w).2) ∧ now_of w ≤ now_of (Now w).2.
Proof. split; [done|]. pose proof (wait_now 0 (w_db w)). cbn. lia. Qed.

(** After a sleep either the time has passed or the context is over. *)
Lemma sleep_until d w :
  0 ≤ d →
  now_of w + d ≤ now_of (exec_proc (sleep (R:=R) ctx_done d) w).2 ∨
  expired ctx_done (now_of (exec_proc (sleep (R:=R) ctx_done d) w).2) = true.
Proof.
  intros Hd. unfold sleep. rewrite exec_pbind_one. destruct (Now_at w) as [-> Hn].
  set (t0 := now_of (Now w).2) in *. cbn [pbind one exec_proc Sleep w_db]. cbn.
  unfold expired. destruct ctx_done as [t|]; [destruct (Z.leb_spec t (t0 + d))|].
  - right. pose proof (wait_now (Z.max 0 (t - t0)) (w_db (Now w).2) ltac:(lia)). apply Z.leb_le.
    unfold t0 in *. cbn in *. lia.
  - left. pose proof (wait_now d (w_db (Now w).2) Hd). unfold t0 in *. cbn in *. lia.
  - left. pose proof (wait_now d (w_db (Now w).2) Hd). unfold t0 in *. cbn in *. lia.
Qed.

(** Enough fuel: one round for an expired context, or one per step of the
    clock. *)
Definition fuelled (step deadline : Z) (fuel : nat) (now : Z) : Prop :=
  (1 ≤ fuel)%nat ∧ (expired ctx_done now = true ∨ deadline < now + (Z.of_nat fuel - 1) * step).

Lemma fuelled_sleep step deadline fuel d w now :
  0 < step ≤ d → now ≤ now_of w → now < deadline → expired ctx_done now = false →
  fuelled step deadline (S fuel) now →
  fuelled step deadline fuel (now_of (exec_proc (sleep (R:=R) ctx_done d) w).2).
Proof.
  intros Hs Hn Hd He [_ [H|H]]; [congruence|].
  assert (1 ≤ fuel)%nat by (destruct fuel; [lia|lia]).
  split; [done|]. destruct (sleep_until d w ltac:(lia)) as [Ht|Ht]; [right|by left]. nia.
Qed.

Lemma expired_mono t t' : t ≤ t' → expired ctx_done t = true → expired ctx_done t' = true.
Proof. unfold expired. destruct ctx_done; [|done]. intros H E. apply Z.leb_le in E. apply Z.leb_le. lia. Qed.

(** What the first [k] answers come to: the references in them, and how many
    429s there have been since the last mapping. *)
Fixpoint answers (conv : nat → uerr + string) (baseline : list string) (convID : string) (k : nat) : list string * list string * Z :=
  match k with
  | O => ([], [], 0)
  | S k =>
      let '(acc, hot) := answers conv baseline convID k in
      match getMappingRaw decode conv convID k with
      | inl e => (acc, if is_429 e then hot + 1 else hot)
      | inr mapping => (gather_refs num baseline acc mapping, 0)
      end
  end.

(** What a poll may report after those answers, at the time [now]. *)
Definition reported (opt : PollOpts) (deadline now : Z) (heard : list string * list string * Z) (r : found) : Prop :=
  let '(status, files, seds) := r in
  ref_list files ∧ ref_list seds ∧
  match status with
  | PollSuccess => (files, seds) = heard.1 ∧ (files, seds) ≠ ([], []) ∧ (ExpectedN opt ≤ count heard.1 ∨ deadline ≤ now)
  | PollTimeout => (files, seds) = ([], []) ∧ heard.1 = ([], []) ∧ deadline ≤ now
  | PollError => (files, seds) = ([], []) ∧ (3 ≤ heard.2 ∨ expired ctx_done now = true)
  end.

Lemma count_pos files seds : 0 < count (files, seds) ↔ (files, seds) ≠ ([], []).
Proof. unfold count. cbn. destruct files as [|x l], seds as [|y l']; cbn; split; [lia|done|done|lia|done|lia|done|lia]. Qed.

Lemma reported_at_deadline opt deadline now acc hot :
  ref_list acc.1 → ref_list acc.2 → deadline ≤ now →
  reported opt deadline now (acc, hot) (if 0 <? count acc then (PollSuccess, acc.1, acc.2) else (PollTimeout, [], [])).
Proof.
  intros H1 H2 Hd. destruct acc as [a b]. cbn in *. destruct (Z.ltb_spec 0 (count (a, b))) as [Hc|Hc].
  - split_and!; [done..| |by right]. by apply count_pos.
  - split_and!; [apply ref_list_nil..|done| |done]. cbn. destruct (decide ((a, b) = ([], []))) as [->|Hne]; [done|].
    apply count_pos in Hne. lia.
Qed.

Lemma reported_error opt deadline now heard :
  3 ≤ heard.2 ∨ expired ctx_done now = true → reported opt deadline now heard (PollError, [], []).
Proof. intros H. split_and!; [apply ref_list_nil..|done|done]. Qed.

Lemma reported_enough opt deadline now acc hot :
  0 < ExpectedN opt → ref_list acc.1 → ref_list acc.2 → ExpectedN opt ≤ count acc →
  reported opt deadline now (acc, hot) (PollSuccess, acc.1, acc.2).
Proof.
  intros He H1 H2 Hc. destruct acc as [f s]. split_and!; [done..| |by left]. apply count_pos. cbn in *. lia.
Qed.

Abbreviation poll conv := (poll_loop (R:=R) num decode conv ctx_done).

Lemma getMapping_agrees conv conv' convID n :
  conv' n = conv n → getMappingRaw decode conv' convID n = getMappingRaw decode conv convID n.
Proof. intros E. unfold getMappingRaw. by rewrite E. Qed.

(** The poll has read [m] answers in the end; what comes after them does not
    matter. *)
Definition comes_to (opt : PollOpts) (convID : string) (deadline : Z) (n : nat) (run : (nat → uerr + string) → proc (system R) (option found)) w : Prop :=
  ∃ m r w', (n ≤ m)%nat ∧
    (∀ conv', (∀ i, (i < m)%nat → conv' i = conversation i) → exec_proc (run conv') w = (Some r, w')) ∧
    reported opt deadline (now_of w') (answers conversation (BaselineToolIDs opt) convID m) r.

Lemma comes_to_end opt convID deadline n run w r w' :
  (∀ conv', conv' n = conversation n → exec_proc (run conv') w = (Some r, w')) →
  reported opt deadline (now_of w') (answers conversation (BaselineToolIDs opt) convID (S n)) r →
  comes_to opt convID deadline n run w.
Proof. intros Hrun Hr. exists (S n), r, w'. split; [lia|]. split; [|done]. intros conv' Hc. apply Hrun, Hc. lia. Qed.

Lemma comes_to_step opt convID deadline n run run' w w2 :
  (∀ conv', conv' n = conversation n → exec_proc (run conv') w = exec_proc (run' conv') w2) →
  comes_to opt convID deadline (S n) run' w2 → comes_to opt convID deadline n run w.
Proof.
  intros Hstep (m & r & w' & Hm & Hrun & Hr). exists m, r, w'. split; [lia|]. split; [|done].
  intros conv' Hc. rewrite Hstep by (apply Hc; lia). by apply Hrun.
Qed.

Lemma poll_loop_returns opt convID deadline fuel n hot acc w :
  0 < ExpectedN opt → 0 < Interval opt → ref_list acc.1 → ref_list acc.2 →
  answers conversation (BaselineToolIDs opt) convID n = (acc, hot) →
  fuelled (Z.min (Interval opt) (10 * second)) deadline fuel (now_of w) →
  comes_to opt convID deadline n (λ conv, poll conv fuel opt convID deadline n hot acc) w.
Proof.
  intros Hexp Hint. revert n hot acc w. induction fuel as [|fuel IH]; intros n hot acc w Ha1 Ha2 Hans [Hf Hfuel]; [lia|].
  set (step := Z.min _ _) in *. assert (0 < step) as Hstep by (unfold step, second; lia).
  unfold comes_to. cbn [poll_loop]. setoid_rewrite exec_pbind_one. destruct (Now_at w) as [-> Hn1].
  destruct (Z.ltb_spec (now_of (Now w).2) deadline) as [Hd|Hd]; cbn [negb].
  2: { eexists n, _, _. split; [done|]. split; [done|]. rewrite Hans. by apply reported_at_deadline. }
  setoid_rewrite exec_pbind_one. destruct (Now_at (Now w).2) as [-> Hn2].
  set (w2 := (Now (Now w).2).2) in *. destruct (expired ctx_done (now_of w2)) eqn:He.
  { eexists n, _, _. split; [done|]. split; [done|]. apply reported_error. by right. }
  assert (expired ctx_done (now_of w) = false) as He0.
  { destruct (expired ctx_done (now_of w)) eqn:E; [|done]. rewrite (expired_mono (now_of w) (now_of w2)) in He; [done|lia|done]. }
  assert (∀ d hot' acc', step ≤ d → ref_list acc'.1 → ref_list acc'.2 →
    answers conversation (BaselineToolIDs opt) convID (S n) = (acc', hot') →
    comes_to opt convID deadline (S n) (λ conv, poll conv fuel opt convID deadline (S n) hot' acc')
      (exec_proc (sleep (R:=R) ctx_done d) w2).2) as Hnext.
  { intros d hot' acc' Hd' H1 H2 H3. apply IH; [done..|].
    eapply (fuelled_sleep step deadline fuel d w2 (now_of w)); [lia|lia|lia|done|]. split; [lia|done]. }
  assert (step ≤ 10 * second ∧ step ≤ Interval opt) as [Hs1 Hs2] by (unfold step; lia).
  cbn [answers] in Hnext. rewrite Hans in Hnext. clear IH.
  match goal with |- ∃ m r w', _ ∧ (∀ conv', _ → exec_proc (@?run conv') _ = _) ∧ _ => change (comes_to opt convID deadline n run w2) end.
  pose proof (λ conv', getMapping_agrees conversation conv' convID n) as Hget.
  destruct (getMappingRaw decode conversation convID n) as [e|mapping] eqn:Eget.
  - destruct (is_429 e) eqn:E429; [destruct (Z.leb_spec 3 (hot + 1)) as [Hh|Hh]|].
    + eapply comes_to_end; [|cbn [answers]; rewrite Hans, Eget, E429; apply reported_error; by left].
      intros conv' Hc. rewrite (Hget conv' Hc), E429. by replace (3 <=? hot + 1) with true by lia.
    + eapply comes_to_step; [|by apply (Hnext (10 * second))].
      intros conv' Hc. rewrite (Hget conv' Hc), E429. replace (3 <=? hot + 1) with false by lia. apply exec_pbind.
    + eapply comes_to_step; [|by apply (Hnext (Interval opt))]. intros conv' Hc. rewrite (Hget conv' Hc), E429. apply exec_pbind.
  - destruct (gather_refs_spec num (BaselineToolIDs opt) acc mapping Ha1 Ha2) as [Hg1 Hg2].
    set (acc' := gather_refs _ _ _ _) in *. destruct (Z.leb_spec (ExpectedN opt) (count acc')) as [Hc|Hc].
    + eapply comes_to_end; [|cbn [answers]; rewrite Hans, Eget; by apply reported_enough].
      intros conv' Hc'. rewrite (Hget conv' Hc'). cbv zeta. fold acc'. by replace (ExpectedN opt <=? count acc') with true by lia.
    + eapply comes_to_step; [|by apply (Hnext (Interval opt) 0 acc')]. intros conv' Hc'. rewrite (Hget conv' Hc'). cbv zeta. fold acc'.
      replace (ExpectedN opt <=? count acc') with false by lia. apply exec_pbind.
Qed.

(** C33: waiting for images ends, and loses none.  However slow the upstream,
    the scheduler and the clock are and whatever the upstream answers, the poll
    returns within its rounds (one per interval of its maximal wait, and
    three), also when the request's context ends first.  It has then read some
    first [m] answers, the later ones do not matter: a success reports exactly
    the references in the new messages of those, at least one, either as many
    as were expected or all there were when the wait was over; a timeout, which
    comes no sooner, says that there were none; an error, that the answers came
    to three 429s without a conversation between them, or that the context was
    over (references found before are dropped then).  What is reported are
    references, each once. *)
Theorem poll_terminates convID opt w :
  let o := normalizePollOpts opt in
  ∃ m r w',
    (∀ conv', (∀ i, (i < m)%nat → conv' i = conversation i) →
       exec_proc (PollConversationForImages (R:=R) num decode conv' ctx_done convID opt) w = (Some r, w')) ∧
    reported o (now_of w + MaxWait o) (now_of w') (answers conversation (BaselineToolIDs o) convID m) r.
Proof.
  cbv zeta. unfold PollConversationForImages. setoid_rewrite exec_pbind_one. destruct (Now_at w) as [-> Hn].
  assert (0 < ExpectedN (normalizePollOpts opt) ∧ 0 < MaxWait (normalizePollOpts opt) ∧ 0 < Interval (normalizePollOpts opt))
    as (H1 & H2 & H3).
  { unfold normalizePollOpts, second. cbn. destruct (Z.leb_spec (ExpectedN opt) 0), (Z.leb_spec (MaxWait opt) 0), (Z.leb_spec (Interval opt) 0); lia. }
  set (o := normalizePollOpts opt) in *. set (step := Z.min (Interval o) (10 * second)).
  assert (0 < step) as Hstep by (unfold step, second; lia).
  destruct (poll_loop_returns o convID (now_of (Now w).2 + MaxWait o) (poll_fuel o) O 0 ([], []) (Now w).2)
    as (m & r & w' & _ & Hrun & Hr); [done|done|apply ref_list_nil..|done| |].
  - split; [unfold poll_fuel; lia|]. right. unfold poll_fuel. fold step.
    pose proof (Z.div_pos (MaxWait o) step ltac:(lia) ltac:(lia)).
    pose proof (Z.mul_succ_div_gt (MaxWait o) step ltac:(lia)). rewrite Nat2Z.inj_add, Z2Nat.id by lia. nia.
  - exists m, r, w'. split; [exact Hrun|]. destruct r as [[[] files] seds]; cbn in *; intuition lia.
Qed.
End polling.
