(* ===== verification/Scheduler.v ===== *)
(** * Dispatching accounts (internal/scheduler)

    The parameters that can change while the server runs, one scan of the
    candidates with its guards, the lock and the lease of one account, the
    queue with its backoff, and the marks the upstream's answers leave.
    Everything that talks to MySQL or Redis is a process, so that requests
    interleave call by call and may be lost at any point. *)

From S2P Require Import Models Users Prelude GoStrings GoTime Float Sql Schema Crypto Ledger System Lock Proc ProxyPool Account Books.
From Stdlib Require Import QArith.

#[local] Open Scope Z_scope.

Definition ErrNoAvailable : goerr := Sentinel "scheduler: no available account".

(** What the callbacks of the settings return, when they are injected. *)
Record RuntimeParams := {
  rt_DailyUsageRatio : option gofloat;
  rt_Cooldown429Sec : option Z;
  rt_WarnedPauseHrs : option Z;
  rt_QueueWaitSec : option Z
}.

Record SchedulerConfig := {
  MinIntervalSec : Z;
  CfgDailyUsageRatio : Q;
  LockTTLSec : Z;
  CfgCooldown429Sec : Z;
  WarnedPauseHours : Z
}.

(** [New]: the defaults. *)
Definition New (c : SchedulerConfig) : SchedulerConfig := {|
  MinIntervalSec := if MinIntervalSec c <=? 0 then 5 else MinIntervalSec c;
  CfgDailyUsageRatio := if Qle_bool (CfgDailyUsageRatio c) 0 then rnd (8 # 10) else CfgDailyUsageRatio c;
  LockTTLSec := if LockTTLSec c <=? 0 then 180 else LockTTLSec c;
  CfgCooldown429Sec := if CfgCooldown429Sec c <=? 0 then 300 else CfgCooldown429Sec c;
  WarnedPauseHours := WarnedPauseHours c |}.

(** [time.Duration(n) * unit] *)
Definition duration (n unit_ : Z) : Z := wrap64 (n * unit_).

Definition in_unit (v : gofloat) : option Q :=
  match v with
  | Fin q => if negb (Qle_bool q 0) && Qle_bool q 1 then Some q else None
  | _ => None
  end.

(** The account's own lease, and that of the proxy it goes through. *)
Record Lease := {
  LeaseAccountID : N;
  LeaseAccount : Account;
  LeaseAuthToken : string;
  ProxyURL : string;
  ProxyID : N;
  DeviceID : string;
  SessionID : string;
  proxyLease : option ProxyLease;
  lockKey : string;
  lockToken : string
}.

Definition account_key (id : N) : string := "acct:lock:" +:+ pretty id.

Definition isRuntimeProxyModel (modelType : string) : bool :=
  String.eqb modelType "chat" || String.eqb modelType "image".

Definition minBackoff : Z := 200 * 1000000.
Definition maxBackoff : Z := 2 * second.

Section scheduler.
Context (loc : location) (cfg : SchedulerConfig) (rt : RuntimeParams).

Definition dailyUsageRatio : Q :=
  match rt_DailyUsageRatio rt with
  | Some v => match in_unit v with Some q => q | None => CfgDailyUsageRatio cfg end
  | None => CfgDailyUsageRatio cfg
  end.
Definition cooldown429 : Z :=
  match rt_Cooldown429Sec rt with
  | Some v => if 0 <? v then duration v second else duration (CfgCooldown429Sec cfg) second
  | None => duration (CfgCooldown429Sec cfg) second
  end.
Definition warnedPause : Z :=
  match rt_WarnedPauseHrs rt with
  | Some v => if 0 <? v then duration v hour else duration (WarnedPauseHours cfg) hour
  | None => duration (WarnedPauseHours cfg) hour
  end.
Definition queueWait : Z :=
  match rt_QueueWaitSec rt with
  | Some v => if 0 <=? v then duration v second else 120 * second
  | None => 120 * second
  end.

(** The two guards of the scan: the interval since the last use, and the
    share of the daily quota. *)
Definition rested (now : Z) (a : Account) : bool :=
  match AccLastUsedAt (AccUse a) with
  | Some t => negb (now - t <? duration (MinIntervalSec cfg) second)
  | None => true
  end.

Definition usedToday (now : Z) (a : Account) : Z :=
  match TodayUsedDate (AccUse a) with
  | Some day => if isSameLocalDay loc day now then TodayUsedCount (AccUse a) else 0
  | None => 0
  end.
Definition max_today (a : Account) : Z :=
  to_int (fmul (of_int (DailyImageQuota (AccInfo a))) dailyUsageRatio).
Definition under_quota (now : Z) (a : Account) : bool :=
  if 0 <? DailyImageQuota (AccInfo a) then
    negb ((0 <? max_today a) && (max_today a <=? usedToday now a))
  else true.

Context {AEAD : Type}
        (Open : AEAD → list ascii → list ascii → result (list ascii))
        (NonceSize Overhead : nat) (cipher : AEAD)
        {R : Type} `{!RedisServer R} (uuid : nat → string).

Abbreviation process := (proc (system R)).

Definition lock_ttl : Z := duration (LockTTLSec cfg) second.

(** The identifier the row has, or the one another request stored meanwhile,
    or a new one; and what the account in memory then holds. *)
Definition ensure_id (have : string) (store : string → DBM unit) (read : DBM string) :
    process (result (string * string)) :=
  if negb (String.eqb have "") then Done (Ok (have, have)) else
  gen <~? one (NewString uuid) ;;
  r <~ one (on_db (store gen)) ;;
  match r with
  | Err _ => Done (Ok (gen, have))
  | Ok _ =>
      r <~ one (on_db read) ;;
      match r with
      | Ok fixed => Done (Ok (if negb (String.eqb fixed "") then (fixed, fixed) else (gen, have)))
      | Err _ => Done (Ok (gen, have))
      end
  end.

(** The proxy an account is bound to; a statement that fails looks like a
    binding to proxy 0, which there is not. *)
Definition bound_proxy (id : N) : process (result (string * N * option ProxyLease)) :=
  b <~ one (on_db (GetBinding id)) ;;
  match (match b with Ok b => b | Err _ => Some 0%N end) with
  | None => Done (Ok ("", 0%N, None))
  | Some proxyID =>
      p <~ one (on_db (ProxyPool.GetByID proxyID)) ;;
      match p with
      | Ok p =>
          if ProxyEnabled p then
            match BuildURL Open NonceSize Overhead cipher p with
            | Ok u => Done (Ok (u, proxyID, None))
            | Err _ => Done (Ok ("", 0%N, None))
            end
          else Done (Ok ("", 0%N, None))
      | Err _ => Done (Ok ("", 0%N, None))
      end
  end.

Definition runtime_proxy : process (result (string * N * option ProxyLease)) :=
  pl <~? AllocatorLease Open NonceSize Overhead cipher uuid lock_ttl ;;
  match pl with
  | Some l => Done (Ok (LeaseProxyURL l, LeaseProxyID l, Some l))
  | None => Done (Ok ("", 0%N, None))
  end.

(** Everything after the lock has been taken. *)
Definition with_lock (id : N) (acc : Account) (modelType key token : string) : process (result Lease) :=
  match DecryptAuthToken Open NonceSize Overhead cipher acc with
  | Err e => _ <~ one (Release key token) ;; Done (Err (EWrap "decrypt auth_token" e))
  | Ok authToken =>
      dev <~? ensure_id (OAIDeviceID (AccInfo acc)) (EnsureDeviceID id) (read_device id) ;;
      ses <~? ensure_id (OAISessionID (AccInfo acc)) (EnsureSessionID id) (read_session id) ;;
      pr <~ (if isRuntimeProxyModel modelType then runtime_proxy else bound_proxy id) ;;
      match pr with
      | Err e => _ <~ one (Release key token) ;; Done (Err (EWrap "lease runtime proxy" e))
      | Ok (u, pid, pl) => Done (Ok {|
          LeaseAccountID := id;
          LeaseAccount := with_info (info_ids dev.2 ses.2 (AccInfo acc)) acc;
          LeaseAuthToken := authToken; ProxyURL := u; ProxyID := pid; DeviceID := dev.1;
          SessionID := ses.1; proxyLease := pl; lockKey := key; lockToken := token |})
      end
  end.

Definition tryLock (id : N) (acc : Account) (modelType : string) : process (result Lease) :=
  let key := account_key id in
  token <~? one (NewString uuid) ;;
  _ <~? one (Acquire key token lock_ttl) ;;
  with_lock id acc modelType key token.

(** The loop over the candidates; an account that cannot be locked, for
    whatever reason, is passed over. *)
Fixpoint scan (now : Z) (modelType : string) (cs : list (N * Account)) : process (result Lease) :=
  match cs with
  | [] => Done (Err ErrNoAvailable)
  | (id, acc) :: cs =>
      if negb (rested now acc) then scan now modelType cs
      else if negb (under_quota now acc) then scan now modelType cs
      else
        r <~ tryLock id acc modelType ;;
        match r with
        | Ok lease => Done (Ok lease)
        | Err _ => scan now modelType cs
        end
  end.

Definition tryDispatchOnce (modelType : string) : process (result Lease) :=
  r <~ one (at_now (ListDispatchable loc 30)) ;;
  match r with
  | Err e => Done (Err (EWrap "scheduler list" e))
  | Ok [] => Done (Err ErrNoAvailable)
  | Ok cs => now <~? one Now ;; scan now modelType cs
  end.

(** The request's context: when it is done, if ever, and the error it then
    has. *)
Context (ctx_done : option Z) (ctx_err : goerr).

(** [select] between the context and the timer. *)
Definition select_wait (d : Z) : process (result unit) :=
  now <~? one Now ;;
  match ctx_done with
  | Some t =>
      if t <=? now + d then _ <~? one (Sleep (Z.max 0 (t - now))) ;; Done (Err ctx_err)
      else one (Sleep d)
  | None => one (Sleep d)
  end.

Fixpoint dispatch_loop (fuel : nat) (modelType : string) (deadline backoff : Z) :
    process (option (result Lease)) :=
  match fuel with
  | O => Done None
  | S fuel =>
      r <~ tryDispatchOnce modelType ;;
      match r with
      | Ok lease => Done (Some (Ok lease))
      | Err e =>
          if negb (errors_Is e ErrNoAvailable) then Done (Some (Err e)) else
          r <~ one Now ;;
          match r with
          | Err e => Done (Some (Err e))
          | Ok now =>
              if negb (now <? deadline) then Done (Some (Err ErrNoAvailable)) else
              r <~ one Now ;;
              match r with
              | Err e => Done (Some (Err e))
              | Ok now =>
                  let remain := deadline - now in
                  let wait := if remain <? backoff then remain else backoff in
                  if wait <=? 0 then Done (Some (Err ErrNoAvailable)) else
                  r <~ select_wait wait ;;
                  match r with
                  | Err e => Done (Some (Err e))
                  | Ok _ =>
                      let backoff := backoff + Z.quot backoff 2 in
                      dispatch_loop fuel modelType deadline
                        (if maxBackoff <? backoff then maxBackoff else backoff)
                  end
              end
          end
      end
  end.

(** Every turn but the last waits [minBackoff] at least. *)
Definition dispatch_fuel : nat := Z.to_nat (Z.max 0 queueWait / minBackoff) + 3.

Definition Dispatch (modelType : string) : process (option (result Lease)) :=
  r <~ one Now ;;
  match r with
  | Err e => Done (Some (Err e))
  | Ok now => dispatch_loop dispatch_fuel modelType (now + queueWait) minBackoff
  end.

(** The release: the use is counted, the proxy and the account are given
    back, and the errors are joined. *)
Definition LeaseRelease (l : Lease) : process (list goerr) :=
  r1 <~ one (at_now (λ now, MarkUsed (LeaseAccountID l) (local_day loc now) now)) ;;
  r2 <~ (match proxyLease l with
         | Some pl => r <~ ProxyRelease pl ;; Done r.1
         | None => Done (Ok tt)
         end) ;;
  r3 <~ one (Release (lockKey l) (lockToken l)) ;;
  Done (omap (λ r : result unit, match r with Ok _ => None | Err e => Some e end) [r1; r2; r3]).

(** Called when the proxy failed while the request ran; the lease as it is
    afterwards. *)
Definition with_proxyLease (pl : ProxyLease) (l : Lease) : Lease := {|
  LeaseAccountID := LeaseAccountID l; LeaseAccount := LeaseAccount l; LeaseAuthToken := LeaseAuthToken l;
  ProxyURL := ProxyURL l; ProxyID := ProxyID l; DeviceID := DeviceID l; SessionID := SessionID l;
  proxyLease := Some pl; lockKey := lockKey l; lockToken := lockToken l |}.
Definition MarkProxyFailure (l : Lease) (summary : string) : process (result unit * Lease) :=
  match proxyLease l with
  | None => Done (Ok tt, l)
  | Some pl => r <~ MarkFailure pl summary ;; Done (r.1, with_proxyLease r.2 l)
  end.

(** ** Marks *)

Definition MarkRateLimited (accountID : N) : DB (system R) unit :=
  ignore (at_now (λ now, SetStatus accountID StatusThrottled (Some (now + cooldown429)))).
Definition MarkWarned (accountID : N) : DB (system R) unit :=
  ignore (at_now (λ now, SetStatus accountID StatusWarned (Some (now + warnedPause)))).
Definition MarkDead (accountID : N) : DB (system R) unit :=
  ignore (on_db (SetStatus accountID StatusDead None)).
Definition RestoreHealthy (accountID : N) : DB (system R) unit :=
  ignore (on_db (SetStatus accountID StatusHealthy None)).

(** ** Every process is safe *)

(** A call that leaves Redis alone. *)
Definition quiet (s s' : system R) : Prop :=
  sys_now s ≤ sys_now s' ∧ (sys_uuids s ≤ sys_uuids s')%nat ∧ sys_redis s' = sys_redis s.
#[local] Instance quiet_preorder : PreOrder quiet.
Proof.
  split; [by intros s|]. intros s1 s2 s3 (H1 & H2 & H3) (H4 & H5 & H6). split_and!; [lia|lia|congruence].
Qed.
Lemma quiet_forward : forward quiet.
Proof.
  split; [apply _|]. split_and!.
  - intros s d Hd. pose proof (wait_now d s Hd) as H. unfold wait in *.
    destruct (sys_delays s); (split_and!; [|done|done]); cbn in *; lia.
  - by intros s d.
  - intros s. unfold quiet. cbn. split_and!; [lia|lia|done].
Qed.

(** A call of a dispatch that leaves Redis alone leaves the books alone, too. *)
Definition calm (s s' : system R) : Prop := quiet s s' ∧ same_books (sys_db s) (sys_db s').
#[local] Instance calm_preorder : PreOrder calm.
Proof. split; [by split|]. intros s1 s2 s3 [H1 H2] [H3 H4]. split; by etrans. Qed.
Lemma quiet_calm {A} (m : DB (system R) A) :
  Keeps quiet m → (∀ w, sys_db (w_db (m w).2) = sys_db (w_db w)) → Keeps calm m.
Proof. intros Hq Hd w. split; [apply Hq|]. by rewrite Hd. Qed.
#[export] Instance on_db_calm {A} (m : DBM A) : Keeps same_books m → Keeps calm (on_db m).
Proof.
  intros Hm. intros [s fs]. split; [by apply on_db_keeps, quiet_forward|]. unfold on_db. cbn.
  specialize (Hm (World (sys_db s) fs)). by destruct (m _) as [r [d' fs']].
Qed.
#[export] Instance Now_calm : Keeps calm Now.
Proof. apply quiet_calm; [apply Now_keeps, quiet_forward|]. intros [s fs]. apply wait_db. Qed.
#[export] Instance at_now_calm {A} (m : Z → DBM A) : (∀ now, Keeps same_books (m now)) → Keeps calm (at_now m).
Proof. intros Hm. unfold at_now. apply _. Qed.
Lemma Sleep_calm d : 0 ≤ d → Keeps calm (Sleep d).
Proof. intros Hd. apply quiet_calm; [by apply Sleep_keeps; [apply quiet_forward|]|]. intros [s fs]. apply wait_db. Qed.
Lemma NewString_calm : Keeps calm (NewString uuid).
Proof. apply quiet_calm; [apply NewString_keeps, quiet_forward|done]. Qed.

(** [Rel] contains the calm calls, and taking and releasing the locks of the
    keys in [keys] under the tokens the process draws. *)
Record guarded (Rel : relation (system R)) (keys : string → Prop) (foreign : string → string → Prop) : Prop := {
  guarded_calm s s' : calm s s' → Rel s s';
  guarded_draw n key : keys key → foreign key (uuid n);
  guarded_acquire key token ttl : foreign key token → 0 < ttl → Keeps Rel (Acquire key token ttl);
  guarded_release key token : foreign key token → Keeps Rel (Release key token)
}.

Section safe.
Context (Rel : relation (system R)) (keys : string → Prop) (foreign : string → string → Prop)
        (HR : guarded Rel keys foreign) (Hproxy : ∀ id, keys (proxy_key id)) (Httl : 0 < lock_ttl).

Definition if_ok {A} (Q : A → Prop) (r : result A) : Prop := match r with Ok a => Q a | Err _ => True end.

Lemma call_quiet {A B} (Q : B → Prop) (m : DB (system R) A) (k : result A → process B) :
  Keeps calm m → Steady m → (∀ r, follows Rel Q (k r)) → follows Rel Q (Call m k).
Proof. intros Hm Hs Hk. apply follows_call; [|done|done]. intros w. eapply guarded_calm; [exact HR|apply Hm]. Qed.

Lemma call_draw {B} (Q : B → Prop) (k : result string → process B) :
  (∀ t, (∀ key, keys key → foreign key t) → follows Rel Q (k (Ok t))) → follows Rel Q (Call (NewString uuid) k).
Proof.
  intros Hk w. split.
  - split; [|done]. eapply guarded_calm; [exact HR|]. apply NewString_calm.
  - cbn. apply Hk. intros key. eapply guarded_draw, HR.
Qed.

Lemma call_acquire {B} (Q : B → Prop) key token ttl (k : result unit → process B) :
  foreign key token → 0 < ttl → (∀ r, follows Rel Q (k r)) → follows Rel Q (Call (Acquire key token ttl) k).
Proof. intros Ht Hp Hk. apply follows_call; [by eapply guarded_acquire|unfold Acquire; apply _|done]. Qed.

Lemma call_release {B} (Q : B → Prop) key token (k : result unit → process B) :
  foreign key token → (∀ r, follows Rel Q (k r)) → follows Rel Q (Call (Release key token) k).
Proof. intros Ht Hk. apply follows_call; [by eapply guarded_release|unfold Release; apply _|done]. Qed.

#[local] Instance at_now_steady {A} (m : Z → DBM A) : (∀ now, Steady (m now)) → Steady (at_now (R:=R) m).
Proof. intros Hm. unfold at_now. apply _. Qed.

Definition proxy_foreign (pl : option ProxyLease) : Prop :=
  ∀ l, pl = Some l → foreign (proxyLockKey l) (proxyLockToken l).
Definition lease_foreign (l : Lease) : Prop :=
  foreign (lockKey l) (lockToken l) ∧ proxy_foreign (proxyLease l).

(** [step]: the next call of a process. *)
Ltac step :=
  lazymatch goal with
  | |- follows _ _ (pbind_ok _ _) => unfold pbind_ok at 1; step
  | |- follows _ _ (pbind (one _) _) => cbn [pbind one]; step
  | |- follows _ _ (Call (NewString _) _) => apply call_draw; intros ? ?; cbn [pbind]
  | |- follows _ _ (Call (Acquire _ _ _) _) => apply call_acquire; [by auto|done|intros []; cbn [pbind]]
  | |- follows _ _ (Call (Release _ _) _) => apply call_release; [by auto|intros ?; cbn [pbind]]
  | |- follows _ _ (Call _ _) => apply call_quiet; [apply _|apply _|intros []; cbn [pbind]]
  | |- follows _ _ (Done _) => cbn [follows]
  end.

Lemma lease_first_safe ttl cs :
  0 < ttl → follows Rel (if_ok proxy_foreign) (lease_first Open NonceSize Overhead cipher uuid ttl cs).
Proof.
  intros Hp. induction cs as [|[id p] cs IH]; cbn [lease_first]; [step; by intros l|].
  step. step.
  - destruct (BuildURL Open NonceSize Overhead cipher p); [|by step; step].
    step; [|by step; step]. step. intros l [= <-]. cbn. by auto.
  - by destruct (errors_Is e ErrNotAcquired).
Qed.

Lemma runtime_proxy_safe : follows Rel (if_ok (λ r, proxy_foreign r.2))
  runtime_proxy.
Proof.
  unfold runtime_proxy, pbind_ok. eapply (follows_pbind Rel (if_ok proxy_foreign)).
  - unfold AllocatorLease. step; [|done]. apply lease_first_safe.
    unfold allocator_ttl. destruct (Z.leb_spec lock_ttl 0); unfold second; lia.
  - intros [[l|]|e] Hq; cbn in *; [|by intros l|done]. intros l' [= <-]. by apply Hq.
Qed.

Lemma bound_proxy_safe id : follows Rel (if_ok (λ r, proxy_foreign r.2))
  (bound_proxy id).
Proof.
  assert (Hn : proxy_foreign None) by (by intros l).
  unfold bound_proxy. step; [destruct a as [pid|]; [|done]|]; (step; [|done]);
    (destruct (ProxyEnabled _); [by destruct (BuildURL _ _ _ _ _)|done]).
Qed.

Lemma ensure_id_safe have store read
    `{!∀ x, Keeps same_books (store x), !∀ x, Steady (store x), !Keeps same_books read, !Steady read} : follows Rel (λ _, True) (ensure_id have store read).
Proof.
  unfold ensure_id. destruct (negb _); [done|]. step. step; [|done]. step; done.
Qed.

Lemma follows_pbind_ok {A B} (Q : A → Prop) (Q' : result B → Prop) (p : process (result A)) (k : A → process (result B)) :
  follows Rel (if_ok Q) p → (∀ a, Q a → follows Rel Q' (k a)) → (∀ e, Q' (Err e)) → follows Rel Q' (pbind_ok p k).
Proof. intros Hp Hk He. eapply follows_pbind; [exact Hp|]. intros [a|e] Hq; [by apply Hk|apply He]. Qed.

Context (Hacct : ∀ id, keys (account_key id)).

Lemma with_lock_safe id acc modelType key token :
  foreign key token → follows Rel (if_ok lease_foreign)
    (with_lock id acc modelType key token).
Proof.
  intros Ht. unfold with_lock. destruct (DecryptAuthToken Open NonceSize Overhead cipher acc); [|by step; step].
  apply (follows_pbind_ok (λ _, True)); [|intros dev _|done].
  { eapply follows_weaken; [apply (ensure_id_safe _ _ _)|]. by intros [] _. }
  apply (follows_pbind_ok (λ _, True)); [|intros ses _|done].
  { eapply follows_weaken; [apply (ensure_id_safe _ _ _)|]. by intros [] _. }
  eapply (follows_pbind Rel (if_ok (λ r, proxy_foreign r.2))).
  - destruct (isRuntimeProxyModel modelType); [apply runtime_proxy_safe|apply bound_proxy_safe].
  - intros [[[u pid] pl]|e] Hq; [|by step; step]. by split.
Qed.

Lemma tryLock_safe id acc modelType : follows Rel (if_ok lease_foreign)
  (tryLock id acc modelType).
Proof. unfold tryLock. step. step; [|done]. apply with_lock_safe. auto. Qed.

Lemma scan_safe now modelType cs : follows Rel (if_ok lease_foreign)
  (scan now modelType cs).
Proof.
  induction cs as [|[id acc] cs IH]; cbn [scan]; [done|].
  destruct (negb (rested _ _)); [done|]. destruct (negb (under_quota _ _)); [done|].
  eapply follows_pbind; [apply tryLock_safe|]. by intros [l|e] Hl.
Qed.

Lemma tryDispatchOnce_safe modelType : follows Rel (if_ok lease_foreign)
  (tryDispatchOnce modelType).
Proof.
  unfold tryDispatchOnce. step; [|done]. destruct a as [|c cs]; [done|].
  step; [|done]. apply scan_safe.
Qed.

Lemma select_wait_safe d : 0 ≤ d → follows Rel (λ _, True) (select_wait d).
Proof.
  intros Hd. pose proof Sleep_calm as Hs. unfold select_wait. step; [|done].
  destruct ctx_done as [t|]; [destruct (_ <=? _)|].
  - unfold pbind_ok. apply call_quiet; [apply Hs; lia|apply _|]. by intros [].
  - apply call_quiet; [by apply Hs|apply _|done].
  - apply call_quiet; [by apply Hs|apply _|done].
Qed.

Definition if_some {A} (Q : A → Prop) (r : option A) : Prop := match r with Some a => Q a | None => True end.

Lemma dispatch_loop_safe fuel modelType deadline backoff :
  follows Rel (if_some (if_ok lease_foreign))
    (dispatch_loop fuel modelType deadline backoff).
Proof.
  revert backoff. induction fuel as [|fuel IH]; intros backoff; [done|]. cbn [dispatch_loop].
  eapply follows_pbind; [apply tryDispatchOnce_safe|]. intros [l|e] Hl; [done|].
  destruct (negb _); [done|]. step; [|done]. destruct (negb _); [done|]. step; [|done].
  cbn zeta. match goal with |- follows _ _ (if ?b then _ else _) => destruct b eqn:Eb end; [done|].
  eapply follows_pbind; [apply select_wait_safe; lia|]. by intros [] _.
Qed.

Lemma Dispatch_safe modelType :
  follows Rel (if_some (if_ok lease_foreign))
    (Dispatch modelType).
Proof. unfold Dispatch. step; [|done]. apply dispatch_loop_safe. Qed.

Lemma LeaseRelease_safe l : lease_foreign l → follows Rel (λ _, True) (LeaseRelease l).
Proof.
  intros [Hl Hp]. unfold LeaseRelease. eapply (follows_pbind Rel (λ _, True)).
  { unfold one. apply call_quiet; [apply _|apply _|done]. }
  intros r1 _. eapply (follows_pbind Rel (λ _, True)); [|intros r2 _; by step; step].
  destruct (proxyLease l) as [pl|] eqn:E; [|done]. specialize (Hp pl eq_refl).
  eapply (follows_pbind Rel (λ _, True)); [|done]. unfold ProxyRelease.
  destruct (_ || _); [done|]. destruct (releaseOnce pl); [done|]. by step; step.
Qed.
End safe.

(** ** Two relations: the clock moves on, the locks of others stay *)

Definition later (s s' : system R) : Prop := sys_now s ≤ sys_now s'.
#[local] Instance later_preorder : PreOrder later.
Proof. unfold later. split; [intros s; lia|intros s1 s2 s3; lia]. Qed.

Lemma redis_later {A} (f : Z → R → A * R) : Keeps later (redis f).
Proof.
  apply redis_keeps; [|by unfold later]. split; [apply _|]. unfold later. split_and!; [|done|done].
  intros s d Hd. pose proof (wait_now d s Hd). lia.
Qed.

Lemma later_guarded : guarded later (λ _, True) (λ _ _, True).
Proof.
  split; [by intros s s' [[] _]|done| |].
  - intros key token ttl _ _. unfold Acquire. apply bind_keeps; [apply _|apply redis_later|].
    intros []; cbn; apply _.
  - intros key token _. unfold Release. apply bind_keeps; [apply _|apply redis_later|apply _].
Qed.

(** The locks with [mine] are kept. *)
Definition keeps_locks (mine : string → string → Prop) (s s' : system R) : Prop :=
  sys_now s ≤ sys_now s' ∧
  ∀ key token until, mine key token → held key token until s → held key token until s'.
#[export] Instance keeps_locks_preorder mine : PreOrder (keeps_locks mine).
Proof.
  unfold keeps_locks. split; [by intros s|]. intros s1 s2 s3 [H1 H2] [H3 H4]. split; [lia|eauto].
Qed.

Lemma keeps_locks_intro mine {A} (m : DB (system R) A) :
  Keeps later m → (∀ key token until, mine key token → Keeps (held_on key token until) m) →
  Keeps (keeps_locks mine) m.
Proof. intros Hl Hm w. split; [apply Hl|]. intros key token until Hmine. apply (Hm key token until Hmine w). Qed.

Lemma keeps_locks_guarded (mine : string → string → Prop) (keys : string → Prop) `{!RedisLaws R} :
  (∀ n key, keys key → ¬ mine key (uuid n)) → guarded (keeps_locks mine) keys (λ key t, ¬ mine key t).
Proof.
  intros Hd. split; [|by intros n key ?; apply Hd| |].
  - intros s s' [(H1 & _ & H3) _]. split; [done|]. intros key token until _ Hh t Ht. rewrite H3. apply Hh. lia.
  - intros key token ttl Ht Hp. apply keeps_locks_intro; [by apply (guarded_acquire _ _ _ later_guarded)|].
    intros key' token' until Hm. apply Acquire_held. apply TCEq_eq. lia.
  - intros key token Ht. apply keeps_locks_intro; [by apply (guarded_release _ _ _ later_guarded)|].
    intros key' token' until Hm. apply Release_held. by intros -> ->.
Qed.

(** ** The queue ends *)

Lemma select_wait_time d w :
  0 ≤ d → is_ok (exec_proc (select_wait d) w).1 = true →
  sys_now (w_db w) + d ≤ sys_now (w_db (exec_proc (select_wait d) w).2).
Proof.
  intros Hd. unfold select_wait, pbind_ok. rewrite exec_pbind_one. destruct w as [s fs].
  pose proof (wait_now 0 s ltac:(lia)) as H0. pose proof (wait_now d (wait 0 s) Hd) as H1.
  cbn [Now fst snd w_db w_faults]. destruct ctx_done as [t|].
  - destruct (t <=? _); [done|]. cbn. lia.
  - cbn. lia.
Qed.

Lemma dispatch_loop_ends fuel modelType deadline backoff w :
  0 < lock_ttl → minBackoff ≤ backoff → (1 ≤ fuel)%nat →
  deadline - sys_now (w_db w) ≤ (Z.of_nat fuel - 1) * minBackoff →
  is_Some (exec_proc (dispatch_loop fuel modelType deadline backoff) w).1.
Proof.
  intros Httl. assert (Hmin : 0 < minBackoff ≤ maxBackoff) by (unfold minBackoff, maxBackoff, second; lia).
  revert backoff w. induction fuel as [|fuel IH]; intros backoff w Hb Hf Hd; [lia|].
  cbn [dispatch_loop]. rewrite exec_pbind.
  destruct (follows_exec later (if_ok (lease_foreign (λ _ _, True))) (tryDispatchOnce modelType) w)
    as [_ H1]; [by eapply tryDispatchOnce_safe; [apply later_guarded|..]|]. unfold later in H1.
  destruct (exec_proc (tryDispatchOnce modelType) w) as [[l|e] w1]; cbn [fst snd] in *; [by eexists|].
  destruct (negb (errors_Is e ErrNoAvailable)); [by eexists|]. rewrite exec_pbind_one.
  destruct w1 as [s1 fs1]. cbn [Now fst snd w_db w_faults] in *.
  pose proof (wait_now 0 s1 ltac:(lia)) as H2. destruct (negb (_ <? deadline)) eqn:Edl; [by eexists|].
  rewrite exec_pbind_one. cbn [Now fst snd w_db w_faults].
  set (s2 := wait 0 s1) in *. pose proof (wait_now 0 s2 ltac:(lia)) as H3. set (s3 := wait 0 s2) in *.
  set (d := if deadline - sys_now s3 <? backoff then deadline - sys_now s3 else backoff) in *.
  destruct (Z.leb_spec d 0) as [|Hdp]; [by eexists|]. rewrite exec_pbind.
  pose proof (select_wait_time d (World s3 fs1) ltac:(lia)) as H4.
  destruct (exec_proc (select_wait d) (World s3 fs1)) as [[u|e'] w4]; cbn [fst snd is_ok w_db] in *; [|by eexists].
  specialize (H4 eq_refl).
  assert (Hcase : d = deadline - sys_now s3 ∨ d = backoff ∧ backoff ≤ deadline - sys_now s3)
    by (subst d; destruct (Z.ltb_spec (deadline - sys_now s3) backoff); auto).
  clearbody d s3 s2.
  assert (Hf1 : (1 ≤ fuel)%nat) by (destruct fuel; [cbn in Hd; lia|lia]).
  apply IH.
  - pose proof (Z.quot_pos backoff 2 ltac:(lia) ltac:(lia)). destruct (maxBackoff <? _); lia.
  - done.
  - assert (Z.of_nat (S fuel) - 1 = Z.of_nat fuel) as Hs by lia. rewrite Hs in Hd. nia.
Qed.

(** C32: a dispatch always answers, however slow MySQL, Redis and the clock
    are and whatever fails: the fuel of the loop is never exhausted, since
    every turn but the last waits at least the smallest backoff and the queue
    closes at its deadline. *)
Theorem Dispatch_terminates modelType w :
  0 < lock_ttl → ∃ r w', exec_proc (Dispatch modelType) w = (Some r, w').
Proof.
  intros Httl. unfold Dispatch. rewrite exec_pbind_one. destruct w as [s fs].
  cbn [Now fst snd w_db w_faults].
  destruct (dispatch_loop_ends dispatch_fuel modelType (sys_now (wait 0 s) + queueWait) minBackoff
    (World (wait 0 s) fs) Httl) as [r Hr]; [lia|unfold dispatch_fuel; lia| |].
  - cbn [w_db]. unfold dispatch_fuel. pose proof (Z.mul_succ_div_gt (Z.max 0 queueWait) minBackoff ltac:(unfold minBackoff; lia)).
    pose proof (Z.div_pos (Z.max 0 queueWait) minBackoff ltac:(lia) ltac:(unfold minBackoff; lia)).
    rewrite Nat2Z.inj_add, Z2Nat.id by lia. unfold minBackoff in *. lia.
  - destruct (exec_proc _ _) as [r' w']. cbn in Hr. subst. eauto.
Qed.

(** ** What a dispatch grants *)

Lemma account_key_not_proxy id id' : account_key id ≠ proxy_key id'.
Proof. done. Qed.

Context `{!RedisLaws R}.

(** After the lock: the rest of a successful attempt does not touch it. *)
Lemma with_lock_granted id acc modelType key token w l w' until :
  key = account_key id → 0 < lock_ttl →
  exec_proc (with_lock id acc modelType key token) w = (Ok l, w') →
  held key token until (w_db w) →
  LeaseAccountID l = id ∧ lockKey l = key ∧ lockToken l = token ∧
  DecryptAuthToken Open NonceSize Overhead cipher acc = Ok (LeaseAuthToken l) ∧
  AccUse (LeaseAccount l) = AccUse acc ∧
  held key token until (w_db w') ∧ sys_now (w_db w) ≤ sys_now (w_db w').
Proof.
  intros -> Httl Hex Hh. set (mine := λ k t, k = account_key id ∧ t = token).
  assert (HR : guarded (keeps_locks mine) (λ k, ∃ id', k = proxy_key id') (λ k t, ¬ mine k t)).
  { apply (keeps_locks_guarded mine _). intros n k [id' ->] [Hk _]. by eapply account_key_not_proxy. }
  unfold with_lock in Hex. destruct (DecryptAuthToken _ _ _ _ acc) as [at_|e] eqn:Ed; [|by rewrite exec_pbind_one in Hex].
  unfold pbind_ok in Hex. rewrite exec_pbind in Hex.
  destruct (follows_exec (keeps_locks mine) (λ _, True) (ensure_id (OAIDeviceID (AccInfo acc)) (EnsureDeviceID id)
    (read_device id)) w) as [_ H1]; [eapply ensure_id_safe; first [exact HR|apply _]|].
  destruct (exec_proc (ensure_id _ _ _) w) as [[dev|e] w1]; cbn [fst snd exec_proc] in *; [|done].
  rewrite exec_pbind in Hex.
  destruct (follows_exec (keeps_locks mine) (λ _, True) (ensure_id (OAISessionID (AccInfo acc)) (EnsureSessionID id)
    (read_session id)) w1) as [_ H2]; [eapply ensure_id_safe; first [exact HR|apply _]|].
  destruct (exec_proc (ensure_id _ _ _) w1) as [[ses|e] w2]; cbn [fst snd exec_proc] in *; [|done].
  rewrite exec_pbind in Hex.
  set (p := if isRuntimeProxyModel modelType then runtime_proxy else bound_proxy id) in Hex.
  destruct (follows_exec (keeps_locks mine) (λ _, True) p w2) as [_ H3].
  { unfold p. destruct (isRuntimeProxyModel modelType); (eapply follows_weaken; [|done]).
    - eapply runtime_proxy_safe; [exact HR|intros i; by eexists|done].
    - by eapply bound_proxy_safe. }
  destruct (exec_proc p w2) as [[[[u pid] pl]|e] w3]; cbn [fst snd exec_proc] in *.
  - injection Hex as <- <-. cbn. destruct H1 as [T1 K1], H2 as [T2 K2], H3 as [T3 K3].
    split_and!; try done; [|lia]. apply K3; [done|]. apply K2; [done|]. by apply K1.
  - by rewrite exec_pbind_one in Hex.
Qed.

Lemma tryLock_granted id acc modelType w l w' :
  0 < lock_ttl → exec_proc (tryLock id acc modelType) w = (Ok l, w') →
  LeaseAccountID l = id ∧ lockKey l = account_key id ∧
  DecryptAuthToken Open NonceSize Overhead cipher acc = Ok (LeaseAuthToken l) ∧
  AccUse (LeaseAccount l) = AccUse acc ∧
  ∃ t, sys_now (w_db w) ≤ t ≤ sys_now (w_db w') ∧ held (lockKey l) (lockToken l) (t + lock_ttl) (w_db w').
Proof.
  intros Httl. unfold tryLock, pbind_ok. rewrite exec_pbind_one. cbn [NewString fst snd].
  rewrite exec_pbind_one. set (w1 := World _ _).
  destruct (Acquire (account_key id) (uuid (sys_uuids (w_db w))) lock_ttl w1) as [[[]|e] w2] eqn:Ea;
    cbn [fst snd exec_proc]; [|done].
  intros Hex. apply Acquire_Ok in Ea as (Hh & _ & Hle); [|done].
  destruct (with_lock_granted _ _ _ _ _ _ _ _ _ eq_refl Httl Hex Hh) as (H1 & H2 & H3 & H4 & H5 & H6 & H7).
  split_and!; [done|done|done|done|]. exists (sys_now (w_db w2)). rewrite H2, H3. cbn in Hle. split; [lia|done].
Qed.

(** What an attempt that starts in [w] and ends in [w'] with the lease [l]
    has established: the account was listed by the database of [w] as
    dispatchable, had rested, was under its quota, its token opens, and its
    lock is held under the lease's token for the whole TTL. *)
Definition granted (w : world (system R)) (l : Lease) (w' : world (system R)) : Prop :=
  lockKey l = account_key (LeaseAccountID l) ∧
  (∃ listed now row,
    sys_now (w_db w) ≤ listed ≤ now ∧
    oai_accounts (sys_db (w_db w)) !! LeaseAccountID l = Some row ∧
    dispatchable listed (LeaseAccountID l) row = true ∧
    rested now (fill loc listed row) = true ∧ under_quota now (fill loc listed row) = true ∧
    DecryptAuthToken Open NonceSize Overhead cipher (fill loc listed row) = Ok (LeaseAuthToken l) ∧
    AccUse (LeaseAccount l) = AccUse (fill loc listed row)) ∧
  ∃ t, sys_now (w_db w) ≤ t ≤ sys_now (w_db w') ∧ held (lockKey l) (lockToken l) (t + lock_ttl) (w_db w').

Lemma tryLock_later id acc modelType w :
  0 < lock_ttl → sys_now (w_db w) ≤ sys_now (w_db (exec_proc (tryLock id acc modelType) w).2).
Proof.
  intros Httl. destruct (follows_exec later (if_ok (lease_foreign (λ _ _, True))) (tryLock id acc modelType) w)
    as [_ H]; [by eapply tryLock_safe; [apply later_guarded|..]|exact H].
Qed.

Lemma scan_grants now modelType cs w l w' :
  0 < lock_ttl → exec_proc (scan now modelType cs) w = (Ok l, w') →
  ∃ id acc w0, (id, acc) ∈ cs ∧ rested now acc = true ∧ under_quota now acc = true ∧
    sys_now (w_db w) ≤ sys_now (w_db w0) ∧ exec_proc (tryLock id acc modelType) w0 = (Ok l, w').
Proof.
  intros Httl. revert w. induction cs as [|[id acc] cs IH]; intros w; cbn [scan]; [done|].
  assert (∀ w1, sys_now (w_db w) ≤ sys_now (w_db w1) → exec_proc (scan now modelType cs) w1 = (Ok l, w') →
    ∃ id' acc' w0, (id', acc') ∈ (id, acc) :: cs ∧ rested now acc' = true ∧ under_quota now acc' = true ∧
      sys_now (w_db w) ≤ sys_now (w_db w0) ∧ exec_proc (tryLock id' acc' modelType) w0 = (Ok l, w')) as Hgo.
  { intros w1 Hle H. destruct (IH w1 H) as (id' & acc' & w0 & Hin & H1 & H2 & H3 & H4).
    exists id', acc', w0. split_and!; [by right|done|done|lia|done]. }
  destruct (rested now acc) eqn:Er; cbn [negb]; [|by apply Hgo].
  destruct (under_quota now acc) eqn:Eq; cbn [negb]; [|by apply Hgo].
  rewrite exec_pbind. pose proof (tryLock_later id acc modelType w Httl) as Hle.
  destruct (exec_proc (tryLock id acc modelType) w) as [[l1|e] w1] eqn:E; cbn [fst snd exec_proc] in *.
  - intros [= <- <-]. exists id, acc, w. split_and!; [by left|done..].
  - by apply Hgo.
Qed.

Lemma tryDispatchOnce_grants modelType w l w' :
  0 < lock_ttl → exec_proc (tryDispatchOnce modelType) w = (Ok l, w') → granted w l w'.
Proof.
  intros Httl. unfold tryDispatchOnce. rewrite exec_pbind_one. destruct w as [s fs].
  destruct (at_now (ListDispatchable loc 30) (World s fs)) as [r w1] eqn:El. cbn [fst snd].
  assert (∀ cs, r = Ok cs → sys_db (w_db w1) = sys_db s ∧ ∃ listed, sys_now s ≤ listed ≤ sys_now (w_db w1) ∧
    cs = fillAll loc listed (take 30 (candidates listed (sys_db s)))) as Hlist.
  { intros cs ->. pose proof (wait_now 0 s ltac:(lia)) as H0.
    assert (sys_db (wait 0 s) = sys_db s) as Hdb by apply wait_db.
    revert El. unfold at_now, bind, Now, on_db, ListDispatchable, query, call. cbn [w_db w_faults fst snd].
    destruct fs as [|[] fs]; cbn; intros [= <- <-]; cbn; rewrite Hdb; (split; [done|]); by eexists (sys_now (wait 0 s)); split; [lia|]. }
  destruct r as [[|c cs]|e]; [done| |done]. destruct (Hlist _ eq_refl) as (Hdb & listed & Hl & Hcs). clear Hlist El.
  unfold pbind_ok. rewrite exec_pbind_one. destruct w1 as [s1 fs1]. cbn [Now fst snd w_db w_faults] in *.
  pose proof (wait_now 0 s1 ltac:(lia)) as H1. intros Hsc.
  apply scan_grants in Hsc as (id & acc & w0 & Hin & Hr & Hq & Hle & Hex); [|done]. cbn [w_db] in Hle.
  apply tryLock_granted in Hex as (<- & Hkey & Hd & Hu & t & Ht & Hh); [|done].
  rewrite Hcs in Hin. unfold fillAll in Hin. apply list_elem_of_fmap in Hin as ([id' row] & [= <- ->] & Hin).
  assert ((LeaseAccountID l, row) ∈ candidates listed (sys_db s)) as [Hrow Hdisp]%elem_of_candidates.
  { rewrite <-(take_drop 30 (candidates listed (sys_db s))), elem_of_app. by left. }
  split; [done|]. split; [|exists t; split; [cbn; lia|done]].
  exists listed, (sys_now (wait 0 s1)), row. cbn. split_and!; try done; lia.
Qed.

Lemma dispatch_loop_grants fuel modelType deadline backoff w l w' :
  exec_proc (dispatch_loop fuel modelType deadline backoff) w = (Some (Ok l), w') →
  ∃ n w1, (advance n (dispatch_loop fuel modelType deadline backoff) w).2 = w1 ∧
    exec_proc (tryDispatchOnce modelType) w1 = (Ok l, w').
Proof.
  revert backoff w. induction fuel as [|fuel IH]; intros backoff w; cbn [dispatch_loop]; [done|].
  match goal with |- context [pbind (tryDispatchOnce modelType) ?k] => set (k0 := k) end.
  rewrite exec_pbind. destruct (advance_pbind (tryDispatchOnce modelType) k0 w) as [n Hn].
  destruct (exec_proc (tryDispatchOnce modelType) w) as [[l1|e] w1] eqn:E; cbn [fst snd] in Hn |- *.
  { intros [= <- <-]. by exists O, w. }
  set (q := k0 (Err e)) in *. intros Hex.
  cut (∃ m w2, (advance m q w1).2 = w2 ∧ exec_proc (tryDispatchOnce modelType) w2 = (Ok l, w')).
  { intros (m & w2 & H1 & H2). exists (n + m)%nat, w2. split; [|done]. by rewrite advance_add, Hn. }
  subst q k0. cbn beta iota in Hex |- *. destruct (negb (errors_Is e ErrNoAvailable)); [done|].
  revert Hex. rewrite exec_pbind_one. destruct w1 as [s1 fs1]. cbn [Now fst snd w_db w_faults].
  destruct (negb (_ <? deadline)) eqn:Ed; [done|]. rewrite exec_pbind_one. cbn [Now fst snd w_db w_faults].
  match goal with |- context [if ?c <=? 0 then _ else _] => set (d := c) end.
  destruct (d <=? 0) eqn:Ew; [done|].
  match goal with |- context [pbind (select_wait d) ?k] => set (k1 := k) end. rewrite exec_pbind. intros Hex.
  destruct (advance_pbind (select_wait d) k1 (World (wait 0 (wait 0 s1)) fs1)) as [m Hm].
  destruct (exec_proc (select_wait d) _) as [[u|e'] w4] eqn:E4; cbn [fst snd] in *; [|done].
  subst k1. cbn beta iota in Hex, Hm. destruct (IH _ _ Hex) as (m' & w2 & H1 & H2).
  exists (2 + (m + m'))%nat, w2. split; [|done]. rewrite advance_add. cbn [advance next pbind one Now fst snd w_db w_faults].
  rewrite Ed. cbn [advance next pbind one Now fst snd w_db w_faults]. fold d. rewrite Ew, advance_add, Hm. done.
Qed.

(** C26: a dispatch that succeeds, whatever failed on the way, does so by an
    attempt that listed the account as dispatchable, found it rested and under
    its share of the quota, opened its token, and holds the account's lock
    under the lease's own token for the whole TTL. *)
Theorem Dispatch_grants modelType w l w' :
  0 < lock_ttl → exec_proc (Dispatch modelType) w = (Some (Ok l), w') →
  ∃ n w1, (advance n (Dispatch modelType) w).2 = w1 ∧ granted w1 l w'.
Proof.
  intros Httl. unfold Dispatch. rewrite exec_pbind_one. destruct w as [s fs]. cbn [Now fst snd w_db w_faults].
  intros Hex. apply dispatch_loop_grants in Hex as (n & w1 & H1 & H2).
  exists (S n), w1. split; [|by eapply tryDispatchOnce_grants].
  rewrite <-H1. done.
Qed.

End scheduler.

(** ** Any number of requests at once *)

Section requests.
Context (loc : location) (cfg : SchedulerConfig) (rt : RuntimeParams).
Context {AEAD : Type} (Open : AEAD → list ascii → list ascii → result (list ascii))
        (NonceSize Overhead : nat) (cipher : AEAD).
Context {R : Type} `{!RedisServer R}.

(** Request [i] draws the UUIDs [uuid i 0], [uuid i 1], ... *)
Context (uuid : nat → nat → string).

(** What a request does with its lease: anything with the database and the
    upstream, nothing with Redis. *)
Definition serve (i : nat) (modelType : string) (ctx_done : option Z) (ctx_err : goerr)
    (work : Lease → proc (system R) unit) : proc (system R) unit :=
  r <~ Dispatch loc cfg rt Open NonceSize Overhead cipher (uuid i) ctx_done ctx_err modelType ;;
  match r with
  | Some (Ok l) => _ <~ work l ;; _ <~ LeaseRelease loc l ;; Done tt
  | _ => Done tt
  end.

(** The requests in flight next to that of [i]: dispatches of others, with
    whatever work, and any traffic that leaves Redis alone (the work of [i]
    among it). *)
Inductive beside (i : nat) : proc (system R) unit → Prop :=
  | beside_serve j modelType ctx_done ctx_err work :
      j ≠ i → (∀ l, follows quiet (λ _, True) (work l)) →
      beside i (serve j modelType ctx_done ctx_err work)
  | beside_quiet p : follows quiet (λ _, True) p → beside i p.

Context `{!RedisLaws R}.

Lemma beside_keeps i (mine : string → string → Prop) p :
  0 < lock_ttl cfg → (∀ j n key, j ≠ i → ¬ mine key (uuid j n)) →
  beside i p → follows (keeps_locks mine) (λ _, True) p.
Proof.
  intros Httl Hu Hp. assert (∀ j, j ≠ i → guarded (uuid j) (keeps_locks mine) (λ _, True) (λ k t, ¬ mine k t)) as HG.
  { intros j Hj. apply (keeps_locks_guarded (uuid j) mine (λ _, True)). intros n key _. by apply Hu. }
  assert (∀ s s', quiet s s' → keeps_locks mine s s') as Hq.
  { intros s s' (H1 & _ & H3). split; [done|]. intros key token until _ Hh t Ht. rewrite H3. apply Hh. lia. }
  destruct Hp as [j modelType cd ce work Hj Hw|p Hp]; [|by eapply follows_mono].
  unfold serve. eapply follows_pbind; [by eapply Dispatch_safe; [apply HG|..]|].
  intros [[l|e]|] Hl; [|done..]. cbn in Hl.
  eapply follows_pbind; [by eapply follows_mono|]. intros _ _.
  eapply follows_pbind; [by eapply LeaseRelease_safe; [apply HG|]|done].
Qed.

(** C4: no two requests use one account.  However the other requests
    interleave with that of [i], whichever are lost, and however slow or faulty
    MySQL and Redis are: from the moment [i] takes an account's lock, and until
    the TTL is over, the lock stays [i]'s, and no request takes it. *)
Theorem account_exclusive i a id ts0 w0 ts w w1 ts' w2 :
  0 < lock_ttl cfg → (∀ j n m, uuid j n = uuid i m → j = i) →
  Forall (beside i) ts0 → rtc (pool_step (beside i)) (ts0, w0) (ts, w) →
  Acquire (account_key id) (uuid i a) (lock_ttl cfg) w = (Ok tt, w1) →
  rtc (pool_step (beside i)) (ts, w1) (ts', w2) →
  let until := sys_now (w_db w1) + lock_ttl cfg in
  (sys_now (w_db w2) < until →
     GET (sys_now (w_db w2)) (account_key id) (sys_redis (w_db w2)) = Some (uuid i a)) ∧
  (∀ token w3, Acquire (account_key id) token (lock_ttl cfg) w2 = (Ok tt, w3) → until ≤ sys_now (w_db w3)).
Proof.
  intros Httl Hu Hts0 H0 Ha H2 until. set (mine := λ k t : string, k = account_key id ∧ t = uuid i a).
  assert (∀ p, beside i p → follows (keeps_locks mine) (λ _, True) p) as Hb.
  { intros p. apply beside_keeps; [done|]. intros j n key Hj [_ Ht]. by apply Hj, (Hu j n a). }
  destruct (pool_follows (beside i) (keeps_locks mine) Hb _ _ H0) as [Hts _].
  { cbn. eapply Forall_impl; [exact Hts0|]. apply Hb. }
  apply Acquire_Ok in Ha as (Hh & _ & _); [|done].
  destruct (pool_follows (beside i) (keeps_locks mine) Hb _ _ H2 Hts) as [_ [_ Hk]].
  specialize (Hk _ _ _ (conj eq_refl eq_refl) Hh). cbn in Hk. split.
  - intros Hlt. apply Hk. subst until. lia.
  - intros token w3 H3. apply Acquire_Ok in H3 as (_ & Hn & Hle); [|done].
    destruct (decide (sys_now (w_db w3) < until)) as [Hlt|]; [|lia].
    rewrite Hk in Hn by (subst until; lia). done.
Qed.
End requests.

(** ** Witnesses *)

Definition test_cfg : SchedulerConfig := New {|
  MinIntervalSec := 0; CfgDailyUsageRatio := 0; LockTTLSec := 0; CfgCooldown429Sec := 0; WarnedPauseHours := 24 |}.
Definition test_rt : RuntimeParams := {|
  rt_DailyUsageRatio := Some (Fin (1 # 2)); rt_Cooldown429Sec := None; rt_WarnedPauseHrs := None;
  rt_QueueWaitSec := Some 1 |}.
Definition test_uuid (i n : nat) : string := pretty (Npos (encode (i, n))).
Definition test_world (d : database) (fs : list bool) : world (system map_redis) :=
  World (System d ∅ (2 * second) [3; 5; 400000000; 7]%N 0 Models.NewRegistry Users.empty_cache) fs.
Definition test_dispatch : proc (system map_redis) (option (result Lease)) :=
  Dispatch UTC test_cfg test_rt toy_open 12 16 tt (test_uuid 0) None (EMsg "canceled") "video".

Lemma test_uuid_apart i j n m : test_uuid j n = test_uuid i m → j = i.
Proof.
  unfold test_uuid. intros H. apply (inj pretty) in H. injection H as H.
  apply (inj encode) in H. by injection H.
Qed.

(** An empty pool: the dispatch waits for its second and gives up. *)
Lemma Dispatch_terminates_witness :
  ∃ r w', exec_proc test_dispatch (test_world empty_database []) = (Some r, w').
Proof.
  unfold test_dispatch. apply Dispatch_terminates.
  by vm_compute.
Defined.

Lemma Dispatch_grants_witness :
  ∃ l w', exec_proc test_dispatch (test_world pool_db [false; true; false]) = (Some (Ok l), w') ∧
    lockKey l = account_key (LeaseAccountID l).
Proof.
  destruct (exec_proc test_dispatch (test_world pool_db [false; true; false])) as [r w'] eqn:E.
  assert (Hr : ∃ l, r = Some (Ok l)).
  { pose proof (f_equal fst E) as H. cbn [fst] in H. rewrite <-H. eexists. vm_compute. reflexivity. }
  destruct Hr as [l Hl]. subst r. exists l, w'. split; [reflexivity|]. unfold test_dispatch in E.
  assert (0 < lock_ttl test_cfg) as Httl by by vm_compute.
  edestruct (Dispatch_grants UTC test_cfg) as (n & w1 & _ & H & _); [apply _|exact Httl|exact E|exact H].
Defined.

(** Two more requests want the account meanwhile: one is in the middle of its
    attempt, the other has not started. *)
Definition test_rival (j : nat) : proc (system map_redis) unit :=
  serve UTC test_cfg test_rt toy_open 12 16 tt test_uuid j "video" None (EMsg "canceled") (λ _, Done tt).
Definition test_locked : world (system map_redis) :=
  (Acquire (account_key 1) (test_uuid 0 0) (lock_ttl test_cfg) (test_world pool_db [])).2.
Definition test_later : world (system map_redis) := (advance 6 (test_rival 1) test_locked).2.

Example test_locked_ok :
  Acquire (account_key 1) (test_uuid 0 0) (lock_ttl test_cfg) (test_world pool_db []) = (Ok tt, test_locked).
Proof.
  assert ((Acquire (account_key 1) (test_uuid 0 0) (lock_ttl test_cfg) (test_world pool_db [])).1 = Ok tt) as H.
  { vm_compute. reflexivity. }
  unfold test_locked. rewrite <-H. apply surjective_pairing.
Qed.

Lemma account_exclusive_witness :
  GET (sys_now (w_db test_later)) (account_key 1) (sys_redis (w_db test_later)) = Some (test_uuid 0 0).
Proof.
  refine (proj1 (account_exclusive UTC test_cfg test_rt toy_open 12 16 tt test_uuid 0 0 1
    [test_rival 1; test_rival 2] (test_world pool_db []) [test_rival 1; test_rival 2] (test_world pool_db [])
    test_locked [(advance 6 (test_rival 1) test_locked).1; test_rival 2] test_later _ _ _ _ _ _) _).
  - by vm_compute.
  - intros j n m. apply test_uuid_apart.
  - constructor; [|constructor; [|constructor]]; unfold test_rival; (apply beside_serve; [lia|intros l; exact I]).
  - reflexivity.
  - exact test_locked_ok.
  - unfold test_later. generalize (advance 6 (test_rival 1) test_locked) (pool_advance_at
      (beside UTC test_cfg test_rt toy_open 12 16 tt test_uuid 0) 6 [test_rival 1; test_rival 2] 0
      (test_rival 1) test_locked eq_refl).
    intros r H. exact H.
  - by vm_compute.
Defined.
