(* ===== verification/Runner.v ===== *)
(** * Drawing images with the account pool (internal/image/runner.go)

    [runOnce]: one attempt, with an account of the pool, from the lease to the
    addresses of the images; [runWithRetry]: the attempts, each with another
    account; [runParallel]: several images at once; [Run]: the whole of it,
    with the archive and the row of the task.  What the exchanges with the
    upstream return is a parameter ([ImageUpstream], one per attempt); the
    order in which goroutines take turns ([turns]) and deliver ([arrival]) is
    arbitrary.  Error messages are left out, error codes are kept. *)

From S2P Require Import Prelude GoStrings GoTime Float Sql Schema Crypto Ledger Settings Models Users System Lock Proc ProxyPool Account Tasks Archive Upstream Refs Scheduler Json Delta.
From Stdlib Require Import QArith.

#[local] Open Scope Z_scope.

Record ReferenceImage := {
  RefData : string;
  RefFileName : string;
  RefContentType : string
}.

(** The options of a run that its attempts read. *)
Record RunOptions := {
  OptTaskID : string;
  OptUpstreamModel : string;
  OptPrompt : string;
  OptSize : string;
  OptN : Z;
  OptMaxAttempts : Z;
  PerAttemptTimeout : Z;
  PollMaxWait : Z;
  OptReferences : list ReferenceImage
}.

Record RunResult := {
  ResStatus : string;
  ResConversationID : string;
  ResAccountID : N;
  ResFileIDs : list string;
  ResSignedURLs : list string;
  ResThumbURLs : list string;
  ResContentTypes : list string;
  ResStorageMode : string;
  ResErrorCode : string;
  ResAttempts : Z;
  archiveImages : list SourceImage;
  quotaUsed : gmap N Z
}.

(** [chatgpt.ImageConvOpts], the fields the runner sets *)
Record ImageConvOpts := {
  ConvPrompt : string;
  ConvSize : string;
  ConvUpstreamModel : string;
  ParentMsgID : string;
  ConvMessageID : string;
  ConvChatToken : string;
  ConvProofToken : string;
  ConvConduitToken : string;
  ConvReferences : list string       (* the ids of the uploaded files *)
}.

(** What the calls of the client return in one attempt. *)
Record ImageUpstream := {
  img_client : Options → option uerr;
  img_requirements : uerr + ChatRequirementsResp;
  img_proof : option string;                       (* None: not within the eight seconds *)
  UploadFile : nat → string → string → uerr + string;
  PrepareFConversation : ImageConvOpts → uerr + string;
  StreamFConversation : ImageConvOpts → uerr + list SSEEvent;
  img_conversation : nat → uerr + string;
  ImageDownloadURL : string → string → uerr + string;
  FetchImage : string → uerr + (string * string)
}.

(** ** References *)

(** Prefixes come off until none is left; every turn shortens the text. *)
Fixpoint strip_ref (fuel : nat) (ref : string) : string :=
  match fuel with
  | O => TrimSpace ref
  | S fuel =>
      let next (p : string) := let ref := TrimPrefix ref p in if String.eqb ref "" then "" else strip_ref fuel ref in
      if HasPrefix ref "file-service://" then next "file-service://"
      else if HasPrefix ref "sediment://" then next "sediment://"
      else if HasPrefix ref "sed:" then next "sed:"
      else TrimSpace ref
  end.
Definition normalizeImageFileRefID (ref : string) : string :=
  let ref := TrimSpace ref in strip_ref (String.length ref) ref.

Definition referenceUploadFileIDSet (uploaded : list string) : list string :=
  filter (λ id, id ≠ "") (map normalizeImageFileRefID uploaded).

Definition filterOutReferenceFileIDs (refSet fileRefs : list string) : list string :=
  match refSet with
  | [] => fileRefs
  | _ => filter (λ ref, ¬ (normalizeImageFileRefID ref ≠ "" ∧ normalizeImageFileRefID ref ∈ refSet)) fileRefs
  end.

(** ** Errors *)

Definition proxyFailureSummary (e : uerr) : string := string_take 255 (TrimSpace (error_text e)).

Definition classifyUpstream (e : uerr) : string :=
  match e with
  | UpstreamError status _ _ =>
      if IsRateLimited status then ErrRateLimited
      else if IsUnauthorized status then ErrAuthRequired
      else ErrUpstream
  | Failed text =>
      if Contains text "deadline exceeded" then ErrPollTimeout
      else if Contains text "EOF" || Contains (ToLower text) "connection reset" ||
              Contains (ToLower text) "connection refused" || Contains (ToLower text) "broken pipe"
      then ErrNetworkTransient
      else ErrUpstream
  end.

Definition maxAttemptWindow (maxAttempts : Z) : Z :=
  let maxAttempts := if maxAttempts <=? 0 then 1 else maxAttempts in
  if maxAttempts <? 2 then 2 else maxAttempts.

Definition retryLimit (maxAttempts : Z) (code : string) : Z :=
  let maxAttempts := if maxAttempts <=? 0 then 1 else maxAttempts in
  if String.eqb code ErrUpstream then 2
  else if (String.eqb code ErrAuthRequired || String.eqb code ErrRateLimited || String.eqb code ErrNetworkTransient) &&
          (maxAttempts <? 2) then 2
  else maxAttempts.

Definition isRetryableImageFailure (code : string) : bool :=
  existsb (String.eqb code) [ErrRateLimited; ErrNoAccount; ErrAuthRequired; ErrNetworkTransient; ErrUpstream].

(** ** Counting images *)

Definition runResultImageCount (r : RunResult) : Z :=
  Z.max (Z.max (Z.of_nat (length (ResFileIDs r))) (Z.of_nat (length (ResSignedURLs r))))
        (Z.max (Z.of_nat (length (ResThumbURLs r))) (Z.of_nat (length (archiveImages r)))).

Definition trimRunResultImages (r : RunResult) (maxImages : Z) : RunResult :=
  if maxImages <=? 0 then r else
  let n := Z.to_nat maxImages in
  {| ResStatus := ResStatus r; ResConversationID := ResConversationID r; ResAccountID := ResAccountID r;
     ResFileIDs := take n (ResFileIDs r); ResSignedURLs := take n (ResSignedURLs r); ResThumbURLs := ResThumbURLs r;
     ResContentTypes := take n (ResContentTypes r); ResStorageMode := ResStorageMode r; ResErrorCode := ResErrorCode r;
     ResAttempts := ResAttempts r; archiveImages := take n (archiveImages r); quotaUsed := quotaUsed r |}.

Definition quotaImageCount (fileIDs signedURLs : list string) (fallback : Z) : Z :=
  match fileIDs, signedURLs with
  | _ :: _, _ => Z.of_nat (length fileIDs)
  | [], _ :: _ => Z.of_nat (length signedURLs)
  | [], [] => if 0 <? fallback then fallback else 1
  end.

(** *** Updates of a result *)

Definition new_result (mode : string) : RunResult := {|
  ResStatus := TaskFailed; ResConversationID := ""; ResAccountID := 0; ResFileIDs := []; ResSignedURLs := [];
  ResThumbURLs := []; ResContentTypes := []; ResStorageMode := mode; ResErrorCode := ErrUnknown; ResAttempts := 0;
  archiveImages := []; quotaUsed := ∅ |}.

Definition res_account (id : N) (r : RunResult) : RunResult := {|
  ResStatus := ResStatus r; ResConversationID := ResConversationID r; ResAccountID := id; ResFileIDs := ResFileIDs r;
  ResSignedURLs := ResSignedURLs r; ResThumbURLs := ResThumbURLs r; ResContentTypes := ResContentTypes r;
  ResStorageMode := ResStorageMode r; ResErrorCode := ResErrorCode r; ResAttempts := ResAttempts r;
  archiveImages := archiveImages r; quotaUsed := quotaUsed r |}.
Definition res_conversation (id : string) (r : RunResult) : RunResult := {|
  ResStatus := ResStatus r; ResConversationID := id; ResAccountID := ResAccountID r; ResFileIDs := ResFileIDs r;
  ResSignedURLs := ResSignedURLs r; ResThumbURLs := ResThumbURLs r; ResContentTypes := ResContentTypes r;
  ResStorageMode := ResStorageMode r; ResErrorCode := ResErrorCode r; ResAttempts := ResAttempts r;
  archiveImages := archiveImages r; quotaUsed := quotaUsed r |}.
(** The images of an attempt; without a store none are fetched. *)
Definition res_images (refs urls cts : list string) (images : list SourceImage) (r : RunResult) : RunResult := {|
  ResStatus := ResStatus r; ResConversationID := ResConversationID r; ResAccountID := ResAccountID r; ResFileIDs := refs;
  ResSignedURLs := urls; ResThumbURLs := ResThumbURLs r; ResContentTypes := cts;
  ResStorageMode := ResStorageMode r; ResErrorCode := ResErrorCode r; ResAttempts := ResAttempts r;
  archiveImages := images; quotaUsed := quotaUsed r |}.
Definition res_attempts (n : Z) (r : RunResult) : RunResult := {|
  ResStatus := ResStatus r; ResConversationID := ResConversationID r; ResAccountID := ResAccountID r;
  ResFileIDs := ResFileIDs r; ResSignedURLs := ResSignedURLs r; ResThumbURLs := ResThumbURLs r;
  ResContentTypes := ResContentTypes r; ResStorageMode := ResStorageMode r; ResErrorCode := ResErrorCode r;
  ResAttempts := n; archiveImages := archiveImages r; quotaUsed := quotaUsed r |}.
Definition res_code (code : string) (r : RunResult) : RunResult := {|
  ResStatus := ResStatus r; ResConversationID := ResConversationID r; ResAccountID := ResAccountID r;
  ResFileIDs := ResFileIDs r; ResSignedURLs := ResSignedURLs r; ResThumbURLs := ResThumbURLs r;
  ResContentTypes := ResContentTypes r; ResStorageMode := ResStorageMode r; ResErrorCode := code;
  ResAttempts := ResAttempts r; archiveImages := archiveImages r; quotaUsed := quotaUsed r |}.
Definition res_status (status code : string) (r : RunResult) : RunResult := {|
  ResStatus := status; ResConversationID := ResConversationID r; ResAccountID := ResAccountID r;
  ResFileIDs := ResFileIDs r; ResSignedURLs := ResSignedURLs r; ResThumbURLs := ResThumbURLs r;
  ResContentTypes := ResContentTypes r; ResStorageMode := ResStorageMode r; ResErrorCode := code;
  ResAttempts := ResAttempts r; archiveImages := archiveImages r; quotaUsed := quotaUsed r |}.
Definition res_archived (a : archived) (r : RunResult) : RunResult := {|
  ResStatus := ResStatus r; ResConversationID := ResConversationID r; ResAccountID := ResAccountID r;
  ResFileIDs := ResFileIDs r; ResSignedURLs := ArURLs a; ResThumbURLs := ArThumbs a;
  ResContentTypes := ResContentTypes r; ResStorageMode := ArMode a; ResErrorCode := ResErrorCode r;
  ResAttempts := ResAttempts r; archiveImages := archiveImages r; quotaUsed := quotaUsed r |}.
Definition res_quota (q : gmap N Z) (r : RunResult) : RunResult := {|
  ResStatus := ResStatus r; ResConversationID := ResConversationID r; ResAccountID := ResAccountID r;
  ResFileIDs := ResFileIDs r; ResSignedURLs := ResSignedURLs r; ResThumbURLs := ResThumbURLs r;
  ResContentTypes := ResContentTypes r; ResStorageMode := ResStorageMode r; ResErrorCode := ResErrorCode r;
  ResAttempts := ResAttempts r; archiveImages := archiveImages r; quotaUsed := q |}.

Definition copyRunResultState (dst src : RunResult) : RunResult := {|
  ResStatus := ResStatus dst; ResConversationID := ResConversationID src; ResAccountID := ResAccountID src;
  ResFileIDs := ResFileIDs src; ResSignedURLs := ResSignedURLs src; ResThumbURLs := ResThumbURLs src;
  ResContentTypes := ResContentTypes src; ResStorageMode := ResStorageMode dst; ResErrorCode := ResErrorCode dst;
  ResAttempts := ResAttempts dst; archiveImages := archiveImages src; quotaUsed := ∅ |}.

(** ** The runner *)

Record Runner := {
  HasDAO : bool;
  HasFiles : bool;               (* SaveTaskImages of the stores *)
  HasQuotaDecr : bool;
  CfgPollMaxWaitSec : Z
}.

(** Of [imageWaitConfig] only this is read. *)
Definition pollMaxWaitSec (r : Runner) : Z := if CfgPollMaxWaitSec r <=? 0 then 120 else CfgPollMaxWaitSec r.

Definition normalizeOptions (r : Runner) (opt : RunOptions) : RunOptions := {|
  OptTaskID := OptTaskID opt;
  OptUpstreamModel := if String.eqb (OptUpstreamModel opt) "" then "auto" else OptUpstreamModel opt;
  OptPrompt := OptPrompt opt; OptSize := OptSize opt;
  OptN := if OptN opt <=? 0 then 1 else OptN opt;
  OptMaxAttempts := if OptMaxAttempts opt <=? 0 then 1 else OptMaxAttempts opt;
  PerAttemptTimeout := if PerAttemptTimeout opt <=? 0 then 6 * minute else PerAttemptTimeout opt;
  PollMaxWait := if PollMaxWait opt <=? 0 then duration (pollMaxWaitSec r) second else PollMaxWait opt;
  OptReferences := OptReferences opt |}.

(** One of the parallel runs. *)
Definition sub_options (opt : RunOptions) : RunOptions := {|
  OptTaskID := ""; OptUpstreamModel := OptUpstreamModel opt; OptPrompt := OptPrompt opt; OptSize := OptSize opt;
  OptN := 1; OptMaxAttempts := OptMaxAttempts opt; PerAttemptTimeout := PerAttemptTimeout opt;
  PollMaxWait := PollMaxWait opt; OptReferences := OptReferences opt |}.

Section runner.
Context (r : Runner) (st : Stores) (settings : option cache).
Context (json_column : string → option string) (marshal : list string → string).
Context (unmarshal : string → result rawConfig) (unmarshal_bool : string → option bool) (http_url : string → bool).
Context (loc : location) (cfg : SchedulerConfig) (rt : RuntimeParams).
Context {AEAD : Type} (Open : AEAD → list ascii → list ascii → result (list ascii))
        (NonceSize Overhead : nat) (cipher : AEAD).
Context (decode : string → option json) (num : string → Q).
Context {R : Type} `{!RedisServer R} (uuid : nat → string).

Abbreviation process := (proc (system R)).

(** What an attempt returns: whether it succeeded, the code of its failure,
    its result. *)
Definition Attempt : Type := bool * string * RunResult.

Definition fails (code : string) (res : RunResult) (l : Lease) : process (Attempt * Lease) := Done (false, code, res, l).

(** The lease as it is afterwards. *)
Definition markProxyFailureIfNeeded (l : Lease) (e : uerr) : process Lease :=
  if (ProxyID l =? 0)%N then Done l else
  if negb (isProxyTransportError e) then Done l else
  x <~ MarkProxyFailure l (proxyFailureSummary e) ;;
  Done x.2.

Definition markAccountFailure (accountID : N) (code : string) : process unit :=
  if (accountID =? 0)%N then Done tt
  else if String.eqb code ErrRateLimited then _ <~ one (MarkRateLimited cfg rt accountID) ;; Done tt
  else if String.eqb code ErrAuthRequired then _ <~ one (MarkDead accountID) ;; Done tt
  else Done tt.

(** A failure of an exchange: the proxy and the account are marked. *)
Definition blame (l : Lease) (e : uerr) : process (string * Lease) :=
  l <~ markProxyFailureIfNeeded l e ;;
  let code := classifyUpstream e in
  _ <~ markAccountFailure (LeaseAccountID l) code ;;
  Done (code, l).

Section attempt.
Context (opt : RunOptions) (u : ImageUpstream).
(** The deadline of the attempt's context. *)
Context (deadline : Z).

(** The references are uploaded one by one. *)
Fixpoint upload_refs (i : nat) (refs : list ReferenceImage) (l : Lease) : process ((string + list string) * Lease) :=
  match refs with
  | [] => Done (inr [], l)
  | r0 :: refs =>
      match UploadFile u i (RefData r0) (RefFileName r0) with
      | inl e =>
          x <~ blame l e ;;
          let code := x.1 in
          Done (inl (if String.eqb code ErrAuthRequired || String.eqb code ErrRateLimited || String.eqb code ErrNetworkTransient
                     then code else ErrUpstream), x.2)
      | inr up =>
          x <~ upload_refs (S i) refs l ;;
          Done (match x.1 with inl code => inl code | inr ups => inr (up :: ups) end, x.2)
      end
  end.

(** The addresses of the references, those that fail left out: the
    references, their addresses, and the code of the failures. *)
Fixpoint sign_refs (convID : string) (refs : list string) (code : string) (l : Lease) :
    process (list string * list string * string * Lease) :=
  match refs with
  | [] => Done ([], [], code, l)
  | ref :: refs =>
      match ImageDownloadURL u convID ref with
      | inl e =>
          l <~ markProxyFailureIfNeeded l e ;;
          let c := classifyUpstream e in
          sign_refs convID refs
            (if String.eqb code "" || String.eqb c ErrAuthRequired || String.eqb c ErrRateLimited then c else code) l
      | inr url =>
          x <~ sign_refs convID refs code l ;;
          let '(rs, urls, code, l) := x : list string * list string * string * Lease in
          Done (ref :: rs, url :: urls, code, l)
      end
  end.

(** The bytes behind the addresses, and their types; [None]: one failed. *)
Fixpoint fetch_images (i : nat) (urls : list string) (l : Lease) : process (option (list SourceImage * list string) * Lease) :=
  match urls with
  | [] => Done (Some ([], []), l)
  | url :: urls =>
      match FetchImage u url with
      | inl e => l <~ markProxyFailureIfNeeded l e ;; Done (None, l)
      | inr (body, ct) =>
          let ct := if String.eqb ct "" then "image/png" else ct in
          x <~ fetch_images (S i) urls l ;;
          Done (match x.1 with
                | Some (images, cts) =>
                    Some ({| SrcIndex := Z.of_nat i; SrcData := body; SrcFileName := ""; SrcContentType := ct |} :: images,
                          ct :: cts)
                | None => None
                end, x.2)
      end
  end.

(** From the references to the images. *)
Definition deliver (convID : string) (fileRefs : list string) (l : Lease) (res : RunResult) : process (Attempt * Lease) :=
  match fileRefs with
  | [] => fails ErrUpstream res l
  | _ =>
      x <~ sign_refs convID fileRefs "" l ;;
      let '(refs, urls, code, l) := x : list string * list string * string * Lease in
      match urls with
      | [] =>
          if String.eqb code ErrAuthRequired || String.eqb code ErrRateLimited || String.eqb code ErrNetworkTransient
          then _ <~ markAccountFailure (LeaseAccountID l) code ;; fails code res l
          else fails ErrDownload res l
      | _ =>
          if HasFiles r then
            y <~ fetch_images O urls l ;;
            match y.1 with
            | None => fails ErrArchive res y.2
            | Some (images, cts) => Done (true, "", res_images refs urls cts images res, y.2)
            end
          else Done (true, "", res_images refs urls (map (λ _, "image/png") urls) [] res, l)
      end
  end.

(** The references of the stream, and those of the conversation when there
    are not enough of them. *)
Definition collect (refSet : list string) (sse : ImageSSEResult) (l : Lease) (res : RunResult) : process (Attempt * Lease) :=
  let convID := SSEConversationID sse in
  let strip := filterOutReferenceFileIDs refSet in
  let fileRefs := strip (SSEFileIDs sse ++ map (λ s, "sed:" +:+ s) (SSESedimentIDs sse)) in
  if OptN opt <=? Z.of_nat (length fileRefs) then deliver convID fileRefs l res else
  p <~ PollConversationForImages num decode (img_conversation u) (Some deadline) convID
         {| BaselineToolIDs := []; ExpectedN := OptN opt; MaxWait := PollMaxWait opt; Interval := 0 |} ;;
  match p with
  | Some (PollSuccess, fids, sids) =>
      deliver convID (strip (add_all (add_all fileRefs fids) (map (λ s, "sed:" +:+ s) sids))) l res
  | Some (PollTimeout, _, _) => fails ErrPollTimeout res l
  | Some (PollError, _, _) => fails ErrUpstream res l
  | None => fails ErrUpstream res l      (* never: poll_terminates *)
  end.

Definition image_model (cr : ChatRequirementsResp) : string :=
  let m := OptUpstreamModel opt in
  if negb (String.eqb m "") && negb (String.eqb m "auto") && negb (IsFreeAccount cr) then m else "auto".

(** The stream of the conversation, and what is found in it. *)
Definition converse_image (conv : ImageConvOpts) (l : Lease) (res : RunResult) : process (Attempt * Lease) :=
  match StreamFConversation u conv with
  | inl e => x <~ blame l e ;; fails x.1 res x.2
  | inr stream =>
      let sse := ParseImageSSE decode stream in
      collect (referenceUploadFileIDSet (ConvReferences conv)) sse l
        (if String.eqb (SSEConversationID sse) "" then res else res_conversation (SSEConversationID sse) res)
  end.

Definition conv_opts (cr : ChatRequirementsResp) (proofToken : string) (uploaded : list string)
    (parentID messageID : result string) (conduit : string) : ImageConvOpts := {|
  ConvPrompt := OptPrompt opt; ConvSize := OptSize opt; ConvUpstreamModel := image_model cr;
  ParentMsgID := match parentID with Ok s => s | Err _ => "" end;
  ConvMessageID := match messageID with Ok s => s | Err _ => "" end;
  ConvChatToken := Token cr; ConvProofToken := proofToken; ConvConduitToken := conduit; ConvReferences := uploaded |}.

(** The conversation: prepared, streamed, searched. *)
Definition draw (cr : ChatRequirementsResp) (proofToken : string) (uploaded : list string) (l : Lease) (res : RunResult) :
    process (Attempt * Lease) :=
  parentID <~ one (NewString uuid) ;;
  messageID <~ one (NewString uuid) ;;
  let conv := conv_opts cr proofToken uploaded parentID messageID in
  match PrepareFConversation u (conv "") with
  | inr conduit => converse_image (conv conduit) l res
  | inl e =>
      l <~ markProxyFailureIfNeeded l e ;;
      let code := classifyUpstream e in
      if String.eqb code ErrAuthRequired || String.eqb code ErrRateLimited
      then _ <~ markAccountFailure (LeaseAccountID l) code ;; fails code res l
      else converse_image (conv "") l res
  end.

(** The proof of work, if one is asked for. *)
Definition prove_image (cr : ChatRequirementsResp) (l : Lease) : process (string + string) :=
  if PowRequired cr then
    match img_proof u with
    | None => _ <~ one (MarkWarned cfg rt (LeaseAccountID l)) ;; Done (inl ErrPOWTimeout)
    | Some t =>
        if String.eqb t "" then _ <~ one (MarkWarned cfg rt (LeaseAccountID l)) ;; Done (inl ErrPOWFailed)
        else Done (inr t)
    end
  else Done (inr "").

Definition with_image_lease (l : Lease) (res : RunResult) : process (Attempt * Lease) :=
  let res := res_account (LeaseAccountID l) res in
  _ <~ (if HasDAO r && negb (String.eqb (OptTaskID opt) "")
        then one (on_db (SetAccount (OptTaskID opt) (LeaseAccountID l))) else Done (Ok tt)) ;;
  let opts := {| OptAuthToken := LeaseAuthToken l; OptDeviceID := DeviceID l; OptSessionID := SessionID l;
                 OptProxyURL := ProxyURL l; OptCookies := ""; OptTimeout := 0 |} in
  match img_client u opts with
  | Some e => l <~ markProxyFailureIfNeeded l e ;; fails ErrUnknown res l
  | None =>
      match img_requirements u with
      | inl e => x <~ blame l e ;; fails x.1 res x.2
      | inr cr =>
          p <~ prove_image cr l ;;
          match p with
          | inl code => fails code res l
          | inr proofToken =>
              x <~ upload_refs O (OptReferences opt) l ;;
              match x.1 with
              | inl code => fails code res x.2
              | inr uploaded => draw cr proofToken uploaded x.2 res
              end
          end
      end
  end.

(** The release is deferred. *)
Definition runOnce (res : RunResult) : process Attempt :=
  d <~ Dispatch loc cfg rt Open NonceSize Overhead cipher uuid (Some deadline) (EMsg "context deadline exceeded") TypeImage ;;
  match d with
  | Some (Ok l) =>
      x <~ with_image_lease l res ;;
      _ <~ LeaseRelease loc x.2 ;;
      Done x.1
  | Some (Err e) => Done (false, if errors_Is e ErrNoAvailable then ErrNoAccount else ErrUnknown, res)
  | None => Done (false, ErrUnknown, res)      (* never: Dispatch_terminates *)
  end.
End attempt.

(** ** Attempts *)

(** What the exchanges of each attempt return: by batch, goroutine and
    attempt. *)
Context (net : nat → nat → nat → ImageUpstream).
(** The deadline of the task's context. *)
Context (task_done : Z).

(** [todo] turns of the loop remain; [n] have been taken. *)
Fixpoint retry_loop (todo n : nat) (batch i : nat) (opt : RunOptions) (result : RunResult) : process (bool * RunResult) :=
  match todo with
  | O => Done (false, result)
  | S todo =>
      let attempt := Z.of_nat n + 1 in
      let result := res_attempts attempt result in
      now <~ one Now ;;
      let now := match now with Ok t => t | Err _ => 0 end in
      if task_done <=? now then Done (false, res_code ErrUnknown result) else
      start <~ one Now ;;
      let deadline := Z.min task_done (match start with Ok t => t | Err _ => 0 end + PerAttemptTimeout opt) in
      x <~ runOnce opt (net batch i n) deadline (new_result (ResStorageMode result)) ;;
      let '(ok, status, attemptResult) := x : Attempt in
      let result := copyRunResultState result attemptResult in
      if ok then Done (true, result) else
      let status := if String.eqb status "" then ResErrorCode attemptResult else status in
      let status := if String.eqb status "" then ErrUnknown else status in
      let result := res_code status result in
      if negb (isRetryableImageFailure status) then Done (false, result)
      else if retryLimit (OptMaxAttempts opt) status <=? attempt then Done (false, result)
      else retry_loop todo (S n) batch i opt result
  end.

Definition runWithRetry (batch i : nat) (opt : RunOptions) (result : RunResult) : process (bool * RunResult) :=
  retry_loop (Z.to_nat (maxAttemptWindow (OptMaxAttempts opt))) O batch i opt result.

(** ** Several images at once *)

(** The turns of the goroutines of a batch, and the order in which they
    deliver. *)
Context (turns : nat → nat → list bool) (arrival : nat → list nat).

Abbreviation mode := (storageMode settings).

Definition sub_run (batch : nat) (opt : RunOptions) (i : nat) : process (bool * RunResult) :=
  x <~ runWithRetry batch i (sub_options opt) (new_result mode) ;;
  Done (x.1, if (x.1 : bool) then trimRunResultImages x.2 1 else x.2).

Definition runBatch (batch : nat) (opt : RunOptions) (count : nat) : process (list (bool * RunResult)) :=
  l <~ together (turns batch) (map (sub_run batch opt) (seq 0 count)) ;;
  Done (shuffle (arrival batch) l).

Definition subImageCount (s : RunResult) : Z :=
  Z.max (Z.max (Z.of_nat (length (ResFileIDs s))) (Z.of_nat (length (ResSignedURLs s)))) (Z.of_nat (length (archiveImages s))).

(** What the loop carries: the result, the number of successes and the code
    of the last failure. *)
Record progress := {
  pg_result : RunResult;
  pg_successes : Z;
  pg_lastErr : string
}.

Definition merge_one (p : progress) (sub : bool * RunResult) : progress :=
  let '(ok, s) := sub in
  let res := res_attempts (ResAttempts (pg_result p) + ResAttempts s) (pg_result p) in
  if negb ok then {| pg_result := res; pg_successes := pg_successes p; pg_lastErr := ResErrorCode s |} else
  let n := subImageCount s in
  if n <=? 0 then {| pg_result := res; pg_successes := pg_successes p; pg_lastErr := ErrInvalidResponse |} else
  let base := runResultImageCount res in
  {| pg_result := {|
       ResStatus := ResStatus res;
       ResConversationID := if String.eqb (ResConversationID res) "" then ResConversationID s else ResConversationID res;
       ResAccountID := if (ResAccountID res =? 0)%N then ResAccountID s else ResAccountID res;
       ResFileIDs := ResFileIDs res ++ ResFileIDs s; ResSignedURLs := ResSignedURLs res ++ ResSignedURLs s;
       ResThumbURLs := ResThumbURLs res; ResContentTypes := ResContentTypes res ++ ResContentTypes s;
       ResStorageMode := ResStorageMode res; ResErrorCode := ResErrorCode res; ResAttempts := ResAttempts res;
       archiveImages := archiveImages res ++ map (λ img, with_index (base + SrcIndex img) img) (archiveImages s);
       quotaUsed := if (0 <? ResAccountID s)%N
                    then <[ResAccountID s := default 0 (quotaUsed res !! ResAccountID s) + n]> (quotaUsed res)
                    else quotaUsed res |};
     pg_successes := pg_successes p + 1; pg_lastErr := pg_lastErr p |}.

Fixpoint batches (todo batch : nat) (opt : RunOptions) (p : progress) : process progress :=
  match todo with
  | O => Done p
  | S todo =>
      let remaining := OptN opt - runResultImageCount (pg_result p) in
      if remaining <=? 0 then Done p else
      subs <~ runBatch batch opt (Z.to_nat remaining) ;;
      let p := foldl merge_one p subs in
      now <~ one Now ;;
      if task_done <=? match now with Ok t => t | Err _ => 0 end then Done p
      else batches todo (S batch) opt p
  end.

Definition maxBatches (opt : RunOptions) : Z := Z.max (OptN opt) (maxAttemptWindow (OptMaxAttempts opt)).

Definition sort_images (res : RunResult) : RunResult :=
  res_images (ResFileIDs res) (ResSignedURLs res) (ResContentTypes res)
    (sort_by (λ a b, SrcIndex a <=? SrcIndex b) (archiveImages res)) res.

Definition runParallel (opt : RunOptions) (result : RunResult) : process RunResult :=
  let n := OptN opt in
  p <~ batches (Z.to_nat (maxBatches opt)) O opt
         {| pg_result := res_quota ∅ result; pg_successes := 0; pg_lastErr := "" |} ;;
  let res := if (1 <? length (archiveImages (pg_result p)))%nat then sort_images (pg_result p) else pg_result p in
  let res := if n <? runResultImageCount res then trimRunResultImages res n else res in
  Done (if n <=? runResultImageCount res then res_status TaskSuccess "" res
        else if 0 <? pg_successes p then res_code ErrInvalidResponse res
        else res_code (if String.eqb (pg_lastErr p) "" then ErrUnknown else pg_lastErr p) res).

(** ** The whole run *)

Definition archiveResult (taskID : string) (res : RunResult) : result RunResult :=
  a <-? archiveResultImages st settings unmarshal unmarshal_bool http_url taskID (archiveImages res) (ResContentTypes res)
          (ResSignedURLs res) (ResThumbURLs res) ;;
  Ok (res_archived a res).

Fixpoint decr_quotas (l : list (N * Z)) : process unit :=
  match l with
  | [] => Done tt
  | (accountID, n) :: l =>
      if (accountID =? 0)%N || (n <=? 0) then decr_quotas l else
      _ <~ one (on_db (DecrQuota accountID n)) ;;
      decr_quotas l
  end.

(** The row of the task, and the quotas of the accounts. *)
Definition persist (opt : RunOptions) (res : RunResult) : process unit :=
  if negb (HasDAO r && negb (String.eqb (OptTaskID opt) "")) then Done tt else
  if String.eqb (ResStatus res) TaskSuccess then
    x <~ one (at_now (MarkSuccess json_column marshal (OptTaskID opt) (ResConversationID res) (ResFileIDs res)
                        (ResSignedURLs res) (ResThumbURLs res) (ResStorageMode res) 0)) ;;
    if is_ok x && HasQuotaDecr r then
      decr_quotas
        (map_to_list
           (if bool_decide (quotaUsed res = ∅) && (0 <? ResAccountID res)%N
            then {[ ResAccountID res := quotaImageCount (ResFileIDs res) (ResSignedURLs res) (OptN opt) ]}
            else quotaUsed res))
    else Done tt
  else
    _ <~ one (at_now (MarkFailed (OptTaskID opt) (ResErrorCode res))) ;;
    Done tt.

(** One image: its attempts, and what is kept of it. *)
Definition run_one (opt : RunOptions) (result : RunResult) : process RunResult :=
  x <~ runWithRetry O O opt result ;;
  if (x.1 : bool) then
    let res := trimRunResultImages x.2 (OptN opt) in
    if runResultImageCount res <? OptN opt then Done (res_status TaskFailed ErrInvalidResponse res)
    else match archiveResult (OptTaskID opt) res with
         | Err _ => Done (res_status TaskFailed ErrArchive res)
         | Ok res =>
             Done (res_status TaskSuccess ""
               (res_quota {[ ResAccountID res := quotaImageCount (ResFileIDs res) (ResSignedURLs res) (OptN opt) ]} res))
         end
  else Done x.2.

Definition run_many (opt : RunOptions) (result : RunResult) : process RunResult :=
  res <~ runParallel opt result ;;
  if String.eqb (ResStatus res) TaskSuccess then
    match archiveResult (OptTaskID opt) res with
    | Err _ => Done (res_status TaskFailed ErrArchive res)
    | Ok res => Done res
    end
  else Done res.

Definition Run (opt : RunOptions) : process RunResult :=
  let opt := normalizeOptions r opt in
  let result := new_result mode in
  _ <~ (if HasDAO r && negb (String.eqb (OptTaskID opt) "")
        then one (at_now (MarkRunning (OptTaskID opt) 0)) else Done (Ok tt)) ;;
  res <~ (if 1 <? OptN opt then run_many opt result else run_one opt result) ;;
  _ <~ persist opt res ;;
  Done res.
End runner.
