(* ===== verification/UsageLog.v ===== *)
(** * Usage records written in batches (internal/usage/logger.go)

    Handlers hand their records to a bounded channel and never wait; one
    goroutine takes them out, and writes them by the batch, at every tick, and
    when it is closed.  What the goroutines do is a step relation: a write, a
    tick and the close come at any time.  A batch is one INSERT: it fails as a
    whole when one of its rows does not fit the columns of usage_logs. *)

From S2P Require Import Prelude GoStrings GoTime Sql Schema.

#[local] Open Scope Z_scope.

(** ** The table *)

(** VARCHAR counts characters: bytes that do not continue one. *)
Definition char_length (s : string) : nat :=
  length (List.filter (λ c, negb ((128 <=? code c) && (code c <? 192))%N) (bytes s)).
Definition fits (n : nat) (s : string) : bool := (char_length s <=? n)%nat.

Definition in_int (n : Z) : bool := (- 2 ^ 31 <=? n) && (n <? 2 ^ 31).

Definition row_fits (r : Log) : bool :=
  fits 64 (LogRequestID r) && fits 16 (LogType r) && in_int (InputTokens r) && in_int (OutputTokens r) &&
  in_int (CacheReadTokens r) && in_int (CacheWriteTokens r) && in_int (ImageCount r) && in_int (DurationMs r) &&
  fits 16 (LogStatus r) && fits 64 (ErrorCode r) && fits 64 (LogIP r) && fits 255 (LogUA r).

Definition bulkInsert (rows : list Log) : DBM unit :=
  match rows with
  | [] => ret tt
  | _ => exec (λ d, if forallb row_fits rows then Ok (tt, with_usage_logs (λ l, l ++ rows) d) else Err (EMySQL 1406))
  end.

(** ** The logger *)

Record Options := { Buffer : Z; Batch : Z; FlushInterval : Z }.

Definition with_defaults (opt : Options) : Options := {|
  Buffer := if Buffer opt <=? 0 then 8192 else Buffer opt;
  Batch := if Batch opt <=? 0 then 500 else Batch opt;
  FlushInterval := if FlushInterval opt <=? 0 then 200 * 1000000 else FlushInterval opt |}.

#[global] Arguments with_defaults : simpl never.

(** In its loop, emptying the channel after [Close], returned. *)
Inductive phase := Looping | Draining | Returned.

Record Logger := {
  lg_opt : Options;
  lg_ch : list Log;
  lg_closed : bool;
  lg_batch : list Log;
  lg_phase : phase
}.

Definition New (opt : Options) : Logger :=
  {| lg_opt := with_defaults opt; lg_ch := []; lg_closed := false; lg_batch := []; lg_phase := Looping |}.

Definition with_ch (ch : list Log) (l : Logger) : Logger := {|
  lg_opt := lg_opt l; lg_ch := ch; lg_closed := lg_closed l; lg_batch := lg_batch l; lg_phase := lg_phase l |}.
Definition with_batch (batch : list Log) (l : Logger) : Logger := {|
  lg_opt := lg_opt l; lg_ch := lg_ch l; lg_closed := lg_closed l; lg_batch := batch; lg_phase := lg_phase l |}.
Definition with_phase (p : phase) (l : Logger) : Logger := {|
  lg_opt := lg_opt l; lg_ch := lg_ch l; lg_closed := lg_closed l; lg_batch := lg_batch l; lg_phase := p |}.

Definition stamped (now : Z) (row : Log) : Log := {|
  LogUserID := LogUserID row; LogKeyID := LogKeyID row; LogModelID := LogModelID row; LogAccountID := LogAccountID row;
  LogRequestID := LogRequestID row; LogType := LogType row; InputTokens := InputTokens row; OutputTokens := OutputTokens row;
  CacheReadTokens := CacheReadTokens row; CacheWriteTokens := CacheWriteTokens row; ImageCount := ImageCount row;
  CreditCost := CreditCost row; DurationMs := DurationMs row; LogStatus := LogStatus row; ErrorCode := ErrorCode row;
  LogIP := LogIP row; LogUA := LogUA row; LogCreatedAt := if LogCreatedAt row =? zero_time then now else LogCreatedAt row |}.

(** The row that is in the channel now, if there was room. *)
Definition Write (row : Log) (now : Z) (l : Logger) : option Log * Logger :=
  let row := stamped now row in
  if Z.of_nat (length (lg_ch l)) <? Buffer (lg_opt l) then (Some row, with_ch (lg_ch l ++ [row]) l) else (None, l).

Definition Close (l : Logger) : Logger := {|
  lg_opt := lg_opt l; lg_ch := lg_ch l; lg_closed := true; lg_batch := lg_batch l; lg_phase := lg_phase l |}.

Abbreviation state := (Logger * world database)%type.

(** An error is logged; the batch is emptied either way. *)
Definition flush (s : state) : state :=
  let '(l, w) := s in
  match lg_batch l with [] => (l, w) | rows => (with_batch [] l, (bulkInsert rows w).2) end.

(** [case row := <-l.ch] *)
Definition receive (row : Log) (ch : list Log) (s : state) : state :=
  let '(l, w) := s in
  let l := with_batch (lg_batch l ++ [row]) (with_ch ch l) in
  if Batch (lg_opt l) <=? Z.of_nat (length (lg_batch l)) then flush (l, w) else (l, w).

(** A step, and the row it has put into the channel. *)
Inductive logger_step : state → option Log → state → Prop :=
  | step_write row now l w : logger_step (l, w) (Write row now l).1 ((Write row now l).2, w)
  | step_close l w : lg_closed l = false → logger_step (l, w) None (Close l, w)
  | step_row row ch l w :
      lg_phase l = Looping → lg_ch l = row :: ch → logger_step (l, w) None (receive row ch (l, w))
  | step_tick l w : lg_phase l = Looping → logger_step (l, w) None (flush (l, w))
  | step_closed l w : lg_phase l = Looping → lg_closed l = true → logger_step (l, w) None (with_phase Draining l, w)
  | step_drain row ch l w :
      lg_phase l = Draining → lg_ch l = row :: ch → logger_step (l, w) None (receive row ch (l, w))
  | step_return l w :
      lg_phase l = Draining → lg_ch l = [] →
      logger_step (l, w) None (with_phase Returned (flush (l, w)).1, (flush (l, w)).2).

(** A run and the rows the channel has taken, in their order. *)
Inductive logger_run : state → list Log → state → Prop :=
  | run_start s : logger_run s [] s
  | run_step s rows s' row s'' :
      logger_run s rows s' → logger_step s' row s'' → logger_run s (rows ++ option_list row) s''.

(** ** Every record is accounted for *)

(** The batches that were written, each with whether its INSERT succeeded. *)
Definition kept_rows (bs : list (bool * list Log)) : list Log := concat (map snd (List.filter fst bs)).

Record accounted (d0 : database) (opt : Options) (lim : Z) (rows : list Log) (s : state) (bs : list (bool * list Log)) : Prop := {
  acc_opt : lg_opt s.1 = with_defaults opt;
  acc_rows : rows = concat (map snd bs) ++ lg_batch s.1 ++ lg_ch s.1;
  acc_table : usage_logs (w_db s.2) = usage_logs d0 ++ kept_rows bs;
  acc_sizes : Forall (λ b : bool * list Log, 1 ≤ Z.of_nat (length b.2) ≤ Batch (with_defaults opt)) bs;
  acc_batch : Z.of_nat (length (lg_batch s.1)) ≤ lim;
  acc_ch : Z.of_nat (length (lg_ch s.1)) ≤ Buffer (with_defaults opt);
  acc_returned : lg_phase s.1 = Returned → lg_batch s.1 = []
}.

Lemma with_defaults_pos opt : 0 < Buffer (with_defaults opt) ∧ 0 < Batch (with_defaults opt).
Proof. unfold with_defaults. cbn. split; case_match; lia. Qed.

Lemma kept_rows_app bs bs' : kept_rows (bs ++ bs') = kept_rows bs ++ kept_rows bs'.
Proof. unfold kept_rows. by rewrite List.filter_app, map_app, concat_app. Qed.

(** What one INSERT does: all the rows or none, and none only when one does not
    fit or the connection fails. *)
Lemma bulkInsert_all rows w :
  rows ≠ [] → ∃ ok : bool,
    usage_logs (w_db (bulkInsert rows w).2) = usage_logs (w_db w) ++ (if ok then rows else []) ∧
    (w_faults w = [] → w_faults (bulkInsert rows w).2 = [] ∧ (forallb row_fits rows = true → ok = true)).
Proof.
  intros Hr. unfold bulkInsert. destruct rows as [|r rows]; [done|]. unfold exec, call. destruct w as [d fs]. cbn [w_faults w_db].
  destruct (forallb row_fits (r :: rows)) eqn:E.
  - destruct fs as [|[] fs]; [exists true|exists false|exists true]; cbn; rewrite ?app_nil_r; by split.
  - exists false. destruct fs as [|[] fs]; cbn; rewrite ?app_nil_r; by split.
Qed.

(** A flush writes what has been gathered. *)
Lemma flush_spec l w :
  ∃ bs, (flush (l, w)).1 = with_batch [] l ∧ concat (map snd bs) = lg_batch l ∧
    usage_logs (w_db (flush (l, w)).2) = usage_logs (w_db w) ++ kept_rows bs ∧
    Forall (λ b : bool * list Log, b.2 = lg_batch l ∧ lg_batch l ≠ []) bs ∧
    (w_faults w = [] → w_faults (flush (l, w)).2 = [] ∧ (forallb row_fits (lg_batch l) = true → Forall (λ b, b.1 = true) bs)).
Proof.
  unfold flush. destruct (lg_batch l) as [|r rows] eqn:E.
  - exists []. split_and!; [|done|by rewrite app_nil_r|constructor|by split]. destruct l. cbn in *. by subst.
  - destruct (bulkInsert_all (r :: rows) w) as (ok & H1 & H2); [done|]. exists [(ok, r :: rows)]. cbn [fst snd].
    split_and!; [done|by cbn; rewrite app_nil_r| |by repeat constructor|].
    + rewrite H1. unfold kept_rows. destruct ok; cbn; by rewrite ?app_nil_r.
    + intros Hw. destruct (H2 Hw) as [H3 H4]. split; [done|]. intros Hf. constructor; [by apply H4|constructor].
Qed.

Section run.
Context (d0 : database) (opt : Options).

Abbreviation size := (Batch (with_defaults opt)).

Lemma flush_accounted lim rows l w bs :
  lim ≤ size → accounted d0 opt lim rows (l, w) bs →
  ∃ bs', accounted d0 opt 0 rows (flush (l, w)) (bs ++ bs') ∧
    lg_phase (flush (l, w)).1 = lg_phase l ∧ lg_ch (flush (l, w)).1 = lg_ch l ∧
    (w_faults w = [] → w_faults (flush (l, w)).2 = [] ∧ (forallb row_fits rows = true → Forall (λ b, b.1 = true) bs')).
Proof.
  intros Hlim []. destruct (flush_spec l w) as (bs' & H1 & H2 & H3 & H4 & H5). exists bs'. cbn [fst snd] in *.
  destruct (flush (l, w)) as [l' w'] eqn:Ef. cbn [fst snd] in *. subst l'. cbn. split_and!; try done.
  - split; cbn; try done.
    + by rewrite acc_rows0, map_app, concat_app, H2, <-app_assoc.
    + by rewrite H3, acc_table0, kept_rows_app, app_assoc.
    + apply Forall_app. split; [done|]. eapply Forall_impl; [exact H4|]. intros b [-> Hb].
      assert (0 < length (lg_batch l))%nat by (destruct (lg_batch l); [done|cbn; lia]). lia.
  - intros Hw. destruct (H5 Hw) as [H6 H7]. split; [done|]. intros Hf. apply H7. rewrite acc_rows0, !forallb_app in Hf.
    by apply andb_true_iff in Hf as [_ [Hf _]%andb_true_iff].
Qed.

Lemma accounted_weaken lim lim' rows s bs : lim ≤ lim' → accounted d0 opt lim rows s bs → accounted d0 opt lim' rows s bs.
Proof. intros Hl []. split; try done. lia. Qed.

(** The invariant of a run: [rows] have been taken, and where nothing fails
    and all of them fit, none is lost. *)
Definition invariant (quiet : bool) (rows : list Log) (s : state) : Prop :=
  ∃ bs, accounted d0 opt (size - 1) rows s bs ∧
    (quiet = true → w_faults s.2 = [] ∧ (forallb row_fits rows = true → Forall (λ b, b.1 = true) bs)).

Lemma invariant_flush quiet lim rows l w bs :
  lim ≤ size → accounted d0 opt lim rows (l, w) bs →
  (quiet = true → w_faults w = [] ∧ (forallb row_fits rows = true → Forall (λ b, b.1 = true) bs)) →
  invariant quiet rows (flush (l, w)) ∧ lg_phase (flush (l, w)).1 = lg_phase l ∧ lg_ch (flush (l, w)).1 = lg_ch l ∧
  ∃ bs, accounted d0 opt 0 rows (flush (l, w)) bs.
Proof.
  intros Hlim Ha Hq. pose proof (with_defaults_pos opt) as [_ Hpos].
  destruct (flush_accounted lim rows l w bs Hlim Ha) as (bs' & H1 & H2 & H3 & H4). split_and!; [|done|done|by eexists].
  exists (bs ++ bs'). split; [eapply accounted_weaken; [|exact H1]; lia|]. intros E. destruct (Hq E) as [Hw Hb].
  destruct (H4 Hw) as [Hw' Hb']. split; [done|]. intros Hf. apply Forall_app. auto.
Qed.

Lemma invariant_receive quiet rows row ch l w :
  lg_phase l ≠ Returned → lg_ch l = row :: ch → invariant quiet rows (l, w) → invariant quiet rows (receive row ch (l, w)).
Proof.
  intros Hp Hch (bs & Ha & Hq). unfold receive. cbn [with_batch with_ch lg_opt lg_batch].
  assert (accounted d0 opt size rows (with_batch (lg_batch l ++ [row]) (with_ch ch l), w) bs) as Ha'.
  { destruct Ha. cbn [fst snd] in *. split; cbn; try done.
    - by rewrite acc_rows0, Hch, <-app_assoc.
    - rewrite length_app. cbn [length]. lia.
    - rewrite Hch in acc_ch0. cbn [length] in acc_ch0. lia. }
  destruct (Z.leb_spec (Batch (lg_opt l)) (Z.of_nat (length (lg_batch l ++ [row])))) as [Hl|Hl].
  - by eapply invariant_flush.
  - exists bs. split; [|done]. destruct Ha, Ha'. cbn [fst snd] in *. cbn [with_batch with_ch lg_batch lg_ch lg_opt lg_phase] in *.
    split; try done. cbn [fst with_batch lg_batch]. rewrite acc_opt0 in Hl. lia.
Qed.

Lemma invariant_write quiet rows row now l w :
  invariant quiet rows (l, w) → invariant quiet (rows ++ option_list (Write row now l).1) ((Write row now l).2, w).
Proof.
  intros (bs & [] & Hq). cbn [fst snd] in *. unfold Write. destruct (Z.ltb_spec (Z.of_nat (length (lg_ch l))) (Buffer (lg_opt l))) as [Hl|Hl]; cbn [fst snd option_list].
  - exists bs. split.
    + split; cbn; try done; [by rewrite acc_rows0, <-!app_assoc|]. rewrite length_app. cbn [length]. rewrite acc_opt0 in Hl. lia.
    + intros E. destruct (Hq E) as [Hw Hb]. split; [done|]. rewrite forallb_app. intros [Hf _]%andb_true_iff. auto.
  - rewrite app_nil_r. exists bs. by split.
Qed.

Lemma invariant_step quiet rows s row s' :
  logger_step s row s' → invariant quiet rows s → invariant quiet (rows ++ option_list row) s'.
Proof.
  intros H Hi. inversion H; subst; clear H; cbn [option_list]; rewrite ?app_nil_r.
  - by apply invariant_write.
  - destruct Hi as (bs & [] & Hq). exists bs. by split.
  - apply invariant_receive; [congruence|done|done].
  - destruct Hi as (bs & Ha & Hq). eapply invariant_flush; [|exact Ha|done]. lia.
  - destruct Hi as (bs & [] & Hq). exists bs. by split.
  - apply invariant_receive; [congruence|done|done].
  - destruct Hi as (bs & Ha & Hq). destruct (invariant_flush quiet _ rows l w bs (ltac:(lia) : size - 1 ≤ size) Ha Hq) as ((bs' & Ha' & Hq') & _ & _ & bs'' & Ha'').
    destruct (flush (l, w)) as [l' w']. exists bs'. split; [|done]. destruct Ha', Ha''. cbn [fst snd] in *. split; try done.
    intros _. cbn. destruct (lg_batch l'); [done|]. cbn [length] in *. lia.
Qed.

Lemma invariant_run quiet rows w s :
  w_db w = d0 → (quiet = true → w_faults w = []) → logger_run (New opt, w) rows s → invariant quiet rows s.
Proof.
  intros Hd Hq H. remember (New opt, w) as s0 eqn:E. induction H as [|s0 rows s1 row s2 _ IH Hs].
  - subst. exists []. pose proof (with_defaults_pos opt). split.
    + split; cbn [fst snd New lg_opt lg_batch lg_ch lg_phase length kept_rows]; [done|done| |constructor|lia|lia|done].
      by rewrite Hd, app_nil_r.
    + intros Eq. split; [exact (Hq Eq)|]. intros _. constructor.
  - eapply invariant_step; [exact Hs|by apply IH].
Qed.
End run.

(** C18: every usage record is accounted for.  Whatever writes, ticks and the
    close come, in whatever order, and whichever calls fail: the rows the
    channel has taken are, in their order, those of the batches written, those
    of the batch being gathered and those still in the channel; the table has
    grown by the rows of the batches whose INSERT succeeded; a batch has at
    least one row and at most [Batch], the channel at most [Buffer] rows.  Where
    no call fails and all rows fit their columns no batch is lost, so that once
    the goroutine has returned and the channel is empty the table has grown by
    exactly the rows taken. *)
Theorem usage_accounted opt w rows s :
  logger_run (New opt, w) rows s →
  (∃ bs, accounted (w_db w) opt (Batch (with_defaults opt) - 1) rows s bs) ∧
  (w_faults w = [] → forallb row_fits rows = true → lg_phase s.1 = Returned → lg_ch s.1 = [] →
   usage_logs (w_db s.2) = usage_logs (w_db w) ++ rows).
Proof.
  intros H. split.
  - destruct (invariant_run (w_db w) opt false rows w s eq_refl ltac:(done) H) as (bs & Ha & _). by exists bs.
  - intros Hw Hf Hp Hc. destruct (invariant_run (w_db w) opt true rows w s eq_refl ltac:(done) H) as (bs & [] & Hq).
    destruct (Hq eq_refl) as [_ Hb]. specialize (Hb Hf). rewrite acc_table0, acc_rows0, Hc, acc_returned0, !app_nil_r by done.
    unfold kept_rows. f_equal. f_equal. clear -Hb. induction Hb as [|b bs Hb _ IH]; [done|]. cbn. by rewrite Hb; cbn; rewrite IH.
Qed.

Definition sample_row (agent : string) : Log := {|
  LogUserID := 7; LogKeyID := 3; LogModelID := 1; LogAccountID := 0; LogRequestID := "r"; LogType := "chat"; InputTokens := 3;
  OutputTokens := 5; CacheReadTokens := 0; CacheWriteTokens := 0; ImageCount := 0; CreditCost := 42; DurationMs := 10;
  LogStatus := "success"; ErrorCode := ""; LogIP := "10.0.0.1"; LogUA := agent; LogCreatedAt := 0 |}.

Definition sample_options : Options := {| Buffer := 4; Batch := 2; FlushInterval := 0 |}.
Definition sample_world : world database := {| w_db := empty_database; w_faults := [] |}.
Definition written : Logger := (Write (sample_row "curl") 5 (New sample_options)).2.
Definition drained : state := receive (stamped 5 (sample_row "curl")) [] (with_phase Draining (Close written), sample_world).
Definition sample_end : state := (with_phase Returned (flush drained).1, (flush drained).2).

(** A record is written, the logger closed before it is taken, drained. *)
Lemma usage_accounted_witness :
  logger_run (New sample_options, sample_world) [stamped 5 (sample_row "curl")] sample_end ∧
  usage_logs (w_db sample_end.2) = [stamped 5 (sample_row "curl")].
Proof.
  assert (logger_run (New sample_options, sample_world) [stamped 5 (sample_row "curl")] sample_end) as H.
  { apply (run_step _ [stamped 5 (sample_row "curl")] drained None); [|apply (step_return drained.1 drained.2); reflexivity].
    apply (run_step _ [stamped 5 (sample_row "curl")] (with_phase Draining (Close written), sample_world) None);
      [|apply step_drain; reflexivity].
    apply (run_step _ [stamped 5 (sample_row "curl")] (Close written, sample_world) None); [|apply step_closed; reflexivity].
    apply (run_step _ [stamped 5 (sample_row "curl")] (written, sample_world) None); [|apply step_close; reflexivity].
    apply (run_step _ [] (New sample_options, sample_world) (Some (stamped 5 (sample_row "curl")))); [constructor|].
    exact (step_write (sample_row "curl") 5 (New sample_options) sample_world). }
  split; [exact H|]. by apply (usage_accounted sample_options sample_world [stamped 5 (sample_row "curl")] sample_end H).
Defined.

(** A record that does not fit takes the whole batch with it: the gateway
    copies the User-Agent as the client sends it, and [ua] holds 255
    characters of it. *)
Lemma unfit_loses_batch l w r :
  r ∈ lg_batch l → row_fits r = false → usage_logs (w_db (flush (l, w)).2) = usage_logs (w_db w) ∧ lg_batch (flush (l, w)).1 = [].
Proof.
  intros Hr Hf. assert (forallb row_fits (lg_batch l) = false) as Hall.
  { apply not_true_iff_false. intros H. rewrite forallb_forall in H. rewrite list_elem_of_In in Hr.
    specialize (H r Hr). congruence. }
  unfold flush, bulkInsert. destruct (lg_batch l) as [|r0 rows]; [by apply not_elem_of_nil in Hr|].
  rewrite Hall. unfold exec, call. destruct w as [d [|[] fs]]; by split.
Qed.

Example long_agent_loses_batch :
  let l := with_batch [sample_row "curl"; sample_row (of_bytes (replicate 256 "a"%char))] (New sample_options) in
  usage_logs (w_db (flush (l, sample_world)).2) = [].
Proof. vm_compute. reflexivity. Qed.
