(* ===== verification/Gateway.v ===== *)
(** * What the handlers of the gateway share (internal/gateway/chat.go, images.go)

    The dependencies of a handler, the record it leaves of its request, what it
    answers, the limits of the caller, and the hold on the caller's credits
    with its refusal and its refund.  The human-readable text of an error is
    left out, its HTTP status and code are kept.  An optional dependency that
    was not injected is [None] or [false] in [Handler]. *)

From S2P Require Import Prelude GoStrings GoTime Float Sql Schema Ledger Billing Models Users System Proc ApiKey RateLimit Caches Upstream Json Delta.
From Stdlib Require Import QArith.

#[local] Open Scope Z_scope.

Record Handler := {
  GroupTTL : option Z;             (* Groups, and the TTL of their cache *)
  Limiter : bool;
  ChannelsMounted : bool;
  GatewayUpstreamTimeoutSec : option Z   (* Settings *)
}.

(** ** The record of a request *)

Definition StatusSuccess : string := "success".
Definition StatusFailed : string := "failed".

Definition with_model (id : N) (l : Log) : Log := {|
  LogUserID := LogUserID l; LogKeyID := LogKeyID l; LogModelID := id; LogAccountID := LogAccountID l;
  LogRequestID := LogRequestID l; LogType := LogType l; InputTokens := InputTokens l;
  OutputTokens := OutputTokens l; CacheReadTokens := CacheReadTokens l; CacheWriteTokens := CacheWriteTokens l;
  ImageCount := ImageCount l; CreditCost := CreditCost l; DurationMs := DurationMs l; LogStatus := LogStatus l;
  ErrorCode := ErrorCode l; LogIP := LogIP l; LogUA := LogUA l; LogCreatedAt := LogCreatedAt l |}.
Definition with_account (id : N) (l : Log) : Log := {|
  LogUserID := LogUserID l; LogKeyID := LogKeyID l; LogModelID := LogModelID l; LogAccountID := id;
  LogRequestID := LogRequestID l; LogType := LogType l; InputTokens := InputTokens l;
  OutputTokens := OutputTokens l; CacheReadTokens := CacheReadTokens l; CacheWriteTokens := CacheWriteTokens l;
  ImageCount := ImageCount l; CreditCost := CreditCost l; DurationMs := DurationMs l; LogStatus := LogStatus l;
  ErrorCode := ErrorCode l; LogIP := LogIP l; LogUA := LogUA l; LogCreatedAt := LogCreatedAt l |}.
Definition with_request (id : string) (l : Log) : Log := {|
  LogUserID := LogUserID l; LogKeyID := LogKeyID l; LogModelID := LogModelID l; LogAccountID := LogAccountID l;
  LogRequestID := id; LogType := LogType l; InputTokens := InputTokens l; OutputTokens := OutputTokens l;
  CacheReadTokens := CacheReadTokens l; CacheWriteTokens := CacheWriteTokens l; ImageCount := ImageCount l;
  CreditCost := CreditCost l; DurationMs := DurationMs l; LogStatus := LogStatus l; ErrorCode := ErrorCode l;
  LogIP := LogIP l; LogUA := LogUA l; LogCreatedAt := LogCreatedAt l |}.
Definition with_type (t : string) (l : Log) : Log := {|
  LogUserID := LogUserID l; LogKeyID := LogKeyID l; LogModelID := LogModelID l; LogAccountID := LogAccountID l;
  LogRequestID := LogRequestID l; LogType := t; InputTokens := InputTokens l; OutputTokens := OutputTokens l;
  CacheReadTokens := CacheReadTokens l; CacheWriteTokens := CacheWriteTokens l; ImageCount := ImageCount l;
  CreditCost := CreditCost l; DurationMs := DurationMs l; LogStatus := LogStatus l; ErrorCode := ErrorCode l;
  LogIP := LogIP l; LogUA := LogUA l; LogCreatedAt := LogCreatedAt l |}.
Definition failed (code : string) (l : Log) : Log := {|
  LogUserID := LogUserID l; LogKeyID := LogKeyID l; LogModelID := LogModelID l; LogAccountID := LogAccountID l;
  LogRequestID := LogRequestID l; LogType := LogType l; InputTokens := InputTokens l;
  OutputTokens := OutputTokens l; CacheReadTokens := CacheReadTokens l; CacheWriteTokens := CacheWriteTokens l;
  ImageCount := ImageCount l; CreditCost := CreditCost l; DurationMs := DurationMs l; LogStatus := StatusFailed;
  ErrorCode := code; LogIP := LogIP l; LogUA := LogUA l; LogCreatedAt := LogCreatedAt l |}.
Definition succeeded (prompt completion cost : Z) (l : Log) : Log := {|
  LogUserID := LogUserID l; LogKeyID := LogKeyID l; LogModelID := LogModelID l; LogAccountID := LogAccountID l;
  LogRequestID := LogRequestID l; LogType := LogType l; InputTokens := prompt; OutputTokens := completion;
  CacheReadTokens := CacheReadTokens l; CacheWriteTokens := CacheWriteTokens l; ImageCount := ImageCount l;
  CreditCost := cost; DurationMs := DurationMs l; LogStatus := StatusSuccess; ErrorCode := ErrorCode l;
  LogIP := LogIP l; LogUA := LogUA l; LogCreatedAt := LogCreatedAt l |}.
(** A success of [images] images. *)
Definition drawn (images cost : Z) (l : Log) : Log := {|
  LogUserID := LogUserID l; LogKeyID := LogKeyID l; LogModelID := LogModelID l; LogAccountID := LogAccountID l;
  LogRequestID := LogRequestID l; LogType := LogType l; InputTokens := InputTokens l;
  OutputTokens := OutputTokens l; CacheReadTokens := CacheReadTokens l; CacheWriteTokens := CacheWriteTokens l;
  ImageCount := images; CreditCost := cost; DurationMs := DurationMs l; LogStatus := StatusSuccess;
  ErrorCode := ErrorCode l; LogIP := LogIP l; LogUA := LogUA l; LogCreatedAt := LogCreatedAt l |}.
(** The deferred closing of the record. *)
Definition closed (ms : Z) (l : Log) : Log := {|
  LogUserID := LogUserID l; LogKeyID := LogKeyID l; LogModelID := LogModelID l; LogAccountID := LogAccountID l;
  LogRequestID := LogRequestID l; LogType := LogType l; InputTokens := InputTokens l;
  OutputTokens := OutputTokens l; CacheReadTokens := CacheReadTokens l; CacheWriteTokens := CacheWriteTokens l;
  ImageCount := ImageCount l; CreditCost := CreditCost l; DurationMs := ms;
  LogStatus := if String.eqb (LogStatus l) "" then StatusFailed else LogStatus l; ErrorCode := ErrorCode l;
  LogIP := LogIP l; LogUA := LogUA l; LogCreatedAt := LogCreatedAt l |}.

(** ** Answers *)

(** One image of an answer. *)
Record ImageGenData := {
  ImgURL : string;
  ImgThumbURL : string;
  ImgFileID : string
}.

(** What the client gets: an error, what the upstream's reply is turned into,
    or the images of a task. *)
Inductive outcome :=
  | Refused (status : Z) (code : string)
  | Replied (l : list sent)
  | Delivered (taskID : string) (data : list ImageGenData).

Definition answer : Type := outcome * Log.

Definition refuse (status : Z) (code : string) (rec : Log) : answer := (Refused status code, failed code rec).

(** A hold on a wallet; [h_what] starts the remarks of its journal lines. *)
Record hold := {
  h_what : string;
  h_user : N;
  h_key : N;
  h_amount : Z;
  h_ref : string
}.

Section handler.
Context (h : Handler) {R : Type} `{!RedisServer R, !RedisHashes R}.

Abbreviation process := (proc (system R)).

(** [if h.Limiter != nil { ok, _, err := m; if err == nil && !ok { .. } }] *)
Definition over_limit (m : DB (system R) (bool * Q)) : process bool :=
  if Limiter h then
    r <~ one m ;;
    Done (match r with Ok (ok, _) => negb ok | Err _ => false end)
  else Done false.

(** [refund(code)]; every caller returns after it, so its flag is never seen
    set. *)
Definition refund (b : hold) (code : string) (rec : Log) : process Log :=
  _ <~ one (on_db (Refund (h_user b) (h_key b) (h_amount b) (h_ref b) (h_what b +:+ " refund"))) ;;
  Done (failed code rec).

Definition refund_refuse (b : hold) (status : Z) (code : string) (rec : Log) : process answer :=
  rec <~ refund b code rec ;;
  Done (Refused status code, rec).

(** [PreDeduct], with its refusals. *)
Definition prepay (b : hold) (rec : Log) (k : process answer) : process answer :=
  r <~ one (on_db (PreDeduct (h_user b) (h_key b) (h_amount b) (h_ref b) (h_what b +:+ " prepay"))) ;;
  match r with
  | Err e =>
      if errors_Is e ErrInsufficient then Done (refuse 402 "insufficient_balance" rec)
      else Done (refuse 500 "billing_error" rec)
  | Ok _ => k
  end.

(** The ratio and the caps of the caller. *)
Definition limits (ak : APIKey) : process (Q * Z * Z) :=
  match GroupTTL h with
  | None => Done (1%Q, KeyRPM ak, KeyTPM ak)
  | Some ttl =>
      g <~ OfUser ttl (KeyUserID ak) ;;
      match g with
      | Ok g => Done (GroupRatio g, if KeyRPM ak =? 0 then RPMLimit g else KeyRPM ak,
                      if KeyTPM ak =? 0 then TPMLimit g else KeyTPM ak)
      | Err _ => Done (1%Q, KeyRPM ak, KeyTPM ak)
      end
  end.

End handler.
