(* ===== verification/Stories.v ===== *)
(** * The money of a request, whatever its handler

    What the handlers of the gateway do to the books.  [unbilled]: calls that
    leave them alone.  [story], [tells]: the lines a request leaves in the
    journal, however it interleaves with others and whatever fails.  [runs],
    [paid]: what it costs its caller when nothing fails.  Each comes with its
    rules for the parts the handlers share; the handlers themselves are in
    ChatBilling and ImageBilling. *)

From S2P Require Import Prelude GoStrings GoTime Float Sql Schema Crypto Ledger Billing Models Users System Lock Proc ProxyPool Account Pricing ApiKey Channels Books RateLimit Caches Upstream Scheduler Json Delta Gateway.
From Stdlib Require Import QArith.

#[local] Open Scope Z_scope.

(** ** Everything but the billing leaves the books alone *)

Section unbilled.
Context {R : Type}.
Implicit Types s : system R.

Definition unbilled s s' : Prop := same_books (sys_db s) (sys_db s') ∧ (sys_uuids s ≤ sys_uuids s')%nat.
#[export] Instance unbilled_preorder : PreOrder unbilled.
Proof. split; [by split|]. intros s1 s2 s3 [H1 H2] [H3 H4]. split; [by etrans|lia]. Qed.

Lemma unbilled_wait d s : unbilled s (wait d s).
Proof. unfold wait. by destruct (sys_delays s). Qed.

#[export] Instance Now_unbilled : Keeps unbilled (Now (R:=R)).
Proof. intros [s fs]. apply unbilled_wait. Qed.
#[export] Instance NewString_unbilled uuid : Keeps unbilled (NewString (R:=R) uuid).
Proof. intros [s fs]. split; [done|]. cbn. lia. Qed.
#[export] Instance on_db_unbilled {A} (m : DBM A) : Keeps same_books m → Keeps unbilled (on_db (R:=R) m).
Proof.
  intros Hm [s fs]. unfold on_db. cbn. specialize (Hm (World (sys_db s) fs)). by destruct (m _) as [r [d' fs']].
Qed.
#[export] Instance at_now_unbilled {A} (m : Z → DBM A) :
  (∀ now, Keeps same_books (m now)) → Keeps unbilled (at_now (R:=R) m).
Proof. intros Hm. unfold at_now. apply _. Qed.
#[export] Instance at_now_steady {A} (m : Z → DBM A) : (∀ now, Steady (m now)) → Steady (at_now (R:=R) m).
Proof. intros Hm. unfold at_now. apply _. Qed.
#[export] Instance redis_unbilled {A} (f : Z → R → A * R) : Keeps unbilled (redis f).
Proof.
  intros [s fs]. unfold redis, call. cbn. pose proof (unbilled_wait 0 s) as Hw.
  destruct fs as [|[] fs]; cbn; [|done|]; destruct (f _ _) as [a r]; cbn; by etrans; [exact Hw|].
Qed.

#[export] Instance registry_step_unbilled {A} (f : Models.registry → A * Models.registry) :
  Keeps unbilled (registry_step (R:=R) f).
Proof. intros [s fs]. unfold registry_step, look. cbn. by destruct (f _). Qed.
#[export] Instance groups_step_unbilled {A} (f : Users.group_cache → A * Users.group_cache) :
  Keeps unbilled (groups_step (R:=R) f).
Proof. intros [s fs]. unfold groups_step, look. cbn. by destruct (f _). Qed.
#[export] Instance registry_step_steady {A} (f : Models.registry → A * Models.registry) :
  Steady (registry_step (R:=R) f).
Proof. intros [s fs]. unfold registry_step, look. cbn. by destruct (f _). Qed.
#[export] Instance groups_step_steady {A} (f : Users.group_cache → A * Users.group_cache) :
  Steady (groups_step (R:=R) f).
Proof. intros [s fs]. unfold groups_step, look. cbn. by destruct (f _). Qed.

Context `{!RedisServer R} (uuid : nat → string).

Lemma unbilled_guarded : guarded uuid unbilled (λ _, True) (λ _ _, True).
Proof.
  split; [|done| |].
  - intros s s' [(_ & H & _) Hb]. by split.
  - intros key token ttl _ _. unfold Acquire. apply _.
  - intros key token _. unfold Release. apply _.
Qed.
End unbilled.

(** A process that leaves the books alone. *)
Abbreviation aside p := (follows unbilled (λ _, True) p).

Lemma aside_done {R A} (a : A) : follows (unbilled (R:=R)) (λ _, True) (Done a).
Proof. done. Qed.

(** [aside]: its next call, or its next part. *)
Ltac aside_step :=
  lazymatch goal with
  | |- follows _ _ (pbind_ok _ _) => unfold pbind_ok at 1; aside_step
  | |- follows _ _ (pbind (one _) _) => cbn [pbind one]; aside_step
  | |- follows _ _ (one _) => unfold one; aside_step
  | |- follows _ _ (pbind _ _) => eapply (follows_pbind _ (λ _, True)); [|intros ? _]
  | |- follows _ _ (Call _ _) => apply follows_call; [apply _|apply _|intros ?; cbn [pbind]]
  | |- follows _ _ (Done _) => exact I
  | |- follows _ _ (if ?b then _ else _) => destruct b
  | |- follows _ _ (match ?x with _ => _ end) => destruct x
  end.

Section aside.
Context (h : Handler) (loc : location) (cfg : SchedulerConfig) (rt : RuntimeParams).
Context {AEAD : Type} (Open : AEAD → list ascii → list ascii → result (list ascii))
        (NonceSize Overhead : nat) (cipher : AEAD).
Context {R : Type} `{!RedisServer R, !RedisHashes R} (uuid : nat → string).
Hypothesis Httl : 0 < lock_ttl cfg.

#[export] Instance Allow_unbilled key cap cost refill : Keeps (unbilled (R:=R)) (Allow key cap cost refill).
Proof. unfold Allow. apply _. Qed.
#[export] Instance Allow_steady key cap cost refill : Steady (Allow (R:=R) key cap cost refill).
Proof. unfold Allow. apply _. Qed.
#[export] Instance AllowRPM_unbilled id cap : Keeps (unbilled (R:=R)) (AllowRPM id cap).
Proof. unfold AllowRPM. destruct (cap <=? 0); apply _. Qed.
#[export] Instance AllowRPM_steady id cap : Steady (AllowRPM (R:=R) id cap).
Proof. unfold AllowRPM. destruct (cap <=? 0); apply _. Qed.
#[export] Instance AllowTPM_unbilled id cap n : Keeps (unbilled (R:=R)) (AllowTPM id cap n).
Proof. unfold AllowTPM. destruct (_ || _); apply _. Qed.
#[export] Instance AllowTPM_steady id cap n : Steady (AllowTPM (R:=R) id cap n).
Proof. unfold AllowTPM. destruct (_ || _); apply _. Qed.
#[export] Instance AdjustTPM_unbilled id cap n : Keeps (unbilled (R:=R)) (AdjustTPM id cap n).
Proof. unfold AdjustTPM. destruct (_ || _); [apply _|]. destruct (0 <? n); [apply ignore_keeps|]; apply _. Qed.
#[export] Instance AdjustTPM_steady id cap n : Steady (AdjustTPM (R:=R) id cap n).
Proof. unfold AdjustTPM. destruct (_ || _); [apply _|]. destruct (0 <? n); [apply ignore_steady|]; apply _. Qed.
#[export] Instance MarkRateLimited_unbilled id : Keeps (unbilled (R:=R)) (MarkRateLimited cfg rt id).
Proof. apply ignore_keeps, at_now_unbilled. apply _. Qed.
#[export] Instance MarkWarned_unbilled id : Keeps (unbilled (R:=R)) (MarkWarned cfg rt id).
Proof. apply ignore_keeps, at_now_unbilled. apply _. Qed.
#[export] Instance MarkDead_unbilled id : Keeps (unbilled (R:=R)) (MarkDead id).
Proof. apply ignore_keeps, on_db_unbilled. apply _. Qed.
#[export] Instance MarkRateLimited_steady id : Steady (MarkRateLimited (R:=R) cfg rt id).
Proof. apply ignore_steady, at_now_steady. apply _. Qed.
#[export] Instance MarkWarned_steady id : Steady (MarkWarned (R:=R) cfg rt id).
Proof. apply ignore_steady, at_now_steady. apply _. Qed.
#[export] Instance MarkDead_steady id : Steady (MarkDead (R:=R) id).
Proof. apply ignore_steady, on_db_steady. apply _. Qed.

Lemma BySlug_aside slug : aside (BySlug (R:=R) slug).
Proof. unfold BySlug. repeat aside_step. Qed.
Lemma OfUser_aside ttl id : aside (OfUser (R:=R) ttl id).
Proof. unfold OfUser. repeat aside_step. Qed.
Lemma limits_aside ak : aside (limits (R:=R) h ak).
Proof. unfold limits. destruct (GroupTTL h); [|done]. aside_step; [apply OfUser_aside|]. repeat aside_step. Qed.
Lemma over_limit_aside m : Keeps (unbilled (R:=R)) m → Steady m → aside (over_limit h m).
Proof. intros H1 H2. unfold over_limit. repeat aside_step. Qed.
Lemma MarkProxyFailure_aside l text : aside (MarkProxyFailure (R:=R) l text).
Proof. unfold MarkProxyFailure, MarkFailure. repeat aside_step. Qed.
Lemma Dispatch_aside ctx_done ctx_err modelType :
  aside (Dispatch (R:=R) loc cfg rt Open NonceSize Overhead cipher uuid ctx_done ctx_err modelType).
Proof. eapply follows_weaken; [by eapply Dispatch_safe; [apply unbilled_guarded|..]|done]. Qed.
Lemma LeaseRelease_aside l : aside (LeaseRelease (R:=R) loc l).
Proof. eapply LeaseRelease_safe; [apply (unbilled_guarded uuid)|]. split; [done|]. by intros pl. Qed.
End aside.

(** ** What the billing operations write *)

Definition tx (u k : N) (kind : string) (amount balance : Z) (ref remark : string) : CreditTx :=
  Build_CreditTx u k kind amount balance ref remark.

Lemma ledger_booked (e : Ledger.entry) (m : DBM unit) `{!Transparent m, !Atomic m} w :
  run m (w_db w) = unit_of (ledger_step e (w_db w)) →
  (is_ok (m w).1 = false ∧ w_db (m w).2 = w_db w) ∨
  (is_ok (m w).1 = true ∧ ∃ bal, credit_transactions (w_db (m w).2) = credit_transactions (w_db w) ++ e_journal e bal).
Proof.
  intros Hr. destruct (atomic_or_run m w) as [[He Hd]|H]; [left; by rewrite He|].
  rewrite Hr in H. unfold unit_of in H. destruct (ledger_step e (w_db w)) as [r d'] eqn:Hs. cbn in H.
  injection H as H1 H2. rewrite <-H1, <-H2. apply ledger_step_inv in Hs as [[-> Hok]|(x & _ & _ & _ & _ & _ & -> & ->)].
  - left. by destruct r.
  - right. split; [done|]. by eexists.
Qed.

Lemma PreDeduct_books u k a r m w :
  (is_ok (PreDeduct u k a r m w).1 = false ∧ w_db (PreDeduct u k a r m w).2 = w_db w) ∨
  (is_ok (PreDeduct u k a r m w).1 = true ∧ ∃ bal, credit_transactions (w_db (PreDeduct u k a r m w).2) =
     credit_transactions (w_db w) ++ if 0 <? a then [tx u k KindFreeze (- a) bal r m] else []).
Proof.
  destruct (Z.ltb_spec 0 a) as [Ha|Ha].
  - assert (Atomic (PreDeduct u k a r m)) by (unfold PreDeduct; apply _).
    apply (ledger_booked (freeze_entry u k a r m) (PreDeduct u k a r m) w). by apply PreDeduct_refines.
  - right. unfold PreDeduct. replace (a <=? 0) with true by lia. cbn. split; [done|]. exists 0. by rewrite app_nil_r.
Qed.

Lemma Refund_books u k a r m w :
  w_db (Refund u k a r m w).2 = w_db w ∨
  0 < a ∧ ∃ bal, credit_transactions (w_db (Refund u k a r m w).2) =
     credit_transactions (w_db w) ++ [tx u k KindRefund a bal r m].
Proof.
  destruct (Z.ltb_spec 0 a) as [Ha|Ha].
  - assert (Atomic (Refund u k a r m)) as Hat by (unfold Refund; apply _).
    destruct (ledger_booked (refund_entry u k a r m) _ w (Refund_refines u k r m (w_db w) a Ha)) as [[_ H]|[_ [bal H]]];
      [by left|right; split; [done|by exists bal]].
  - left. unfold Refund. by replace (a <=? 0) with true by lia.
Qed.

(** Also of a hold below zero, which a negative price makes. *)
Lemma Settle_journal u k e a r m d :
  (run (Settle u k e a r m) d).2 = d ∨
  ∃ bal, credit_transactions (run (Settle u k e a r m) d).2 = credit_transactions d ++
    (if 0 <? e then [tx u k KindUnfreeze e bal r m] else []) ++
    (if 0 <? Z.max 0 a then [tx u k KindConsume (- Z.max 0 a) bal r m] else []).
Proof.
  unfold Settle. destruct ((e <=? 0) && (a <=? 0)); [by left|].
  replace (if a <? 0 then 0 else a) with (Z.max 0 a) by (destruct (Z.ltb_spec a 0); lia).
  set (x := Z.max 0 a). db_eval. unfold move_wallet.
  destruct (users d !! u) as [y|]; cbn; [|by left].
  destruct (bigint (CreditFrozen y + _)) as [f|]; cbn; [|by left].
  destruct ((0 <=? f) && live y); cbn; [|by left].
  destruct (bigint (CreditBalance y + _)) as [b|]; cbn; [|by left]. db_eval. rewrite lookup_insert_eq. cbn.
  right. exists b. destruct (0 <? e), (0 <? x); db_eval; cbn; rewrite ?app_nil_r, <- ?app_assoc; done.
Qed.

Lemma Settle_books u k e a r m w :
  w_db (Settle u k e a r m w).2 = w_db w ∨
  ∃ bal, credit_transactions (w_db (Settle u k e a r m w).2) = credit_transactions (w_db w) ++
    (if 0 <? e then [tx u k KindUnfreeze e bal r m] else []) ++
    (if 0 <? Z.max 0 a then [tx u k KindConsume (- Z.max 0 a) bal r m] else []).
Proof.
  assert (Atomic (Settle u k e a r m)) as Hat by (unfold Settle; apply _).
  destruct (atomic_or_run (Settle u k e a r m) w) as [[_ Hd]|H]; [by left|].
  pose proof (Settle_journal u k e a r m (w_db w)) as Hj. rewrite H in Hj. exact Hj.
Qed.

(** ** One story per request *)

(** How the lines under one reference end: with nothing or a hold, with the
    hold given back, or with [c] credits charged. *)
Inductive fate :=
  | Open
  | Refunded
  | Charged (c : Z).

(** The lines of the journal under one reference, in their order; [what]
    starts their remarks. *)
Inductive story (what : string) (u k : N) (ref : string) : fate → list CreditTx → Prop :=
  | story_nothing : story what u k ref Open []
  | story_held a b :
      0 < a → story what u k ref Open [tx u k KindFreeze (- a) b ref (what +:+ " prepay")]
  | story_refunded a b b' :
      0 < a →
      story what u k ref Refunded [tx u k KindFreeze (- a) b ref (what +:+ " prepay");
                                   tx u k KindRefund a b' ref (what +:+ " refund")]
  | story_free a b b' :
      0 < a →
      story what u k ref (Charged 0) [tx u k KindFreeze (- a) b ref (what +:+ " prepay");
                                      tx u k KindUnfreeze a b' ref (what +:+ " settle")]
  | story_charged a c b b' :
      0 < a → 0 < c →
      story what u k ref (Charged c) [tx u k KindFreeze (- a) b ref (what +:+ " prepay");
                                      tx u k KindUnfreeze a b' ref (what +:+ " settle");
                                      tx u k KindConsume (- c) b' ref (what +:+ " settle")]
  | story_unheld c b :
      0 < c → story what u k ref (Charged c) [tx u k KindConsume (- c) b ref (what +:+ " settle")].

(** The usage log agrees: a refund is a failure, a charge a success at that
    cost.  Where the books end with a hold, the log may say either. *)
Definition fits (rec : Log) (f : fate) : Prop :=
  match f with
  | Open => True
  | Refunded => LogStatus rec = StatusFailed
  | Charged c => LogStatus rec = StatusSuccess ∧ c = Z.max 0 (CreditCost rec)
  end.

Definition about (ref : string) (d : database) : list CreditTx :=
  filter (λ t, TxRefID t = ref) (credit_transactions d).

Section stories.
Context {R : Type} (uuid : nat → string) (who : N → N → Prop).

(** Where a request is: it has no reference yet, or its [n]th, under which the
    journal has [st]. *)
Inductive phase :=
  | Idle
  | Owns (n : nat) (st : list CreditTx).

Definition nothing_booked (ph : phase) : Prop := match ph with Idle => True | Owns _ st => st = [] end.

(** One call.  Traffic of others may write under references that are no
    request's; a request books in the name of [who] it is for, and takes a new
    reference only as long as it has booked nothing. *)
Inductive moves : phase → phase → system R → system R → Prop :=
  | moves_aside ph s s' js :
      credit_transactions (sys_db s') = credit_transactions (sys_db s) ++ js →
      Forall (λ t, ∀ n, TxRefID t ≠ uuid n) js → (sys_uuids s ≤ sys_uuids s')%nat → moves ph ph s s'
  | moves_draw ph s s' :
      credit_transactions (sys_db s') = credit_transactions (sys_db s) → sys_uuids s' = S (sys_uuids s) →
      nothing_booked ph → moves ph (Owns (sys_uuids s) []) s s'
  | moves_book n st js s s' what u k f :
      credit_transactions (sys_db s') = credit_transactions (sys_db s) ++ js → sys_uuids s' = sys_uuids s →
      Forall (λ t, TxRefID t = uuid n) js → who u k → story what u k (uuid n) f (st ++ js) → moves (Owns n st) (Owns n (st ++ js)) s s'.

(** Whatever the calls answer, each is such a move. *)
Fixpoint tells {A} (Q : phase → A → Prop) (ph : phase) (p : proc (system R) A) : Prop :=
  match p with
  | Done a => Q ph a
  | Call m k => ∀ w, ∃ ph', moves ph ph' (w_db w) (w_db (m w).2) ∧ tells Q ph' (k (m w).1)
  end.

Lemma tells_weaken {A} (Q Q' : phase → A → Prop) ph p :
  tells Q ph p → (∀ ph a, Q ph a → Q' ph a) → tells Q' ph p.
Proof.
  revert ph. induction p as [a|B m k IH]; intros ph Hp HQ; cbn in *; [auto|].
  intros w. destruct (Hp w) as (ph' & H1 & H2). eauto.
Qed.

Lemma tells_pbind {A B} (Q : phase → A → Prop) (Q' : phase → B → Prop) ph (p : proc (system R) A) k :
  tells Q ph p → (∀ ph a, Q ph a → tells Q' ph (k a)) → tells Q' ph (pbind p k).
Proof.
  intros Hp Hk. revert ph Hp. induction p as [a|C m c IH]; intros ph Hp; cbn in *; [by apply Hk|].
  intros w. destruct (Hp w) as (ph' & H1 & H2). eauto.
Qed.

Lemma unbilled_moves ph s s' : unbilled s s' → moves ph ph s s'.
Proof. intros [[_ Hj] Hu]. apply moves_aside with []; [by rewrite app_nil_r|done|done]. Qed.

Lemma tells_aside {A} (P : A → Prop) ph (p : proc (system R) A) :
  follows unbilled P p → tells (λ ph' a, ph' = ph ∧ P a) ph p.
Proof.
  induction p as [a|B m k IH]; cbn; [done|]. intros Hp w. destruct (Hp w) as [[H1 _] H2].
  exists ph. split; [by apply unbilled_moves|auto].
Qed.

(** The parts that leave the books alone keep the phase. *)
Lemma tells_after {A B} (Q : phase → B → Prop) ph (p : proc (system R) A) k :
  aside p → (∀ a, tells Q ph (k a)) → tells Q ph (pbind p k).
Proof. intros Hp Hk. eapply tells_pbind; [by eapply tells_aside|]. intros ph' a [-> _]. apply Hk. Qed.

Lemma tells_call {A B} (Q : phase → B → Prop) ph (m : DB (system R) A) k :
  Keeps unbilled m → (∀ r, tells Q ph (k r)) → tells Q ph (Call m k).
Proof. intros Hm Hk w. exists ph. split; [apply unbilled_moves, Hm|apply Hk]. Qed.

Lemma tells_draw {B} (Q : phase → B → Prop) ph k :
  nothing_booked ph → (∀ n, tells Q (Owns n []) (k (Ok (uuid n)))) → tells Q ph (Call (NewString uuid) k).
Proof. intros Hph Hk w. exists (Owns (sys_uuids (w_db w)) []). split; [by apply moves_draw|apply Hk]. Qed.

(** A hold that stands. *)
Definition standing (b : hold) (st : list CreditTx) : Prop :=
  if 0 <? h_amount b
  then ∃ bal, st = [tx (h_user b) (h_key b) KindFreeze (- h_amount b) bal (h_ref b) (h_what b +:+ " prepay")]
  else st = [].

Lemma on_db_books {A} (m : DBM A) (w : world (system R)) :
  sys_db (w_db (on_db m w).2) = w_db (m (World (sys_db (w_db w)) (w_faults w))).2 ∧
  sys_uuids (w_db (on_db m w).2) = sys_uuids (w_db w) ∧ (on_db m w).1 = (m (World (sys_db (w_db w)) (w_faults w))).1.
Proof. unfold on_db. by destruct (m _) as [r [d fs]]. Qed.

Lemma moves_stay {A} (m : DBM A) ph (w : world (system R)) :
  w_db (m (World (sys_db (w_db w)) (w_faults w))).2 = sys_db (w_db w) →
  moves ph ph (w_db w) (w_db (on_db m w).2).
Proof.
  intros H. destruct (on_db_books m w) as (Hd & Hu & _). apply moves_aside with [].
  - by rewrite Hd, H, app_nil_r.
  - done.
  - by rewrite Hu.
Qed.

Lemma moves_write {A} (m : DBM A) n st js what u k f (w : world (system R)) :
  credit_transactions (w_db (m (World (sys_db (w_db w)) (w_faults w))).2) = credit_transactions (sys_db (w_db w)) ++ js →
  Forall (λ t, TxRefID t = uuid n) js → who u k → story what u k (uuid n) f (st ++ js) →
  moves (Owns n st) (Owns n (st ++ js)) (w_db w) (w_db (on_db m w).2).
Proof.
  intros H Hjs Hw Hst. destruct (on_db_books m w) as (Hd & Hu & _). eapply moves_book; [by rewrite Hd|done|done|done|exact Hst].
Qed.

(** What stands in the books of a request, next to its usage log. *)
Definition billed (u k : N) (ph : phase) (rec : Log) : Prop :=
  match ph with
  | Idle => False
  | Owns n st => ∃ what f, story what u k (uuid n) f st ∧ fits rec f
  end.

Lemma billed_none u k n rec : billed u k (Owns n []) rec.
Proof. exists "", Open. split; [apply story_nothing|done]. Qed.

Lemma billed_same u k ph rec rec' :
  LogStatus rec' = LogStatus rec → CreditCost rec' = CreditCost rec → billed u k ph rec → billed u k ph rec'.
Proof. intros E1 E2. destruct ph as [|n st]; cbn; [done|]. intros (what & f & H & Hf). exists what, f. split; [done|]. destruct f; cbn in *; by rewrite ?E1, ?E2. Qed.

Lemma billed_closed u k ph ms rec : billed u k ph rec → billed u k ph (closed ms rec).
Proof.
  destruct ph as [|n st]; cbn; [done|]. intros (what & f & H & Hf). exists what, f. split; [done|].
  destruct f; cbn in *; [done|by rewrite Hf|]. destruct Hf as [E ->]. by rewrite E.
Qed.

(** After a refund or a settlement that may have failed. *)
Definition undone (b : hold) (ph : phase) : Prop :=
  ∀ rec, LogStatus rec = StatusFailed → billed (h_user b) (h_key b) ph rec.
Definition paid_off (b : hold) (cost : Z) (ph : phase) : Prop :=
  ∀ rec, LogStatus rec = StatusSuccess → CreditCost rec = cost → billed (h_user b) (h_key b) ph rec.

Lemma standing_billed n b st rec :
  h_ref b = uuid n → standing b st → billed (h_user b) (h_key b) (Owns n st) rec.
Proof.
  unfold standing. intros Href Hst. exists (h_what b), Open. split; [|done]. rewrite <- Href.
  destruct (Z.ltb_spec 0 (h_amount b)); [destruct Hst as [bal ->]; by apply story_held|subst st; apply story_nothing].
Qed.

Section hold.
Context (n : nat) (b : hold) (Href : h_ref b = uuid n) (Hwho : who (h_user b) (h_key b)).

Lemma tells_refund {B} (Q : phase → B → Prop) st k remark :
  standing b st → remark = h_what b +:+ " refund" →
  (∀ ph r, undone b ph → tells Q ph (k r)) →
  tells Q (Owns n st) (Call (on_db (Refund (h_user b) (h_key b) (h_amount b) (h_ref b) remark)) k).
Proof.
  intros Hst -> Hk w.
  destruct (Refund_books (h_user b) (h_key b) (h_amount b) (h_ref b) (h_what b +:+ " refund") (World (sys_db (w_db w)) (w_faults w)))
    as [H|(Ha & bal & H)].
  - exists (Owns n st). split; [by apply moves_stay|]. apply Hk. intros rec _. by apply standing_billed.
  - unfold standing in Hst. replace (0 <? h_amount b) with true in Hst by lia. destruct Hst as [bal0 ->].
    pose proof (story_refunded (h_what b) (h_user b) (h_key b) (uuid n) (h_amount b) bal0 bal Ha) as Hs. rewrite Href in *.
    eexists (Owns n _). split; [eapply moves_write; [exact H|by repeat constructor|exact Hwho|exact Hs]|].
    apply Hk. intros rec Hr. by eexists _, _.
Qed.

Lemma tells_settle {B} (Q : phase → B → Prop) st actual k remark :
  standing b st → remark = h_what b +:+ " settle" →
  (∀ ph r, paid_off b actual ph → tells Q ph (k r)) →
  tells Q (Owns n st) (Call (on_db (Settle (h_user b) (h_key b) (h_amount b) actual (h_ref b) remark)) k).
Proof.
  intros Hst -> Hk w. set (x := Z.max 0 actual).
  destruct (Settle_books (h_user b) (h_key b) (h_amount b) actual (h_ref b) (h_what b +:+ " settle") (World (sys_db (w_db w)) (w_faults w)))
    as [H|(bal & H)].
  { exists (Owns n st). split; [by apply moves_stay|]. apply Hk. intros rec _ _. by apply standing_billed. }
  match type of H with _ = _ ++ ?l => set (js := l) in H end.
  assert (∃ f, story (h_what b) (h_user b) (h_key b) (uuid n) f (st ++ js) ∧ (f = Open ∨ f = Charged x)) as (f & Hs & Hf).
  { subst js. unfold standing in Hst. rewrite Href in *. destruct (Z.ltb_spec 0 (h_amount b)) as [Ha|Ha].
    - destruct Hst as [bal0 ->]. fold x. exists (Charged x). split; [|by right].
      destruct (Z.ltb_spec 0 x); [by apply story_charged|]. replace x with 0 by lia. by apply story_free.
    - subst st. fold x. destruct (Z.ltb_spec 0 x); [exists (Charged x)|exists Open]; (split; [constructor; done|auto]). }
  exists (Owns n (st ++ js)). split.
  - eapply moves_write; [exact H| |exact Hwho|exact Hs]. subst js. rewrite Href.
    destruct (0 <? h_amount b), (0 <? Z.max 0 actual); by repeat constructor.
  - apply Hk. intros rec H1 H2. exists (h_what b), f. split; [done|]. destruct Hf as [->| ->]; cbn; [done|]. by rewrite H2.
Qed.

Lemma tells_prepay rec (k : proc (system R) answer) (Q : phase → answer → Prop) :
  (∀ st, standing b st → tells Q (Owns n st) k) → (∀ status code, Q (Owns n []) (refuse status code rec)) →
  tells Q (Owns n []) (prepay b rec k).
Proof.
  intros Hk HQ w. unfold prepay. cbn [pbind one].
  set (m := PreDeduct (h_user b) (h_key b) (h_amount b) (h_ref b) (h_what b +:+ " prepay")).
  destruct (on_db_books m w) as (_ & _ & Hr). rewrite Hr.
  destruct (PreDeduct_books (h_user b) (h_key b) (h_amount b) (h_ref b) (h_what b +:+ " prepay") (World (sys_db (w_db w)) (w_faults w)))
    as [[Hok H]|(Hok & bal & H)]; fold m in Hok, H; destruct (m (World (sys_db (w_db w)) (w_faults w))).1 as [[]|e] eqn:E;
    cbn in Hok; try done.
  - exists (Owns n []). split; [by apply moves_stay|]. destruct (errors_Is e ErrInsufficient); apply HQ.
  - destruct (Z.ltb_spec 0 (h_amount b)) as [Ha|Ha].
    + exists (Owns n ([] ++ [tx (h_user b) (h_key b) KindFreeze (- h_amount b) bal (h_ref b) (h_what b +:+ " prepay")])). split.
      * rewrite Href in *. eapply moves_write; [exact H|by repeat constructor|exact Hwho|]. by apply story_held.
      * apply Hk. unfold standing. replace (0 <? h_amount b) with true by lia. by exists bal.
    + exists (Owns n []). split.
      * apply moves_aside with []; [|done|]; destruct (on_db_books m w) as (Hd & Hu & _); [by rewrite Hd|by rewrite Hu].
      * apply Hk. unfold standing. by replace (0 <? h_amount b) with false by lia.
Qed.

Lemma refund_refuse_tells st status code rec :
  standing b st → tells (λ ph a, billed (h_user b) (h_key b) ph a.2) (Owns n st) (refund_refuse (R:=R) b status code rec).
Proof.
  intros Hst. unfold refund_refuse, refund. cbn [pbind one]. apply tells_refund; [done..|]. intros ph r H. by apply H.
Qed.
End hold.
End stories.

(** [by_hold L]: the lemma [L] of a part of a handler, at the hold that
    stands. *)
Ltac by_hold L := match goal with H : standing ?b _ |- _ => eapply (L _ b); [done|done|exact H|..] end.

(** ** Any number of requests at once *)

Lemma story_sums what u k ref f st :
  story what u k ref f st → sumZ TxAmount st ≤ 0 ∧ 0 ≤ sumZ (tx_frozen u) st.
Proof.
  destruct moves_frozen_kinds as (H1 & H2 & H3 & H4 & _).
  intros []; cbn [sumZ TxAmount tx]; unfold tx_frozen; cbn [TxUserID TxType TxAmount tx];
    rewrite ?(bool_decide_eq_true_2 (u = u)) by done; rewrite ?H1, ?H2, ?H3, ?H4; cbn [andb]; split; lia.
Qed.

Lemma about_app ref d d' js :
  credit_transactions d' = credit_transactions d ++ js →
  about ref d' = about ref d ++ filter (λ t, TxRefID t = ref) js.
Proof. intros H. unfold about. by rewrite H, filter_app. Qed.

Lemma filter_none {A} (P : A → Prop) `{!∀ x, Decision (P x)} l : Forall (λ x, ¬ P x) l → filter P l = [].
Proof. induction 1 as [|x l Hx _ IH]; [done|]. by rewrite filter_cons_False. Qed.
Lemma filter_all {A} (P : A → Prop) `{!∀ x, Decision (P x)} l : Forall P l → filter P l = l.
Proof. induction 1 as [|x l Hx _ IH]; [done|]. by rewrite filter_cons_True, IH. Qed.

Lemma about_foreign ref d d' js :
  credit_transactions d' = credit_transactions d ++ js → Forall (λ t, TxRefID t ≠ ref) js →
  about ref d' = about ref d.
Proof.
  intros H Hjs. by rewrite (about_app _ _ _ _ H), filter_none, app_nil_r.
Qed.

Section pool.
Context {R T : Type} (uuid : nat → string) (who : N → N → Prop) (Q : phase → T → Prop).

(** Traffic that writes under references of its own: recharges, redeemed
    codes, check-ins, adjustments. *)
Definition elsewhere (s s' : system R) : Prop :=
  (∃ js, credit_transactions (sys_db s') = credit_transactions (sys_db s) ++ js ∧
     Forall (λ t, ∀ n, TxRefID t ≠ uuid n) js) ∧ (sys_uuids s ≤ sys_uuids s')%nat.

Lemma tells_elsewhere {A} (Q' : phase → A → Prop) ph (p : proc (system R) A) :
  (∀ a, Q' ph a) → follows elsewhere (λ _, True) p → tells uuid who Q' ph p.
Proof.
  intros HQ. induction p as [a|B m k IH]; cbn; [auto|]. intros Hp w. destruct (Hp w) as [[[(js & Hj & Hf) Hu] _] H2].
  exists ph. split; [by eapply moves_aside|auto].
Qed.

(** The requests in flight, each with its phase. *)
Record recorded (gs : list (phase * proc (system R) T)) (s : system R) : Prop := {
  rec_tells : Forall (λ g, tells uuid who Q g.1 g.2) gs;
  rec_owns i n st p : gs !! i = Some (Owns n st, p) → (n < sys_uuids s)%nat ∧ about (uuid n) (sys_db s) = st;
  rec_apart i j n st st' p p' : gs !! i = Some (Owns n st, p) → gs !! j = Some (Owns n st', p') → i = j;
  rec_fresh n : (sys_uuids s ≤ n)%nat → about (uuid n) (sys_db s) = [];
  rec_story n : about (uuid n) (sys_db s) = [] ∨ ∃ what u k f, who u k ∧ story what u k (uuid n) f (about (uuid n) (sys_db s))
}.

Lemma recorded_arrives gs s p : tells uuid who Q Idle p → recorded gs s → recorded (gs ++ [(Idle, p)]) s.
Proof.
  intros Hp [H1 H2 H3 H4 H5].
  assert (∀ i n st q, (gs ++ [(Idle, p)]) !! i = Some (Owns n st, q) → gs !! i = Some (Owns n st, q)) as Hl.
  { intros i n st q [H|[_ H]]%lookup_app_Some; [done|]. by apply list_lookup_singleton_Some in H as [_ [=]]. }
  split; [|by eauto..]. apply Forall_app. split; [done|]. by repeat constructor.
Qed.

Lemma recorded_crash gs s i : recorded gs s → recorded (delete i gs) s.
Proof.
  intros [H1 H2 H3 H4 H5]. set (f := λ j, if decide (j < i)%nat then j else S j).
  assert (∀ j, delete i gs !! j = gs !! f j) as Hl.
  { intros j. unfold f. destruct (decide (j < i)%nat); [by apply list_lookup_delete_lt|apply list_lookup_delete_ge; lia]. }
  split; [by apply Forall_delete| | |done|done].
  - intros j n st p. rewrite Hl. apply H2.
  - intros j j' n st st' p p'. rewrite !Hl. intros Hj Hj'. pose proof (H3 _ _ _ _ _ _ _ Hj Hj') as E. unfold f in E.
    destruct (decide (j < i)%nat), (decide (j' < i)%nat); lia.
Qed.

Lemma recorded_moves gs s s' i ph ph' p p' :
  (∀ n m, uuid n = uuid m → n = m) →
  gs !! i = Some (ph, p) → moves uuid who ph ph' s s' → tells uuid who Q ph' p' →
  recorded gs s → recorded (<[i := (ph', p')]> gs) s'.
Proof.
  intros Hinj Hi Hm Hp' [H1 H2 H3 H4 H5]. pose proof (lookup_lt_Some _ _ _ Hi) as Hlt.
  assert (Hother : ∀ j g, <[i := (ph', p')]> gs !! j = Some g → j = i ∧ g = (ph', p') ∨ j ≠ i ∧ gs !! j = Some g).
  { intros j g. destruct (decide (j = i)) as [->|Hne].
    - rewrite list_lookup_insert_eq by done. intros [= <-]. by left.
    - rewrite list_lookup_insert_ne by done. by right. }
  assert (Ht : Forall (λ g, tells uuid who Q g.1 g.2) (<[i := (ph', p')]> gs)) by (by apply Forall_insert).
  destruct Hm as [ph s s' js Hj Hf Hu|ph s s' Hj Hu _|n st js s s' what u k f Hj Hu Hf Hw Hst].
  - assert (∀ n, about (uuid n) (sys_db s') = about (uuid n) (sys_db s)) as Ha.
    { intros n. eapply about_foreign; [exact Hj|]. eapply Forall_impl; [exact Hf|]. cbn. auto. }
    split; [done| | | |].
    + intros j n st q [[-> [= E <-]]|[_ Hg]]%Hother; rewrite Ha.
      * rewrite <- E in Hi. destruct (H2 _ _ _ _ Hi). split; [lia|done].
      * destruct (H2 _ _ _ _ Hg). split; [lia|done].
    + intros j j' n st st' q q' [[-> [= E <-]]|[_ Hg]]%Hother [[-> [= E' <-]]|[_ Hg']]%Hother; [done| | |by eauto].
      * rewrite <- E in Hi. eauto.
      * rewrite <- E' in Hi. eauto.
    + intros n Hn. rewrite Ha. apply H4. lia.
    + intros n. rewrite Ha. apply H5.
  - assert (∀ n, about (uuid n) (sys_db s') = about (uuid n) (sys_db s)) as Ha.
    { intros n. unfold about. by rewrite Hj. }
    split; [done| | | |].
    + intros j n st q [[-> [= -> -> <-]]|[_ Hg]]%Hother; rewrite Ha.
      * split; [lia|]. apply H4. lia.
      * destruct (H2 _ _ _ _ Hg). split; [lia|done].
    + intros j j' n st st' q q' [[-> E]|[_ Hg]]%Hother [[-> E']|[_ Hg']]%Hother; simplify_eq; [done| | |by eauto].
      * destruct (H2 _ _ _ _ Hg'). lia.
      * destruct (H2 _ _ _ _ Hg). lia.
    + intros n Hn. rewrite Ha. apply H4. lia.
    + intros n. rewrite Ha. apply H5.
  - assert (about (uuid n) (sys_db s') = st ++ js) as Hn.
    { rewrite (about_app _ _ _ _ Hj). destruct (H2 _ _ _ _ Hi) as [_ ->]. f_equal. by apply filter_all. }
    assert (∀ m, m ≠ n → about (uuid m) (sys_db s') = about (uuid m) (sys_db s)) as Ha.
    { intros m Hm. eapply about_foreign; [exact Hj|]. eapply Forall_impl; [exact Hf|]. cbn. intros t -> E. by apply Hm, Hinj. }
    destruct (H2 _ _ _ _ Hi) as [Hnu _].
    split; [done| | | |].
    + intros j m st' q [[-> [= -> -> <-]]|[Hne Hg]]%Hother; [split; [lia|done]|].
      destruct (H2 _ _ _ _ Hg) as [Hm Hst']. split; [lia|]. rewrite Ha; [done|]. intros ->. eauto.
    + intros j j' m st1 st2 q q' [[-> E]|[Hne Hg]]%Hother [[-> E']|[Hne' Hg']]%Hother; simplify_eq; [done| | |by eauto].
      * by pose proof (H3 _ _ _ _ _ _ _ Hi Hg').
      * by pose proof (H3 _ _ _ _ _ _ _ Hi Hg).
    + intros m Hm. rewrite Ha; [apply H4; lia|]. intros ->. lia.
    + intros m. destruct (decide (m = n)) as [->|Hm]; [rewrite Hn; right; by eexists _, _, _, _|rewrite Ha by done; apply H5].
Qed.

(** Whatever requests the pool admits, if each tells a story: what there is
    under any reference, and the reference of each request in the pool. *)
Lemma pool_stories (request : proc (system R) T → Prop) w0 ts w :
  (∀ p, request p → tells uuid who Q Idle p) → (∀ n m, uuid n = uuid m → n = m) →
  Forall (λ t, ∀ n, TxRefID t ≠ uuid n) (credit_transactions (sys_db (w_db w0))) →
  rtc (pool_step request) ([], w0) (ts, w) →
  (∀ n, about (uuid n) (sys_db (w_db w)) = [] ∨
    ∃ what u k f, who u k ∧ story what u k (uuid n) f (about (uuid n) (sys_db (w_db w)))) ∧
  ∃ own : nat → phase,
    (∀ i n st, own i = Owns n st → about (uuid n) (sys_db (w_db w)) = st) ∧
    (∀ i j n st st', own i = Owns n st → own j = Owns n st' → i = j) ∧
    ∀ i a, ts !! i = Some (Done a) → Q (own i) a.
Proof.
  intros Hreq Hinj H0 Hs.
  assert (∀ n, about (uuid n) (sys_db (w_db w0)) = []) as Hnone.
  { intros m. apply filter_none. eapply Forall_impl; [exact H0|]. cbn. auto. }
  destruct (pool_invariant request snd recorded) with (4 := Hs) as (gs & Hgs & HI).
  - intros gs s p Hp HI. exists (Idle, p). split; [done|]. by apply recorded_arrives; [apply Hreq|].
  - intros gs s i. apply recorded_crash.
  - intros gs i [ph p] v p' v' Hi Hn HI. pose proof HI as [Ht _ _ _ _].
    pose proof (Forall_lookup_1 _ _ _ _ Ht Hi) as Hp. cbn in Hn, Hp. destruct p as [a|B m k]; cbn in Hn; [done|].
    injection Hn as <- <-. destruct (Hp v) as (ph' & Hm & Hp').
    exists (ph', k (m v).1). split; [done|]. by eapply recorded_moves.
  - exists []. split; [done|]. split; [done|done|done|by auto|]. intros m. left. apply Hnone.
  - destruct HI as [H1 H2 H3 _ H5]. split; [exact H5|]. cbn in Hgs, H1, H2, H3. subst ts.
    exists (λ i, match gs !! i with Some (ph, _) => ph | None => Idle end). split_and!.
    + intros i n st. destruct (gs !! i) as [[ph p]|] eqn:E; [|done]. intros ->. by apply (H2 _ _ _ _ E).
    + intros i j n st st'. destruct (gs !! i) as [[ph p]|] eqn:E; [|done]. intros ->.
      destruct (gs !! j) as [[ph' p']|] eqn:E'; [|done]. intros ->. by eapply H3.
    + intros i a. rewrite list_lookup_fmap. destruct (gs !! i) as [[ph p]|] eqn:E; [|done]. cbn. intros [= ->].
      exact (Forall_lookup_1 _ _ _ _ H1 E).
Qed.
End pool.

(** ** A request that nothing disturbs *)

Section triples.
Context {R : Type}.

(** Where no failure is due, [p] takes databases with [P] to answers and
    databases with [Q]. *)
Definition runs {A} (P : database → Prop) (p : proc (system R) A) (Q : A → database → Prop) : Prop :=
  ∀ w, w_faults w = [] → P (sys_db (w_db w)) →
    w_faults (exec_proc p w).2 = [] ∧ Q (exec_proc p w).1 (sys_db (w_db (exec_proc p w).2)).

Definition books_only (P : database → Prop) : Prop := ∀ d d', same_books d d' → P d → P d'.

Lemma runs_done {A} P (a : A) Q : (∀ d, P d → Q a d) → runs P (Done a) Q.
Proof. intros H w Hw Hp. by split; [|apply H]. Qed.

Lemma runs_bind {A B} P (p : proc (system R) A) Q (k : A → proc (system R) B) Q' :
  runs P p Q → (∀ a, runs (Q a) (k a) Q') → runs P (pbind p k) Q'.
Proof. intros Hp Hk w Hw HP. rewrite exec_pbind. destruct (Hp w Hw HP) as [H1 H2]. by apply Hk. Qed.

Lemma runs_follows {A} P (Q : A → Prop) (p : proc (system R) A) :
  follows unbilled Q p → books_only P → runs P p (λ a d, Q a ∧ P d).
Proof.
  intros Hp HP w Hw H. split; [by eapply follows_exec_steady|].
  destruct (follows_exec _ _ _ w Hp) as [HQ [Hb _]]. split; [done|]. by eapply HP.
Qed.

Lemma runs_pure {A} (φ : Prop) P (p : proc (system R) A) Q : (φ → runs P p Q) → runs (λ d, φ ∧ P d) p Q.
Proof. intros H w Hw [Hφ HP]. by apply H. Qed.

Lemma runs_aside {A} P (p : proc (system R) A) : aside p → books_only P → runs P p (λ _, P).
Proof.
  intros Hp HP w Hw H. split; [by eapply follows_exec_steady|].
  destruct (follows_exec _ _ _ w Hp) as [_ [Hb _]]. by eapply HP.
Qed.

Lemma runs_db {A} P (m : DBM A) `{!Transparent m} (Q : result A → database → Prop) :
  (∀ d, P d → Q (run m d).1 (run m d).2) → runs P (one (on_db m)) Q.
Proof.
  intros H [s fs] Hw HP. cbn in Hw. subst fs. specialize (H _ HP). unfold one. cbn. unfold on_db. cbn.
  rewrite (run_world m). done.
Qed.

Lemma runs_weaken {A} P P' (p : proc (system R) A) Q Q' :
  runs P p Q → (∀ d, P' d → P d) → (∀ a d, Q a d → Q' a d) → runs P' p Q'.
Proof. intros H HP HQ w Hw Hp. destruct (H w Hw (HP _ Hp)). split; auto. Qed.
End triples.

(** ** The hold, the refund and the settlement *)

(** An answer that is not a refusal. *)
Definition served (o : outcome) : bool := match o with Refused _ _ => false | _ => true end.

Section money.
Context (d0 : database) (b : hold) (bal fro : Z).

(** The wallet of the caller, the others as they were in [d0]. *)
Definition purse (x y : Z) (d : database) : Prop :=
  wallet_is d (h_user b) x y ∧ ∀ v, v ≠ h_user b → users d !! v = users d0 !! v.

Lemma purse_books x y : books_only (purse x y).
Proof. intros d d' [Hu _] [H1 H2]. split; [|by rewrite Hu]. unfold wallet_is in *. by rewrite Hu. Qed.

Lemma purse_step (e : Ledger.entry) d x y :
  e_user e = h_user b → purse x y d →
  (∀ w, CreditBalance w = x → CreditFrozen w = y → e_guard e w = Ok true) →
  in_i64 (x + e_balance e) → in_i64 (y + e_frozen e) →
  is_ok (ledger_step e d).1 = true ∧ purse (x + e_balance e) (y + e_frozen e) (ledger_step e d).2.
Proof.
  intros He [(w & Hw & Hl & <- & <-) Ho] Hg Hx Hy. rewrite (ledger_step_ok e d w); rewrite ?He; auto. split; [done|]. cbn. split.
  - eexists. cbn. rewrite He, lookup_insert_eq. by split_and!.
  - intros v Hv. cbn. rewrite He, lookup_insert_ne by done. auto.
Qed.

Hypotheses (Hbal : 0 ≤ bal) (Hibal : in_i64 bal) (Hfro : 0 ≤ fro) (Hifro : in_i64 fro)
  (Hamt : 0 ≤ h_amount b).

Definition holding : database → Prop := purse (bal - h_amount b) (fro + h_amount b).
Definition settled (cost : Z) : database → Prop := purse (bal - cost) fro.

Lemma PreDeduct_holds remark d :
  purse bal fro d →
  if is_ok (run (PreDeduct (h_user b) (h_key b) (h_amount b) (h_ref b) remark) d).1
  then holding (run (PreDeduct (h_user b) (h_key b) (h_amount b) (h_ref b) remark) d).2
  else settled 0 (run (PreDeduct (h_user b) (h_key b) (h_amount b) (h_ref b) remark) d).2.
Proof.
  intros Hp. unfold holding, settled. destruct (decide (h_amount b = 0)) as [E|E].
  { unfold PreDeduct. rewrite E. cbn. by rewrite Z.sub_0_r, Z.add_0_r. }
  rewrite PreDeduct_refines by lia. unfold unit_of.
  destruct (ledger_step _ d) as [r d'] eqn:Hs. apply ledger_step_inv in Hs as [[-> Hok]|(w & Hw & Hg & Hl & Hx & Hy & -> & ->)].
  - destruct r; [done|]. cbn. by rewrite Z.sub_0_r.
  - cbn in *. destruct Hp as [(w' & Hw' & Hl' & <- & <-) Ho]. rewrite Hw in Hw'. injection Hw' as <-. split.
    + eexists. cbn. rewrite lookup_insert_eq. by split_and!.
    + intros v Hv. cbn. rewrite lookup_insert_ne by done. auto.
Qed.

Lemma Refund_settles remark d :
  holding d → settled 0 (run (Refund (h_user b) (h_key b) (h_amount b) (h_ref b) remark) d).2.
Proof.
  intros Hp. unfold holding, settled in *. destruct (decide (h_amount b = 0)) as [E|E].
  { unfold Refund. rewrite E in *. cbn. by rewrite Z.add_0_r in Hp. }
  rewrite Refund_refines by lia. unfold unit_of. cbn [snd].
  destruct (purse_step (refund_entry (h_user b) (h_key b) (h_amount b) (h_ref b) remark) d (bal - h_amount b) (fro + h_amount b))
    as [_ H]; cbn [e_user e_guard e_balance e_frozen refund_entry]; [done|done| | | |].
  - intros w Hx Hy. cbn. f_equal. lia.
  - by replace (bal - h_amount b + h_amount b) with bal by lia.
  - by replace (fro + h_amount b + - h_amount b) with fro by lia.
  - cbn [e_balance e_frozen refund_entry] in H. replace (bal - h_amount b + h_amount b) with (bal - 0) in H by lia.
    by replace (fro + h_amount b + - h_amount b) with fro in H by lia.
Qed.

Lemma Settle_settles actual remark d :
  in_i64 (h_amount b) → in_i64 actual → holding d →
  settled (Z.max 0 actual) (run (Settle (h_user b) (h_key b) (h_amount b) actual (h_ref b) remark) d).2.
Proof.
  intros Hia Hic Hp. unfold holding, settled in *. destruct (decide (h_amount b = 0 ∧ actual ≤ 0)) as [[E Ha]|E].
  { unfold Settle. rewrite E in *. replace ((0 <=? 0) && (actual <=? 0)) with true by (symmetry; apply andb_true_iff; lia).
    cbn. rewrite Z.add_0_r in Hp. by rewrite Z.max_l. }
  rewrite Settle_refines by (try done; lia). unfold unit_of. cbn [snd]. set (x := Z.max 0 actual).
  destruct (purse_step (settle_entry (h_user b) (h_key b) (h_amount b) x (h_ref b) remark) d (bal - h_amount b) (fro + h_amount b))
    as [_ H]; cbn [e_user e_guard e_balance e_frozen settle_entry]; [done|done| | | |].
  - intros w Hx Hy. cbn. rewrite Hy. replace (fro + h_amount b + - h_amount b) with fro by lia.
    rewrite bigint_in by done. cbn. f_equal. lia.
  - replace (bal - h_amount b + (h_amount b - x)) with (bal - x) by lia. subst x. i64_lia.
  - by replace (fro + h_amount b + - h_amount b) with fro by lia.
  - cbn [e_balance e_frozen settle_entry] in H.
    replace (bal - h_amount b + (h_amount b - x)) with (bal - x) in H by lia.
    by replace (fro + h_amount b + - h_amount b) with fro in H by lia.
Qed.

(** What an answer has cost. *)
Definition paid (a : answer) (d : database) : Prop :=
  if served a.1 then LogStatus a.2 = StatusSuccess ∧ settled (Z.max 0 (CreditCost a.2)) d
  else LogStatus a.2 = StatusFailed ∧ settled 0 d.

Context {R : Type}.

Lemma refund_refuse_paid status code rec : runs holding (refund_refuse (R:=R) b status code rec) paid.
Proof.
  unfold refund_refuse, refund. eapply runs_bind with (Q := λ rec', λ d, LogStatus rec' = StatusFailed ∧ settled 0 d).
  - eapply runs_bind with (Q := λ _, settled 0); [apply runs_db; [apply _|apply Refund_settles]|].
    intros ?. by apply runs_done.
  - intros ?. by apply runs_done.
Qed.

Lemma served_paid out (q : proc (system R) Log) :
  served out = true →
  runs holding q (λ rec' d, LogStatus rec' = StatusSuccess ∧ settled (Z.max 0 (CreditCost rec')) d) →
  runs holding (rec <~ q ;; Done (out, rec)) paid.
Proof.
  intros Ho Hq. eapply runs_bind; [exact Hq|]. intros rec. apply runs_done. unfold paid. cbn. by rewrite Ho.
Qed.

(** A refused hold costs nothing. *)
Lemma prepay_runs rec (k : proc (system R) answer) (Q : answer → database → Prop) :
  (∀ status code d, settled 0 d → Q (refuse status code rec) d) → runs holding k Q → runs (purse bal fro) (prepay b rec k) Q.
Proof.
  intros HQ Hk. unfold prepay. eapply runs_bind with (Q := λ r, if is_ok r then holding else settled 0).
  - apply runs_db; [apply _|]. intros d Hd. pose proof (PreDeduct_holds (h_what b +:+ " prepay") d Hd) as H.
    by destruct (run _ d) as [[[]|e] d'].
  - intros [[]|e]; cbn; [exact Hk|]. destruct (errors_Is e ErrInsufficient); apply runs_done; intros d; apply HQ.
Qed.

Lemma prepay_paid rec (k : proc (system R) answer) : runs holding k paid → runs (purse bal fro) (prepay b rec k) paid.
Proof. by apply prepay_runs. Qed.
End money.

(** The wallet of [u], which was ([bal], [fro]), after an answer. *)
Definition charged_as_logged (u : N) (bal fro : Z) (a : answer) (d : database) : Prop :=
  if served a.1 then LogStatus a.2 = StatusSuccess ∧ wallet_is d u (bal - Z.max 0 (CreditCost a.2)) fro
  else LogStatus a.2 = StatusFailed ∧ wallet_is d u bal fro.

