(* ===== verification/RunnerSpec.v ===== *)
(** * What a run of the image runner delivers (internal/image/runner.go)

    Whatever the upstream answers, however the goroutines interleave and
    whatever fails: a run leaves the books alone, and one that succeeds has
    exactly the images it was asked for ([Run_delivers]). *)

From S2P Require Import Prelude GoStrings GoTime Float Sql Schema Crypto Ledger Settings Models Users System Lock Proc ProxyPool Account Books Tasks Archive Upstream Refs Scheduler Runner Json Delta Gateway Stories.
From Stdlib Require Import QArith.

#[local] Open Scope Z_scope.

(** [part], [part_ x]: the next part, whose answer [x] does not matter. *)
Ltac part := eapply (follows_pbind _ (λ _, True)); [|intros ? _].
Ltac part_ x := eapply (follows_pbind _ (λ _, True)); [|intros x _].

Section runs.
Context (r : Runner) (st : Stores) (settings : option cache).
Context (json_column : string → option string) (marshal : list string → string).
Context (unmarshal : string → result rawConfig) (unmarshal_bool : string → option bool) (http_url : string → bool).
Context (loc : location) (cfg : SchedulerConfig) (rt : RuntimeParams).
Context {AEAD : Type} (Open : AEAD → list ascii → list ascii → result (list ascii))
        (NonceSize Overhead : nat) (cipher : AEAD).
Context (decode : string → option json) (num : string → Q).
Context {R : Type} `{!RedisServer R} (uuid : nat → string).
Hypothesis Httl : 0 < lock_ttl cfg.

Abbreviation gives Q p := (follows (unbilled (R:=R)) Q p).

Lemma gives_done {A} (Q : A → Prop) a : Q a → gives Q (Done a).
Proof. done. Qed.

#[local] Instance Sleep_unbilled d : Keeps (unbilled (R:=R)) (Sleep d).
Proof. intros [s fs]. apply unbilled_wait. Qed.

Lemma markProxy_gives l e : gives (λ _, True) (markProxyFailureIfNeeded (R:=R) l e).
Proof. unfold markProxyFailureIfNeeded. repeat first [apply MarkProxyFailure_aside|aside_step]. Qed.
Lemma markAccount_gives id code : gives (λ _, True) (markAccountFailure cfg rt (R:=R) id code).
Proof. unfold markAccountFailure. repeat aside_step. Qed.
Lemma blame_gives l e : gives (λ _, True) (blame cfg rt (R:=R) l e).
Proof. unfold blame. part; [apply markProxy_gives|]. part; [apply markAccount_gives|]. done. Qed.

Lemma sleep_gives ctx d : gives (λ _, True) (sleep (R:=R) ctx d).
Proof. unfold sleep. repeat aside_step. Qed.
Lemma poll_loop_gives conversation ctx fuel opt convID deadline n hot acc :
  gives (λ _, True) (poll_loop (R:=R) num decode conversation ctx fuel opt convID deadline n hot acc).
Proof.
  revert n hot acc. induction fuel as [|fuel IH]; intros n hot acc; cbn [poll_loop]; [done|].
  repeat first [aside_step|apply sleep_gives|apply IH].
Qed.
Lemma poll_gives conversation ctx convID opt :
  gives (λ _, True) (PollConversationForImages (R:=R) num decode conversation ctx convID opt).
Proof. unfold PollConversationForImages. aside_step. apply poll_loop_gives. Qed.
#[local] Hint Resolve markProxy_gives markAccount_gives blame_gives poll_gives : runner.

(** An attempt that succeeds has as many references as addresses, one at
    least, and the bytes of each when there is a store. *)
Record drawn_ok (res : RunResult) : Prop := {
  ok_some : (1 ≤ length (ResSignedURLs res))%nat;
  ok_files : length (ResFileIDs res) = length (ResSignedURLs res);
  ok_fetched : length (archiveImages res) = if HasFiles r then length (ResSignedURLs res) else O;
  ok_thumbs : ResThumbURLs res = []
}.

Definition good (x : Attempt * Lease) : Prop := x.1.1.1 = true → drawn_ok x.1.2.

Lemma fails_good code res l : gives good (fails (R:=R) code res l).
Proof. by intros ?. Qed.
#[local] Hint Resolve fails_good : runner.

Lemma upload_refs_gives u i refs l : gives (λ _, True) (upload_refs cfg rt (R:=R) u i refs l).
Proof.
  revert i l. induction refs as [|r0 refs IH]; intros i l; cbn [upload_refs]; [done|].
  destruct (UploadFile _ _ _ _) as [e|up]; part; auto with runner; done.
Qed.

Lemma sign_refs_gives u convID refs code l :
  gives (λ x, length x.1.1.1 = length x.1.1.2) (sign_refs (R:=R) u convID refs code l).
Proof.
  revert code l. induction refs as [|ref refs IH]; intros code l; cbn [sign_refs]; [done|].
  destruct (ImageDownloadURL _ _ _) as [e|url]; [part; auto with runner|].
  eapply follows_pbind; [apply IH|]. intros [[[rs urls] c] l'] Hl. cbn in *. lia.
Qed.

Lemma fetch_images_gives u i urls l :
  gives (λ x, match x.1 with Some (images, cts) => length images = length urls ∧ length cts = length urls | None => True end)
    (fetch_images (R:=R) u i urls l).
Proof.
  revert i l. induction urls as [|url urls IH]; intros i l; cbn [fetch_images]; [done|].
  destruct (FetchImage _ _) as [e|[body ct]]; [part; [auto with runner|done]|].
  eapply follows_pbind; [apply IH|]. intros [[[images cts]|] l'] Hl; cbn in *; [lia|done].
Qed.

Lemma deliver_good u convID refs l res :
  ResThumbURLs res = [] → gives good (deliver r cfg rt (R:=R) u convID refs l res).
Proof.
  intros Ht. unfold deliver. destruct refs as [|ref refs]; [apply fails_good|].
  eapply follows_pbind; [apply sign_refs_gives|]. intros [[[rs urls] code] l'] Hl. cbn in Hl.
  destruct urls as [|url urls0] eqn:Eu.
  { destruct (_ || _); [part; auto with runner|auto with runner]. }
  rewrite <-Eu in *. assert (1 ≤ length urls)%nat as H1 by (rewrite Eu; cbn; lia). clear Eu.
  destruct (HasFiles r) eqn:Ef.
  - eapply follows_pbind; [apply fetch_images_gives|]. intros [[[images cts]|] l''] Hi; cbn in Hi; [|apply fails_good].
    intros _. destruct Hi. split; cbn; [done|done|by rewrite Ef|done].
  - intros _. split; cbn; [done|done|by rewrite Ef|done].
Qed.
#[local] Hint Resolve deliver_good : runner.

Lemma collect_good opt u deadline refSet sse l res :
  ResThumbURLs res = [] →
  gives good (collect r cfg rt decode num (R:=R) opt u deadline refSet sse l res).
Proof.
  intros Ht. unfold collect. destruct (_ <=? _); [auto with runner|]. part; [auto with runner|].
  repeat case_match; auto with runner.
Qed.

Lemma draw_good opt u deadline cr t ups l res :
  ResThumbURLs res = [] → gives good (draw r cfg rt decode num uuid (R:=R) opt u deadline cr t ups l res).
Proof.
  intros Ht. unfold draw. part; [repeat aside_step|]. part; [repeat aside_step|].
  assert (∀ conv l', gives good (converse_image r cfg rt decode num (R:=R) opt u deadline conv l' res)) as Hgo.
  { intros conv l'. unfold converse_image. destruct (StreamFConversation _ _) as [e|stream].
    - part; auto with runner.
    - apply collect_good. by destruct (String.eqb _ ""). }
  cbv zeta. destruct (PrepareFConversation _ _) as [e|conduit]; [|apply Hgo]. part; [auto with runner|].
  destruct (_ || _); [part; auto with runner|apply Hgo].
Qed.

Lemma prove_gives u cr l : gives (λ _, True) (prove_image cfg rt (R:=R) u cr l).
Proof. unfold prove_image. repeat aside_step. Qed.

Lemma runOnce_good opt u deadline res :
  ResThumbURLs res = [] →
  gives (λ x, x.1.1 = true → drawn_ok x.2)
    (runOnce r loc cfg rt Open NonceSize Overhead cipher decode num (R:=R) uuid opt u deadline res).
Proof.
  intros Ht. unfold runOnce. part_ d; [by apply Dispatch_aside|]. destruct d as [[l|e]|]; [|done..].
  eapply (follows_pbind _ good).
  - unfold with_image_lease. part; [repeat aside_step|]. destruct (img_client _ _) as [e|]; [part; auto with runner|].
    destruct (img_requirements _) as [e|cr]; [part; auto with runner|]. part_ pr; [apply prove_gives|].
    destruct pr as [code|t]; [auto with runner|]. part_ up; [apply upload_refs_gives|].
    destruct up as [[code|ups] l']; cbn [fst snd]; [apply fails_good|by apply draw_good].
  - intros x Hx. part; [by apply (LeaseRelease_aside loc uuid)|]. exact Hx.
Qed.

(** ** Attempts and batches *)

Context (net : nat → nat → nat → ImageUpstream) (task_done : Z).
Context (turns : nat → nat → list bool) (arrival : nat → list nat).

Abbreviation retry_loop := (retry_loop r loc cfg rt Open NonceSize Overhead cipher decode num uuid net task_done).
Abbreviation runWithRetry := (runWithRetry r loc cfg rt Open NonceSize Overhead cipher decode num uuid net task_done).

Lemma copy_ok dst src : drawn_ok src → drawn_ok (copyRunResultState dst src).
Proof. by intros []. Qed.

Lemma retry_loop_good todo n batch i opt result :
  gives (λ x, x.1 = true → drawn_ok x.2) (retry_loop todo n batch i opt result).
Proof.
  revert n result. induction todo as [|todo IH]; intros n result; cbn [Runner.retry_loop]; [done|].
  part; [repeat aside_step|]. destruct (_ <=? _); [done|]. part; [repeat aside_step|].
  eapply follows_pbind; [by apply runOnce_good|]. intros [[ok status] res] Hok. cbn in Hok.
  destruct ok; [intros _; by apply copy_ok, Hok|].
  destruct (negb _); [done|]. destruct (_ <=? _); [done|]. apply IH.
Qed.

(** A goroutine that succeeds has one image. *)
Definition one_image (x : bool * RunResult) : Prop :=
  x.1 = true → drawn_ok x.2 ∧ length (ResSignedURLs x.2) = 1%nat.

Lemma trim_ok res k : (1 ≤ k)%nat → drawn_ok res →
  drawn_ok (trimRunResultImages res (Z.of_nat k)) ∧
  length (ResSignedURLs (trimRunResultImages res (Z.of_nat k))) = Nat.min k (length (ResSignedURLs res)).
Proof.
  intros Hk [H1 H2 H3 H4]. unfold trimRunResultImages. replace (Z.of_nat k <=? 0) with false by lia. rewrite Nat2Z.id.
  split; [split|]; cbn; rewrite ?length_take; try lia; [|done]. rewrite H3. destruct (HasFiles r); lia.
Qed.

Lemma sub_run_good batch opt i :
  gives one_image (sub_run r settings loc cfg rt Open NonceSize Overhead cipher decode num uuid net task_done batch opt i).
Proof.
  unfold sub_run, Runner.runWithRetry. eapply follows_pbind; [apply retry_loop_good|]. intros [[] res] Hres; [|done].
  intros _. cbn in *. specialize (Hres eq_refl). destruct (trim_ok res 1 ltac:(lia) Hres) as [H1 H2].
  split; [exact H1|]. etrans; [exact H2|]. destruct Hres. lia.
Qed.

Lemma runBatch_good batch opt count :
  gives (λ l, length l = count ∧ Forall one_image l)
    (runBatch r settings loc cfg rt Open NonceSize Overhead cipher decode num uuid net task_done turns arrival batch opt count).
Proof.
  unfold runBatch. eapply follows_pbind.
  - eapply follows_together. apply Forall_forall. intros p Hp. apply list_elem_of_In, in_map_iff in Hp as (i & <- & _).
    apply sub_run_good.
  - intros l [Hl HF]. cbn. rewrite length_map, length_seq in Hl.
    split; [by rewrite shuffle_perm|by rewrite shuffle_perm].
Qed.

(** What the loop over the batches carries: [k] images. *)
Record has_images (k : nat) (res : RunResult) : Prop := {
  hi_urls : length (ResSignedURLs res) = k;
  hi_files : length (ResFileIDs res) = k;
  hi_fetched : length (archiveImages res) = if HasFiles r then k else O;
  hi_thumbs : ResThumbURLs res = []
}.

Lemma has_images_count k res : has_images k res → runResultImageCount res = Z.of_nat k.
Proof. intros [H1 H2 H3 H4]. unfold runResultImageCount. rewrite H1, H2, H3, H4. destruct (HasFiles r); cbn; lia. Qed.

Lemma merge_one_images k p x :
  has_images k (pg_result p) → one_image x →
  ∃ k', has_images k' (pg_result (merge_one p x)) ∧ (k ≤ k' ≤ S k)%nat ∧
    ResStatus (pg_result (merge_one p x)) = ResStatus (pg_result p).
Proof.
  intros Hp Hx. destruct x as [ok s]. unfold merge_one. destruct ok; cbn [negb].
  - destruct (Hx eq_refl) as [[H1 H2 H3 H4] H5]. cbn in *.
    assert (subImageCount s = 1) as ->. { unfold subImageCount. rewrite H3, H2, H5. destruct (HasFiles r); cbn; lia. }
    cbn. exists (S k). destruct Hp as [P1 P2 P3 P4]. split; [|split; [lia|done]].
    split; cbn; rewrite ?length_app, ?length_map; try lia; [|done]. rewrite P3, H3, H5. destruct (HasFiles r); lia.
  - exists k. split; [|split; [lia|done]]. by destruct Hp.
Qed.

Lemma merge_all_images k p l :
  has_images k (pg_result p) → Forall one_image l →
  ∃ k', has_images k' (pg_result (foldl merge_one p l)) ∧ (k ≤ k' ≤ k + length l)%nat ∧
    ResStatus (pg_result (foldl merge_one p l)) = ResStatus (pg_result p).
Proof.
  intros Hp Hl. revert k p Hp. induction Hl as [|x l Hx _ IH]; intros k p Hp; cbn [foldl length].
  { exists k. split; [done|]. split; [lia|done]. }
  destruct (merge_one_images k p x Hp Hx) as (k1 & H1 & H2 & H3).
  destruct (IH k1 _ H1) as (k2 & H4 & H5 & H6). exists k2. split; [done|]. split; [lia|]. congruence.
Qed.

Lemma batches_images todo batch opt p k :
  has_images k (pg_result p) → Z.of_nat k ≤ OptN opt →
  gives (λ p', ∃ k', has_images k' (pg_result p') ∧ Z.of_nat k' ≤ OptN opt ∧ ResStatus (pg_result p') = ResStatus (pg_result p))
    (batches r settings loc cfg rt Open NonceSize Overhead cipher decode num uuid net task_done turns arrival todo batch opt p).
Proof.
  revert batch p k. induction todo as [|todo IH]; intros batch p k Hp Hk; cbn [batches]; [by exists k|].
  rewrite (has_images_count k) by done. destruct (Z.leb_spec (OptN opt - Z.of_nat k) 0); [by exists k|].
  eapply follows_pbind; [apply runBatch_good|]. intros l [Hl HF].
  destruct (merge_all_images k p l Hp HF) as (k' & H1 & H2 & H3). part; [repeat aside_step|].
  assert (Z.of_nat k' ≤ OptN opt) as Hk' by lia.
  destruct (_ <=? _); [by exists k'|].
  eapply follows_weaken; [by apply (IH _ _ k')|]. intros p' (k2 & ? & ? & E). exists k2. split_and!; [done|done|congruence].
Qed.

Lemma runParallel_images opt mode :
  1 ≤ OptN opt →
  gives (λ res, ResStatus res = TaskSuccess ∧ ResErrorCode res = "" ∧ has_images (Z.to_nat (OptN opt)) res ∨ ResStatus res = TaskFailed)
    (runParallel r settings loc cfg rt Open NonceSize Overhead cipher decode num uuid net task_done turns arrival opt (new_result mode)).
Proof.
  intros Hn. unfold runParallel. eapply follows_pbind; [eapply (batches_images _ _ _ _ 0)|].
  { split; cbn; [done|done|by destruct (HasFiles r)|done]. } { lia. }
  intros p (k & Hp & Hk & Hs). cbn in Hs.
  set (res := if (1 <? length (archiveImages (pg_result p)))%nat then sort_images (pg_result p) else pg_result p).
  assert (has_images k res ∧ ResStatus res = TaskFailed) as [Hres Hst].
  { unfold res. destruct (1 <? _)%nat; [|done]. split; [|done]. destruct Hp as [P1 P2 P3 P4].
    split; cbn; [done|done| |done]. rewrite <-P3. apply Permutation_length, sort_by_Permutation. }
  cbv zeta. rewrite (has_images_count k res Hres). replace (OptN opt <? Z.of_nat k) with false by lia.
  rewrite (has_images_count k res Hres). destruct (Z.leb_spec (OptN opt) (Z.of_nat k)).
  - left. do 2 (split; [done|]). replace (Z.to_nat (OptN opt)) with k by lia. by destruct Hres.
  - right. by destruct (0 <? pg_successes p).
Qed.
(** ** The whole run *)

(** A run that ends in a success with [n] images, or in a failure. *)
Definition delivers (n : nat) (res : RunResult) : Prop :=
  ResStatus res = TaskSuccess ∧ length (ResSignedURLs res) = n ∧ length (ResFileIDs res) = n ∧
    (ResThumbURLs res = [] ∨ length (ResThumbURLs res) = n) ∧ ResErrorCode res = "" ∨
  ResStatus res = TaskFailed.

Lemma archive_delivers taskID n res res' :
  has_images n res → archiveResult st settings unmarshal unmarshal_bool http_url taskID res = Ok res' →
  length (ResSignedURLs res') = n ∧ length (ResFileIDs res') = n ∧
  (ResThumbURLs res' = [] ∨ length (ResThumbURLs res') = n) ∧ ResStatus res' = ResStatus res ∧ ResErrorCode res' = ResErrorCode res.
Proof.
  intros [H1 H2 H3 H4]. unfold archiveResult. rewrite H4.
  destruct (archiveResultImages _ _ _ _ _ _ _ _ _ _) as [a|] eqn:E; cbn [rbind]; [|done]. intros [= <-].
  eapply (archiveResultImages_length _ _ _ _ _ _ _ _ _ _ n) in E as [Ha Hb]; [by cbn|done|].
  destruct (HasFiles r); [by right|left]. by apply nil_length_inv.
Qed.

Lemma run_one_delivers opt result :
  1 ≤ OptN opt →
  gives (delivers (Z.to_nat (OptN opt)))
    (run_one r st settings unmarshal unmarshal_bool http_url loc cfg rt Open NonceSize Overhead cipher decode num uuid
       net task_done opt (new_result result)).
Proof.
  intros Hn. unfold run_one, Runner.runWithRetry.
  eapply (follows_pbind _ (λ x, (x.1 = true → drawn_ok x.2) ∧ (x.1 = false → ResStatus x.2 = TaskFailed))).
  { assert (∀ todo n opt result, ResStatus result = TaskFailed →
      gives (λ x, (x.1 = true → drawn_ok x.2) ∧ (x.1 = false → ResStatus x.2 = TaskFailed)) (retry_loop todo n O O opt result)) as H;
      [|by apply H].
    clear opt Hn result. intros todo. induction todo as [|todo IH]; intros n opt result Hs; cbn [Runner.retry_loop]; [done|].
    part; [repeat aside_step|]. destruct (_ <=? _); [done|]. part; [repeat aside_step|].
    eapply follows_pbind; [by apply runOnce_good|]. intros [[ok status] res] Hok. cbn in Hok.
    destruct ok; [split; [intros _; by apply copy_ok, Hok|done]|].
    destruct (negb _); [done|]. destruct (_ <=? _); [done|]. by apply IH. }
  intros [[] res] [Hres Hst]; cbn in *; [|right; auto].
  destruct (trim_ok res (Z.to_nat (OptN opt)) ltac:(lia) (Hres eq_refl)) as [[T1 T2 T3 T4] T5].
  rewrite Z2Nat.id in * by lia. set (res' := trimRunResultImages res (OptN opt)) in *.
  assert (has_images (length (ResSignedURLs res')) res') as Hi by done.
  rewrite (has_images_count _ _ Hi). destruct (Z.ltb_spec (Z.of_nat (length (ResSignedURLs res'))) (OptN opt)); [by right|].
  assert (length (ResSignedURLs res') = Z.to_nat (OptN opt)) as E by lia. rewrite E in Hi.
  destruct (archiveResult _ _ _ _ _ _ res') as [res2|] eqn:Ea; [|by right].
  left. destruct (archive_delivers _ _ _ _ Hi Ea) as (A1 & A2 & A3 & _). by split_and!.
Qed.

Lemma run_many_delivers opt result :
  1 ≤ OptN opt →
  gives (delivers (Z.to_nat (OptN opt)))
    (run_many r st settings unmarshal unmarshal_bool http_url loc cfg rt Open NonceSize Overhead cipher decode num uuid
       net task_done turns arrival opt (new_result result)).
Proof.
  intros Hn. unfold run_many. eapply follows_pbind; [by apply runParallel_images|]. intros res Hres.
  destruct (String.eqb_spec (ResStatus res) TaskSuccess) as [Hs|Hs].
  - destruct (archiveResult _ _ _ _ _ _ res) as [res2|] eqn:Ea; [|by right].
    destruct Hres as [(_ & He & Hi)|Hf]; [|by rewrite Hf in Hs].
    destruct (archive_delivers _ _ _ _ Hi Ea) as (A1 & A2 & A3 & A4 & A5). left. split_and!; try done; congruence.
  - right. by destruct Hres as [(? & _)|?].
Qed.

Lemma decr_quotas_gives l : gives (λ _, True) (decr_quotas (R:=R) l).
Proof. induction l as [|[a n] l IH]; cbn [decr_quotas]; repeat first [aside_step|done|apply IH]. Qed.

Lemma persist_gives opt res : gives (λ _, True) (persist r json_column marshal (R:=R) opt res).
Proof. unfold persist. repeat first [aside_step|done|apply decr_quotas_gives]. Qed.

Lemma Run_follows opt :
  gives (delivers (Z.to_nat (Z.max 1 (OptN opt))))
    (Run r st settings json_column marshal unmarshal unmarshal_bool http_url loc cfg rt Open NonceSize Overhead cipher decode num uuid
       net task_done turns arrival opt).
Proof.
  unfold Run. part; [repeat aside_step|].
  eapply follows_pbind with (Q := delivers (Z.to_nat (Z.max 1 (OptN opt)))).
  - assert (OptN (normalizeOptions r opt) = Z.max 1 (OptN opt)) as <-
      by (unfold normalizeOptions; cbn; destruct (Z.leb_spec (OptN opt) 0); lia).
    assert (1 ≤ OptN (normalizeOptions r opt)) by (unfold normalizeOptions; cbn; destruct (Z.leb_spec (OptN opt) 0); lia).
    destruct (1 <? _); [by apply run_many_delivers|by apply run_one_delivers].
  - intros res Hres. part; [apply persist_gives|]. exact Hres.
Qed.
End runs.

Section theorem.
Context (r : Runner) (st : Stores) (settings : option cache).
Context (json_column : string → option string) (marshal : list string → string).
Context (unmarshal : string → result rawConfig) (unmarshal_bool : string → option bool) (http_url : string → bool).
Context (loc : location) (cfg : SchedulerConfig) (rt : RuntimeParams).
Context {AEAD : Type} (Open : AEAD → list ascii → list ascii → result (list ascii))
        (NonceSize Overhead : nat) (cipher : AEAD).
Context (decode : string → option json) (num : string → Q).
Context {R : Type} `{!RedisServer R} (uuid : nat → string).
Context (net : nat → nat → nat → ImageUpstream) (task_done : Z).
Context (turns : nat → nat → list bool) (arrival : nat → list nat).

(** C7: a run delivers what it is asked for or fails.  Whatever the upstream
    answers to any attempt, however the goroutines take turns and in whatever
    order they deliver, whichever calls to the database and to Redis fail and
    however time passes: a run ends, in a success with exactly as many
    addresses and references as images were asked for (one at least), as many
    thumbnails or none, and no error code, or in a failure; and no call of it
    touches a wallet or the journal. *)
Theorem Run_delivers opt w :
  0 < lock_ttl cfg →
  delivers (Z.to_nat (Z.max 1 (OptN opt)))
    (exec_proc (Run r st settings json_column marshal unmarshal unmarshal_bool http_url loc cfg rt Open NonceSize Overhead cipher
       decode num (R:=R) uuid net task_done turns arrival opt) w).1 ∧
  same_books (sys_db (w_db w))
    (sys_db (w_db (exec_proc (Run r st settings json_column marshal unmarshal unmarshal_bool http_url loc cfg rt Open NonceSize
       Overhead cipher decode num (R:=R) uuid net task_done turns arrival opt) w).2)).
Proof.
  intros Httl. destruct (follows_exec _ _ _ w (Run_follows r st settings json_column marshal unmarshal unmarshal_bool http_url
    loc cfg rt Open NonceSize Overhead cipher decode num uuid Httl net task_done turns arrival opt)) as [H1 [H2 _]].
  by split.
Qed.
End theorem.

(** ** Witnesses *)

Definition no_stores : Stores := {|
  SaveTaskImages := None; BuildThumbnail := λ _, Err EDriver; download := λ _, Ok ("png", "image/png"); cloudUploader := None;
  NewUploader := λ _ _ _, Err EDriver |}.
Definition pool_runner : Runner := {| HasDAO := true; HasFiles := false; HasQuotaDecr := true; CfgPollMaxWaitSec := 0 |}.
Definition image_net (batch i attempt : nat) : ImageUpstream := {|
  img_client := λ _, None;
  img_requirements := inr {| Token := "t"; Persona := "chatgpt-paid"; PowRequired := false |};
  img_proof := None;
  UploadFile := λ _ _ _, inr "f";
  PrepareFConversation := λ _, inr "conduit";
  StreamFConversation := λ _, inr [EvData "" ("see file-service://file-" +:+ itoa (Z.of_nat i) +:+ ".")];
  img_conversation := λ _, inr "{}";
  ImageDownloadURL := λ _ ref, inr ("https://x/" +:+ ref);
  FetchImage := λ _, inr ("png", "image/png") |}.
Definition toy_marshal (l : list string) : string := "[" +:+ Join l "," +:+ "]".
(** Two images by two accounts at once, which arrive in the other order; the
    connection fails at the fourth call. *)
Definition run_sample : proc (system map_redis) RunResult :=
  Run pool_runner no_stores None Some toy_marshal (λ _, Err EDriver) (λ _, None) (λ _, true) UTC test_cfg test_rt toy_open 12 16 tt
    sample_decode (λ _, 0%Q) (test_uuid 0) image_net (600 * second) (λ _ _, [true; false; false; true]) (λ _, [1; 0]%nat)
    {| OptTaskID := "t"; OptUpstreamModel := ""; OptPrompt := "a lake"; OptSize := ""; OptN := 2; OptMaxAttempts := 2;
       PerAttemptTimeout := 0; PollMaxWait := 0; OptReferences := [] |}.

Lemma Run_delivers_witness :
  let res := (exec_proc run_sample (test_world pool_db [false; false; false; true])).1 in
  delivers 2 res ∧ ResStatus res = TaskSuccess.
Proof.
  cbv zeta. assert (Hs : ResStatus (exec_proc run_sample (test_world pool_db [false; false; false; true])).1 = TaskSuccess)
    by (by vm_compute). split; [|exact Hs].
  assert (Httl : 0 < lock_ttl test_cfg) by by vm_compute.
  revert Hs. generalize (test_world pool_db [false; false; false; true]). intros w _.
  destruct (Run_delivers pool_runner no_stores None Some toy_marshal (λ _, Err EDriver) (λ _, None) (λ _, true) UTC test_cfg test_rt
    toy_open 12 16 tt sample_decode (λ _, 0%Q) (test_uuid 0) image_net (600 * second) (λ _ _, [true; false; false; true])
    (λ _, [1; 0]%nat) {| OptTaskID := "t"; OptUpstreamModel := ""; OptPrompt := "a lake"; OptSize := ""; OptN := 2;
      OptMaxAttempts := 2; PerAttemptTimeout := 0; PollMaxWait := 0; OptReferences := [] |} w Httl) as [H _].
  exact H.
Defined.
