(* ===== verification/Chat.v ===== *)
(** * Chat completions (internal/gateway/chat.go, chat_channel.go)

    The handler of POST /v1/chat/completions as a process: limits, the hold on
    the caller's credits, an account of the pool or a channel, the upstream's
    answer, the settlement.  What travels over the network is a parameter:
    [Upstream] holds what the calls of the ChatGPT client return, [adapter_chat]
    what those of a channel's adapter do.  Image models go on in the image
    handler, which the code injects: an argument here, supplied in Images. *)

From S2P Require Import Prelude GoStrings GoTime Float Sql Schema Crypto Ledger Billing Models Users System Lock Proc ProxyPool Account Pricing ApiKey Channels RateLimit Caches Upstream Scheduler Json Delta Gateway.
From Stdlib Require Import QArith.

#[local] Open Scope Z_scope.

Definition upstreamTimeout (h : Handler) : Z :=
  match GatewayUpstreamTimeoutSec h with
  | Some n => if 0 <? n then duration n second else 60 * second
  | None => 60 * second
  end.

Definition mapUpstreamModelSlug (s : string) : string :=
  if String.eqb s "gpt-5" then "gpt-5-3" else s.

(** [chatgpt.ChatMessage] *)
Record ChatMessage := { Role : string; Content : string }.

(** [int] sums wrap. *)
Fixpoint estimate (n : Z) (msgs : list ChatMessage) : Z :=
  match msgs with
  | [] => wrap64 (n + 2)
  | m :: msgs => estimate (wrap64 (n + quarter (Content m) + 4)) msgs
  end.
Definition roughEstimateTokens (msgs : list ChatMessage) : Z := estimate 0 msgs.

Record ChatCompletionsRequest := {
  ReqModel : string;
  ReqMessages : list ChatMessage;
  ReqStream : bool;
  ReqTemperature : Q;
  ReqTopP : Q;
  ReqMaxTokens : Z
}.

Record FChatOpts := {
  FUpstreamModel : string;
  FMessages : list ChatMessage;
  FChatToken : string;
  FProofToken : string;
  FConduitToken : string
}.

Record Upstream := {
  new_client : Options → option uerr;
  ChatRequirementsV2 : uerr + ChatRequirementsResp;
  SolveProof : option string;               (* None: not within the five seconds *)
  PrepareFChat : FChatOpts → uerr + string;
  StreamFChat : FChatOpts → uerr + list SSEEvent
}.

Definition truncate (s : string) (n : nat) : string :=
  if (String.length s <=? n)%nat then s else string_take n s +:+ "...".
Definition proxyFailureSummary (e : uerr) : string := truncate (TrimSpace (error_text e)) 255.

(** ** Channels *)

Record ChatRequest := {
  AdModel : string;
  AdMessages : list ChatMessage;
  AdStream : bool;
  AdTemperature : Q;
  AdTopP : Q;
  AdMaxTokens : Z
}.

(** [adapter.ChatChunk]; of the usage only the completion tokens are read. *)
Record ChatChunk := {
  ChDelta : string;
  ChFinishReason : string;
  ChUsage : option Z;
  ChErr : option string
}.

(** What the loop over a stream gathers. *)
Record drained := {
  dr_deltas : list string;
  dr_finish : string;
  dr_tokens : Z
}.

Fixpoint drain (g : drained) (stream : list ChatChunk) : drained :=
  match stream with
  | [] => g
  | ch :: stream =>
      match ChErr ch with
      | Some _ => g
      | None =>
          drain {| dr_deltas := if String.eqb (ChDelta ch) "" then dr_deltas g else dr_deltas g ++ [ChDelta ch];
                   dr_finish := if String.eqb (ChFinishReason ch) "" then dr_finish g else ChFinishReason ch;
                   dr_tokens := match ChUsage ch with Some n => n | None => dr_tokens g end |} stream
      end
  end.

Definition drain_all : list ChatChunk → drained := drain {| dr_deltas := []; dr_finish := "stop"; dr_tokens := 0 |}.

Definition channel_tokens (g : drained) : Z :=
  if dr_tokens g <=? 0 then quarter (concat_strings (dr_deltas g)) else dr_tokens g.

Definition streamChannel (stream : list ChatChunk) : list sent * Z :=
  let g := drain_all stream in
  ([SentRole] ++ map SentContent (dr_deltas g) ++ [SentStop (dr_finish g)], channel_tokens g).

Definition collectChannel (stream : list ChatChunk) : list sent * Z :=
  let g := drain_all stream in
  ([SentWhole (concat_strings (dr_deltas g)) (dr_finish g) (channel_tokens g)], channel_tokens g).

(** ** The handler *)

Section handler.
Context (h : Handler) (loc : location) (cfg : SchedulerConfig) (rt : RuntimeParams).
Context {AEAD : Type} (Open : AEAD → list ascii → list ascii → result (list ascii))
        (NonceSize Overhead : nat) (cipher : AEAD).
Context (unmarshal : string → option (list string)) (decode : string → option json).
Context {R : Type} `{!RedisServer R, !RedisHashes R} (uuid : nat → string).

Abbreviation process := (proc (system R)).

(** The request: its context, its origin, and what the network answers. *)
Record Call_ := {
  ctx_done : option Z;
  ctx_err : goerr;
  ClientIP : string;
  UserAgent : string;
  upstream : Upstream;
  adapter_chat : Adapter → string → ChatRequest → string + list ChatChunk
}.
Context (c : Call_).
(** The image handler, if it was injected. *)
Context (Images : option (N → APIKey → N → Model → ChatCompletionsRequest → Log → process answer)).

(** The settlement and what follows it on both paths; [estTokens] are the
    tokens the limiter has granted. *)
Definition settle (b : hold) (m : Model) (tpmCap promptTokens estTokens completionTokens : Z) (ratio : Q) (rec : Log) :
    process Log :=
  let actual := ComputeChatCost (Some m) promptTokens completionTokens ratio in
  _ <~ one (on_db (Settle (h_user b) (h_key b) (h_amount b) actual (h_ref b) (h_what b +:+ " settle"))) ;;
  _ <~ one (at_now (TouchUsage (h_key b) (ClientIP c) actual)) ;;
  let diff := wrap64 (wrap64 (promptTokens + completionTokens) - wrap64 (promptTokens + estTokens)) in
  _ <~ (if Limiter h && (0 <? diff) then one (AdjustTPM (h_key b) tpmCap diff) else Done (Ok tt)) ;;
  Done (succeeded promptTokens completionTokens actual rec).

(** *** External channels *)

Fixpoint try_routes (adReq : ChatRequest) (routes : list Route) : process (option (Route * list ChatChunk)) :=
  match routes with
  | [] => Done None
  | rt :: routes =>
      match adapter_chat c (RtAdapter rt) (RtUpstreamModel rt) adReq with
      | inl err =>
          _ <~ one (at_now (MarkHealth (RtChannelID rt) (RtChannel rt) false err)) ;;
          try_routes adReq routes
      | inr stream => Done (Some (rt, stream))
      end
  end.

Definition est_tokens (req : ChatCompletionsRequest) : Z :=
  if ReqMaxTokens req <=? 0 then 2048 else ReqMaxTokens req.

(** Once the hold stands. *)
Definition serve_channel (b : hold) (m : Model) (req : ChatCompletionsRequest) (routes : list Route)
    (ratio : Q) (tpmCap promptTokens : Z) (rec : Log) : process answer :=
  let adReq := {| AdModel := Slug m; AdMessages := ReqMessages req; AdStream := ReqStream req;
                  AdTemperature := ReqTemperature req; AdTopP := ReqTopP req; AdMaxTokens := ReqMaxTokens req |} in
  selected <~ try_routes adReq routes ;;
  match selected with
  | None => refund_refuse b 502 "upstream_error" rec
  | Some (rt, stream) =>
      _ <~ one (at_now (MarkHealth (RtChannelID rt) (RtChannel rt) true "")) ;;
      let channelRatio := if Qle_bool (ChRatio (RtChannel rt)) 0 then 1%Q else ChRatio (RtChannel rt) in
      _ <~ one (NewString uuid) ;;
      let '(out, completionTokens) := if ReqStream req then streamChannel stream else collectChannel stream in
      rec <~ settle b m tpmCap promptTokens (est_tokens req) completionTokens (fmul ratio channelRatio) rec ;;
      Done (Replied out, rec)
  end.

(** [None]: not handled, the account pool is to serve the request. *)
Definition dispatchChatToChannel (keyID : N) (ak : APIKey) (mid : N) (m : Model) (req : ChatCompletionsRequest)
    (rec : Log) (ratio : Q) (rpmCap tpmCap : Z) : process (option answer) :=
  if negb (ChannelsMounted h) then Done None else
  r <~ one (on_db (Resolve Open NonceSize Overhead cipher (Slug m) "text")) ;;
  match r with
  | Err _ => Done None
  | Ok [] => Done None
  | Ok routes =>
      refID <~ one (NewString uuid) ;;
      let refID := match refID with Ok s => s | Err _ => "" end in
      let rec := with_model mid (with_request refID rec) in
      over <~ over_limit h (AllowRPM keyID rpmCap) ;;
      if (over : bool) then Done (Some (refuse 429 "rate_limit_rpm" rec)) else
      let promptTokens := roughEstimateTokens (ReqMessages req) in
      let estCost := EstimateChat (Some m) promptTokens (ReqMaxTokens req) ratio in
      over <~ over_limit h (AllowTPM keyID tpmCap (wrap64 (promptTokens + est_tokens req))) ;;
      if (over : bool) then Done (Some (refuse 429 "rate_limit_tpm" rec)) else
      let b := {| h_what := "chat"; h_user := KeyUserID ak; h_key := keyID; h_amount := estCost; h_ref := refID |} in
      a <~ prepay b rec (serve_channel b m req routes ratio tpmCap promptTokens rec) ;;
      Done (Some a)
  end.

(** *** The account pool *)

Definition markProxyFailureIfNeeded (l : Lease) (e : uerr) : process Lease :=
  if (ProxyID l =? 0)%N then Done l else
  if negb (isProxyTransportError e) then Done l else
  r <~ MarkProxyFailure l (proxyFailureSummary e) ;;
  Done r.2.

(** The lease goes on to be released. *)
Definition handleUpstreamErr (b : hold) (l : Lease) (e : uerr) (rec : Log) : process (answer * Lease) :=
  l <~ markProxyFailureIfNeeded l e ;;
  _ <~ (match e with
        | UpstreamError status _ _ =>
            if IsRateLimited status then one (MarkRateLimited cfg rt (LeaseAccountID l))
            else if IsUnauthorized status then one (MarkDead (LeaseAccountID l))
            else Done (Ok tt)
        | Failed _ => Done (Ok tt)
        end) ;;
  a <~ refund_refuse b 502 "upstream_error" rec ;;
  Done (a, l).

(** The proof of work: its token, or the refusal. *)
Definition prove (b : hold) (l : Lease) (cr : ChatRequirementsResp) (rec : Log) : process (answer + string) :=
  if PowRequired cr then
    match SolveProof (upstream c) with
    | None =>
        _ <~ one (MarkWarned cfg rt (LeaseAccountID l)) ;;
        a <~ refund_refuse b 503 "pow_timeout" rec ;; Done (inl a)
    | Some proofToken =>
        if String.eqb proofToken "" then
          _ <~ one (MarkWarned cfg rt (LeaseAccountID l)) ;;
          a <~ refund_refuse b 503 "pow_failed" rec ;; Done (inl a)
        else Done (inr proofToken)
    end
  else Done (inr "").

Definition upstream_model (m : Model) (cr : ChatRequirementsResp) : string :=
  let s := mapUpstreamModelSlug (if String.eqb (UpstreamModelSlug m) "" then "auto" else UpstreamModelSlug m) in
  if IsFreeAccount cr && negb (String.eqb s "auto") then "auto" else s.

Definition converse (b : hold) (l : Lease) (m : Model) (req : ChatCompletionsRequest) (ratio : Q)
    (tpmCap promptTokens : Z) (cr : ChatRequirementsResp) (proofToken : string) (rec : Log) : process (answer * Lease) :=
  let chatOpt := {| FUpstreamModel := upstream_model m cr; FMessages := ReqMessages req; FChatToken := Token cr;
                    FProofToken := proofToken; FConduitToken := "" |} in
  let prepared := PrepareFChat (upstream c) chatOpt in
  l <~ (match prepared with inl e => markProxyFailureIfNeeded l e | inr _ => Done l end) ;;
  let chatOpt := {| FUpstreamModel := upstream_model m cr; FMessages := ReqMessages req; FChatToken := Token cr;
                    FProofToken := proofToken;
                    FConduitToken := match prepared with inl _ => "" | inr conduit => conduit end |} in
  match StreamFChat (upstream c) chatOpt with
  | inl e => handleUpstreamErr b l e rec
  | inr stream =>
      _ <~ one (NewString uuid) ;;
      let '(out, completionTokens) :=
        if ReqStream req then streamOpenAI decode stream (IsFreeAccount cr)
        else collectOpenAI decode stream (IsFreeAccount cr) in
      rec <~ settle b m tpmCap promptTokens (est_tokens req) completionTokens ratio rec ;;
      Done (Replied out, rec, l)
  end.

(** From the lease to the answer. *)
Definition with_lease (b : hold) (l : Lease) (m : Model) (req : ChatCompletionsRequest) (ratio : Q)
    (tpmCap promptTokens : Z) (rec : Log) : process (answer * Lease) :=
  cookies <~ one (on_db (DecryptCookies Open NonceSize Overhead cipher (LeaseAccountID l))) ;;
  let opts := {| OptAuthToken := LeaseAuthToken l; OptDeviceID := DeviceID l; OptSessionID := SessionID l;
                 OptProxyURL := ProxyURL l; OptCookies := match cookies with Ok s => s | Err _ => "" end;
                 OptTimeout := upstreamTimeout h |} in
  match new_client (upstream c) opts with
  | Some e =>
      l <~ markProxyFailureIfNeeded l e ;;
      a <~ refund_refuse b 500 "upstream_init_error" rec ;;
      Done (a, l)
  | None =>
      match ChatRequirementsV2 (upstream c) with
      | inl e => handleUpstreamErr b l e rec
      | inr cr =>
          p <~ prove b l cr rec ;;
          match p with
          | inl a => Done (a, l)
          | inr proofToken => converse b l m req ratio tpmCap promptTokens cr proofToken rec
          end
      end
  end.

(** Once the hold stands; the release is deferred. *)
Definition serve_pool (b : hold) (m : Model) (req : ChatCompletionsRequest) (ratio : Q) (tpmCap promptTokens : Z)
    (rec : Log) : process answer :=
  r <~ Dispatch loc cfg rt Open NonceSize Overhead cipher uuid (ctx_done c) (ctx_err c) TypeChat ;;
  match r with
  | Some (Ok l) =>
      x <~ with_lease b l m req ratio tpmCap promptTokens (with_account (LeaseAccountID l) rec) ;;
      _ <~ LeaseRelease loc x.2 ;;
      Done x.1
  | _ => refund_refuse b 503 "no_account_available" rec
  end.

(** *** The whole of it *)

Definition chat_with (keyID : N) (ak : APIKey) (mid : N) (m : Model) (req : ChatCompletionsRequest) (refID : string)
    (rec : Log) : process answer :=
  if String.eqb (ModelType m) TypeImage then
    match Images with
    | Some handleChatAsImage => handleChatAsImage keyID ak mid m req rec
    | None => Done (refuse 501 "image_not_wired" rec)
    end
  else
  let rec := with_model mid rec in
  lim <~ limits h ak ;;
  let '(ratio, rpmCap, tpmCap) := lim : Q * Z * Z in
  over <~ over_limit h (AllowRPM keyID rpmCap) ;;
  if (over : bool) then Done (refuse 429 "rate_limit_rpm" rec) else
  handled <~ dispatchChatToChannel keyID ak mid m req rec ratio rpmCap tpmCap ;;
  match handled with
  | Some a => Done a
  | None =>
      let promptTokens := roughEstimateTokens (ReqMessages req) in
      let estCost := EstimateChat (Some m) promptTokens (ReqMaxTokens req) ratio in
      over <~ over_limit h (AllowTPM keyID tpmCap (wrap64 (promptTokens + est_tokens req))) ;;
      if (over : bool) then Done (refuse 429 "rate_limit_tpm" rec) else
      let b := {| h_what := "chat"; h_user := KeyUserID ak; h_key := keyID; h_amount := estCost; h_ref := refID |} in
      prepay b rec (serve_pool b m req ratio tpmCap promptTokens rec)
  end.

Definition chat_body (keyID : N) (ak : APIKey) (req : ChatCompletionsRequest) (refID : string) (rec : Log) :
    process answer :=
  if negb (ModelAllowed unmarshal ak (ReqModel req)) then Done (refuse 403 "model_not_allowed" rec) else
  r <~ BySlug (ReqModel req) ;;
  match r.1 with
  | Ok (mid, m) =>
      if ModelEnabled m then chat_with keyID ak mid m req refID rec
      else Done (refuse 400 "model_not_found" rec)
  | Err _ => Done (refuse 400 "model_not_found" rec)
  end.

(** [key]: what the middleware stored; [bound]: the decoded body, if it is
    valid. *)
Definition ChatCompletions (key : option (N * APIKey)) (bound : option ChatCompletionsRequest) :
    process (outcome * option Log) :=
  startAt <~ one Now ;;
  match key, bound with
  | None, _ => Done (Refused 401 "missing_api_key", None)
  | Some _, None => Done (Refused 400 "invalid_request_error", None)
  | Some (keyID, ak), Some req =>
      refID <~ one (NewString uuid) ;;
      let refID := match refID with Ok s => s | Err _ => "" end in
      let rec := {| LogUserID := KeyUserID ak; LogKeyID := keyID; LogModelID := 0; LogAccountID := 0;
                    LogRequestID := refID; LogType := "chat"; InputTokens := 0; OutputTokens := 0; CacheReadTokens := 0;
                    CacheWriteTokens := 0; ImageCount := 0; CreditCost := 0; DurationMs := 0; LogStatus := "";
                    ErrorCode := ""; LogIP := ClientIP c; LogUA := UserAgent c; LogCreatedAt := zero_time |} in
      a <~ chat_body keyID ak req refID rec ;;
      now <~ one Now ;;
      let elapsed := match startAt, now with Ok s, Ok t => Z.quot (t - s) 1000000 | _, _ => 0 end in
      Done (a.1, Some (closed elapsed a.2))
  end.
End handler.
