(* ===== verification/ChatBilling.v ===== *)
(** * What a chat request costs (internal/gateway/chat.go, chat_channel.go)

    The handler of chat completions tells a story, whatever happens to it, and
    when nothing fails the caller pays what the usage log says
    ([pays_what_is_logged]).  The theorem on the stories of all requests is in
    ImageBilling, since an image model sends a chat request to the image
    handler. *)

From S2P Require Import Prelude GoStrings GoTime Float Sql Schema Crypto Ledger Billing Models Users System Lock Proc ProxyPool Account Pricing ApiKey Channels Books RateLimit Caches Upstream Scheduler Json Delta Gateway Stories Chat.
From Stdlib Require Import QArith.

#[local] Open Scope Z_scope.

(** ** The handler tells a story *)

Section handler.
Context (h : Handler) (loc : location) (cfg : SchedulerConfig) (rt : RuntimeParams).
Context {AEAD : Type} (Open : AEAD → list ascii → list ascii → result (list ascii))
        (NonceSize Overhead : nat) (cipher : AEAD).
Context (unmarshal : string → option (list string)) (decode : string → option json).
Context {R : Type} `{!RedisServer R, !RedisHashes R} (uuid : nat → string) (c : Call_).
Hypothesis Httl : 0 < lock_ttl cfg.

Lemma try_routes_aside req routes : aside (try_routes (R:=R) c req routes).
Proof.
  induction routes as [|r routes IH]; cbn [try_routes]; [done|]. destruct (adapter_chat c _ _ _); [|done].
  aside_step. exact IH.
Qed.
Lemma markProxy_aside l e : aside (markProxyFailureIfNeeded (R:=R) l e).
Proof.
  unfold markProxyFailureIfNeeded. repeat first [apply MarkProxyFailure_aside|aside_step].
Qed.

Context (who : N → N → Prop).

(** What an answer leaves in the books is what its record says. *)
Abbreviation told u k ph p := (tells uuid who (λ x a, billed uuid u k x a.2) ph p).

Section hold.
Context (n : nat) (b : hold) (Href : h_ref b = uuid n) (Hwho : who (h_user b) (h_key b)).
Abbreviation mine st p := (told (h_user b) (h_key b) (Owns n st) p).

Lemma settle_tells st m tpm p e t ratio rec :
  standing b st →
  tells uuid who (billed uuid (h_user b) (h_key b)) (Owns n st) (settle (R:=R) h c b m tpm p e t ratio rec).
Proof.
  intros Hst. unfold settle. cbn [pbind one]. eapply tells_settle; [done..|]. intros ph _ Hpaid. cbn [pbind].
  apply tells_call; [apply _|]. intros _. cbn [pbind].
  destruct (Limiter h && _); cbn [pbind one]; [apply tells_call; [apply _|]; intros _|]; by apply Hpaid.
Qed.

Lemma serve_channel_tells st m req routes ratio tpm p rec :
  standing b st → mine st (serve_channel (R:=R) h uuid c b m req routes ratio tpm p rec).
Proof.
  intros Hst. unfold serve_channel. apply tells_after; [apply try_routes_aside|].
  intros [[r stream]|]; [|by apply refund_refuse_tells]. cbn [pbind one].
  apply tells_call; [apply _|]. intros _. cbn [pbind]. apply tells_call; [apply _|]. intros _. cbn [pbind].
  destruct (if ReqStream req then _ else _) as [out t]. eapply tells_pbind; [by apply settle_tells|done].
Qed.

Lemma handleUpstreamErr_tells st l e rec :
  standing b st →
  tells uuid who (λ ph x, billed uuid (h_user b) (h_key b) ph x.1.2) (Owns n st) (handleUpstreamErr (R:=R) cfg rt b l e rec).
Proof.
  intros Hst. unfold handleUpstreamErr. apply tells_after; [apply markProxy_aside|]. intros l'.
  apply tells_after; [repeat aside_step|]. intros _. eapply tells_pbind; [by apply refund_refuse_tells|done].
Qed.

Lemma prove_tells st l cr rec :
  standing b st →
  tells uuid who (λ ph r, match r with inl a => billed uuid (h_user b) (h_key b) ph a.2 | inr _ => ph = Owns n st end) (Owns n st)
    (prove (R:=R) cfg rt c b l cr rec).
Proof.
  intros Hst. unfold prove. destruct (PowRequired cr); [|done].
  assert (∀ code, tells uuid who
    (λ ph (r : answer + string), match r with inl a => billed uuid (h_user b) (h_key b) ph a.2 | inr _ => ph = Owns n st end) (Owns n st)
    (_ <~ one (MarkWarned (R:=R) cfg rt (LeaseAccountID l)) ;;
     a <~ refund_refuse b 503 code rec ;; Done (inl a))) as Hw.
  { intros code. cbn [pbind one]. apply tells_call; [apply _|]. intros _. cbn [pbind].
    eapply tells_pbind; [by apply refund_refuse_tells|done]. }
  destruct (SolveProof _) as [t|]; [|apply Hw]. destruct (String.eqb t ""); [apply Hw|done].
Qed.

Lemma converse_tells st l m req ratio tpm p cr t rec :
  standing b st →
  tells uuid who (λ ph x, billed uuid (h_user b) (h_key b) ph x.1.2) (Owns n st)
    (converse (R:=R) h cfg rt decode uuid c b l m req ratio tpm p cr t rec).
Proof.
  intros Hst. unfold converse. apply tells_after.
  { destruct (PrepareFChat _ _); [apply markProxy_aside|done]. }
  intros l'. destruct (StreamFChat _ _) as [e|stream]; [by apply handleUpstreamErr_tells|]. cbn [pbind one].
  apply tells_call; [apply _|]. intros _. cbn [pbind].
  destruct (if ReqStream req then _ else _) as [out k]. eapply tells_pbind; [by apply settle_tells|done].
Qed.

Lemma with_lease_tells st l m req ratio tpm p rec :
  standing b st →
  tells uuid who (λ ph x, billed uuid (h_user b) (h_key b) ph x.1.2) (Owns n st)
    (with_lease (R:=R) h cfg rt Open NonceSize Overhead cipher decode uuid c b l m req ratio tpm p rec).
Proof.
  intros Hst. unfold with_lease. cbn [pbind one]. apply tells_call; [apply _|]. intros cookies. cbn [pbind].
  destruct (new_client _ _) as [e|].
  - apply tells_after; [apply markProxy_aside|]. intros l'. eapply tells_pbind; [by apply refund_refuse_tells|done].
  - destruct (ChatRequirementsV2 _) as [e|cr]; [by apply handleUpstreamErr_tells|].
    eapply tells_pbind; [by apply prove_tells|]. intros ph [a|t] Hph; [done|]. rewrite Hph. by apply converse_tells.
Qed.

Lemma serve_pool_tells st m req ratio tpm p rec :
  standing b st →
  mine st (serve_pool (R:=R) h loc cfg rt Open NonceSize Overhead cipher decode uuid c b m req ratio tpm p rec).
Proof.
  intros Hst. unfold serve_pool. apply tells_after; [by apply Dispatch_aside|].
  intros [[l|e]|]; [|by apply refund_refuse_tells..].
  eapply tells_pbind; [by apply with_lease_tells|]. intros ph x Hx. apply tells_after; [by apply (LeaseRelease_aside loc uuid)|done].
Qed.
End hold.

Context (keyID : N) (ak : APIKey) (Hwho : who (KeyUserID ak) keyID).
Abbreviation his ph p := (told (KeyUserID ak) keyID ph p).

Lemma dispatchChat_tells n mid m req rec ratio rpm tpm :
  tells uuid who (λ ph r, match r with None => ph = Owns n [] | Some a => billed uuid (KeyUserID ak) keyID ph a.2 end) (Owns n [])
    (dispatchChatToChannel (R:=R) h Open NonceSize Overhead cipher uuid c keyID ak mid m req rec ratio rpm tpm).
Proof.
  unfold dispatchChatToChannel. destruct (negb _); [done|]. cbn [pbind one].
  apply tells_call; [apply _|]. intros [[|r routes]|e]; cbn [pbind]; [done| |done].
  apply tells_draw; [done|]. intros n'. cbn [pbind].
  apply tells_after; [apply over_limit_aside; apply _|]. intros []; [apply billed_none|].
  apply tells_after; [apply over_limit_aside; apply _|]. intros []; [apply billed_none|].
  eapply tells_pbind; [|by intros ph a Ha; exact Ha].
  apply (tells_prepay uuid who n'); [done|done| |intros; apply billed_none].
  intros st Hst. by_hold serve_channel_tells.
Qed.

Context (Images : option (N → APIKey → N → Model → ChatCompletionsRequest → Log → proc (system R) answer)).
Hypothesis HImages : ∀ f, Images = Some f → ∀ n mid m req rec, his (Owns n []) (f keyID ak mid m req rec).

Lemma chat_with_tells n mid m req rec :
  his (Owns n [])
    (chat_with (R:=R) h loc cfg rt Open NonceSize Overhead cipher decode uuid c Images keyID ak mid m req (uuid n) rec).
Proof.
  unfold chat_with. destruct (String.eqb _ _).
  { destruct Images as [f|] eqn:E; [by apply HImages|apply billed_none]. }
  apply tells_after; [apply limits_aside|]. intros [[ratio rpm] tpm].
  apply tells_after; [apply over_limit_aside; apply _|]. intros []; [apply billed_none|].
  eapply tells_pbind; [apply dispatchChat_tells|]. intros ph [a|] Hph; [done|]. subst ph.
  apply tells_after; [apply over_limit_aside; apply _|]. intros []; [apply billed_none|].
  apply (tells_prepay uuid who n); [done|done| |intros; apply billed_none]. intros st Hst. by_hold serve_pool_tells.
Qed.

Lemma ChatCompletions_tells bound :
  tells uuid who (λ ph a, match a.2 with None => ph = Idle | Some rec => billed uuid (KeyUserID ak) keyID ph rec end) Idle
    (ChatCompletions (R:=R) h loc cfg rt Open NonceSize Overhead cipher unmarshal decode uuid c Images (Some (keyID, ak)) bound).
Proof.
  unfold ChatCompletions. cbn [pbind one]. apply tells_call; [apply _|]. intros start. cbn [pbind].
  destruct bound as [req|]; try done.
  apply tells_draw; [done|]. intros n. cbn [pbind].
  eapply (tells_pbind _ _ (λ ph a, billed uuid (KeyUserID ak) keyID ph a.2)).
  - unfold chat_body. destruct (negb _); [apply billed_none|]. apply tells_after; [apply BySlug_aside|].
    intros [[[mid m]|e] started]; [|apply billed_none]. cbn [fst].
    destruct (ModelEnabled m); [apply chat_with_tells|apply billed_none].
  - intros ph a Ha. apply tells_call; [apply _|]. intros ?. by apply billed_closed.
Qed.

Lemma ChatCompletions_anonymous bound :
  tells uuid who (λ ph a, a.2 = None) Idle
    (ChatCompletions (R:=R) h loc cfg rt Open NonceSize Overhead cipher unmarshal decode uuid c Images None bound).
Proof. unfold ChatCompletions. cbn [pbind one]. by apply tells_call; [apply _|]. Qed.
End handler.

Section money.
Context (d0 : database) (b : hold) (bal fro : Z).
Context (h : Handler) (loc : location) (cfg : SchedulerConfig) (rt : RuntimeParams).
Context {AEAD : Type} (Open : AEAD → list ascii → list ascii → result (list ascii))
        (NonceSize Overhead : nat) (cipher : AEAD).
Context (decode : string → option json).
Context {R : Type} `{!RedisServer R, !RedisHashes R} (uuid : nat → string) (c : Call_).
Hypotheses (Hbal : 0 ≤ bal) (Hibal : in_i64 bal) (Hfro : 0 ≤ fro) (Hifro : in_i64 fro)
  (Hamt : 0 ≤ h_amount b) (Httl : 0 < lock_ttl cfg) (Hiamt : in_i64 (h_amount b)).

Abbreviation holding := (Stories.holding d0 b bal fro).
Abbreviation settled := (Stories.settled d0 b bal fro).
Abbreviation paid := (Stories.paid d0 b bal fro).

Lemma settle_paid m tpm p e t ratio rec :
  runs holding (settle (R:=R) h c b m tpm p e t ratio rec)
    (λ rec' d, LogStatus rec' = StatusSuccess ∧ settled (Z.max 0 (CreditCost rec')) d).
Proof.
  unfold settle. set (cost := ComputeChatCost (Some m) p t ratio).
  assert (in_i64 cost) as Hic.
  { unfold cost, ComputeChatCost, to_int. case_bool_decide; [done|]. unfold in_i64, i64_min, i64_max. lia. }
  eapply runs_bind with (Q := λ _, settled (Z.max 0 cost)); [apply runs_db; [apply _|intros d; by apply Settle_settles]|].
  intros ?. eapply runs_bind; [apply runs_aside; [repeat aside_step|apply purse_books]|].
  intros ?. eapply runs_bind; [apply runs_aside; [repeat aside_step|apply purse_books]|].
  intros ?. by apply runs_done.
Qed.

Lemma serve_channel_paid m req routes ratio tpm p rec :
  runs holding (serve_channel (R:=R) h uuid c b m req routes ratio tpm p rec) paid.
Proof.
  unfold serve_channel. eapply runs_bind; [apply runs_aside; [apply try_routes_aside|apply purse_books]|].
  intros [[r stream]|]; [|by apply refund_refuse_paid].
  eapply runs_bind; [apply runs_aside; [repeat aside_step|apply purse_books]|]. intros ?.
  eapply runs_bind; [apply runs_aside; [repeat aside_step|apply purse_books]|]. intros ?.
  destruct (if ReqStream req then _ else _) as [out t]. by apply served_paid; [|apply settle_paid].
Qed.

Lemma handleUpstreamErr_paid l e rec :
  runs holding (handleUpstreamErr (R:=R) cfg rt b l e rec) (λ x, paid x.1).
Proof.
  unfold handleUpstreamErr. eapply runs_bind; [apply runs_aside; [apply markProxy_aside|apply purse_books]|]. intros l'.
  eapply runs_bind; [apply runs_aside; [repeat aside_step|apply purse_books]|]. intros ?.
  eapply runs_bind; [by apply refund_refuse_paid|]. intros ?. by apply runs_done.
Qed.

Lemma prove_paid l cr rec :
  runs holding (prove (R:=R) cfg rt c b l cr rec) (λ r, match r with inl a => paid a | inr _ => holding end).
Proof.
  unfold prove. destruct (PowRequired cr); [|by apply runs_done].
  assert (∀ code, runs holding (_ <~ one (MarkWarned (R:=R) cfg rt (LeaseAccountID l)) ;;
     a <~ refund_refuse b 503 code rec ;; Done (inl (B:=string) a)) (λ r, match r with inl a => paid a | inr _ => holding end)) as Hw.
  { intros code. eapply runs_bind; [apply runs_aside; [repeat aside_step|apply purse_books]|]. intros ?.
    eapply runs_bind; [by apply refund_refuse_paid|]. intros ?. by apply runs_done. }
  destruct (SolveProof _) as [t|]; [|apply Hw]. destruct (String.eqb t ""); [apply Hw|by apply runs_done].
Qed.

Lemma converse_paid l m req ratio tpm p cr t rec :
  runs holding (converse (R:=R) h cfg rt decode uuid c b l m req ratio tpm p cr t rec) (λ x, paid x.1).
Proof.
  unfold converse. eapply runs_bind; [apply runs_aside; [|apply purse_books]|].
  { destruct (PrepareFChat _ _); [apply markProxy_aside|done]. }
  intros l'. destruct (StreamFChat _ _) as [e|stream]; [apply handleUpstreamErr_paid|].
  eapply runs_bind; [apply runs_aside; [repeat aside_step|apply purse_books]|]. intros ?.
  destruct (if ReqStream req then _ else _) as [out k]. eapply runs_bind; [apply settle_paid|]. intros ?. by apply runs_done.
Qed.

Lemma serve_pool_paid m req ratio tpm p rec :
  runs holding
    (serve_pool (R:=R) h loc cfg rt Open NonceSize Overhead cipher decode uuid c b m req ratio tpm p rec) paid.
Proof.
  unfold serve_pool. eapply runs_bind; [apply runs_aside; [by apply Dispatch_aside|apply purse_books]|].
  intros [[l|e]|]; [|by apply refund_refuse_paid..].
  eapply runs_bind with (Q := λ x, paid x.1).
  - unfold with_lease. eapply runs_bind; [apply runs_aside; [repeat aside_step|apply purse_books]|]. intros cookies.
    destruct (new_client _ _) as [e|].
    + eapply runs_bind; [apply runs_aside; [apply markProxy_aside|apply purse_books]|]. intros l'.
      eapply runs_bind; [by apply refund_refuse_paid|]. intros ?. by apply runs_done.
    + destruct (ChatRequirementsV2 _) as [e|cr]; [apply handleUpstreamErr_paid|].
      eapply runs_bind; [apply prove_paid|]. intros [a|t]; [by apply runs_done|apply converse_paid].
  - intros x. eapply runs_bind; [apply runs_aside|]; [by apply (LeaseRelease_aside loc uuid)| |intros ?; by apply runs_done].
    intros d d' Hb. unfold Stories.paid. destruct (served x.1.1); (intros [H1 H2]; split; [done|by eapply purse_books]).
Qed.

End money.

Section theorems.
Context (h : Handler) (loc : location) (cfg : SchedulerConfig) (rt : RuntimeParams).
Context {AEAD : Type} (Open : AEAD → list ascii → list ascii → result (list ascii))
        (NonceSize Overhead : nat) (cipher : AEAD).
Context (decode : string → option json).
Context {R : Type} `{!RedisServer R, !RedisHashes R} (uuid : nat → string) (c : Call_).

(** C6: the caller pays what the usage log says.  Where no call fails, a
    request that holds its estimate and is then served, by the account pool or
    by a channel, whatever the upstream answers, ends in one of two ways: it is
    answered, logged as a success, and the available credits fell by exactly the
    logged cost; or it is refused, logged as a failure, and the wallet is what
    it was.  The frozen part is what it was in both, and no other wallet
    moves. *)
Theorem pays_what_is_logged b bal fro m req routes ratio tpm p rec k w a w' :
  0 < lock_ttl cfg → 0 ≤ bal → in_i64 bal → 0 ≤ fro → in_i64 fro → 0 ≤ h_amount b → in_i64 (h_amount b) →
  k = serve_pool h loc cfg rt Open NonceSize Overhead cipher decode uuid c b m req ratio tpm p rec ∨
    k = serve_channel h uuid c b m req routes ratio tpm p rec →
  w_faults w = [] → wallet_is (sys_db (w_db w)) (h_user b) bal fro →
  exec_proc (prepay b rec k) w = (a, w') →
  charged_as_logged (h_user b) bal fro a (sys_db (w_db w')) ∧ ∀ v, v ≠ h_user b → users (sys_db (w_db w')) !! v = users (sys_db (w_db w)) !! v.
Proof.
  intros Httl Hbal Hib Hfro Hif Hamt Hia Hk Hw Hp Hex.
  assert (runs (purse (sys_db (w_db w)) b bal fro) (prepay b rec k) (paid (sys_db (w_db w)) b bal fro)) as Hr.
  { apply prepay_paid; try done. destruct Hk as [->| ->]; [by apply serve_pool_paid|by apply serve_channel_paid]. }
  destruct (Hr w Hw) as [_ H]; [by split|]. rewrite Hex in H. unfold paid, settled, purse in H. cbn [fst snd] in H.
  unfold charged_as_logged. destruct (served a.1); cbn in *; rewrite ?Z.sub_0_r in H; tauto.
Qed.

(** The first route whose adapter answers. *)
Fixpoint pick (adReq : ChatRequest) (routes : list Route) : option (Route * list ChatChunk) :=
  match routes with
  | [] => None
  | r :: routes =>
      match adapter_chat c (RtAdapter r) (RtUpstreamModel r) adReq with
      | inl _ => pick adReq routes
      | inr stream => Some (r, stream)
      end
  end.

Lemma try_routes_pick adReq routes w : (exec_proc (try_routes (R:=R) c adReq routes) w).1 = pick adReq routes.
Proof.
  revert w. induction routes as [|r routes IH]; intros w; cbn [try_routes pick]; [done|].
  destruct (adapter_chat c _ _ adReq); [|done]. rewrite exec_pbind_one. apply IH.
Qed.

(** C31: a channel that fails costs the client nothing as long as another
    answers.  The client gets the reply of the first of the routes, in their
    order, whose upstream answers, and an error only when none does, whatever
    happens to the database and to Redis in between. *)
Theorem channel_failover b m req routes ratio tpm p rec w :
  (exec_proc (serve_channel (R:=R) h uuid c b m req routes ratio tpm p rec) w).1.1 =
  match pick {| AdModel := Slug m; AdMessages := ReqMessages req; AdStream := ReqStream req;
                AdTemperature := ReqTemperature req; AdTopP := ReqTopP req; AdMaxTokens := ReqMaxTokens req |} routes with
  | Some (r, stream) => Replied (if ReqStream req then streamChannel stream else collectChannel stream).1
  | None => Refused 502 "upstream_error"
  end.
Proof.
  unfold serve_channel. rewrite exec_pbind, try_routes_pick.
  destruct (pick _ routes) as [[r stream]|].
  - rewrite !exec_pbind_one. destruct (if ReqStream req then _ else _) as [out t]. by rewrite exec_pbind.
  - unfold refund_refuse, refund. by rewrite exec_pbind.
Qed.
End theorems.

(** ** A request, call by call *)

Definition chat_model : Model := {|
  Slug := "gpt-5"; ModelType := "chat"; UpstreamModelSlug := "gpt-5";
  InputPricePer1M := 2500000; OutputPricePer1M := 10000000; CacheReadPricePer1M := 0; ImagePricePerCall := 0;
  ImagePricePerCall2K := 0; ImagePricePerCall4K := 0; SupportsMultiImage := true; SupportsOutputSize := true;
  Description := ""; ModelEnabled := true; ModelDeletedAt := None |}.
Definition chat_db : database :=
  with_models (λ _, {[ 1%N := chat_model ]}) (with_users (λ _, {[ 7%N := sample_user 20000 0 ]}) pool_db).
Definition chat_handler : Handler := {|
  GroupTTL := None; Limiter := true; ChannelsMounted := false; GatewayUpstreamTimeoutSec := None |}.
Definition chat_uuid (n : nat) : string := test_uuid 0 n.
Definition chat_world (fs : list bool) : world (system store) :=
  World (System chat_db empty_store (2 * second) [3; 5; 400000000; 7]%N 0 Models.NewRegistry Users.empty_cache) fs.
Definition chat_key : N * APIKey := (3%N, {|
  KeyUserID := 7; KeyName := "k"; KeyPrefix := "sk-"; KeyHash := ""; QuotaLimit := 0; QuotaUsed := 0;
  AllowedModels := None; AllowedIPs := None; KeyRPM := 5; KeyTPM := 100000; KeyExpiresAt := None; KeyEnabled := true;
  KeyLastUsedAt := None; KeyLastUsedIP := ""; KeyDeletedAt := None |}).
Definition chat_request : ChatCompletionsRequest := {|
  ReqModel := "gpt-5"; ReqMessages := [{| Role := "user"; Content := "hi there, what is the weather like?" |}];
  ReqStream := false; ReqTemperature := 1; ReqTopP := 1; ReqMaxTokens := 1000 |}.
Definition chat_upstream : Upstream := {|
  new_client := λ _, None;
  ChatRequirementsV2 := inr {| Token := "t"; Persona := "chatgpt-paid"; PowRequired := true |};
  SolveProof := Some "proof";
  PrepareFChat := λ _, inr "conduit";
  StreamFChat := λ _, inr [EvData "" "1"; EvData "" "2"; EvData "" "3"; EvData "" "4"; EvData "" "[DONE]"] |}.
Definition chat_call : Call_ := {|
  ctx_done := None; ctx_err := EMsg "canceled"; ClientIP := "10.0.0.1"; UserAgent := "curl";
  upstream := chat_upstream; adapter_chat := λ a _ _, if String.eqb (AdAPIKey a) "bad" then inl "503"
    else inr [{| ChDelta := "Hello"; ChFinishReason := ""; ChUsage := None; ChErr := None |};
              {| ChDelta := ""; ChFinishReason := "length"; ChUsage := Some 40; ChErr := None |}] |}.
Definition chat_run : proc (system store) (outcome * option Log) :=
  ChatCompletions chat_handler UTC test_cfg test_rt toy_open 12 16 tt (λ _, None) sample_decode chat_uuid chat_call None
    (Some chat_key) (Some chat_request).

Example chat_run_replies :
  (exec_proc chat_run (chat_world [])).1.1 = Replied [SentWhole "Hello!" "stop" 2].
Proof. by vm_compute. Qed.
Example chat_run_story :
  about (chat_uuid 0) (sys_db (w_db (exec_proc chat_run (chat_world [])).2)) =
  [tx 7 3 KindFreeze (- 10037) 9963 (chat_uuid 0) "chat prepay";
   tx 7 3 KindUnfreeze 10037 19943 (chat_uuid 0) "chat settle";
   tx 7 3 KindConsume (- 57) 19943 (chat_uuid 0) "chat settle"].
Proof. by vm_compute. Qed.

Definition bad_route : Route := {|
  RtChannelID := 1; RtChannel := {| ChName := "a"; ChType := "openai"; BaseURL := ""; APIKeyEnc := ""; ChEnabled := true;
    ChPriority := 1; Weight := 1; TimeoutS := 60; ChRatio := 2; Extra := None; ChStatus := StatusHealthy; FailCount := 0;
    LastTestAt := None; LastTestOK := None; LastTestError := ""; ChRemark := ""; ChDeletedAt := None |};
  RtMapping := {| ChannelID := 1; LocalModel := "gpt-5"; UpstreamModel := "up"; Modality := "text"; MapEnabled := true; MapPriority := 1 |};
  RtUpstreamModel := "up";
  RtAdapter := {| AdType := "openai"; AdBaseURL := ""; AdAPIKey := "bad"; AdTimeoutS := 60; AdExtra := "" |} |}.
Definition good_route : Route := {|
  RtChannelID := 2; RtChannel := RtChannel bad_route; RtMapping := RtMapping bad_route; RtUpstreamModel := "up";
  RtAdapter := {| AdType := "openai"; AdBaseURL := ""; AdAPIKey := "good"; AdTimeoutS := 60; AdExtra := "" |} |}.
Definition chat_hold : hold := {| h_what := "chat"; h_user := 7; h_key := 3; h_amount := 10037; h_ref := "r" |}.
Definition chat_log : Log := {|
  LogUserID := 7; LogKeyID := 3; LogModelID := 1; LogAccountID := 0; LogRequestID := "r"; LogType := "chat"; InputTokens := 0;
  OutputTokens := 0; CacheReadTokens := 0; CacheWriteTokens := 0; ImageCount := 0; CreditCost := 0; DurationMs := 0;
  LogStatus := ""; ErrorCode := ""; LogIP := ""; LogUA := ""; LogCreatedAt := zero_time |}.
Definition channel_run : answer * world (system store) :=
  exec_proc (prepay chat_hold chat_log (serve_channel chat_handler chat_uuid chat_call chat_hold chat_model chat_request
    [bad_route; good_route] 1 100000 15 chat_log)) (chat_world []).

(** The second channel answers, at twice the price. *)
Lemma pays_what_is_logged_witness :
  channel_run.1.1 = Replied [SentWhole "Hello" "length" 40] ∧
  wallet_is (sys_db (w_db channel_run.2)) 7 (20000 - 874) 0.
Proof.
  assert (H1 : channel_run.1 = (Replied [SentWhole "Hello" "length" 40], succeeded 15 40 874 chat_log)) by (by vm_compute).
  assert (Hp : wallet_is (sys_db (w_db (chat_world []))) (h_user chat_hold) 20000 0).
  { exists (sample_user 20000 0). split_and!; by vm_compute. }
  destruct channel_run as [a w'] eqn:Hex. unfold channel_run in Hex. cbn [fst snd] in *. subst a. split; [done|].
  assert (H0 : w_faults (chat_world []) = []) by done.
  revert Hp H0 Hex. generalize (chat_world []). intros w Hp H0 Hex.
  assert (Httl : 0 < lock_ttl test_cfg) by by vm_compute.
  eapply (pays_what_is_logged chat_handler UTC test_cfg test_rt toy_open 12 16 tt sample_decode chat_uuid chat_call) in Hex;
    [|exact Httl| | | | | | |right; reflexivity|exact H0|exact Hp]; [exact (proj2 (proj1 Hex))|by vm_compute..].
Defined.
