(* ===== verification/Prompts.v ===== *)
(** * The size and the prompt of an image request (internal/gateway/images.go)

    How many images of which size a request asks for, the aspect ratio its
    prompt is made to begin with, and the hint on text that is appended. *)

From S2P Require Import Prelude GoStrings Schema.
From Stdlib Require Import Znumtheory.

#[local] Open Scope Z_scope.

(** ** Count and size *)

Definition normalizeImageCountByModel (m : Model) (n : Z) : Z :=
  let n := if n <=? 0 then 1 else n in
  let n := if 4 <? n then 4 else n in
  if SupportsMultiImage m then n else 1.

Definition normalizeImageSize (size : string) : string := if String.eqb size "" then "1024x1024" else size.

Definition normalizeImageRequestByModel (m : Model) (n : Z) (size : string) : Z * string :=
  let n := normalizeImageCountByModel m n in
  if SupportsOutputSize m then (n, normalizeImageSize size) else (n, "").

Definition normalizeLocalImageRequestByModel (m : Model) (n : Z) (size : string) : Z * string :=
  (normalizeImageCountByModel m n, normalizeImageSize size).

(** ** The aspect ratio *)

Definition canonicalImageAspectRatios : list (Z * Z) :=
  [(1, 1); (5, 4); (9, 16); (16, 9); (4, 3); (3, 2); (4, 5); (3, 4); (2, 3); (21, 9)].

(** Euclid's loop; every turn but the first halves the sum of two, so that
    128 are enough for 64 bits. *)
Fixpoint gcd_loop (fuel : nat) (a b : Z) : Z :=
  match fuel with
  | O => a
  | S fuel => if b =? 0 then (if a <? 0 then - a else a) else gcd_loop fuel b (Z.rem a b)
  end.
Definition gcdInt (a b : Z) : Z := gcd_loop 128 a b.

Definition show_ratio (w h : Z) : string := itoa w +:+ ":" +:+ itoa h.

Fixpoint canonical (ratios : list (Z * Z)) (w h : Z) : option (Z * Z) :=
  match ratios with
  | [] => None
  | (rw, rh) :: ratios => if wrap64 (w * rh) =? wrap64 (h * rw) then Some (rw, rh) else canonical ratios w h
  end.

(** The two numbers of the ratio. *)
Definition ratio_of (w h : Z) : option (Z * Z) :=
  match canonical canonicalImageAspectRatios w h with
  | Some r => Some r
  | None =>
      let divisor := gcdInt w h in
      if divisor <=? 0 then None else Some (Z.quot w divisor, Z.quot h divisor)
  end.

Definition dimensions (size : string) : option (Z * Z) :=
  match Split (TrimSpace (ToLower size)) "x" with
  | [a; b] =>
      match Atoi (TrimSpace a) with
      | Some w =>
          if w <=? 0 then None else
          match Atoi (TrimSpace b) with
          | Some h => if h <=? 0 then None else Some (w, h)
          | None => None
          end
      | None => None
      end
  | _ => None
  end.

Definition aspectRatioFromImageSize (size : string) : string :=
  match dimensions size with
  | Some (w, h) => match ratio_of w h with Some (a, b) => show_ratio a b | None => "" end
  | None => ""
  end.

(** ** imageAspectRatioPrefixRE

    [(?i)^\s*Make\s+the\s+aspect\s+ratio\s+\d+\s*:\s*\d+\s*,\s*]: the classes
    that follow each other are disjoint, so that matching never goes back.
    [\s] is the white space of Perl, and the letters [k] and [s] also stand for
    the Kelvin sign and the long s. *)

Definition re_space (c : ascii) : bool := let c := code c in ((9 <=? c) && (c <=? 10) || (12 <=? c) && (c <=? 13) || (c =? 32))%N.

Fixpoint skip_while (p : ascii → bool) (l : list ascii) : list ascii :=
  match l with
  | [] => []
  | c :: l' => if p c then skip_while p l' else l
  end.

(** One at least. *)
Definition skip_some (p : ascii → bool) (l : list ascii) : option (list ascii) :=
  match l with
  | [] => None
  | c :: l => if p c then Some (skip_while p l) else None
  end.

Definition skip_letter (c : ascii) (l : list ascii) : option (list ascii) :=
  match l with
  | [] => None
  | d :: l1 =>
      if Ascii.eqb (lower d) c then Some l1
      else if Ascii.eqb c "s" && HasPrefix (of_bytes l) (of_bytes ["197"; "191"]%char) then Some (drop 2 l)
      else if Ascii.eqb c "k" && HasPrefix (of_bytes l) (of_bytes ["226"; "132"; "170"]%char) then Some (drop 3 l)
      else None
  end.

Fixpoint skip_word (w : list ascii) (l : list ascii) : option (list ascii) :=
  match w with
  | [] => Some l
  | c :: w => l ← skip_letter c l; skip_word w l
  end.

Definition skip_words (l : list ascii) : option (list ascii) :=
  let word w l := l ← skip_word (bytes w) l; skip_some re_space l in
  l ← word "make" (skip_while re_space l); l ← word "the" l; l ← word "aspect" l; word "ratio" l.

Definition skip_terms (l : list ascii) : option (list ascii) :=
  l ← skip_some is_digit l;
  l ← skip_letter ":" (skip_while re_space l);
  l ← skip_some is_digit (skip_while re_space l);
  l ← skip_letter "," (skip_while re_space l);
  Some (skip_while re_space l).

Definition skip_prefix (l : list ascii) : option (list ascii) := l ← skip_words l; skip_terms l.

(** [ReplaceAllString(prompt, "")]: the expression is anchored. *)
Definition without_prefix (prompt : string) : string := of_bytes (default (bytes prompt) (skip_prefix (bytes prompt))).

Definition applyImageSizeRatioPrefix (prompt size : string) : string :=
  let ratio := aspectRatioFromImageSize size in
  if String.eqb ratio "" then prompt
  else "Make the aspect ratio " +:+ ratio +:+ " , " +:+ TrimSpace (without_prefix prompt).

(** ** The hint on text *)

Definition textHintKeywords : list string := [
  "文字"; "对话"; "台词"; "旁白"; "标语"; "字幕"; "标题"; "文案";
  "招牌"; "横幅"; "海报文字"; "弹幕"; "气泡"; "字体";
  "text:"; "caption"; "subtitle"; "title:"; "label"; "banner"; "poster text"].

Definition newline : string := of_bytes ["010"%char].
Definition claritySuffix : string :=
  newline +:+ newline +:+ "clean readable Chinese text, prioritize text clarity over image details".

Definition quotes : list (string * string) :=
  [(of_bytes ["034"%char], of_bytes ["034"%char]); ("'", "'"); ("“", "”"); ("‘", "’"); ("「", "」"); ("『", "』")].

(** A quotation of two bytes or more. *)
Definition quoted (prompt : string) (pair : string * string) : bool :=
  match Index prompt pair.1 with
  | Some idx =>
      match Index (string_drop (idx + String.length pair.1) prompt) pair.2 with
      | Some end_ => (2 <=? end_)%nat
      | None => false
      end
  | None => false
  end.

Definition wants_text (prompt : string) : bool :=
  existsb (λ kw, Contains (ToLower prompt) (ToLower kw)) textHintKeywords || existsb (quoted prompt) quotes.

Definition maybeAppendClaritySuffix (prompt : string) : string :=
  if wants_text prompt && negb (Contains prompt (TrimSpace claritySuffix)) then prompt +:+ claritySuffix else prompt.

Definition upstream_prompt (prompt size : string) : string :=
  maybeAppendClaritySuffix (applyImageSizeRatioPrefix prompt size).

Example ratio_samples :
  map aspectRatioFromImageSize ["1024x1024"; "3840x2160"; "1344x2016"; "3696x1584"; "2160X3840"; "auto"; ""; "1000x300"] =
  ["1:1"; "16:9"; "2:3"; "21:9"; "9:16"; ""; ""; "10:3"].
Proof. by vm_compute. Qed.
Example prefix_samples :
  applyImageSizeRatioPrefix "portrait relight" "1344x2016" = "Make the aspect ratio 2:3 , portrait relight" ∧
  applyImageSizeRatioPrefix " MAKE the a" "3840x2160" = "Make the aspect ratio 16:9 , MAKE the a" ∧
  applyImageSizeRatioPrefix "Make  the aſpect ratio 1 : 1,portrait" "3840x2160" = "Make the aspect ratio 16:9 , portrait".
Proof. by vm_compute. Qed.

(** The count is one to four whatever is asked for. *)
Lemma normalizeImageCount_bounds m n : 1 ≤ normalizeImageCountByModel m n ≤ 4.
Proof.
  unfold normalizeImageCountByModel. destruct (SupportsMultiImage m); [|lia].
  destruct (Z.leb_spec n 0); [by vm_compute|]. destruct (Z.ltb_spec 4 n); lia.
Qed.

(** ** The ratio is that of the size *)

Lemma gcd_loop_gcd k a b : 0 ≤ b ≤ a → 0 < a → a * b < 2 ^ Z.of_nat k → gcd_loop (S k) a b = Z.gcd a b.
Proof.
  revert a b. induction k as [|k IH]; intros a b Hb Ha Hab.
  - cbn in Hab. assert (b = 0) as -> by nia. cbn. replace (a <? 0) with false by lia. rewrite Z.gcd_0_r. lia.
  - remember (S k) as k' eqn:Hk. cbn [gcd_loop]. subst k'.
    destruct (Z.eqb_spec b 0) as [->|Hb0]; [replace (a <? 0) with false by lia; rewrite Z.gcd_0_r; lia|].
    rewrite Z.rem_mod_nonneg by lia. pose proof (Z.mod_pos_bound a b ltac:(lia)) as Hr.
    rewrite IH; [rewrite Z.gcd_comm, Z.gcd_mod by done; apply Z.gcd_comm|lia|lia|].
    pose proof (Z_div_mod_eq_full a b). assert (1 ≤ a / b) by (apply Z.div_le_lower_bound; lia).
    replace (Z.of_nat (S k)) with (Z.of_nat k + 1) in Hab by lia. rewrite Z.pow_add_r in Hab by lia. nia.
Qed.

Lemma gcd_loop_swap k a b : 0 < a < b → gcd_loop (S k) a b = gcd_loop k b a.
Proof. intros H. cbn [gcd_loop]. replace (b =? 0) with false by lia. by rewrite Z.rem_small by lia. Qed.

Lemma gcdInt_gcd a b : 0 < a < 2 ^ 63 → 0 < b < 2 ^ 63 → gcdInt a b = Z.gcd a b.
Proof.
  intros Ha Hb. unfold gcdInt. assert (2 ^ Z.of_nat 126 = 2 ^ 63 * 2 ^ 63) as H126 by by vm_compute.
  assert (2 ^ Z.of_nat 127 = 2 * 2 ^ 63 * 2 ^ 63) as H127 by by vm_compute.
  destruct (Z.le_gt_cases b a) as [H|H].
  - apply (gcd_loop_gcd 127); [lia|lia|]. rewrite H127. nia.
  - rewrite (gcd_loop_swap 127), Z.gcd_comm by lia. apply (gcd_loop_gcd 126); [lia|lia|]. rewrite H126. nia.
Qed.

Lemma canonical_exact l w h a b :
  0 < w < 2 ^ 58 → 0 < h < 2 ^ 58 → Forall (λ r, 0 < r.1 ≤ 21 ∧ 0 < r.2 ≤ 21) l →
  canonical l w h = Some (a, b) → w * b = h * a ∧ 0 < a ∧ 0 < b.
Proof.
  intros Hw Hh. induction 1 as [|[rw rh] l [H1 H2] _ IH]; cbn [canonical]; [done|].
  destruct (Z.eqb_spec (wrap64 (w * rh)) (wrap64 (h * rw))) as [E|_]; [|exact IH]. intros [= <- <-]. cbn in *.
  rewrite !wrap64_id in E by (unfold in_i64, i64_min, i64_max; nia). lia.
Qed.

(** The ratio of every size that fits in 58 bits: its terms are to each other
    as the width to the height, and in lowest terms unless the table has it
    otherwise (21:9). *)
Lemma ratio_of_exact w h :
  0 < w < 2 ^ 58 → 0 < h < 2 ^ 58 →
  ∃ a b, ratio_of w h = Some (a, b) ∧ w * b = h * a ∧ 0 < a ∧ 0 < b ∧ (Z.gcd a b = 1 ∨ (a, b) = (21, 9)).
Proof.
  intros Hw Hh. unfold ratio_of. destruct (canonical canonicalImageAspectRatios w h) as [[a b]|] eqn:E.
  - exists a, b. split; [done|]. destruct (canonical_exact canonicalImageAspectRatios w h a b) as (H1 & H2 & H3); [done|done|repeat constructor; cbn; lia|done|].
    split_and!; [done..|]. clear -E. unfold canonicalImageAspectRatios in E. cbn [canonical] in E.
    repeat match type of E with (if ?c then _ else _) = _ => destruct c; [injection E as <- <-; vm_compute; tauto|] end. done.
  - rewrite gcdInt_gcd by lia. pose proof (Z.gcd_nonneg w h) as Hg.
    assert (Z.gcd w h ≠ 0) as Hg0 by (intros Hz; apply Z.gcd_eq_0_l in Hz; lia).
    destruct (Z.leb_spec (Z.gcd w h) 0); [lia|]. rewrite !Z.quot_div_nonneg by lia.
    destruct (Z.gcd_divide_l w h) as [x Hx], (Z.gcd_divide_r w h) as [y Hy].
    assert (w / Z.gcd w h = x) as Hwx by (rewrite Hx at 1; by apply Z.div_mul).
    assert (h / Z.gcd w h = y) as Hhy by (rewrite Hy at 1; by apply Z.div_mul).
    pose proof (Z.gcd_div_gcd w h _ Hg0 eq_refl) as Hc. rewrite Hwx, Hhy in *. clear Hwx Hhy.
    exists x, y. split_and!; [done|rewrite Hx at 1; rewrite Hy at 2; ring|nia|nia|by left].
Qed.

(** ** One instruction on the ratio *)

Lemma skip_while_none p l : match l with [] => True | c :: _ => p c = false end → skip_while p l = l.
Proof. destruct l as [|c l]; cbn; [done|]. by intros ->. Qed.

Lemma skip_while_run p l r :
  Forall (λ c, p c = true) l → match r with [] => True | c :: _ => p c = false end → skip_while p (l ++ r) = r.
Proof. intros Hl Hr. induction Hl as [|c l Hc _ IH]; cbn; [by apply skip_while_none|]. by rewrite Hc. Qed.

Lemma skip_some_run p l r :
  l ≠ [] → Forall (λ c, p c = true) l → match r with [] => True | c :: _ => p c = false end → skip_some p (l ++ r) = Some r.
Proof.
  intros Hne Hl Hr. destruct l as [|c l]; [done|]. apply Forall_cons in Hl as [Hc Hl]. cbn. rewrite Hc.
  by rewrite skip_while_run.
Qed.

Lemma trimmed_re_space l : trimmed l → skip_while re_space l = l.
Proof.
  intros [H _]. apply skip_while_none. destruct l as [|c l]; [done|]. destruct (re_space c) eqn:E; [|done].
  assert (space1 c = true) as Hs.
  { revert E. by destruct c as [[] [] [] [] [] [] [] []]; vm_compute. }
  cbn in H. rewrite Hs in H. pose proof (drop_space_length false l) as Hl. rewrite H in Hl. cbn in Hl. lia.
Qed.

Lemma skip_prefix_ratio a b l :
  0 ≤ a → 0 ≤ b → trimmed l →
  skip_prefix (bytes "Make the aspect ratio " ++ bytes (show_ratio a b) ++ bytes " , " ++ l) = Some l.
Proof.
  intros Ha Hb Hl. destruct (itoa_digits a Ha) as (Ha1 & Ha2 & _), (itoa_digits b Hb) as (Hb1 & Hb2 & _).
  unfold show_ratio. rewrite !bytes_app, <-!app_assoc. unfold skip_prefix.
  assert (∀ r, skip_words (bytes "Make the aspect ratio " ++ r) = Some (skip_while re_space r)) as -> by done.
  assert (∀ n r, bytes (itoa n) ≠ [] → Forall (λ c, is_digit c = true) (bytes (itoa n)) →
    skip_while re_space (bytes (itoa n) ++ r) = bytes (itoa n) ++ r) as Hsp.
  { intros n r. destruct (bytes (itoa n)) as [|c k]; [done|]. intros _ [Hc _]%Forall_cons. apply skip_while_none. cbn.
    revert Hc. by destruct c as [[] [] [] [] [] [] [] []]; vm_compute. }
  rewrite Hsp by done. cbn [mbind option_bind]. unfold skip_terms.
  rewrite (skip_some_run is_digit (bytes (itoa a))) by done. cbn [mbind option_bind].
  change (skip_letter ":" (skip_while re_space (bytes ":" ++ ?r))) with (Some r).
  cbn [mbind option_bind]. rewrite Hsp by done.
  rewrite (skip_some_run is_digit (bytes (itoa b))) by done. cbn [mbind option_bind].
  change (skip_letter "," (skip_while re_space (bytes " , " ++ l))) with (Some (" "%char :: l)). cbn [mbind option_bind].
  change (skip_while re_space (" "%char :: l)) with (skip_while re_space l). by rewrite trimmed_re_space.
Qed.

Lemma aspectRatio_shape size :
  aspectRatioFromImageSize size = "" ∨ ∃ a b, 0 ≤ a ∧ 0 ≤ b ∧ aspectRatioFromImageSize size = show_ratio a b.
Proof.
  unfold aspectRatioFromImageSize. destruct (dimensions size) as [[w h]|] eqn:Ed; [|by left].
  assert (0 < w ∧ 0 < h) as [Hw Hh].
  { unfold dimensions in Ed. repeat case_match; simplify_eq; lia. }
  destruct (ratio_of w h) as [[a b]|] eqn:Er; [|by left]. right. exists a, b.
  assert (0 ≤ a ∧ 0 ≤ b); [|tauto]. clear Ed. unfold ratio_of in Er.
  destruct (canonical canonicalImageAspectRatios w h) as [[x y]|] eqn:Ec.
  - injection Er as -> ->. unfold canonicalImageAspectRatios in Ec. cbn [canonical] in Ec.
    repeat match type of Ec with (if ?c then _ else _) = _ => destruct c; [injection Ec as <- <-; lia|] end. done.
  - destruct (Z.leb_spec (gcdInt w h) 0); [done|]. injection Er as <- <-. split; apply Z.quot_pos; lia.
Qed.

(** A prompt carries one instruction on the aspect ratio, that of the last
    size.  Giving a prompt a second size, whatever the first, is giving the
    original prompt the second: the instruction is replaced and never added to,
    and nothing else of the prompt is touched. *)
Theorem last_size_wins prompt size1 size2 :
  applyImageSizeRatioPrefix (applyImageSizeRatioPrefix prompt size1) size2 =
  if String.eqb (aspectRatioFromImageSize size2) "" then applyImageSizeRatioPrefix prompt size1
  else applyImageSizeRatioPrefix prompt size2.
Proof.
  unfold applyImageSizeRatioPrefix at 1. destruct (String.eqb_spec (aspectRatioFromImageSize size2) "") as [|Hne]; [done|].
  unfold applyImageSizeRatioPrefix at 2. destruct (String.eqb_spec (aspectRatioFromImageSize size2) ""); [done|].
  do 3 f_equal. unfold applyImageSizeRatioPrefix.
  destruct (String.eqb_spec (aspectRatioFromImageSize size1) "") as [|Hne1]; [done|].
  destruct (aspectRatio_shape size1) as [?|(a & b & Ha & Hb & ->)]; [done|].
  unfold without_prefix at 1. rewrite !bytes_app, skip_prefix_ratio by (done || apply TrimSpace_trimmed).
  cbn [from_option]. unfold id. by rewrite of_bytes_bytes, TrimSpace_idemp.
Qed.
