(* ===== verification/Inputs.v ===== *)
(** * The reference images of a request (internal/gateway/images.go)

    A reference is given as a data URL, an address, a base64 text or a file of
    a form; it is fetched, checked and, when it is a HEIC image, converted.
    The decoder of image headers, the converter (an external tool) and the
    download are parameters.  Messages of errors are left out. *)

From S2P Require Import Prelude GoStrings Crypto Archive Runner.

#[local] Open Scope Z_scope.

Definition maxReferenceImageBytes : Z := 20 * 1024 * 1024.
Definition maxReferenceImages : nat := 4.

Definition EFormat : goerr := EMsg "unsupported format".

(** ** path/filepath *)

Fixpoint last_part (l : list ascii) (part : list ascii) : list ascii :=
  match l with
  | [] => part
  | c :: l => if Ascii.eqb c "/" then last_part l [] else last_part l (part ++ [c])
  end.

Fixpoint strip_slashes (r : list ascii) : list ascii :=
  match r with
  | c :: r' => if Ascii.eqb c "/" then strip_slashes r' else r
  | [] => []
  end.

Definition Base (path : string) : string :=
  if String.eqb path "" then "." else
  let base := of_bytes (last_part (rev (strip_slashes (rev (bytes path)))) []) in
  if String.eqb base "" then "/" else base.

(** From the last point of the last element. *)
Fixpoint ext_rev (r : list ascii) (acc : list ascii) : list ascii :=
  match r with
  | [] => []
  | c :: r => if Ascii.eqb c "/" then [] else if Ascii.eqb c "." then c :: acc else ext_rev r (c :: acc)
  end.
Definition Ext (path : string) : string := of_bytes (ext_rev (rev (bytes path)) []).

(** ** HEIC *)

Definition isHEIFBrand (brand : string) : bool :=
  existsb (String.eqb (ToLower (TrimSpace brand)))
    ["heic"; "heix"; "hevc"; "hevx"; "heim"; "heis"; "hevm"; "hevs"; "mif1"; "msf1"].

(** [todo] bytes of the box are left. *)
Fixpoint brands (todo : nat) (l : list ascii) : bool :=
  match todo, l with
  | S (S (S (S todo))), a :: b :: c :: d :: l => isHEIFBrand (of_bytes [a; b; c; d]) || brands todo l
  | _, _ => false
  end.

Definition hasHEIFFileTypeBox (data : string) : bool :=
  let l := bytes data in
  let size := Z.of_nat (length l) in
  if (size <? 16) || negb (String.eqb (of_bytes (take 4 (drop 4 l))) "ftyp") then false else
  let boxSize := match l with
                 | a :: b :: c :: d :: _ =>
                     Z.lor (Z.lor (Z.shiftl (Z.of_N (code a)) 24) (Z.shiftl (Z.of_N (code b)) 16))
                           (Z.lor (Z.shiftl (Z.of_N (code c)) 8) (Z.of_N (code d)))
                 | _ => 0
                 end in
  let boxSize := if (boxSize <=? 0) || (size <? boxSize) then size else boxSize in
  brands (Z.to_nat (boxSize - 8)) (drop 8 l).

Definition isHEICReferenceImage (data declaredContentType fileName : string) : bool :=
  if hasHEIFFileTypeBox data then true else
  let declared := ToLower (TrimSpace declaredContentType) in
  if String.eqb declared "image/heic" || String.eqb declared "image/heif" then true else
  let ext := ToLower (TrimPrefix (Ext (TrimSpace fileName)) ".") in
  String.eqb ext "heic" || String.eqb ext "heif".

Definition normalizeConvertedReferenceImageName (fileName ext : string) : string :=
  let ext := TrimSpace ext in
  let ext := if String.eqb ext "" then ".jpg" else ext in
  let base := TrimSpace (Base fileName) in
  if String.eqb base "" || String.eqb base "." then "reference" +:+ ext else
  let name := TrimSpace (TrimSuffix base (Ext base)) in
  let name := if String.eqb name "" || String.eqb name "." then "reference" else name in
  name +:+ ext.

(** [base64.URLEncoding] *)
Definition base64_url_decode (s : string) : option (list ascii) :=
  if existsb (λ c, Ascii.eqb c "+" || Ascii.eqb c "/") (bytes s) then None
  else base64_decode (replace_byte "-" "+" (replace_byte "_" "/" s)).

Definition decode_payload (s : string) : option string :=
  match base64_decode s with
  | Some b => Some (of_bytes b)
  | None => of_bytes <$> base64_url_decode s
  end.

(** What a download answers. *)
Record HTTPResponse := {
  StatusCode : Z;
  RespBody : result string;
  RespPath : string;           (* of the address *)
  RespContentType : string
}.

(** Of a body, one byte more than is allowed is read at most. *)
Definition limited (body : string) : string :=
  if Z.of_nat (String.length body) <=? maxReferenceImageBytes + 1 then body
  else string_take (Z.to_nat (maxReferenceImageBytes + 1)) body.

Section inputs.
Context (DecodeConfig : string → option (Z * Z * string)) (referenceHEICToJPEG : string → result string).
Context (http_get : string → result HTTPResponse).

Definition normalizeReferenceImageContentType (data : string) : result string :=
  match DecodeConfig data with
  | Some (width, height, format) =>
      if (width <=? 0) || (height <=? 0) then Err EFormat else
      let format := ToLower (TrimSpace format) in
      if String.eqb format "png" then Ok "image/png"
      else if String.eqb format "jpeg" then Ok "image/jpeg"
      else if String.eqb format "webp" then Ok "image/webp"
      else Err EFormat
  | None => Err EFormat
  end.

Definition normalizeReferenceImageInput (data fileName declaredContentType : string) : result ReferenceImage :=
  let baseName := TrimSpace (Base fileName) in
  match normalizeReferenceImageContentType data with
  | Ok contentType => Ok {| RefData := data; RefFileName := baseName; RefContentType := contentType |}
  | Err _ =>
      if negb (isHEICReferenceImage data declaredContentType baseName) then Err EFormat else
      converted <-? referenceHEICToJPEG data ;;
      if String.eqb converted "" then Err (EMsg "empty conversion") else
      if maxReferenceImageBytes <? Z.of_nat (String.length converted) then Err (EMsg "conversion too large") else
      contentType <-? normalizeReferenceImageContentType converted ;;
      Ok {| RefData := converted; RefFileName := normalizeConvertedReferenceImageName baseName ".jpg";
            RefContentType := contentType |}
  end.

(** The bytes, the name and the declared type. *)
Definition fetchReferenceBytes (s : string) : result (string * string * string) :=
  let low := ToLower s in
  if HasPrefix low "data:" then
    match Index s "," with
    | None => Err (EMsg "invalid data URL")
    | Some comma =>
        let meta := string_take (comma - 5) (string_drop 5 s) in
        let payload := string_drop (S comma) s in
        let contentType := TrimSpace match Cut meta ";" with Some (ct, _) => ct | None => meta end in
        if Contains (ToLower meta) ";base64" then
          match decode_payload payload with
          | Some b => Ok (b, "", contentType)
          | None => Err (EMsg "illegal base64 data")
          end
        else Ok (payload, "", contentType)
    end
  else if HasPrefix low "http://" || HasPrefix low "https://" then
    res <-? http_get s ;;
    if 400 <=? StatusCode res then Err (EMsg "download failed") else
    body <-? RespBody res ;;
    Ok (limited body, Base (RespPath res), RespContentType res)
  else
    match decode_payload s with
    | Some b => Ok (b, "", "")
    | None => Err (EMsg "neither URL nor base64")
    end.

(** A reference that is neither empty nor too large. *)
Definition checked (data fileName contentType : string) : result ReferenceImage :=
  if String.eqb data "" then Err (EMsg "empty reference") else
  if maxReferenceImageBytes <? Z.of_nat (String.length data) then Err (EMsg "reference too large") else
  normalizeReferenceImageInput data fileName contentType.

Fixpoint decode_inputs (inputs : list string) : result (list ReferenceImage) :=
  match inputs with
  | [] => Ok []
  | s :: inputs =>
      let s := TrimSpace s in
      if String.eqb s "" then Err (EMsg "empty reference") else
      f <-? fetchReferenceBytes s ;;
      let '(data, name, contentType) := f : string * string * string in
      ref <-? checked data name contentType ;;
      refs <-? decode_inputs inputs ;;
      Ok (ref :: refs)
  end.

Definition decodeReferenceInputs (inputs : list string) : result (list ReferenceImage) :=
  if (maxReferenceImages <? length inputs)%nat then Err (EMsg "too many references") else decode_inputs inputs.

(** ** The files of a form *)

Record FileHeader := {
  Filename : string;
  FileSize : Z;
  FileType : string;             (* its Content-Type *)
  FileContent : result string    (* what reading it gives *)
}.

(** A file is known by its name and its size. *)
Fixpoint add_files (seen : list string) (fhs : list FileHeader) : list FileHeader * list string :=
  match fhs with
  | [] => ([], seen)
  | fh :: fhs =>
      let key := Filename fh +:+ "|" +:+ itoa (FileSize fh) in
      if bool_decide (key ∈ seen) then add_files seen fhs
      else let '(out, seen) := add_files (key :: seen) fhs in (fh :: out, seen)
  end.

(** [form]: the fields with files, in the order the map is walked. *)
Definition image_files (form : list (string * list FileHeader)) : list FileHeader :=
  let named key := default [] (snd <$> List.find (λ f : string * list FileHeader, String.eqb f.1 key) form) in
  flat_map named ["image"; "image[]"; "images"; "images[]"; "mask"] ++
  flat_map snd (List.filter (λ f : string * list FileHeader, HasPrefix f.1 "image_") form).
Definition collectEditFiles (form : list (string * list FileHeader)) : list FileHeader := (add_files [] (image_files form)).1.

Fixpoint edit_files (files : list FileHeader) : result (list ReferenceImage) :=
  match files with
  | [] => Ok []
  | fh :: files =>
      data <-? FileContent fh ;;
      ref <-? checked data (Filename fh) (FileType fh) ;;
      refs <-? edit_files files ;;
      Ok (ref :: refs)
  end.

(** The references of an edit, or the code of the refusal. *)
Definition edit_references (form : list (string * list FileHeader)) : string + list ReferenceImage :=
  let files := collectEditFiles form in
  if (length files =? 0)%nat then inl "invalid_request_error"
  else if (maxReferenceImages <? length files)%nat then inl "invalid_request_error"
  else match edit_files files with
       | Ok refs => inr refs
       | Err _ => inl "invalid_reference_image"
       end.

Fixpoint take_while (p : ascii → bool) (l : list ascii) : list ascii :=
  match l with
  | [] => []
  | c :: l => if p c then c :: take_while p l else []
  end.

(** [fmt.Sscanf(s, "%d", &v)]: white space, a sign, digits; what follows is
    not read. *)
Definition Sscanf_d (s : string) : option Z :=
  let l := bytes s in
  let l1 := drop_space false l in
  if existsb (λ c, Ascii.eqb c "010") (take (length l - length l1) l) then None else
  let '(sign, l2) := match l1 with
                     | c :: l => if Ascii.eqb c "-" then (-1, l) else if Ascii.eqb c "+" then (1, l) else (1, l1)
                     | [] => (1, [])
                     end in
  let ds := take_while is_digit l2 in
  match ds with
  | [] => None
  | _ => match digits_value 0 ds with
         | Some v => if bool_decide (in_i64 (sign * v)) then Some (sign * v) else None
         | None => None
         end
  end.

Definition parseIntClamp (s : string) (lo hi : Z) : option Z := Z.min hi ∘ Z.max lo <$> Sscanf_d s.

(** The count an edit asks for. *)
Definition edit_count (s : string) : Z :=
  if String.eqb s "" then 1 else default 1 (parseIntClamp s 1 4).

(** ** What a request may carry *)

(** The decoder reads the header of [data], as an image of that type. *)
Definition read_as (data contentType : string) : Prop :=
  ∃ width height format, DecodeConfig data = Some (width, height, format) ∧ 0 < width ∧ 0 < height ∧
    (ToLower (TrimSpace format), contentType) ∈ [("png", "image/png"); ("jpeg", "image/jpeg"); ("webp", "image/webp")].

(** A reference that goes on to the upstream. *)
Definition acceptable (r : ReferenceImage) : Prop :=
  RefData r ≠ "" ∧ Z.of_nat (String.length (RefData r)) ≤ maxReferenceImageBytes ∧ read_as (RefData r) (RefContentType r).

(** Where it is from: the bytes that were given, or a HEIC image the decoder
    does not read, converted. *)
Definition image_of (data name contentType : string) (r : ReferenceImage) : Prop :=
  acceptable r ∧
  (RefData r = data ∧ RefFileName r = TrimSpace (Base name) ∨
   (∀ ct, ¬ read_as data ct) ∧ isHEICReferenceImage data contentType (TrimSpace (Base name)) = true ∧
   referenceHEICToJPEG data = Ok (RefData r)).

Definition image_of_input (s : string) (r : ReferenceImage) : Prop :=
  ∃ data name contentType, fetchReferenceBytes (TrimSpace s) = Ok (data, name, contentType) ∧ image_of data name contentType r.
Definition image_of_file (fh : FileHeader) (r : ReferenceImage) : Prop :=
  ∃ data, FileContent fh = Ok data ∧ image_of data (Filename fh) (FileType fh) r.

Lemma content_type_read data ct : normalizeReferenceImageContentType data = Ok ct ↔ read_as data ct.
Proof.
  unfold normalizeReferenceImageContentType, read_as. split.
  - destruct (DecodeConfig data) as [[[w h] f]|]; [|done]. destruct (Z.leb_spec w 0), (Z.leb_spec h 0); cbn; try done. intros H1.
    exists w, h, f. split_and!; [done..|]. revert H1. generalize (ToLower (TrimSpace f)). intros f'.
    destruct (String.eqb_spec f' "png") as [->|]; [intros [= <-]; set_solver|].
    destruct (String.eqb_spec f' "jpeg") as [->|]; [intros [= <-]; set_solver|].
    destruct (String.eqb_spec f' "webp") as [->|]; [intros [= <-]; set_solver|done].
  - intros (w & h & f & -> & Hw & Hh & Hf). replace (w <=? 0) with false by lia. replace (h <=? 0) with false by lia. cbn [orb].
    revert Hf. generalize (ToLower (TrimSpace f)). intros f' Hf. set_unfold in Hf. by destruct Hf as [[= -> ->]|[[= -> ->]|[[= -> ->]|[]]]].
Qed.

Lemma checked_image data name ct r : checked data name ct = Ok r → image_of data name ct r.
Proof.
  unfold checked. destruct (String.eqb_spec data ""); [done|].
  destruct (Z.ltb_spec maxReferenceImageBytes (Z.of_nat (String.length data))); [done|].
  unfold normalizeReferenceImageInput. destruct (normalizeReferenceImageContentType data) as [t|] eqn:Et.
  { intros [= <-]. apply content_type_read in Et. split; [split_and!; done|by left]. }
  destruct (isHEICReferenceImage _ _ _) eqn:Eh; cbn [negb]; [|done].
  destruct (referenceHEICToJPEG data) as [conv|] eqn:Ec; cbn; [|done].
  destruct (String.eqb_spec conv ""); [done|].
  destruct (Z.ltb_spec maxReferenceImageBytes (Z.of_nat (String.length conv))); [done|].
  destruct (normalizeReferenceImageContentType conv) as [t|] eqn:Ev; cbn; [|done].
  apply content_type_read in Ev. intros [= <-]. split; [split_and!; done|right]. split_and!; [|done|done].
  intros ct' Hct. apply content_type_read in Hct. congruence.
Qed.

Lemma decode_inputs_images inputs refs : decode_inputs inputs = Ok refs → Forall2 image_of_input inputs refs.
Proof.
  revert refs. induction inputs as [|s inputs IH]; intros refs; cbn [decode_inputs]; [intros [= <-]; constructor|].
  destruct (String.eqb _ ""); [done|]. destruct (fetchReferenceBytes _) as [[[d n] c]|] eqn:Ef; cbn; [|done].
  destruct (checked d n c) as [r|] eqn:Er; cbn; [|done]. destruct (decode_inputs inputs) as [l|]; cbn; [|done].
  intros [= <-]. constructor; [|by apply IH]. exists d, n, c. split; [done|by apply checked_image].
Qed.

Lemma edit_files_images files refs : edit_files files = Ok refs → Forall2 image_of_file files refs.
Proof.
  revert refs. induction files as [|fh files IH]; intros refs; cbn [edit_files]; [intros [= <-]; constructor|].
  destruct (FileContent fh) as [d|] eqn:Ed; cbn; [|done].
  destruct (checked d _ _) as [r|] eqn:Er; cbn; [|done]. destruct (edit_files files) as [l|]; cbn; [|done].
  intros [= <-]. constructor; [|by apply IH]. exists d. split; [done|by apply checked_image].
Qed.

(** Files of one name and one size are one file: the first of them. *)
Definition file_key (fh : FileHeader) : string := Filename fh +:+ "|" +:+ itoa (FileSize fh).

Lemma add_files_once seen fhs :
  let out := (add_files seen fhs).1 in
  NoDup (map file_key out) ∧ Forall (λ fh, file_key fh ∉ seen) out ∧
  ∀ fh, fh ∈ fhs → file_key fh ∈ seen ∨ file_key fh ∈ map file_key out.
Proof.
  cbv zeta. revert seen. induction fhs as [|fh fhs IH]; intros seen; cbn [add_files].
  { split_and!; [constructor|constructor|by intros ? ?%not_elem_of_nil]. }
  fold (file_key fh). case_bool_decide as Hk.
  - destruct (IH seen) as (H1 & H2 & H4). split_and!; [done|done|].
    intros x [->|Hx]%elem_of_cons; [by left|auto].
  - destruct (IH (file_key fh :: seen)) as (H1 & H2 & H4). destruct (add_files (file_key fh :: seen) fhs) as [out seen'] eqn:E.
    cbn [fst map] in *. split_and!.
    + constructor; [|done]. intros (x & Ex & Hx)%list_elem_of_fmap. rewrite Forall_forall in H2. apply (H2 x Hx). rewrite Ex. by left.
    + constructor; [done|]. eapply Forall_impl; [exact H2|]. intros x Hx ?. apply Hx. by right.
    + intros x [->|Hx]%elem_of_cons; [right; by left|]. destruct (H4 x Hx) as [[->|?]%elem_of_cons|?]; [right; by left|by left|right; by right].
Qed.

(** C34: what may go to the upstream as a reference.  However a request brings
    its references, as texts and addresses or as files of a form, and whatever
    the downloads, the decoder and the converter answer: of texts, four at
    most, every one becomes a reference, in their order, or all are refused;
    of the files of an edit those of one name and size count once, and what is
    left, one to four files, becomes the references, in their order.  Each
    reference is the bytes that were given, or the conversion of a HEIC image
    the decoder did not read, and is a non-empty image of twenty megabytes at
    most, whose header the decoder has read, with a width and a height, as the
    PNG, JPEG or WebP image that it goes on as. *)
Theorem references_acceptable inputs form :
  match decodeReferenceInputs inputs with
  | Ok refs => Forall2 image_of_input inputs refs ∧ (length refs ≤ 4)%nat
  | Err _ => True
  end ∧
  match edit_references form with
  | inr refs => Forall2 image_of_file (collectEditFiles form) refs ∧ (1 ≤ length refs ≤ 4)%nat ∧
      NoDup (map file_key (collectEditFiles form)) ∧
      ∀ fh, fh ∈ image_files form → file_key fh ∈ map file_key (collectEditFiles form)
  | inl code => code = "invalid_request_error" ∨ code = "invalid_reference_image"
  end.
Proof.
  split.
  - unfold decodeReferenceInputs, maxReferenceImages. destruct (Nat.ltb_spec 4 (length inputs)); [done|].
    destruct (decode_inputs inputs) as [refs|] eqn:E; [|done]. apply decode_inputs_images in E. split; [done|].
    apply Forall2_length in E. lia.
  - unfold edit_references, maxReferenceImages. pose proof (add_files_once []) as Hd.
    assert (NoDup (map file_key (collectEditFiles form))) as Hnd by apply Hd.
    assert (∀ fh, fh ∈ image_files form → file_key fh ∈ map file_key (collectEditFiles form)) as Hall.
    { intros fh Hfh. destruct (Hd (image_files form)) as (_ & _ & H). by destruct (H fh Hfh) as [?%not_elem_of_nil|]. }
    clear Hd. set (files := collectEditFiles form) in *.
    destruct (Nat.eqb_spec (length files) 0); [by left|]. destruct (Nat.ltb_spec 4 (length files)); [by left|].
    destruct (edit_files files) as [refs|] eqn:E; [|by right]. apply edit_files_images in E. split; [done|].
    apply Forall2_length in E. split_and!; [lia|lia|done|done].
Qed.
End inputs.

Example base_samples : map Base [""; "/"; "a/b.png/"; "b.png"] = ["."; "/"; "b.png"; "b.png"] ∧
  map Ext ["a.tar.gz"; "a.b/c"; "x"] = [".gz"; ""; ""].
Proof. by vm_compute. Qed.
Example fetch_samples :
  fetchReferenceBytes (λ _, Err EFormat) "data:image/png;base64,aGk=" = Ok ("hi", "", "image/png") ∧
  fetchReferenceBytes (λ _, Err EFormat) "Data:text/plain,hi,ho" = Ok ("hi,ho", "", "text/plain") ∧
  fetchReferenceBytes (λ _, Err EFormat) "aGk=" = Ok ("hi", "", "").
Proof. by vm_compute. Qed.
Example count_samples : map edit_count [""; "3"; " 9x"; "-2"; "x"; "99999999999999999999"] = [1; 3; 4; 1; 1; 1].
Proof. by vm_compute. Qed.
