(* ===== verification/ImageStore.v ===== *)
(** * Images on disk (internal/imagestore/local.go, thumb.go, handler.go)

    The store keeps an original and a thumbnail of every image under names
    made of the task, the index and the kind.  The file system is modelled as
    the kernel shows it: names, inodes, one system call at a time, each of
    which may fail without effect; a file is written piece by piece, so that a
    request that is lost in between leaves a part of it behind.  The codecs of
    images, the scaler, [http.DetectContentType], [statfs] and how the kernel
    cuts a write into pieces are parameters.

    A path is what [filepath.Clean] makes of it: whether it starts at the root,
    and its elements.  [Glob] is modelled for the patterns of this package, a
    star behind a stem without metacharacters (the ids of tasks have none). *)

From S2P Require Import Prelude GoStrings Float Sql Proc Answers Archive Inputs.
From stdpp Require Import strings.

#[local] Open Scope Z_scope.

(** ** path/filepath *)

Definition path : Type := bool * list string.

Definition clean_step (rooted : bool) (stack : list string) (part : string) : list string :=
  if String.eqb part "" || String.eqb part "." then stack
  else if String.eqb part ".." then
    match stack with
    | top :: rest => if String.eqb top ".." then part :: stack else rest
    | [] => if rooted then [] else [part]
    end
  else part :: stack.

Definition Clean (s : string) : path :=
  let rooted := HasPrefix s "/" in (rooted, rev (fold_left (clean_step rooted) (Split s "/") [])).

Definition Join (p : path) (name : string) : path :=
  (p.1, rev (fold_left (clean_step p.1) (Split name "/") (rev p.2))).

Definition Dir (p : path) : path := (p.1, removelast p.2).
Definition name_of (p : path) : string := List.last p.2 "".

(** [path + suffix] *)
Definition with_suffix (p : path) (suffix : string) : path :=
  match p.2 with [] => p | _ => (p.1, removelast p.2 ++ [name_of p +:+ suffix]) end.

Definition show_path (p : path) : string :=
  let s := (if p.1 then "/" else "") +:+ String.concat "/" p.2 in if String.eqb s "" then "." else s.

(** ** The disk *)

(** [i_born]: the name it was created under; no operation looks at it. *)
Record inode := { i_data : string; i_mtime : Z; i_born : path }.
Inductive entry := DirEntry | Link (ino : N).
#[global] Instance entry_eq_dec : EqDecision entry.
Proof. solve_decision. Defined.

Record disk := Disk {
  d_names : gmap path entry;
  d_inodes : gmap N inode;
  d_next : N;
  d_clock : list Z        (* what the clock will say *)
}.

Definition with_names (f : gmap path entry → gmap path entry) (d : disk) : disk :=
  Disk (f (d_names d)) (d_inodes d) (d_next d) (d_clock d).
Definition with_inodes (f : gmap N inode → gmap N inode) (d : disk) : disk :=
  Disk (d_names d) (f (d_inodes d)) (d_next d) (d_clock d).
Definition clock (d : disk) : Z := default 0 (head (d_clock d)).
Definition ticked (d : disk) : disk :=
  Disk (d_names d) (d_inodes d) (d_next d) match d_clock d with _ :: (_ :: _) as c => c | c => c end.

Definition ErrNotExist : goerr := Sentinel "file does not exist".
Definition EIsDir : goerr := EMsg "is a directory".
Definition ENotDir : goerr := EMsg "not a directory".
Definition ENotEmpty : goerr := EMsg "directory not empty".

Abbreviation DISK := (DB disk).

(** The root, the working directory and those above it are there. *)
Definition is_dir (names : gmap path entry) (p : path) : bool :=
  forallb (String.eqb "..") p.2 || bool_decide (names !! p = Some DirEntry).

Definition prefixes (p : path) : list path := map (λ n, (p.1, take n p.2)) (seq 1 (length p.2)).

Fixpoint mkdirs (ps : list path) (names : gmap path entry) : option (gmap path entry) :=
  match ps with
  | [] => Some names
  | p :: ps =>
      if is_dir names p then mkdirs ps names
      else match names !! p with
           | Some _ => None
           | None => mkdirs ps (<[p := DirEntry]> names)
           end
  end.

Definition MkdirAll (p : path) : DISK unit := call (λ d,
  match mkdirs (prefixes p) (d_names d) with
  | Some names => (Ok tt, with_names (λ _, names) d)
  | None => (Err ENotDir, d)
  end).

(** [O_WRONLY|O_CREATE|O_TRUNC] *)
Definition OpenTrunc (p : path) : DISK N := call (λ d,
  if is_dir (d_names d) p then (Err EIsDir, d) else
  match d_names d !! p with
  | Some (Link i) =>
      (Ok i, ticked (with_inodes (alter (λ n, {| i_data := ""; i_mtime := clock d; i_born := i_born n |}) i) d))
  | _ =>
      if is_dir (d_names d) (Dir p) then
        let i := d_next d in
        (Ok i, ticked (Disk (<[p := Link i]> (d_names d))
                 (<[i := {| i_data := ""; i_mtime := clock d; i_born := p |}]> (d_inodes d)) (i + 1)%N (d_clock d)))
      else (Err ErrNotExist, d)
  end).

(** One [write] to an open file; it goes to the inode, whatever its names. *)
Definition Append (i : N) (piece : string) : DISK unit := call (λ d,
  (Ok tt, ticked (with_inodes
     (alter (λ n, {| i_data := i_data n +:+ piece; i_mtime := clock d; i_born := i_born n |}) i) d))).

(** Both names are those of files in one directory. *)
Definition Rename (src dst : path) : DISK unit := call (λ d,
  match d_names d !! src with
  | Some (Link i) =>
      if is_dir (d_names d) dst then (Err EIsDir, d) else (Ok tt, with_names (λ m, <[dst := Link i]> (delete src m)) d)
  | Some DirEntry => (Err EIsDir, d)
  | None => (Err ErrNotExist, d)
  end).

(** [os.Remove]: unlink, or rmdir of a directory that is empty. *)
Definition in_dir (dir p : path) : bool := bool_decide (p.2 ≠ []) && bool_decide (Dir p = dir).
Definition Remove (p : path) : DISK unit := call (λ d,
  if is_dir (d_names d) p then
    if existsb (λ e, in_dir p e.1) (map_to_list (d_names d)) || forallb (String.eqb "..") p.2 then (Err ENotEmpty, d)
    else (Ok tt, with_names (delete p) d)
  else match d_names d !! p with
       | Some _ => (Ok tt, with_names (delete p) d)
       | None => (Err ErrNotExist, d)
       end).

Definition ReadFile (p : path) : DISK string := query (λ d,
  if is_dir (d_names d) p then Err EIsDir else
  match d_names d !! p with
  | Some (Link i) => match d_inodes d !! i with Some n => Ok (i_data n) | None => Err ErrNotExist end
  | _ => Err ErrNotExist
  end).

(** An element of a path holds no slash and is no dot. *)
Definition valid_name (n : string) : bool :=
  negb (existsb (Ascii.eqb "/") (bytes n)) && negb (existsb (String.eqb n) [""; "."; ".."]).

(** [os.ReadDir]: the names, sorted, and which are directories. *)
Definition listing (dir : path) (names : gmap path entry) : list (string * bool) :=
  sort_by (λ a b, String.leb a.1 b.1)
    (map (λ e, (name_of e.1, bool_decide (e.2 = DirEntry))) 
      (List.filter (λ e, in_dir dir e.1 && valid_name (name_of e.1)) (map_to_list names))).
Definition ReadDir (dir : path) : DISK (list (string * bool)) := query (λ d,
  if is_dir (d_names d) dir then Ok (listing dir (d_names d)) else Err ErrNotExist).

(** Writing the pieces of a file one by one: [f.Write]. *)
Fixpoint write_pieces (i : N) (pieces : list string) : proc disk (result unit) :=
  match pieces with
  | [] => Done (Ok tt)
  | s :: pieces => _ <~? one (Append i s) ;; write_pieces i pieces
  end.

(** ** local.go *)

Definition ResourceOriginal : string := "original".
Definition ResourceThumb : string := "thumb".
Definition ResourceReference : string := "reference".
Definition ResourceReferenceThumb : string := "reference_thumb".

Record SavedImage := { SavedIndex : Z; OriginalName : string; ThumbName : string }.

Record FileInfo := {
  Name : string; TaskID : string; Index : Z; SizeBytes : Z; ModifiedAt : Z; Path : string
}.

Record DiskInfo := {
  TotalBytes : Z; UsedBytes : Z; FreeBytes : Z; UsedPercent : Q;
  OriginalBytes : Z; ThumbBytes : Z; OriginalFileCount : Z; ThumbFileCount : Z
}.

Record Local := {
  rootDir : string; originalDir : path; thumbDir : path; thumbMaxEdge : Z; thumbQuality : Z
}.

Definition DefaultThumbMaxEdge : Z := 0.
Definition DefaultThumbQuality : Z := 82.

Definition NewLocal (RootDir : string) (ThumbMaxEdge ThumbQuality : Z) : Local :=
  let root := let r := TrimSpace RootDir in if String.eqb r "" then "storage/images" else r in
  {| rootDir := root;
     originalDir := Join (Clean root) "original"; thumbDir := Join (Clean root) "thumb";
     thumbMaxEdge := if ThumbMaxEdge =? 0 then DefaultThumbMaxEdge else ThumbMaxEdge;
     thumbQuality := if ThumbQuality <=? 0 then DefaultThumbQuality else ThumbQuality |}.

Definition normalizeResource (resource : string) : string :=
  if String.eqb resource ResourceThumb then ResourceThumb
  else if String.eqb resource ResourceReference then ResourceReference
  else if String.eqb resource ResourceReferenceThumb then ResourceReferenceThumb
  else ResourceOriginal.

Definition is_thumb (resource : string) : bool :=
  let r := normalizeResource resource in String.eqb r ResourceThumb || String.eqb r ResourceReferenceThumb.
Definition is_reference (resource : string) : bool :=
  let r := normalizeResource resource in String.eqb r ResourceReference || String.eqb r ResourceReferenceThumb.

Definition dirFor (l : Local) (resource : string) : path := if is_thumb resource then thumbDir l else originalDir l.

(** *** Names *)

Definition fileStem (taskID : string) (idx : Z) (resource : string) : string :=
  (if is_reference resource then "ref_" else "") +:+ taskID +:+ "_" +:+ itoa idx.
Definition originalFileName (taskID : string) (idx : Z) (resource ext : string) : string :=
  fileStem taskID idx resource +:+ "." +:+ ext.
Definition thumbFileName (taskID : string) (idx : Z) (resource : string) : string :=
  "tmp_" +:+ fileStem taskID idx resource +:+ ".jpg".

Definition bare (resource name : string) : option string :=
  if is_thumb resource then
    if HasPrefix name "tmp_" && HasSuffix (ToLower name) ".jpg" then Some (TrimSuffix (TrimPrefix name "tmp_") ".jpg")
    else None
  else
    if existsb (String.eqb (ToLower (Ext name))) [".png"; ".jpg"; ".jpeg"; ".webp"] then Some (TrimSuffix name (Ext name))
    else None.

Definition parseFileInfo (name resource : string) : option FileInfo :=
  match bare resource name with
  | None => None
  | Some raw =>
      let raw := if is_reference resource then if HasPrefix raw "ref_" then Some (TrimPrefix raw "ref_") else None
                 else if HasPrefix raw "ref_" then None else Some raw in
      match raw with
      | None => None
      | Some raw =>
          match last_cut "_" (bytes raw) with
          | Some ((_ :: _) as task, (_ :: _) as idx) =>
              match Atoi (of_bytes idx) with
              | Some i => if i <? 0 then None
                          else Some {| Name := name; TaskID := of_bytes task; Index := i; SizeBytes := 0;
                                       ModifiedAt := 0; Path := "" |}
              | None => None
              end
          | _ => None
          end
      end
  end.

(** *** Types *)

Definition imageTypeFromFileName (fileName : string) : string * string :=
  let e := ToLower (Ext (TrimSpace fileName)) in
  if String.eqb e ".png" then ("png", "image/png")
  else if String.eqb e ".jpg" || String.eqb e ".jpeg" then ("jpg", "image/jpeg")
  else if String.eqb e ".webp" then ("webp", "image/webp")
  else ("", "").

(** *** Sizes *)

Definition max (a b : Z) : Z := if b <? a then a else b.

(** [int] products wrap around. *)
Definition fitWithin (width height maxEdge : Z) : Z * Z :=
  if (width <=? 0) || (height <=? 0) then (1, 1)
  else if maxEdge <=? 0 then (width, height)
  else
    let longEdge := if width <? height then height else width in
    if longEdge <=? maxEdge then (width, height)
    else if height <=? width then (maxEdge, max 1 (Z.quot (wrap64 (height * maxEdge)) width))
    else (max 1 (Z.quot (wrap64 (width * maxEdge)) height), maxEdge).

Section store.
Context (l : Local).
(** [image.Decode]: the picture and its size; the scaled picture as JPEG, and
    the picture of one point. *)
Context {I : Type} (Decode : string → result (I * Z * Z)) (scale_jpeg : I → Z * Z → Z → result string)
        (placeholder : Z → result string).
Context (DetectContentType : string → string) (pieces : string → list string).
Context (statfs : string → disk → result (Z * Z * Z)).     (* blocks, blocks available, bytes in a block *)
Context (dir_stat : path → Z * Z).                         (* size and time of a directory *)

Definition normalizeImageType (contentType data : string) : string * string :=
  let ct := ToLower (TrimSpace contentType) in
  let ct := if String.eqb ct "" && negb (String.eqb data "") then ToLower (DetectContentType data) else ct in
  if Contains ct "png" then ("png", "image/png")
  else if Contains ct "jpeg" || Contains ct "jpg" then ("jpg", "image/jpeg")
  else if Contains ct "webp" then ("webp", "image/webp")
  else ("", ct).

Definition normalizeImageTypeWithFileName (contentType fileName data : string) : string * string :=
  let a := normalizeImageType contentType "" in
  if negb (String.eqb a.1 "") then a else
  let b := normalizeImageType "" data in
  if negb (String.eqb b.1 "") then b else imageTypeFromFileName fileName.

(** [BuildThumbnail] of thumb.go *)
Definition BuildThumbnail (data : string) (MaxEdge Quality : Z) : result (string * string) :=
  dec <-? Decode data ;;
  let '(img, w, h) := dec in
  let maxEdge := if MaxEdge =? 0 then DefaultThumbMaxEdge else MaxEdge in
  let quality := if Quality <=? 0 then DefaultThumbQuality else Quality in
  out <-? scale_jpeg img (fitWithin w h maxEdge) quality ;;
  Ok (out, "image/jpeg").

Definition buildThumb (data : string) : result string :=
  r <-? BuildThumbnail data (thumbMaxEdge l) (thumbQuality l) ;; Ok r.1.

Definition buildPlaceholderThumbJPEG : result string :=
  placeholder (if thumbQuality l <=? 0 then DefaultThumbQuality else thumbQuality l).

Definition ensureDirs : proc disk (result unit) :=
  _ <~? one (MkdirAll (originalDir l)) ;; one (MkdirAll (thumbDir l)).

(** *** Saving *)

(** [os.WriteFile] *)
Definition WriteFile (p : path) (data : string) : proc disk (result unit) :=
  i <~? one (OpenTrunc p) ;; write_pieces i (pieces data).

Definition writeAtomic (p : path) (data : string) : proc disk (result unit) :=
  let tmp := with_suffix p ".tmp" in
  _ <~? one (MkdirAll (Dir p)) ;;
  _ <~? WriteFile tmp data ;;
  r <~ one (Rename tmp p) ;;
  match r with
  | Err e => _ <~ one (Remove tmp) ;; Done (Err e)
  | Ok _ => Done (Ok tt)
  end.

(** In reverse order; failures are ignored. *)
Fixpoint remove_all (paths : list path) : proc disk unit :=
  match paths with
  | [] => Done tt
  | p :: paths => _ <~ one (Remove p) ;; remove_all paths
  end.
Definition removeFiles (paths : list path) : proc disk unit := remove_all (rev paths).

Definition ext_of (reference : bool) (src : SourceImage) : string :=
  if reference then (normalizeImageTypeWithFileName (SrcContentType src) (SrcFileName src) (SrcData src)).1
  else (normalizeImageType (SrcContentType src) (SrcData src)).1.

Definition thumb_of (reference : bool) (src : SourceImage) : result string :=
  match buildThumb (SrcData src) with
  | Ok t => Ok t
  | Err e => if reference then buildPlaceholderThumbJPEG else Err e
  end.

Definition kind_of (reference : bool) : string := if reference then ResourceReference else ResourceOriginal.
Definition thumb_kind_of (reference : bool) : string := if reference then ResourceReferenceThumb else ResourceThumb.

Definition original_path (taskID : string) (reference : bool) (src : SourceImage) : path :=
  Join (originalDir l) (originalFileName taskID (SrcIndex src) (kind_of reference) (ext_of reference src)).
Definition thumb_path (taskID : string) (reference : bool) (src : SourceImage) : path :=
  Join (thumbDir l) (thumbFileName taskID (SrcIndex src) (thumb_kind_of reference)).

Definition EType : goerr := EMsg "unsupported image type".

(** [ctx n] is what [ctx.Err()] says before the [n]th image. *)
Fixpoint save_loop (ctx : nat → result unit) (taskID : string) (reference : bool) (n : nat)
    (images : list SourceImage) (saved : list SavedImage) (cleanup : list path) : proc disk (result (list SavedImage)) :=
  match images with
  | [] => Done (Ok saved)
  | src :: images =>
      let fail e := (_ <~ removeFiles cleanup ;; Done (Err e)) in
      match ctx n with
      | Err e => fail e
      | Ok _ =>
          if String.eqb (ext_of reference src) "" then fail EType else
          let op := original_path taskID reference src in
          r <~ writeAtomic op (SrcData src) ;;
          match r with
          | Err e => fail e
          | Ok _ =>
              let cleanup := cleanup ++ [op] in
              let fail e := (_ <~ removeFiles cleanup ;; Done (Err e)) in
              match thumb_of reference src with
              | Err e => fail e
              | Ok thumbData =>
                  let tp := thumb_path taskID reference src in
                  r <~ writeAtomic tp thumbData ;;
                  match r with
                  | Err e => fail e
                  | Ok _ =>
                      save_loop ctx taskID reference (S n) images
                        (saved ++ [{| SavedIndex := SrcIndex src;
                                      OriginalName := originalFileName taskID (SrcIndex src) (kind_of reference) (ext_of reference src);
                                      ThumbName := thumbFileName taskID (SrcIndex src) (thumb_kind_of reference) |}])
                        (cleanup ++ [tp])
                  end
              end
          end
      end
  end.

Definition saveTaskImages (ctx : nat → result unit) (taskID : string) (images : list SourceImage) (reference : bool)
    : proc disk (result (list SavedImage)) :=
  _ <~? ensureDirs ;; save_loop ctx taskID reference O images [] [].
Definition SaveTaskImages ctx taskID images := saveTaskImages ctx taskID images false.
Definition SaveTaskReferences ctx taskID images := saveTaskImages ctx taskID images true.

(** *** Finding *)

Definition stat (p : path) : DISK (Z * Z) := query (λ d,
  if is_dir (d_names d) p then Ok (dir_stat p) else
  match d_names d !! p with
  | Some (Link i) =>
      match d_inodes d !! i with
      | Some n => Ok (Z.of_nat (String.length (i_data n)), i_mtime n)
      | None => Err ErrNotExist
      end
  | _ => Err ErrNotExist
  end).

Definition stated (p : path) (sm : Z * Z) (f : FileInfo) : FileInfo := {|
  Name := Name f; TaskID := TaskID f; Index := Index f; SizeBytes := sm.1; ModifiedAt := sm.2; Path := show_path p |}.

Definition statFile (p : path) (resource : string) : DISK (option FileInfo) :=
  r <- try (stat p) ;;
  match r with
  | Err e => if errors_Is e ErrNotExist then ret None else throw e
  | Ok sm => ret (stated p sm <$> parseFileInfo (name_of p) resource)
  end.

(** [filepath.Glob] of [stem.*] in [dir], sorted; a directory that cannot be
    read has no match. *)
Definition Glob (dir : path) (stem : string) : DISK (list path) :=
  r <- try (ReadDir dir) ;;
  match r with
  | Err _ => ret []
  | Ok es => ret (map (Join dir) (List.filter (λ n, HasPrefix n (stem +:+ ".")) (map fst es)))
  end.

Definition FindOriginal (taskID : string) (idx : Z) : proc disk (result (option FileInfo)) :=
  _ <~? ensureDirs ;;
  m <~? one (Glob (originalDir l) (taskID +:+ "_" +:+ itoa idx)) ;;
  match m with
  | [] => Done (Ok None)
  | p :: _ => one (statFile p ResourceOriginal)
  end.

Definition FindThumb (taskID : string) (idx : Z) : proc disk (result (option FileInfo)) :=
  _ <~? ensureDirs ;; one (statFile (Join (thumbDir l) (thumbFileName taskID idx ResourceThumb)) ResourceThumb).

Definition FindReference (taskID : string) (idx : Z) : proc disk (result (option FileInfo)) :=
  _ <~? ensureDirs ;;
  m <~? one (Glob (originalDir l) (fileStem taskID idx ResourceReference)) ;;
  match m with
  | [] => Done (Ok None)
  | p :: _ => one (statFile p ResourceReference)
  end.

Definition FindReferenceThumb (taskID : string) (idx : Z) : proc disk (result (option FileInfo)) :=
  _ <~? ensureDirs ;;
  one (statFile (Join (thumbDir l) (thumbFileName taskID idx ResourceReferenceThumb)) ResourceReferenceThumb).

(** [HasOriginal] and its siblings *)
Definition has (find : string → Z → proc disk (result (option FileInfo))) (taskID : string) (idx : Z) : proc disk (result bool) :=
  r <~? find taskID idx ;; Done (Ok (bool_decide (is_Some r))).
Definition HasOriginal := has FindOriginal.
Definition HasThumb := has FindThumb.
Definition HasReference := has FindReference.
Definition HasReferenceThumb := has FindReferenceThumb.

(** [ReadOriginal] and its siblings: the bytes and their type, if any. *)
Definition read (find : string → Z → proc disk (result (option FileInfo))) (dir : path)
    (content_type : string → string → string) (taskID : string) (idx : Z) : proc disk (result (option (string * string))) :=
  info <~? find taskID idx ;;
  match info with
  | None => Done (Ok None)
  | Some info =>
      r <~ one (ReadFile (Join dir (Name info))) ;;
      match r with
      | Err e => if errors_Is e ErrNotExist then Done (Ok None) else Done (Err e)
      | Ok data => Done (Ok (Some (data, content_type (Name info) data)))
      end
  end.
Definition ReadOriginal := read FindOriginal (originalDir l) (λ _ data, (normalizeImageType "" data).2).
Definition ReadThumb := read FindThumb (thumbDir l) (λ _ _, "image/jpeg").
Definition ReadReference :=
  read FindReference (originalDir l) (λ name data, (normalizeImageTypeWithFileName "" name data).2).
Definition ReadReferenceThumb := read FindReferenceThumb (thumbDir l) (λ _ _, "image/jpeg").

(** *** Administration *)

Fixpoint stat_entries (dir : path) (resource : string) (es : list (string * bool)) : proc disk (result (list FileInfo)) :=
  match es with
  | [] => Done (Ok [])
  | (_, true) :: es => stat_entries dir resource es
  | (name, false) :: es =>
      info <~? one (statFile (Join dir name) (normalizeResource resource)) ;;
      infos <~? stat_entries dir resource es ;;
      Done (Ok (match info with Some f => f :: infos | None => infos end))
  end.

(** Newest first, then by name. *)
Definition newer (a b : FileInfo) : bool :=
  if ModifiedAt a =? ModifiedAt b then String.leb (Name a) (Name b) else ModifiedAt b <? ModifiedAt a.

Definition page (items : list FileInfo) (limit offset : Z) : list FileInfo :=
  let total := Z.of_nat (length items) in
  let offset := if offset <? 0 then 0 else offset in
  if total <=? offset then [] else
  let end_ := wrap64 (offset + limit) in
  let end_ := if total <? end_ then total else end_ in
  take (Z.to_nat (end_ - offset)) (drop (Z.to_nat offset) items).

Definition ListFiles (resource : string) (limit offset : Z) : proc disk (result (list FileInfo * Z)) :=
  let limit := if limit <=? 0 then 50 else limit in
  let dir := dirFor l resource in
  _ <~? ensureDirs ;;
  es <~? one (ReadDir dir) ;;
  items <~? stat_entries dir resource es ;;
  Done (Ok (page (sort_by newer items) limit offset, Z.of_nat (length items))).

(** How many were deleted, and the error that ended it. *)
Fixpoint delete_loop (dir : path) (names : list string) (deleted : Z) : proc disk (Z * result unit) :=
  match names with
  | [] => Done (deleted, Ok tt)
  | name :: names =>
      let name := TrimSpace name in
      if String.eqb name "" || negb (String.eqb (Base name) name) then delete_loop dir names deleted
      else
        r <~ one (Remove (Join dir name)) ;;
        match r with
        | Ok _ => delete_loop dir names (deleted + 1)
        | Err e => if errors_Is e ErrNotExist then delete_loop dir names deleted else Done (deleted, Err e)
        end
  end.
Definition DeleteFiles (resource : string) (names : list string) : proc disk (Z * result unit) :=
  r <~ ensureDirs ;;
  match r with
  | Err e => Done (0, Err e)
  | Ok _ => delete_loop (dirFor l resource) names 0
  end.

(** [filepath.WalkDir]: the files below [dir], one by one. *)
Definition below (dir p : path) : bool :=
  Bool.eqb dir.1 p.1 && bool_decide (take (length dir.2) p.2 = dir.2) && (length dir.2 <? length p.2)%nat.
Definition WalkFiles (dir : path) : DISK (list path) := query (λ d,
  if is_dir (d_names d) dir then
    Ok (List.filter (λ p, below dir p && negb (is_dir (d_names d) p)) (map fst (map_to_list (d_names d))))
  else Err ErrNotExist).
Fixpoint sum_sizes (ps : list path) (total count : Z) : proc disk (result (Z * Z)) :=
  match ps with
  | [] => Done (Ok (total, count))
  | p :: ps => sm <~? one (stat p) ;; sum_sizes ps (wrap64 (total + sm.1)) (wrap64 (count + 1))
  end.
Definition dirUsage (dir : path) : proc disk (result (Z * Z)) :=
  ps <~? one (WalkFiles dir) ;; sum_sizes ps 0 0.

Definition uint64 (z : Z) : Z := z mod 2 ^ 64.

Definition DiskStats : proc disk (result DiskInfo) :=
  _ <~? ensureDirs ;;
  st <~? one (query (statfs (rootDir l))) ;;
  o <~? dirUsage (originalDir l) ;;
  t <~? dirUsage (thumbDir l) ;;
  let '(blocks, bavail, bsize) := st in
  let totalBytes := uint64 (blocks * bsize) in
  let freeBytes := uint64 (bavail * bsize) in
  let usedBytes := uint64 (totalBytes - freeBytes) in
  Done (Ok {| TotalBytes := totalBytes; UsedBytes := usedBytes; FreeBytes := freeBytes;
              UsedPercent := if 0 <? totalBytes then fdiv (fmul (of_int usedBytes) (of_int 100)) (of_int totalBytes) else 0%Q;
              OriginalBytes := o.1; ThumbBytes := t.1; OriginalFileCount := o.2; ThumbFileCount := t.2 |}).

(** ** handler.go *)

(** A query parameter and its default; [Atoi]'s value next to an error is
    [ParseInt_value]. *)
Definition query_int (q : option string) (default : string) : Z :=
  ParseInt_value match q with Some s => s | None => default end.

(** Items, total, limit and offset of a page. *)
Definition list_page (resource : string) (limit offset : option string) (text : goerr → string)
    : proc disk (answer (list FileInfo * Z * Z * Z)) :=
  let limit := query_int limit "50" in
  let offset := query_int offset "0" in
  let limit := if limit <=? 0 then 50 else limit in
  let limit := if 200 <? limit then 200 else limit in
  let offset := if offset <? 0 then 0 else offset in
  r <~ ListFiles resource limit offset ;;
  Done (match r with
        | Err e => Internal (text e)
        | Ok (items, total) => OK (items, total, limit, offset)
        end).
Definition ListOriginal := list_page ResourceOriginal.
Definition ListThumb := list_page ResourceThumb.

(** The names of the body, [None] when it does not bind. *)
Definition remove (resource : string) (names : option (list string)) (text : goerr → string)
    : proc disk (answer (Z * string)) :=
  match names with
  | None | Some [] => Done (BadRequest "names required")
  | Some names =>
      r <~ DeleteFiles resource names ;;
      Done (match r with
            | (_, Err e) => Internal (text e)
            | (deleted, Ok _) => OK (deleted, resource)
            end)
  end.
Definition DeleteOriginal := remove ResourceOriginal.
Definition DeleteThumb := remove ResourceThumb.

Definition Stats (text : goerr → string) : proc disk (answer DiskInfo) :=
  r <~ DiskStats ;; Done (match r with Err e => Internal (text e) | Ok info => OK info end).
End store.
