(* ===== verification/DiskSpec.v ===== *)
(** * What is on disk is whole (internal/imagestore)

    Names tell tasks apart; whatever the requests do to the disk and wherever
    they are interrupted, a file under its final name holds all of an image
    that was saved; what was saved is what is read. *)

From stdpp Require Import strings.
From S2P Require Import Prelude GoStrings Sql Proc Rely Archive Inputs ImageStore.

#[local] Open Scope Z_scope.

(** ** Names *)

(** What the ids of tasks and the numbers in names are made of. *)
Definition safe_char (c : ascii) : bool :=
  is_digit c || is_lower c || is_upper c || Ascii.eqb c "_" || Ascii.eqb c "-".
Definition plain_task (t : string) : bool := forallb safe_char (bytes t) && negb (HasPrefix (t +:+ "_") "ref_").

Abbreviation safe l := (Forall (λ c, safe_char c = true) l).

Lemma safe_without c l : safe_char c = false → safe l → c ∉ l.
Proof. intros Hc Hl Hin. rewrite Forall_forall in Hl. by rewrite (Hl _ Hin) in Hc. Qed.

Lemma plain_safe t : plain_task t = true → safe (bytes t).
Proof. intros [H _]%andb_true_iff. apply Forall_forall. intros c Hc. rewrite forallb_forall in H. by apply H, list_elem_of_In. Qed.

Lemma itoa_safe z : safe (bytes (itoa z)).
Proof.
  eapply Forall_impl; [apply itoa_chars|]. intros c. unfold safe_char. destruct (is_digit c); [done|].
  cbn. intros ->. by rewrite !orb_true_r.
Qed.

Lemma fileStem_safe t i r : plain_task t = true → safe (bytes (fileStem t i r)).
Proof.
  intros Ht. unfold fileStem. rewrite !bytes_app, !Forall_app. split_and!.
  - destruct (is_reference r); repeat constructor.
  - by apply plain_safe.
  - repeat constructor.
  - apply itoa_safe.
Qed.

Lemma fileStem_inj t i r t' i' r' :
  plain_task t = true → plain_task t' = true → fileStem t i r = fileStem t' i' r' →
  t = t' ∧ i = i' ∧ is_reference r = is_reference r'.
Proof.
  intros Ht Ht' E%(f_equal bytes). unfold fileStem in E. rewrite !bytes_app, !app_assoc in E.
  change (bytes "_") with ["_"%char] in E. rewrite <-!(app_assoc _ ["_"%char]) in E. cbn [app] in E.
  apply sep_last in E as [E Hi]; [|by apply itoa_without..].
  apply bytes_inj, (inj pretty) in Hi. rewrite <- !bytes_app in E. apply bytes_inj in E.
  apply andb_true_iff in Ht as [_ Ht]. apply andb_true_iff in Ht' as [_ Ht'].
  destruct (is_reference r), (is_reference r'); cbn [String.append] in E; try done.
  - apply (f_equal (string_drop 4)) in E. by cbn in E.
  - assert (t' = "ref_" +:+ t) as -> by (symmetry; exact E). done.
  - assert (t = "ref_" +:+ t') as -> by exact E. done.
Qed.

(** A name of one element: [Join] puts it behind the directory. *)
Definition plain_name (n : string) : Prop := "/"%char ∉ bytes n ∧ n ≠ "" ∧ n ≠ "." ∧ n ≠ "..".

Lemma valid_plain n : valid_name n = true ↔ plain_name n.
Proof.
  unfold valid_name, plain_name. rewrite andb_true_iff, !negb_true_iff. cbn [existsb]. rewrite !orb_false_iff, !String.eqb_neq.
  assert (existsb (Ascii.eqb "/") (bytes n) = false ↔ "/"%char ∉ bytes n) as ->; [|tauto].
  rewrite <- not_true_iff_false, existsb_exists. split; intros H; contradict H.
  - exists "/"%char. split; [by apply list_elem_of_In|done].
  - destruct H as (c & Hc & <-%Ascii.eqb_eq). by apply list_elem_of_In.
Qed.

Lemma split_bytes_whole c acc l : c ∉ l → split_bytes c acc l = [of_bytes (rev acc ++ l)].
Proof.
  revert acc. induction l as [|a l IH]; intros acc Hl; cbn; [by rewrite app_nil_r|].
  destruct (Ascii.eqb_spec a c) as [->|Hne]; [set_solver|]. rewrite IH by set_solver. cbn. by rewrite <-app_assoc.
Qed.

Lemma Join_plain p n : plain_name n → Join p n = (p.1, p.2 ++ [n]).
Proof.
  intros (Hs & H0 & H1 & H2). unfold Join, Split. rewrite split_bytes_whole by done. cbn [rev app fold_left].
  rewrite of_bytes_bytes. unfold clean_step.
  destruct (String.eqb_spec n ""), (String.eqb_spec n "."), (String.eqb_spec n ".."); try done. cbn. by rewrite rev_involutive.
Qed.

Lemma stem_plain_name pre t i r tail :
  plain_task t = true → safe (bytes pre) → Forall (λ c, Ascii.eqb c "/" = false) (bytes tail) →
  plain_name (pre +:+ fileStem t i r +:+ "." +:+ tail).
Proof.
  intros Ht Hpre Htail. assert ("_"%char ∈ bytes (pre +:+ fileStem t i r +:+ "." +:+ tail)) as Hu.
  { unfold fileStem. rewrite !bytes_app. set_solver. }
  split_and!; [|intros E; rewrite E in Hu; cbn in Hu; set_solver..].
  rewrite !bytes_app, !elem_of_app. intros [H|[H|[H|H]]].
  - by apply (safe_without "/" _ eq_refl Hpre).
  - by apply (safe_without "/" _ eq_refl (fileStem_safe t i r Ht)).
  - cbn in H. set_solver.
  - rewrite Forall_forall in Htail. by specialize (Htail _ H).
Qed.

(** ** Whose name it is *)

Section names.
Context (l : Local).

(** A request that saves the images, or the references, of a task owns all
    names that begin with a stem of these. *)
Definition owner : Type := string * bool.
Definition kind (reference thumb : bool) : string :=
  if thumb then thumb_kind_of reference else kind_of reference.
Definition own (o : owner) (q : path) : Prop := ∃ i tail,
  q = ((originalDir l).1, (originalDir l).2 ++ [fileStem o.1 i (kind_of o.2) +:+ "." +:+ tail]) ∨
  q = ((thumbDir l).1, (thumbDir l).2 ++ ["tmp_" +:+ fileStem o.1 i (thumb_kind_of o.2) +:+ "." +:+ tail]).

Lemma kind_reference b : is_reference (kind_of b) = b ∧ is_reference (thumb_kind_of b) = b.
Proof. by destruct b. Qed.

Lemma stem_tail_inj t i r tail t' i' r' tail' :
  plain_task t = true → plain_task t' = true →
  fileStem t i r +:+ "." +:+ tail = fileStem t' i' r' +:+ "." +:+ tail' →
  t = t' ∧ i = i' ∧ is_reference r = is_reference r' ∧ tail = tail'.
Proof.
  intros Ht Ht' E%(f_equal bytes). rewrite !bytes_app in E. change (bytes ".") with ["."%char] in E. cbn [app] in E.
  apply sep_first in E as [E Htail]; [|by apply safe_without, fileStem_safe..].
  apply bytes_inj in E, Htail. apply fileStem_inj in E as (-> & -> & ->); done.
Qed.

Lemma last_inj {A} (p p' : bool * list A) a a' : (p.1, p.2 ++ [a]) = (p'.1, p'.2 ++ [a']) → p = p' ∧ a = a'.
Proof. destruct p, p'. cbn. intros [= -> E]. by apply app_inj_tail in E as [-> ->]. Qed.

Lemma own_one (Hdirs : originalDir l ≠ thumbDir l) o o' q :
  plain_task o.1 = true → plain_task o'.1 = true → own o q → own o' q → o = o'.
Proof.
  intros Ho Ho' (i & tail & H) (i' & tail' & H'). destruct o as [t b], o' as [t' b']. cbn in *.
  destruct H as [-> | ->], H' as [E|E]; apply last_inj in E as [E1 E2]; try by (symmetry in E1; done) || done.
  - apply stem_tail_inj in E2 as (-> & _ & E & _); [|done..]. rewrite !(proj1 (kind_reference _)) in E. by subst.
  - apply (f_equal (string_drop 4)) in E2. cbn in E2. apply stem_tail_inj in E2 as (-> & _ & E & _); [|done..].
    rewrite !(proj2 (kind_reference _)) in E. by subst.
Qed.
End names.

Lemma NewLocal_dirs root edge quality : originalDir (NewLocal root edge quality) ≠ thumbDir (NewLocal root edge quality).
Proof.
  unfold NewLocal. cbn. rewrite !Join_plain by (split_and!; [cbn; set_solver|done..]). intros [= E].
  by apply app_inj_tail in E as [_ E].
Qed.

(** ** Temporary names *)

Definition is_tmp (q : path) : bool := HasSuffix (name_of q) ".tmp".
Arguments is_tmp : simpl never.

Lemma HasSuffix_app s t : HasSuffix (s +:+ t) t = true.
Proof.
  unfold HasSuffix. apply HasPrefix_spec. exists (of_bytes (rev (bytes s))). apply bytes_inj.
  by rewrite !bytes_app, !bytes_of_bytes, rev_app_distr.
Qed.

Lemma name_of_last (dir : path) n : name_of (dir.1, dir.2 ++ [n]) = n.
Proof. unfold name_of. cbn. apply last_last. Qed.

Lemma with_suffix_last (dir : path) n s : with_suffix (dir.1, dir.2 ++ [n]) s = (dir.1, dir.2 ++ [n +:+ s]).
Proof.
  unfold with_suffix. rewrite name_of_last. cbn [fst snd]. rewrite removelast_last.
  destruct (dir.2 ++ [n]) as [|x q] eqn:E; [by apply app_eq_nil in E as [_ ?]|done].
Qed.

Lemma Dir_last (dir : path) n : Dir (dir.1, dir.2 ++ [n]) = dir.
Proof. unfold Dir. cbn. rewrite removelast_last. by destruct dir. Qed.

Lemma not_tmp s ext : ext ∈ ["png"; "jpg"; "webp"] → HasSuffix (s +:+ "." +:+ ext) ".tmp" = false.
Proof.
  intros H. unfold HasSuffix. rewrite !bytes_app, !rev_app_distr.
  repeat (apply elem_of_cons in H as [->|H]; [done|]). by apply not_elem_of_nil in H.
Qed.

(** ** Keeping to one's names *)

Section disk.
Context (l : Local) (apart_dirs : originalDir l ≠ thumbDir l).
(** What may be found under a final name. *)
Context (legit : path → string → Prop).

Record sound (final : path → string → Prop) (d : disk) : Prop := {
  sound_old i n : d_inodes d !! i = Some n → (i < d_next d)%N;
  sound_link p i : d_names d !! p = Some (Link i) →
    ∃ n, d_inodes d !! i = Some n ∧ (if is_tmp p then i_born n = p else final p (i_data n));
  sound_one p p' i : d_names d !! p = Some (Link i) → d_names d !! p' = Some (Link i) → p = p'
}.
Abbreviation J := (sound legit).

(** Only plain ids make owners. *)
Definition owns (o : option owner) (q : path) : Prop :=
  match o with Some o => plain_task o.1 = true ∧ own l o q | None => False end.

Record changes (o : option owner) (d d' : disk) : Prop := {
  changes_links p i : d_names d' !! p = Some (Link i) →
    d_names d !! p = Some (Link i) ∨ ∃ n, d_inodes d' !! i = Some n ∧ owns o (i_born n);
  changes_data i n : d_inodes d !! i = Some n →
    ∃ n', d_inodes d' !! i = Some n' ∧ i_born n' = i_born n ∧ (n' = n ∨ owns o (i_born n))
}.

Lemma owns_others o o' q : owns (Some o) q → (o' ≠ Some o ∨ o' = None) → owns o' q → False.
Proof.
  intros [Ho Hq] Hne Hq'. destruct o' as [o'|]; [|done]. destruct Hq' as [Ho' Hq']. destruct Hne as [Hne|]; [|done].
  apply Hne. f_equal. by apply (own_one l apart_dirs o' o q).
Qed.

(** Calls that add no link and touch no inode. *)
Class Harmless {A} (m : DISK A) : Prop := harmless w :
  d_inodes (w_db (m w).2) = d_inodes (w_db w) ∧ d_next (w_db (m w).2) = d_next (w_db w) ∧
  ∀ p i, d_names (w_db (m w).2) !! p = Some (Link i) → d_names (w_db w) !! p = Some (Link i).

Lemma harmless_sound final {A} (m : DISK A) `{!Harmless m} w : sound final (w_db w) → sound final (w_db (m w).2).
Proof.
  destruct (harmless w) as (H1 & H2 & H3). intros [S1 S2 S3]. split; rewrite ?H1, ?H2; [done| |]; eauto.
Qed.

Lemma harmless_changes o {A} (m : DISK A) `{!Harmless m} w : changes o (w_db w) (w_db (m w).2).
Proof. destruct (harmless w) as (H1 & H2 & H3). split; rewrite ?H1; eauto. Qed.

Lemma call_harmless {A} (f : disk → result A * disk) :
  (∀ d, d_inodes (f d).2 = d_inodes d ∧ d_next (f d).2 = d_next d ∧
     ∀ p i, d_names (f d).2 !! p = Some (Link i) → d_names d !! p = Some (Link i)) → Harmless (call f).
Proof. intros Hf [d fs]. unfold call. cbn. pose proof (Hf d) as H.
  destruct (f d) as [r d']. by destruct fs as [|[] fs]. Qed.

#[export] Instance query_harmless {A} (f : disk → result A) : Harmless (query f).
Proof. by apply call_harmless. Qed.

Lemma mkdirs_links ps names names' p i :
  mkdirs ps names = Some names' → names' !! p = Some (Link i) → names !! p = Some (Link i).
Proof.
  revert names. induction ps as [|q ps IH]; intros names; cbn; [by intros [= ->]|]. destruct (is_dir names q); [eauto|].
  destruct (names !! q) eqn:Hq; [done|]. intros Hm Hp. apply IH in Hm; [|done].
  destruct (decide (p = q)) as [->|]; [by rewrite lookup_insert_eq in Hm|by rewrite lookup_insert_ne in Hm].
Qed.

#[export] Instance MkdirAll_harmless p : Harmless (MkdirAll p).
Proof.
  apply call_harmless. intros d. destruct (mkdirs _ _) as [names|] eqn:E; cbn; [|done]. split_and!; [done|done|].
  intros q i. by apply (mkdirs_links _ _ _ _ _ E).
Qed.

#[export] Instance Remove_harmless p : Harmless (Remove p).
Proof.
  apply call_harmless. intros d. repeat case_match; cbn; split_and!; try done; intros q i H'; by apply lookup_delete_Some in H' as [_ ?].
Qed.

#[export] Instance ret_harmless {A} (a : A) : Harmless (ret a).
Proof. by intros w. Qed.
#[export] Instance throw_harmless {A} e : Harmless (throw (A:=A) e).
Proof. by intros w. Qed.
#[export] Instance bind_harmless {A B} (m : DISK A) (k : A → DISK B) :
  Harmless m → (∀ a, Harmless (k a)) → Harmless (bind m k).
Proof.
  intros Hm Hk w. unfold bind. specialize (Hm w). destruct (m w) as [[a|e] w1]; cbn in *; [|done].
  destruct Hm as (H1 & H2 & H3), (Hk a w1) as (H4 & H5 & H6). rewrite H4, H5. eauto.
Qed.
#[export] Instance try_harmless {A} (m : DISK A) : Harmless m → Harmless (try m).
Proof. intros Hm w. unfold try. specialize (Hm w). by destruct (m w). Qed.
#[export] Instance statFile_harmless ds p r : Harmless (statFile ds p r).
Proof. unfold statFile. apply bind_harmless; [apply _|]. intros [sm|e]; [|case_match]; apply _. Qed.
#[export] Instance Glob_harmless dir stem : Harmless (Glob dir stem).
Proof. unfold Glob. apply bind_harmless; [apply _|]. intros [es|e]; apply _. Qed.
#[export] Instance ReadDir_harmless p : Harmless (ReadDir p) := _.
#[export] Instance ReadFile_harmless p : Harmless (ReadFile p) := _.
#[export] Instance stat_harmless ds p : Harmless (stat ds p) := _.
#[export] Instance WalkFiles_harmless p : Harmless (WalkFiles p) := _.

(** *** A request as it goes along *)

Abbreviation fair o p Q := (polite J changes o (λ _, True) p Q).

Lemma fair_call {A B} o (m : DISK A) (k : result A → proc disk B) Q :
  Harmless m → (∀ r, fair o (k r) Q) → fair o (Call m k) Q.
Proof.
  intros Hm Hk. intros _. exists (λ _, True), (λ _ _, True). split_and!; [done|done| |auto].
  intros w Hw _. split_and!; [by apply harmless_sound|by apply harmless_changes|done].
Qed.

Lemma fair_one {A} o (m : DISK A) : Harmless m → fair o (one m) (λ _ _, True).
Proof. intros Hm. by apply fair_call. Qed.

Lemma fair_bind {A B} o (p : proc disk A) (k : A → proc disk B) :
  fair o p (λ _ _, True) → (∀ a, fair o (k a) (λ _ _, True)) → fair o (pbind p k) (λ _ _, True).
Proof. intros Hp Hk. eapply polite_pbind; [exact Hp|auto]. Qed.

Lemma fair_bind_ok {A B} o (p : proc disk (result A)) (k : A → proc disk (result B)) :
  fair o p (λ _ _, True) → (∀ a, fair o (k a) (λ _ _, True)) → fair o (pbind_ok p k) (λ _ _, True).
Proof. intros Hp Hk. apply fair_bind; [done|]. by intros [a|e]; [apply Hk|]. Qed.

Lemma fair_done {A} o (a : A) : fair o (Done a) (λ _ _, True).
Proof. done. Qed.
(** *** Writing a file through its temporary name *)

(** [done_] is in the inode [i], which is at most the temporary file [q]. *)
Definition writing (q : path) (i : N) (done_ : string) (d : disk) : Prop :=
  (∃ n, d_inodes d !! i = Some n ∧ i_born n = q ∧ i_data n = done_) ∧
  (∀ p, d_names d !! p = Some (Link i) → p = q) ∧
  (∀ j, d_names d !! q = Some (Link j) → j = i).

Lemma writing_stable o q i done_ :
  owns (Some o) q → is_tmp q = true → stable J changes (Some o) (writing q i done_).
Proof.
  intros Ho Hq d d' _ [_ HJ' _] (o' & Hne & [Hl Hd]) ((n & Hn & Hb & Hda) & Honly & Hq1).
  assert (owns o' q → False) as Hno by by apply (owns_others o).
  destruct (Hd _ _ Hn) as (n' & Hn' & Hb' & [->|Ho']); [|by rewrite Hb in Ho'].
  split_and!; [eauto| |].
  - intros p Hp. destruct (Hl _ _ Hp) as [?|(m & Hm & Hom)]; [auto|]. exfalso. apply Hno. by simplify_eq.
  - intros j Hj. destruct (Hl _ _ Hj) as [?|(m & Hm & Hom)]; [auto|].
    destruct (HJ' _ _ Hj) as (m' & Hm' & Hbm). rewrite Hq in Hbm. exfalso. apply Hno. rewrite <- Hbm. congruence.
Qed.

(** A call that goes through, or fails without effect. *)
Lemma call_either {A} (f : disk → result A * disk) (P : result A → disk → disk → Prop) w :
  (∀ e, P (Err e) (w_db w) (w_db w)) → P (f (w_db w)).1 (w_db w) (f (w_db w)).2 →
  P (call f w).1 (w_db w) (w_db (call f w).2).
Proof. intros He Hf. destruct w as [d fs]. unfold call. cbn in *. revert Hf.
  destruct (f d). destruct fs as [|[] fs]; cbn; auto. Qed.

Lemma stays o d : changes o d d.
Proof. split; [auto|]. intros i n Hn. eauto. Qed.

Definition opened (q : path) (r : result N) (d : disk) : Prop :=
  match r with Ok i => writing q i "" d | Err _ => True end.

Lemma changes_alter o d d' i f :
  d_names d' = d_names d → d_inodes d' = alter f i (d_inodes d) →
  (∀ n, d_inodes d !! i = Some n → i_born (f n) = i_born n ∧ owns o (i_born n)) → changes o d d'.
Proof.
  intros Hn Hi Hf. split; rewrite ?Hn, ?Hi; [auto|]. intros j n Hj.
  destruct (decide (i = j)) as [->|]; [|rewrite lookup_alter_ne by done; eauto].
  rewrite lookup_alter_eq, Hj. cbn. destruct (Hf n Hj) as [Hb Ho]. eauto.
Qed.

Lemma sound_alter d d' i f q :
  d_names d' = d_names d → d_inodes d' = alter f i (d_inodes d) → d_next d' = d_next d →
  (∀ n, i_born (f n) = i_born n) → is_tmp q = true → (∀ p, d_names d !! p = Some (Link i) → p = q) → J d → J d'.
Proof.
  intros Hn Hi Hx Hf Hq Honly [S1 S2 S3]. split; rewrite ?Hn, ?Hi, ?Hx; [| |done].
  - intros j n. rewrite lookup_alter_Some. intros [(<- & n' & Hn' & _)|[_ Hn']]; eauto.
  - intros p j Hp. destruct (S2 _ _ Hp) as (n & Hn' & Hb). destruct (decide (i = j)) as [->|].
    + rewrite lookup_alter_eq, Hn'. cbn. pose proof (Honly _ Hp) as ->. rewrite Hq in Hb |- *.
      eexists. split; [done|]. by rewrite Hf.
    + rewrite lookup_alter_ne by done. eauto.
Qed.

Lemma OpenTrunc_step o q w :
  owns (Some o) q → is_tmp q = true → J (w_db w) →
  J (w_db (OpenTrunc q w).2) ∧ changes (Some o) (w_db w) (w_db (OpenTrunc q w).2) ∧
  opened q (OpenTrunc q w).1 (w_db (OpenTrunc q w).2).
Proof.
  intros Ho Hq HJ. apply (call_either _ (λ r d d', J d' ∧ changes (Some o) d d' ∧ opened q r d')).
  { intros e. split_and!; [done|apply stays|done]. }
  destruct w as [d fs]. cbn in *. destruct (is_dir (d_names d) q) eqn:Hdq; cbn; [split_and!; [done|apply stays|done]|].
  pose proof HJ as [S1 S2 S3]. destruct (d_names d !! q) as [[|i]|] eqn:Hl.
  { apply orb_false_iff in Hdq as [_ Hdq]. by apply bool_decide_eq_false in Hdq. }
  - destruct (S2 _ _ Hl) as (n & Hn & Hb). rewrite Hq in Hb. cbn. split_and!.
    + eapply (sound_alter d); [reflexivity|reflexivity|reflexivity|done|exact Hq| |exact HJ]. intros p Hp. by apply (S3 _ _ i).
    + eapply changes_alter; [reflexivity|reflexivity|]. intros n' Hn'. simplify_eq. by cbn.
    + split_and!; cbn.
      * exists {| i_data := ""; i_mtime := clock d; i_born := i_born n |}. by rewrite lookup_alter_eq, Hn.
      * intros p Hp. by apply (S3 _ _ i).
      * intros j Hj. congruence.
  - destruct (is_dir _ (Dir q)); cbn; [|split_and!; [done|apply stays|done]].
    assert (d_inodes d !! d_next d = None) as Hfresh.
    { destruct (d_inodes d !! d_next d) eqn:E; [|done]. apply S1 in E. lia. }
    assert (∀ p, d_names d !! p ≠ Some (Link (d_next d))) as Hnone.
    { intros p Hp. apply S2 in Hp as (n & Hn & _). congruence. }
    split_and!.
    + split; cbn.
      * intros i n. rewrite lookup_insert_Some. intros [[<- _]|[_ Hn]]; [lia|]. apply S1 in Hn. lia.
      * intros p i. rewrite lookup_insert_Some. intros [[<- [= <-]]|[_ Hp]].
        -- rewrite lookup_insert_eq. eexists. split; [done|]. by rewrite Hq.
        -- destruct (S2 _ _ Hp) as (n & Hn & Hb). rewrite lookup_insert_ne by congruence. eauto.
      * intros p p' i. rewrite !lookup_insert_Some. intros [[<- [= <-]]|[_ Hp]] [[<- Hi]|[_ Hp']]; try done.
        -- by apply Hnone in Hp'.
        -- injection Hi as <-. by apply Hnone in Hp.
        -- by apply (S3 _ _ i).
    + split; cbn.
      * intros p i. rewrite lookup_insert_Some. intros [[<- [= <-]]|[_ Hp]]; [|by left]. right.
        rewrite lookup_insert_eq. eexists. split; [done|]. done.
      * intros i n Hn. rewrite lookup_insert_ne by congruence. eauto.
    + split_and!; cbn.
      * rewrite lookup_insert_eq. eexists. by split_and!.
      * intros p. rewrite lookup_insert_Some. intros [[<- _]|[_ Hp]]; [done|]. by apply Hnone in Hp.
      * intros j. rewrite lookup_insert_eq. by intros [= <-].
Qed.

Lemma Append_step o q i s done_ w :
  owns (Some o) q → is_tmp q = true → J (w_db w) → writing q i done_ (w_db w) →
  J (w_db (Append i s w).2) ∧ changes (Some o) (w_db w) (w_db (Append i s w).2) ∧
  match (Append i s w).1 with Ok _ => writing q i (done_ +:+ s) (w_db (Append i s w).2) | Err _ => True end.
Proof.
  intros Ho Hq HJ ((n & Hn & Hb & Hd) & Honly & Hone).
  apply (call_either _ (λ r d d', J d' ∧ changes (Some o) d d' ∧ match r with Ok _ => writing q i (done_ +:+ s) d' | Err _ => True end)).
  { intros e. split_and!; [done|apply stays|done]. }
  destruct w as [d fs]. cbn in *. split_and!.
  - eapply (sound_alter d); [reflexivity|reflexivity|reflexivity|done|exact Hq|exact Honly|exact HJ].
  - eapply changes_alter; [reflexivity|reflexivity|]. intros n' Hn'. simplify_eq. by cbn.
  - split_and!; cbn; [|done|done]. rewrite lookup_alter_eq, Hn. eexists. split; [done|]. cbn. by subst.
Qed.

Lemma fair_write o q i ps done_ :
  owns (Some o) q → is_tmp q = true →
  polite J changes (Some o) (writing q i done_) (write_pieces i ps)
    (λ r d, match r with Ok _ => writing q i (done_ +:+ concat_strings ps) d | Err _ => True end).
Proof.
  intros Ho Hq. revert done_. induction ps as [|s ps IH]; intros done_; cbn [write_pieces concat_strings].
  { intros d _ Hd. by rewrite string_app_nil_r. }
  apply (polite_pbind _ _ _ _ _ _ (λ r d, match r with Ok _ => writing q i (done_ +:+ s) d | Err _ => True end));
    [apply polite_one; [by apply writing_stable|]|].
  - intros w HJ Hw. apply (Append_step o q i s done_ w Ho Hq HJ Hw).
  - intros [[]|e] _ _ _; cbn beta iota; [|done]. rewrite <- string_app_assoc. apply IH.
Qed.

Lemma Rename_step o q p i data w :
  owns (Some o) q → is_tmp q = true → is_tmp p = false → legit p data → J (w_db w) → writing q i data (w_db w) →
  J (w_db (Rename q p w).2) ∧ changes (Some o) (w_db w) (w_db (Rename q p w).2).
Proof.
  intros Ho Hq Hp Hlegit HJ ((n & Hn & Hb & Hd) & Honly & Hone).
  apply (call_either _ (λ r d d', J d' ∧ changes (Some o) d d')).
  { intros e. split; [done|apply stays]. }
  destruct w as [d fs]. cbn in *. destruct (d_names d !! q) as [[|j]|] eqn:Hl; cbn; [split; [done|apply stays]| |split; [done|apply stays]].
  pose proof (Hone _ eq_refl) as ->. destruct (is_dir _ p); cbn; [split; [done|apply stays]|].
  destruct HJ as [S1 S2 S3]. assert (∀ p', p' ≠ q → d_names d !! p' ≠ Some (Link i)) as Hno by (intros p' Hp' H; by apply Honly in H).
  split.
  - split; cbn; [done| |].
    + intros p' j'. rewrite lookup_insert_Some, lookup_delete_Some. intros [[<- [= <-]]|(_ & Hne & Hp')]; [|by apply S2].
      exists n. split; [done|]. rewrite Hp. by subst.
    + intros p1 p2 j'. rewrite !lookup_insert_Some, !lookup_delete_Some.
      intros [[<- [= <-]]|(_ & Hne & Hp1)] [[<- E]|(_ & Hne2 & Hp2)]; try done.
      * by apply Hno in Hp2.
      * injection E as <-. by apply Hno in Hp1.
      * by apply (S3 _ _ j').
  - split; cbn; [|eauto]. intros p' j'. rewrite lookup_insert_Some, lookup_delete_Some.
    intros [[<- [= <-]]|(_ & _ & Hp')]; [|by left]. right. exists n. by subst q.
Qed.

Context (pieces : string → list string) (pieces_whole : ∀ s, concat_strings (pieces s) = s).

(** The file becomes visible at once, and whole. *)
Lemma fair_writeAtomic o p data :
  owns (Some o) (with_suffix p ".tmp") → is_tmp (with_suffix p ".tmp") = true → is_tmp p = false → legit p data →
  fair (Some o) (writeAtomic pieces p data) (λ _ _, True).
Proof.
  intros Ho Hq Hp Hlegit. unfold writeAtomic. apply fair_bind_ok; [by apply fair_one; apply _|]. intros _.
  eapply polite_pbind.
  - unfold WriteFile. eapply polite_pbind; [eapply polite_one; [done|]|].
    + intros w HJ _. by apply (OpenTrunc_step o _ w).
    + intros [i|e] _ _ _; cbn beta iota; [eapply polite_weaken; [by apply (fair_write o (with_suffix p ".tmp") i (pieces data) "")|done|]|].
      * intros r d _ H. rewrite pieces_whole in H. 
        instantiate (1 := λ r d, match r with Ok _ => ∃ i, writing (with_suffix p ".tmp") i data d | Err _ => True end).
        destruct r; cbn; [by exists i|done].
      * done.
  - intros [[]|e] _ _ _; cbn beta iota; [|done].
    eapply polite_pbind with (Q := λ _ _, True).
    + eapply polite_one.
      * intros d d' HJ HJ' Hoth (i & Hw). exists i. by apply (writing_stable o _ i data Ho Hq d d').
      * intros w HJ (i & Hw). destruct (Rename_step o _ p i data w Ho Hq Hp Hlegit HJ Hw). done.
    + intros [[]|e] _ _ _; [done|]. apply fair_bind; [by apply fair_one; apply _|done].
Qed.
End disk.

Ltac fair_steps :=
  repeat first
    [ solve [auto 2]
    | apply fair_done
    | apply fair_bind_ok; [|intros ?]
    | apply fair_bind; [|intros ?]
    | apply fair_one; typeclasses eauto
    | match goal with |- polite _ _ _ _ (match ?x with _ => _ end) _ => destruct x end
    | match goal with |- polite _ _ _ _ (let '_ := ?x in _) _ => destruct x end ].

(** ** Where an image goes *)

Section places.
Context (l : Local) (DetectContentType : string → string).
Abbreviation ext := (ext_of DetectContentType).

Lemma normalizeImageType_ext ct data : (normalizeImageType DetectContentType ct data).1 ∈ [""; "png"; "jpg"; "webp"].
Proof. unfold normalizeImageType. repeat case_match; cbn; set_solver. Qed.

Lemma imageTypeFromFileName_ext n : (imageTypeFromFileName n).1 ∈ [""; "png"; "jpg"; "webp"].
Proof. unfold imageTypeFromFileName. repeat case_match; cbn; set_solver. Qed.

Lemma ext_of_any reference src : ext reference src ∈ [""; "png"; "jpg"; "webp"].
Proof.
  unfold ext_of, normalizeImageTypeWithFileName. destruct reference; [|apply normalizeImageType_ext].
  repeat case_match; [apply normalizeImageType_ext..|apply imageTypeFromFileName_ext].
Qed.

Lemma ext_of_known reference src : ext reference src ≠ "" → ext reference src ∈ ["png"; "jpg"; "webp"].
Proof. intros H. pose proof (ext_of_any reference src) as Hin. by apply elem_of_cons in Hin as [?|?]. Qed.

Lemma known_no_slash e : e ∈ [""; "png"; "jpg"; "webp"] → Forall (λ c, Ascii.eqb c "/" = false) (bytes e).
Proof. intros H. repeat (apply elem_of_cons in H as [->|H]; [repeat constructor|]). by apply not_elem_of_nil in H. Qed.

Lemma original_path_plain t reference src : plain_task t = true →
  original_path l DetectContentType t reference src = ((originalDir l).1, (originalDir l).2 ++
    [fileStem t (SrcIndex src) (kind_of reference) +:+ "." +:+ ext reference src]).
Proof.
  intros Ht. apply Join_plain. apply (stem_plain_name ""); [done|constructor|]. apply known_no_slash, ext_of_any.
Qed.

Lemma thumb_path_plain t reference src : plain_task t = true →
  thumb_path l t reference src = ((thumbDir l).1, (thumbDir l).2 ++
    ["tmp_" +:+ fileStem t (SrcIndex src) (thumb_kind_of reference) +:+ "." +:+ "jpg"]).
Proof. intros Ht. apply Join_plain. apply (stem_plain_name "tmp_"); [done|repeat constructor..]. Qed.
End places.

(** ** Files are whole *)

Section whole.
Context (l : Local) (apart_dirs : originalDir l ≠ thumbDir l).
Context {I : Type} (Decode : string → result (I * Z * Z)) (scale_jpeg : I → Z * Z → Z → result string)
        (placeholder : Z → result string).
Context (DetectContentType : string → string).
Context (pieces : string → list string) (pieces_whole : ∀ s, concat_strings (pieces s) = s).
Context (statfs : string → disk → result (Z * Z * Z)) (dir_stat : path → Z * Z) (text : goerr → string).

Abbreviation ext := (ext_of DetectContentType).
Abbreviation thumb := (thumb_of l Decode scale_jpeg placeholder).
Abbreviation save := (saveTaskImages l Decode scale_jpeg placeholder DetectContentType pieces).

(** A request that saves: whose images, which, and when its context ends. *)
Record job := Job { job_task : string; job_reference : bool; job_images : list SourceImage; job_ctx : nat → result unit }.
Definition job_owner (j : job) : owner := (job_task j, job_reference j).
Definition job_proc (j : job) : proc disk unit := forget (save (job_ctx j) (job_task j) (job_images j) (job_reference j)).

(** An image of the job belongs there. *)
Definition belongs (j : job) (p : path) (data : string) : Prop := ∃ src, src ∈ job_images j ∧ ext (job_reference j) src ≠ "" ∧
  (p = original_path l DetectContentType (job_task j) (job_reference j) src ∧ data = SrcData src ∨
   p = thumb_path l (job_task j) (job_reference j) src ∧ thumb (job_reference j) src = Ok data).

(** What the other requests do. *)
Inductive routine : proc disk unit → Prop :=
  | finds t i : routine (forget (FindOriginal l dir_stat t i))
  | finds_thumb t i : routine (forget (FindThumb l dir_stat t i))
  | finds_reference t i : routine (forget (FindReference l dir_stat t i))
  | finds_reference_thumb t i : routine (forget (FindReferenceThumb l dir_stat t i))
  | reads_original t i : routine (forget (ReadOriginal l DetectContentType dir_stat t i))
  | reads_thumb t i : routine (forget (ReadThumb l dir_stat t i))
  | reads_reference t i : routine (forget (ReadReference l DetectContentType dir_stat t i))
  | reads_reference_thumb t i : routine (forget (ReadReferenceThumb l dir_stat t i))
  | lists resource limit offset : routine (forget (list_page l dir_stat resource limit offset text))
  | removes resource names : routine (forget (remove l resource names text))
  | stats : routine (forget (Stats l statfs dir_stat text)).

Section saves.
Context (legit : path → string → Prop).

Lemma fair_remove_all o ps : polite (sound legit) (changes l) o (λ _, True) (remove_all ps) (λ _ _, True).
Proof.
  induction ps as [|p ps IH]; cbn [remove_all]; [done|]. apply fair_bind; [by apply fair_one; apply _|done].
Qed.

Lemma fair_ensureDirs o : polite (sound legit) (changes l) o (λ _, True) (ensureDirs l) (λ _ _, True).
Proof. apply fair_bind_ok; [|intros _]; apply fair_one; apply _. Qed.

Lemma fair_fail {A} o paths e :
  polite (sound legit) (changes l) o (λ _, True) (_ <~ removeFiles paths ;; Done (Err (A:=A) e)) (λ _ _, True).
Proof. apply fair_bind; [apply fair_remove_all|done]. Qed.

Lemma fair_original o t reference src :
  (t, reference) = o → plain_task t = true → ext reference src ≠ "" →
  legit (original_path l DetectContentType t reference src) (SrcData src) →
  polite (sound legit) (changes l) (Some o) (λ _, True)
    (writeAtomic pieces (original_path l DetectContentType t reference src) (SrcData src)) (λ _ _, True).
Proof.
  intros <- Ht He Hl. rewrite original_path_plain in * by done.
  apply fair_writeAtomic; rewrite ?with_suffix_last; [done|done| | | |done].
  - split; [done|]. exists (SrcIndex src), (ext reference src +:+ ".tmp"). left. cbn. by rewrite !string_app_assoc.
  - unfold is_tmp. rewrite name_of_last. apply HasSuffix_app.
  - unfold is_tmp. rewrite name_of_last. by apply not_tmp, ext_of_known.
Qed.

Lemma fair_thumb o t reference src data :
  (t, reference) = o → plain_task t = true → legit (thumb_path l t reference src) data →
  polite (sound legit) (changes l) (Some o) (λ _, True)
    (writeAtomic pieces (thumb_path l t reference src) data) (λ _ _, True).
Proof.
  intros <- Ht Hl. rewrite thumb_path_plain in * by done.
  apply fair_writeAtomic; rewrite ?with_suffix_last; [done|done| | | |done].
  - split; [done|]. exists (SrcIndex src), "jpg.tmp". right. cbn. by rewrite !string_app_assoc.
  - unfold is_tmp. rewrite name_of_last. apply HasSuffix_app.
  - unfold is_tmp. rewrite name_of_last, <- string_app_assoc. apply not_tmp. set_solver.
Qed.

Lemma fair_save_loop ctx t reference n images saved cleanup :
  plain_task t = true →
  (∀ src, src ∈ images → ext reference src ≠ "" →
     legit (original_path l DetectContentType t reference src) (SrcData src) ∧
     ∀ data, thumb reference src = Ok data → legit (thumb_path l t reference src) data) →
  polite (sound legit) (changes l) (Some (t, reference)) (λ _, True)
    (save_loop l Decode scale_jpeg placeholder DetectContentType pieces ctx t reference n images saved cleanup) (λ _ _, True).
Proof.
  intros Ht. revert n saved cleanup. induction images as [|src images IH]; intros n saved cleanup Hl; cbn [save_loop]; [done|].
  destruct (ctx n); [|apply fair_fail]. destruct (String.eqb_spec (ext reference src) ""); [apply fair_fail|].
  destruct (Hl src) as [Ho Hth]; [left|done|]. apply fair_bind; [by apply fair_original|]. intros [[]|e]; [|apply fair_fail].
  destruct (thumb reference src) as [data|e]; [|apply fair_fail].
  apply fair_bind; [by apply fair_thumb, Hth|]. intros [[]|e]; [|apply fair_fail].
  apply IH. intros src' Hin. apply Hl. by right.
Qed.

Lemma fair_job j :
  plain_task (job_task j) = true → (∀ p data, belongs j p data → legit p data) →
  polite (sound legit) (changes l) (Some (job_owner j)) (λ _, True) (job_proc j) (λ _ _, True).
Proof.
  intros Ht Hl. unfold job_proc, saveTaskImages. eapply polite_forget. apply fair_bind_ok; [apply fair_ensureDirs|]. intros _.
  apply fair_save_loop; [done|]. intros src Hin He. split; [|intros data Hd]; apply Hl; exists src; split_and!; try done; auto.
Qed.

Lemma fair_stat_entries o dir resource es :
  polite (sound legit) (changes l) o (λ _, True) (stat_entries dir_stat dir resource es) (λ _ _, True).
Proof. induction es as [|[n []] es IH]; cbn [stat_entries]; fair_steps. Qed.

Lemma fair_delete_loop o dir names n :
  polite (sound legit) (changes l) o (λ _, True) (delete_loop dir names n) (λ _ _, True).
Proof.
  revert n. induction names as [|name names IH]; intros n; cbn [delete_loop]; [done|].
  case_match; [apply IH|]. apply fair_bind; [apply fair_one; apply _|]. intros [|e]; [apply IH|]. case_match; [apply IH|done].
Qed.

Lemma fair_sum_sizes o ps total count :
  polite (sound legit) (changes l) o (λ _, True) (sum_sizes dir_stat ps total count) (λ _ _, True).
Proof.
  revert total count. induction ps as [|p ps IH]; intros total count; cbn [sum_sizes]; [done|].
  apply fair_bind_ok; [apply fair_one; apply _|]. intros sm. apply IH.
Qed.

Lemma fair_routine p : routine p → polite (sound legit) (changes l) None (λ _, True) p (λ _ _, True).
Proof.
  pose proof (fair_ensureDirs None) as Hd.
  assert (∀ t i, polite (sound legit) (changes l) None (λ _, True) (FindOriginal l dir_stat t i) (λ _ _, True)) as H1
    by (intros; unfold FindOriginal; fair_steps).
  assert (∀ t i, polite (sound legit) (changes l) None (λ _, True) (FindThumb l dir_stat t i) (λ _ _, True)) as H2
    by (intros; unfold FindThumb; fair_steps).
  assert (∀ t i, polite (sound legit) (changes l) None (λ _, True) (FindReference l dir_stat t i) (λ _ _, True)) as H3
    by (intros; unfold FindReference; fair_steps).
  assert (∀ t i, polite (sound legit) (changes l) None (λ _, True) (FindReferenceThumb l dir_stat t i) (λ _ _, True)) as H4
    by (intros; unfold FindReferenceThumb; fair_steps).
  intros H. destruct H; eapply polite_forget; try by auto;
    unfold ReadOriginal, ReadThumb, ReadReference, ReadReferenceThumb, read, list_page, ListFiles, remove, DeleteFiles,
      Stats, DiskStats, dirUsage; fair_steps; auto using fair_stat_entries, fair_delete_loop, fair_sum_sizes.
Qed.
End saves.

(** On disk at the start, or an image of a job. *)
Definition whole (jobs : list job) (d0 : disk) (p : path) (data : string) : Prop :=
  (∃ i n, d_names d0 !! p = Some (Link i) ∧ d_inodes d0 !! i = Some n ∧ data = i_data n) ∨
  (∃ j, j ∈ jobs ∧ belongs j p data).

(** Links lead to inodes, one to each; a temporary file was created as one. *)
Definition consistent (d : disk) : Prop := sound (λ _ _, True) d.

Lemma consistent_sound jobs d : consistent d → sound (whole jobs d) d.
Proof.
  intros [S1 S2 S3]. split; [done| |done]. intros p i Hp. destruct (S2 p i Hp) as (n & Hn & Hb). exists n. split; [done|].
  destruct (is_tmp p); [done|]. left. eauto.
Qed.

Lemma apart_owners jobs : NoDup (map job_owner jobs) → apart (map (Some ∘ job_owner) jobs).
Proof.
  intros Hnd a b o Ha Hb. rewrite list_lookup_fmap in Ha, Hb.
  destruct (jobs !! a) as [ja|] eqn:Ea, (jobs !! b) as [jb|] eqn:Eb; cbn in *; try done. injection Ha as Ha. injection Hb as Hb.
  apply (NoDup_lookup _ _ _ o Hnd); rewrite list_lookup_fmap; [rewrite Ea|rewrite Eb]; cbn; congruence.
Qed.

(** C17: a file is whole or not there.  Any number of requests save images of
    different tasks while others find, read, list, count and delete; they
    interleave system call by system call, any call may fail, any request may be
    lost between two calls, and files are written in pieces.  Still a file under
    a final name holds all of the image, or of the thumbnail, some request has
    saved under that name, or what was there before; never a part, and never
    the image of another. *)
Theorem files_whole jobs d0 fs ts w p i :
  consistent d0 → Forall (λ j, plain_task (job_task j) = true) jobs → NoDup (map job_owner jobs) →
  rtc (pool_step routine) (map job_proc jobs, World d0 fs) (ts, w) →
  d_names (w_db w) !! p = Some (Link i) → is_tmp p = false →
  ∃ n, d_inodes (w_db w) !! i = Some n ∧ whole jobs d0 p (i_data n).
Proof.
  intros Hd0 Hplain Hnd Hrun Hp Htmp. cut (sound (whole jobs d0) (w_db w)).
  { intros [_ S2 _]. destruct (S2 p i Hp) as (n & Hn & Hl). rewrite Htmp in Hl. eauto. }
  eapply (pool_polite (sound (whole jobs d0)) (changes l) routine (fair_routine (whole jobs d0)) _ _ Hrun
            (map (Some ∘ job_owner) jobs)); [| |by apply consistent_sound].
  - by apply apart_owners.
  - cbn. apply Forall2_same_length_lookup. rewrite !length_map. split; [done|]. intros a q o Hq Ho.
    rewrite list_lookup_fmap in Hq. rewrite list_lookup_fmap in Ho.
    destruct (jobs !! a) as [j|] eqn:Hj; [|done]. cbn in Hq, Ho. simplify_eq.
    eapply (at_ease_polite _ _ _ _ _ (λ _, True)); [by apply consistent_sound|done|].
    apply fair_job; [by eapply (Forall_lookup_1 (λ j, plain_task (job_task j) = true))|].
    intros q data Hb. right. exists j. split; [by eapply list_elem_of_lookup_2|done].
Qed.

End whole.

(** ** A store, for the witnesses *)

Definition sample_store : Local := NewLocal " data/images " 512 0.
Definition sample_decode (data : string) : result (unit * Z * Z) :=
  if String.eqb data "" then Err (EMsg "image: unknown format") else Ok (tt, 1024, 768).
Definition sample_scale (_ : unit) (size : Z * Z) (quality : Z) : result string :=
  Ok (itoa size.1 +:+ "x" +:+ itoa size.2 +:+ " at " +:+ itoa quality).
Definition sample_dot (quality : Z) : result string := Ok "dot".
Definition sample_detect (data : string) : string := if HasPrefix data "P" then "image/png" else "image/jpeg".
(** One byte at a time. *)
Definition byte_by_byte (s : string) : list string := map (λ c, String c "") (bytes s).

Lemma byte_by_byte_whole s : concat_strings (byte_by_byte s) = s.
Proof. unfold byte_by_byte. induction s as [|c s IH]; [done|]. exact (f_equal (String c) IH). Qed.

(** The disk of a server that has just been started. *)
Definition empty_disk : disk :=
  Disk (list_to_map (map (λ p, (p, DirEntry)) (prefixes (originalDir sample_store) ++ prefixes (thumbDir sample_store)))) ∅ 1 [100].

Lemma empty_disk_links p i : d_names empty_disk !! p ≠ Some (Link i).
Proof.
  intros H. apply elem_of_list_to_map_2 in H. apply list_elem_of_In, in_map_iff in H as (q & E & _). discriminate E.
Qed.

Lemma empty_disk_consistent : consistent empty_disk.
Proof.
  split.
  - intros i n H. discriminate H.
  - intros p i H. by apply empty_disk_links in H.
  - intros p p' i H. by apply empty_disk_links in H.
Qed.

Definition sample_job (t : string) (data : string) : job :=
  Job t false [{| SrcIndex := 0; SrcData := data; SrcFileName := ""; SrcContentType := "image/png" |}] (λ _, Ok tt).
Definition sample_jobs : list job := [sample_job "img_a" "PNG"; sample_job "img_b" "PPP"].

Abbreviation sample_proc := (job_proc sample_store sample_decode sample_scale sample_dot sample_detect byte_by_byte).

(** The first request is lost when its original is in place and two bytes of
    its thumbnail are written. *)
Definition interrupted := advance 12 (sample_proc (sample_job "img_a" "PNG")) (World empty_disk []).

Lemma files_whole_witness :
  ∃ n, d_inodes (w_db interrupted.2) !! 1%N = Some n ∧
    whole sample_store sample_decode sample_scale sample_dot sample_detect sample_jobs empty_disk
      (Join (originalDir sample_store) "img_a_0.png") (i_data n).
Proof.
  apply (files_whole sample_store (NewLocal_dirs _ _ _) sample_decode sample_scale sample_dot sample_detect byte_by_byte
           byte_by_byte_whole (λ _ _, Ok (0, 0, 0)) (λ _, (0, 0)) (λ _, "") sample_jobs empty_disk []
           (delete O (<[O := interrupted.1]> (map sample_proc sample_jobs))) interrupted.2).
  - apply empty_disk_consistent.
  - repeat constructor.
  - vm_compute. repeat constructor; intros H; repeat (apply elem_of_cons in H as [H|H]; [discriminate H|]); by apply not_elem_of_nil in H.
  - eapply rtc_r; [apply (pool_advance_at _ 12 _ O (sample_proc (sample_job "img_a" "PNG"))); reflexivity|].
    apply (step_crash _ _ _ O).
  - vm_compute. reflexivity.
  - reflexivity.
Defined.

(** The part of the thumbnail is there, under its temporary name. *)
Example thumbnail_is_part :
  match d_names (w_db interrupted.2) !! Join (thumbDir sample_store) "tmp_img_a_0.jpg.tmp" with
  | Some (Link i) => i_data <$> d_inodes (w_db interrupted.2) !! i
  | _ => None
  end = Some "51".
Proof. vm_compute. reflexivity. Qed.

(** A dot is its own [Base]: it names the directory.  An empty one is removed,
    one that is not ends the request after what was deleted before. *)
Example dot_deletes_store :
  (prun (DeleteFiles sample_store ResourceThumb ["."]) empty_disk).1 = (1, Ok tt) ∧
  is_dir (d_names (prun (DeleteFiles sample_store ResourceThumb ["."]) empty_disk).2) (thumbDir sample_store) = false ∧
  (prun (DeleteFiles sample_store ResourceOriginal ["."; "img_a_0.png"]) (w_db interrupted.2)).1 = (0, Err ENotEmpty).
Proof. vm_compute. split_and!; reflexivity. Qed.
