(* ===== verification/DiskRead.v ===== *)
(** * What was saved is what is read (internal/imagestore)

    A request that saves, alone on a disk that answers, and the reads after it. *)

From stdpp Require Import strings.
From S2P Require Import Prelude GoStrings Sql Proc Archive Inputs ImageStore DiskSpec.

#[local] Open Scope Z_scope.

(** ** Names are read back *)

Lemma last_cut_last c x y : c ∉ y → last_cut c (x ++ c :: y) = Some (x, y).
Proof.
  intros Hy. induction x as [|a x IH]; cbn.
  - assert (last_cut c y = None) as ->; [|by rewrite Ascii.eqb_refl].
    induction y as [|b y IHy]; cbn; [done|]. rewrite IHy by set_solver. destruct (Ascii.eqb_spec b c); [set_solver|done].
  - by rewrite IH.
Qed.

Lemma TrimSuffix_app s t : TrimSuffix (s +:+ t) t = s.
Proof.
  unfold TrimSuffix. rewrite HasSuffix_app, length_string_app. replace (_ - _)%nat with (String.length s) by lia.
  apply string_take_app.
Qed.

Lemma ext_rev_point e s acc :
  Forall (λ c, Ascii.eqb c "/" = false ∧ Ascii.eqb c "." = false) e →
  ext_rev (e ++ "."%char :: s) acc = "."%char :: rev e ++ acc.
Proof.
  intros He. revert acc. induction He as [|c e [H1 H2] _ IH]; intros acc; cbn; [done|].
  rewrite H1, H2, IH, <- app_assoc. done.
Qed.

Lemma Ext_known s e : e ∈ ["png"; "jpg"; "webp"] → Ext (s +:+ "." +:+ e) = "." +:+ e.
Proof.
  intros He. unfold Ext. rewrite !bytes_app, !rev_app_distr, <- app_assoc. cbn [rev app bytes String.list_ascii_of_string].
  rewrite ext_rev_point.
  - apply bytes_inj. by rewrite bytes_of_bytes, rev_involutive, app_nil_r, bytes_app.
  - repeat (apply elem_of_cons in He as [->|He]; [repeat constructor|]). by apply not_elem_of_nil in He.
Qed.

Lemma ToLower_app s t : ToLower (s +:+ t) = ToLower s +:+ ToLower t.
Proof. unfold ToLower, map_string. apply bytes_inj. by rewrite !bytes_app, !bytes_of_bytes, map_app. Qed.

Lemma not_ref_stem t x : HasPrefix (t +:+ "_") "ref_" = false → HasPrefix (t +:+ "_" +:+ x) "ref_" = false.
Proof.
  destruct t as [|a [|b [|c [|e t]]]]; intros H; cbn in *; try done; by rewrite ?andb_false_r.
Qed.

(** The part of a name that tells the task and the number. *)
Definition parse_stem (name raw : string) : option FileInfo :=
  match last_cut "_" (bytes raw) with
  | Some ((_ :: _) as task, (_ :: _) as idx) =>
      match Atoi (of_bytes idx) with
      | Some i => if i <? 0 then None
                  else Some {| Name := name; TaskID := of_bytes task; Index := i; SizeBytes := 0; ModifiedAt := 0; Path := "" |}
      | None => None
      end
  | _ => None
  end.

Definition named (name t : string) (i : Z) : FileInfo :=
  {| Name := name; TaskID := t; Index := i; SizeBytes := 0; ModifiedAt := 0; Path := "" |}.

Lemma parse_stem_ok name t i : t ≠ "" → 0 ≤ i → in_i64 i → parse_stem name (t +:+ "_" +:+ itoa i) = Some (named name t i).
Proof.
  intros Ht Hi Hin. unfold parse_stem. rewrite !bytes_app. cbn [bytes String.list_ascii_of_string app].
  rewrite last_cut_last by by apply itoa_without.
  destruct (bytes t) as [|a x] eqn:Et; [by apply (bytes_inj t "") in Et|]. destruct (itoa_digits i Hi) as [Hne _].
  change (String.list_ascii_of_string (itoa i)) with (bytes (itoa i)).
  destruct (bytes (itoa i)) as [|b y] eqn:Ei; [done|].
  rewrite <- Et, <- Ei, !of_bytes_bytes, Atoi_itoa by done. by replace (i <? 0) with false by lia.
Qed.

Lemma parse_fileStem name t i resource : plain_task t = true → t ≠ "" → 0 ≤ i → in_i64 i →
  bare resource name = Some (fileStem t i resource) → parseFileInfo name resource = Some (named name t i).
Proof.
  intros Hp Ht Hi Hin Hb. unfold parseFileInfo. rewrite Hb. fold (parse_stem name). unfold fileStem.
  apply andb_true_iff in Hp as [_ Hp]. apply negb_true_iff in Hp.
  destruct (is_reference resource).
  - assert (HasPrefix ("ref_" +:+ t +:+ "_" +:+ itoa i) "ref_" = true) as -> by (apply HasPrefix_spec; eauto).
    rewrite TrimPrefix_app. by apply parse_stem_ok.
  - change ("" +:+ t +:+ "_" +:+ itoa i) with (t +:+ "_" +:+ itoa i). rewrite not_ref_stem by done. by apply parse_stem_ok.
Qed.

(** The names the store gives are those it understands. *)
Lemma parse_original t i reference e : plain_task t = true → t ≠ "" → 0 ≤ i → in_i64 i → e ∈ ["png"; "jpg"; "webp"] →
  let name := originalFileName t i (kind_of reference) e in
  parseFileInfo name (kind_of reference) = Some (named name t i).
Proof.
  intros Hp Ht Hi Hin He name. apply parse_fileStem; [done..|]. unfold bare, name, originalFileName.
  assert (is_thumb (kind_of reference) = false) as -> by by destruct reference.
  rewrite Ext_known by done. assert (existsb (String.eqb (ToLower ("." +:+ e))) [".png"; ".jpg"; ".jpeg"; ".webp"] = true) as ->.
  { repeat (apply elem_of_cons in He as [->|He]; [done|]). by apply not_elem_of_nil in He. }
  by rewrite TrimSuffix_app.
Qed.

Lemma parse_thumb t i reference : plain_task t = true → t ≠ "" → 0 ≤ i → in_i64 i →
  let name := thumbFileName t i (thumb_kind_of reference) in
  parseFileInfo name (thumb_kind_of reference) = Some (named name t i).
Proof.
  intros Hp Ht Hi Hin name. apply parse_fileStem; [done..|]. unfold bare, name, thumbFileName.
  assert (is_thumb (thumb_kind_of reference) = true) as -> by by destruct reference.
  assert (HasPrefix ("tmp_" +:+ fileStem t i (thumb_kind_of reference) +:+ ".jpg") "tmp_" = true) as ->
    by (apply HasPrefix_spec; eauto).
  rewrite <- string_app_assoc, ToLower_app. change (ToLower ".jpg") with ".jpg". rewrite HasSuffix_app.
  by rewrite string_app_assoc, TrimPrefix_app, TrimSuffix_app.
Qed.

(** ** A disk that answers *)

Section quiet.
Context (l : Local).

(** The directories are there: the server has been started. *)
Definition standing (d : disk) : Prop :=
  ∀ p, p ∈ prefixes (originalDir l) ++ prefixes (thumbDir l) → is_dir (d_names d) p = true.
Definition store_dir (p : path) : Prop := p = originalDir l ∨ p = thumbDir l.

Lemma call_sure {A} (f : disk → result A * disk) d : call f (World d []) = ((f d).1, World (f d).2 []).
Proof. unfold call. cbn. by destruct (f d). Qed.

Lemma exec_one {A} (m : DISK A) w : exec_proc (one m) w = m w.
Proof. unfold one. cbn. by destruct (m w). Qed.

Lemma mkdirs_noop ps names : (∀ p, p ∈ ps → is_dir names p = true) → mkdirs ps names = Some names.
Proof. induction ps as [|p ps IH]; intros H; cbn; [done|]. rewrite H by left. apply IH. intros q Hq. apply H. by right. Qed.

Lemma MkdirAll_standing d p : standing d → store_dir p → MkdirAll p (World d []) = (Ok tt, World d []).
Proof.
  intros Hd Hp. unfold MkdirAll. rewrite call_sure, mkdirs_noop; [by destruct d|].
  intros q Hq. apply Hd, elem_of_app. destruct Hp as [-> | ->]; auto.
Qed.

Lemma ensureDirs_standing d : standing d → exec_proc (ensureDirs l) (World d []) = (Ok tt, World d []).
Proof.
  intros Hd. unfold ensureDirs, pbind_ok. rewrite exec_pbind_one, MkdirAll_standing by (done || by left). cbn [fst snd].
  rewrite exec_one. apply MkdirAll_standing; [done|by right].
Qed.

Lemma dir_standing d p : standing d → store_dir p → is_dir (d_names d) p = true.
Proof.
  intros Hd Hp. destruct (decide (p.2 = [])) as [E|Hne]; [unfold is_dir; by rewrite E|].
  apply Hd, elem_of_app. assert (p ∈ prefixes p) as Hin.
  { unfold prefixes. apply list_elem_of_In, in_map_iff. exists (length p.2). split; [rewrite take_ge by done; by destruct p|].
    apply in_seq. destruct p.2; cbn in *; [done|lia]. }
  destruct Hp as [-> | ->]; auto.
Qed.

(** Files come and go without touching the directories. *)
Lemma is_dir_ext names names' q :
  (names' !! q = Some DirEntry ↔ names !! q = Some DirEntry) → is_dir names' q = is_dir names q.
Proof. intros H. unfold is_dir. f_equal. by apply bool_decide_ext. Qed.

Lemma is_dir_insert names p i q : names !! p ≠ Some DirEntry → is_dir (<[p := Link i]> names) q = is_dir names q.
Proof.
  intros Hp. apply is_dir_ext. destruct (decide (p = q)) as [->|]; [rewrite lookup_insert_eq|by rewrite lookup_insert_ne]. done.
Qed.

Lemma is_dir_delete names p q : names !! p ≠ Some DirEntry → is_dir (delete p names) q = is_dir names q.
Proof.
  intros Hp. apply is_dir_ext. destruct (decide (p = q)) as [->|]; [rewrite lookup_delete_eq|by rewrite lookup_delete_ne]. done.
Qed.

(** A name in one of the two directories that is neither [.] nor [..]. *)
Definition file_path (p : path) : Prop := ∃ dir n, store_dir dir ∧ n ≠ ".." ∧ p = (dir.1, dir.2 ++ [n]).

Lemma file_not_dir names p : file_path p → names !! p ≠ Some DirEntry → is_dir names p = false.
Proof.
  intros (dir & n & _ & Hn & ->) Hp. unfold is_dir. apply orb_false_iff. split; [|by apply bool_decide_eq_false].
  cbn [snd]. rewrite forallb_app. apply andb_false_iff. right. cbn [forallb]. rewrite andb_true_r.
  destruct (String.eqb_spec ".." n); congruence.
Qed.

Lemma Remove_link d p i :
  file_path p → d_names d !! p = Some (Link i) → Remove p (World d []) = (Ok tt, World (with_names (delete p) d) []).
Proof.
  intros Hf Hp. unfold Remove. rewrite call_sure, file_not_dir, Hp by (done || congruence). done.
Qed.

Lemma remove_all_quiet ps d :
  NoDup ps → (∀ p, p ∈ ps → file_path p ∧ ∃ i, d_names d !! p = Some (Link i)) →
  ∃ d', exec_proc (remove_all ps) (World d []) = (tt, World d' []) ∧
    ∀ q, d_names d' !! q = if decide (q ∈ ps) then None else d_names d !! q.
Proof.
  intros Hnd. revert d. induction Hnd as [|p ps Hp _ IH]; intros d Hps; [by exists d|].
  destruct (Hps p) as [Hf [i Hi]]; [left|]. cbn [remove_all]. rewrite exec_pbind_one, (Remove_link d p i Hf Hi). cbn [fst snd].
  destruct (IH (with_names (delete p) d)) as (d' & He & Hd').
  { intros q Hq. destruct (Hps q) as [Hfq [j Hj]]; [by right|]. split; [done|]. exists j. cbn. rewrite lookup_delete_ne; [done|]. by intros ->. }
  exists d'. split; [exact He|]. intros q. rewrite Hd'. cbn [with_names d_names].
  destruct (decide (q = p)) as [->|Hne].
  - rewrite decide_False by done. rewrite decide_True by left. apply lookup_delete_eq.
  - rewrite lookup_delete_ne by done. destruct (decide (q ∈ ps)); [rewrite decide_True by (by right)|rewrite decide_False by set_solver]; done.
Qed.

Context (pieces : string → list string) (pieces_whole : ∀ s, concat_strings (pieces s) = s).

Lemma write_pieces_quiet i ps d n :
  d_inodes d !! i = Some n →
  ∃ d' t, exec_proc (write_pieces i ps) (World d []) = (Ok tt, World d' []) ∧ d_names d' = d_names d ∧ d_next d' = d_next d ∧
    d_inodes d' = <[i := {| i_data := i_data n +:+ concat_strings ps; i_mtime := t; i_born := i_born n |}]> (d_inodes d).
Proof.
  revert d n. induction ps as [|s ps IH]; intros d n Hn; cbn [write_pieces concat_strings].
  - exists d, (i_mtime n). split_and!; [done..|]. rewrite string_app_nil_r, insert_id; [done|]. by destruct n.
  - unfold pbind_ok. rewrite exec_pbind_one. unfold Append. rewrite call_sure. cbn [fst snd].
    set (d1 := ticked _). destruct (IH d1 {| i_data := i_data n +:+ s; i_mtime := clock d; i_born := i_born n |}) as (d' & t & He & H1 & H2 & H3).
    { cbn. by rewrite lookup_alter_eq, Hn. }
    exists d', t. split_and!; [exact He|by rewrite H1|by rewrite H2|]. rewrite H3. cbn [i_data i_born]. rewrite string_app_assoc.
    cbn [d1 ticked with_inodes d_inodes]. apply map_eq. intros j. destruct (decide (i = j)) as [->|].
    + by rewrite !lookup_insert_eq.
    + by rewrite !lookup_insert_ne, lookup_alter_ne.
Qed.

Lemma consistent_fresh d : consistent d → ∀ p, d_names d !! p ≠ Some (Link (d_next d)).
Proof. intros [S1 S2 _] p Hp. apply S2 in Hp as (n & Hn & _). apply S1 in Hn. lia. Qed.

Lemma OpenTrunc_new d dir n :
  standing d → store_dir dir → let q : path := (dir.1, dir.2 ++ [n]) in file_path q → d_names d !! q = None →
  OpenTrunc q (World d []) = (Ok (d_next d), World (ticked (Disk (<[q := Link (d_next d)]> (d_names d))
    (<[d_next d := {| i_data := ""; i_mtime := clock d; i_born := q |}]> (d_inodes d)) (d_next d + 1)%N (d_clock d))) []).
Proof.
  intros Hs Hdir q Hf Hq. unfold OpenTrunc. rewrite call_sure.
  rewrite file_not_dir by (done || (rewrite Hq; done)). rewrite Hq.
  assert (Dir q = dir) as -> by apply Dir_last. by rewrite dir_standing.
Qed.

(** A new file, written through its temporary name. *)
Lemma writeAtomic_quiet d dir n data :
  consistent d → standing d → store_dir dir →
  let p : path := (dir.1, dir.2 ++ [n]) in let tmp : path := (dir.1, dir.2 ++ [n +:+ ".tmp"]) in
  file_path p → file_path tmp → is_tmp p = false → d_names d !! p = None → d_names d !! tmp = None →
  ∃ d', exec_proc (writeAtomic pieces p data) (World d []) = (Ok tt, World d' []) ∧
    d_names d' = <[p := Link (d_next d)]> (d_names d) ∧
    (∃ n, d_inodes d' !! d_next d = Some n ∧ i_data n = data) ∧
    (∀ j, j ≠ d_next d → d_inodes d' !! j = d_inodes d !! j) ∧ consistent d' ∧ standing d'.
Proof.
  intros Hc Hs Hdir p tmp Hfp Hft Hp Hnp Hnt. unfold writeAtomic, p. rewrite with_suffix_last, Dir_last. fold p tmp.
  unfold pbind_ok. rewrite exec_pbind_one, MkdirAll_standing by done. cbn [fst snd]. rewrite exec_pbind.
  unfold WriteFile, pbind_ok. rewrite exec_pbind_one.
  pose proof (OpenTrunc_new d dir (n +:+ ".tmp") Hs Hdir Hft Hnt) as HO. cbv zeta in HO. fold tmp in HO. rewrite HO. cbn [fst snd].
  set (d1 := ticked _).
  destruct (write_pieces_quiet (d_next d) (pieces data) d1 {| i_data := ""; i_mtime := clock d; i_born := tmp |})
    as (d2 & t & He & H1 & H2 & H3); [cbn; by rewrite lookup_insert_eq|].
  rewrite He. cbn [fst snd]. rewrite exec_pbind_one. unfold Rename. rewrite call_sure, H1. cbn [d1 ticked d_names].
  assert (tmp ≠ p) as Hne.
  { unfold tmp, p. intros E%last_inj. destruct E as [_ E]. apply (f_equal String.length) in E. rewrite length_string_app in E. cbn in E. lia. }
  rewrite lookup_insert_eq, is_dir_insert by (rewrite Hnt; done). rewrite file_not_dir by (done || (rewrite Hnp; done)). cbn [fst snd exec_proc].
  assert (delete tmp (<[tmp := Link (d_next d)]> (d_names d)) = d_names d) as Hdel by by apply delete_insert_id.
  eexists. split; [reflexivity|]. cbn [with_names d_names d_inodes d_next]. rewrite H1, H3. cbn [d1 ticked d_names d_inodes i_data i_born].
  rewrite Hdel. split_and!; [done| | | |].
  - rewrite lookup_insert_eq. eexists. split; [done|]. cbn. apply pieces_whole.
  - intros j Hj. by rewrite !lookup_insert_ne.
  - pose proof (consistent_fresh d Hc) as Hno. destruct Hc as [S1 S2 S3].
    split; cbn [d_names d_inodes d_next with_names]; rewrite ?H1, ?H2, ?H3; cbn [d1 ticked d_names d_inodes d_next]; rewrite ?Hdel.
    + intros i m. rewrite !lookup_insert_Some. intros [[<- _]|[_ [[<- _]|[_ Hm]]]]; [lia|lia|]. apply S1 in Hm. lia.
    + intros q i. rewrite lookup_insert_Some. intros [[<- [= <-]]|[_ Hq]].
      * rewrite lookup_insert_eq. eexists. split; [done|]. by rewrite Hp.
      * destruct (S2 _ _ Hq) as (m & Hm & Hb). rewrite !lookup_insert_ne by (intros E; rewrite <- E in Hq; by apply Hno in Hq). eauto.
    + intros q q' i. rewrite !lookup_insert_Some. intros [[<- [= <-]]|[_ Hq]] [[<- E]|[_ Hq']]; try done.
      * by apply Hno in Hq'.
      * injection E as <-. by apply Hno in Hq.
      * by apply (S3 _ _ i).
  - intros q Hq. cbn [d_names with_names]. rewrite H1. cbn [d1 ticked d_names]. rewrite Hdel, is_dir_insert by (rewrite Hnp; done). by apply Hs.
Qed.
End quiet.

(** ** Saving, alone *)

Section saving.
Context (l : Local) (apart_dirs : originalDir l ≠ thumbDir l).
Context {I : Type} (Decode : string → result (I * Z * Z)) (scale_jpeg : I → Z * Z → Z → result string)
        (placeholder : Z → result string).
Context (DetectContentType : string → string).
Context (pieces : string → list string) (pieces_whole : ∀ s, concat_strings (pieces s) = s).
Context (dir_stat : path → Z * Z).
Context (t : string) (reference : bool) (plain : plain_task t = true).

Abbreviation ext := (ext_of DetectContentType reference).
Abbreviation thumb := (thumb_of l Decode scale_jpeg placeholder reference).
Abbreviation op := (original_path l DetectContentType t reference).
Abbreviation tp := (thumb_path l t reference).

Definition original_name (src : SourceImage) : string := originalFileName t (SrcIndex src) (kind_of reference) (ext src).
Definition thumb_name (src : SourceImage) : string := thumbFileName t (SrcIndex src) (thumb_kind_of reference).
Definition saved_of (src : SourceImage) : SavedImage :=
  {| SavedIndex := SrcIndex src; OriginalName := original_name src; ThumbName := thumb_name src |}.

(** What an image leaves on disk. *)
Definition files_of (src : SourceImage) : list (path * string) :=
  [(op src, SrcData src); (tp src, match thumb src with Ok data => data | Err _ => "" end)].

Fixpoint saveable (ctx : nat → result unit) (n : nat) (images : list SourceImage) : bool :=
  match images with
  | [] => true
  | src :: images => is_ok (ctx n) && negb (String.eqb (ext src) "") && is_ok (thumb src) && saveable ctx (S n) images
  end.

(** Nothing of these images is on disk, not even a temporary file. *)
Definition vacant (d : disk) : Prop := ∀ p, own l (t, reference) p → d_names d !! p = None.

Record written (d0 d : disk) (files : list (path * string)) : Prop := {
  wr_consistent : consistent d;
  wr_standing : standing l d;
  wr_old p : p ∉ map fst files → d_names d !! p = d_names d0 !! p;
  wr_files p data : (p, data) ∈ files → file_path l p ∧ is_tmp p = false ∧ d_names d0 !! p = None ∧
    ∃ i n, d_names d !! p = Some (Link i) ∧ d_inodes d !! i = Some n ∧ i_data n = data;
  wr_nodup : NoDup (map fst files)
}.

Lemma undo_written {A} d0 d files e : written d0 d files →
  ∃ d', exec_proc (_ <~ removeFiles (map fst files) ;; Done (Err (A:=A) e)) (World d []) = (Err e, World d' []) ∧
    d_names d' = d_names d0.
Proof.
  intros [W1 W2 W3 W4 W5]. unfold removeFiles. rewrite exec_pbind.
  destruct (remove_all_quiet l (rev (map fst files)) d) as (d' & He & Hd').
  { by apply NoDup_ListNoDup, NoDup_rev, NoDup_ListNoDup. }
  { intros p Hp. apply list_elem_of_In, in_rev, list_elem_of_In in Hp. apply list_elem_of_fmap in Hp as ([q data] & -> & Hq).
    destruct (W4 _ _ Hq) as (H1 & _ & _ & i & n & H2 & _). eauto. }
  rewrite He. exists d'. split; [done|]. apply map_eq. intros q. rewrite Hd'.
  destruct (decide (q ∈ rev (map fst files))) as [Hq|Hq].
  - apply list_elem_of_In, in_rev, list_elem_of_In, list_elem_of_fmap in Hq as ([p data] & -> & Hq).
    destruct (W4 _ _ Hq) as (_ & _ & E & _). by symmetry.
  - apply W3. intros Hin. apply Hq. apply list_elem_of_In, in_rev. rewrite rev_involutive. by apply list_elem_of_In.
Qed.

Lemma write_written d0 d files dir n data :
  written d0 d files → store_dir l dir →
  let p : path := (dir.1, dir.2 ++ [n]) in let tmp : path := (dir.1, dir.2 ++ [n +:+ ".tmp"]) in
  n ≠ ".." → n +:+ ".tmp" ≠ ".." → is_tmp p = false → p ∉ map fst files → d_names d0 !! p = None → d_names d0 !! tmp = None →
  ∃ d', exec_proc (writeAtomic pieces p data) (World d []) = (Ok tt, World d' []) ∧ written d0 d' (files ++ [(p, data)]).
Proof.
  intros [W1 W2 W3 W4 W5] Hdir p tmp Hn Hn' Hp Hnew Hp0 Ht0.
  assert (file_path l p) as Hfp by by exists dir, n. assert (file_path l tmp) as Hft by by exists dir, (n +:+ ".tmp").
  assert (is_tmp tmp = true) as Htt by (unfold is_tmp, tmp; rewrite name_of_last; apply HasSuffix_app).
  assert (d_names d !! p = None) as Hpd by by rewrite W3.
  assert (d_names d !! tmp = None) as Htd.
  { rewrite W3; [done|]. intros Hin. apply list_elem_of_fmap in Hin as ([q dt] & -> & Hq).
    destruct (W4 _ _ Hq) as (_ & Hqt & _). cbn in Htt. congruence. }
  destruct (writeAtomic_quiet l pieces pieces_whole d dir n data W1 W2 Hdir Hfp Hft Hp Hpd Htd)
    as (d' & He & Hnames & (m & Hm & Hdata) & Hothers & Hc & Hs).
  exists d'. split; [exact He|]. fold p in Hnames. split; [done|done| | |].
  - intros q Hq. rewrite map_app, not_elem_of_app in Hq. destruct Hq as [Hq Hqp]. rewrite Hnames, lookup_insert_ne; [by apply W3|].
    intros ->. apply Hqp. left.
  - intros q dt [Hq|Hq]%elem_of_app.
    + destruct (W4 _ _ Hq) as (H1 & H2 & H3 & i & m' & H4 & H5 & H6). split_and!; [done..|]. exists i, m'.
      assert (p ≠ q) as Hne by (intros ->; apply Hnew, list_elem_of_fmap; by exists (q, dt)).
      rewrite Hnames, lookup_insert_ne by done. split_and!; [done| |done]. rewrite Hothers; [done|].
      intros ->. by apply (consistent_fresh d W1 q).
    + apply list_elem_of_singleton in Hq. injection Hq as -> ->. split_and!; [done..|]. exists (d_next d), m.
      by rewrite Hnames, lookup_insert_eq.
  - rewrite map_app. apply NoDup_app. split_and!; [done| |apply NoDup_singleton].
    intros q Hq Hqp. apply list_elem_of_singleton in Hqp. cbn in Hqp. by subst.
Qed.

(** *** The images of one request *)

Lemma op_plain src : op src = ((originalDir l).1, (originalDir l).2 ++ [original_name src]).
Proof. by apply original_path_plain. Qed.
Lemma tp_plain src : tp src = ((thumbDir l).1, (thumbDir l).2 ++ [thumb_name src]).
Proof. by apply thumb_path_plain. Qed.

Lemma op_own src tail : own l (t, reference) ((originalDir l).1, (originalDir l).2 ++ [original_name src +:+ tail]).
Proof. exists (SrcIndex src), (ext src +:+ tail). left. unfold original_name, originalFileName. by rewrite !string_app_assoc. Qed.
Lemma tp_own src tail : own l (t, reference) ((thumbDir l).1, (thumbDir l).2 ++ [thumb_name src +:+ tail]).
Proof. exists (SrcIndex src), ("jpg" +:+ tail). right. unfold thumb_name, thumbFileName. by rewrite !string_app_assoc. Qed.

Lemma op_inj src src' : op src = op src' → SrcIndex src = SrcIndex src'.
Proof. rewrite !op_plain. intros [_ E]%last_inj. by apply stem_tail_inj in E as (_ & ? & _). Qed.
Lemma tp_inj src src' : tp src = tp src' → SrcIndex src = SrcIndex src'.
Proof.
  rewrite !tp_plain. intros [_ E]%last_inj. apply (f_equal (string_drop 4)) in E.
  by apply (stem_tail_inj _ _ _ "jpg" _ _ _ "jpg") in E as (_ & ? & _).
Qed.
Lemma op_tp src src' : op src ≠ tp src'.
Proof. rewrite op_plain, tp_plain. by intros [E _]%last_inj. Qed.

Lemma files_of_index p src images :
  p = op src ∨ p = tp src → p ∈ map fst (flat_map files_of images) → SrcIndex src ∈ map SrcIndex images.
Proof.
  intros Hp Hin. induction images as [|src' images IH]; [by apply not_elem_of_nil in Hin|]. cbn [flat_map map files_of app fst] in *.
  apply elem_of_cons in Hin as [E|Hin]; [|apply elem_of_cons in Hin as [E|Hin]]; [| |right; auto].
  - destruct Hp as [-> | ->]; [|by destruct (op_tp src' src)]. apply op_inj in E as ->. left.
  - destruct Hp as [-> | ->]; [by destruct (op_tp src src')|]. apply tp_inj in E as ->. left.
Qed.

(** The names of the tasks to come are free. *)
Lemma not_dots pre i r tail : pre +:+ fileStem t i r +:+ "." +:+ tail ≠ "..".
Proof.
  intros E. assert ("_"%char ∈ bytes "..") as H; [|cbn in H; set_solver]. rewrite <- E. unfold fileStem. rewrite !bytes_app. set_solver.
Qed.

Lemma save_loop_quiet ctx d0 images : ∀ n saved d files,
  vacant d0 → written d0 d files → NoDup (map SrcIndex images) →
  (∀ src p, src ∈ images → p = op src ∨ p = tp src → p ∉ map fst files) →
  ∃ r d', exec_proc (save_loop l Decode scale_jpeg placeholder DetectContentType pieces ctx t reference n images saved (map fst files))
            (World d []) = (r, World d' []) ∧
    is_ok r = saveable ctx n images ∧
    match r with
    | Ok all => all = saved ++ map saved_of images ∧ written d0 d' (files ++ flat_map files_of images)
    | Err _ => d_names d' = d_names d0
    end.
Proof.
  induction images as [|src images IH]; intros n saved d files Hv Hw Hnd Hnew; cbn [save_loop saveable].
  { exists (Ok saved), d. split_and!; [done|done| |]; cbn; by rewrite app_nil_r. }
  assert (∀ files' d1 e, written d0 d1 files' → ∃ r d', exec_proc (_ <~ removeFiles (map fst files') ;; Done (Err (A:=list SavedImage) e)) (World d1 []) =
            (r, World d' []) ∧ is_ok r = false ∧ match r with Ok all => all = saved ++ map saved_of (src :: images) ∧
              written d0 d' (files ++ flat_map files_of (src :: images)) | Err _ => d_names d' = d_names d0 end) as Hfail.
  { intros files' d1 e H1. destruct (undo_written (A:=list SavedImage) d0 d1 files' e H1) as (d' & He & Hd'). by exists (Err e), d'. }
  destruct (ctx n) as [[]|e]; cbn [is_ok andb]; [|by apply Hfail].
  destruct (String.eqb_spec (ext src) "") as [He|He]; cbn [negb andb]; [by apply Hfail|].
  rewrite exec_pbind.
  destruct (write_written d0 d files (originalDir l) (original_name src) (SrcData src) Hw) as (d1 & E1 & W1).
  { by left. } { apply (not_dots ""). } { unfold original_name, originalFileName. rewrite !string_app_assoc. apply (not_dots ""). }
  { unfold is_tmp. rewrite name_of_last. by apply not_tmp, ext_of_known. }
  { rewrite <- op_plain. by apply (Hnew src); [left|left]. }
  { apply Hv. by rewrite <- (string_app_nil_r (original_name src)); apply op_own. }
  { apply Hv, op_own. }
  rewrite <- op_plain in E1, W1. rewrite E1. cbn [fst snd].
  change (map fst files ++ [op src]) with (map fst files ++ map fst [(op src, SrcData src)]). rewrite <- map_app.
  destruct (thumb src) as [data|e] eqn:Hth; cbn [is_ok andb]; [|by apply Hfail].
  rewrite exec_pbind.
  destruct (write_written d0 d1 (files ++ [(op src, SrcData src)]) (thumbDir l) (thumb_name src) data W1) as (d2 & E2 & W2).
  { by right. } { apply (not_dots "tmp_" _ _ "jpg"). } { unfold thumb_name, thumbFileName. rewrite !string_app_assoc. apply (not_dots "tmp_" _ _ "jpg.tmp"). }
  { unfold is_tmp. rewrite name_of_last. unfold thumb_name, thumbFileName. rewrite <- string_app_assoc. apply not_tmp. set_solver. }
  { rewrite <- tp_plain, map_app, not_elem_of_app. split; [by apply (Hnew src); [left|right]|].
    intros E%list_elem_of_singleton. symmetry in E. by apply op_tp in E. }
  { apply Hv. by rewrite <- (string_app_nil_r (thumb_name src)); apply tp_own. }
  { apply Hv, tp_own. }
  rewrite <- tp_plain in E2, W2. rewrite E2. cbn [fst snd].
  change (map fst (files ++ [(op src, SrcData src)]) ++ [tp src])
    with (map fst (files ++ [(op src, SrcData src)]) ++ map fst [(tp src, data)]). rewrite <- map_app.
  apply NoDup_cons in Hnd as [Hni Hnd].
  destruct (IH (S n) (saved ++ [saved_of src]) d2 _ Hv W2 Hnd) as (r & d' & E & Hok & Hr).
  { intros src' p Hin Hp. rewrite !map_app, !not_elem_of_app. split_and!; [by apply (Hnew src'); [right|]| |];
      intros Eq%list_elem_of_singleton; cbn in Eq; subst p; apply Hni, list_elem_of_fmap; exists src'; split; try done;
      destruct Hp as [Hp|Hp]; try (by apply op_tp in Hp); try (symmetry in Hp; by apply op_tp in Hp);
      [by apply op_inj in Hp|by apply tp_inj in Hp]. }
  exists r, d'. split; [exact E|]. split; [done|]. destruct r as [all|e]; [|done]. destruct Hr as [-> Hr]. split.
  - cbn [map]. by rewrite <- app_assoc.
  - cbn [flat_map files_of app]. rewrite Hth. by rewrite <- !app_assoc in Hr.
Qed.

(** *** Reading back *)

(** [FindOriginal] and [FindReference] *)
Lemma Glob_one stem name (d : disk) :
  standing l d → plain_name name → d_names d !! (((originalDir l).1, (originalDir l).2 ++ [name]) : path) ≠ None →
  HasPrefix name (stem +:+ ".") = true →
  (∀ n, d_names d !! (((originalDir l).1, (originalDir l).2 ++ [n]) : path) ≠ None → HasPrefix n (stem +:+ ".") = true → n = name) →
  ∃ rest, Glob (originalDir l) stem (World d []) = (Ok (((originalDir l).1, (originalDir l).2 ++ [name]) :: rest), World d []).
Proof.
  intros Hs Hplain Hname Hpre Honly. unfold Glob, bind, try, ReadDir, query. rewrite call_sure. cbn [fst snd].
  rewrite (dir_standing l) by (done || by left). cbn.
  set (ns := List.filter _ _). assert (∀ n, n ∈ ns ↔ n = name) as Hns.
  { intros n. unfold ns. rewrite list_elem_of_In, filter_In, in_map_iff. split.
    - intros [([n' b] & <- & Hin) Hp]. cbn in *. apply Honly; [|done]. apply list_elem_of_In in Hin. unfold listing in Hin.
      rewrite elem_of_sort_by in Hin. apply list_elem_of_In, in_map_iff in Hin as ([p e] & [= <- _] & Hin).
      apply filter_In in Hin as [Hin Hd]. cbn in *. apply list_elem_of_In, elem_of_map_to_list in Hin.
      apply andb_true_iff in Hd as [[Hne Hd]%andb_true_iff _]. apply bool_decide_eq_true in Hne, Hd.
      assert (p = ((originalDir l).1, (originalDir l).2 ++ [name_of p])) as <-; [|by rewrite Hin].
      rewrite <- Hd. unfold Dir, name_of. cbn. rewrite <- app_removelast_last by done. by destruct p.
    - intros ->. split; [|done]. destruct (d_names d !! _) as [e|] eqn:E; [|done].
      exists (name, bool_decide (e = DirEntry)). split; [done|]. apply list_elem_of_In. unfold listing. rewrite elem_of_sort_by.
      apply list_elem_of_In, in_map_iff. exists (((originalDir l).1, (originalDir l).2 ++ [name]), e). split.
      + exact (f_equal2 pair (name_of_last _ _) eq_refl).
      + apply filter_In. split; [by apply list_elem_of_In, elem_of_map_to_list|]. unfold in_dir. cbn [fst].
        rewrite Dir_last, name_of_last, (proj2 (valid_plain name)) by done. rewrite !bool_decide_eq_true_2; [done|done|]. cbn. by intros [_ E']%app_eq_nil. }
  destruct ns as [|n ns'] eqn:Ens; [exfalso; by eapply not_elem_of_nil, Hns|].
  assert (n = name) as -> by (apply Hns; left). exists (map (Join (originalDir l)) ns'). cbn. by rewrite Join_plain.
Qed.

Lemma stat_link d p i n : file_path l p → d_names d !! p = Some (Link i) → d_inodes d !! i = Some n →
  stat dir_stat p (World d []) = (Ok (Z.of_nat (String.length (i_data n)), i_mtime n), World d []).
Proof.
  intros Hf Hp Hn. unfold stat, query. rewrite call_sure. cbn [fst snd].
  rewrite (file_not_dir l) by (done || (rewrite Hp; done)). by rewrite Hp, Hn.
Qed.

Lemma statFile_link d p i n resource f : file_path l p → d_names d !! p = Some (Link i) → d_inodes d !! i = Some n →
  parseFileInfo (name_of p) resource = Some f →
  ∃ f', statFile dir_stat p resource (World d []) = (Ok (Some f'), World d []) ∧ Name f' = Name f.
Proof.
  intros Hf Hp Hn Hparse. unfold statFile, bind, try. rewrite (stat_link d p i n) by done. cbn. rewrite Hparse. eexists. by split.
Qed.

Lemma ReadFile_link d p i n : file_path l p → d_names d !! p = Some (Link i) → d_inodes d !! i = Some n →
  ReadFile p (World d []) = (Ok (i_data n), World d []).
Proof.
  intros Hf Hp Hn. unfold ReadFile, query. rewrite call_sure. cbn [fst snd].
  rewrite (file_not_dir l) by (done || (rewrite Hp; done)). by rewrite Hp, Hn.
Qed.

(** What a reader does once the file is found. *)
Lemma read_found find dir name ct i0 d f i n :
  exec_proc (find t i0) (World d []) = (Ok (Some f), World d []) → Name f = name → plain_name name →
  file_path l (dir.1, dir.2 ++ [name]) → d_names d !! ((dir.1, dir.2 ++ [name]) : path) = Some (Link i) → d_inodes d !! i = Some n →
  prun (read find dir ct t i0) d = (Ok (Some (i_data n, ct name (i_data n))), d).
Proof.
  intros Hfind Hname Hplain Hf Hp Hn. unfold prun, read, pbind_ok. rewrite exec_pbind, Hfind. cbn [fst snd].
  rewrite exec_pbind_one, Hname, Join_plain by done. rewrite (ReadFile_link d _ i n) by done. done.
Qed.

Definition read_image : Z → proc disk (result (option (string * string))) :=
  if reference then ReadReference l DetectContentType dir_stat t else ReadOriginal l DetectContentType dir_stat t.
Definition read_thumbnail : Z → proc disk (result (option (string * string))) :=
  if reference then ReadReferenceThumb l dir_stat t else ReadThumb l dir_stat t.

(** The type that is read off the bytes, or the name of a reference. *)
Definition type_of (src : SourceImage) : string :=
  if reference then (normalizeImageTypeWithFileName DetectContentType "" (original_name src) (SrcData src)).2
  else (normalizeImageType DetectContentType "" (SrcData src)).2.

Lemma one_index images src src' :
  NoDup (map SrcIndex images) → src ∈ images → src' ∈ images → SrcIndex src = SrcIndex src' → src = src'.
Proof.
  intros Hnd [a Ha]%list_elem_of_lookup [b Hb]%list_elem_of_lookup E.
  assert (a = b) as ->; [|congruence]. apply (NoDup_lookup _ _ _ (SrcIndex src) Hnd); rewrite list_lookup_fmap.
  - by rewrite Ha.
  - rewrite Hb. cbn. by rewrite E.
Qed.

Lemma files_of_inv p images : p ∈ map fst (flat_map files_of images) → ∃ src, src ∈ images ∧ (p = op src ∨ p = tp src).
Proof.
  induction images as [|src images IH]; [by intros ?%not_elem_of_nil|]. cbn [flat_map map files_of app fst].
  intros [->|[->|Hin]%elem_of_cons]%elem_of_cons; [exists src; split; [left|auto]..|].
  destruct (IH Hin) as (src' & H & Hp). exists src'. split; [by right|done].
Qed.

Lemma files_of_in src images : src ∈ images →
  (op src, SrcData src) ∈ flat_map files_of images ∧
  (tp src, match thumb src with Ok data => data | Err _ => "" end) ∈ flat_map files_of images.
Proof. intros H. split; apply list_elem_of_In, in_flat_map; exists src; (split; [by apply list_elem_of_In|cbn; auto]). Qed.

Lemma original_plain_name src : plain_name (original_name src).
Proof. apply (stem_plain_name "" t _ _ _ plain); [constructor|]. apply known_no_slash, ext_of_any. Qed.
Lemma thumb_plain_name src : plain_name (thumb_name src).
Proof. apply (stem_plain_name "tmp_" t _ _ "jpg" plain); repeat constructor. Qed.

Section read_back.
Context (images : list SourceImage) (d0 d : disk).
Hypothesis (task_named : t ≠ "") (free : vacant d0) (Hw : written d0 d (flat_map files_of images)).
Hypothesis (indexes : NoDup (map SrcIndex images)).
Context (src : SourceImage) (Hin : src ∈ images) (Hidx : 0 ≤ SrcIndex src ∧ in_i64 (SrcIndex src)) (Hext : ext src ≠ "").

Lemma only_match n :
  d_names d !! (((originalDir l).1, (originalDir l).2 ++ [n]) : path) ≠ None →
  HasPrefix n (fileStem t (SrcIndex src) (kind_of reference) +:+ ".") = true → n = original_name src.
Proof.
  intros Hn [tail ->]%HasPrefix_spec. rewrite string_app_assoc in *. set (p := (_, _) : path) in Hn.
  destruct (decide (p ∈ map fst (flat_map files_of images))) as [Hp|Hp].
  - apply files_of_inv in Hp as (src' & Hin' & [E|E]); unfold p in E.
    + rewrite op_plain in E. apply last_inj in E as [_ E]. pose proof E as E'.
      apply stem_tail_inj in E' as (_ & Hi & _); [|done..]. rewrite E. f_equal. symmetry. by eapply one_index.
    + rewrite tp_plain in E. by apply last_inj in E as [? _].
  - exfalso. apply Hn. rewrite (wr_old _ _ _ Hw p Hp). apply free. exists (SrcIndex src), tail. by left.
Qed.

Lemma image_is_read : prun (read_image (SrcIndex src)) d = (Ok (Some (SrcData src, type_of src)), d).
Proof.
  destruct (wr_files _ _ _ Hw _ _ (proj1 (files_of_in src images Hin))) as (Hf & _ & _ & i & n & Hp & Hn & Hdata).
  pose proof (wr_standing _ _ _ Hw) as Hs. rewrite op_plain in Hf, Hp.
  pose proof (parse_original t (SrcIndex src) reference (ext src) plain task_named (proj1 Hidx) (proj2 Hidx) (ext_of_known _ _ _ Hext)) as Hparse.
  cbv zeta in Hparse. fold (original_name src) in Hparse.
  destruct (Glob_one (fileStem t (SrcIndex src) (kind_of reference)) (original_name src) d Hs (original_plain_name src)) as [rest Hglob].
  { by rewrite Hp. } { apply HasPrefix_spec. exists (ext src). unfold original_name, originalFileName. by rewrite string_app_assoc. }
  { exact only_match. }
  destruct (statFile_link d _ i n (kind_of reference) _ Hf Hp Hn (eq_trans (f_equal (λ x, parseFileInfo x _) (name_of_last _ _)) Hparse))
    as (f & Hstat & Hname).
  unfold read_image, type_of. rewrite <- Hdata. pose proof (original_plain_name src) as Hplain.
  destruct reference.
  - apply (read_found (FindReference l dir_stat) (originalDir l) (original_name src)
      (λ name data, (normalizeImageTypeWithFileName DetectContentType "" name data).2) _ d f i n); try done.
    unfold FindReference, pbind_ok. rewrite exec_pbind, ensureDirs_standing by done. cbn [fst snd].
    cbn [kind_of] in Hglob. rewrite exec_pbind_one, Hglob. cbn [fst snd]. by rewrite exec_one.
  - apply (read_found (FindOriginal l dir_stat) (originalDir l) (original_name src)
      (λ _ data, (normalizeImageType DetectContentType "" data).2) _ d f i n); try done.
    unfold FindOriginal, pbind_ok. rewrite exec_pbind, ensureDirs_standing by done. cbn [fst snd].
    change (t +:+ "_" +:+ itoa (SrcIndex src)) with (fileStem t (SrcIndex src) ResourceOriginal).
    cbn [kind_of] in Hglob. rewrite exec_pbind_one, Hglob. cbn [fst snd]. by rewrite exec_one.
Qed.

Lemma thumbnail_is_read data : thumb src = Ok data →
  prun (read_thumbnail (SrcIndex src)) d = (Ok (Some (data, "image/jpeg")), d).
Proof.
  intros Hth. destruct (wr_files _ _ _ Hw _ _ (proj2 (files_of_in src images Hin))) as (Hf & _ & _ & i & n & Hp & Hn & Hdata).
  rewrite Hth in Hdata. pose proof (wr_standing _ _ _ Hw) as Hs. rewrite tp_plain in Hf, Hp.
  pose proof (parse_thumb t (SrcIndex src) reference plain task_named (proj1 Hidx) (proj2 Hidx)) as Hparse.
  cbv zeta in Hparse. fold (thumb_name src) in Hparse.
  destruct (statFile_link d _ i n (thumb_kind_of reference) _ Hf Hp Hn (eq_trans (f_equal (λ x, parseFileInfo x _) (name_of_last _ _)) Hparse))
    as (f & Hstat & Hname).
  unfold read_thumbnail. rewrite <- Hdata. pose proof (thumb_plain_name src) as Hplain. unfold thumb_name in *.
  destruct reference.
  - apply (read_found (FindReferenceThumb l dir_stat) (thumbDir l) (thumbFileName t (SrcIndex src) ResourceReferenceThumb) (λ _ _, "image/jpeg") _ d f i n); try done.
    unfold FindReferenceThumb, pbind_ok. rewrite exec_pbind, ensureDirs_standing by done. cbn [fst snd].
    by rewrite exec_one, Join_plain by exact Hplain.
  - apply (read_found (FindThumb l dir_stat) (thumbDir l) (thumbFileName t (SrcIndex src) ResourceThumb) (λ _ _, "image/jpeg") _ d f i n); try done.
    unfold FindThumb, pbind_ok. rewrite exec_pbind, ensureDirs_standing by done. cbn [fst snd].
    by rewrite exec_one, Join_plain by exact Hplain.
Qed.
End read_back.

Lemma saveable_each ctx n images src : saveable ctx n images = true → src ∈ images → ext src ≠ "" ∧ ∃ data, thumb src = Ok data.
Proof.
  revert n. induction images as [|src' images IH]; intros n H Hin; [by apply not_elem_of_nil in Hin|]. cbn [saveable] in H.
  rewrite !andb_true_iff in H. destruct H as [[[_ He] Hth] H]. apply elem_of_cons in Hin as [->|Hin]; [|by eapply IH].
  split; [by destruct (String.eqb_spec (ext src') "")|]. destruct (thumb src'); [eauto|done].
Qed.

(** C20: what is saved is what is read, or nothing is left.  Alone, on a disk
    that answers and has nothing of these images, saving the images (or the
    references) of a task succeeds exactly when the context lasts, each has a
    type the store knows and each has a thumbnail; then every image is read back
    byte for byte with the type its bytes show, and its thumbnail with it.
    Otherwise no name on the disk is new: what was written before the failure is
    removed. *)
Theorem saved_is_read ctx images d :
  t ≠ "" → consistent d → standing l d → vacant d → NoDup (map SrcIndex images) →
  Forall (λ src, 0 ≤ SrcIndex src ∧ in_i64 (SrcIndex src)) images →
  let '(r, d') := prun (saveTaskImages l Decode scale_jpeg placeholder DetectContentType pieces ctx t images reference) d in
  is_ok r = saveable ctx 0 images ∧
  match r with
  | Ok saved =>
      saved = map saved_of images ∧
      ∀ src, src ∈ images →
        prun (read_image (SrcIndex src)) d' = (Ok (Some (SrcData src, type_of src)), d') ∧
        ∃ data, thumb src = Ok data ∧ prun (read_thumbnail (SrcIndex src)) d' = (Ok (Some (data, "image/jpeg")), d')
  | Err _ => d_names d' = d_names d
  end.
Proof.
  intros Ht Hc Hs Hv Hnd Hidx. unfold prun, saveTaskImages, pbind_ok. rewrite exec_pbind, ensureDirs_standing by done. cbn [fst snd].
  assert (written d d []) as H0 by by split; [..|intros p data ?%not_elem_of_nil|constructor].
  destruct (save_loop_quiet ctx d images 0 [] d [] Hv H0 Hnd) as (r & d' & E & Hok & Hr); [by intros src p _ _ ?%not_elem_of_nil|].
  cbn [map] in E. rewrite E. split; [done|]. destruct r as [saved|e]; [|done]. destruct Hr as [-> Hw]. split; [done|].
  intros src Hin. cbn [is_ok] in Hok. symmetry in Hok. destruct (saveable_each _ _ _ src Hok Hin) as [Hext [data Hth]].
  rewrite Forall_forall in Hidx. split; [|exists data; split; [done|]]; cbn [w_db].
  - apply (image_is_read images d d'); auto.
  - apply (thumbnail_is_read images d d'); auto.
Qed.
End saving.

(** *** An image and a text that is no image *)

Definition sample_images : list SourceImage :=
  [{| SrcIndex := 0; SrcData := "PNG"; SrcFileName := ""; SrcContentType := "" |};
   {| SrcIndex := 7; SrcData := "JFIF"; SrcFileName := ""; SrcContentType := "image/jpeg" |}].

Lemma empty_disk_standing : standing sample_store empty_disk.
Proof.
  intros p Hp. assert (forallb (is_dir (d_names empty_disk)) (prefixes (originalDir sample_store) ++ prefixes (thumbDir sample_store)) = true)
    as H by (vm_compute; reflexivity).
  rewrite forallb_forall in H. by apply H, list_elem_of_In.
Qed.

Lemma empty_disk_vacant t reference : vacant sample_store t reference empty_disk.
Proof.
  intros p Hp. destruct (d_names empty_disk !! p) as [e|] eqn:E; [|done]. exfalso.
  apply elem_of_list_to_map_2, list_elem_of_In, in_map_iff in E as (q & [= -> _] & Hin).
  assert (forallb (λ q : path, length q.2 <=? 3)%nat (prefixes (originalDir sample_store) ++ prefixes (thumbDir sample_store)) = true)
    as Hshort by (vm_compute; reflexivity).
  rewrite forallb_forall in Hshort. apply Hshort, Nat.leb_le in Hin.
  assert (length (originalDir sample_store).2 = 3%nat ∧ length (thumbDir sample_store).2 = 3%nat) as [L1 L2] by (by vm_compute).
  destruct Hp as (i & tail & [-> | ->]); cbn [snd] in Hin; rewrite length_app, ?L1, ?L2 in Hin; cbn [length] in Hin; lia.
Qed.

Lemma saved_is_read_witness :
  let '(r, d') := prun (saveTaskImages sample_store sample_decode sample_scale sample_dot sample_detect byte_by_byte
                          (λ _, Ok tt) "img_a" sample_images false) empty_disk in
  is_ok r = true ∧
  (prun (read_image sample_store sample_detect (λ _, (0, 0)) "img_a" false 7) d').1 = Ok (Some ("JFIF", "image/jpeg")).
Proof.
  pose proof (saved_is_read sample_store (NewLocal_dirs _ _ _) sample_decode sample_scale sample_dot sample_detect byte_by_byte
    byte_by_byte_whole (λ _, (0, 0)) "img_a" false eq_refl (λ _, Ok tt) sample_images empty_disk) as H.
  destruct (prun (saveTaskImages _ _ _ _ _ _ _ _ _ _) empty_disk) as [r d'].
  destruct H as [H1 H2].
  - discriminate.
  - apply empty_disk_consistent.
  - apply empty_disk_standing.
  - apply empty_disk_vacant.
  - cbn. constructor; [intros H; apply list_elem_of_singleton in H; discriminate H|]. apply NoDup_singleton.
  - repeat constructor; cbn; unfold i64_min, i64_max; lia.
  - assert (saveable sample_store sample_decode sample_scale sample_dot sample_detect false (λ _, Ok tt) 0 sample_images = true) as Hs
      by (vm_compute; reflexivity).
    rewrite Hs in H1. split; [exact H1|]. destruct r as [saved|e]; [|discriminate H1]. destruct H2 as [_ H2].
    destruct (H2 {| SrcIndex := 7; SrcData := "JFIF"; SrcFileName := ""; SrcContentType := "image/jpeg" |}) as [H3 _]; [right; left|].
    cbn [SrcIndex SrcData] in H3. rewrite H3. reflexivity.
Defined.
