(* ===== verification/ImageChannel.v ===== *)
(** * Images from a channel (internal/gateway/image_channel.go)

    A route is asked until it has drawn as many images as are wanted; the
    routes are asked in their order until one has.  What the adapters answer is
    a parameter ([ImageGenerate], by route and call), and so is the parser of
    addresses ([url_path]). *)

From S2P Require Import Prelude GoStrings Sql Schema Crypto Channels Archive Runner.

#[local] Open Scope Z_scope.

(** ** Adapters (internal/upstream/adapter) *)

Definition ErrImageReferencesUnsupported : goerr := Sentinel "adapter: image references unsupported".

Record ImageRequest := {
  ImModel : string;
  ImPrompt : string;
  ImN : Z;
  ImSize : string;
  ImFormat : string;
  ImReferences : list string     (* their addresses *)
}.

Record ImageResult := {
  URLs : list string;
  B64s : list string
}.

(** [err.Error()] *)
Fixpoint Error (e : goerr) : string :=
  match e with
  | Sentinel t | EMsg t => t
  | EMySQL n => "Error " +:+ itoa n
  | EWrap p e => p +:+ ": " +:+ Error e
  end.

Inductive openAIEndpointKind := EndpointUnknown | EndpointChatCompletions | EndpointImageGenerations | EndpointResponses.

Fixpoint trim_slashes (r : list ascii) : list ascii :=
  match r with
  | c :: r' => if Ascii.eqb c "/" then trim_slashes r' else r
  | [] => []
  end.
Definition TrimRightSlash (s : string) : string := of_bytes (rev (trim_slashes (rev (bytes s)))).

Section endpoint.
(** The path of an address; None when it cannot be parsed. *)
Context (url_path : string → option string).

Definition endpointPath (a : Adapter) : string :=
  match url_path (AdBaseURL a) with
  | Some p => if String.eqb p "" then ToLower (TrimRightSlash (AdBaseURL a)) else ToLower (TrimRightSlash p)
  | None => ToLower (TrimRightSlash (AdBaseURL a))
  end.

Definition endpointKind (a : Adapter) : openAIEndpointKind :=
  let path := endpointPath a in
  if HasSuffix path "/responses" then EndpointResponses
  else if HasSuffix path "/chat/completions" then EndpointChatCompletions
  else if HasSuffix path "/images/generations" || HasSuffix path "/images/edits" then EndpointImageGenerations
  else EndpointUnknown.

(** Gemini supports none. *)
Definition SupportsImageReferences (a : Adapter) : bool :=
  String.eqb (AdType a) TypeOpenAI && match endpointKind a with EndpointResponses => true | _ => false end.

Definition filterReferenceCapableImageRoutes (routes : list Route) : list Route :=
  List.filter (λ r, SupportsImageReferences (RtAdapter r)) routes.
End endpoint.

(** ** Counting *)

Definition actualCount (r : ImageResult) : Z := Z.of_nat (length (URLs r)) + Z.of_nat (length (B64s r)).

Definition expectedImageCount (req : ImageRequest) : Z := if ImN req <=? 0 then 1 else ImN req.

Definition trimAdapterImageResult (r : ImageResult) (maxImages : Z) : ImageResult :=
  if maxImages <=? 0 then r else
  if maxImages <=? Z.of_nat (length (URLs r)) then {| URLs := take (Z.to_nat maxImages) (URLs r); B64s := [] |} else
  let remaining := maxImages - Z.of_nat (length (URLs r)) in
  {| URLs := URLs r;
     B64s := if remaining <? Z.of_nat (length (B64s r)) then take (Z.to_nat remaining) (B64s r) else B64s r |}.

Definition appendAdapterImageResult (dst src : ImageResult) : ImageResult :=
  {| URLs := URLs dst ++ URLs src; B64s := B64s dst ++ B64s src |}.

(** ** One route *)

Section route.
Context (ImageGenerate : nat → Adapter → string → ImageRequest → result ImageResult).

Definition with_n (n : Z) (req : ImageRequest) : ImageRequest := {|
  ImModel := ImModel req; ImPrompt := ImPrompt req; ImN := n; ImSize := ImSize req; ImFormat := ImFormat req;
  ImReferences := ImReferences req |}.

Definition mismatch (expected got : Z) : goerr :=
  EMsg ("image response count mismatch: requested " +:+ itoa expected +:+ " images, got " +:+ itoa got).

(** [todo] calls are left, [n] have been made. *)
Fixpoint generate_loop (todo n : nat) (rt : Route) (req : ImageRequest) (expected : Z) (combined : ImageResult)
    (lastErr : goerr) : result ImageResult :=
  match todo with
  | O => Err (if 0 <? actualCount combined then mismatch expected (actualCount combined) else lastErr)
  | S todo =>
      let remaining := expected - actualCount combined in
      if remaining <=? 0 then Ok (trimAdapterImageResult combined expected) else
      match ImageGenerate n (RtAdapter rt) (RtUpstreamModel rt) (with_n remaining req) with
      | Ok result =>
          if 0 <? actualCount result then
            let combined := appendAdapterImageResult combined (trimAdapterImageResult result remaining) in
            if expected <=? actualCount combined then Ok (trimAdapterImageResult combined expected)
            else generate_loop todo (S n) rt req expected combined (mismatch expected (actualCount combined))
          else generate_loop todo (S n) rt req expected combined (EMsg "empty image response")
      | Err err =>
          if errors_Is err ErrImageReferencesUnsupported then Err err
          else generate_loop todo (S n) rt req expected combined err
      end
  end.

Definition imageGenerateWithRetry (rt : Route) (req : ImageRequest) : result ImageResult :=
  let expected := expectedImageCount req in
  let maxCalls := if expected <? 2 then 2 else expected in
  generate_loop (Z.to_nat maxCalls) O rt req expected {| URLs := []; B64s := [] |} (EMsg "image route not tried").
End route.

(** ** The routes in their order *)

Section routes.
Context (ImageGenerate : nat → nat → Adapter → string → ImageRequest → result ImageResult).

Fixpoint pickImageRoute (i : nat) (routes : list Route) (req : ImageRequest) :
    option (Route * ImageResult) * list (Route * goerr) :=
  match routes with
  | [] => (None, [])
  | rt :: routes =>
      match imageGenerateWithRetry (ImageGenerate i) rt req with
      | Ok r => (Some (rt, r), [])
      | Err e => let '(selected, failures) := pickImageRoute (S i) routes req in (selected, (rt, e) :: failures)
      end
  end.
End routes.

(** ** Inline images *)

(** The type and the payload of a base64 text, which may be a data URL. *)
Definition inline_parts (raw : string) : string * string :=
  let payload := TrimSpace raw in
  match Cut payload "," with
  | Some (before, after) =>
      if HasPrefix (ToLower before) "data:" then
        (match Cut (TrimPrefix before "data:") ";" with
         | Some (ct, _) => if String.eqb (TrimSpace ct) "" then "image/png" else TrimSpace ct
         | None => "image/png"
         end, after)
      else ("image/png", payload)
  | None => ("image/png", payload)
  end.

Fixpoint decodeChannelInlineImages (b64s : list string) (startIndex : Z) : result (list SourceImage) :=
  match b64s with
  | [] => Ok []
  | raw :: b64s =>
      let '(contentType, payload) := inline_parts raw in
      match base64_decode payload with
      | None => Err (EMsg "illegal base64 data")
      | Some data =>
          rest <-? decodeChannelInlineImages b64s (startIndex + 1) ;;
          Ok ({| SrcIndex := startIndex; SrcData := of_bytes data; SrcFileName := ""; SrcContentType := contentType |} :: rest)
      end
  end.

(** ** A route gives what it was asked for or nothing *)

Lemma trim_count r n : 0 < n → actualCount (trimAdapterImageResult r n) = Z.min n (actualCount r).
Proof.
  intros Hn. unfold trimAdapterImageResult, actualCount. replace (n <=? 0) with false by lia.
  destruct (Z.leb_spec n (Z.of_nat (length (URLs r)))); cbn.
  - rewrite length_take. lia.
  - destruct (Z.ltb_spec (n - Z.of_nat (length (URLs r))) (Z.of_nat (length (B64s r)))); rewrite ?length_take; lia.
Qed.

Lemma append_count r s : actualCount (appendAdapterImageResult r s) = actualCount r + actualCount s.
Proof. unfold actualCount, appendAdapterImageResult. cbn. rewrite !length_app. lia. Qed.

Lemma actualCount_nonneg r : 0 ≤ actualCount r.
Proof. unfold actualCount. lia. Qed.

Lemma generate_loop_exact gen todo n rt req expected combined e r :
  0 < expected → actualCount combined < expected → generate_loop gen todo n rt req expected combined e = Ok r →
  actualCount r = expected.
Proof.
  intros He. revert n combined e. induction todo as [|todo IH]; intros n combined e Hc; cbn [generate_loop]; [done|].
  replace (expected - actualCount combined <=? 0) with false by lia.
  destruct (gen _ _ _ _) as [x|err].
  - destruct (Z.ltb_spec 0 (actualCount x)); [|by apply IH]. cbv zeta.
    destruct (Z.leb_spec expected (actualCount (appendAdapterImageResult combined (trimAdapterImageResult x (expected - actualCount combined))))).
    + intros [= <-]. rewrite trim_count by done. lia.
    + by apply IH.
  - destruct (errors_Is err _); [done|]. by apply IH.
Qed.

Lemma imageGenerateWithRetry_exact gen rt req r :
  imageGenerateWithRetry gen rt req = Ok r → actualCount r = expectedImageCount req.
Proof.
  unfold imageGenerateWithRetry. assert (0 < expectedImageCount req) by (unfold expectedImageCount; destruct (Z.leb_spec (ImN req) 0); lia).
  by apply generate_loop_exact.
Qed.

(** The routes are tried in their order, and a result is exact.  Whatever
    the adapters answer, call by call, the result that is taken has exactly the
    images that were asked for, it is that of the first route that gives so
    many, every route before it is among the failures, in order, and when there
    is none all the routes are. *)
Theorem pickImageRoute_exact ImageGenerate i routes req :
  match pickImageRoute ImageGenerate i routes req with
  | (Some (rt, r), failures) =>
      actualCount r = expectedImageCount req ∧
      ∃ before after, routes = before ++ rt :: after ∧ failures.*1 = before ∧
        imageGenerateWithRetry (ImageGenerate (i + length before)%nat) rt req = Ok r ∧
        ∀ j x e, failures !! j = Some (x, e) → imageGenerateWithRetry (ImageGenerate (i + j)%nat) x req = Err e
  | (None, failures) =>
      failures.*1 = routes ∧
      ∀ j x e, failures !! j = Some (x, e) → imageGenerateWithRetry (ImageGenerate (i + j)%nat) x req = Err e
  end.
Proof.
  revert i. induction routes as [|rt routes IH]; intros i; cbn [pickImageRoute]; [split; [done|by intros [|]]|].
  destruct (imageGenerateWithRetry (ImageGenerate i) rt req) as [r|e] eqn:E.
  - split; [by eapply imageGenerateWithRetry_exact|]. exists [], routes. split_and!; [done..| |by intros [|]].
    by rewrite Nat.add_0_r.
  - specialize (IH (S i)). destruct (pickImageRoute ImageGenerate (S i) routes req) as [[[rt' r]|] failures].
    + destruct IH as (H1 & before & after & -> & <- & H2 & H3). split; [done|]. exists (rt :: failures.*1), after.
      split_and!; [done|done| |].
      * cbn. by rewrite Nat.add_succ_r.
      * intros [|j] x e'; cbn; [intros [= <- <-]; by rewrite Nat.add_0_r|]. intros Hj. rewrite Nat.add_succ_r. by apply H3.
    + destruct IH as [<- H3]. split; [done|].
      intros [|j] x e'; cbn; [intros [= <- <-]; by rewrite Nat.add_0_r|]. intros Hj. rewrite Nat.add_succ_r. by apply H3.
Qed.

Lemma decodeChannelInlineImages_length b64s i l : decodeChannelInlineImages b64s i = Ok l → length l = length b64s.
Proof.
  revert i l. induction b64s as [|raw b64s IH]; intros i l; cbn [decodeChannelInlineImages]; [by intros [= <-]|].
  destruct (inline_parts raw) as [ct p]. destruct (base64_decode p); [|done].
  destruct (decodeChannelInlineImages b64s (i + 1)) as [r|] eqn:E; cbn; [|done]. intros [= <-]. cbn. by rewrite (IH _ _ E).
Qed.
