(* ===== verification/Adapters.v ===== *)
(** * The adapters of channels (internal/upstream/adapter/openai.go, gemini.go)

    What an adapter sends for a request and how it reads the answer: streams
    of events and whole documents, of three protocols, become the chunks and
    the images the gateway works on.  An exchange over HTTP is a parameter
    ([post]: the nth request of a call, its address, its document and whether
    it asks for a stream), and so is encoding/json: [decode] parses a text,
    [decode_first] the first document of a body ([json.Decoder]).  Reading a
    document into a struct is written out: a name matches without regard to
    case, an absent member and [null] leave the zero value, a value of another
    kind makes the whole document an error. *)

From S2P Require Import Prelude GoStrings Schema Json Delta Sse Channels Chat ImageChannel.
From Stdlib Require Import QArith.

#[local] Open Scope Z_scope.

(** Three counts; of a usage the tokens of the completion are kept. *)
Definition read_usage (prompt completion total : string) (m : list (string * json)) : result (Z * Z * Z) :=
  p <-? read_int (member prompt m) ;;
  c <-? read_int (member completion m) ;;
  t <-? read_int (member total m) ;;
  Ok (p, c, t).
Definition completion_of (u : Z * Z * Z) : Z := u.1.2.

(** *** Chat completions *)

(** A choice of a chunk: its delta and its reason to finish. *)
Definition read_chunk_choice : option json → result (string * option string) :=
  read_struct (λ m,
    delta <-? read_struct (λ d, read_string (member "content" d)) (member "delta" m) ;;
    finish <-? read_string_ptr (member "finish_reason" m) ;;
    Ok (delta, finish)).

Definition read_chunk : option json → result (list (string * option string) * option (Z * Z * Z)) :=
  read_struct (λ m,
    choices <-? read_slice read_chunk_choice (member "choices" m) ;;
    usage <-? read_struct_ptr (read_usage "prompt_tokens" "completion_tokens" "total_tokens") (member "usage" m) ;;
    Ok (choices, usage)).

Definition read_choice : option json → result (string * string) :=
  read_struct (λ m,
    content <-? read_struct (λ d, read_string (member "content" d)) (member "message" m) ;;
    finish <-? read_string (member "finish_reason" m) ;;
    Ok (content, finish)).

Definition read_completion : option json → result (list (string * string) * (Z * Z * Z)) :=
  read_struct (λ m,
    choices <-? read_slice read_choice (member "choices" m) ;;
    usage <-? read_struct (read_usage "prompt_tokens" "completion_tokens" "total_tokens") (member "usage" m) ;;
    Ok (choices, usage)).

(** *** Responses *)

Record openAIResponsesContent := { RcType : string; RcText : string; RcRefusal : string }.
Record openAIResponsesOutputItem := {
  RiType : string;
  RiRole : string;
  RiContent : list openAIResponsesContent;
  RiResult : string;
  RiB64JSON : string
}.
Record openAIResponsesObject := {
  RoStatus : string;
  RoOutputText : string;
  RoOutput : list openAIResponsesOutputItem;
  RoUsage : Z * Z * Z;
  RoReason : string      (* of incomplete_details *)
}.

Definition read_content : option json → result openAIResponsesContent :=
  read_struct (λ m,
    t <-? read_string (member "type" m) ;; x <-? read_string (member "text" m) ;; r <-? read_string (member "refusal" m) ;;
    Ok {| RcType := t; RcText := x; RcRefusal := r |}).

Definition read_item : option json → result openAIResponsesOutputItem :=
  read_struct (λ m,
    t <-? read_string (member "type" m) ;;
    role <-? read_string (member "role" m) ;;
    content <-? read_slice read_content (member "content" m) ;;
    result <-? read_string (member "result" m) ;;
    b64 <-? read_string (member "b64_json" m) ;;
    Ok {| RiType := t; RiRole := role; RiContent := content; RiResult := result; RiB64JSON := b64 |}).

Definition read_response : option json → result openAIResponsesObject :=
  read_struct (λ m,
    status <-? read_string (member "status" m) ;;
    text <-? read_string (member "output_text" m) ;;
    output <-? read_slice read_item (member "output" m) ;;
    usage <-? read_struct (read_usage "input_tokens" "output_tokens" "total_tokens") (member "usage" m) ;;
    reason <-? read_struct (λ d, read_string (member "reason" d)) (member "incomplete_details" m) ;;
    Ok {| RoStatus := status; RoOutputText := text; RoOutput := output; RoUsage := usage; RoReason := reason |}).

Definition content_text (c : openAIResponsesContent) : string :=
  if String.eqb (RcType c) "output_text" then RcText c
  else if String.eqb (RcType c) "refusal" then RcRefusal c else "".

Definition collectResponsesText (obj : openAIResponsesObject) : string :=
  if negb (String.eqb (RoOutputText obj) "") then RoOutputText obj else
  concat_strings (map (λ i, if String.eqb (RiType i) "message" then concat_strings (map content_text (RiContent i)) else "")
                    (RoOutput obj)).

Definition chatUsageFromResponses (usage : Z * Z * Z) : option Z :=
  let '(i, o, t) := usage in if (i =? 0) && (o =? 0) && (t =? 0) then None else Some o.

Definition responsesFinishReason (status incompleteReason : string) : string :=
  let reason := ToLower (TrimSpace incompleteReason) in
  if String.eqb reason "max_output_tokens" || String.eqb reason "max_tokens" then "length"
  else if String.eqb (ToLower (TrimSpace status)) "incomplete" && String.eqb reason "content_filter" then "content_filter"
  else "stop".

Definition imageB64FromOutputItem (item : openAIResponsesOutputItem) : string :=
  if negb (String.eqb (RiType item) "image_generation_call") then ""
  else if negb (String.eqb (RiResult item) "") then RiResult item else RiB64JSON item.

Definition firstResponsesImage (items : list openAIResponsesOutputItem) : string :=
  default "" (List.find (λ b64, negb (String.eqb b64 "")) (map imageB64FromOutputItem items)).

(** *** Gemini *)

(** A part: its text and its inline data. *)
Definition read_part : option json → result (string * option (string * string)) :=
  read_struct (λ m,
    text <-? read_string (member "text" m) ;;
    data <-? read_struct_ptr (λ d, t <-? read_string (member "mimeType" d) ;; x <-? read_string (member "data" d) ;; Ok (t, x))
               (member "inlineData" m) ;;
    Ok (text, data)).

(** A candidate: its parts and its reason to finish. *)
Definition read_candidate : option json → result (list (string * option (string * string)) * string) :=
  read_struct (λ m,
    parts <-? read_struct (λ d, parts <-? read_slice read_part (member "parts" d) ;; _ <-? read_string (member "role" d) ;; Ok parts)
                (member "content" m) ;;
    finish <-? read_string (member "finishReason" m) ;;
    Ok (parts, finish)).

Definition geminiGenResp : Type := list (list (string * option (string * string)) * string) * option (Z * Z * Z).

Definition read_gemini : option json → result geminiGenResp :=
  read_struct (λ m,
    candidates <-? read_slice read_candidate (member "candidates" m) ;;
    usage <-? read_struct_ptr (read_usage "promptTokenCount" "candidatesTokenCount" "totalTokenCount") (member "usageMetadata" m) ;;
    Ok (candidates, usage)).

Definition mapGeminiFinish (r : string) : string :=
  if String.eqb r "STOP" then "stop"
  else if String.eqb r "MAX_TOKENS" then "length"
  else if existsb (String.eqb r) ["SAFETY"; "RECITATION"; "PROHIBITED_CONTENT"; "BLOCKLIST"] then "content_filter"
  else ToLower r.

(** ** Answers to a chat *)

Definition delta_chunk (delta finish : string) : ChatChunk :=
  {| ChDelta := delta; ChFinishReason := finish; ChUsage := None; ChErr := None |}.
Definition usage_chunk (n : Z) : ChatChunk := {| ChDelta := ""; ChFinishReason := ""; ChUsage := Some n; ChErr := None |}.
Definition err_chunk (e : string) : ChatChunk := {| ChDelta := ""; ChFinishReason := ""; ChUsage := None; ChErr := Some e |}.
Definition err_chunks (e : option goerr) : list ChatChunk := match e with Some e => [err_chunk (Error e)] | None => [] end.
Definition usage_chunks (u : option Z) : list ChatChunk := match u with Some n => [usage_chunk n] | None => [] end.

Section parsers.
Context (decode decode_first : string → option json).

(** [json.Unmarshal(data, &obj)] *)
Definition Unmarshal {A} (read : option json → result A) (data : string) : result A :=
  match decode data with Some j => read (Some j) | None => Err (EMsg "invalid character") end.

(** [json.NewDecoder(body).Decode(&obj)] *)
Definition Decode {A} (read : option json → result A) (b : Body) : result A :=
  match decode_first (body_text b) with
  | Some j => read (Some j)
  | None => Err (match body_err b with Some e => e | None => EMsg "unexpected end of document" end)
  end.

(** What a line of the stream carries, if it is one of data. *)
Definition data_of (line : string) : option string :=
  if HasPrefix line "data:" then Some (TrimSpace (TrimPrefix line "data:")) else None.

(** The chunks, the last usage, and whether the end was marked. *)
Fixpoint openai_lines (usage : option Z) (ls : list string) : list ChatChunk * option Z * bool :=
  match ls with
  | [] => ([], usage, false)
  | line :: ls =>
      match data_of line with
      | None => openai_lines usage ls
      | Some data =>
          if String.eqb data "[DONE]" then ([], usage, true) else
          match Unmarshal read_chunk data with
          | Err _ => openai_lines usage ls
          | Ok (choices, u) =>
              let '(chunks, usage, done) := openai_lines (match u with Some u => Some (completion_of u) | None => usage end) ls in
              (map (λ c : string * option string, delta_chunk c.1 (default "" c.2)) choices ++ chunks, usage, done)
          end
      end
  end.

Definition parseOpenAISSE (b : Body) : list ChatChunk :=
  let '(ts, e) := scan b in
  let '(chunks, usage, done) := openai_lines None ts in
  chunks ++ usage_chunks usage ++ (if (done : bool) then [] else err_chunks e).

Definition parseOpenAINonStream (b : Body) : list ChatChunk :=
  match Decode read_completion b with
  | Err e => [err_chunk (Error (EWrap "openai: decode non-stream" e))]
  | Ok ([], _) => [delta_chunk "" "stop"]
  | Ok ((content, finish) :: _, u) => [delta_chunk content finish; usage_chunk (completion_of u)]
  end.

(** *** Responses *)

Record text_state := {
  ts_finish : string;
  ts_usage : option Z;
  ts_sawText : bool;
  ts_sent : list ChatChunk
}.

Definition ts_text (text : string) (s : text_state) : text_state :=
  if String.eqb text "" then s else
  {| ts_finish := ts_finish s; ts_usage := ts_usage s; ts_sawText := true; ts_sent := ts_sent s ++ [delta_chunk text ""] |}.

Definition text_event (s : text_state) (event data : string) : bool * text_state :=
  if String.eqb (TrimSpace data) "[DONE]" then (false, s) else
  if String.eqb event "response.output_text.delta" || String.eqb event "response.refusal.delta" then
    (true, match Unmarshal (read_struct (λ m, read_string (member "delta" m))) data with
           | Ok delta => ts_text delta s
           | Err _ => s
           end)
  else if String.eqb event "response.completed" then
    (true, match Unmarshal (read_struct (λ m, read_response (member "response" m))) data with
           | Err _ => s
           | Ok obj =>
               let s := if ts_sawText s then s else ts_text (collectResponsesText obj) s in
               {| ts_finish := responsesFinishReason (RoStatus obj) (RoReason obj);
                  ts_usage := chatUsageFromResponses (RoUsage obj); ts_sawText := ts_sawText s; ts_sent := ts_sent s |}
           end)
  else (true, s).

Definition parseOpenAIResponsesTextSSE (b : Body) : list ChatChunk :=
  let '(s, e) := scanSSE text_event {| ts_finish := "stop"; ts_usage := None; ts_sawText := false; ts_sent := [] |} b in
  ts_sent s ++
  match e with
  | Some e => [err_chunk (Error e)]
  | None => [{| ChDelta := ""; ChFinishReason := ts_finish s; ChUsage := ts_usage s; ChErr := None |}]
  end.

Definition parseOpenAIResponsesNonStream (b : Body) : list ChatChunk :=
  match Decode read_response b with
  | Err e => [err_chunk (Error (EWrap "openai: decode responses non-stream" e))]
  | Ok obj =>
      let text := collectResponsesText obj in
      let finish := responsesFinishReason (RoStatus obj) (RoReason obj) in
      (if negb (String.eqb text "") || negb (String.eqb finish "") then [delta_chunk text finish] else []) ++
      usage_chunks (chatUsageFromResponses (RoUsage obj))
  end.

(** *** Gemini *)

(** [readLine] until it errs: here a last line without its end counts. *)
Definition gemini_read_lines (b : Body) : list string :=
  let '(ls, rest) := lines (body_text b) in
  map (TrimRight is_cr) (ls ++ if String.eqb rest "" then [] else [rest]).

Definition candidate_chunks (c : list (string * option (string * string)) * string) : list ChatChunk :=
  map (λ p : string * option (string * string), delta_chunk p.1 "")
    (List.filter (λ p : string * option (string * string), negb (String.eqb p.1 "")) c.1) ++
  (if String.eqb c.2 "" then [] else [delta_chunk "" (mapGeminiFinish c.2)]).

Fixpoint gemini_lines (usage : option Z) (ls : list string) : list ChatChunk * option Z :=
  match ls with
  | [] => ([], usage)
  | line :: ls =>
      match data_of line with
      | None => gemini_lines usage ls
      | Some data =>
          if String.eqb data "" || String.eqb data "[DONE]" then gemini_lines usage ls else
          match Unmarshal read_gemini data with
          | Err _ => gemini_lines usage ls
          | Ok (candidates, u) =>
              let '(chunks, usage) := gemini_lines (match u with Some u => Some (completion_of u) | None => usage end) ls in
              (flat_map candidate_chunks candidates ++ chunks, usage)
          end
      end
  end.

Definition parseGeminiSSE (b : Body) : list ChatChunk :=
  let '(chunks, usage) := gemini_lines None (gemini_read_lines b) in
  chunks ++ err_chunks (body_err b) ++ usage_chunks usage.

Definition parseGeminiNonStream (b : Body) : list ChatChunk :=
  match Decode read_gemini b with
  | Err e => [err_chunk (Error (EWrap "gemini: decode" e))]
  | Ok (candidates, u) =>
      delta_chunk
        (concat_strings (flat_map (λ c : list (string * option (string * string)) * string, map fst c.1) candidates))
        (foldl (λ finish (c : list (string * option (string * string)) * string),
                  if String.eqb c.2 "" then finish else mapGeminiFinish c.2) "stop" candidates) ::
      usage_chunks (completion_of <$> u)
  end.

(** ** Images *)

(** The best image so far, and whether it is a final one. *)
Definition image_event (s : string * bool) (event data : string) : bool * (string * bool) :=
  if String.eqb (TrimSpace data) "[DONE]" then (false, s) else
  let final (r : result string) := match r with Ok b64 => if String.eqb b64 "" then s else (b64, true) | Err _ => s end in
  (true,
   if String.eqb event "response.image_generation_call.partial_image" then
     match Unmarshal (read_struct (λ m, read_string (member "partial_image_b64" m))) data with
     | Ok b64 => if String.eqb b64 "" then s else (b64, s.2)
     | Err _ => s
     end
   else if String.eqb event "response.output_item.done" then
     final (Unmarshal (read_struct (λ m, i <-? read_item (member "item" m) ;; Ok (imageB64FromOutputItem i))) data)
   else if String.eqb event "response.completed" then
     final (Unmarshal (read_struct (λ m, r <-? read_response (member "response" m) ;; Ok (firstResponsesImage (RoOutput r)))) data)
   else s).

(** [isSSEReadTimeout] *)
Context (is_timeout : goerr → bool).

Definition EmptyImages : goerr := EMsg "openai: empty image response".

Definition parseOpenAIResponsesImageSSE (b : Body) (allowPartialFallback : bool) : result ImageResult :=
  let '((bestB64, finalImage), e) := scanSSE image_event ("", false) b in
  let usable := negb (String.eqb bestB64 "") && (finalImage || allowPartialFallback) in
  match e with
  | Some e => if usable && is_timeout e then Ok {| URLs := []; B64s := [bestB64] |} else Err e
  | None => if usable then Ok {| URLs := []; B64s := [bestB64] |} else Err EmptyImages
  end.

(** [/v1/images/generations]: an address, a base64 text or both per image. *)
Definition read_images : option json → result (list (string * string)) :=
  read_struct (λ m, read_slice (read_struct (λ d,
    url <-? read_string (member "url" d) ;; b64 <-? read_string (member "b64_json" d) ;; Ok (url, b64))) (member "data" m)).

Definition non_empty (l : list string) : list string := List.filter (λ s, negb (String.eqb s "")) l.

Definition some_images (r : ImageResult) (e : goerr) : result ImageResult :=
  match URLs r, B64s r with [], [] => Err e | _, _ => Ok r end.

Definition parse_images (b : Body) : result ImageResult :=
  match Decode read_images b with
  | Err e => Err (EWrap "openai: image decode" e)
  | Ok data => some_images {| URLs := non_empty (map fst data); B64s := non_empty (map snd data) |} EmptyImages
  end.

Definition parse_predictions (b : Body) : result ImageResult :=
  data <-? Decode (read_struct (λ m, read_slice (read_struct (λ d, read_string (member "bytesBase64Encoded" d)))
                                      (member "predictions" m))) b ;;
  some_images {| URLs := []; B64s := non_empty data |} (EMsg "gemini imagen: empty response").

Definition parse_inline (b : Body) : result ImageResult :=
  r <-? Decode read_gemini b ;;
  some_images {| URLs := [];
                 B64s := non_empty (flat_map (λ c : list (string * option (string * string)) * string,
                                                omap (λ p : string * option (string * string), snd <$> p.2) c.1) r.1) |}
    (EMsg "gemini image: empty response").
End parsers.

(** ** Requests *)

Record HTTPReply := { ReplyStatus : Z; ReplyBody : Body }.

(** Why there is no reply. *)
Inductive no_reply := NoRequest (text : string) | NoExchange (text : string).

Definition upstreamErr (r : HTTPReply) : string :=
  "upstream " +:+ itoa (ReplyStatus r) +:+ ": " +:+ TrimSpace (string_take (8 * 1024) (body_text (ReplyBody r))).

Definition EndpointResponses_ (k : openAIEndpointKind) : bool := match k with EndpointResponses => true | _ => false end.

Section requests.
Context (decode decode_first : string → option json) (is_timeout : goerr → bool).
Context (url_path : string → option string).
(** The text of a [float64] in a document. *)
Context (float_text : Q → string).

Definition jint (n : Z) : json := JNum (itoa n).
Definition jmessage (m : ChatMessage) : json := JObj [("role", JStr (Chat.Role m)); ("content", JStr (Content m))].

(** [if x > 0 { payload[name] = x }] *)
Definition opt_float (name : string) (x : Q) : list (string * json) := if Qle_bool x 0 then [] else [(name, JNum (float_text x))].
Definition opt_int (name : string) (n : Z) : list (string * json) := if n <=? 0 then [] else [(name, jint n)].

Definition completions_payload (model : string) (req : ChatRequest) : json := JObj (
  [("model", JStr model); ("messages", JArr (map jmessage (AdMessages req))); ("stream", JBool (AdStream req))] ++
  opt_float "temperature" (AdTemperature req) ++ opt_float "top_p" (AdTopP req) ++ opt_int "max_tokens" (AdMaxTokens req)).

Definition normalizeResponsesRole (role : string) : string :=
  let r := ToLower (TrimSpace role) in
  if existsb (String.eqb r) ["assistant"; "system"; "developer"; "tool"; "user"] then r else "user".

Definition input_text (s : string) : json := JObj [("type", JStr "input_text"); ("text", JStr s)].

Definition openAIResponsesInputFromMessages (msgs : list ChatMessage) : json :=
  JArr (map (λ m, JObj [("role", JStr (normalizeResponsesRole (Chat.Role m))); ("content", JArr [input_text (Content m)])]) msgs).

Definition openAIResponsesInputFromImageRequest (req : ImageRequest) : json :=
  JArr [JObj [("role", JStr "user");
              ("content", JArr (input_text (ImPrompt req) ::
                 map (λ u, JObj [("type", JStr "input_image"); ("image_url", JStr u)])
                   (non_empty (map TrimSpace (ImReferences req)))))]].

Definition responses_payload (model : string) (req : ChatRequest) : json := JObj (
  [("model", JStr model); ("input", openAIResponsesInputFromMessages (AdMessages req)); ("stream", JBool (AdStream req))] ++
  opt_float "temperature" (AdTemperature req) ++ opt_float "top_p" (AdTopP req) ++ opt_int "max_output_tokens" (AdMaxTokens req)).

(** *** The messages of Gemini *)

Definition gemini_text (s : string) : json := JObj (if String.eqb s "" then [] else [("text", JStr s)]).

Definition gemini_content (m : ChatMessage) : json :=
  JObj [("role", JStr (if String.eqb (Chat.Role m) "assistant" then "model" else "user")); ("parts", JArr [gemini_text (Content m)])].

(** An empty slice that was never made is [null]. *)
Definition buildGeminiPayload (req : ChatRequest) : json :=
  let is_system m := String.eqb (Chat.Role m) "system" in
  let system := List.filter is_system (AdMessages req) in
  let contents := List.filter (λ m, negb (is_system m)) (AdMessages req) in
  let genCfg := opt_float "temperature" (AdTemperature req) ++ opt_float "topP" (AdTopP req) ++
                opt_int "maxOutputTokens" (AdMaxTokens req) in
  JObj (
    [("contents", match contents with [] => JNull | _ => JArr (map gemini_content contents) end)] ++
    (match system with
     | [] => []
     | _ => [("systemInstruction", JObj [("parts", JArr (map (λ m, gemini_text (Content m)) system))])]
     end) ++
    match genCfg with [] => [] | _ => [("generationConfig", JObj genCfg)] end).

(** [NewGemini] *)
Definition gemini_base (a : Adapter) : string := TrimSuffix (TrimRightSlash (AdBaseURL a)) "/v1beta".

(** ** Chats *)

(** One request: its address, its document, whether it asks for a stream. *)
Context (post : nat → Adapter → string → json → bool → no_reply + HTTPReply).

(** The reply if it is a success. *)
Definition exchange (n : nat) (a : Adapter) (url : string) (payload : json) (sse : bool) (prefix : string) : result Body :=
  match post n a url payload sse with
  | inl (NoRequest e) => Err (EMsg e)
  | inl (NoExchange e) => Err (EWrap prefix (EMsg e))
  | inr r => if 400 <=? ReplyStatus r then Err (EMsg (upstreamErr r)) else Ok (ReplyBody r)
  end.

Definition chatViaChatCompletions (a : Adapter) (model : string) (req : ChatRequest) : result (list ChatChunk) :=
  b <-? exchange O a (AdBaseURL a) (completions_payload model req) (AdStream req) "openai: request" ;;
  Ok (if AdStream req then parseOpenAISSE decode b else parseOpenAINonStream decode_first b).

Definition chatViaResponses (a : Adapter) (model : string) (req : ChatRequest) : result (list ChatChunk) :=
  b <-? exchange O a (AdBaseURL a) (responses_payload model req) (AdStream req) "openai: request" ;;
  Ok (if AdStream req then parseOpenAIResponsesTextSSE decode b else parseOpenAIResponsesNonStream decode_first b).

Definition gemini_chat (a : Adapter) (model : string) (req : ChatRequest) : result (list ChatChunk) :=
  b <-? exchange O a (gemini_base a +:+ "/v1beta/models/" +:+ model +:+
                      (if AdStream req then ":streamGenerateContent?alt=sse" else ":generateContent"))
          (buildGeminiPayload req) false "gemini: request" ;;
  Ok (if AdStream req then parseGeminiSSE decode b else parseGeminiNonStream decode_first b).

(** The adapter of a channel, by its type. *)
Definition adapter_chat_of (a : Adapter) (model : string) (req : ChatRequest) : string + list ChatChunk :=
  match (if String.eqb (AdType a) TypeOpenAI then
           if EndpointResponses_ (endpointKind url_path a) then chatViaResponses a model req else chatViaChatCompletions a model req
         else gemini_chat a model req) with
  | Ok chunks => inr chunks
  | Err e => inl (Error e)
  end.

(** ** Images *)

Definition image_count (req : ImageRequest) : Z := if ImN req <=? 0 then 1 else ImN req.

Definition imageGenerateViaImagesEndpoint (a : Adapter) (model : string) (req : ImageRequest) : result ImageResult :=
  b <-? exchange O a (AdBaseURL a)
          (JObj ([("model", JStr model); ("prompt", JStr (ImPrompt req)); ("n", jint (image_count req))] ++
                 (if String.eqb (ImSize req) "" then [] else [("size", JStr (ImSize req))]))) false "openai: image request" ;;
  parse_images decode_first b.

Definition imageGenerateViaResponsesOnce (n : nat) (a : Adapter) (model : string) (req : ImageRequest) : result ImageResult :=
  let tool := [("type", JStr "image_generation"); ("quality", JStr "high")] ++
              (if String.eqb (ImSize req) "" then [] else [("size", JStr (ImSize req))]) in
  b <-? exchange n a (AdBaseURL a)
          (JObj [("model", JStr model); ("stream", JBool true); ("input", openAIResponsesInputFromImageRequest req);
                 ("tools", JArr [JObj tool]); ("tool_choice", JObj [("type", JStr "image_generation")])]) true
          "openai: responses image request" ;;
  parseOpenAIResponsesImageSSE decode is_timeout b (match ImReferences req with [] => true | _ => false end).

(** One request per image; [n] have been sent. *)
Fixpoint responses_images (todo n : nat) (a : Adapter) (model : string) (req : ImageRequest) (out : ImageResult) : result ImageResult :=
  match todo with
  | O => Ok out
  | S todo =>
      one <-? imageGenerateViaResponsesOnce n a model req ;;
      responses_images todo (S n) a model req (appendAdapterImageResult out one)
  end.

Definition imageGenerateViaResponses (a : Adapter) (model : string) (req : ImageRequest) : result ImageResult :=
  out <-? responses_images (Z.to_nat (image_count req)) O a model req {| URLs := []; B64s := [] |} ;;
  some_images out EmptyImages.

Definition openai_images (a : Adapter) (model : string) (req : ImageRequest) : result ImageResult :=
  if EndpointResponses_ (endpointKind url_path a) then imageGenerateViaResponses a model req else
  match ImReferences req with
  | [] => imageGenerateViaImagesEndpoint a model req
  | _ => Err ErrImageReferencesUnsupported
  end.

Definition imagenGenerate (a : Adapter) (model : string) (req : ImageRequest) : result ImageResult :=
  b <-? exchange O a (gemini_base a +:+ "/v1beta/models/" +:+ model +:+ ":predict")
          (JObj [("instances", JArr [JObj [("prompt", JStr (ImPrompt req))]]);
                 ("parameters", JObj [("sampleCount", jint (image_count req))])]) false "gemini: imagen" ;;
  parse_predictions decode_first b.

Definition geminiImageGenerate (a : Adapter) (model : string) (req : ImageRequest) : result ImageResult :=
  b <-? exchange O a (gemini_base a +:+ "/v1beta/models/" +:+ model +:+ ":generateContent")
          (JObj [("contents", JArr [JObj [("role", JStr "user"); ("parts", JArr [gemini_text (ImPrompt req)])]])]) false "gemini: image" ;;
  parse_inline decode_first b.

Definition gemini_images (a : Adapter) (model : string) (req : ImageRequest) : result ImageResult :=
  match ImReferences req with
  | [] => if HasPrefix model "imagen" then imagenGenerate a model req else geminiImageGenerate a model req
  | _ => Err ErrImageReferencesUnsupported
  end.

Definition adapter_images_of (a : Adapter) (model : string) (req : ImageRequest) : result ImageResult :=
  if String.eqb (AdType a) TypeOpenAI then openai_images a model req else gemini_images a model req.

(** ** Testing a channel *)

(** A request without a document: HEAD or GET. *)
Context (probe : Adapter → string → no_reply + HTTPReply).

Definition ping_openai (a : Adapter) : result unit :=
  match probe a (AdBaseURL a) with
  | inl (NoRequest e) | inl (NoExchange e) => Err (EMsg e)
  | inr r => if ReplyStatus r =? 405 then Ok tt else if 400 <=? ReplyStatus r then Err (EMsg (upstreamErr r)) else Ok tt
  end.

Definition pingResponses (a : Adapter) : result unit :=
  match post O a (AdBaseURL a) (JObj [("model", JStr "gpt-5.4"); ("input", JStr "ping"); ("max_output_tokens", jint 1)]) false with
  | inl (NoRequest e) | inl (NoExchange e) => Err (EMsg e)
  | inr r =>
      if existsb (Z.eqb (ReplyStatus r)) [200; 201; 202; 204; 400; 422] then Ok tt
      else if 400 <=? ReplyStatus r then Err (EMsg (upstreamErr r)) else Ok tt
  end.

Definition ping_gemini (a : Adapter) : result unit :=
  match probe a (gemini_base a +:+ "/v1beta/models?pageSize=1") with
  | inl (NoRequest e) | inl (NoExchange e) => Err (EMsg e)
  | inr r => if 400 <=? ReplyStatus r then Err (EMsg (upstreamErr r)) else Ok tt
  end.

Definition Ping (a : Adapter) : result unit :=
  if String.eqb (AdType a) TypeOpenAI then
    if EndpointResponses_ (endpointKind url_path a) then pingResponses a else ping_openai a
  else ping_gemini a.
End requests.

(** ** A stream and a whole answer *)

Inductive protocol := Completions | Responses | Gemini.

Definition protocol_of (url_path : string → option string) (a : Adapter) : protocol :=
  if String.eqb (AdType a) TypeOpenAI then if EndpointResponses_ (endpointKind url_path a) then Responses else Completions
  else Gemini.

(** What the gateway makes of the chunks: the text, the reason to finish and
    the tokens that are charged. *)
Definition reply (chunks : list ChatChunk) : string * string * Z :=
  let g := drain_all chunks in (concat_strings (dr_deltas g), dr_finish g, channel_tokens g).

Section served.
Context (decode decode_first : string → option json) (marshal : json → string).

(** *** What a provider sends *)

Definition usage_doc (names : string * string * string) (u : Z * Z * Z) : json :=
  JObj [(names.1.1, jint u.1.1); (names.1.2, jint u.1.2); (names.2, jint u.2)].

Definition piece_doc (p : protocol) (text : string) : string * json :=
  match p with
  | Completions =>
      ("", JObj [("choices", JArr [JObj [("delta", JObj [("content", JStr text)]); ("finish_reason", JNull)]])])
  | Responses => ("response.output_text.delta", JObj [("delta", JStr text)])
  | Gemini => ("", JObj [("candidates", JArr [JObj [("content", JObj [("parts", JArr [JObj [("text", JStr text)]]); ("role", JStr "model")])]])])
  end.

Definition response_doc (text reason : string) (u : Z * Z * Z) : json :=
  JObj [("status", JStr "completed");
        ("output", JArr [JObj [("type", JStr "message");
                               ("content", JArr [JObj [("type", JStr "output_text"); ("text", JStr text)]])]]);
        ("usage", usage_doc ("input_tokens", "output_tokens", "total_tokens") u);
        ("incomplete_details", JObj [("reason", JStr reason)])].

(** The last documents of a stream. *)
Definition last_docs (p : protocol) (text reason : string) (u : Z * Z * Z) : list (string * json) :=
  match p with
  | Completions =>
      [("", JObj [("choices", JArr [JObj [("delta", JObj []); ("finish_reason", JStr reason)]])]);
       ("", JObj [("choices", JArr []); ("usage", usage_doc ("prompt_tokens", "completion_tokens", "total_tokens") u)])]
  | Responses => [("response.completed", JObj [("response", response_doc text reason u)])]
  | Gemini =>
      [("", JObj [("candidates", JArr [JObj [("finishReason", JStr reason)]]);
                  ("usageMetadata", usage_doc ("promptTokenCount", "candidatesTokenCount", "totalTokenCount") u)])]
  end.

Definition stream_docs (p : protocol) (pieces : list string) (reason : string) (u : Z * Z * Z) : list (string * json) :=
  map (piece_doc p) pieces ++ last_docs p (concat_strings pieces) reason u.

Definition whole_doc (p : protocol) (text reason : string) (u : Z * Z * Z) : json :=
  match p with
  | Completions =>
      JObj [("choices", JArr [JObj [("message", JObj [("content", JStr text)]); ("finish_reason", JStr reason)]]);
            ("usage", usage_doc ("prompt_tokens", "completion_tokens", "total_tokens") u)]
  | Responses => response_doc text reason u
  | Gemini =>
      JObj [("candidates", JArr [JObj [("content", JObj [("parts", JArr [JObj [("text", JStr text)]])]); ("finishReason", JStr reason)]]);
            ("usageMetadata", usage_doc ("promptTokenCount", "candidatesTokenCount", "totalTokenCount") u)]
  end.

Definition stream_items (p : protocol) (pieces : list string) (reason : string) (u : Z * Z * Z) : list sse_item :=
  map (λ d, Event d.1 (marshal d.2)) (stream_docs p pieces reason u) ++
  match p with Completions => [Event "" "[DONE]"] | _ => [] end.

(** An encoding of a document that a stream may carry. *)
Definition encoded (j : json) : Prop :=
  decode (marshal j) = Some j ∧ no_eol (marshal j) ∧ (∃ s, marshal j = "{" +:+ s +:+ "}") ∧
  Z.of_nat (String.length (marshal j)) + 7 < max_token.

Definition counts_ok (u : Z * Z * Z) : Prop :=
  (0 ≤ u.1.1 ∧ in_i64 u.1.1) ∧ (0 ≤ u.1.2 ∧ in_i64 u.1.2) ∧ (0 ≤ u.2 ∧ in_i64 u.2).

Lemma read_jint n : 0 ≤ n → in_i64 n → read_int (Some (jint n)) = Ok n.
Proof. intros H1 H2. cbn. by rewrite Atoi_itoa. Qed.

Lemma TrimSpace_braces s : TrimSpace ("{" +:+ s +:+ "}") = "{" +:+ s +:+ "}".
Proof.
  unfold TrimSpace. rewrite !bytes_app. cbn [bytes String.list_ascii_of_string app]. rewrite drop_space_graphic by done.
  change ("{"%char :: bytes s ++ ["}"%char]) with (("{"%char :: bytes s) ++ ["}"%char]). rewrite rev_app_distr.
  cbn [rev app]. rewrite drop_space_graphic by done. cbn [rev]. rewrite rev_app_distr, rev_involutive. cbn [rev app].
  apply bytes_inj. rewrite bytes_of_bytes, !bytes_app. done.
Qed.

Lemma data_of_doc j : encoded j → data_of ("data: " +:+ marshal j) = Some (marshal j).
Proof.
  intros (_ & _ & [s Hs] & _). unfold data_of. replace (HasPrefix _ "data:") with true.
  2: { symmetry. apply HasPrefix_spec. by exists (" " +:+ marshal j). }
  change ("data: " +:+ marshal j) with ("data:" +:+ (" " +:+ marshal j)). rewrite TrimPrefix_app. f_equal.
  trans (TrimSpace (marshal j)); [|rewrite Hs; apply TrimSpace_braces].
  unfold TrimSpace. rewrite bytes_app, drop_space1; [done|]. by repeat constructor.
Qed.

Lemma encoded_not_mark j : encoded j → marshal j ≠ "" ∧ marshal j ≠ "[DONE]" ∧ TrimSpace (marshal j) ≠ "[DONE]".
Proof. intros (_ & _ & [s Hs] & _). rewrite Hs, TrimSpace_braces. by split_and!. Qed.

Lemma encoded_item name j : encoded j → no_eol name → TrimSpace name = name → item_ok (Event name (marshal j)).
Proof.
  intros (_ & Hc & [s Hs] & _) Hn Ht. cbn. split_and!; [done|done|eapply Forall_impl; [exact Hc|]; by intros c []|..]; rewrite Hs.
  - rewrite !bytes_app. by eexists _, _.
  - rewrite !bytes_app. exists "}"%char, (("{"%char :: bytes s)). by cbn.
Qed.

Lemma split_clean acc l :
  Forall (λ c, is_lf c = false ∧ is_cr c = false) l → split_bytes LF acc l = [of_bytes (rev acc ++ l)].
Proof.
  intros H. revert acc. induction H as [|c l [Hl _] _ IH]; intros acc; cbn [split_bytes]; [by rewrite app_nil_r|].
  unfold is_lf in Hl. rewrite Hl, IH. cbn [rev]. by rewrite <-app_assoc.
Qed.

Lemma encoded_lines j : encoded j → item_lines (Event "" (marshal j)) = ["data: " +:+ marshal j; ""].
Proof.
  intros (_ & Hc & _). cbn [item_lines String.eqb app]. unfold Split. rewrite split_clean by done.
  cbn [rev app map]. by rewrite of_bytes_bytes.
Qed.

(** *** The chunks of a stream *)

Definition text_chunks (pieces : list string) : list ChatChunk := map (λ p, delta_chunk p "") pieces.

Definition expected (text finish : string) (tokens : Z) : string * string * Z :=
  (text, finish, if tokens <=? 0 then quarter text else tokens).

Lemma string_app_nil s : s +:+ "" = s.
Proof. apply bytes_inj. by rewrite bytes_app, app_nil_r. Qed.

Lemma concat_non_empty l : concat_strings (non_empty l) = concat_strings l.
Proof. unfold non_empty. induction l as [|s l IH]; [done|]. cbn. destruct (String.eqb_spec s "") as [->|]; cbn; [done|by rewrite IH]. Qed.

Lemma drain_text g pieces rest :
  drain g (text_chunks pieces ++ rest) =
  drain {| dr_deltas := dr_deltas g ++ non_empty pieces; dr_finish := dr_finish g; dr_tokens := dr_tokens g |} rest.
Proof.
  revert g. induction pieces as [|p pieces IH]; intros g.
  - cbn. rewrite app_nil_r. by destruct g.
  - cbn [text_chunks map app drain delta_chunk ChErr ChDelta ChFinishReason ChUsage String.eqb].
    unfold text_chunks in IH. rewrite IH. cbn [dr_deltas dr_finish dr_tokens]. unfold non_empty. cbn [List.filter].
    destruct (String.eqb p ""); cbn [negb]; [done|]. by rewrite <-app_assoc.
Qed.

Lemma reply_text pieces rest finish tokens :
  drain {| dr_deltas := non_empty pieces; dr_finish := "stop"; dr_tokens := 0 |} rest =
    {| dr_deltas := non_empty pieces; dr_finish := finish; dr_tokens := tokens |} →
  reply (text_chunks pieces ++ rest) = expected (concat_strings pieces) finish tokens.
Proof.
  intros H. unfold reply, drain_all. rewrite drain_text. cbn [dr_deltas dr_finish dr_tokens app]. rewrite H.
  unfold channel_tokens, expected. cbn [dr_deltas dr_finish dr_tokens]. by rewrite concat_non_empty.
Qed.

(** *** Chat completions *)

Definition doc_lines (j : json) : list string := ["data: " +:+ marshal j; ""].

Lemma items_lines (ds : list (string * json)) :
  Forall (λ d, d.1 = "" ∧ encoded d.2) ds → (map (λ d, Event d.1 (marshal d.2)) ds ≫= item_lines) = flat_map (λ d, doc_lines d.2) ds.
Proof.
  induction 1 as [|[name j] ds [Hn Hj] _ IH]; [done|]. cbn in Hn, Hj. subst. cbn [map mbind list_bind flat_map fst snd].
  rewrite encoded_lines by done. f_equal. exact IH.
Qed.

Lemma openai_doc u j ls :
  encoded j →
  openai_lines decode u (doc_lines j ++ ls) =
  match read_chunk (Some j) with
  | Err _ => openai_lines decode u ls
  | Ok (choices, u') =>
      let '(chunks, usage, done) := openai_lines decode (match u' with Some u => Some (completion_of u) | None => u end) ls in
      (map (λ c : string * option string, delta_chunk c.1 (default "" c.2)) choices ++ chunks, usage, done)
  end.
Proof.
  intros Hj. cbn [app doc_lines openai_lines]. rewrite data_of_doc by done.
  destruct (encoded_not_mark j Hj) as (_ & Hm & _). destruct (String.eqb_spec (marshal j) "[DONE]"); [done|].
  unfold Unmarshal. destruct Hj as (-> & _). change (data_of "") with (@None string).
  destruct (read_chunk (Some j)) as [[choices u']|]; done.
Qed.

Lemma openai_pieces pieces ls :
  Forall (λ t, encoded (piece_doc Completions t).2) pieces →
  openai_lines decode None (flat_map (λ t, doc_lines (piece_doc Completions t).2) pieces ++ ls) =
  let '(chunks, usage, done) := openai_lines decode None ls in (text_chunks pieces ++ chunks, usage, done).
Proof.
  induction 1 as [|t pieces Ht _ IH]; [cbn [flat_map app text_chunks map]; by destruct (openai_lines decode None ls) as [[? ?] ?]|].
  cbn [flat_map]. rewrite <-app_assoc, openai_doc by done.
  change (read_chunk _) with (@Ok (list (string * option string) * option (Z * Z * Z)) ([(t, None)], None)).
  cbv iota. rewrite IH. by destruct (openai_lines decode None ls) as [[? ?] ?].
Qed.

Lemma read_usage_doc names u :
  counts_ok u → bool_decide (NoDup [ToLower names.1.1; ToLower names.1.2; ToLower names.2]) = true →
  match usage_doc names u with JObj m => read_usage names.1.1 names.1.2 names.2 m = Ok u | _ => False end.
Proof.
  destruct names as [[a b] c], u as [[x y] z]. intros (Hx & Hy & Hz) Hnd%bool_decide_eq_true. cbn in Hx, Hy, Hz, Hnd |- *.
  unfold read_usage, member. cbn [List.filter fst]. unfold EqualFold.
  rewrite !String.eqb_refl. apply NoDup_cons in Hnd as [H1 Hnd]. apply NoDup_cons in Hnd as [H2 _].
  destruct (String.eqb_spec (ToLower b) (ToLower a)); [set_solver|].
  destruct (String.eqb_spec (ToLower c) (ToLower a)); [set_solver|].
  destruct (String.eqb_spec (ToLower a) (ToLower b)); [set_solver|].
  destruct (String.eqb_spec (ToLower c) (ToLower b)); [set_solver|].
  destruct (String.eqb_spec (ToLower a) (ToLower c)); [set_solver|].
  destruct (String.eqb_spec (ToLower b) (ToLower c)); [set_solver|].
  cbn [last fmap option_fmap option_map snd]. rewrite !read_jint by tauto. done.
Qed.

Lemma doc_lines_clean (ds : list json) :
  Forall encoded ds → Forall no_eol (flat_map doc_lines ds) ∧
  Forall (λ l, Z.of_nat (String.length l) + 1 < max_token) (flat_map doc_lines ds).
Proof.
  induction 1 as [|j ds (_ & Hc & _ & Hl) _ [IH1 IH2]]; [by split; constructor|]. cbn [flat_map app doc_lines].
  split; (constructor; [|constructor; [|done]]).
  - unfold no_eol. rewrite bytes_app. apply Forall_app. split; [by repeat constructor|done].
  - constructor.
  - rewrite length_string_app. cbn [String.length]. lia.
  - by vm_compute.
Qed.

Lemma docs_render crlf (ds : list (string * json)) (done : bool) :
  Forall (λ d, d.1 = "" ∧ encoded d.2) ds →
  render crlf (map (λ d, Event d.1 (marshal d.2)) ds ++ if done then [Event "" "[DONE]"] else []) =
  render_lines crlf (flat_map doc_lines (map snd ds) ++ if done then ["data: [DONE]"; ""] else []).
Proof.
  intros H. unfold render. rewrite bind_app, items_lines by done. f_equal. f_equal; [|by destruct done].
  clear H. induction ds as [|d ds IH]; [done|]. cbn [flat_map map]. by rewrite IH.
Qed.

(** The lines a reader of chat completions or of Gemini sees. *)
Lemma docs_lines_clean (ds : list (string * json)) (done : bool) :
  Forall (λ d, d.1 = "" ∧ encoded d.2) ds →
  let ls := flat_map doc_lines (map snd ds) ++ if done then ["data: [DONE]"; ""] else [] in
  Forall no_eol ls ∧ Forall (λ l, Z.of_nat (String.length l) + 1 < max_token) ls.
Proof.
  intros H. destruct (doc_lines_clean (map snd ds)) as [H1 H2].
  { apply Forall_map. eapply Forall_impl; [exact H|]. by intros d [_ ?]. }
  cbv zeta. split; apply Forall_app; (split; [done|]); destruct done; repeat constructor; by vm_compute.
Qed.

Lemma completions_stream crlf pieces reason u :
  Forall (λ d, encoded d.2) (stream_docs Completions pieces reason u) → counts_ok u →
  reply (parseOpenAISSE decode {| body_text := render crlf (stream_items Completions pieces reason u); body_err := None |}) =
  expected (concat_strings pieces) (if String.eqb reason "" then "stop" else reason) (completion_of u).
Proof.
  intros H Hu. unfold parseOpenAISSE, stream_items.
  assert (Forall (λ d : string * json, d.1 = "" ∧ encoded d.2) (stream_docs Completions pieces reason u)) as H'.
  { unfold stream_docs in *. apply Forall_app in H as [Hp Hl]. apply Forall_app. split.
    - rewrite List.Forall_map in Hp |- *. eapply Forall_impl; [exact Hp|]. done.
    - cbn [last_docs] in *. apply Forall_cons in Hl as [Ha [Hb _]%Forall_cons].
      constructor; [done|]. constructor; [done|constructor]. }
  rewrite (docs_render crlf _ true) by done. destruct (docs_lines_clean _ true H') as [Hc Hlen].
  rewrite scan_render by done. clear Hc Hlen H'. unfold stream_docs in *. apply Forall_app in H as [Hp Hl].
  rewrite map_app, flat_map_app. replace (flat_map doc_lines (map snd (map (piece_doc Completions) pieces)))
    with (flat_map (λ t, doc_lines (piece_doc Completions t).2) pieces).
  2: { clear. induction pieces as [|t pieces IH]; [done|]. cbn [flat_map map]. by rewrite IH. }
  rewrite <-app_assoc, openai_pieces by (by rewrite List.Forall_map in Hp).
  cbn [last_docs map flat_map snd]. rewrite <-!app_assoc. cbn [last_docs] in Hl.
  apply Forall_cons in Hl as [Ha [Hb _]%Forall_cons]. cbn [snd] in Ha, Hb.
  rewrite openai_doc by done.
  change (read_chunk _) with (@Ok (list (string * option string) * option (Z * Z * Z)) ([("", Some reason)], None)).
  cbv iota. rewrite openai_doc by done.
  assert (read_chunk (Some (JObj [("choices", JArr []); ("usage", usage_doc ("prompt_tokens", "completion_tokens", "total_tokens") u)])) =
    Ok ([], Some u)) as ->.
  { pose proof (read_usage_doc ("prompt_tokens", "completion_tokens", "total_tokens") u Hu) as Hr.
    cbn [usage_doc] in Hr |- *. change (read_chunk _) with
      (usage <-? (a <-? read_usage "prompt_tokens" "completion_tokens" "total_tokens"
        [("prompt_tokens", jint u.1.1); ("completion_tokens", jint u.1.2); ("total_tokens", jint u.2)] ;; Ok (Some a)) ;;
       Ok (@nil (string * option string), usage)). cbn [fst snd] in Hr. rewrite Hr; [done|]. by vm_compute. }
  cbv iota. cbn [flat_map app].
  change (openai_lines decode ?x ["data: [DONE]"; ""]) with (@nil ChatChunk, x, true).
  cbv iota. cbn [map app fst snd default usage_chunks]. rewrite <-app_assoc. apply reply_text.
  cbn [app drain delta_chunk usage_chunk ChErr ChDelta ChFinishReason ChUsage dr_deltas dr_finish dr_tokens String.eqb].
  done.
Qed.

Lemma completions_whole text reason u e :
  decode_first (marshal (whole_doc Completions text reason u)) = Some (whole_doc Completions text reason u) → counts_ok u →
  reply (parseOpenAINonStream decode_first {| body_text := marshal (whole_doc Completions text reason u); body_err := e |}) =
  expected text (if String.eqb reason "" then "stop" else reason) (completion_of u).
Proof.
  intros H Hu. unfold parseOpenAINonStream, Decode. cbn [body_text body_err]. rewrite H.
  pose proof (read_usage_doc ("prompt_tokens", "completion_tokens", "total_tokens") u Hu) as Hr.
  cbn [usage_doc fst snd] in Hr. cbn [whole_doc usage_doc fst snd].
  change (read_completion _) with
    (usage <-? read_usage "prompt_tokens" "completion_tokens" "total_tokens"
       [("prompt_tokens", jint u.1.1); ("completion_tokens", jint u.1.2); ("total_tokens", jint u.2)] ;;
     Ok ([(text, reason)], usage)). rewrite Hr by (by vm_compute). cbn [rbind].
  unfold reply, drain_all, channel_tokens, expected.
  cbn [drain delta_chunk usage_chunk ChErr ChDelta ChFinishReason ChUsage dr_deltas dr_finish dr_tokens String.eqb].
  destruct (String.eqb_spec text "") as [->|]; destruct (String.eqb reason ""); cbn [app concat_strings]; try done;
    by rewrite string_app_nil.
Qed.

(** *** Gemini *)

Lemma gemini_doc u j ls :
  encoded j →
  gemini_lines decode u (doc_lines j ++ ls) =
  match read_gemini (Some j) with
  | Err _ => gemini_lines decode u ls
  | Ok (candidates, u') =>
      let '(chunks, usage) := gemini_lines decode (match u' with Some u => Some (completion_of u) | None => u end) ls in
      (flat_map candidate_chunks candidates ++ chunks, usage)
  end.
Proof.
  intros Hj. cbn [app doc_lines gemini_lines]. rewrite data_of_doc by done.
  destruct (encoded_not_mark j Hj) as (He & Hm & _).
  destruct (String.eqb_spec (marshal j) ""); [done|]. destruct (String.eqb_spec (marshal j) "[DONE]"); [done|].
  unfold Unmarshal. destruct Hj as (-> & _). change (data_of "") with (@None string).
  destruct (read_gemini (Some j)) as [[candidates u']|]; done.
Qed.

Lemma gemini_pieces pieces ls :
  Forall (λ t, encoded (piece_doc Gemini t).2) pieces →
  gemini_lines decode None (flat_map (λ t, doc_lines (piece_doc Gemini t).2) pieces ++ ls) =
  let '(chunks, usage) := gemini_lines decode None ls in (text_chunks (non_empty pieces) ++ chunks, usage).
Proof.
  induction 1 as [|t pieces Ht _ IH]; [cbn [flat_map app]; by destruct (gemini_lines decode None ls)|].
  cbn [flat_map]. rewrite <-app_assoc, gemini_doc by done.
  change (read_gemini _) with (@Ok geminiGenResp ([([(t, None)], "")], None)).
  cbv iota. rewrite IH. destruct (gemini_lines decode None ls) as [chunks usage]. cbn [flat_map app]. rewrite app_nil_r.
  unfold candidate_chunks, non_empty. cbn [fst snd List.filter String.eqb]. rewrite app_nil_r.
  by destruct (String.eqb t "").
Qed.

Lemma mapGeminiFinish_some r : r ≠ "" → mapGeminiFinish r ≠ "".
Proof.
  intros H. unfold mapGeminiFinish. repeat case_match; try done. by destruct r.
Qed.

Definition gemini_finish (reason : string) : string := if String.eqb reason "" then "stop" else mapGeminiFinish reason.

Lemma gemini_stream crlf pieces reason u :
  Forall (λ d, encoded d.2) (stream_docs Gemini pieces reason u) → counts_ok u →
  reply (parseGeminiSSE decode {| body_text := render crlf (stream_items Gemini pieces reason u); body_err := None |}) =
  expected (concat_strings pieces) (gemini_finish reason) (completion_of u).
Proof.
  intros H Hu. unfold parseGeminiSSE, stream_items.
  assert (Forall (λ d : string * json, d.1 = "" ∧ encoded d.2) (stream_docs Gemini pieces reason u)) as H'.
  { unfold stream_docs in *. apply Forall_app in H as [Hp Hl]. apply Forall_app. split.
    - rewrite List.Forall_map in Hp |- *. eapply Forall_impl; [exact Hp|]. done.
    - cbn [last_docs] in *. apply Forall_cons in Hl as [Ha _]. constructor; [done|constructor]. }
  rewrite (docs_render crlf _ false) by done. destruct (docs_lines_clean _ false H') as [Hc _].
  unfold gemini_read_lines. cbn [body_text body_err]. rewrite lines_render by done. cbn [String.eqb]. rewrite app_nil_r.
  rewrite trim_all_eol by done. clear Hc H'. unfold stream_docs in *. apply Forall_app in H as [Hp Hl].
  rewrite map_app, flat_map_app. replace (flat_map doc_lines (map snd (map (piece_doc Gemini) pieces)))
    with (flat_map (λ t, doc_lines (piece_doc Gemini t).2) pieces).
  2: { clear. induction pieces as [|t pieces IH]; [done|]. cbn [flat_map map]. by rewrite IH. }
  rewrite <-app_assoc, gemini_pieces by (by rewrite List.Forall_map in Hp).
  cbn [last_docs map flat_map snd] in *. rewrite <-!app_assoc. apply Forall_cons in Hl as [Ha _]. cbn [snd] in Ha.
  rewrite gemini_doc by done.
  pose proof (read_usage_doc ("promptTokenCount", "candidatesTokenCount", "totalTokenCount") u Hu) as Hr. cbn [usage_doc fst snd] in Hr |- *.
  change (read_gemini _) with
    (usage <-? (a <-? read_usage "promptTokenCount" "candidatesTokenCount" "totalTokenCount"
        [("promptTokenCount", jint u.1.1); ("candidatesTokenCount", jint u.1.2); ("totalTokenCount", jint u.2)] ;; Ok (Some a)) ;;
     @Ok geminiGenResp ([([], reason)], usage)). rewrite Hr by (by vm_compute). cbn [rbind].
  change (gemini_lines decode ?x ([] ++ [])) with (@nil ChatChunk, x).
  cbn [err_chunks usage_chunks app flat_map]. rewrite !app_nil_r, <-app_assoc, reply_text with
    (finish := gemini_finish reason) (tokens := completion_of u); [by rewrite concat_non_empty|].
  unfold candidate_chunks, gemini_finish. cbn [fst snd List.filter map app].
  destruct (String.eqb_spec reason "") as [->|Hr']; [done|].
  cbn [app drain delta_chunk usage_chunk ChErr ChDelta ChFinishReason ChUsage dr_deltas dr_finish dr_tokens String.eqb].
  destruct (String.eqb_spec (mapGeminiFinish reason) "") as [E|_]; [by apply mapGeminiFinish_some in E|done].
Qed.

Lemma gemini_whole text reason u e :
  decode_first (marshal (whole_doc Gemini text reason u)) = Some (whole_doc Gemini text reason u) → counts_ok u →
  reply (parseGeminiNonStream decode_first {| body_text := marshal (whole_doc Gemini text reason u); body_err := e |}) =
  expected text (gemini_finish reason) (completion_of u).
Proof.
  intros H Hu. unfold parseGeminiNonStream, Decode. cbn [body_text body_err]. rewrite H.
  pose proof (read_usage_doc ("promptTokenCount", "candidatesTokenCount", "totalTokenCount") u Hu) as Hr. cbn [usage_doc fst snd] in Hr.
  cbn [whole_doc usage_doc fst snd].
  change (read_gemini _) with
    (usage <-? (a <-? read_usage "promptTokenCount" "candidatesTokenCount" "totalTokenCount"
        [("promptTokenCount", jint u.1.1); ("candidatesTokenCount", jint u.1.2); ("totalTokenCount", jint u.2)] ;; Ok (Some a)) ;;
     @Ok geminiGenResp ([([(text, None)], reason)], usage)). rewrite Hr by (by vm_compute). cbn [rbind].
  unfold reply, drain_all, channel_tokens, expected, gemini_finish.
  cbn [foldl flat_map map fst snd app concat_strings usage_chunks option_fmap fmap option_map].
  rewrite string_app_nil.
  cbn [drain delta_chunk usage_chunk ChErr ChDelta ChFinishReason ChUsage dr_deltas dr_finish dr_tokens String.eqb].
  assert (String.eqb (if String.eqb reason "" then "stop" else mapGeminiFinish reason) "" = false) as ->.
  { destruct (String.eqb_spec reason "") as [|E]; [done|]. by apply String.eqb_neq, mapGeminiFinish_some. }
  destruct (String.eqb_spec text "") as [->|]; cbn [app concat_strings]; [done|].
  by rewrite string_app_nil.
Qed.

(** *** Responses *)

Lemma text_event_piece s t :
  encoded (piece_doc Responses t).2 →
  text_event decode s "response.output_text.delta" (marshal (piece_doc Responses t).2) = (true, ts_text t s).
Proof.
  intros Hj. destruct (encoded_not_mark _ Hj) as (_ & _ & Hm). unfold text_event, Unmarshal.
  destruct (String.eqb_spec (TrimSpace (marshal (piece_doc Responses t).2)) "[DONE]"); [done|].
  destruct Hj as (-> & _). done.
Qed.

Definition said (pieces : list string) : bool := existsb (λ t, negb (String.eqb t "")) pieces.

Lemma feed_text_pieces s pieces rest :
  Forall (λ t, encoded (piece_doc Responses t).2) pieces →
  feed (text_event decode) s (map (λ t, EvData "response.output_text.delta" (marshal (piece_doc Responses t).2)) pieces ++ rest) =
  feed (text_event decode) {| ts_finish := ts_finish s; ts_usage := ts_usage s; ts_sawText := ts_sawText s || said pieces;
                              ts_sent := ts_sent s ++ text_chunks (non_empty pieces) |} rest.
Proof.
  intros H. revert s. induction H as [|t pieces Ht _ IH]; intros s.
  - cbn. rewrite app_nil_r, orb_false_r. by destruct s.
  - cbn [map app feed]. rewrite text_event_piece by done. rewrite IH. unfold ts_text, said, non_empty. cbn [existsb List.filter].
    destruct (String.eqb t ""); cbn [negb ts_finish ts_usage ts_sawText ts_sent orb]; [done|].
    rewrite orb_true_r, <-app_assoc. done.
Qed.

Lemma said_concat pieces : said pieces = false → concat_strings pieces = "".
Proof.
  unfold said. induction pieces as [|t pieces IH]; [done|]. cbn. intros [Ht Hs]%orb_false_iff.
  apply negb_false_iff, String.eqb_eq in Ht. subst. by rewrite IH.
Qed.

Definition responses_finish (reason : string) : string := responsesFinishReason "completed" reason.

Lemma read_response_doc text reason u :
  counts_ok u →
  read_response (Some (response_doc text reason u)) =
  Ok {| RoStatus := "completed"; RoOutputText := "";
        RoOutput := [{| RiType := "message"; RiRole := ""; RiContent := [{| RcType := "output_text"; RcText := text; RcRefusal := "" |}];
                        RiResult := ""; RiB64JSON := "" |}];
        RoUsage := u; RoReason := reason |}.
Proof.
  intros Hu. pose proof (read_usage_doc ("input_tokens", "output_tokens", "total_tokens") u Hu) as Hr. cbn [usage_doc fst snd] in Hr.
  unfold response_doc. cbn [usage_doc fst snd].
  change (read_response _) with
    (usage <-? read_usage "input_tokens" "output_tokens" "total_tokens"
        [("input_tokens", jint u.1.1); ("output_tokens", jint u.1.2); ("total_tokens", jint u.2)] ;;
     Ok {| RoStatus := "completed"; RoOutputText := "";
           RoOutput := [{| RiType := "message"; RiRole := ""; RiContent := [{| RcType := "output_text"; RcText := text; RcRefusal := "" |}];
                           RiResult := ""; RiB64JSON := "" |}];
           RoUsage := usage; RoReason := reason |}). rewrite Hr by (by vm_compute). done.
Qed.

Lemma response_usage u : counts_ok u → chatUsageFromResponses u = None ∧ completion_of u = 0 ∨ chatUsageFromResponses u = Some (completion_of u).
Proof.
  destruct u as [[i o] t]. unfold chatUsageFromResponses, completion_of. cbn.
  destruct (Z.eqb_spec i 0), (Z.eqb_spec o 0), (Z.eqb_spec t 0); cbn; auto.
Qed.

Lemma responses_finish_some reason : String.eqb (responses_finish reason) "" = false.
Proof. unfold responses_finish, responsesFinishReason. by repeat case_match. Qed.

Lemma response_text text reason u :
  collectResponsesText {| RoStatus := "completed"; RoOutputText := "";
        RoOutput := [{| RiType := "message"; RiRole := ""; RiContent := [{| RcType := "output_text"; RcText := text; RcRefusal := "" |}];
                        RiResult := ""; RiB64JSON := "" |}];
        RoUsage := u; RoReason := reason |} = text.
Proof. unfold collectResponsesText. cbn [RoOutputText RoOutput String.eqb negb map RiType RiContent concat_strings]. by rewrite !string_app_nil. Qed.

Lemma responses_stream crlf pieces reason u :
  Forall (λ d, encoded d.2) (stream_docs Responses pieces reason u) → counts_ok u →
  reply (parseOpenAIResponsesTextSSE decode {| body_text := render crlf (stream_items Responses pieces reason u); body_err := None |}) =
  expected (concat_strings pieces) (responses_finish reason) (completion_of u).
Proof.
  intros H Hu. unfold parseOpenAIResponsesTextSSE, stream_items. rewrite app_nil_r, scanSSE_render.
  2: { rewrite List.Forall_map. unfold stream_docs in *. apply Forall_app in H as [Hp Hl]. apply Forall_app. split.
       - rewrite List.Forall_map in Hp |- *. eapply Forall_impl; [exact Hp|]. intros t Ht.
         apply encoded_item; [done|by repeat constructor|by vm_compute].
       - apply Forall_cons in Hl as [Ha _]. constructor; [|constructor].
         apply encoded_item; [done|by repeat constructor|by vm_compute]. }
  unfold stream_docs in *. apply Forall_app in H as [Hp Hl]. rewrite List.Forall_map in Hp. rewrite map_app, map_map.
  assert (∀ l, events_of (map (λ t, Event (piece_doc Responses t).1 (marshal (piece_doc Responses t).2)) pieces ++ l) =
    map (λ t, EvData "response.output_text.delta" (marshal (piece_doc Responses t).2)) pieces ++ events_of l) as ->.
  { intros l. clear. induction pieces as [|t pieces IH]; [done|]. cbn [map app]. rewrite <-IH. done. }
  rewrite feed_text_pieces by done. cbn [ts_finish ts_usage ts_sawText ts_sent orb app last_docs map fst snd] in *.
  apply Forall_cons in Hl as [Ha _]. cbn [snd] in Ha. set (j := JObj [("response", response_doc (concat_strings pieces) reason u)]) in *.
  change (events_of [Event "response.completed" (marshal j)]) with [EvData "response.completed" (marshal j)]. cbn [feed].
  destruct (encoded_not_mark _ Ha) as (_ & _ & Hm). destruct Ha as [Hd _]. unfold text_event at 1, Unmarshal at 2. rewrite Hd.
  destruct (String.eqb_spec (TrimSpace (marshal j)) "[DONE]"); [done|].
  change (read_struct (λ m, read_response (member "response" m)) (Some j)) with (read_response (Some (response_doc (concat_strings pieces) reason u))).
  rewrite read_response_doc by done.
  cbn [String.eqb Ascii.eqb Bool.eqb orb]. cbv iota zeta. rewrite response_text.
  set (s := if ts_sawText _ then _ else _).
  assert (ts_sent s = text_chunks (non_empty pieces)) as Hs.
  { unfold s. cbn [ts_sawText]. destruct (said pieces) eqn:Es; [done|]. by rewrite (said_concat pieces Es). }
  cbn [ts_sent ts_finish ts_usage RoStatus RoReason RoUsage]. rewrite Hs, reply_text with
    (finish := responses_finish reason) (tokens := completion_of u); [by rewrite concat_non_empty|].
  cbn [drain ChErr ChDelta ChFinishReason ChUsage dr_deltas dr_finish dr_tokens String.eqb].
  change (responsesFinishReason "completed" reason) with (responses_finish reason). rewrite responses_finish_some.
  by destruct (response_usage u Hu) as [[-> ->]| ->].
Qed.

Lemma responses_whole text reason u e :
  decode_first (marshal (whole_doc Responses text reason u)) = Some (whole_doc Responses text reason u) → counts_ok u →
  reply (parseOpenAIResponsesNonStream decode_first {| body_text := marshal (whole_doc Responses text reason u); body_err := e |}) =
  expected text (responses_finish reason) (completion_of u).
Proof.
  intros H Hu. unfold parseOpenAIResponsesNonStream, Decode. cbn [body_text body_err]. rewrite H. cbn [whole_doc].
  rewrite read_response_doc by done. rewrite response_text. cbn [RoStatus RoReason RoUsage]. cbv zeta.
  change (responsesFinishReason "completed" reason) with (responses_finish reason). rewrite responses_finish_some, orb_true_r.
  unfold reply, drain_all, channel_tokens, expected.
  cbn [app drain delta_chunk ChErr ChDelta ChFinishReason ChUsage dr_deltas dr_finish dr_tokens].
  rewrite responses_finish_some.
  destruct (response_usage u Hu) as [[-> ->]| ->];
    cbn [usage_chunks drain usage_chunk ChErr ChDelta ChFinishReason ChUsage dr_deltas dr_finish dr_tokens String.eqb];
    destruct (String.eqb_spec text "") as [->|]; cbn [app concat_strings]; rewrite ?string_app_nil; done.
Qed.

End served.

Definition with_stream (stream : bool) (req : ChatRequest) : ChatRequest := {|
  AdModel := AdModel req; AdMessages := AdMessages req; AdStream := stream; AdTemperature := AdTemperature req;
  AdTopP := AdTopP req; AdMaxTokens := AdMaxTokens req |}.

(** A provider that answers any request with one body. *)
Definition answers (b : Body) (n : nat) (a : Adapter) (url : string) (payload : json) (sse : bool) : no_reply + HTTPReply :=
  inr {| ReplyStatus := 200; ReplyBody := b |}.

(** The reason to finish as the gateway names it. *)
Definition finish_of (p : protocol) (reason : string) : string :=
  match p with
  | Completions => if String.eqb reason "" then "stop" else reason
  | Responses => responses_finish reason
  | Gemini => gemini_finish reason
  end.

(** C13: a stream and a whole answer are the same to the gateway.  For a channel
    of each of the three protocols, whatever pieces a provider cuts its text
    into, whatever the reason to finish and the counts of tokens, and with
    either end of line: the adapter that asked for a stream and the one that
    asked for the whole answer make the gateway gather the same text, which is
    the pieces together, the same reason to finish, and charge the same number
    of tokens. *)
Theorem streamed_as_whole (decode decode_first : string → option json) (marshal : json → string) url_path float_text a model req
    pieces reason u crlf :
  let p := protocol_of url_path a in
  let whole := whole_doc p (concat_strings pieces) reason u in
  Forall (λ d, encoded decode marshal d.2) (stream_docs p pieces reason u) →
  decode_first (marshal whole) = Some whole → counts_ok u →
  ∃ streamed plain,
    adapter_chat_of decode decode_first url_path float_text
      (answers {| body_text := render crlf (stream_items marshal p pieces reason u); body_err := None |})
      a model (with_stream true req) = inr streamed ∧
    adapter_chat_of decode decode_first url_path float_text
      (answers {| body_text := marshal whole; body_err := None |}) a model (with_stream false req) = inr plain ∧
    reply streamed = reply plain ∧ (reply plain).1 = (concat_strings pieces, finish_of p reason) ∧
    (streamChannel streamed).2 = (collectChannel plain).2.
Proof.
  cbv zeta. intros Hs Hw Hu. unfold adapter_chat_of, protocol_of in *.
  assert (∀ c1 c2 text finish n, reply c1 = expected text finish n → reply c2 = expected text finish n →
    reply c1 = reply c2 ∧ (reply c2).1 = (text, finish) ∧ (streamChannel c1).2 = (collectChannel c2).2) as Hr.
  { intros c1 c2 text finish n H1 H2. split_and!; [by rewrite H1|by rewrite H2|].
    change ((streamChannel c1).2) with ((reply c1).2). change ((collectChannel c2).2) with ((reply c2).2). by rewrite H1, H2. }
  destruct (String.eqb (AdType a) TypeOpenAI); [destruct (EndpointResponses_ (endpointKind url_path a))|];
    eexists _, _; (split; [reflexivity|]); (split; [reflexivity|]); cbn [with_stream AdStream finish_of].
  - eapply Hr; [by apply responses_stream|by apply responses_whole].
  - eapply Hr; [by apply completions_stream|by apply completions_whole].
  - eapply Hr; [by apply gemini_stream|by apply gemini_whole].
Qed.

(** ** Witness *)

(** A writer of documents, and a reader of those it has written. *)
Fixpoint toy_json (j : json) : string :=
  match j with
  | JNull => "null"
  | JBool b => if b then "true" else "false"
  | JNum t => t
  | JStr s => quoted s
  | JArr l => "[" +:+ Join (map toy_json l) "," +:+ "]"
  | JObj m => "{" +:+ Join (map (λ p : string * json, quoted p.1 +:+ ":" +:+ toy_json p.2) m) "," +:+ "}"
  end.
Definition toy_decode (docs : list json) (t : string) : option json := List.find (λ j, String.eqb (toy_json j) t) docs.

Definition sample_adapter : Adapter :=
  {| AdType := "openai"; AdBaseURL := "https://relay.example/v1/responses"; AdAPIKey := "k"; AdTimeoutS := 0; AdExtra := "" |}.
Definition sample_pieces : list string := ["Hel"; ""; "lo"].

Lemma streamed_as_whole_witness :
  let docs := map snd (stream_docs Responses sample_pieces "max_tokens" (3, 2, 5)) in
  let whole := whole_doc Responses "Hello" "max_tokens" (3, 2, 5) in
  ∃ streamed plain,
    adapter_chat_of (toy_decode docs) (toy_decode [whole]) (λ _, Some "/v1/responses") (λ _, "0")
      (answers {| body_text := render true (stream_items toy_json Responses sample_pieces "max_tokens" (3, 2, 5)); body_err := None |})
      sample_adapter "m" (with_stream true {| AdModel := ""; AdMessages := []; AdStream := true; AdTemperature := 0; AdTopP := 0; AdMaxTokens := 0 |}) = inr streamed ∧
    reply streamed = reply plain ∧ (reply plain).1 = ("Hello", "length").
Proof.
  cbv zeta.
  destruct (streamed_as_whole (toy_decode (map snd (stream_docs Responses sample_pieces "max_tokens" (3, 2, 5))))
    (toy_decode [whole_doc Responses "Hello" "max_tokens" (3, 2, 5)]) toy_json (λ _, Some "/v1/responses") (λ _, "0") sample_adapter "m"
    {| AdModel := ""; AdMessages := []; AdStream := true; AdTemperature := 0; AdTopP := 0; AdMaxTokens := 0 |}
    sample_pieces "max_tokens" (3, 2, 5) true) as (c1 & c2 & H1 & _ & H2 & H3 & _).
  - repeat constructor; try (by vm_compute); eexists; reflexivity.
  - by vm_compute.
  - split_and!; by vm_compute.
  - by exists c1, c2.
Defined.
