(* ===== verification/Links.v ===== *)
(** * Signed links to images (internal/imageproxy/imageproxy.go)

    An image is served to whoever has a link to it: the link names the task,
    the image, which version of it and until when, and carries a tag of these
    under a secret of the process.  HMAC-SHA256 is a parameter ([mac]: the
    digest, keyed with the secret). *)

From S2P Require Import Prelude GoStrings GoTime Sql Schema System Proc.

#[local] Open Scope Z_scope.

Definition DefaultTTL : Z := 24 * hour.

Definition ResourceOriginal : string := "original".
Definition ResourceThumb : string := "thumb".
Definition ResourceReference : string := "reference".
Definition ResourceReferenceThumb : string := "reference_thumb".

Definition NormalizeResource (resource : string) : string :=
  if String.eqb resource ResourceThumb then ResourceThumb
  else if String.eqb resource ResourceReference then ResourceReference
  else if String.eqb resource ResourceReferenceThumb then ResourceReferenceThumb
  else ResourceOriginal.

Definition resourcePath (resource : string) : string :=
  let r := NormalizeResource resource in
  if String.eqb r ResourceThumb then "/p/thumb"
  else if String.eqb r ResourceReference then "/p/ref"
  else if String.eqb r ResourceReferenceThumb then "/p/ref-thumb"
  else "/p/img".

(** What is signed. *)
Definition signed_text (taskID : string) (idx : Z) (resource : string) (expMs : Z) : string :=
  taskID +:+ "|" +:+ itoa idx +:+ "|" +:+ NormalizeResource resource +:+ "|" +:+ itoa expMs.

Definition UnixMilli (t : Z) : Z := t / 1000000.

Section links.
Context (mac : string → list ascii).

Definition computeSig (taskID : string) (idx : Z) (resource : string) (expMs : Z) : string :=
  string_take 24 (hex_encode (mac (signed_text taskID idx resource expMs))).

Definition url_until (taskID : string) (idx : Z) (resource : string) (expMs : Z) : string :=
  resourcePath resource +:+ "/" +:+ taskID +:+ "/" +:+ itoa idx +:+ "?exp=" +:+ itoa expMs +:+ "&sig=" +:+
  computeSig taskID idx resource expMs.

Definition expiry (ttl now : Z) : Z := UnixMilli (now + if ttl <=? 0 then DefaultTTL else ttl).

Definition BuildURL {R} (taskID : string) (idx : Z) (resource : string) (ttl : Z) : proc (system R) string :=
  now <~ one Now ;;
  Done (url_until taskID idx resource (expiry ttl match now with Ok t => t | Err _ => 0 end)).

Definition Verify (taskID : string) (idx : Z) (resource : string) (expMs : Z) (sig : string) (now : Z) : bool :=
  if expMs <? UnixMilli now then false else String.eqb sig (computeSig taskID idx resource expMs).
End links.

(** ** A tag vouches for one image *)

Lemma itoa_no_bar z : "|"%char ∉ bytes (itoa z).
Proof. by apply itoa_without. Qed.

Lemma resource_no_bar r : "|"%char ∉ bytes (NormalizeResource r).
Proof. unfold NormalizeResource. repeat case_match; cbn; set_solver. Qed.

Lemma signed_text_inj t i r e t' i' r' e' :
  signed_text t i r e = signed_text t' i' r' e' →
  t = t' ∧ i = i' ∧ NormalizeResource r = NormalizeResource r' ∧ e = e'.
Proof.
  unfold signed_text. intros E%(f_equal bytes). rewrite !bytes_app in E. change (bytes "|") with ["|"%char] in E.
  rewrite !(assoc_L (++)) in E. rewrite <-!(assoc_L (++)) in E. cbn [app] in E.
  replace (bytes t ++ "|"%char :: bytes (itoa i) ++ "|"%char :: bytes (NormalizeResource r) ++ "|"%char :: bytes (itoa e))
    with ((bytes t ++ "|"%char :: bytes (itoa i) ++ "|"%char :: bytes (NormalizeResource r)) ++ "|"%char :: bytes (itoa e)) in E
    by (by rewrite <-!app_assoc; cbn; rewrite <-!app_assoc).
  replace (bytes t' ++ "|"%char :: bytes (itoa i') ++ "|"%char :: bytes (NormalizeResource r') ++ "|"%char :: bytes (itoa e'))
    with ((bytes t' ++ "|"%char :: bytes (itoa i') ++ "|"%char :: bytes (NormalizeResource r')) ++ "|"%char :: bytes (itoa e')) in E
    by (by rewrite <-!app_assoc; cbn; rewrite <-!app_assoc).
  apply sep_last in E as [E He]; [|apply itoa_no_bar..].
  change (bytes t ++ "|"%char :: bytes (itoa i) ++ "|"%char :: bytes (NormalizeResource r))
    with (bytes t ++ ("|"%char :: bytes (itoa i)) ++ "|"%char :: bytes (NormalizeResource r)) in E.
  change (bytes t' ++ "|"%char :: bytes (itoa i') ++ "|"%char :: bytes (NormalizeResource r'))
    with (bytes t' ++ ("|"%char :: bytes (itoa i')) ++ "|"%char :: bytes (NormalizeResource r')) in E.
  rewrite !app_assoc in E. apply sep_last in E as [E Hr]; [|apply resource_no_bar..].
  apply sep_last in E as [Et Hi]; [|apply itoa_no_bar..].
  apply bytes_inj in Et, Hr, Hi, He. unfold itoa in Hi, He. apply (inj pretty) in Hi, He. done.
Qed.

Section verify.
Context (mac : string → list ascii).

(** A tag vouches for one version of one image until one instant.  The tag
    of a link opens what it was made for as long as the link lasts; and for
    anything else, another task (whatever its name), another image, another
    version, another expiry, even a later one, it is accepted only if two
    different texts have the same tag, the first twelve bytes of their
    digests. *)
Theorem tag_vouches_for_one_image t i r e t' i' r' e' now :
  Verify mac t' i' r' e' (computeSig mac t i r e) now = true ↔
  UnixMilli now ≤ e' ∧
  ((t', i', NormalizeResource r', e') = (t, i, NormalizeResource r, e) ∨
   signed_text t i r e ≠ signed_text t' i' r' e' ∧ computeSig mac t i r e = computeSig mac t' i' r' e').
Proof.
  unfold Verify. destruct (Z.ltb_spec e' (UnixMilli now)); [split; [done|lia]|]. rewrite String.eqb_eq. split.
  - intros E. split; [done|]. destruct (decide (signed_text t i r e = signed_text t' i' r' e')) as [Es|]; [|by right].
    left. apply signed_text_inj in Es as (-> & -> & -> & ->). done.
  - intros [_ [[= -> -> Hr ->]|[_ E]]]; [|done]. unfold computeSig, signed_text. by rewrite Hr.
Qed.

(** A link says what was signed. *)
Lemma BuildURL_opens {R} t i r ttl (w : world (system R)) :
  ∃ exp, (exec_proc (BuildURL mac t i r ttl) w).1 = url_until mac t i r exp.
Proof. unfold BuildURL. rewrite exec_pbind_one. eexists. reflexivity. Qed.
End verify.
