(* ===== verification/Images.v ===== *)
(** * Image requests (internal/gateway/images.go, image_channel.go)

    The handlers of POST /v1/images/generations and /v1/images/edits, the one
    a chat request for an image model is sent to, and GET /v1/images/tasks/:id,
    as processes.  An image is drawn by a channel when one is configured for
    the model, and by the account pool through the runner otherwise.  What the
    networks answer is a parameter: that of the pool as in Runner, that of the
    channels by route and call.  The runner and the queries are always there,
    as main.go injects them. *)

From S2P Require Import Prelude GoStrings GoTime Float Sql Schema Crypto Ledger Billing Settings Models Users System Lock Proc ProxyPool Account Pricing ApiKey Channels Tasks Archive RateLimit Caches Upstream Refs Scheduler Runner Json Delta Gateway Chat Prompts Inputs ImageChannel Links.
From Stdlib Require Import QArith.

#[local] Open Scope Z_scope.

Record ImageGenRequest := {
  GenModel : string;
  GenPrompt : string;
  GenN : Z;
  GenSize : string;
  GenFormat : string;
  GenReferences : list string
}.

(** An uploader of references, and the archive uploader it may also be. *)
Record ReferenceUploader := {
  UploadToChannel : Uploader;
  as_archive : option Uploader
}.

Record ImagesHandler := {
  Base_ : Handler;
  IRunner : Runner;
  IStores : Stores;
  ISettings : option cache;
  SaveTaskReferences : option (string → list SourceImage → result unit);   (* None: no store *)
  referenceUploader : option ReferenceUploader;
  referenceArchiveUploader : option Uploader;
  NewReferenceUploader : SanyueImgHubConfig → Uploader
}.

(** The request: its origin, and what the networks answer. *)
Record ImageCall := {
  ImClientIP : string;
  ImUserAgent : string;
  im_net : nat → nat → nat → ImageUpstream;
  im_turns : nat → nat → list bool;
  im_arrival : nat → list nat;
  ImageGenerate : nat → nat → Adapter → string → ImageRequest → result ImageResult
}.

Definition ifEmpty (s fallback : string) : string := if String.eqb s "" then fallback else s.

Definition extractLastUserPrompt (msgs : list ChatMessage) : string :=
  match List.find (λ m, String.eqb (Role m) "user" && negb (String.eqb (TrimSpace (Content m)) "")) (rev msgs) with
  | Some m => Content m
  | None => ""
  end.

(** [image.GenerateTaskID] *)
Definition task_id (id : string) : string :=
  "img_" +:+ string_take 24 (of_bytes (List.filter (λ c, negb (Ascii.eqb c "-")) (bytes id))).

Definition imageResponseAccounting (m : Model) (data : list ImageGenData) (ratio : Q) (size : string) : Z * Z :=
  let actualN := Z.of_nat (length data) in
  if actualN <=? 0 then (0, 0) else (actualN, ComputeImageCost (Some m) actualN ratio size).

(** The HTTP status of a failure of the runner. *)
Definition failure_status (code : string) : Z :=
  if String.eqb code ErrNoAccount || String.eqb code ErrRateLimited then 503 else 502.

Fixpoint source_images (i : Z) (refs : list ReferenceImage) : list SourceImage :=
  match refs with
  | [] => []
  | ref :: refs =>
      {| SrcIndex := i; SrcData := RefData ref; SrcFileName := RefFileName ref; SrcContentType := RefContentType ref |}
      :: source_images (i + 1) refs
  end.
Definition referenceSourceImages : list ReferenceImage → list SourceImage := source_images 0.

Definition markdown (data : list ImageGenData) : string :=
  Join (map (λ d, "![generated](" +:+ ImgURL d +:+ ")") data) (newline +:+ newline).

Section images.
Context (ih : ImagesHandler).
Context (loc : location) (cfg : SchedulerConfig) (rt : RuntimeParams).
Context {AEAD : Type} (Open : AEAD → list ascii → list ascii → result (list ascii))
        (NonceSize Overhead : nat) (cipher : AEAD).
Context (json_column : string → option string) (marshal : list string → string) (unmarshal_list : string → option (list string)).
Context (unmarshal : string → result rawConfig) (unmarshal_bool : string → option bool) (http_url : string → bool).
Context (url_path : string → option string) (mac : string → list ascii).
Context (DecodeConfig : string → option (Z * Z * string)) (heic : string → result string) (http_get : string → result HTTPResponse).
Context (decode : string → option json) (num : string → Q).
Context {R : Type} `{!RedisServer R, !RedisHashes R} (uuid : nat → string).

Abbreviation process := (proc (system R)).
Abbreviation h := (Base_ ih).

Definition currentStorageMode : string := storageMode (ISettings ih).

Definition GenerateTaskID : process string :=
  id <~ one (NewString uuid) ;;
  Done (task_id match id with Ok s => s | Err _ => "" end).

(** [detachedTaskContext]: its deadline. *)
Definition detached (timeout : Z) : process Z :=
  now <~ one Now ;;
  Done (match now with Ok t => t | Err _ => 0 end + timeout).

(** ** The images of an answer *)

Fixpoint image_data (ixs : list nat) (taskID mode : string) (urls thumbs fileIDs : list string) : process (list ImageGenData) :=
  match ixs with
  | [] => Done []
  | i :: ixs =>
      let cloud := String.eqb mode StorageModeCloud in
      url <~ (if cloud then Done (TrimSpace (default "" (urls !! i)))
              else BuildURL mac taskID (Z.of_nat i) ResourceOriginal DefaultTTL) ;;
      thumb <~ (if cloud then
                  let t := TrimSpace (default "" (thumbs !! i)) in Done (if String.eqb t "" then url else t)
                else BuildURL mac taskID (Z.of_nat i) ResourceThumb DefaultTTL) ;;
      rest <~ image_data ixs taskID mode urls thumbs fileIDs ;;
      Done ({| ImgURL := url; ImgThumbURL := thumb; ImgFileID := TrimPrefix (default "" (fileIDs !! i)) "sed:" |} :: rest)
  end.

Definition buildAPIImageData (taskID mode : string) (urls thumbs fileIDs : list string) : process (list ImageGenData) :=
  let count := Nat.max (Nat.max (length urls) (length thumbs)) (length fileIDs) in
  image_data (seq 0 count) taskID (NormalizeStorageMode mode) urls thumbs fileIDs.

(** ** References that are kept *)

Definition configured_uploader (new : SanyueImgHubConfig → Uploader) : result Uploader :=
  match ISettings ih with
  | None => Err (EMsg "storage.cloud_config not configured")
  | Some c =>
      _ <-? ValidateStorageSnapshot unmarshal unmarshal_bool http_url
              (<[KeyStorageImageMode := StorageModeCloud]> {[ KeyStorageCloudConfig := CloudConfig c ]}) ;;
      cfg <-? ParseSanyueImgHubConfig unmarshal unmarshal_bool (CloudConfig c) ;;
      Ok (new cfg)
  end.

Definition cloudReferenceArchiveUploader : result Uploader :=
  match referenceArchiveUploader ih, referenceUploader ih with
  | Some u, _ => Ok u
  | None, Some {| as_archive := Some u |} => Ok u
  | None, _ => configured_uploader (NewUploader (IStores ih))
  end.

Definition cloudReferenceUploadChannels : list string := cloudUploadChannels (ISettings ih) unmarshal unmarshal_bool.

Definition uploadCloudReferenceImage (u : Uploader) (src : SourceImage) : result string :=
  uploadCloudImage u src cloudReferenceUploadChannels (EMsg "cloud reference upload failed").

Definition buildCloudReferenceThumbSource (taskID : string) (src : SourceImage) : result SourceImage :=
  buildCloudThumbSource (IStores ih) ("tmp_" +:+ taskID +:+ "_ref_" +:+ itoa (SrcIndex src)) src.

Fixpoint upload_references (u : Uploader) (taskID : string) (refs : list SourceImage) : result (list string * list string) :=
  match refs with
  | [] => Ok ([], [])
  | src :: refs =>
      url <-? uploadCloudReferenceImage u (with_name (taskID +:+ "_ref_" +:+ itoa (SrcIndex src)) src) ;;
      let thumb := match buildCloudReferenceThumbSource taskID src with
                   | Err _ => ""
                   | Ok thumb => match uploadCloudReferenceImage u thumb with Ok url => url | Err _ => "" end
                   end in
      rest <-? upload_references u taskID refs ;;
      Ok (url :: rest.1, thumb :: rest.2)
  end.

Definition archiveCloudTaskReferences (taskID : string) (refs : list SourceImage) : process (result unit) :=
  match cloudReferenceArchiveUploader with
  | Err e => Done (Err e)
  | Ok u =>
      match refs with
      | [] => Done (Ok tt)
      | _ =>
          match upload_references u taskID refs with
          | Err e => Done (Err e)
          | Ok (urls, thumbs) => one (on_db (UpdateReferences json_column marshal taskID (Some urls) (Some thumbs)))
          end
      end
  end.

Definition archiveTaskReferences (taskID mode : string) (refs : list ReferenceImage) : process (result unit) :=
  if String.eqb taskID "" || match refs with [] => true | _ => false end then Done (Ok tt) else
  if String.eqb (NormalizeStorageMode mode) StorageModeCloud
  then archiveCloudTaskReferences taskID (referenceSourceImages refs)
  else match SaveTaskReferences ih with
       | None => Done (Ok tt)
       | Some save => Done (save taskID (referenceSourceImages refs))
       end.

(** ** The hold *)

(** [if cost > 0 { PreDeduct .. }] *)
Definition hold_if (b : hold) (rec : Log) (k : process answer) : process answer :=
  if 0 <? h_amount b then prepay b rec k else k.

Definition refund_if (b : hold) (code : string) (rec : Log) : process Log :=
  if h_amount b =? 0 then Done (failed code rec) else refund b code rec.

(** The refund, and an answer whose code need not be that of the record. *)
Definition undo (b : hold) (logged : string) (status : Z) (code : string) (rec : Log) : process answer :=
  rec <~ refund_if b logged rec ;;
  Done (Refused status code, rec).

(** The task is failed in between. *)
Definition undo_task (b : hold) (taskID code : string) (rec : Log) : process answer :=
  rec <~ refund_if b code rec ;;
  _ <~ one (at_now (MarkFailed taskID code)) ;;
  Done (Refused 502 code, rec).

Definition new_task (taskID : string) (ak : APIKey) (keyID mid : N) (prompt : string) (n : Z) (size mode : string)
    (refs : list ReferenceImage) (cost : Z) : Task := {|
  TaskID := taskID; TaskUserID := KeyUserID ak; TaskKeyID := keyID; TaskModelID := mid; TaskAccountID := 0;
  TaskPrompt := prompt; TaskN := n; TaskSize := size; TaskUpscale := ""; TaskStorageMode := mode;
  TaskStatus := StatusDispatched; ConversationID := ""; FileIDs := None; ResultURLs := None; ThumbURLs := None;
  ReferenceCount := Z.of_nat (length refs); ReferenceURLs := None; ReferenceThumbURLs := None; TaskError := "";
  EstimatedCredit := cost; TaskCreditCost := 0; TaskCreatedAt := zero_time; StartedAt := None; FinishedAt := None;
  TaskDeletedAt := None |}.

Context (c : ImageCall).

(** The row of the task and its references, then [k]. *)
Definition with_task (b : hold) (task : Task) (refs : list ReferenceImage) (rec : Log) (k : process answer) : process answer :=
  created <~ one (at_now (Create json_column task)) ;;
  match created with
  | Err _ => undo b "billing_error" 500 "internal_error" rec
  | Ok _ =>
      kept <~ archiveTaskReferences (TaskID task) (TaskStorageMode task) refs ;;
      match kept with
      | Err _ => undo_task b (TaskID task) ErrArchive rec
      | Ok _ => k
      end
  end.

(** The settlement and what follows it; [settled]: its condition. *)
Definition settle_image (b : hold) (settled : bool) (cost : Z) : process unit :=
  _ <~ (if settled then one (on_db (Settle (h_user b) (h_key b) (h_amount b) cost (h_ref b) (h_what b +:+ " settle")))
        else Done (Ok tt)) ;;
  _ <~ one (at_now (TouchUsage (h_key b) (ImClientIP c) cost)) ;;
  Done tt.

(** ** Channels *)

(** The code of a refusal, or the request and the routes that can serve it. *)
Definition buildChannelImageRequest (routes : list Route) (req : ImageGenRequest) (refs : list ReferenceImage) :
    string + ImageRequest * list Route :=
  let ir references := {| ImModel := GenModel req; ImPrompt := GenPrompt req; ImN := GenN req; ImSize := GenSize req;
                          ImFormat := GenFormat req; ImReferences := references |} in
  match refs with
  | [] => inr (ir [], routes)
  | _ =>
      match filterReferenceCapableImageRoutes url_path routes with
      | [] => inl "image_reference_unsupported"
      | filtered =>
          match (u <-? match referenceUploader ih with
                       | Some u => Ok (UploadToChannel u)
                       | None => configured_uploader (NewReferenceUploader ih)
                       end ;;
                 (fix go (l : list SourceImage) : result (list string) :=
                    match l with
                    | [] => Ok []
                    | src :: l => url <-? u src "" ;; rest <-? go l ;; Ok (url :: rest)
                    end) (referenceSourceImages refs)) with
          | Err _ => inl "image_reference_upload_error"
          | Ok urls => inr (ir urls, filtered)
          end
      end
  end.

Fixpoint mark_failures (failures : list (Route * goerr)) : process unit :=
  match failures with
  | [] => Done tt
  | (r, e) :: failures =>
      _ <~ one (at_now (MarkHealth (RtChannelID r) (RtChannel r) false (Error e))) ;;
      mark_failures failures
  end.

(** The images of a result, archived. *)
Definition archive_channel (taskID : string) (result : ImageResult) : Prelude.result archived :=
  inline <-? decodeChannelInlineImages (B64s result) (Z.of_nat (length (URLs result))) ;;
  ArchiveExternalImages (IStores ih) (ISettings ih) unmarshal unmarshal_bool http_url taskID (URLs result) inline.

(** Once the row of the task stands. *)
Definition draw_channel (b : hold) (taskID : string) (mid : N) (m : Model) (req : ImageGenRequest) (ratio : Q)
    (routes : list Route) (ir : ImageRequest) (rec : Log) : process answer :=
  let '(selected, failures) := pickImageRoute (ImageGenerate c) O routes ir in
  _ <~ mark_failures failures ;;
  match selected with
  | None => undo_task b taskID "upstream_error" rec
  | Some (route, result) =>
      _ <~ one (at_now (MarkHealth (RtChannelID route) (RtChannel route) true "")) ;;
      let actualN := actualCount result in
      if actualN =? 0 then undo_task b taskID "upstream_error" rec else
      let channelRatio := if Qle_bool (ChRatio (RtChannel route)) 0 then 1%Q else ChRatio (RtChannel route) in
      let finalCost := ComputeImageCost (Some m) actualN (fmul ratio channelRatio) (GenSize req) in
      match archive_channel taskID result with
      | Err _ => undo_task b taskID ErrArchive rec
      | Ok a =>
          marked <~ one (at_now (MarkSuccess json_column marshal taskID "" [] (ArURLs a) (ArThumbs a) (ArMode a) finalCost)) ;;
          match marked with
          | Err _ => undo b "billing_error" 500 "internal_error" rec
          | Ok _ =>
              data <~ buildAPIImageData taskID (ArMode a) (ArURLs a) (ArThumbs a) [] ;;
              _ <~ settle_image b (0 <? finalCost) finalCost ;;
              Done (Delivered taskID data, drawn actualN finalCost (with_model mid rec))
          end
      end
  end.

(** [None]: not handled, the account pool is to serve the request. *)
Definition dispatchImageToChannel (keyID : N) (ak : APIKey) (mid : N) (m : Model) (req : ImageGenRequest)
    (refs : list ReferenceImage) (rec : Log) (ratio : Q) : process (option answer) :=
  if negb (ChannelsMounted h) then Done None else
  r <~ one (on_db (Resolve Open NonceSize Overhead cipher (Slug m) ModalityImage)) ;;
  match r with
  | Err _ => Done None
  | Ok [] => Done None
  | Ok routes =>
      match buildChannelImageRequest routes req refs with
      | inl code => Done (Some (refuse 502 code rec))
      | inr (ir, routes) =>
          refID <~ one (NewString uuid) ;;
          let refID := match refID with Ok s => s | Err _ => "" end in
          let rec := with_request refID rec in
          let cost := ComputeImageCost (Some m) (GenN req) ratio (GenSize req) in
          let b := {| h_what := "image"; h_user := KeyUserID ak; h_key := keyID; h_amount := cost; h_ref := refID |} in
          a <~ hold_if b rec
            (taskID <~ GenerateTaskID ;;
             with_task b (new_task taskID ak keyID mid (GenPrompt req) (GenN req) (GenSize req) currentStorageMode refs cost)
               refs rec (draw_channel b taskID mid m req ratio routes ir rec)) ;;
          Done (Some a)
      end
  end.

(** ** The account pool *)

Definition run_options (taskID : string) (m : Model) (prompt size : string) (n maxAttempts : Z) (refs : list ReferenceImage) :
    RunOptions := {|
  OptTaskID := taskID; OptUpstreamModel := UpstreamModelSlug m; OptPrompt := upstream_prompt prompt size; OptSize := size;
  OptN := n; OptMaxAttempts := maxAttempts; PerAttemptTimeout := 0; PollMaxWait := 0; OptReferences := refs |}.

Definition run_images (deadline : Z) (opt : RunOptions) : process RunResult :=
  Run (IRunner ih) (IStores ih) (ISettings ih) json_column marshal unmarshal unmarshal_bool http_url loc cfg rt Open NonceSize
    Overhead cipher decode num uuid (im_net c) deadline (im_turns c) (im_arrival c) opt.

(** Once the row of the task stands. *)
Definition draw_pool (b : hold) (taskID : string) (m : Model) (prompt size : string) (n maxAttempts : Z)
    (refs : list ReferenceImage) (ratio : Q) (deadline : Z) (rec : Log) : process answer :=
  res <~ run_images deadline (run_options taskID m prompt size n maxAttempts refs) ;;
  let rec := with_account (ResAccountID res) rec in
  let code := ifEmpty (ResErrorCode res) "upstream_error" in
  if negb (String.eqb (ResStatus res) TaskSuccess) then undo b code (failure_status (ResErrorCode res)) code rec else
  data <~ buildAPIImageData taskID (ResStorageMode res) (ResSignedURLs res) (ResThumbURLs res) (ResFileIDs res) ;;
  let '(actualN, actualCost) := imageResponseAccounting m data ratio size in
  if actualN =? 0 then undo_task b taskID "upstream_error" rec else
  _ <~ settle_image b (0 <? h_amount b) actualCost ;;
  _ <~ one (on_db (UpdateCost taskID actualCost)) ;;
  Done (Delivered taskID data, drawn actualN actualCost rec).

(** With references the images are drawn once only. *)
Definition serve_images (what : string) (timeout : Z) (keyID : N) (ak : APIKey) (mid : N) (m : Model) (prompt size : string)
    (n : Z) (refs : list ReferenceImage) (refID : string) (ratio : Q) (rec : Log) : process answer :=
  let '(n, size) := normalizeLocalImageRequestByModel m n size in
  let cost := ComputeImageCost (Some m) n ratio size in
  deadline <~ detached timeout ;;
  let b := {| h_what := what; h_user := KeyUserID ak; h_key := keyID; h_amount := cost; h_ref := refID |} in
  hold_if b rec
    (taskID <~ GenerateTaskID ;;
     with_task b (new_task taskID ak keyID mid prompt n size currentStorageMode refs cost) refs rec
       (draw_pool b taskID m prompt size n (match refs with [] => 2 | _ => 1 end) refs ratio deadline rec)).

(** ** The two endpoints *)

(** The model a request names, if its key may use it. *)
Definition image_model_of (ak : APIKey) (slug : string) (rec : Log) (k : N → Model → process answer) : process answer :=
  if negb (ModelAllowed unmarshal_list ak slug) then Done (refuse 403 "model_not_allowed" rec) else
  r <~ BySlug slug ;;
  match r.1 with
  | Ok (mid, m) =>
      if negb (ModelEnabled m) then Done (refuse 400 "model_not_found" rec)
      else if negb (String.eqb (ModelType m) TypeImage) then Done (refuse 400 "model_type_mismatch" rec)
      else k mid m
  | Err _ => Done (refuse 400 "model_not_found" rec)
  end.

(** The ratio of the caller, below the limit on requests. *)
Definition image_ratio (keyID : N) (ak : APIKey) (rec : Log) (k : Q → process answer) : process answer :=
  lim <~ limits h ak ;;
  let '(ratio, rpmCap, _) := lim : Q * Z * Z in
  over <~ over_limit h (AllowRPM keyID rpmCap) ;;
  if (over : bool) then Done (refuse 429 "rate_limit_rpm" rec) else k ratio.

Definition generation_body (keyID : N) (ak : APIKey) (req : ImageGenRequest) (refID : string) (rec : Log) : process answer :=
  image_model_of ak (GenModel req) rec (λ mid m,
  let rec := with_model mid rec in
  let n := normalizeImageCountByModel m (GenN req) in
  image_ratio keyID ak rec (λ ratio,
  match decodeReferenceInputs DecodeConfig heic http_get (GenReferences req) with
  | Err _ => Done (Refused 400 "invalid_reference_image", failed "invalid_request_error" rec)
  | Ok refs =>
      let '(channelN, channelSize) := normalizeImageRequestByModel m n (GenSize req) in
      let channelReq := {| GenModel := GenModel req; GenPrompt := GenPrompt req; GenN := channelN; GenSize := channelSize;
                           GenFormat := GenFormat req; GenReferences := GenReferences req |} in
      handled <~ dispatchImageToChannel keyID ak mid m channelReq refs rec ratio ;;
      match handled with
      | Some a => Done a
      | None => serve_images "image" (7 * minute) keyID ak mid m (GenPrompt req) (GenSize req) n refs refID ratio rec
      end
  end)).

(** The record of an image request. *)
Definition image_log (keyID : N) (ak : APIKey) (refID : string) : Log := {|
  LogUserID := KeyUserID ak; LogKeyID := keyID; LogModelID := 0; LogAccountID := 0; LogRequestID := refID; LogType := "image";
  InputTokens := 0; OutputTokens := 0; CacheReadTokens := 0; CacheWriteTokens := 0; ImageCount := 0; CreditCost := 0;
  DurationMs := 0; LogStatus := ""; ErrorCode := ""; LogIP := ImClientIP c; LogUA := ImUserAgent c;
  LogCreatedAt := zero_time |}.

(** The reference of a request, and its record, which is closed in the end. *)
Definition recorded_as_image (startAt : result Z) (keyID : N) (ak : APIKey) (body : string → Log → process answer) :
    process (outcome * option Log) :=
  refID <~ one (NewString uuid) ;;
  let refID := match refID with Ok s => s | Err _ => "" end in
  a <~ body refID (image_log keyID ak refID) ;;
  now <~ one Now ;;
  let elapsed := match startAt, now with Ok s, Ok t => Z.quot (t - s) 1000000 | _, _ => 0 end in
  Done (a.1, Some (closed elapsed a.2)).

Definition ImageGenerations (key : option (N * APIKey)) (bound : option ImageGenRequest) : process (outcome * option Log) :=
  startAt <~ one Now ;;
  match key, bound with
  | None, _ => Done (Refused 401 "missing_api_key", None)
  | Some _, None => Done (Refused 400 "invalid_request_error", None)
  | Some (keyID, ak), Some req =>
      if String.eqb (TrimSpace (GenPrompt req)) "" then Done (Refused 400 "invalid_request_error", None) else
      let req := {| GenModel := ifEmpty (GenModel req) "gpt-image-2"; GenPrompt := GenPrompt req; GenN := GenN req;
                    GenSize := GenSize req; GenFormat := GenFormat req; GenReferences := GenReferences req |} in
      recorded_as_image startAt keyID ak (generation_body keyID ak req)
  end.

(** The fields of an edit. *)
Record EditForm := {
  FormPrompt : string;
  FormModel : string;
  FormN : string;
  FormSize : string;
  FormFiles : list (string * list FileHeader)
}.

Definition edit_body (keyID : N) (ak : APIKey) (model prompt size : string) (n : Z) (refs : list ReferenceImage)
    (refID : string) (rec : Log) : process answer :=
  image_model_of ak model rec (λ mid m,
  let rec := with_model mid rec in
  let n := normalizeImageCountByModel m n in
  image_ratio keyID ak rec (λ ratio,
  let '(channelN, channelSize) := normalizeImageRequestByModel m n size in
  let req := {| GenModel := model; GenPrompt := prompt; GenN := channelN; GenSize := channelSize; GenFormat := "url";
                GenReferences := [] |} in
  handled <~ dispatchImageToChannel keyID ak mid m req refs rec ratio ;;
  match handled with
  | Some a => Done a
  | None => serve_images "image-edit" (8 * minute) keyID ak mid m prompt size n refs refID ratio rec
  end)).

Definition ImageEdits (key : option (N * APIKey)) (form : option EditForm) : process (outcome * option Log) :=
  startAt <~ one Now ;;
  match key, form with
  | None, _ => Done (Refused 401 "missing_api_key", None)
  | Some _, None => Done (Refused 400 "invalid_request_error", None)
  | Some (keyID, ak), Some form =>
      let prompt := TrimSpace (FormPrompt form) in
      if String.eqb prompt "" then Done (Refused 400 "invalid_request_error", None) else
      match edit_references DecodeConfig heic (FormFiles form) with
      | inl code => Done (Refused 400 code, None)
      | inr refs =>
          recorded_as_image startAt keyID ak
            (edit_body keyID ak (ifEmpty (FormModel form) "gpt-image-2") prompt (FormSize form) (edit_count (FormN form)) refs)
      end
  end.

(** ** A chat request for an image model *)

(** Once the hold stands; the row of the task need not be made. *)
Definition chat_image (b : hold) (keyID : N) (ak : APIKey) (mid : N) (m : Model) (prompt size : string) (deadline : Z)
    (rec : Log) : process answer :=
  taskID <~ GenerateTaskID ;;
  _ <~ one (at_now (Create json_column
              (new_task taskID ak keyID mid prompt 1 size currentStorageMode [] (h_amount b)))) ;;
  res <~ run_images deadline (run_options taskID m prompt size 1 2 []) ;;
  let rec := with_account (ResAccountID res) rec in
  let code := ifEmpty (ResErrorCode res) "upstream_error" in
  if negb (String.eqb (ResStatus res) TaskSuccess) then undo b code (failure_status (ResErrorCode res)) code rec else
  _ <~ settle_image b (0 <? h_amount b) (h_amount b) ;;
  _ <~ one (on_db (UpdateCost taskID (h_amount b))) ;;
  _ <~ one Now ;;
  let images := Z.of_nat (length (ResSignedURLs res)) in
  let rec := drawn (if images <=? 0 then 1 else images) (h_amount b) rec in
  data <~ buildAPIImageData taskID (ResStorageMode res) (ResSignedURLs res) (ResThumbURLs res) (ResFileIDs res) ;;
  _ <~ one (NewString uuid) ;;
  Done (Replied [SentWhole (markdown data) "stop" 0], rec).

(** One image, at a size of the handler's own. *)
Definition serve_chat_image (keyID : N) (ak : APIKey) (mid : N) (m : Model) (prompt refID : string) (ratio : Q) (rec : Log) :
    process answer :=
  let size := "1024x1024" in
  let cost := ComputeImageCost (Some m) 1 ratio size in
  deadline <~ detached (7 * minute) ;;
  let b := {| h_what := "chat->image"; h_user := KeyUserID ak; h_key := keyID; h_amount := cost; h_ref := refID |} in
  hold_if b rec (chat_image b keyID ak mid m prompt size deadline rec).

Definition handleChatAsImage (keyID : N) (ak : APIKey) (mid : N) (m : Model) (req : ChatCompletionsRequest) (rec : Log) :
    process answer :=
  let rec := with_type "image" (with_model mid rec) in
  let prompt := extractLastUserPrompt (ReqMessages req) in
  if String.eqb (TrimSpace prompt) "" then Done (refuse 400 "invalid_request_error" rec) else
  refID <~ one (NewString uuid) ;;
  let refID := match refID with Ok s => s | Err _ => "" end in
  image_ratio keyID ak rec (λ ratio, serve_chat_image keyID ak mid m prompt refID ratio rec).

(** ** A task *)

Record TaskReply := {
  RepTask : Task;
  RepMeta : TaskProgressMeta;
  RepFinished : Z;
  RepData : list ImageGenData
}.

Definition nullableUnix (t : option Z) : Z :=
  match t with None => 0 | Some t => if t =? zero_time then 0 else t / second end.

Definition ImageTask (key : option (N * APIKey)) (id : string) : process (Z * string + TaskReply) :=
  match key with
  | None => Done (inl (401, "missing_api_key"))
  | Some (_, ak) =>
      if String.eqb id "" then Done (inl (400, "invalid_request_error")) else
      r <~ one (on_db (Get id)) ;;
      match r with
      | Err e => Done (inl (if errors_Is e Tasks.ErrNotFound then (404, "not_found") else (500, "internal_error")))
      | Ok (_, t) =>
          if negb (N.eqb (TaskUserID t) (KeyUserID ak)) then Done (inl (404, "not_found")) else
          data <~ buildAPIImageData (TaskID t) (TaskStorageMode t) (DecodeResultURLs unmarshal_list t)
                    (DecodeThumbURLs unmarshal_list t) (DecodeFileIDs unmarshal_list t) ;;
          Done (inr {| RepTask := t; RepMeta := BuildTaskProgressMeta unmarshal_list (Some t);
                       RepFinished := nullableUnix (FinishedAt t); RepData := data |})
      end
  end.
End images.
