(* ===== verification/ImageServe.v ===== *)
(** * Serving images (internal/gateway/images_proxy.go, images_proxy_cache.go, internal/image/proxy_url.go)

    Whoever has a link is served the image it names: from a cache in memory,
    from the disk, or from the cloud.  The state joins what the server's
    processes share (System), the disk (ImageStore), the cache, and a record of
    what was sent.  HMAC, the download of an image, [http.DetectContentType]
    and the table of MIME types are parameters. *)

From stdpp Require Import strings.
From S2P Require Import Prelude GoStrings GoTime Sql Archive ImageStore Schema Proc System Tasks Links.

#[local] Open Scope Z_scope.

(** ** The cache *)

Definition defaultImageProxyCacheTTL : Z := 30 * minute.
Definition defaultImageProxyCacheMaxEntries : Z := 64.

Definition errProxyImageNotFound : goerr := Sentinel "proxy image not found".

Record cachedProxyImage := { c_body : string; c_contentType : string; c_expiresAt : Z; c_storedAt : Z }.
Record imageProxyCache := { pc_ttl : Z; pc_maxEntries : Z; pc_items : gmap string cachedProxyImage }.

Definition newImageProxyCache (ttl maxEntries : Z) : imageProxyCache := {|
  pc_ttl := if ttl <=? 0 then defaultImageProxyCacheTTL else ttl;
  pc_maxEntries := if maxEntries <=? 0 then defaultImageProxyCacheMaxEntries else maxEntries;
  pc_items := ∅ |}.

Definition with_items (items : gmap string cachedProxyImage) (c : imageProxyCache) : imageProxyCache :=
  {| pc_ttl := pc_ttl c; pc_maxEntries := pc_maxEntries c; pc_items := items |}.

Definition fresh (now : Z) (e : cachedProxyImage) : bool := now <? c_expiresAt e.

(** Go ranges over a map in any order: of entries stored at one instant,
    any may be the one. *)
Definition oldest (items : gmap string cachedProxyImage) : option (string * Z) :=
  fold_left (λ old e, match old with
                      | Some (_, at_) => if c_storedAt e.2 <? at_ then Some (e.1, c_storedAt e.2) else old
                      | None => Some (e.1, c_storedAt e.2)
                      end) (map_to_list items) None.

Fixpoint evict_oldest (fuel : nat) (maxEntries : Z) (items : gmap string cachedProxyImage) : gmap string cachedProxyImage :=
  match fuel with
  | O => items
  | S fuel =>
      if maxEntries <? Z.of_nat (size items) then
        match oldest items with
        | Some (key, _) => evict_oldest fuel maxEntries (delete key items)
        | None => items
        end
      else items
  end.

Definition evictLocked (now maxEntries : Z) (items : gmap string cachedProxyImage) : gmap string cachedProxyImage :=
  let items := filter (λ e, fresh now e.2 = true) items in evict_oldest (size items) maxEntries items.

(** ** What the processes share *)

(** What a client was sent, for which link, and when the link was checked. *)
Record shown := {
  sh_task : string; sh_idx : Z; sh_resource : string; sh_exp : Z; sh_sig : string; sh_at : Z;
  sh_type : string; sh_disposition : string; sh_body : string
}.

Record site (R : Type) := Site {
  s_sys : system R; s_disk : disk; s_cache : imageProxyCache; s_sent : list shown
}.
Arguments Site {R} _ _ _ _.
Arguments s_sys {R} _.
Arguments s_disk {R} _.
Arguments s_cache {R} _.
Arguments s_sent {R} _.

(** A process on a part of the state. *)
Fixpoint lift {D S A} (on : ∀ B, DB D B → DB S B) (p : proc D A) : proc S A :=
  match p with
  | Done a => Done a
  | Call m k => Call (on _ m) (λ r, lift on (k r))
  end.

Section site.
Context {R : Type}.

Definition on_sys B (m : DB (system R) B) : DB (site R) B := λ w,
  let '(r, w') := m (World (s_sys (w_db w)) (w_faults w)) in
  (r, World (Site (w_db w') (s_disk (w_db w)) (s_cache (w_db w)) (s_sent (w_db w))) (w_faults w')).
Definition on_disk B (m : DB disk B) : DB (site R) B := λ w,
  let '(r, w') := m (World (s_disk (w_db w)) (w_faults w)) in
  (r, World (Site (s_sys (w_db w)) (w_db w') (s_cache (w_db w)) (s_sent (w_db w))) (w_faults w')).

(** Under the mutex of the cache. *)
Definition on_cache {B} (f : imageProxyCache → B * imageProxyCache) : DB (site R) B := λ w,
  let '(b, c) := f (s_cache (w_db w)) in
  (Ok b, World (Site (s_sys (w_db w)) (s_disk (w_db w)) c (s_sent (w_db w))) (w_faults w)).

Definition send (x : shown) : DB (site R) unit := λ w,
  (Ok tt, World (Site (s_sys (w_db w)) (s_disk (w_db w)) (s_cache (w_db w)) (s_sent (w_db w) ++ [x])) (w_faults w)).

Abbreviation process A := (proc (site R) A).

Definition now : process (result Z) := one (on_sys _ Now).

(** [get] *)
Definition cache_get (key : string) : process (result (option (string * string))) :=
  now <~? now ;;
  item <~? one (on_cache (λ c, (pc_items c !! key, c))) ;;
  match item with
  | None => Done (Ok None)
  | Some item =>
      if negb (fresh now item) then
        _ <~? one (on_cache (λ c, (tt, match pc_items c !! key with
                                       | Some current => if negb (fresh now current) then with_items (delete key (pc_items c)) c else c
                                       | None => c
                                       end))) ;;
        Done (Ok None)
      else Done (Ok (Some (c_body item, c_contentType item)))
  end.

(** [set] *)
Definition cache_set (key body contentType : string) : process (result unit) :=
  now <~? now ;;
  one (on_cache (λ c, (tt, with_items (evictLocked now (pc_maxEntries c)
    (<[key := {| c_body := body; c_contentType := contentType; c_expiresAt := now + pc_ttl c; c_storedAt := now |}]> (pc_items c))) c))).

(** ** The handler *)

Context (store : option Local) (mac : string → list ascii).
Context (DetectContentType : string → string) (dir_stat : path → Z * Z).
(** [http.DefaultClient.Do] and the body up to the limit: status, body, header. *)
Context (fetch : string → result (Z * string * string)).
Context (ExtensionsByType : string → list string).
(** [json.Unmarshal] of a column into a list of texts. *)
Context (unmarshal : string → option (list string)).

Definition readLocalProxyImage (task : Task) (idx : Z) (resource : string) : process (result (option (string * string))) :=
  match store with
  | None => Done (Ok None)
  | Some l =>
      let r := Links.NormalizeResource resource in
      lift on_disk
        (if String.eqb r Links.ResourceThumb then ReadThumb l dir_stat (TaskID task) idx
         else if String.eqb r Links.ResourceReference then ReadReference l DetectContentType dir_stat (TaskID task) idx
         else if String.eqb r Links.ResourceReferenceThumb then ReadReferenceThumb l dir_stat (TaskID task) idx
         else ReadOriginal l DetectContentType dir_stat (TaskID task) idx)
  end.

Definition maxCloudBytes : Z := 16 * 1024 * 1024.

(** The addresses of the task, by what is asked for. *)
Definition cloud_urls (task : Task) (resource : string) : list string :=
  let r := Links.NormalizeResource resource in
  if String.eqb r Links.ResourceReference then DecodeReferenceURLs unmarshal task
  else if String.eqb r Links.ResourceOriginal then DecodeResultURLs unmarshal task else [].

Definition readCloudProxyImage (task : Task) (idx : Z) (resource : string) : result (option (string * string)) :=
  if idx <? 0 then Ok None else
  match cloud_urls task resource !! Z.to_nat idx with
  | None => Ok None
  | Some url =>
      let remoteURL := TrimSpace url in
      if String.eqb remoteURL "" then Ok None else
      match fetch remoteURL with
      | Err e => Err e
      | Ok (status, body, header) =>
          if 400 <=? status then Err (EMsg ("fetch cloud image failed: status=" +:+ itoa status))
          else if maxCloudBytes <? Z.of_nat (String.length body) then Err (EMsg "cloud image exceeds max bytes")
          else
            let contentType := TrimSpace header in
            Ok (Some (body, if String.eqb contentType "" && negb (String.eqb body "") then DetectContentType body else contentType))
      end
  end.

Definition cache_key (taskID : string) (idx : Z) (resource : string) : string :=
  taskID +:+ ":" +:+ itoa idx +:+ ":" +:+ Links.NormalizeResource resource.

Definition loadProxyImage (task : Task) (idx : Z) (resource : string) : process (result (string * string)) :=
  let key := cache_key (TaskID task) idx resource in
  hit <~? cache_get key ;;
  match hit with
  | Some found => Done (Ok found)
  | None =>
      found <~? readLocalProxyImage task idx resource ;;
      let found := match found with
                   | None => if String.eqb (NormalizeStorageMode (TaskStorageMode task)) StorageModeCloud
                             then readCloudProxyImage task idx resource else Ok None
                   | some => Ok some
                   end in
      match found with
      | Err e => Done (Err e)
      | Ok None => Done (Err errProxyImageNotFound)
      | Ok (Some (body, contentType)) => _ <~? cache_set key body contentType ;; Done (Ok (body, contentType))
      end
  end.

Definition buildDownloadFileName (taskID : string) (idx : Z) (contentType : string) : string :=
  let mediaType := TrimSpace (default "" (head (Split contentType ";"))) in
  let ext := if String.eqb mediaType "" then "png"
             else match ExtensionsByType mediaType with
                  | e :: _ => TrimPrefix e "."
                  | [] => "png"
                  end in
  taskID +:+ "-" +:+ itoa (idx + 1) +:+ "." +:+ ext.

(** The type and the disposition [writeImageResponse] sends with a body. *)
Definition image_headers (contentType fileName body : string) (download : bool) : string * string :=
  let ct := TrimSpace contentType in
  let ct := if String.eqb ct "" && negb (String.eqb body "") then DetectContentType body else ct in
  let ct := if String.eqb ct "" then "image/png" else ct in
  (ct, if download
       then if String.eqb fileName "" then "attachment"
            else "attachment; filename=" +:+ String (ascii_of_N 34) fileName +:+ String (ascii_of_N 34) ""
       else "inline").

(** The status a request is aborted with, if it is. *)
Definition serveProxyImage (resource taskID idxStr expStr sig : string) (dl download : string) : process (option Z) :=
  if String.eqb taskID "" || String.eqb idxStr "" || String.eqb expStr "" || String.eqb sig "" then Done (Some 400) else
  match Atoi idxStr with
  | None => Done (Some 400)
  | Some idx =>
      if (idx <? 0) || (64 <? idx) then Done (Some 400) else
      match Atoi expStr with
      | None => Done (Some 400)
      | Some expMs =>
          let resource := Links.NormalizeResource resource in
          at_ <~ now ;;
          match at_ with
          | Err _ => Done (Some 403)
          | Ok at_ =>
              if negb (Links.Verify mac taskID idx resource expMs sig at_) then Done (Some 403) else
              t <~ one (on_sys _ (on_db (Tasks.Get taskID))) ;;
              match t with
              | Err _ => Done (Some 404)
              | Ok (_, task) =>
                  r <~ loadProxyImage task idx resource ;;
                  match r with
                  | Err e => Done (Some (if bool_decide (e = errProxyImageNotFound) then 404 else 502))
                  | Ok (body, ct) =>
                      let ct := if String.eqb ct "" then "image/png" else ct in
                      let download := String.eqb dl "1" || String.eqb download "1" in
                      let '(ty, disposition) :=
                        image_headers ct (if download then buildDownloadFileName taskID idx ct else "") body download in
                      _ <~ one (send {| sh_task := taskID; sh_idx := idx; sh_resource := resource; sh_exp := expMs; sh_sig := sig;
                                        sh_at := at_; sh_type := ty; sh_disposition := disposition; sh_body := body |}) ;;
                      Done None
                  end
              end
          end
      end
  end.

Definition ImageProxy := serveProxyImage Links.ResourceOriginal.
Definition ThumbProxy := serveProxyImage Links.ResourceThumb.
Definition ReferenceProxy := serveProxyImage Links.ResourceReference.
Definition ReferenceThumbProxy := serveProxyImage Links.ResourceReferenceThumb.
End site.

(** ** proxy_url.go *)

(** The constructor that main.go has injected, if it has. *)
Definition BuildProxyURL (builder : option (string → Z → string)) (taskID : string) (idx : Z) (raw : string) : string :=
  match builder with None => raw | Some fn => fn taskID idx end.

Definition BuildProxyURLs (builder : option (string → Z → string)) (taskID : string) (raw : list string) : list string :=
  imap (λ i r, BuildProxyURL builder taskID (Z.of_nat i) r) raw.
