(* ===== verification/ServeSpec.v ===== *)
(** * A link shows the image it was made for

    Requests save, list, delete and serve images, and do what they like to the
    rest of the system; every client that is sent an image is sent the one its
    link names, whole. *)

From stdpp Require Import strings.
From S2P Require Import Prelude GoStrings GoTime Sql Archive Inputs ImageStore DiskSpec Schema Models Users Proc Rely System Tasks Links Images ImageServe.

#[local] Open Scope Z_scope.

(** ** What a reader of the disk is given *)

Section reading.
Context (l : Local) (legit : path → string → Prop).
Context (DetectContentType : string → string) (dir_stat : path → Z * Z).
Abbreviation J := (sound legit).
Abbreviation fair p Q := (polite J (changes l) None (λ _, True) p Q).

(** Where the version [r] of the image [i] of [t] may lie. *)
Definition place (t : string) (i : Z) (r : string) (p : path) : Prop :=
  if is_thumb r then p = ((thumbDir l).1, (thumbDir l).2 ++ [thumbFileName t i r])
  else ∃ tail, p = ((originalDir l).1, (originalDir l).2 ++ [fileStem t i r +:+ "." +:+ tail]).

Lemma fair_pure {A} (m : DISK A) (φ : result A → Prop) :
  Harmless m → (∀ w, J (w_db w) → φ (m w).1) → fair (one m) (λ r _, φ r).
Proof.
  intros Hm Hφ. apply polite_one; [done|]. intros w HJ _.
  split_and!; [by apply harmless_sound|by apply harmless_changes|by apply Hφ].
Qed.

Lemma call_result {A} (f : disk → result A * disk) (φ : result A → Prop) w :
  (∀ e, φ (Err e)) → φ (f (w_db w)).1 → φ (call f w).1.
Proof. intros He Hf. by apply (call_either f (λ r _ _, φ r)). Qed.

Definition globbed (stem : string) (ps : list path) : Prop := ∀ p, p ∈ ps → ∃ n,
  p = ((originalDir l).1, (originalDir l).2 ++ [n]) ∧ plain_name n ∧ HasPrefix n (stem +:+ ".") = true.

Lemma Glob_globbed stem w : match (Glob (originalDir l) stem w).1 with Ok ps => globbed stem ps | Err _ => True end.
Proof.
  unfold Glob, bind, try. assert (match (ReadDir (originalDir l) w).1 with
    | Ok es => ∀ e, e ∈ es → plain_name e.1 | Err _ => True end) as H.
  { unfold ReadDir, query. apply call_result; [done|]. cbn. destruct (is_dir _ _); [|done].
    intros e He. unfold listing in He. rewrite elem_of_sort_by in He. apply list_elem_of_In, in_map_iff in He as (x & <- & Hx).
    apply filter_In in Hx as [_ Hx]. apply andb_true_iff in Hx as [_ Hx]. by apply valid_plain. }
  destruct (ReadDir _ w) as [[es|e] w']; cbn in *; [|by intros p ?%not_elem_of_nil].
  intros p Hp. apply list_elem_of_In, in_map_iff in Hp as (n & <- & Hn). apply filter_In in Hn as [Hn Hpre].
  apply in_map_iff in Hn as (e & <- & He). apply list_elem_of_In, H in He. exists e.1. split_and!; [by apply Join_plain|done|done].
Qed.

Lemma statFile_named p resource w :
  match (statFile dir_stat p resource w).1 with
  | Ok (Some f) => Name f = name_of p ∧ parseFileInfo (name_of p) resource ≠ None
  | _ => True
  end.
Proof.
  unfold statFile, bind, try. destruct (stat dir_stat p w) as [[sm|e] w']; cbn; [|by destruct (errors_Is _ _)].
  destruct (parseFileInfo (name_of p) resource) as [f|] eqn:E; cbn; [|done]. split; [|done].
  unfold parseFileInfo in E. repeat case_match; simplify_eq; done.
Qed.

Lemma HasSuffix_spec s p : HasSuffix s p = true → ∃ x, s = x +:+ p.
Proof.
  intros [y Hy]%HasPrefix_spec. exists (of_bytes (rev (bytes y))). apply (f_equal bytes), (f_equal (@rev _)) in Hy.
  rewrite bytes_app, !bytes_of_bytes, rev_app_distr, !rev_involutive in Hy. apply bytes_inj. by rewrite bytes_app, bytes_of_bytes.
Qed.

Lemma parsed_not_tmp n resource : is_thumb resource = false → parseFileInfo n resource ≠ None → HasSuffix n ".tmp" = false.
Proof.
  intros Hr Hp. destruct (HasSuffix n ".tmp") eqn:E; [|done]. exfalso. apply Hp. apply HasSuffix_spec in E as [x ->].
  unfold parseFileInfo, bare. rewrite Hr. assert (Ext (x +:+ ".tmp") = ".tmp") as ->; [|done].
  unfold Ext. rewrite bytes_app, rev_app_distr. reflexivity.
Qed.

(** A file that is found, and where. *)
Definition found (dir : path) (t : string) (i : Z) (r : string) (res : option FileInfo) : Prop :=
  match res with
  | Some f => let p := (dir.1, dir.2 ++ [Name f]) in plain_name (Name f) ∧ place t i r p ∧ is_tmp p = false
  | None => True
  end.

Lemma fair_find_glob t i r : is_thumb r = false →
  fair (_ <~? ensureDirs l ;;
        m <~? one (Glob (originalDir l) (fileStem t i r)) ;;
        match m with [] => Done (Ok None) | p :: _ => one (statFile dir_stat p r) end)
    (λ res _, match res with Ok res => found (originalDir l) t i r res | Err _ => True end).
Proof.
  intros Hr. eapply (polite_then_ok _ _ _ _ (λ _, True)); [eapply polite_weaken; [apply fair_ensureDirs|done|by intros []]|done|].
  intros _ _. eapply (polite_then_ok _ _ _ _ (globbed (fileStem t i r)));
    [eapply (fair_pure _ (λ res, match res with Ok ps => globbed _ ps | Err _ => True end)); [apply _|intros w _; apply Glob_globbed]|done|].
  intros [|p ps] Hps; [done|]. destruct (Hps p) as (n & -> & Hn & Hpre); [left|].
  eapply (fair_pure _ (λ res, match res with Ok res => found _ t i r res | Err _ => True end)); [apply _|]. intros w _.
  pose proof (statFile_named ((originalDir l).1, (originalDir l).2 ++ [n]) r w) as H.
  destruct (statFile _ _ _ w).1 as [[f|]|e]; [|done|done]. rewrite name_of_last in H. destruct H as [Hname Hparse].
  unfold found. rewrite Hname. apply HasPrefix_spec in Hpre as [tail ->]. split_and!; [done| |].
  - unfold place. rewrite Hr. exists tail. by rewrite string_app_assoc.
  - unfold is_tmp. rewrite name_of_last. by eapply parsed_not_tmp.
Qed.

Lemma fair_find_thumb t i r : plain_task t = true → is_thumb r = true →
  fair (_ <~? ensureDirs l ;; one (statFile dir_stat (Join (thumbDir l) (thumbFileName t i r)) r))
    (λ res _, match res with Ok res => found (thumbDir l) t i r res | Err _ => True end).
Proof.
  intros Ht Hr. eapply (polite_then_ok _ _ _ _ (λ _, True)); [eapply polite_weaken; [apply fair_ensureDirs|done|by intros []]|done|].
  intros _ _. assert (plain_name (thumbFileName t i r)) as Hplain by (apply (stem_plain_name "tmp_" t i r "jpg" Ht); repeat constructor).
  rewrite Join_plain by done. eapply (fair_pure _ (λ res, match res with Ok res => found _ t i r res | Err _ => True end)); [apply _|].
  intros w _. pose proof (statFile_named ((thumbDir l).1, (thumbDir l).2 ++ [thumbFileName t i r]) r w) as H.
  destruct (statFile _ _ _ w).1 as [[f|]|e]; [|done|done]. rewrite name_of_last in H. destruct H as [Hname _].
  unfold found. rewrite Hname. split_and!; [done| |].
  - unfold place. by rewrite Hr.
  - unfold is_tmp. rewrite name_of_last. unfold thumbFileName. rewrite <- string_app_assoc. apply (not_tmp _ "jpg"). set_solver.
Qed.

Definition reads_of (t : string) (i : Z) (r : string) (res : result (option (string * string))) : Prop :=
  match res with Ok (Some (data, _)) => ∃ p, place t i r p ∧ legit p data | _ => True end.

Lemma ReadFile_legit p w data : J (w_db w) → is_tmp p = false → (ReadFile p w).1 = Ok data → legit p data.
Proof.
  intros HJ Hp. unfold ReadFile, query. apply call_result; [done|]. cbn. destruct (is_dir _ p); [done|].
  destruct (d_names (w_db w) !! p) as [[|i]|] eqn:Hi; [done| |done].
  destruct (sound_link _ _ HJ p i Hi) as (n & Hn & Hl). rewrite Hn. rewrite Hp in Hl. by intros [= <-].
Qed.

Lemma fair_read find dir ct t i r :
  fair (find t i) (λ res _, match res with Ok res => found dir t i r res | Err _ => True end) →
  fair (read find dir ct t i) (λ res _, reads_of t i r res).
Proof.
  intros Hf. unfold read. eapply polite_then_ok; [exact Hf|done|]. intros [f|] Hfound; [|by intros d _ _].
  destruct Hfound as (Hplain & Hplace & Htmp). rewrite Join_plain by done.
  eapply (polite_then _ _ _ _ (λ res, ∀ data, res = Ok data → legit (dir.1, dir.2 ++ [Name f]) data)).
  - apply fair_pure; [apply _|]. intros w HJ data. by apply ReadFile_legit.
  - intros [data|e] Hdata; [intros d _ _; exists (dir.1, dir.2 ++ [Name f]); auto|]. by case_match; intros d _ _.
Qed.

Lemma fair_ReadOriginal t i : fair (ReadOriginal l DetectContentType dir_stat t i) (λ res _, reads_of t i Links.ResourceOriginal res).
Proof.
  apply fair_read. unfold FindOriginal. change (t +:+ "_" +:+ itoa i) with (fileStem t i Links.ResourceOriginal).
  exact (fair_find_glob t i Links.ResourceOriginal eq_refl).
Qed.
Lemma fair_ReadReference t i : fair (ReadReference l DetectContentType dir_stat t i) (λ res _, reads_of t i Links.ResourceReference res).
Proof. apply fair_read. exact (fair_find_glob t i Links.ResourceReference eq_refl). Qed.
Lemma fair_ReadThumb t i : plain_task t = true → fair (ReadThumb l dir_stat t i) (λ res _, reads_of t i Links.ResourceThumb res).
Proof. intros Ht. apply fair_read. exact (fair_find_thumb t i Links.ResourceThumb Ht eq_refl). Qed.
Lemma fair_ReadReferenceThumb t i :
  plain_task t = true → fair (ReadReferenceThumb l dir_stat t i) (λ res _, reads_of t i Links.ResourceReferenceThumb res).
Proof. intros Ht. apply fair_read. exact (fair_find_thumb t i Links.ResourceReferenceThumb Ht eq_refl). Qed.
End reading.

(** ** The whole server *)

Section serving.
Context {R : Type} (l : Local) (apart_dirs : originalDir l ≠ thumbDir l).
Context {I : Type} (Decode : string → result (I * Z * Z)) (scale_jpeg : I → Z * Z → Z → result string)
        (placeholder : Z → result string).
Context (DetectContentType : string → string).
Context (pieces : string → list string) (pieces_whole : ∀ s, concat_strings (pieces s) = s).
Context (statfs : string → disk → result (Z * Z * Z)) (dir_stat : path → Z * Z) (text : goerr → string).
Context (mac : string → list ascii) (fetch : string → result (Z * string * string)).
Context (ExtensionsByType : string → list string) (unmarshal : string → option (list string)).

(** The rows of tasks there may ever be. *)
Context (Rows : Task → Prop).
Hypothesis rows_plain : ∀ t, Rows t → plain_task (TaskID t) = true.

Context (jobs : list job) (d0 : disk).
Hypothesis jobs_plain : Forall (λ j, plain_task (job_task j) = true) jobs.

(** What may be shown for the version [r] of the image [i] of the task [t]:
    what lay there from the start, what a request has saved there, or what the
    address of the cloud in its row answers. *)
Inductive shows (t : string) (i : Z) (r : string) (data : string) : Prop :=
  | shows_kept p ino n :
      place l t i r p → d_names d0 !! p = Some (Link ino) → d_inodes d0 !! ino = Some n → data = i_data n → shows t i r data
  | shows_saved j src :
      j ∈ jobs → job_task j = t → job_reference j = is_reference r → src ∈ job_images j → SrcIndex src = i →
      (if is_thumb r then thumb_of l Decode scale_jpeg placeholder (job_reference j) src = Ok data else data = SrcData src) →
      shows t i r data
  | shows_cloud task url status header :
      Rows task → TaskID task = t → NormalizeStorageMode (TaskStorageMode task) = StorageModeCloud →
      cloud_urls unmarshal task r !! Z.to_nat i = Some url → fetch (TrimSpace url) = Ok (status, data, header) → status < 400 →
      shows t i r data.

Abbreviation legit := (whole l Decode scale_jpeg placeholder DetectContentType jobs d0).

Lemma whole_shows t i r p data : plain_task t = true → place l t i r p → legit p data → shows t i r data.
Proof.
  intros Ht Hp [(ino & n & Hn & Hi & ->)|(j & Hj & src & Hsrc & He & Hb)]; [by eapply shows_kept|].
  assert (plain_task (job_task j) = true) as Htj by (rewrite Forall_forall in jobs_plain; by apply jobs_plain).
  unfold place in Hp. destruct (is_thumb r) eqn:Hr; [|destruct Hp as [tail Hp]]; destruct Hb as [[E ->]|[E Hth]]; rewrite E in Hp.
  - rewrite original_path_plain in Hp by done. by apply last_inj in Hp as [? _].
  - rewrite thumb_path_plain in Hp by done. apply last_inj in Hp as [_ Hn]. apply (f_equal (string_drop 4)) in Hn.
    apply (stem_tail_inj _ _ _ "jpg" _ _ _ "jpg") in Hn as (<- & <- & Href & _); [|done..].
    rewrite (proj2 (kind_reference _)) in Href. apply (shows_saved _ _ _ _ j src); try done. by rewrite Hr.
  - rewrite original_path_plain in Hp by done. apply last_inj in Hp as [_ Hn].
    apply stem_tail_inj in Hn as (<- & <- & Href & _); [|done..]. rewrite (proj1 (kind_reference _)) in Href.
    apply (shows_saved _ _ _ _ j src); try done. by rewrite Hr.
  - rewrite thumb_path_plain in Hp by done. by apply last_inj in Hp as [? _].
Qed.

(** *** The invariant *)

Definition rows_in (st : system R) : Prop := ∀ k t, image_tasks (sys_db st) !! k = Some t → Rows t.
Definition keeps_rows (st st' : system R) : Prop := rows_in st → rows_in st'.

Definition coherent (items : gmap string cachedProxyImage) : Prop := ∀ key e, items !! key = Some e →
  ∃ t i r, r = Links.NormalizeResource r ∧ key = cache_key t i r ∧ shows t i r (c_body e).
Definition authorised (x : shown) : Prop :=
  shows (sh_task x) (sh_idx x) (sh_resource x) (sh_body x) ∧
  Links.Verify mac (sh_task x) (sh_idx x) (sh_resource x) (sh_exp x) (sh_sig x) (sh_at x) = true.
Definition bounded (c : imageProxyCache) : Prop := 0 < pc_maxEntries c ∧ Z.of_nat (size (pc_items c)) ≤ pc_maxEntries c.

Record honest (s : site R) : Prop := {
  ho_disk : sound legit (s_disk s);
  ho_rows : rows_in (s_sys s);
  ho_cache : coherent (pc_items (s_cache s));
  ho_bound : bounded (s_cache s);
  ho_sent x : x ∈ s_sent s → authorised x
}.

Definition site_changes (o : option owner) (s s' : site R) : Prop := changes l o (s_disk s) (s_disk s').
Abbreviation fair p Q := (polite honest site_changes None (λ _, True) p Q).

(** What is fair on the disk is fair in the server. *)
Lemma polite_lift {A} o (P : disk → Prop) (p : proc disk A) Q :
  polite (sound legit) (changes l) o P p Q →
  polite honest site_changes o (λ s, P (s_disk s)) (lift on_disk p) (λ a s, Q a (s_disk s)).
Proof.
  revert P. induction p as [a|B m k IH]; intros P Hp; cbn [lift polite] in *.
  { intros s Hs. apply Hp, Hs. }
  intros (s & Hs & HP). destruct Hp as (P' & R' & H1 & H2 & H3 & H4); [by exists (s_disk s); split; [apply Hs|]|].
  exists (λ s, P' (s_disk s)), (λ r s, R' r (s_disk s)). split_and!.
  - intros s' Hs'. apply H1, Hs'.
  - intros s1 s2 Hs1 Hs2 (o' & Hne & Hch). apply (H2 _ _ (ho_disk _ Hs1) (ho_disk _ Hs2)). by exists o'.
  - intros [s1 fs] [J1 J2 J3 J4 J5] HP1. cbn [w_db] in *. unfold on_disk. cbn [w_db w_faults].
    destruct (H3 (World (s_disk s1) fs) J1 HP1) as (K1 & K2 & K3). destruct (m _) as [r [d fs']]. by split.
  - intros r s1 Hs1 Hr. apply IH, (H4 r (s_disk s1)); [apply Hs1|done].
Qed.

(** A step that leaves the disk alone. *)
Lemma fair_step {A} (m : DB (site R) A) (φ : result A → Prop) :
  (∀ w, honest (w_db w) → honest (w_db (m w).2) ∧ s_disk (w_db (m w).2) = s_disk (w_db w) ∧ φ (m w).1) →
  fair (one m) (λ r _, φ r).
Proof.
  intros Hm. apply polite_one; [done|]. intros w Hw _. destruct (Hm w Hw) as (H1 & H2 & H3). split_and!; [done| |done].
  unfold site_changes. rewrite H2. apply stays.
Qed.

Lemma fair_sys {A} (m : DB (system R) A) (φ : result A → Prop) :
  (∀ w, rows_in (w_db w) → rows_in (w_db (m w).2) ∧ φ (m w).1) → fair (one (on_sys _ m)) (λ r _, φ r).
Proof.
  intros Hm. apply fair_step. intros [s fs] [J1 J2 J3 J4 J5]. cbn [w_db] in *. unfold on_sys. cbn [w_db w_faults].
  destruct (Hm (World (s_sys s) fs) J2) as [K1 K2]. destruct (m _) as [r [st fs']]. by split.
Qed.

Lemma fair_cache {A} (f : imageProxyCache → A * imageProxyCache) (φ : A → Prop) :
  (∀ c, coherent (pc_items c) → bounded c → coherent (pc_items (f c).2) ∧ bounded (f c).2 ∧ φ (f c).1) →
  fair (one (on_cache f)) (λ r _, match r with Ok a => φ a | Err _ => True end).
Proof.
  intros Hf. apply (fair_step _ (λ r, match r with Ok a => φ a | Err _ => True end)).
  intros [s fs] [J1 J2 J3 J4 J5]. cbn [w_db] in *. unfold on_cache. cbn [w_db w_faults].
  destruct (Hf (s_cache s) J3 J4) as (K1 & K2 & K3). destruct (f _) as [a c]. by split.
Qed.

Lemma fair_now : fair now (λ r _, True).
Proof.
  eapply polite_weaken; [apply (fair_sys Now (λ _, True))|done|done]. intros [st fs] Hst. split; [|done]. unfold Now. cbn.
  unfold rows_in. by rewrite wait_db.
Qed.

(** *** The cache *)

Lemma oldest_in items :
  match oldest items with Some (k, _) => is_Some (items !! k) | None => items = ∅ end.
Proof.
  unfold oldest. set (f := λ old e, _).
  assert (∀ es old, (∀ e, e ∈ es → is_Some (items !! e.1)) → match old with Some (k, _) => is_Some (items !! k) | None => True end →
    match fold_left f es old with Some (k, _) => is_Some (items !! k) | None => old = None ∧ es = [] end) as Hfold.
  { induction es as [|e es IH]; intros old Hes Hold; cbn; [by destruct old as [[k x]|]|].
    assert (is_Some (items !! e.1)) as He by (apply Hes; left).
    assert (match f old e with Some (k, _) => is_Some (items !! k) | None => False end) as Hf.
    { unfold f. destruct old as [[k x]|]; [|done]. by destruct (_ <? _). }
    specialize (IH (f old e)). destruct (f old e) as [[k x]|]; [|done].
    specialize (IH (λ e' He', Hes e' (list_elem_of_further _ _ _ He')) Hf). by destruct (fold_left f es _) as [[k' x']|]; [|destruct IH]. }
  specialize (Hfold (map_to_list items) None). destruct (fold_left f _ None) as [[k x]|].
  - apply Hfold; [|done]. intros [k' e] He. apply elem_of_map_to_list in He. by exists e.
  - apply map_to_list_empty_iff. apply Hfold; [|done]. intros [k' e] He. apply elem_of_map_to_list in He. by exists e.
Qed.

Lemma evict_oldest_sub fuel m items k e : evict_oldest fuel m items !! k = Some e → items !! k = Some e.
Proof.
  revert items. induction fuel as [|fuel IH]; intros items; cbn; [done|]. destruct (m <? _); [|done].
  destruct (oldest items) as [[k' x]|]; [|done]. intros H%IH. by apply lookup_delete_Some in H as [_ ?].
Qed.

Lemma evict_oldest_size fuel m items :
  0 < m → (size items ≤ fuel)%nat → Z.of_nat (size (evict_oldest fuel m items)) ≤ m.
Proof.
  intros Hm. revert items. induction fuel as [|fuel IH]; intros items Hs; cbn; [lia|].
  destruct (Z.ltb_spec m (Z.of_nat (size items))) as [Hlt|]; [|done]. pose proof (oldest_in items) as Ho.
  destruct (oldest items) as [[k x]|]; [|subst items; rewrite map_size_empty in Hlt; lia].
  apply IH. rewrite map_size_delete. destruct Ho as [e ->]. lia.
Qed.

Lemma set_coherent t i r now c body ct expires :
  coherent (pc_items c) → bounded c → r = Links.NormalizeResource r → shows t i r body →
  let c' := with_items (evictLocked now (pc_maxEntries c) (<[cache_key t i r :=
    {| c_body := body; c_contentType := ct; c_expiresAt := expires; c_storedAt := now |}]> (pc_items c))) c in
  coherent (pc_items c') ∧ bounded c'.
Proof.
  intros Hc [Hb _] Hr Hs. cbn. split.
  - intros k e Hk. apply evict_oldest_sub, map_lookup_filter_Some in Hk as [Hk _].
    apply lookup_insert_Some in Hk as [[<- <-]|[_ Hk]]; [|by apply Hc]. by exists t, i, r.
  - split; [done|]. by apply evict_oldest_size.
Qed.

Lemma resource_no_colon r : ":"%char ∉ bytes (Links.NormalizeResource r).
Proof. unfold Links.NormalizeResource. repeat case_match; cbn; set_solver. Qed.

Lemma cache_key_inj t i r t' i' r' :
  cache_key t i r = cache_key t' i' r' → t = t' ∧ i = i' ∧ Links.NormalizeResource r = Links.NormalizeResource r'.
Proof.
  intros E%(f_equal bytes). unfold cache_key in E. rewrite !bytes_app in E. change (bytes ":") with [":"%char] in E.
  cbn [app] in E. rewrite !app_comm_cons, !app_assoc in E.
  apply sep_last in E as [E Hr]; [|apply resource_no_colon..].
  apply sep_last in E as [Ht Hi]; [|by apply itoa_without..]. apply bytes_inj in Ht, Hr, Hi. by apply (inj pretty) in Hi.
Qed.

Definition shown_by (t : string) (i : Z) (r : string) (res : result (option (string * string))) : Prop :=
  match res with Ok (Some (data, _)) => shows t i r data | _ => True end.

Lemma size_delete_le {V} (m : gmap string V) k : (size (delete k m) ≤ size m)%nat.
Proof. rewrite map_size_delete. destruct (m !! k); unfold id; lia. Qed.

Lemma fair_get t i r : r = Links.NormalizeResource r → fair (cache_get (cache_key t i r)) (λ res _, shown_by t i r res).
Proof.
  intros Hr. unfold cache_get. eapply (polite_then_ok _ _ _ _ (λ _, True)); [eapply polite_weaken; [apply fair_now|done|by intros []]|done|].
  intros now _. eapply (polite_then_ok _ _ _ _ (λ e, match e with Some e => shows t i r (c_body e) | None => True end)); [|done|].
  - apply fair_cache. intros c Hc Hb. split_and!; [done|done|]. cbn. destruct (pc_items c !! _) as [e|] eqn:E; [|done].
    destruct (Hc _ _ E) as (t' & i' & r' & Hr' & (-> & -> & Hrr)%cache_key_inj & Hs). by rewrite Hr, Hrr, <- Hr'.
  - intros [e|] He; [|by intros s _ _]. destruct (negb _); [|by intros s _ _].
    eapply (polite_then_ok _ _ _ _ (λ _, True)); [|done|by intros _ _ s _ _].
    apply (fair_cache _ (λ _, True)). intros c Hc Hb. destruct (pc_items c !! _) as [cur|]; [|done]. destruct (negb _); [|done].
    split_and!; [| |done]; cbn.
    + intros k e' Hk. apply lookup_delete_Some in Hk as [_ Hk]. by apply Hc.
    + destruct Hb as [Hb Hs]. split; [done|]. cbn. pose proof (size_delete_le (pc_items c) (cache_key t i r)). lia.
Qed.

Lemma fair_set t i r body ct : r = Links.NormalizeResource r → shows t i r body →
  fair (cache_set (cache_key t i r) body ct) (λ _ _, True).
Proof.
  intros Hr Hs. unfold cache_set.
  apply (polite_then_ok _ _ _ _ (λ _, True) _ (λ _, True)); [eapply polite_weaken; [apply fair_now|done|by intros []]|done|].
  intros now _. eapply polite_weaken; [apply (fair_cache _ (λ _, True))|done|done].
  intros c Hc Hb. destruct (set_coherent t i r now c body ct (now + pc_ttl c) Hc Hb Hr Hs). done.
Qed.

(** *** The handler *)

Lemma normalized r : Links.NormalizeResource r ∈ [Links.ResourceThumb; Links.ResourceReference; Links.ResourceReferenceThumb; Links.ResourceOriginal].
Proof. unfold Links.NormalizeResource. repeat case_match; set_solver. Qed.

Lemma fair_readLocal task i r : r = Links.NormalizeResource r → Rows task →
  fair (readLocalProxyImage (Some l) DetectContentType dir_stat task i r) (λ res _, shown_by (TaskID task) i r res).
Proof.
  intros Hr Ht. pose proof (rows_plain task Ht) as Hp. unfold readLocalProxyImage. rewrite <- Hr.
  assert (∀ q, polite (sound legit) (changes l) None (λ _, True) q (λ res _, reads_of l legit (TaskID task) i r res) →
    fair (lift on_disk q) (λ res _, shown_by (TaskID task) i r res)) as Hlift.
  { intros q Hq. apply polite_lift in Hq. eapply polite_weaken; [exact Hq|done|]. intros [[[data ct]|]|e] s _ H; try done.
    destruct H as (p & Hpl & Hleg). by eapply whole_shows. }
  pose proof (normalized r) as Hin. rewrite <- Hr in Hin.
  repeat (apply elem_of_cons in Hin as [->|Hin]; [cbn [String.eqb]|]); [..|by apply not_elem_of_nil in Hin]; apply Hlift.
  - by apply fair_ReadThumb.
  - apply fair_ReadReference.
  - by apply fair_ReadReferenceThumb.
  - apply fair_ReadOriginal.
Qed.

Lemma cloud_shows task i r : r = Links.NormalizeResource r → Rows task →
  NormalizeStorageMode (TaskStorageMode task) = StorageModeCloud →
  shown_by (TaskID task) i r (readCloudProxyImage DetectContentType fetch unmarshal task i r).
Proof.
  intros Hr Ht Hm. unfold readCloudProxyImage. destruct (i <? 0); [done|].
  destruct (cloud_urls unmarshal task r !! Z.to_nat i) as [url|] eqn:Hu; [|done]. destruct (String.eqb _ _); [done|].
  destruct (fetch _) as [[[status body] header]|e] eqn:Hf; [|done]. destruct (Z.leb_spec 400 status); [done|].
  destruct (_ <? _); [done|]. cbn. by eapply shows_cloud.
Qed.

Lemma fair_load task i r : r = Links.NormalizeResource r → Rows task →
  fair (loadProxyImage (Some l) DetectContentType dir_stat fetch unmarshal task i r)
    (λ res _, match res with Ok (body, _) => shows (TaskID task) i r body | Err _ => True end).
Proof.
  intros Hr Ht. unfold loadProxyImage. set (φ := λ res : option (string * string), match res with Some (data, _) => shows (TaskID task) i r data | None => True end).
  eapply (polite_then_ok _ _ _ _ φ _ (λ res, match res with Ok (body, _) => shows (TaskID task) i r body | Err _ => True end)); [|done|].
  { eapply polite_weaken; [by apply fair_get|done|]. by intros [[[]|]|]. }
  intros [[body ct]|] Hhit; [by intros s _ _|].
  eapply (polite_then_ok _ _ _ _ φ); [|done|].
  { eapply polite_weaken; [by apply fair_readLocal|done|]. by intros [[[]|]|]. }
  intros found Hfound. set (found' := match found with None => _ | Some _ => _ end).
  assert (shown_by (TaskID task) i r found') as Hs.
  { unfold found'. destruct found as [[data ct]|]; [done|]. destruct (String.eqb_spec (NormalizeStorageMode (TaskStorageMode task)) StorageModeCloud);
      [by apply cloud_shows|done]. }
  destruct found' as [[[body ct]|]|e]; [|by intros s _ _|by intros s _ _].
  eapply (polite_then_ok _ _ _ _ (λ _, True)); [|done|by intros _ _ s _ _].
  eapply polite_weaken; [by apply (fair_set _ _ _ body ct)|done|by intros []].
Qed.

Lemma Get_rows t w : rows_in (w_db w) →
  rows_in (w_db (on_db (Tasks.Get t) w).2) ∧
  match (on_db (Tasks.Get t) w).1 with Ok (_, task) => Rows task ∧ TaskID task = t | Err _ => True end.
Proof.
  intros Hr. unfold on_db, Tasks.Get, query, call. destruct w as [st fs]. cbn [w_db w_faults] in *.
  assert (∀ e : result (N * Task), e = match head (rows_where image_tasks (λ _ x, is_task t x && task_live x) (sys_db st)) with
    | Some p => Ok p | None => Err ErrNotFound end → match e with Ok (_, task) => Rows task ∧ TaskID task = t | Err _ => True end) as H.
  { intros e ->. destruct (head _) as [[k task]|] eqn:E; [|done]. apply head_rows_where in E as [Hk Hp].
    split; [by apply (Hr k)|]. apply andb_true_iff in Hp as [Hp _]. unfold is_task in Hp. by apply String.eqb_eq in Hp. }
  destruct fs as [|[] fs]; cbn; replace (with_db (sys_db st) st) with st by (by destruct st); split; try done; by apply H.
Qed.

Lemma fair_serve resource taskID idxStr expStr sig dl download :
  fair (serveProxyImage (Some l) mac DetectContentType dir_stat fetch ExtensionsByType unmarshal resource taskID idxStr expStr sig dl download)
    (λ _ _, True).
Proof.
  unfold serveProxyImage. destruct (_ || _); [done|]. destruct (Atoi idxStr) as [i|]; [|done]. destruct (_ || _); [done|].
  destruct (Atoi expStr) as [expMs|]; [|done]. set (r := Links.NormalizeResource resource).
  assert (r = Links.NormalizeResource r) as Hr.
  { unfold r. pose proof (normalized resource) as Hin. repeat (apply elem_of_cons in Hin as [->|Hin]; [done|]). by apply not_elem_of_nil in Hin. }
  eapply (polite_then _ _ _ _ (λ _, True)); [eapply polite_weaken; [apply fair_now|done|done]|]. intros [at_|e] _; [|done].
  destruct (Links.Verify mac taskID i r expMs sig at_) eqn:Hv; [|done]. cbn [negb].
  eapply (polite_then _ _ _ _ (λ res, match res with Ok (_, task) => Rows task ∧ TaskID task = taskID | Err _ => True end)).
  { apply fair_sys. intros w Hw. by apply Get_rows. }
  intros [[k task]|e] Ht; [|done]. destruct Ht as [Ht Hid].
  eapply (polite_then _ _ _ _ (λ res, match res with Ok (body, _) => shows (TaskID task) i r body | Err _ => True end)); [by apply fair_load|].
  intros [[body ct]|e] Hs; [|done]. destruct (image_headers _ _ _ _ _) as [ty disposition].
  eapply (polite_then _ _ _ _ (λ _, True)); [|done]. apply fair_step. intros [s fs] [J1 J2 J3 J4 J5]. split_and!; [|done|done].
  split; try done. cbn. intros x [Hx|Hx%list_elem_of_singleton]%elem_of_app; [by apply J5|]. subst x. split; [|done]. cbn. by rewrite <- Hid.
Qed.

(** *** Every request there can be *)

(** Serving, everything the store does, and whatever the rest of the system
    does that keeps the rows of tasks among [Rows]. *)
Inductive request : proc (site R) unit → Prop :=
  | serves resource taskID idx exp sig dl download :
      request (forget (serveProxyImage (Some l) mac DetectContentType dir_stat fetch ExtensionsByType unmarshal
                         resource taskID idx exp sig dl download))
  | tends q : routine l DetectContentType statfs dir_stat text q → request (lift on_disk q)
  | works q : follows keeps_rows (λ _, True) q → request (lift on_sys q).

Lemma fair_works (q : proc (system R) unit) : follows keeps_rows (λ _, True) q → fair (lift on_sys q) (λ _ _, True).
Proof.
  induction q as [a|B m k IH]; cbn [lift follows]; [done|]. intros Hq.
  change (fair (pbind (one (on_sys B m)) (λ r, lift on_sys (k r))) (λ _ _, True)).
  eapply (polite_then _ _ _ _ (λ r, follows keeps_rows (λ _, True) (k r))); [|auto].
  apply fair_sys. intros w Hw. destruct (Hq w) as [[H1 _] H2]. split; [by apply H1|done].
Qed.

Lemma fair_request p : request p → fair p (λ _ _, True).
Proof.
  intros [resource taskID idx exp sig dl download|q Hq|q Hq].
  - eapply polite_forget, fair_serve.
  - eapply polite_weaken; [apply polite_lift; by eapply fair_routine|done|done].
  - by apply fair_works.
Qed.

Abbreviation saver j := (lift on_disk (job_proc l Decode scale_jpeg placeholder DetectContentType pieces j)).

Lemma fair_save j : j ∈ jobs →
  polite honest site_changes (Some (job_owner j)) (λ _, True) (saver j) (λ _ _, True).
Proof.
  intros Hj. eapply (polite_lift (Some (job_owner j)) (λ _, True) _ (λ _ _, True)), fair_job; [done|done|exact statfs| |].
  - rewrite Forall_forall in jobs_plain. by apply jobs_plain.
  - intros p data Hb. right. by exists j.
Qed.

(** A server that has just been started. *)
Definition started (s : site R) : Prop :=
  s_disk s = d0 ∧ rows_in (s_sys s) ∧ s_sent s = [] ∧ ∃ ttl n, s_cache s = newImageProxyCache ttl n.

Lemma started_honest s : consistent d0 → started s → honest s.
Proof.
  intros Hd (H1 & H2 & H3 & ttl & n & H4). split; rewrite ?H1, ?H3, ?H4.
  - by apply consistent_sound.
  - done.
  - intros key e. cbn. by rewrite lookup_empty.
  - unfold bounded. cbn. rewrite map_size_empty. destruct (Z.leb_spec n 0); unfold defaultImageProxyCacheMaxEntries; lia.
  - by intros x ?%not_elem_of_nil.
Qed.

(** C12: a link shows the image it was made for, whole, or nothing.  Any number
    of requests save the images of different tasks while others serve links,
    list and delete files, and do anything to the rest of the system; they
    interleave call by call, calls fail, requests are lost.  Whatever is sent to
    whomever: the tag of its link was checked, for that task, that image, that
    version and before it expired; and the bytes are all of what a request saved
    for that version of that image of that task (or lay there from the start, or
    what the address in the task's row answered), even when they come from the
    cache; never a part and never another image.  The cache never holds more
    images than it may. *)
Theorem link_shows_its_image s0 fs ts w :
  consistent d0 → NoDup (map job_owner jobs) → started s0 →
  rtc (pool_step request)
    (map (λ j, saver j) jobs, World s0 fs) (ts, w) →
  (∀ x, x ∈ s_sent (w_db w) →
     Links.Verify mac (sh_task x) (sh_idx x) (sh_resource x) (sh_exp x) (sh_sig x) (sh_at x) = true ∧
     shows (sh_task x) (sh_idx x) (sh_resource x) (sh_body x)) ∧
  Z.of_nat (size (pc_items (s_cache (w_db w)))) ≤ pc_maxEntries (s_cache (w_db w)).
Proof.
  intros Hd0 Hnd Hs Hrun. pose proof (started_honest s0 Hd0 Hs) as Hh. cut (honest (w_db w)).
  { intros [_ _ _ [_ Hb] Hsent]. split; [|done]. intros x Hx. by destruct (Hsent x Hx). }
  eapply (pool_polite honest site_changes request fair_request _ _ Hrun (map (Some ∘ job_owner) jobs)); [| |exact Hh].
  - by apply apart_owners.
  - cbn. apply Forall2_same_length_lookup. rewrite !length_map. split; [done|]. intros a q o Hq Ho.
    rewrite list_lookup_fmap in Hq. rewrite list_lookup_fmap in Ho.
    destruct (jobs !! a) as [j|] eqn:Hj; [|done]. cbn in Hq, Ho. simplify_eq.
    eapply (at_ease_polite _ _ _ _ _ (λ _, True)); [done|done|].
    apply fair_save. by eapply list_elem_of_lookup_2.
Qed.
End serving.

(** The ids the server gives are plain. *)
Lemma bytes_string_take n s : bytes (string_take n s) = take n (bytes s).
Proof. revert s. induction n as [|n IH]; intros [|c s]; try done. exact (f_equal (cons c) (IH s)). Qed.

Lemma task_id_plain id : Forall (λ c, is_digit c || is_lower c || Ascii.eqb c "-" = true) (bytes id) → plain_task (task_id id) = true.
Proof.
  intros H. unfold plain_task, task_id. apply andb_true_iff. split; [|done]. apply forallb_forall. intros c Hc.
  apply list_elem_of_In in Hc. rewrite bytes_app, elem_of_app in Hc. destruct Hc as [Hc|Hc].
  { assert (safe (bytes "img_")) as Hs by (repeat constructor). rewrite Forall_forall in Hs. by apply Hs. }
  rewrite bytes_string_take, bytes_of_bytes in Hc. apply elem_of_take in Hc as (i & Hi & _). apply list_elem_of_lookup_2 in Hi.
  apply list_elem_of_In, filter_In in Hi as [Hi _]. apply list_elem_of_In in Hi. rewrite Forall_forall in H. specialize (H c Hi). cbn beta in H.
  unfold safe_char. destruct (is_digit c), (is_lower c), (Ascii.eqb c "-"); try done; by rewrite ?orb_true_r.
Qed.

(** ** A server, for the witness *)

Definition sample_row : Task := {|
  TaskID := "img_a"; TaskUserID := 3; TaskKeyID := 1; TaskModelID := 1; TaskAccountID := 1; TaskPrompt := "a lake"; TaskN := 1;
  TaskSize := "1024x1024"; TaskUpscale := ""; TaskStorageMode := StorageModeLocal; TaskStatus := TaskSuccess; ConversationID := "";
  FileIDs := None; ResultURLs := None; ThumbURLs := None; ReferenceCount := 0; ReferenceURLs := None; ReferenceThumbURLs := None;
  TaskError := ""; EstimatedCredit := 0; TaskCreditCost := 0; TaskCreatedAt := 0; StartedAt := None; FinishedAt := None;
  TaskDeletedAt := None |}.

Definition sample_tag (s : string) : list ascii := take 12 (rev (bytes s)).

Definition sample_site : site map_redis := Site
  (System (with_image_tasks (λ _, {[ 1%N := sample_row ]}) empty_database) ∅ (hour * 400) [] O Models.NewRegistry Users.empty_cache)
  empty_disk (newImageProxyCache 0 0) [].

Abbreviation sample_saver j :=
  (lift (on_disk (R:=map_redis)) (job_proc sample_store sample_decode sample_scale sample_dot sample_detect byte_by_byte j)).

(** The thumbnail of the first image of the first task. *)
Definition sample_exp : Z := 1500000000.
Definition sample_serve : proc (site map_redis) unit :=
  forget (ThumbProxy (Some sample_store) sample_tag sample_detect (λ _, (0, 0)) (λ _, Err EDriver) (λ _, []) (λ _, None) "img_a" "0"
    (itoa sample_exp) (computeSig sample_tag "img_a" 0 Links.ResourceThumb sample_exp) "" "").

Definition sample_ts : list (proc (site map_redis) unit) := map (λ j, sample_saver j) sample_jobs.
Definition saved_site := advance 60 (sample_saver (sample_job "img_a" "PNG")) (World sample_site []).
Definition served_site := advance 20 sample_serve saved_site.2.

Definition sample_shown : shown := {|
  sh_task := "img_a"; sh_idx := 0; sh_resource := Links.ResourceThumb; sh_exp := sample_exp; sh_sig := "303030303030303035317c62";
  sh_at := hour * 400; sh_type := "image/jpeg"; sh_disposition := "inline"; sh_body := "512x384 at 82" |}.

Lemma link_shows_its_image_witness :
  s_sent (w_db served_site.2) = [sample_shown] ∧
    shows sample_store sample_decode sample_scale sample_dot (λ _, Err EDriver) (λ _, None) (λ t, t = sample_row) sample_jobs empty_disk
      "img_a" 0 Links.ResourceThumb "512x384 at 82".
Proof.
  split; [vm_compute; reflexivity|].
  refine (proj2 (proj1 (link_shows_its_image sample_store (NewLocal_dirs _ _ _) sample_decode sample_scale sample_dot sample_detect
    byte_by_byte byte_by_byte_whole (λ _ _, Ok (0, 0, 0)) (λ _, (0, 0)) (λ _, "") sample_tag (λ _, Err EDriver) (λ _, []) (λ _, None)
    (λ t, t = sample_row) _ sample_jobs empty_disk _ sample_site [] _ served_site.2 empty_disk_consistent _ _ _) sample_shown _)).
  - by intros t ->.
  - repeat constructor.
  - vm_compute. repeat constructor; intros H; repeat (apply elem_of_cons in H as [H|H]; [discriminate H|]); by apply not_elem_of_nil in H.
  - split_and!; [done| |done|by exists 0, 0]. intros k t Hk. cbn in Hk. by apply lookup_singleton_Some in Hk as [_ <-].
  - etrans; [apply (pool_advance_at _ 60 sample_ts O (sample_saver (sample_job "img_a" "PNG"))); reflexivity|].
    eapply rtc_l; [apply (step_arrive _ _ _ sample_serve); unfold sample_serve; constructor|].
    apply (pool_advance_at _ 20 _ 2 sample_serve). reflexivity.
  - vm_compute. left.
Defined.
