(* ===== verification/ImageBilling.v ===== *)
(** * What an image request costs (internal/gateway/images.go, image_channel.go)

    Every handler of the gateway tells a story ([one_story_per_request]); the
    account pool delivers as many images as were held for, at the price that
    was held ([pool_images_as_held]); a channel charges its own price, unless
    that rounds to nothing, when the hold stays ([free_channel_keeps_hold]). *)

From S2P Require Import Prelude GoStrings GoTime Float Sql Schema Crypto Ledger Billing Settings Models Users System Lock Proc ProxyPool Account Pricing ApiKey Channels Tasks Archive Books RateLimit Caches Upstream Refs Scheduler Runner Json Delta Gateway Stories RunnerSpec Chat ChatBilling Prompts Inputs ImageChannel Links Images.
From Stdlib Require Import QArith.

#[local] Open Scope Z_scope.

Section images.
Context (ih : ImagesHandler).
Context (loc : location) (cfg : SchedulerConfig) (rt : RuntimeParams).
Context {AEAD : Type} (Open : AEAD → list ascii → list ascii → result (list ascii))
        (NonceSize Overhead : nat) (cipher : AEAD).
Context (json_column : string → option string) (marshal : list string → string) (unmarshal_list : string → option (list string)).
Context (unmarshal : string → result rawConfig) (unmarshal_bool : string → option bool) (http_url : string → bool).
Context (url_path : string → option string) (mac : string → list ascii).
Context (DecodeConfig : string → option (Z * Z * string)) (heic : string → result string) (http_get : string → result HTTPResponse).
Context (decode : string → option json) (num : string → Q).
Context {R : Type} `{!RedisServer R, !RedisHashes R} (uuid : nat → string) (c : ImageCall).
Hypothesis Httl : 0 < lock_ttl cfg.

(** ** What leaves the books alone *)

Lemma image_data_gives ixs taskID mode urls thumbs files :
  follows (unbilled (R:=R)) (λ data, length data = length ixs) (image_data mac (R:=R) ixs taskID mode urls thumbs files).
Proof.
  induction ixs as [|i ixs IH]; cbn [image_data]; [done|].
  eapply (follows_pbind _ (λ _, True)); [unfold BuildURL; repeat aside_step|intros url _].
  eapply (follows_pbind _ (λ _, True)); [unfold BuildURL; repeat aside_step|intros thumb _].
  eapply follows_pbind; [apply IH|]. intros rest Hr. cbn in *. lia.
Qed.

Lemma buildAPIImageData_gives taskID mode urls thumbs files :
  follows (unbilled (R:=R)) (λ data, length data = Nat.max (Nat.max (length urls) (length thumbs)) (length files))
    (buildAPIImageData mac (R:=R) taskID mode urls thumbs files).
Proof. unfold buildAPIImageData. eapply follows_weaken; [apply image_data_gives|]. intros data. by rewrite length_seq. Qed.
Lemma buildAPIImageData_aside taskID mode urls thumbs files :
  aside (buildAPIImageData mac (R:=R) taskID mode urls thumbs files).
Proof. by eapply follows_weaken; [apply buildAPIImageData_gives|]. Qed.

Lemma archiveTaskReferences_aside taskID mode refs :
  aside (archiveTaskReferences ih json_column marshal unmarshal unmarshal_bool http_url (R:=R) taskID mode refs).
Proof. unfold archiveTaskReferences, archiveCloudTaskReferences. repeat first [aside_step|done]. Qed.

Lemma mark_failures_aside failures : aside (mark_failures (R:=R) failures).
Proof. induction failures as [|[r e] failures IH]; cbn [mark_failures]; [done|]. aside_step. exact IH. Qed.

Abbreviation run_images := (run_images ih loc cfg rt Open NonceSize Overhead cipher json_column marshal unmarshal unmarshal_bool
  http_url decode num uuid c).

Lemma run_images_gives deadline opt :
  follows (unbilled (R:=R)) (delivers (Z.to_nat (Z.max 1 (OptN opt)))) (run_images deadline opt).
Proof. by apply Run_follows. Qed.
Lemma run_images_aside deadline opt : aside (run_images deadline opt).
Proof. by eapply follows_weaken; [apply run_images_gives|]. Qed.

(** ** The handlers tell a story *)

Context (who : N → N → Prop).

Section hold.
Context (n : nat) (b : hold) (Href : h_ref b = uuid n) (Hwho : who (h_user b) (h_key b)).

Abbreviation mine st p := (tells uuid who (λ x a, billed uuid (h_user b) (h_key b) x a.2) (Owns n st) p).

Lemma refund_if_tells st code rec :
  standing b st →
  tells uuid who (λ ph rec', LogStatus rec' = StatusFailed ∧ billed uuid (h_user b) (h_key b) ph rec') (Owns n st)
    (refund_if (R:=R) b code rec).
Proof.
  intros Hst. unfold refund_if, refund. destruct (h_amount b =? 0); [split; [done|by apply standing_billed]|].
  cbn [pbind one]. eapply tells_refund; [done..|]. intros ph r H. split; [done|by apply H].
Qed.

Lemma undo_tells st logged status code rec : standing b st → mine st (undo (R:=R) b logged status code rec).
Proof.
  intros Hst. unfold undo. eapply tells_pbind; [by apply refund_if_tells|]. by intros ph rec' [_ H].
Qed.

Lemma undo_task_tells st taskID code rec : standing b st → mine st (undo_task (R:=R) b taskID code rec).
Proof.
  intros Hst. unfold undo_task. eapply tells_pbind; [by apply refund_if_tells|]. intros ph rec' [_ H]. cbn [pbind one].
  by apply tells_call; [apply _|].
Qed.

Lemma hold_if_tells (Q : phase → answer → Prop) rec (k : proc (system R) answer) :
  (∀ st, standing b st → tells uuid who Q (Owns n st) k) → (∀ status code, Q (Owns n []) (refuse status code rec)) →
  tells uuid who Q (Owns n []) (hold_if b rec k).
Proof.
  intros Hk HQ. unfold hold_if. destruct (Z.ltb_spec 0 (h_amount b)) as [Ha|Ha].
  - by apply (tells_prepay uuid who n).
  - apply Hk. unfold standing. by replace (0 <? h_amount b) with false by lia.
Qed.

Lemma settle_image_tells st (settled : bool) cost :
  standing b st →
  tells uuid who (λ ph _, paid_off uuid b cost ph) (Owns n st) (settle_image c (R:=R) b settled cost).
Proof.
  intros Hst. unfold settle_image. destruct settled; cbn [pbind one].
  - eapply tells_settle; [done..|]. intros ph r H. cbn [pbind]. by apply tells_call; [apply _|].
  - apply tells_call; [apply _|]. intros r rec _ _. by apply standing_billed.
Qed.

Lemma with_task_tells st task refs rec k :
  standing b st → mine st k →
  mine st (with_task ih json_column marshal unmarshal unmarshal_bool http_url (R:=R) b task refs rec k).
Proof.
  intros Hst Hk. unfold with_task. cbn [pbind one]. apply tells_call; [apply _|]. intros [id|e]; cbn [pbind]; [|by apply undo_tells].
  apply tells_after; [apply archiveTaskReferences_aside|]. intros []; [done|by apply undo_task_tells].
Qed.

Lemma draw_channel_tells st taskID mid m req ratio routes ir rec :
  standing b st →
  mine st (draw_channel ih json_column marshal unmarshal unmarshal_bool http_url mac (R:=R) c b taskID mid m req ratio
    routes ir rec).
Proof.
  intros Hst. unfold draw_channel. destruct (pickImageRoute _ _ _ _) as [selected failures].
  apply tells_after; [apply mark_failures_aside|]. intros _. destruct selected as [[route result]|]; [|by apply undo_task_tells].
  cbn [pbind one]. apply tells_call; [apply _|]. intros _. cbn [pbind]. cbv zeta.
  destruct (_ =? 0); [by apply undo_task_tells|]. destruct (archive_channel _ _ _ _ _ _) as [a|e]; [|by apply undo_task_tells].
  cbn [pbind one]. apply tells_call; [apply _|]. intros [[]|e]; cbn [pbind]; [|by apply undo_tells].
  apply tells_after; [apply buildAPIImageData_aside|]. intros data. eapply tells_pbind; [by apply settle_image_tells|].
  intros ph ? H. by apply H.
Qed.

Lemma draw_pool_tells st taskID m prompt size k attempts refs ratio deadline rec :
  standing b st →
  mine st (draw_pool ih loc cfg rt Open NonceSize Overhead cipher json_column marshal unmarshal unmarshal_bool http_url
    mac decode num (R:=R) uuid c b taskID m prompt size k attempts refs ratio deadline rec).
Proof.
  intros Hst. unfold draw_pool. apply tells_after; [apply run_images_aside|]. intros res. cbv zeta.
  destruct (negb _); [by apply undo_tells|]. apply tells_after; [apply buildAPIImageData_aside|]. intros data.
  destruct (imageResponseAccounting m data ratio size) as [actualN cost]. destruct (actualN =? 0); [by apply undo_task_tells|].
  eapply tells_pbind; [by apply settle_image_tells|]. intros ph ? H. cbn [pbind one]. apply tells_call; [apply _|]. intros ?.
  by apply H.
Qed.

Lemma chat_image_tells st keyID ak mid m prompt size deadline rec :
  standing b st →
  mine st (chat_image ih loc cfg rt Open NonceSize Overhead cipher json_column marshal unmarshal unmarshal_bool http_url
    mac decode num (R:=R) uuid c b keyID ak mid m prompt size deadline rec).
Proof.
  intros Hst. unfold chat_image, GenerateTaskID. apply tells_after; [repeat aside_step|]. intros taskID.
  cbn [pbind one]. apply tells_call; [apply _|]. intros _. cbn [pbind].
  apply tells_after; [apply run_images_aside|]. intros res. cbv zeta.
  destruct (negb _); [by apply undo_tells|]. eapply tells_pbind; [by apply settle_image_tells|]. intros ph ? H.
  cbn [pbind one]. apply tells_call; [apply _|]. intros _. cbn [pbind]. apply tells_call; [apply _|]. intros _. cbn [pbind].
  apply tells_after; [apply buildAPIImageData_aside|]. intros data. apply tells_call; [apply _|]. intros ?. by apply H.
Qed.
End hold.

Lemma GenerateTaskID_aside : aside (GenerateTaskID (R:=R) uuid).
Proof. unfold GenerateTaskID. repeat aside_step. Qed.

Context (keyID : N) (ak : APIKey) (Hwho : who (KeyUserID ak) keyID).
Abbreviation told ph p := (tells uuid who (λ x a, billed uuid (KeyUserID ak) keyID x a.2) ph p).

Lemma dispatchImage_tells n mid m req refs rec ratio :
  tells uuid who (λ ph r, match r with None => ph = Owns n [] | Some a => billed uuid (KeyUserID ak) keyID ph a.2 end) (Owns n [])
    (dispatchImageToChannel ih Open NonceSize Overhead cipher json_column marshal unmarshal unmarshal_bool http_url url_path mac
      (R:=R) uuid c keyID ak mid m req refs rec ratio).
Proof.
  unfold dispatchImageToChannel. destruct (negb _); [done|]. cbn [pbind one].
  apply tells_call; [apply _|]. intros [[|r routes]|e]; cbn [pbind]; [done| |done].
  destruct (buildChannelImageRequest _ _ _ _ _ _ _ _) as [code|[ir routes']]; [apply billed_none|]. cbn [pbind one].
  apply tells_draw; [done|]. intros n'. cbn [pbind]. eapply tells_pbind; [|by intros ph a Ha; exact Ha].
  apply (hold_if_tells n'); [done|done| |intros; apply billed_none]. intros st Hst.
  apply tells_after; [apply GenerateTaskID_aside|]. intros taskID.
  by_hold with_task_tells. by_hold draw_channel_tells.
Qed.

Lemma serve_images_tells n what timeout mid m prompt size k refs ratio rec :
  told (Owns n []) (serve_images ih loc cfg rt Open NonceSize Overhead cipher json_column marshal unmarshal unmarshal_bool http_url
    mac decode num (R:=R) uuid c what timeout keyID ak mid m prompt size k refs (uuid n) ratio rec).
Proof.
  unfold serve_images. destruct (normalizeLocalImageRequestByModel m k size) as [k' size'].
  apply tells_after; [unfold detached; repeat aside_step|]. intros deadline. apply (hold_if_tells n); [done|done| |intros; apply billed_none]. intros st Hst.
  apply tells_after; [apply GenerateTaskID_aside|]. intros taskID. by_hold with_task_tells. by_hold draw_pool_tells.
Qed.

Lemma image_model_of_tells n slug rec k :
  (∀ mid m, told (Owns n []) (k mid m)) → told (Owns n []) (image_model_of unmarshal_list (R:=R) ak slug rec k).
Proof.
  intros Hk. unfold image_model_of. destruct (negb _); [apply billed_none|]. apply tells_after; [apply BySlug_aside|].
  intros [[[mid m]|e] started]; [|apply billed_none]. cbn [fst]. destruct (negb _); [apply billed_none|].
  destruct (negb _); [apply billed_none|]. apply Hk.
Qed.

Lemma image_ratio_tells n rec k :
  (∀ ratio, told (Owns n []) (k ratio)) → told (Owns n []) (image_ratio ih (R:=R) keyID ak rec k).
Proof.
  intros Hk. unfold image_ratio. apply tells_after; [apply limits_aside|]. intros [[ratio rpm] tpm].
  apply tells_after; [apply over_limit_aside; apply _|]. intros []; [apply billed_none|]. apply Hk.
Qed.

Abbreviation handleChatAsImage := (handleChatAsImage ih loc cfg rt Open NonceSize Overhead cipher json_column marshal unmarshal
  unmarshal_bool http_url mac decode num (R:=R) uuid c).
Abbreviation ImageGenerations := (ImageGenerations ih loc cfg rt Open NonceSize Overhead cipher json_column marshal unmarshal_list
  unmarshal unmarshal_bool http_url url_path mac DecodeConfig heic http_get decode num (R:=R) uuid c).
Abbreviation ImageEdits := (ImageEdits ih loc cfg rt Open NonceSize Overhead cipher json_column marshal unmarshal_list
  unmarshal unmarshal_bool http_url url_path mac DecodeConfig heic decode num (R:=R) uuid c).

Lemma handleChatAsImage_tells n mid m req rec : told (Owns n []) (handleChatAsImage keyID ak mid m req rec).
Proof.
  unfold Images.handleChatAsImage. destruct (String.eqb _ ""); [apply billed_none|]. cbn [pbind one].
  apply tells_draw; [done|]. intros n'. cbn [pbind].
  apply image_ratio_tells. intros ratio. unfold serve_chat_image.
  apply tells_after; [unfold detached; repeat aside_step|]. intros deadline. apply (hold_if_tells n'); [done|done| |intros; apply billed_none].
  intros st Hst. by_hold chat_image_tells.
Qed.

(** The record of a request that has one. *)
Definition recorded_as (ph : phase) (a : outcome * option Log) : Prop :=
  match a.2 with None => ph = Idle | Some rec => billed uuid (KeyUserID ak) keyID ph rec end.

Lemma recorded_tells start body :
  (∀ n rec, told (Owns n []) (body (uuid n) rec)) →
  tells uuid who recorded_as Idle (recorded_as_image (R:=R) uuid c start keyID ak body).
Proof.
  intros Hb. unfold recorded_as_image. cbn [pbind one]. apply tells_draw; [done|]. intros n. cbn [pbind].
  eapply tells_pbind; [apply Hb|]. intros ph a Ha. apply tells_call; [apply _|]. intros ?. by apply billed_closed.
Qed.

Lemma ImageGenerations_tells bound : tells uuid who recorded_as Idle (ImageGenerations (Some (keyID, ak)) bound).
Proof.
  unfold Images.ImageGenerations. cbn [pbind one]. apply tells_call; [apply _|]. intros start. cbn [pbind].
  destruct bound as [req|]; try done. destruct (String.eqb _ ""); [done|].
  apply recorded_tells. intros n rec. apply image_model_of_tells. intros mid m. apply image_ratio_tells. intros ratio.
  destruct (decodeReferenceInputs _ _ _ _) as [refs|e]; [|apply billed_none].
  destruct (normalizeImageRequestByModel m _ _) as [cn cs].
  eapply tells_pbind; [apply dispatchImage_tells|]. intros ph [a|] Hph; [done|]. subst ph. apply serve_images_tells.
Qed.

Lemma ImageEdits_tells form : tells uuid who recorded_as Idle (ImageEdits (Some (keyID, ak)) form).
Proof.
  unfold Images.ImageEdits. cbn [pbind one]. apply tells_call; [apply _|]. intros start. cbn [pbind].
  destruct form as [form|]; try done. destruct (String.eqb _ ""); [done|].
  destruct (edit_references _ _ _) as [code|refs]; [done|].
  apply recorded_tells. intros n rec. apply image_model_of_tells. intros mid m. apply image_ratio_tells. intros ratio.
  destruct (normalizeImageRequestByModel m _ _) as [cn cs].
  eapply tells_pbind; [apply dispatchImage_tells|]. intros ph [a|] Hph; [done|]. subst ph. apply serve_images_tells.
Qed.
End images.

(** ** Any number of requests at once *)

Section pool.
Context (ih : ImagesHandler).
Context (loc : location) (cfg : SchedulerConfig) (rt : RuntimeParams).
Context {AEAD : Type} (Open : AEAD → list ascii → list ascii → result (list ascii))
        (NonceSize Overhead : nat) (cipher : AEAD).
Context (json_column : string → option string) (marshal : list string → string) (unmarshal_list : string → option (list string)).
Context (unmarshal : string → result rawConfig) (unmarshal_bool : string → option bool) (http_url : string → bool).
Context (url_path : string → option string) (mac : string → list ascii).
Context (DecodeConfig : string → option (Z * Z * string)) (heic : string → result string) (http_get : string → result HTTPResponse).
Context (decode : string → option json) (num : string → Q).
Context {R : Type} `{!RedisServer R, !RedisHashes R} (uuid : nat → string).

Context (callers : N → APIKey → Prop).

(** What a request leaves in the pool once it is answered: its caller, and the
    answer with its usage log. *)
Definition receipt : Type := option (N * APIKey * (outcome * option Log)).
Definition made_by (keyID : N) (ak : APIKey) (p : proc (system R) (outcome * option Log)) : proc (system R) receipt :=
  a <~ p ;; Done (Some (keyID, ak, a)).

(** What the server works on: the chat requests, image requests and edits of
    its [callers], and traffic that writes under references of its own. *)
Inductive traffic : proc (system R) receipt → Prop :=
  | traffic_chat c ci keyID ak bound :
      callers keyID ak →
      traffic (made_by keyID ak (ChatCompletions (Base_ ih) loc cfg rt Open NonceSize Overhead cipher unmarshal_list decode uuid c
        (Some (handleChatAsImage ih loc cfg rt Open NonceSize Overhead cipher json_column marshal unmarshal unmarshal_bool
                 http_url mac decode num uuid ci)) (Some (keyID, ak)) bound))
  | traffic_image ci keyID ak bound :
      callers keyID ak →
      traffic (made_by keyID ak (ImageGenerations ih loc cfg rt Open NonceSize Overhead cipher json_column marshal unmarshal_list
        unmarshal unmarshal_bool http_url url_path mac DecodeConfig heic http_get decode num uuid ci (Some (keyID, ak)) bound))
  | traffic_edit ci keyID ak form :
      callers keyID ak →
      traffic (made_by keyID ak (ImageEdits ih loc cfg rt Open NonceSize Overhead cipher json_column marshal unmarshal_list
        unmarshal unmarshal_bool http_url url_path mac DecodeConfig heic decode num uuid ci (Some (keyID, ak)) form))
  | traffic_other (p : proc (system R) unit) : follows (elsewhere uuid) (λ _, True) p → traffic (_ <~ p ;; Done None).

Definition in_name_of (u k : N) : Prop := ∃ ak, callers k ak ∧ KeyUserID ak = u.
Definition receipt_kept (ph : phase) (r : receipt) : Prop :=
  match r with None => True | Some (keyID, ak, a) => recorded_as uuid keyID ak ph a end.

Lemma made_by_tells keyID ak p :
  tells uuid in_name_of (recorded_as uuid keyID ak) Idle p → tells uuid in_name_of receipt_kept Idle (made_by keyID ak p).
Proof. intros H. unfold made_by. by eapply tells_pbind; [exact H|]. Qed.

Lemma traffic_tells p : 0 < lock_ttl cfg → traffic p → tells uuid in_name_of receipt_kept Idle p.
Proof.
  intros Httl [c ci keyID ak bound Hc|ci keyID ak bound Hc|ci keyID ak form Hc|q Hq];
    [assert (in_name_of (KeyUserID ak) keyID) as Hw by (by exists ak); apply made_by_tells..|].
  - apply ChatCompletions_tells; [done|done|]. intros f [= <-] n mid m req rec. by apply handleChatAsImage_tells.
  - by apply ImageGenerations_tells.
  - by apply ImageEdits_tells.
  - eapply (tells_pbind _ _ (λ _ _, True)); [by apply tells_elsewhere|done].
Qed.

End pool.

(** ** What images cost when nothing fails *)

(** An answer with [k] images: the list of them, or a chat message that links
    every one. *)
Definition shows (k : Z) (o : outcome) : Prop :=
  match o with
  | Delivered _ data => Z.of_nat (length data) = k
  | Replied sent => ∃ data, sent = [SentWhole (markdown data) "stop" 0] ∧ Z.of_nat (length data) = k
  | Refused _ _ => False
  end.

Section money.
Context (d0 : database) (b : hold) (bal fro : Z).
Context (ih : ImagesHandler).
Context (loc : location) (cfg : SchedulerConfig) (rt : RuntimeParams).
Context {AEAD : Type} (Open : AEAD → list ascii → list ascii → result (list ascii))
        (NonceSize Overhead : nat) (cipher : AEAD).
Context (json_column : string → option string) (marshal : list string → string).
Context (unmarshal : string → result rawConfig) (unmarshal_bool : string → option bool) (http_url : string → bool).
Context (mac : string → list ascii).
Context (decode : string → option json) (num : string → Q).
Context {R : Type} `{!RedisServer R, !RedisHashes R} (uuid : nat → string) (c : ImageCall).
Hypotheses (Hbal : 0 ≤ bal) (Hibal : in_i64 bal) (Hfro : 0 ≤ fro) (Hifro : in_i64 fro)
  (Hamt : 0 ≤ h_amount b) (Httl : 0 < lock_ttl cfg) (Hiamt : in_i64 (h_amount b)).

Abbreviation holding := (Stories.holding d0 b bal fro).
Abbreviation settled := (Stories.settled d0 b bal fro).

Lemma holding_nothing d : h_amount b = 0 → holding d ↔ settled 0 d.
Proof. intros E. unfold Stories.holding, Stories.settled. by rewrite E, Z.add_0_r. Qed.

(** A refusal that costs nothing. *)
Definition refused (a : answer) (d : database) : Prop := served a.1 = false ∧ LogStatus a.2 = StatusFailed ∧ settled 0 d.

Lemma refund_if_settles code rec :
  runs holding (refund_if (R:=R) b code rec) (λ rec' d, LogStatus rec' = StatusFailed ∧ settled 0 d).
Proof.
  unfold refund_if. destruct (Z.eqb_spec (h_amount b) 0) as [E|_].
  - apply runs_done. intros d Hd. split; [done|]. by apply holding_nothing.
  - unfold refund. eapply runs_bind with (Q := λ _, settled 0); [apply runs_db; [apply _|by apply Refund_settles]|].
    intros ?. by apply runs_done.
Qed.

Lemma undo_refused logged status code rec : runs holding (undo (R:=R) b logged status code rec) refused.
Proof.
  unfold undo. eapply runs_bind; [apply refund_if_settles|]. intros rec'. apply runs_done. intros d [H1 H2]. done.
Qed.

Lemma undo_task_refused taskID code rec : runs holding (undo_task (R:=R) b taskID code rec) refused.
Proof.
  unfold undo_task. eapply runs_bind; [apply refund_if_settles|]. intros rec'. apply runs_pure. intros Hr.
  eapply runs_bind; [apply runs_aside; [repeat aside_step|apply purse_books]|]. intros ?. apply runs_done. done.
Qed.

Lemma settle_image_settles (flag : bool) cost :
  in_i64 cost → (flag = false → h_amount b = 0 ∧ cost ≤ 0) →
  runs holding (settle_image c (R:=R) b flag cost) (λ _, settled (Z.max 0 cost)).
Proof.
  intros Hc Hf. unfold settle_image. eapply runs_bind with (Q := λ _, settled (Z.max 0 cost)).
  - destruct flag; [apply runs_db; [apply _|intros d; by apply Settle_settles]|].
    apply runs_done. intros d Hd. destruct Hf as [E Hle]; [done|]. rewrite Z.max_l by done. by apply holding_nothing.
  - intros ?. eapply runs_bind; [apply runs_aside; [repeat aside_step|apply purse_books]|]. intros ?. by apply runs_done.
Qed.

Lemma with_task_runs task refs rec k (Q : answer → database → Prop) :
  (∀ a d, refused a d → Q a d) → runs holding k Q →
  runs holding (with_task ih json_column marshal unmarshal unmarshal_bool http_url (R:=R) b task refs rec k) Q.
Proof.
  intros HQ Hk. unfold with_task. eapply runs_bind; [apply runs_aside; [repeat aside_step|apply purse_books]|].
  intros [id|e]; [|eapply runs_weaken; [apply undo_refused|done|done]].
  eapply runs_bind; [apply runs_aside; [apply archiveTaskReferences_aside|apply purse_books]|].
  intros [[]|e]; [exact Hk|eapply runs_weaken; [apply undo_task_refused|done|done]].
Qed.

Lemma hold_if_runs rec k (Q : answer → database → Prop) :
  (∀ a d, refused a d → Q a d) → runs holding k Q → runs (purse d0 b bal fro) (hold_if (R:=R) b rec k) Q.
Proof.
  intros HQ Hk. unfold hold_if. destruct (Z.ltb_spec 0 (h_amount b)).
  - apply prepay_runs; [done..| |done]. intros status code d Hd. by apply HQ.
  - eapply runs_weaken; [exact Hk| |done]. intros d Hd. apply holding_nothing; [lia|].
    unfold Stories.settled. by rewrite Z.sub_0_r.
Qed.

(** [k] images at the price that was held. *)
Definition as_held (k : Z) (a : answer) (d : database) : Prop :=
  if served a.1
  then LogStatus a.2 = StatusSuccess ∧ ImageCount a.2 = k ∧ CreditCost a.2 = h_amount b ∧ settled (h_amount b) d ∧
    shows k a.1
  else LogStatus a.2 = StatusFailed ∧ settled 0 d.

Lemma refused_as_held k a d : refused a d → as_held k a d.
Proof. intros (H1 & H2 & H3). unfold as_held. by rewrite H1. Qed.

Lemma ComputeImageCost_in m k ratio size : in_i64 (ComputeImageCost m k ratio size).
Proof.
  unfold ComputeImageCost. destruct m; [|by vm_compute]. unfold to_int. case_bool_decide; [done|].
  unfold in_i64, i64_min, i64_max. lia.
Qed.

Lemma delivers_counts n res :
  (1 ≤ n)%nat → delivers n res → ResStatus res = TaskSuccess →
  length (ResSignedURLs res) = n ∧ Nat.max (Nat.max (length (ResSignedURLs res)) (length (ResThumbURLs res))) (length (ResFileIDs res)) = n.
Proof.
  intros Hn [(_ & H1 & H2 & [H3|H3] & _)|H] Hs; [rewrite H3; cbn; lia|lia|]. by rewrite H in Hs.
Qed.

Lemma draw_pool_as_held taskID m prompt size k attempts refs ratio deadline rec :
  1 ≤ k → h_amount b = ComputeImageCost (Some m) k ratio size →
  runs holding (draw_pool ih loc cfg rt Open NonceSize Overhead cipher json_column marshal unmarshal unmarshal_bool http_url
    mac decode num (R:=R) uuid c b taskID m prompt size k attempts refs ratio deadline rec) (as_held k).
Proof.
  intros Hk Hcost. unfold draw_pool. eapply runs_bind; [apply runs_follows; [by apply run_images_gives|apply purse_books]|].
  intros res. apply runs_pure. intros Hres. cbn [OptN run_options] in Hres. rewrite Z.max_r in Hres by lia. cbv zeta.
  destruct (String.eqb_spec (ResStatus res) TaskSuccess) as [Hs|Hs]; cbn [negb].
  2: { eapply runs_weaken; [apply undo_refused|done|apply refused_as_held]. }
  destruct (delivers_counts (Z.to_nat k) res ltac:(lia) Hres Hs) as [_ Hmax].
  eapply runs_bind; [apply runs_follows; [apply buildAPIImageData_gives|apply purse_books]|].
  intros data. apply runs_pure. rewrite Hmax. intros Hdata. unfold imageResponseAccounting. rewrite Hdata, Z2Nat.id by lia.
  destruct (Z.leb_spec k 0); [lia|]. destruct (Z.eqb_spec k 0); [lia|]. rewrite <-Hcost.
  eapply runs_bind; [apply settle_image_settles; [done|]; destruct (Z.ltb_spec 0 (h_amount b)); [done|lia]|].
  intros []. eapply runs_bind; [apply runs_aside; [repeat aside_step|apply purse_books]|]. intros ?. apply runs_done.
  intros d Hd. rewrite Z.max_r in Hd by done. unfold as_held. cbn. split_and!; [done|done|done|done|lia].
Qed.

Lemma chat_image_as_held keyID ak mid m prompt size deadline rec :
  runs holding (chat_image ih loc cfg rt Open NonceSize Overhead cipher json_column marshal unmarshal unmarshal_bool http_url
    mac decode num (R:=R) uuid c b keyID ak mid m prompt size deadline rec) (as_held 1).
Proof.
  unfold chat_image. eapply runs_bind; [apply runs_aside; [apply GenerateTaskID_aside|apply purse_books]|]. intros taskID.
  eapply runs_bind; [apply runs_aside; [repeat aside_step|apply purse_books]|]. intros ?.
  eapply runs_bind; [apply runs_follows; [by apply run_images_gives|apply purse_books]|].
  intros res. apply runs_pure. intros Hres. cbn [OptN run_options] in Hres. cbv zeta.
  destruct (String.eqb_spec (ResStatus res) TaskSuccess) as [Hs|Hs]; cbn [negb].
  2: { eapply runs_weaken; [apply undo_refused|done|apply refused_as_held]. }
  destruct (delivers_counts 1 res ltac:(lia) Hres Hs) as [Hone Hmax]. rewrite Hone.
  eapply runs_bind; [apply settle_image_settles; [done|]; destruct (Z.ltb_spec 0 (h_amount b)); [done|lia]|].
  intros []. eapply runs_bind; [apply runs_aside; [repeat aside_step|apply purse_books]|]. intros ?.
  eapply runs_bind; [apply runs_aside; [repeat aside_step|apply purse_books]|]. intros ?.
  eapply runs_bind; [apply runs_follows; [apply buildAPIImageData_gives|apply purse_books]|].
  intros data. apply runs_pure. rewrite Hmax. intros Hdata.
  eapply runs_bind; [apply runs_aside; [repeat aside_step|apply purse_books]|]. intros ?. apply runs_done.
  intros d Hd. rewrite Z.max_r in Hd by done. unfold as_held. cbn. split_and!; [done|done|done|done|].
  exists data. split; [done|lia].
Qed.

(** The price of a channel, or the hold that stays when that price is
    nothing. *)
Definition as_channel (a : answer) (d : database) : Prop :=
  paid d0 b bal fro a d ∨
  served a.1 = true ∧ LogStatus a.2 = StatusSuccess ∧ CreditCost a.2 ≤ 0 < h_amount b ∧ holding d.

Lemma refused_as_channel a d : refused a d → as_channel a d.
Proof. intros (H1 & H2 & H3). left. unfold paid. by rewrite H1. Qed.

Lemma draw_channel_pays taskID mid m req ratio routes ir rec :
  runs holding (draw_channel ih json_column marshal unmarshal unmarshal_bool http_url mac (R:=R) c b taskID mid m req ratio
    routes ir rec) as_channel.
Proof.
  unfold draw_channel. destruct (pickImageRoute _ _ _ _) as [selected failures].
  assert (∀ code, runs holding (undo_task (R:=R) b taskID code rec) as_channel) as Hundo.
  { intros code. eapply runs_weaken; [apply undo_task_refused|done|apply refused_as_channel]. }
  eapply runs_bind; [apply runs_aside; [apply mark_failures_aside|apply purse_books]|]. intros [].
  destruct selected as [[route result]|]; [|apply Hundo].
  eapply runs_bind; [apply runs_aside; [repeat aside_step|apply purse_books]|]. intros ?. cbv zeta.
  destruct (_ =? 0); [apply Hundo|]. destruct (archive_channel _ _ _ _ _ _) as [arch|?]; [|apply Hundo].
  set (cost := ComputeImageCost _ _ _ _). assert (in_i64 cost) as Hic by apply ComputeImageCost_in. clearbody cost.
  eapply runs_bind; [apply runs_aside; [repeat aside_step|apply purse_books]|].
  intros [[]|e]; [|eapply runs_weaken; [apply undo_refused|done|apply refused_as_channel]].
  eapply runs_bind; [apply runs_aside; [apply buildAPIImageData_aside|apply purse_books]|]. intros data.
  destruct (decide (0 < cost ∨ h_amount b = 0)) as [H|H].
  - eapply runs_bind; [apply settle_image_settles; [done|destruct (Z.ltb_spec 0 cost); [done|lia]]|]. intros []. apply runs_done.
    intros d Hd. left. unfold paid. by cbn.
  - eapply runs_bind with (Q := λ _, holding).
    + unfold settle_image. replace (0 <? cost) with false by lia.
      eapply runs_bind; [by apply (runs_done holding (Ok tt) (λ _, holding))|]. intros ?.
      eapply runs_bind; [apply runs_aside; [repeat aside_step|apply purse_books]|]. intros ?. by apply runs_done.
    + intros []. apply runs_done. intros d Hd. right. cbn. split_and!; [done|done|lia|lia|done].
Qed.
End money.

(** The reference of the hold does not matter. *)
Lemma as_channel_ext d0 b b' bal fro a d :
  h_user b = h_user b' → h_amount b = h_amount b' → as_channel d0 b bal fro a d → as_channel d0 b' bal fro a d.
Proof. intros E1 E2. unfold as_channel, paid, settled, holding, purse. by rewrite E1, E2. Qed.

(** What that says of the wallet. *)
Lemma as_channel_charged d0 b bal fro a d :
  as_channel d0 b bal fro a d →
  charged_as_logged (h_user b) bal fro a d ∨
  served a.1 = true ∧ CreditCost a.2 ≤ 0 ∧ 0 < h_amount b ∧ wallet_is d (h_user b) (bal - h_amount b) (fro + h_amount b).
Proof.
  unfold as_channel, paid, charged_as_logged, settled, holding, purse. intros [H|(H1 & H2 & [H3 H4] & H5 & _)].
  - left. destruct (served a.1); [tauto|]. rewrite Z.sub_0_r in H. tauto.
  - right. tauto.
Qed.

Section theorems.
Context (ih : ImagesHandler).
Context (loc : location) (cfg : SchedulerConfig) (rt : RuntimeParams).
Context {AEAD : Type} (Open : AEAD → list ascii → list ascii → result (list ascii))
        (NonceSize Overhead : nat) (cipher : AEAD).
Context (json_column : string → option string) (marshal : list string → string).
Context (unmarshal : string → result rawConfig) (unmarshal_bool : string → option bool) (http_url : string → bool).
Context (mac : string → list ascii).
Context (decode : string → option json) (num : string → Q).
Context {R : Type} `{!RedisServer R, !RedisHashes R} (uuid : nat → string) (c : ImageCall).

Abbreviation serve_images := (serve_images ih loc cfg rt Open NonceSize Overhead cipher json_column marshal unmarshal
  unmarshal_bool http_url mac decode num (R:=R) uuid c).
Abbreviation serve_chat_image := (serve_chat_image ih loc cfg rt Open NonceSize Overhead cipher json_column marshal unmarshal
  unmarshal_bool http_url mac decode num (R:=R) uuid c).

(** What the account pool is asked for: a count, a size, and the process that
    serves them. *)
Inductive pool_request (u : N) (m : Model) (ratio : Q) : Z → string → proc (system R) answer → Prop :=
  | request_images what timeout keyID ak mid prompt size n refs refID rec :
      KeyUserID ak = u →
      pool_request u m ratio (normalizeLocalImageRequestByModel m n size).1 (normalizeLocalImageRequestByModel m n size).2
        (serve_images what timeout keyID ak mid m prompt size n refs refID ratio rec)
  | request_chat keyID ak mid prompt refID rec :
      KeyUserID ak = u →
      pool_request u m ratio 1 "1024x1024" (serve_chat_image keyID ak mid m prompt refID ratio rec).

(** C8: the pool delivers what was held for, at the price that was held.
    Where no call fails, whatever the upstream answers, however the goroutines
    of the runner interleave, and however often they try again: an image
    request, an edit or a chat with an image model is either answered with
    exactly the images it was counted for, logged with that count and with the
    price of the hold, by which the available credits fell; or it is refused,
    logged as a failure, and the wallet is what it was.  The frozen part is what
    it was, and no other wallet moves. *)
Theorem pool_images_as_held u m ratio k size p bal fro w a w' :
  pool_request u m ratio k size p →
  0 < lock_ttl cfg → 0 ≤ bal → in_i64 bal → 0 ≤ fro → in_i64 fro → 0 ≤ ComputeImageCost (Some m) k ratio size →
  w_faults w = [] → wallet_is (sys_db (w_db w)) u bal fro → exec_proc p w = (a, w') →
  (if served a.1
   then LogStatus a.2 = StatusSuccess ∧ ImageCount a.2 = k ∧ CreditCost a.2 = ComputeImageCost (Some m) k ratio size ∧
     wallet_is (sys_db (w_db w')) u (bal - ComputeImageCost (Some m) k ratio size) fro ∧
     shows k a.1
   else LogStatus a.2 = StatusFailed ∧ wallet_is (sys_db (w_db w')) u bal fro) ∧
  ∀ v, v ≠ u → users (sys_db (w_db w')) !! v = users (sys_db (w_db w)) !! v.
Proof.
  intros Hreq Httl Hbal Hib Hfro Hif Hamt Hw Hp Hex.
  assert (∃ b, h_user b = u ∧ h_amount b = ComputeImageCost (Some m) k ratio size ∧
    runs (purse (sys_db (w_db w)) b bal fro) p (as_held (sys_db (w_db w)) b bal fro k)) as (b & <- & Hb & Hr).
  { destruct Hreq as [what timeout keyID ak mid prompt size n refs refID rec <-|keyID ak mid prompt refID rec <-].
    - destruct (normalizeLocalImageRequestByModel m n size) as [k size'] eqn:En. cbn [fst snd] in *.
      exists {| h_what := what; h_user := KeyUserID ak; h_key := keyID; h_amount := ComputeImageCost (Some m) k ratio size';
                h_ref := refID |}. split_and!; [done..|]. unfold Images.serve_images. rewrite En.
      pose proof (ComputeImageCost_in (Some m) k ratio size') as Hic.
      assert (1 ≤ k) as Hk. { injection En as <- _. apply normalizeImageCount_bounds. }
      eapply runs_bind; [apply runs_aside; [unfold detached; repeat aside_step|apply purse_books]|]. intros deadline.
      apply hold_if_runs; [done..|apply refused_as_held|].
      eapply runs_bind; [apply runs_aside; [apply GenerateTaskID_aside|apply purse_books]|]. intros taskID.
      apply with_task_runs; [done..|apply refused_as_held|]. by apply draw_pool_as_held.
    - exists {| h_what := "chat->image"; h_user := KeyUserID ak; h_key := keyID;
                h_amount := ComputeImageCost (Some m) 1 ratio "1024x1024"; h_ref := refID |}. split_and!; [done..|].
      unfold Images.serve_chat_image. pose proof (ComputeImageCost_in (Some m) 1 ratio "1024x1024") as Hic.
      eapply runs_bind; [apply runs_aside; [unfold detached; repeat aside_step|apply purse_books]|]. intros deadline.
      apply hold_if_runs; [done..|apply refused_as_held|]. by apply chat_image_as_held. }
  destruct (Hr w Hw) as [_ H]; [by split|]. rewrite Hex in H. rewrite <-Hb.
  unfold as_held, settled, purse in H. cbn [fst snd] in H. destruct (served a.1); cbn in *; rewrite ?Z.sub_0_r in H; tauto.
Qed.

Context (url_path : string → option string).

(** What a channel does with the wallet of the caller of [b]. *)
Lemma dispatchImage_pays d0 b keyID ak mid m req refs rec ratio bal fro :
  0 ≤ bal → in_i64 bal → 0 ≤ fro → in_i64 fro → 0 ≤ h_amount b → in_i64 (h_amount b) →
  h_user b = KeyUserID ak → h_amount b = ComputeImageCost (Some m) (GenN req) ratio (GenSize req) →
  runs (purse d0 b bal fro)
    (dispatchImageToChannel ih Open NonceSize Overhead cipher json_column marshal unmarshal unmarshal_bool http_url url_path mac
       (R:=R) uuid c keyID ak mid m req refs rec ratio)
    (λ r d, match r with
            | None => purse d0 b bal fro d
            | Some a => as_channel d0 b bal fro a d end).
Proof.
  intros Hbal Hib Hfro Hif Hamt Hic Hu Ha. unfold dispatchImageToChannel. destruct (negb _); [by apply runs_done|].
  eapply runs_bind; [apply runs_aside; [repeat aside_step|apply purse_books]|].
  intros [[|route routes]|e]; [by apply runs_done| |by apply runs_done].
  destruct (buildChannelImageRequest _ _ _ _ _ _ _ _) as [code|[ir routes']].
  { apply runs_done. intros d Hd. left. unfold paid, settled. cbn. by rewrite Z.sub_0_r. }
  eapply runs_bind; [apply runs_aside; [repeat aside_step|apply purse_books]|]. intros refID. cbv zeta. rewrite <-Ha, <-Hu.
  eapply runs_bind with (Q := as_channel d0 b bal fro); [|intros a; by apply runs_done].
  generalize (match refID with Ok s => s | Err _ => "" end). intros ref.
  set (b' := {| h_what := "image"; h_user := h_user b; h_key := keyID; h_amount := h_amount b; h_ref := ref |}).
  assert (h_user b' = h_user b) as Hu' by done. assert (h_amount b' = h_amount b) as Ha' by done. clearbody b'.
  rewrite <-Ha' in Hamt, Hic. eapply (runs_weaken (purse d0 b' bal fro) _ _ (as_channel d0 b' bal fro)).
  - apply hold_if_runs; [done..|apply refused_as_channel|].
    eapply runs_bind; [apply runs_aside; [apply GenerateTaskID_aside|apply purse_books]|]. intros taskID.
    apply with_task_runs; [done..|apply refused_as_channel|]. apply (draw_channel_pays d0 b' bal fro);
      [exact Hbal|exact Hib|exact Hfro|exact Hif|exact Hamt|exact Hic].
  - intros d. unfold purse. by rewrite Hu'.
  - intros a d. by apply as_channel_ext.
Qed.

Lemma channel_images_pay_held keyID ak mid m req refs rec ratio bal fro held (w : world (system R)) r w' :
  held = ComputeImageCost (Some m) (GenN req) ratio (GenSize req) →
  0 ≤ bal → in_i64 bal → 0 ≤ fro → in_i64 fro → 0 ≤ held → in_i64 held →
  w_faults w = [] → wallet_is (sys_db (w_db w)) (KeyUserID ak) bal fro →
  exec_proc (dispatchImageToChannel ih Open NonceSize Overhead cipher json_column marshal unmarshal unmarshal_bool http_url url_path
    mac uuid c keyID ak mid m req refs rec ratio) w = (r, w') →
  match r with
  | None => wallet_is (sys_db (w_db w')) (KeyUserID ak) bal fro
  | Some a =>
      charged_as_logged (KeyUserID ak) bal fro a (sys_db (w_db w')) ∨
      served a.1 = true ∧ CreditCost a.2 ≤ 0 ∧ 0 < held ∧ wallet_is (sys_db (w_db w')) (KeyUserID ak) (bal - held) (fro + held)
  end.
Proof.
  intros Hheld Hbal Hib Hfro Hif Hamt Hic Hw Hp Hex.
  pose proof (dispatchImage_pays (sys_db (w_db w)) {| h_what := "image"; h_user := KeyUserID ak; h_key := keyID; h_amount := held; h_ref := "" |}
    keyID ak mid m req refs rec ratio bal fro Hbal Hib Hfro Hif Hamt Hic eq_refl Hheld w Hw (conj Hp (λ v _, eq_refl))) as [_ H].
  rewrite Hex in H. destruct r as [a|]; [exact (as_channel_charged _ _ _ _ _ _ H)|exact (proj1 H)].
Qed.

(** C9: what a channel charges for images.  Where no call fails, whatever the
    adapters answer, a request that a channel handles is refused and costs
    nothing, or is answered and costs what the usage log says, with one
    exception: when the price of the channel rounds to nothing while the
    estimate did not, nothing is settled and the hold stays on the wallet for
    good.  A request no channel handles costs nothing yet. *)
Theorem channel_images_pay keyID ak mid m req refs rec ratio bal fro (w : world (system R)) r w' :
  0 ≤ bal → in_i64 bal → 0 ≤ fro → in_i64 fro →
  0 ≤ ComputeImageCost (Some m) (GenN req) ratio (GenSize req) →
  w_faults w = [] → wallet_is (sys_db (w_db w)) (KeyUserID ak) bal fro →
  exec_proc (dispatchImageToChannel ih Open NonceSize Overhead cipher json_column marshal unmarshal unmarshal_bool http_url url_path
    mac uuid c keyID ak mid m req refs rec ratio) w = (r, w') →
  match r with
  | None => wallet_is (sys_db (w_db w')) (KeyUserID ak) bal fro
  | Some a =>
      charged_as_logged (KeyUserID ak) bal fro a (sys_db (w_db w')) ∨
      served a.1 = true ∧ CreditCost a.2 ≤ 0 ∧
      let held := ComputeImageCost (Some m) (GenN req) ratio (GenSize req) in
      0 < held ∧ wallet_is (sys_db (w_db w')) (KeyUserID ak) (bal - held) (fro + held)
  end.
Proof.
  intros Hbal Hib Hfro Hif Hamt. eapply channel_images_pay_held; [reflexivity|done..|apply ComputeImageCost_in].
Qed.
End theorems.

(** ** Requests, call by call *)

Definition image_model : Model := {|
  Slug := "gpt-image-2"; ModelType := "image"; UpstreamModelSlug := "auto";
  InputPricePer1M := 0; OutputPricePer1M := 0; CacheReadPricePer1M := 0; ImagePricePerCall := 400;
  ImagePricePerCall2K := 800; ImagePricePerCall4K := 0; SupportsMultiImage := true; SupportsOutputSize := true;
  Description := ""; ModelEnabled := true; ModelDeletedAt := None |}.
Definition image_db : database :=
  with_models (λ _, {[ 1%N := image_model ]}) (with_users (λ _, {[ 7%N := sample_user 20000 0 ]}) pool_db).
Definition image_world (d : database) (fs : list bool) : world (system store) :=
  World (System d empty_store (2 * second) [3; 5; 400000000; 7]%N 0 Models.NewRegistry Users.empty_cache) fs.
Definition images_handler : ImagesHandler := {|
  Base_ := {| GroupTTL := None; Limiter := true; ChannelsMounted := true; GatewayUpstreamTimeoutSec := None |};
  IRunner := pool_runner;
  IStores := no_stores; ISettings := None; SaveTaskReferences := None; referenceUploader := None;
  referenceArchiveUploader := None; NewReferenceUploader := λ _ _ _, Err EDriver |}.
Definition image_call : ImageCall := {|
  ImClientIP := "10.0.0.1"; ImUserAgent := "curl"; im_net := image_net; im_turns := λ _ _, [true; false; false; true];
  im_arrival := λ _, [1; 0]%nat;
  ImageGenerate := λ _ _ _ _ r, Ok {| URLs := ["https://y/1"]; B64s := [] |} |}.
Definition image_request : ImageGenRequest := {|
  GenModel := ""; GenPrompt := "a lake"; GenN := 2; GenSize := "1024x1024"; GenFormat := ""; GenReferences := [] |}.
Definition toy_mac (s : string) : list ascii := take 12 (bytes s ++ repeat "0"%char 12).
Definition image_run : proc (system store) (outcome * option Log) :=
  ImageGenerations images_handler UTC test_cfg test_rt toy_open 12 16 tt Some toy_marshal (λ _, None) (λ _, Err EDriver) (λ _, None)
    (λ _, true) (λ _, None) toy_mac (λ _, None) (λ _, Err EDriver) (λ _, Err EDriver) sample_decode (λ _, 0%Q) chat_uuid image_call
    (Some chat_key) (Some image_request).

(** Two images, drawn by two accounts at once. *)
Example image_run_delivers :
  match exec_proc image_run (image_world image_db []) with
  | (Delivered taskID data, Some rec, w) =>
      map ImgFileID data = ["file-1"; "file-0"] ∧ ImageCount rec = 2 ∧ CreditCost rec = 800 ∧
      map (λ t, (TxType t, TxAmount t)) (about (chat_uuid 0) (sys_db (w_db w))) =
        [(KindFreeze, -800); (KindUnfreeze, 800); (KindConsume, -800)] ∧
      map (λ t, (TaskStatus t, TaskCreditCost t)) (map_to_list (image_tasks (sys_db (w_db w)))).*2 = [(TaskSuccess, 800)]
  | _ => False
  end.
Proof. by vm_compute. Qed.

Definition free_channel : ChannelInput := {|
  InName := "relay"; InType := "openai"; InBaseURL := "https://relay.example"; InAPIKey := "sk-0123456789abcd";
  InChEnabled := true; InPriority := 0; InWeight := 0; InTimeoutS := 0; InRatio := 1 # 2000; InExtra := ""; InChRemark := "" |}.
Definition free_mapping : MappingInput := {|
  InChannelID := 1; InLocalModel := "gpt-image-2"; InUpstreamModel := "dall-e-3"; InModality := "image"; InMapEnabled := true;
  InMapPriority := 0 |}.
Definition free_channel_db : database :=
  (run (CreateMapping free_mapping)
     (run (Channels.Create Some toy_seal toy_open 12 16 tt free_channel (sample_nonce "n")) image_db).2).2.

(** The hold that is never released.  On a channel so cheap that its price
    rounds to nothing both images are delivered for free, and yet the 800
    credits of the hold are gone from the balance and stay frozen: the journal
    of the request ends with the hold. *)
Example free_channel_keeps_hold :
  match exec_proc image_run (image_world free_channel_db []) with
  | (Delivered taskID data, Some rec, w) =>
      length data = 2%nat ∧ LogStatus rec = StatusSuccess ∧ CreditCost rec = 0 ∧
      wallet_is (sys_db (w_db w)) 7 (20000 - 800) 800 ∧
      map (λ t, (TxType t, TxAmount t)) (about (chat_uuid 1) (sys_db (w_db w))) = [(KindFreeze, -800)]
  | _ => False
  end.
Proof. vm_compute. split_and!; try done. eexists. split_and!; reflexivity. Qed.

(** Two images that a handler is asked for. *)
Definition held_images : proc (system store) answer :=
  serve_images images_handler UTC test_cfg test_rt toy_open 12 16 tt Some toy_marshal (λ _, Err EDriver) (λ _, None) (λ _, true)
    toy_mac sample_decode (λ _, 0%Q) chat_uuid image_call "image" (7 * minute) 3 chat_key.2 1 image_model "a lake" "" 2 [] "r" 1
    (image_log image_call 3 chat_key.2 "r").

Lemma pool_images_as_held_witness :
  let a := (exec_proc held_images (image_world image_db [])).1 in
  served a.1 = true ∧ ImageCount a.2 = 2 ∧
  wallet_is (sys_db (w_db (exec_proc held_images (image_world image_db [])).2)) 7 (20000 - 800) 0.
Proof.
  assert (Hn : 0 ≤ 20000 ∧ in_i64 20000 ∧ 0 ≤ 0 ∧ in_i64 0) by (split_and!; by vm_compute).
  assert (Hs : served (exec_proc held_images (image_world image_db [])).1.1 = true) by (by vm_compute).
  assert (Hc : ComputeImageCost (Some image_model) 2 1 "1024x1024" = 800) by (by vm_compute).
  assert (Hc0 : 0 ≤ ComputeImageCost (Some image_model) 2 1 "1024x1024") by (by vm_compute).
  assert (Hp : wallet_is (sys_db (w_db (image_world image_db []))) 7 20000 0).
  { exists (sample_user 20000 0). split_and!; by vm_compute. }
  assert (H0 : w_faults (image_world image_db []) = []) by done.
  assert (Httl : 0 < lock_ttl test_cfg) by by vm_compute.
  assert (Hr : pool_request images_handler UTC test_cfg test_rt toy_open 12 16 tt Some toy_marshal (λ _, Err EDriver) (λ _, None)
    (λ _, true) toy_mac sample_decode (λ _, 0%Q) chat_uuid image_call 7 image_model 1 2 "1024x1024" held_images).
  { exact (request_images images_handler UTC test_cfg test_rt toy_open 12 16 tt Some toy_marshal (λ _, Err EDriver) (λ _, None)
      (λ _, true) toy_mac sample_decode (λ _, 0%Q) chat_uuid image_call 7 image_model 1 "image" (7 * minute) 3 chat_key.2 1
      "a lake" "" 2 [] "r" (image_log image_call 3 chat_key.2 "r") eq_refl). }
  revert Hs Hp H0. generalize (image_world image_db []). intros w Hs Hp H0. cbv zeta.
  destruct (exec_proc held_images w) as [a w'] eqn:Hex. cbn [fst snd] in *.
  pose proof (pool_images_as_held images_handler UTC test_cfg test_rt toy_open 12 16 tt Some toy_marshal (λ _, Err EDriver)
    (λ _, None) (λ _, true) toy_mac sample_decode (λ _, 0%Q) chat_uuid image_call 7 image_model 1 2 "1024x1024" held_images 20000 0
    w a w' Hr Httl (proj1 Hn) (proj1 (proj2 Hn)) (proj1 (proj2 (proj2 Hn))) (proj2 (proj2 (proj2 Hn))) Hc0 H0 Hp Hex) as [H _].
  rewrite Hs, Hc in H. destruct H as (_ & H1 & _ & H2 & _). split_and!; [done|exact H1|exact H2].
Defined.

Lemma channel_images_pay_witness :
  let p := dispatchImageToChannel images_handler toy_open 12 16 tt Some toy_marshal (λ _, Err EDriver) (λ _, None) (λ _, true)
    (λ _, None) toy_mac chat_uuid image_call 3 chat_key.2 1 image_model image_request [] (image_log image_call 3 chat_key.2 "r") 1 in
  match exec_proc p (image_world free_channel_db []) with
  | (Some a, w) => charged_as_logged 7 20000 0 a (sys_db (w_db w)) ∨ wallet_is (sys_db (w_db w)) 7 (20000 - 800) 800
  | _ => False
  end.
Proof.
  cbv zeta. set (p := dispatchImageToChannel _ _ _ _ _ _ _ _ _ _ _ _ _ _ _ _ _ _ _ _ _ _).
  assert (Hn : 0 ≤ 20000 ∧ in_i64 20000 ∧ 0 ≤ 0 ∧ in_i64 0) by (split_and!; by vm_compute).
  assert (Hs : is_Some (exec_proc p (image_world free_channel_db [])).1) by (vm_compute; eauto).
  assert (Hc : ComputeImageCost (Some image_model) (GenN image_request) 1 (GenSize image_request) = 800) by (by vm_compute).
  assert (Hc0 : 0 ≤ ComputeImageCost (Some image_model) (GenN image_request) 1 (GenSize image_request)) by (by vm_compute).
  assert (Hp : wallet_is (sys_db (w_db (image_world free_channel_db []))) 7 20000 0).
  { exists (sample_user 20000 0). split_and!; by vm_compute. }
  assert (H0 : w_faults (image_world free_channel_db []) = []) by done.
  revert Hs Hp H0. generalize (image_world free_channel_db []). intros w Hs Hp H0.
  destruct (exec_proc p w) as [r w'] eqn:Hex. cbn [fst] in Hs. unfold p in Hex. clear p.
  pose proof (channel_images_pay images_handler toy_open 12 16 tt Some toy_marshal (λ _, Err EDriver) (λ _, None) (λ _, true)
    toy_mac chat_uuid image_call (λ _, None) 3 chat_key.2 1 image_model image_request [] (image_log image_call 3 chat_key.2 "r") 1
    20000 0 w r w' (proj1 Hn) (proj1 (proj2 Hn)) (proj1 (proj2 (proj2 Hn))) (proj2 (proj2 (proj2 Hn))) Hc0 H0 Hp Hex) as H. cbv zeta in H.
  rewrite Hc in H. destruct r as [a|]; [|by destruct Hs]. destruct H as [H|(_ & _ & _ & H)]; [by left|by right].
Defined.

(** An image request from its arrival to its answer. *)
Abbreviation sample_traffic := (traffic images_handler UTC test_cfg test_rt toy_open 12 16 tt Some toy_marshal (λ _, None)
  (λ _, Err EDriver) (λ _, None) (λ _, true) (λ _, None) toy_mac (λ _, None) (λ _, Err EDriver) (λ _, Err EDriver) sample_decode
  (λ _, 0%Q) chat_uuid (λ keyID ak, (keyID, ak) = chat_key)).

